(* ===== verification/_CoqProject ===== *)
-Q . S2P
Prelude.v
Machine.v
Spinlock.v
CString.v
Kalloc.v
Vm.v
VmThm.v
Proc.v
ProcOps.v
Sched.v
SchedThm.v
Fair.v
Pipe.v
Block.v
Bio.v
Ide.v
Log.v
LogThm.v
Fs.v
FsBits.v
FsThm.v
File.v
FileThm.v
FileRefs.v
Lapic.v
Mmu.v
Syscall.v
Entry.v
Mp.v
Intr.v
Sysproc.v
Trap.v
TrapThm.v
TickThm.v
SbrkThm.v
Sysfile.v
SysfileThm.v
Mkfs.v
MkfsThm.v
MkfsImage.v
Grep.v
Printf.v
Console.v
Kbd.v
Sh.v
User.v
ShRun.v
Programs.v
Umalloc.v
Exec.v
TrapFs.v
ExecThm.v
ExecFs.v
Boot.v
