(* ===== verification/Prelude.v ===== *)
(** * A verification of an xv6 kernel with priority ready lists

    The program is a teaching operating system for 32-bit x86 machines: a
    small Unix kernel with processes on several CPUs, a logged file system,
    pipes, a console and a set of user programs.  Its scheduler differs from
    the original xv6: ready processes are kept on three linked lists, one per
    priority, free process slots on a list of their own, and a counter resets
    all priorities from time to time.

    ** The parts and how they interact

    System calls and interrupts enter through trap.c; syscall.c fetches the
    arguments from the user's stack and dispatches to sysproc.c and sysfile.c.  Calls on files go
    from sysfile.c to file.c, which hands them to pipes (pipe.c) or to inodes
    (fs.c); fs.c changes the disk only inside transactions of log.c, log.c
    reads and writes blocks through the buffer cache bio.c, and bio.c through
    the disk driver ide.c.  Calls on processes go to proc.c, which uses vm.c
    for address spaces, kalloc.c for pages and spinlock.c for mutual exclusion.
    The keyboard (kbd.c) feeds the console (console.c), which is a device of
    fs.c.  exec.c replaces a process by a program read through fs.c.  The shell
    sh.c, grep.c and the small programs run in user space on the libraries
    ulib.c, printf.c and umalloc.c, and enter the kernel through usys.S;
    mkfs.c runs on the host and makes the disk that log.c and fs.c start from.
    bootmain.c loads the kernel; main.c reads the multiprocessor tables (mp.c)
    and starts the interrupt controllers, the timer and the serial port
    (lapic.c, ioapic.c, picirq.c, timer.c, uart.c).

    ** What is modelled, and where

    - Prelude.v (this file): the outcomes of C code, a state monad with its
      weakest preconditions [wp], machine integers, shared lemmas and tactics.
    - Machine.v: constants and address macros of param.h, memlayout.h and
      mmu.h; byte-addressed memory with little-endian words.
    - Spinlock.v: spinlock.c, as functions of one CPU, and as a step relation
      of any number of CPUs on one lock, one memory access per step.
    - CString.v: string.c and the string functions of ulib.c, on memory.
    - Kalloc.v: kalloc.c; the free list lies in the free pages.
    - Vm.v: page tables of vm.c as words in that memory; VmThm.v: theorems.
    - Proc.v: the process table of proc.c, its ready lists and free list as
      linked slots, every list operation, and the FIFO queues they implement.
    - ProcOps.v: the other functions of proc.c (allocproc, userinit, growproc,
      fork, exit, wait, scheduler, sched, yield, forkret, sleep, wakeup, kill,
      getProcInfo), switchuvm and switchkvm.  A function that calls [swtch] is
      two definitions, and what is on the kernel stack in between is a [kont].
      Files are used through the class [FileOps]; File.v has the instance.
    - Sched.v, SchedThm.v: the CPUs interleaved at the critical sections of
      [ptable.lock], the invariant, and the theorems about reachable states;
      Fair.v: bounded waiting.
    - Pipe.v: the ring buffer with any number of readers and writers.
    - Block.v, Bio.v: blocks as bytes; bio.c and ide.c.  The disk keeps the
      sequence of block writes, so that a crash is a prefix of it.
    - Ide.v: ide.c on the registers of a disk controller, with the queue of any
      number of waiting processes; memide.c.
    - Log.v, LogThm.v: log.c and its crash safety.
    - Fs.v, FsBits.v, FsThm.v: fs.c; bit map, inodes and paths; files.
    - File.v, FileThm.v, FileRefs.v: file.c and pipealloc of pipe.c.
    - Syscall.v, Sysfile.v, SysfileThm.v: syscall.c and sysfile.c.
    - Lapic.v: the real-time clock of lapic.c; Mmu.v: the segment and interrupt
      tables of vm.c, trap.c and mmu.h.
    - Entry.v: vectors.S, trapasm.S, swtch.S, usys.S and initcode.S as lists of
      instructions, run on a processor with registers, segments and stack.
    - Mp.v: mp.c on the bytes of memory.
    - Intr.v: picirq.c, ioapic.c, timer.c, uart.c and the interrupt controller
      part of lapic.c, on the registers of these devices, and the calls of
      [main] that start them.
    - Boot.v: bootmain.c on the controller of Ide.v; the boot page table.
    - Sysproc.v, Trap.v: sysproc.c and trap.c.  [trap] is cut at the places
      where it gives up the CPU ([point]); device handlers and the calls of
      sysfile.c come in through the class [TrapOps].  TrapThm.v: traps are runs
      of the scheduler model; TickThm.v: sleep and the clock; SbrkThm.v: sbrk.
      TrapFs.v: the instance of [TrapOps] with the handlers of ide.c, kbd.c and
      uart.c and the calls of sysfile.c and exec.c, and traps of this kernel.
    - Exec.v, ExecThm.v: exec.c and loaduvm, on the operations of fs.c as a
      class; ExecFs.v: the instance with the definitions of Fs.v.
    - Mkfs.v, MkfsThm.v, MkfsImage.v: mkfs.c and the image it makes.
    - Printf.v, Console.v, Kbd.v: printf.c, console.c, kbd.c and kbd.h.
    - Grep.v, Sh.v: the matcher and the loop of grep.c; tokens, parser and
      [nulterminate] of sh.c.
    - User.v, ShRun.v, Programs.v: user programs as trees of the system calls
      they make: runcmd, the built-in commands and the main loop of sh.c, and
      cat, wc, ls, grep, echo, init, ps and the other programs.
    - Umalloc.v: umalloc.c on the headers in the memory of the process.

    Definitions have the names of the C functions; loops that are functions of
    their own are [<function>_loop], and a critical section that is one step
    of an interleaving has a name that says what it does.  A C structure is a
    record, a pointer to an element of a kernel table is its index, NULL is
    [None] or 0, a 32-bit integer is a [Z] with [u32] or [i32] where it wraps.

    ** What the theorems show

    - Scheduling (SchedThm, Fair, Proc): in every state of a run in which
      [setpriority] is called only for priorities 0 to 2 and for processes that
      are on no ready list, a process is
      current on one CPU at most, the lists are exactly the unused slots and
      the runnable processes of each priority, the locks and interrupt state
      of each CPU are consistent, and the operations of the scheduler return;
      the linked lists implement queues; every ready process is chosen within
      6464 turns.  The code does not check what these runs assume of
      [setpriority], and one theorem shows what it breaks otherwise.  Two things
      are coarser than in the code: [allocproc]'s push onto the free list
      without the lock is one step, and a process is not preempted inside fork.
    - Traps (TrapThm, TrapFs, TickThm, SbrkThm, Mmu, Lapic): every trap of a
      process is a sequence of
      steps of the scheduler model, so the invariant above holds in a kernel
      driven by traps; a killed process does not return to user space, and
      nothing switches back into [exit]; sleep
      ends after the given ticks and a tick wakes the sleepers, on an idle CPU
      too; what sbrk adds
      and what it breaks when all memory is given back; the descriptor tables
      keep the user out of the kernel; cmostime reads a consistent date.
    - Entry and exit (Entry): a system call stub behaves as a call; a trap that
      leaves its frame alone is invisible to the interrupted code; swtch comes
      back to the context it saved.
    - Devices (Ide, Mp, Intr, Boot): the disk driver serves its queue in order,
      with reads that may fail;
      the kernel learns the processors of the tables, or never ends when it
      meets an unknown entry; the wanted interrupts,
      and no others, arrive at their vectors; the boot loader puts the kernel
      in memory as its program headers say.
    - Locks (Spinlock): mutual exclusion, and acquire/release restore the
      interrupt state.
    - Memory (Kalloc, VmThm, CString, Machine): no page is handed out twice;
      fork's copy of a space has the parent's contents in pages of its own and
      a kernel part closed to the user; freevm returns exactly the pages of a
      space; allocuvm adds zeroed pages; block and string operations are right
      for every overlap; addresses decompose and recompose.
    - Programs (ExecThm, ExecFs): for segments that start at a page and do not
      wrap around, and with enough free pages, exec builds the image the file
      describes, with the arguments where main expects them, and frees
      everything when it fails; one theorem shows the overflow it does not
      check.
    - Storage (Bio, LogThm, FsBits, FsThm, FileThm, MkfsImage): the cache is the disk; a
      transaction and one write to a file are atomic at every crash point;
      recovery can itself crash; what is written is read back; path splitting;
      the image of mkfs is a file system with the given files and no lost block.
      One theorem shows that the log's reservation is one block too large for
      every log of the size mkfs makes.
    - Files and calls (FileRefs, SysfileThm, Syscall): reference counts are
      exact under any interleaving and across every call; argument checks;
      dispatch.
    - Pipes (Pipe): bytes arrive in order, none is lost, no wakeup is lost.
    - Console and user programs: the input ring refines a terminal; screen
      and keyboard stay in bounds; numbers print right; the two formatters
      agree; grep matches what patterns mean and prints the matching lines;
      the shell's parser terminates, reads back every printed command, and
      leaves every word NUL-terminated; the shell makes the processes its
      commands mean, whatever the input; cat and wc do not depend on the pieces
      in which their input comes; malloc hands out disjoint blocks and free
      joins neighbours.

    ** Fuel and bounds

    [Diverge] is the answer of a loop out of fuel; theorems that a function
    returns exclude it.  List walks get [NPROC] steps (a list of distinct
    slots is no longer); loops over addresses get one step per page and one to
    stop; copies one per byte or block; [parsecmd] gets [4 * length + 4], since
    the four mutually recursive functions call each other at most four times
    per token; grep gets one round per character and one for the end of file.
    [freerange] takes its fuel as an argument, and its theorem says how much
    is enough; [malloc] gets four rounds per block of the free list and eight
    more; the clock is read until two readings agree, at most the number of
    rounds given; [iappend] gets one round per byte; the shell's main loop one
    round per input character and one more.  Loops that poll a device take fuel
    as an argument, and their theorems ask for more than the number of reads
    for which the device is busy; [mp_loop] needs more than the number of table
    entries, and bootmain's loops more than the sectors of a segment.  In Bio.v to Sysfile.v one process runs: a call that would
    sleep there is [Diverge] too, and interleavings of sleeping calls are the
    subject of Sched.v, Pipe.v and FileRefs.v.

    ** What is not modelled

    panic and procdump, which print and stop; kvmalloc, which is setupkvm and
    then switchkvm, both modelled; idtinit and the cursor of the screen, which
    load registers nothing else reads; startothers, mpenter and
    mpmain, which wait for code that runs on other processors from reset;
    bootasm.S, entry.S and entryother.S, which change the mode of the processor
    (real mode, protected mode, paging) and would need a model of each; the
    test programs usertests.c, forktest.c, stressfs.c and testSched.c; sh-old.c,
    which is not built.  The addresses [end] and [data] of kernel.ld are
    arguments ([kend], [data]). *)
From Stdlib Require Export ZArith Lia.
From stdpp Require Export base numbers strings gmap.
From stdpp Require Export list.

Open Scope Z_scope.

(** ** Outcomes of C code

    A C function of the kernel returns a value, stops the machine with
    [panic(msg)], or has no defined behaviour (a null or wild pointer, an
    index outside an array).  [Diverge] is what an executable model of a loop
    answers when its fuel is exhausted; every theorem that a loop returns
    excludes it. *)
Inductive outcome (A : Type) : Type :=
| Ret (a : A)
| Panic (msg : string)
| Undef (why : string)
| Diverge.
Arguments Ret {A} a.
Arguments Panic {A} msg%_string.
Arguments Undef {A} why%_string.
Arguments Diverge {A}.

Declare Scope xv6_scope.
Delimit Scope xv6_scope with xv6.
Open Scope xv6_scope.

Notation "'let*' p ':=' e1 'in' e2" :=
  (match e1 with
   | Ret p => e2
   | Panic msg => Panic msg
   | Undef why => Undef why
   | Diverge => Diverge
   end)
  (at level 10, p pattern, e1 at level 200, e2 at level 200,
   format "'[v' 'let*'  p  ':='  e1  'in' '/' e2 ']'") : xv6_scope.

(** [obind] is the same sequencing as a function, for loops that fold a body
    over a list. *)
Definition obind {A B} (e : outcome A) (k : A → outcome B) : outcome B :=
  let* x := e in k x.

(** A computation on a state: it returns a value and the next state, or fails.
    [let! x := e1 in e2] runs [e1], then [e2] on the state [e1] left. *)
Definition M (S A : Type) : Type := S → outcome (A * S).
Definition ret {S A} (a : A) : M S A := λ s, Ret (a, s).
Definition bind {S A B} (e : M S A) (k : A → M S B) : M S B :=
  λ s, let* (a, s) := e s in k a s.
Definition skip {S} : M S unit := ret tt.
Definition panic {S A} (msg : string) : M S A := λ _, Panic msg.
Definition undef {S A} (msg : string) : M S A := λ _, Undef msg.
Definition diverge {S A} : M S A := λ _, Diverge.
Definition gets {S A} (f : S → A) : M S A := λ s, Ret (f s, s).
Definition modify {S} (f : S → S) : M S unit := λ s, Ret (tt, f s).
Definition lift {S A} (e : outcome A) : M S A := λ s, let* a := e in Ret (a, s).
(** Run a computation on a part of the state. *)
Definition zoom {S T A} (get : S → T) (put : T → S → S) (e : M T A) : M S A :=
  λ s, let* (a, t) := e (get s) in Ret (a, put t s).
Arguments panic {S A} msg%_string.
Arguments undef {S A} msg%_string.
Notation "'let!' p ':=' e1 'in' e2" :=
  (bind e1 (λ p, e2)) (at level 10, p as pattern, e1 at level 200, e2 at level 200,
   format "'[v' 'let!'  p  ':='  e1  'in'  '/' e2 ']'") : xv6_scope.
Notation "e1 ;! e2" := (bind e1 (λ _, e2))
  (at level 100, e2 at level 200, right associativity,
   format "'[v' e1  ;! '/' e2 ']'") : xv6_scope.
(** [for(x in l) body(x)] *)
Fixpoint for_each {S A} (l : list A) (body : A → M S unit) : M S unit :=
  match l with
  | [] => skip
  | x :: l' => body x ;! for_each l' body
  end.

(** Running [e] from [s] ends in a result that satisfies [Q]; when it fails, [F]
    holds: [wp False] is total correctness, [wp True] partial correctness. *)
Definition wp {S A} (F : Prop) (e : M S A) (Q : A → S → Prop) (s : S) : Prop :=
  match e s with Ret (a, s') => Q a s' | _ => F end.

(** The result is a value: no panic, no undefined behaviour, enough fuel. *)
Definition returns {A} (e : outcome A) : Prop := ∃ a, e = Ret a.

(** ** Machine integers *)
Definition u8 (z : Z) : Z := z mod 2 ^ 8.
Definition u16 (z : Z) : Z := z mod 2 ^ 16.
Definition u32 (z : Z) : Z := z mod 2 ^ 32.
(** Two's complement reading of the low [w] bits. *)
Definition sext (w z : Z) : Z := (z + 2 ^ (w - 1)) mod 2 ^ w - 2 ^ (w - 1).
Definition i8 (z : Z) : Z := sext 8 z.
Definition i16 (z : Z) : Z := sext 16 z.
Definition i32 (z : Z) : Z := sext 32 z.

(** Truth value of a C [int]. *)
Definition truth (z : Z) : bool := negb (z =? 0).

Definition byte_ok (b : Z) : Prop := 0 ≤ b < 2 ^ 8.
Definition word_ok (w : Z) : Prop := 0 ≤ w < 2 ^ 32.

(** Membership test on lists of indices. *)
Definition nat_mem (i : nat) (l : list nat) : bool := existsb (Nat.eqb i) l.

(** ** Generic automation *)
Create HintDb xv6.

(** Split conjunctions and existentials of the context. *)
Ltac split_hyps :=
  repeat match goal with
  | H : _ ∧ _ |- _ => destruct H
  | H : ∃ _, _ |- _ => destruct H
  | H : (_, _) = (_, _) |- _ => injection H as H; subst
  | H : Ret _ = Ret _ |- _ => injection H as H; subst
  | H : Some _ = Some _ |- _ => injection H as H; subst
  end.

(** Turn boolean comparisons on [Z] and [nat] into propositions. *)
Ltac bool_to_prop :=
  repeat match goal with
  | H : (_ && _)%bool = true |- _ => apply andb_true_iff in H; destruct H
  | H : (_ || _)%bool = false |- _ => apply orb_false_iff in H; destruct H
  | H : negb _ = true |- _ => apply negb_true_iff in H
  | H : negb _ = false |- _ => apply negb_false_iff in H
  | H : (_ =? _) = true |- _ => apply Z.eqb_eq in H
  | H : (_ =? _) = false |- _ => apply Z.eqb_neq in H
  | H : (_ <? _) = true |- _ => apply Z.ltb_lt in H
  | H : (_ <? _) = false |- _ => apply Z.ltb_ge in H
  | H : (_ <=? _) = true |- _ => apply Z.leb_le in H
  | H : (_ <=? _) = false |- _ => apply Z.leb_gt in H
  | H : (_ =? _)%nat = true |- _ => apply Nat.eqb_eq in H
  | H : (_ =? _)%nat = false |- _ => apply Nat.eqb_neq in H
  end.

(** Case analysis on the scrutinee of a match of the goal or of [H]. *)
Ltac case_goal :=
  match goal with
  | |- context [match ?x with _ => _ end] => destruct x eqn:?
  end.
Ltac case_in H :=
  match type of H with
  | context [match ?x with _ => _ end] => destruct x eqn:?
  end.

(** ** Rules for [wp] *)
(** Running one operation after another. *)
Lemma bind_Ret {S A B} (e : M S A) (k : A → M S B) s a s' : e s = Ret (a, s') → bind e k s = k a s'.
Proof. intros H. unfold bind. by rewrite H. Qed.
Lemma wp_ret {S A} F (a : A) Q (s : S) : Q a s → wp F (ret a) Q s.
Proof. done. Qed.
Lemma wp_skip {S} F Q (s : S) : Q tt s → wp F skip Q s.
Proof. done. Qed.
Lemma wp_gets {S A} F (f : S → A) Q s : Q (f s) s → wp F (gets f) Q s.
Proof. done. Qed.
Lemma wp_modify {S} F (f : S → S) Q s : Q tt (f s) → wp F (modify f) Q s.
Proof. done. Qed.
Lemma wp_bind {S A B} F (e : M S A) (k : A → M S B) Q s :
  wp F e (λ a s', wp F (k a) Q s') s → wp F (bind e k) Q s.
Proof. unfold wp, bind. by destruct (e s) as [[a s']| | |]. Qed.
Lemma wp_mono {S A} F (e : M S A) (Q Q' : A → S → Prop) s :
  wp F e Q s → (∀ a s', Q a s' → Q' a s') → wp F e Q' s.
Proof. unfold wp. destruct (e s) as [[a s']| | |]; auto. Qed.
Lemma wp_and {S A} F (e : M S A) Q Q' s : wp F e Q s → wp True e Q' s → wp F e (λ a s', Q a s' ∧ Q' a s') s.
Proof. unfold wp. destruct (e s) as [[a s']| | |]; auto. Qed.
Lemma wp_total {S A} F (e : M S A) Q s : wp False e Q s → wp F e Q s.
Proof. unfold wp. by destruct (e s) as [[a s']| | |]. Qed.
Lemma wp_lift {S A} F (e : outcome A) a Q (s : S) : e = Ret a → Q a s → wp F (lift e) Q s.
Proof. intros ->. done. Qed.
Lemma wp_zoom {S T A} F get put (e : M T A) Q (s : S) :
  wp F e (λ a t, Q a (put t s)) (get s) → wp F (zoom get put e) Q s.
Proof. unfold wp, zoom. by destruct (e (get s)) as [[a t]| | |]. Qed.
Lemma wp_ret_inv {S A} (e : M S A) Q s a s' : wp True e Q s → e s = Ret (a, s') → Q a s'.
Proof. unfold wp. intros H He. by rewrite He in H. Qed.
Lemma wp_ok {S A} (e : M S A) Q s : wp False e Q s → ∃ a s', e s = Ret (a, s') ∧ Q a s'.
Proof. unfold wp. destruct (e s) as [[a s']| | |]; [eauto|done..]. Qed.
(** A loop keeps what its body keeps. *)
Lemma wp_for_each {S A} F (I : S → Prop) (body : A → M S unit) l :
  (∀ x s, x ∈ l → I s → wp F (body x) (λ _ s', I s') s) →
  ∀ s, I s → wp F (for_each l body) (λ _ s', I s') s.
Proof.
  induction l as [|x l IH]; intros Hb s Hs; [done|]. simpl. apply wp_bind.
  eapply wp_mono; [apply Hb; [apply list_elem_of_here|done]|]. intros [] s' Hs'.
  apply IH; [|done]. intros y t Hy. apply Hb. by apply list_elem_of_further.
Qed.

(** ** Lemmas on machine integers *)
Lemma nat_mem_spec i l : nat_mem i l = true ↔ (i ∈ l).
Proof.
  unfold nat_mem. rewrite existsb_exists, list_elem_of_In. split.
  - by intros (x & Hx & ->%Nat.eqb_eq).
  - intros H. exists i. by rewrite Nat.eqb_refl.
Qed.

Lemma truth_true z : truth z = true ↔ z ≠ 0.
Proof. unfold truth. rewrite negb_true_iff. apply Z.eqb_neq. Qed.
Lemma truth_false z : truth z = false ↔ z = 0.
Proof. unfold truth. rewrite negb_false_iff. apply Z.eqb_eq. Qed.

Lemma u32_small z : 0 ≤ z < 2 ^ 32 → u32 z = z.
Proof. intros. unfold u32. by apply Z.mod_small. Qed.

Lemma u32_range z : 0 ≤ u32 z < 2 ^ 32.
Proof. unfold u32. by apply Z.mod_pos_bound. Qed.

Lemma u32_u32 z : u32 (u32 z) = u32 z.
Proof. apply u32_small, u32_range. Qed.

Lemma u32_add_l a b : u32 (u32 a + b) = u32 (a + b).
Proof. unfold u32. by rewrite Zplus_mod_idemp_l. Qed.

Lemma u32_sub_l a b : u32 (u32 a - b) = u32 (a - b).
Proof. unfold u32. by rewrite Zminus_mod_idemp_l. Qed.

Lemma sext_small w z : 0 < w → - 2 ^ (w - 1) ≤ z < 2 ^ (w - 1) → sext w z = z.
Proof.
  intros Hw Hz. unfold sext.
  assert (2 ^ w = 2 * 2 ^ (w - 1)) as Hp
    by (rewrite <- Z.pow_succ_r by lia; f_equal; lia).
  rewrite Z.mod_small; lia.
Qed.

Lemma u32_i32 z : u32 (i32 z) = u32 z.
Proof. unfold u32, i32, sext. Z.div_mod_to_equations. lia. Qed.
Lemma i32_small z : - 2 ^ 31 ≤ z < 2 ^ 31 → i32 z = z.
Proof. intros. by apply sext_small. Qed.

#[export] Hint Resolve u32_range : xv6.

(** ** Lemmas on lists *)
Lemma NoDup_app_l {A} (l k : list A) : NoDup (l ++ k) → NoDup l.
Proof. rewrite list.NoDup_app. tauto. Qed.

Lemma NoDup_app_r {A} (l k : list A) : NoDup (l ++ k) → NoDup k.
Proof. rewrite list.NoDup_app. tauto. Qed.

(** A duplicate-free list of indices below [n] has at most [n] elements. *)
Lemma NoDup_bound (l : list nat) (n : nat) :
  NoDup l → (∀ i, i ∈ l → (i < n)%nat) → (length l ≤ n)%nat.
Proof.
  intros Hnd Hb. rewrite <- (length_seq n 0).
  apply submseteq_length, NoDup_submseteq; [done|].
  intros i Hi. apply elem_of_seq. specialize (Hb i Hi). lia.
Qed.


(** *** Lists of lists (the ready queues) *)
Lemma elem_of_concat {A} (x : A) (ls : list (list A)) :
  x ∈ concat ls ↔ ∃ k l, ls !! k = Some l ∧ x ∈ l.
Proof.
  induction ls as [|l ls IH]; simpl.
  - split; [by intros ?%not_elem_of_nil|by intros (k & l & ? & _)].
  - rewrite elem_of_app, IH. split.
    + intros [H|(k & l' & H1 & H2)]; [by exists O, l|by exists (S k), l'].
    + intros ([|k] & l' & H1 & H2); simpl in H1; [simplify_eq; by left|].
      right. eauto.
Qed.

Lemma concat_insert_perm {A} (ls : list (list A)) k l l' :
  ls !! k = Some l → l ++ concat (<[k:=l']> ls) ≡ₚ l' ++ concat ls.
Proof.
  revert k. induction ls as [|l0 ls IH]; intros [|k] H; simpl in *; simplify_eq.
  - by rewrite !(app_assoc), (Permutation_app_comm l l').
  - change (l ++ l0 ++ concat (<[k:=l']> ls) ≡ₚ l' ++ l0 ++ concat ls).
    rewrite (Permutation_app_swap_app l l0), IH by done.
    by rewrite Permutation_app_swap_app.
Qed.

Lemma NoDup_concat_disjoint {A} (ls : list (list A)) j k l l' x :
  NoDup (concat ls) → ls !! j = Some l → ls !! k = Some l' → j ≠ k → x ∈ l → x ∉ l'.
Proof.
  revert j k. induction ls as [|l0 ls IH]; intros j k Hnd Hj Hk Hne Hx; [done|].
  simpl in Hnd. apply list.NoDup_app in Hnd as (_ & Hd & Hnd).
  destruct j as [|j], k as [|k]; simpl in *; simplify_eq; [| |eauto].
  - intros H. eapply Hd; [done|]. apply elem_of_concat. eauto.
  - intros H. eapply Hd; [done|]. apply elem_of_concat. eauto.
Qed.

Lemma NoDup_concat_lookup {A} (ls : list (list A)) k l :
  NoDup (concat ls) → ls !! k = Some l → NoDup l.
Proof.
  revert k. induction ls as [|l0 ls IH]; intros [|k] Hnd Hk; simpl in *; simplify_eq;
    apply list.NoDup_app in Hnd as (? & _ & ?); eauto.
Qed.

Lemma filter_agree {A} (P Q : A → Prop) `{∀ x, Decision (P x), ∀ x, Decision (Q x)} (l : list A) :
  (∀ y, y ∈ l → (P y ↔ Q y)) → filter P l = filter Q l.
Proof.
  induction l as [|y l IH]; intros Hs; [done|]. rewrite !filter_cons.
  rewrite IH by (intros z Hz; by apply Hs, list_elem_of_further).
  pose proof (Hs y (list_elem_of_here _ _)). destruct (decide (P y)), (decide (Q y)); tauto.
Qed.

(** Two tests that differ at one element of a list count one apart. *)
Lemma filter_count_change {A} (P Q : A → Prop) `{∀ x, Decision (P x), ∀ x, Decision (Q x)}
    (l : list A) (x : A) :
  NoDup l → x ∈ l → P x → ¬ Q x → (∀ y, y ∈ l → y ≠ x → (P y ↔ Q y)) →
  length (filter P l) = S (length (filter Q l)).
Proof.
  induction l as [|y l IH]; intros Hnd Hx HP HQ Hsame; [by apply not_elem_of_nil in Hx|].
  apply NoDup_cons in Hnd as [Hy Hnd]. rewrite !filter_cons.
  apply elem_of_cons in Hx as [->|Hx].
  - rewrite decide_True, decide_False by done. simpl. f_equal. f_equal.
    apply filter_agree. intros z Hz. apply Hsame; [by apply list_elem_of_further|]. by intros ->.
  - assert (y ≠ x) by (by intros ->). pose proof (Hsame y (list_elem_of_here _ _) ltac:(done)) as Hs.
    assert (length (filter P l) = S (length (filter Q l))) as E.
    { apply IH; [done..|]. intros z Hz. by apply Hsame, list_elem_of_further. }
    destruct (decide (P y)), (decide (Q y)); simpl; [lia|tauto|tauto|done].
Qed.

Lemma list_alter_insert {A} (g : A → A) (l : list A) i x :
  l !! i = Some x → alter g i l = <[i := g x]> l.
Proof.
  intros Hi. apply list_eq. intros j. destruct (decide (i = j)) as [<-|Hne].
  - rewrite list_lookup_alter_eq, Hi, list_lookup_insert_eq by (by eapply lookup_lt_Some). done.
  - by rewrite list_lookup_alter_ne, list_lookup_insert_ne.
Qed.

(** ** Sets *)
Lemma size_add (b : Z) (U : gset Z) : (size ({[b]} ∪ U) ≤ size U + 1)%nat.
Proof.
  rewrite size_union_alt, size_singleton. assert (size (U ∖ {[b]}) ≤ size U)%nat; [|lia].
  apply subseteq_size. set_solver.
Qed.
