(* ===== verification/Machine.v ===== *)
(** * The machine: constants of param.h, memlayout.h and mmu.h, address
    arithmetic on 32-bit words, and byte-addressed memory.

    Addresses are 32-bit values in [Z].  Kernel code reaches physical memory
    through the mapping at [KERNBASE], so one memory indexed by kernel virtual
    addresses stands for physical memory; [v2p] and [p2v] convert. *)
From S2P Require Import Prelude.

Open Scope Z_scope.

(** ** param.h *)
Definition NPROC : nat := 64.
Definition KSTACKSIZE : Z := 4096.
Definition NCPU : nat := 8.
Definition NOFILE : nat := 16.
Definition NFILE : nat := 100.
Definition NINODE : nat := 50.
Definition NDEV : Z := 10.
Definition ROOTDEV : Z := 1.
Definition MAXARG : Z := 32.
Definition MAXOPBLOCKS : Z := 10.
Definition LOGSIZE : Z := MAXOPBLOCKS * 3.
Definition NBUF : nat := 30.
Definition FSSIZE : Z := 1000.

(** ** memlayout.h *)
Definition EXTMEM : Z := 0x100000.
Definition PHYSTOP : Z := 0xE000000.
Definition DEVSPACE : Z := 0xFE000000.
Definition KERNBASE : Z := 0x80000000.
Definition KERNLINK : Z := KERNBASE + EXTMEM.
Definition v2p (a : Z) : Z := u32 (a - KERNBASE).
Definition p2v (a : Z) : Z := u32 (a + KERNBASE).

(** ** mmu.h: pages, page directory and page table indices *)
Definition NPDENTRIES : Z := 1024.
Definition NPTENTRIES : Z := 1024.
Definition PGSIZE : Z := 4096.
Definition PTXSHIFT : Z := 12.
Definition PDXSHIFT : Z := 22.
Definition PDX (va : Z) : Z := Z.land (Z.shiftr (u32 va) PDXSHIFT) 0x3FF.
Definition PTX (va : Z) : Z := Z.land (Z.shiftr (u32 va) PTXSHIFT) 0x3FF.
Definition PGADDR (d t o : Z) : Z :=
  u32 (Z.lor (Z.lor (Z.shiftl d PDXSHIFT) (Z.shiftl t PTXSHIFT)) o).
Definition PGROUNDUP (sz : Z) : Z :=
  Z.land (u32 (sz + PGSIZE - 1)) (u32 (Z.lnot (PGSIZE - 1))).
Definition PGROUNDDOWN (a : Z) : Z :=
  Z.land (u32 a) (u32 (Z.lnot (PGSIZE - 1))).
Definition PTE_P : Z := 0x001.
Definition PTE_W : Z := 0x002.
Definition PTE_U : Z := 0x004.
Definition PTE_ADDR (pte : Z) : Z := Z.land (u32 pte) (u32 (Z.lnot 0xFFF)).
Definition PTE_FLAGS (pte : Z) : Z := Z.land (u32 pte) 0xFFF.
Definition FL_IF : Z := 0x200.
Definition DPL_USER : Z := 0x3.
Definition SEG_KDATA : Z := 2.
Definition SEG_UCODE : Z := 4.
Definition SEG_UDATA : Z := 5.

(** ** Memory *)
Definition mem : Type := Z → Z.
Definition store8 (m : mem) (a v : Z) : mem :=
  λ b, if b =? a then u8 v else m b.
Definition load32 (m : mem) (a : Z) : Z :=
  m a + 2 ^ 8 * m (a + 1) + 2 ^ 16 * m (a + 2) + 2 ^ 24 * m (a + 3).
Definition store32 (m : mem) (a v : Z) : mem :=
  λ b, if (a <=? b) && (b <? a + 4) then u8 (u32 v / 2 ^ (8 * (b - a))) else m b.
(** [n] bytes at [a], as a list. *)
Definition bytes_at (m : mem) (a : Z) (n : nat) : list Z :=
  (λ i, m (a + Z.of_nat i)) <$> seq 0 n.
(** A word as bytes. *)
Definition word_bytes (w : Z) : list Z := [u8 w; u8 (Z.shiftr w 8); u8 (Z.shiftr w 16); u8 (Z.shiftr w 24)].
Definition mem_ok (m : mem) : Prop := ∀ a, byte_ok (m a).

(** ** Masking off the low bits *)
Lemma land_mask x n :
  0 ≤ n ≤ 32 → 0 ≤ x < 2 ^ 32 →
  Z.land x (u32 (Z.lnot (Z.ones n))) = x / 2 ^ n * 2 ^ n.
Proof.
  intros Hn Hx.
  rewrite <- Z.shiftr_div_pow2, <- Z.shiftl_mul_pow2 by lia.
  rewrite <- Z.ldiff_ones_r by lia.
  rewrite <- (Z.mod_small x (2 ^ 32)) at 2 by lia.
  unfold u32. rewrite <- !Z.land_ones by lia.
  apply Z.bits_inj'. intros i Hi.
  rewrite !Z.land_spec, !Z.ldiff_spec, !Z.land_spec, Z.lnot_spec by lia.
  by destruct (Z.testbit x i), (Z.testbit (Z.ones n) i), (Z.testbit (Z.ones 32) i).
Qed.

Lemma PGROUNDDOWN_div a : PGROUNDDOWN a = u32 a / PGSIZE * PGSIZE.
Proof. apply (land_mask _ 12); [lia|apply u32_range]. Qed.

Lemma PGROUNDUP_div sz : PGROUNDUP sz = u32 (sz + PGSIZE - 1) / PGSIZE * PGSIZE.
Proof. apply (land_mask _ 12); [lia|apply u32_range]. Qed.

Lemma PTE_ADDR_div pte : PTE_ADDR pte = u32 pte / PGSIZE * PGSIZE.
Proof. apply (land_mask _ 12); [lia|apply u32_range]. Qed.

Lemma PTE_FLAGS_mod pte : PTE_FLAGS pte = u32 pte mod PGSIZE.
Proof. unfold PTE_FLAGS. apply (Z.land_ones _ 12). lia. Qed.

Lemma PDX_div va : PDX va = u32 va / 2 ^ 22.
Proof.
  unfold PDX, PDXSHIFT. rewrite Z.shiftr_div_pow2 by lia.
  rewrite (Z.land_ones _ 10) by lia. apply Z.mod_small.
  pose proof (u32_range va). split.
  - apply Z.div_pos; lia.
  - apply Z.div_lt_upper_bound; lia.
Qed.

Lemma PTX_div va : PTX va = u32 va / 2 ^ 12 mod 2 ^ 10.
Proof.
  unfold PTX, PTXSHIFT. rewrite Z.shiftr_div_pow2 by lia.
  by rewrite (Z.land_ones _ 10) by lia.
Qed.

(** Or of disjoint bit ranges is addition. *)
Lemma lor_shiftl_add a b n :
  0 ≤ n → 0 ≤ b < 2 ^ n → Z.lor (Z.shiftl a n) b = a * 2 ^ n + b.
Proof.
  intros Hn Hb. pose proof (Z.add_lor_land (Z.shiftl a n) b) as Hadd.
  rewrite Z.shiftl_mul_pow2 in Hadd |- * by lia.
  enough (Z.land (a * 2 ^ n) b = 0) by lia.
  rewrite <- Z.shiftl_mul_pow2 by lia.
  rewrite <- (Z.mod_small b (2 ^ n)), <- Z.land_ones by lia.
  apply Z.bits_inj'. intros i Hi.
  rewrite !Z.land_spec, Z.bits_0. destruct (decide (i < n)).
  - by rewrite Z.shiftl_spec_low by lia.
  - rewrite Z.ones_spec_high by lia. by rewrite !andb_false_r.
Qed.

(** Building an address from a directory index, a table index and an offset. *)
Lemma PGADDR_add d t o :
  0 ≤ d < NPDENTRIES → 0 ≤ t < NPTENTRIES → 0 ≤ o < PGSIZE →
  PGADDR d t o = d * 2 ^ 22 + t * 2 ^ 12 + o.
Proof.
  unfold PGADDR, PDXSHIFT, PTXSHIFT, NPDENTRIES, NPTENTRIES, PGSIZE. intros.
  rewrite <- Z.lor_assoc, (lor_shiftl_add t o 12), (lor_shiftl_add d _ 22) by lia.
  rewrite u32_small; lia.
Qed.

(** ** Properties *)

(** Page addresses decompose and recompose.  The page
    directory index, the page table index and the page offset of every 32-bit
    address are within the sizes of the tables, [PGADDR] rebuilds the address
    from them, and conversely the indices of a built address are the ones it
    was built from. *)
Theorem PGADDR_round_trip :
  (∀ va, word_ok va →
     0 ≤ PDX va < NPDENTRIES ∧ 0 ≤ PTX va < NPTENTRIES ∧
     PGADDR (PDX va) (PTX va) (va mod PGSIZE) = va) ∧
  (∀ d t o, 0 ≤ d < NPDENTRIES → 0 ≤ t < NPTENTRIES → 0 ≤ o < PGSIZE →
     PDX (PGADDR d t o) = d ∧ PTX (PGADDR d t o) = t ∧
     PGADDR d t o mod PGSIZE = o).
Proof.
  unfold word_ok, NPDENTRIES, NPTENTRIES, PGSIZE. split.
  - intros va Hva. rewrite PDX_div, PTX_div, !u32_small by lia.
    rewrite PGADDR_add; unfold NPDENTRIES, NPTENTRIES, PGSIZE;
      Z.div_mod_to_equations; lia.
  - intros d t o Hd Ht Ho. rewrite PGADDR_add by done.
    rewrite PDX_div, PTX_div, !u32_small by lia.
    Z.div_mod_to_equations; lia.
Qed.

(** ** Lemmas on rounding used by the allocators *)
Lemma PGROUNDUP_spec sz :
  0 ≤ sz ≤ 2 ^ 32 - PGSIZE →
  PGROUNDUP sz mod PGSIZE = 0 ∧ sz ≤ PGROUNDUP sz < sz + PGSIZE.
Proof.
  unfold PGSIZE. intros. rewrite PGROUNDUP_div. unfold PGSIZE.
  rewrite u32_small by lia. Z.div_mod_to_equations; lia.
Qed.

Lemma PGROUNDUP_aligned sz :
  0 ≤ sz ≤ 2 ^ 32 - PGSIZE → sz mod PGSIZE = 0 → PGROUNDUP sz = sz.
Proof.
  intros Hs Hm. pose proof (PGROUNDUP_spec sz Hs) as [H1 H2].
  unfold PGSIZE in *. Z.div_mod_to_equations; lia.
Qed.

(** ** Lemmas on memory *)
Lemma u8_range z : byte_ok (u8 z).
Proof. unfold u8, byte_ok. by apply Z.mod_pos_bound. Qed.

Lemma store32_ok m a v : mem_ok m → mem_ok (store32 m a v).
Proof. intros Hm b. unfold store32. case_match; [apply u8_range|apply Hm]. Qed.

Lemma store32_other m a v b : b < a ∨ a + 4 ≤ b → store32 m a v b = m b.
Proof.
  intros Hb. unfold store32. destruct (a <=? b) eqn:E1, (b <? a + 4) eqn:E2;
    bool_to_prop; simpl; (done || lia).
Qed.

Lemma load32_range m a : mem_ok m → word_ok (load32 m a).
Proof.
  intros Hm. unfold word_ok, load32.
  pose proof (Hm a); pose proof (Hm (a + 1)); pose proof (Hm (a + 2));
    pose proof (Hm (a + 3)); unfold byte_ok in *. lia.
Qed.

Lemma load32_ext m m' a :
  (∀ b, a ≤ b < a + 4 → m b = m' b) → load32 m a = load32 m' a.
Proof. intros H. unfold load32. rewrite !H by lia. done. Qed.

Lemma load32_store32_eq m a v : load32 (store32 m a v) a = u32 v.
Proof.
  unfold load32, store32.
  rewrite !(proj2 (Z.leb_le _ _)), !(proj2 (Z.ltb_lt _ _)) by lia. simpl.
  replace (a - a) with 0 by lia. replace (a + 1 - a) with 1 by lia.
  replace (a + 2 - a) with 2 by lia. replace (a + 3 - a) with 3 by lia.
  pose proof (u32_range v). unfold u8.
  change (2 ^ (8 * 0)) with 1. change (2 ^ (8 * 1)) with 256.
  change (2 ^ (8 * 2)) with 65536. change (2 ^ (8 * 3)) with 16777216.
  Z.div_mod_to_equations; lia.
Qed.

Lemma load32_store32_other m a v b :
  b + 4 ≤ a ∨ a + 4 ≤ b → load32 (store32 m a v) b = load32 m b.
Proof. intros H. apply load32_ext. intros c Hc. apply store32_other. lia. Qed.

#[export] Hint Resolve u8_range store32_ok load32_range : xv6.
