(* ===== verification/Spinlock.v ===== *)
(** * Spin locks (spinlock.c, spinlock.h, struct cpu of proc.h)

    The first part gives [pushcli], [popcli], [holding], [acquire],
    [release] and [getcallerpcs] as functions of one CPU's state and of one
    lock.  The second part is a step relation in which any number of CPUs run
    [acquire]; critical section; [release] on one shared lock, with one access
    to shared memory per step, and the mutual exclusion theorem for it. *)
From S2P Require Import Prelude Machine.

Open Scope Z_scope.

(** ** struct cpu

    [c_if] is the interrupt flag of the CPU's eflags register and [c_cr3] its
    page table register; the other fields are those of [struct cpu].  [c_proc]
    is the index in [ptable.proc] of the process the CPU runs. *)
Record cpu := mkCpu {
  c_ss0 : Z;
  c_esp0 : Z;
  c_ncli : Z;
  c_intena : Z;
  c_proc : option nat;
  c_if : bool;
  c_cr3 : Z }.

Definition set_ncli (n : Z) (c : cpu) : cpu :=
  mkCpu (c_ss0 c) (c_esp0 c) n (c_intena c) (c_proc c) (c_if c) (c_cr3 c).
Definition set_intena (i : Z) (c : cpu) : cpu :=
  mkCpu (c_ss0 c) (c_esp0 c) (c_ncli c) i (c_proc c) (c_if c) (c_cr3 c).
Definition set_c_proc (p : option nat) (c : cpu) : cpu :=
  mkCpu (c_ss0 c) (c_esp0 c) (c_ncli c) (c_intena c) p (c_if c) (c_cr3 c).
Definition set_if (b : bool) (c : cpu) : cpu :=
  mkCpu (c_ss0 c) (c_esp0 c) (c_ncli c) (c_intena c) (c_proc c) b (c_cr3 c).
Definition set_ts (ss0 esp0 : Z) (c : cpu) : cpu :=
  mkCpu ss0 esp0 (c_ncli c) (c_intena c) (c_proc c) (c_if c) (c_cr3 c).
Definition set_cr3 (v : Z) (c : cpu) : cpu :=
  mkCpu (c_ss0 c) (c_esp0 c) (c_ncli c) (c_intena c) (c_proc c) (c_if c) v.

(** [readeflags() & FL_IF], and the [cli] and [sti] instructions. *)
Definition readeflags_IF (c : cpu) : Z := if c_if c then FL_IF else 0.
Definition cli (c : cpu) : cpu := set_if false c.
Definition sti (c : cpu) : cpu := set_if true c.

Definition pushcli (c : cpu) : cpu :=
  let eflags := readeflags_IF c in
  let c := cli c in
  let c' := set_ncli (i32 (c_ncli c + 1)) c in
  if c_ncli c =? 0 then set_intena eflags c' else c'.

Definition popcli (c : cpu) : outcome cpu :=
  if truth (readeflags_IF c) then Panic "popcli - interruptible"
  else
    let c := set_ncli (i32 (c_ncli c - 1)) c in
    if c_ncli c <? 0 then Panic "popcli"
    else if (c_ncli c =? 0) && truth (c_intena c) then Ret (sti c)
    else Ret c.

(** ** struct spinlock: [locked] and the index of the holding CPU. *)
Record spinlock := mkLock { lk_locked : Z; lk_cpu : option nat }.

Definition initlock : spinlock := mkLock 0 None.

Definition holding (me : nat) (lk : spinlock) : bool :=
  truth (lk_locked lk) && bool_decide (lk_cpu lk = Some me).

(** The whole of [acquire] as run by CPU [me] when no other CPU interferes.
    When another CPU holds the lock the [xchg] loop does not exit. *)
Definition acquire (me : nat) (c : cpu) (lk : spinlock) : outcome (cpu * spinlock) :=
  let c := pushcli c in
  if holding me lk then Panic "acquire"
  else if truth (lk_locked lk) then Diverge
  else Ret (c, mkLock 1 (Some me)).

Definition release (me : nat) (c : cpu) (lk : spinlock) : outcome (cpu * spinlock) :=
  if negb (holding me lk) then Panic "release"
  else
    let* c := popcli c in
    Ret (c, mkLock 0 None).

(** [getcallerpcs(v, pcs)]: the saved instruction pointers of up to ten
    frames of the %ebp chain that starts at [v - 8], padded with zeros. *)
Fixpoint callerpcs_loop (m : mem) (ebp : Z) (left : nat) : list Z :=
  match left with
  | O => []
  | S left' =>
      if (ebp =? 0) || (ebp <? KERNBASE) || (ebp =? 0xffffffff)
      then replicate left 0
      else load32 m (u32 (ebp + 4)) :: callerpcs_loop m (load32 m ebp) left'
  end.
Definition getcallerpcs (m : mem) (v : Z) : list Z :=
  callerpcs_loop m (u32 (v - 8)) 10.

(** ** Interleaved execution on several CPUs

    The program counter of a CPU names the next shared access of
    [acquire] (spinlock.c:27-38) or [release] (spinlock.c:46-63). *)
Inductive pc :=
| Outside      (* not in acquire/release and not holding the lock *)
| AcqLocked    (* acquire: read lk->locked in holding() *)
| AcqCpu       (* acquire: read lk->cpu in holding() *)
| AcqXchg      (* acquire: xchg(&lk->locked, 1) *)
| AcqSet       (* acquire: lk->cpu = cpu *)
| Critical     (* acquire has returned *)
| RelLocked    (* release: read lk->locked in holding() *)
| RelCpu       (* release: read lk->cpu in holding() *)
| RelClear     (* release: lk->cpu = 0 *)
| RelXchg      (* release: xchg(&lk->locked, 0) *)
| RelPop       (* release: popcli() *)
| Panicked.    (* panic() was called *)

#[export] Instance pc_eq_dec : EqDecision pc.
Proof. solve_decision. Defined.

Record lstate := mkL { l_pcs : list pc; l_cpus : list cpu; l_lock : spinlock }.

(** CPU [me] at program counter [p] with cpu structure [c] performs one access. *)
Inductive cpu_step (me : nat) : pc → cpu → spinlock → pc → cpu → spinlock → Prop :=
| st_acquire c lk : cpu_step me Outside c lk AcqLocked (pushcli c) lk
| st_acq_free c lk : lk_locked lk = 0 → cpu_step me AcqLocked c lk AcqXchg c lk
| st_acq_busy c lk : lk_locked lk ≠ 0 → cpu_step me AcqLocked c lk AcqCpu c lk
| st_acq_mine c lk : lk_cpu lk = Some me → cpu_step me AcqCpu c lk Panicked c lk
| st_acq_other c lk : lk_cpu lk ≠ Some me → cpu_step me AcqCpu c lk AcqXchg c lk
| st_xchg_spin c lk : lk_locked lk ≠ 0 →
    cpu_step me AcqXchg c lk AcqXchg c (mkLock 1 (lk_cpu lk))
| st_xchg_win c lk : lk_locked lk = 0 →
    cpu_step me AcqXchg c lk AcqSet c (mkLock 1 (lk_cpu lk))
| st_set c lk : cpu_step me AcqSet c lk Critical c (mkLock (lk_locked lk) (Some me))
| st_release c lk : cpu_step me Critical c lk RelLocked c lk
| st_rel_free c lk : lk_locked lk = 0 → cpu_step me RelLocked c lk Panicked c lk
| st_rel_busy c lk : lk_locked lk ≠ 0 → cpu_step me RelLocked c lk RelCpu c lk
| st_rel_other c lk : lk_cpu lk ≠ Some me → cpu_step me RelCpu c lk Panicked c lk
| st_rel_mine c lk : lk_cpu lk = Some me → cpu_step me RelCpu c lk RelClear c lk
| st_clear c lk : cpu_step me RelClear c lk RelXchg c (mkLock (lk_locked lk) None)
| st_unlock c lk : cpu_step me RelXchg c lk RelPop c (mkLock 0 (lk_cpu lk))
| st_pop c c' lk : popcli c = Ret c' → cpu_step me RelPop c lk Outside c' lk
| st_pop_panic c msg lk : popcli c = Panic msg → cpu_step me RelPop c lk Panicked c lk.

Inductive lock_step : lstate → lstate → Prop :=
| lstep me pcs cpus lk p c p' c' lk' :
    pcs !! me = Some p → cpus !! me = Some c →
    cpu_step me p c lk p' c' lk' →
    lock_step (mkL pcs cpus lk) (mkL (<[me:=p']> pcs) (<[me:=c']> cpus) lk').

(** The machine starts with every CPU outside, interrupts on, no pushcli. *)
Definition lock_init (n : nat) : lstate :=
  mkL (replicate n Outside) (replicate n (mkCpu 0 0 0 0 None true 0)) initlock.

(** The CPU has won the xchg and not yet undone it. *)
Definition owns (p : pc) : bool :=
  match p with
  | AcqSet | Critical | RelLocked | RelCpu | RelClear | RelXchg => true
  | _ => false
  end.
(** The CPU's index is in [lk->cpu]. *)
Definition recorded (p : pc) : bool :=
  match p with
  | Critical | RelLocked | RelCpu | RelClear => true
  | _ => false
  end.

(** ** Lemmas on pushcli and popcli *)

(** The state of the interrupt machinery at a program counter: between
    [acquire]'s pushcli and [release]'s popcli the nesting depth is one,
    interrupts are off and the saved flag is "on". *)
Definition cli_ok (p : pc) (c : cpu) : Prop :=
  match p with
  | Outside => c_ncli c = 0 ∧ c_if c = true
  | _ => c_ncli c = 1 ∧ c_if c = false ∧ c_intena c = FL_IF
  end.

Lemma pushcli_cli_ok c : cli_ok Outside c → cli_ok AcqLocked (pushcli c).
Proof.
  intros [Hn Hi]. unfold pushcli, readeflags_IF, cli, set_if, set_ncli, set_intena.
  simpl. rewrite Hn, Hi. by simpl.
Qed.

Lemma popcli_cli_ok c : cli_ok RelPop c → ∃ c', popcli c = Ret c' ∧ cli_ok Outside c'.
Proof.
  intros (Hn & Hi & He). unfold popcli, readeflags_IF. rewrite Hi. simpl.
  rewrite Hn, He. simpl. eexists. split; [done|]. by simpl.
Qed.

(** ** The invariant of the interleaving

    [o] is the CPU that owns the lock, if any: its program counter is between
    the winning xchg of [acquire] and the xchg of [release]. *)
Definition lock_inv_at (o : option nat) (s : lstate) : Prop :=
  (∀ i p, l_pcs s !! i = Some p →
     (owns p = true ↔ o = Some i) ∧
     (recorded p = true ↔ lk_cpu (l_lock s) = Some i) ∧
     p ≠ Panicked ∧
     (∀ c, l_cpus s !! i = Some c → cli_ok p c)) ∧
  (lk_locked (l_lock s) ≠ 0 ↔ is_Some o).
Definition lock_inv (s : lstate) : Prop := ∃ o, lock_inv_at o s.

Lemma recorded_owns p : recorded p = true → owns p = true.
Proof. by destruct p. Qed.

Lemma lock_inv_init n : lock_inv (lock_init n).
Proof.
  exists None. split; simpl.
  - intros i p [-> _]%lookup_replicate. split_and!; try done.
    by intros c [-> _]%lookup_replicate.
  - split; [done|by intros []].
Qed.

(** What one CPU must establish when it moves from [p] to [p']. *)
Lemma lock_inv_update o o' me pcs cpus lk p c p' c' lk' :
  lock_inv_at o (mkL pcs cpus lk) →
  pcs !! me = Some p → cpus !! me = Some c →
  (owns p' = true ↔ o' = Some me) →
  (recorded p' = true ↔ lk_cpu lk' = Some me) →
  p' ≠ Panicked → cli_ok p' c' →
  (lk_locked lk' ≠ 0 ↔ is_Some o') →
  (∀ i q, i ≠ me → pcs !! i = Some q →
     (o' = Some i ↔ o = Some i) ∧ (lk_cpu lk' = Some i ↔ lk_cpu lk = Some i)) →
  lock_inv (mkL (<[me:=p']> pcs) (<[me:=c']> cpus) lk').
Proof.
  intros [Hall Hlk] Hp Hc Ho Hr Hnp Hcli Hlk' Hoth. exists o'. split; [|done]; simpl.
  intros i q Hq. destruct (decide (i = me)) as [->|Hne].
  - rewrite list_lookup_insert_eq in Hq by (by eapply lookup_lt_Some).
    rewrite list_lookup_insert_eq by (by eapply lookup_lt_Some).
    simplify_eq. split_and!; try done. by intros ? [= <-].
  - rewrite list_lookup_insert_ne in Hq by done.
    rewrite list_lookup_insert_ne by done.
    destruct (Hall i q Hq) as (H1 & H2 & H3 & H4); simpl in *.
    destruct (Hoth i q Hne Hq) as [H5 H6].
    split_and!; [by rewrite H5|by rewrite H6|done|done].
Qed.

Ltac lock_auto :=
  intuition (congruence || eauto ||
             match goal with H : is_Some None |- _ => by destruct H end).

Lemma lock_inv_step s s' : lock_step s s' → lock_inv s → lock_inv s'.
Proof.
  intros [me pcs cpus lk p c p' c' lk' Hp Hc Hst] [o Hinv].
  pose proof Hinv as [Hall Hlk]. simpl in Hlk.
  destruct (Hall me p Hp) as (Ho & Hr & _ & Hcli); simpl in *.
  specialize (Hcli c Hc).
  (* the CPUs that are recorded in the lock own it *)
  assert (Hcpu : ∀ i q, pcs !! i = Some q → lk_cpu lk = Some i → o = Some i).
  { intros i q Hq Hi. destruct (Hall i q Hq) as (H1 & H2 & _).
    apply H1, recorded_owns, H2, Hi. }
  destruct Hst; simpl in *;
    try (eapply (lock_inv_update o o); simpl; eauto; tauto || done).
  - (* pushcli *)
    eapply (lock_inv_update o o); simpl; eauto; try tauto.
    by apply pushcli_cli_ok.
  - (* a second acquire by the owner would panic, but the owner is not here *)
    lock_auto.
  - (* spinning *)
    eapply (lock_inv_update o o); simpl; eauto; tauto || lia || lock_auto.
  - (* winning *)
    assert (o = None) as -> by (destruct o; [by destruct (proj2 Hlk)|done]).
    eapply (lock_inv_update None (Some me)); simpl; eauto; lock_auto.
  - (* recording the holder *)
    assert (o = Some me) as -> by tauto.
    eapply (lock_inv_update (Some me) (Some me)); simpl; eauto; lock_auto.
  - assert (o = Some me) as -> by tauto. exfalso. by apply (proj2 Hlk).
  - (* forgetting the holder *)
    assert (o = Some me) as -> by tauto.
    eapply (lock_inv_update (Some me) (Some me)); simpl; eauto; lock_auto.
  - (* unlocking *)
    assert (o = Some me) as -> by tauto.
    eapply (lock_inv_update (Some me) None); simpl; eauto; lock_auto.
  - (* popcli *)
    destruct (popcli_cli_ok c Hcli) as (c1 & H1 & H2).
    assert (c1 = c') as -> by congruence.
    eapply (lock_inv_update o o); simpl; eauto.
  - destruct (popcli_cli_ok c Hcli) as (c1 & H1 & H2). congruence.
Qed.

Lemma lock_inv_reachable n s :
  rtc lock_step (lock_init n) s → lock_inv s.
Proof.
  assert (∀ s0, rtc lock_step s0 s → lock_inv s0 → lock_inv s) as H
    by (induction 1; eauto using lock_inv_step).
  eauto using lock_inv_init.
Qed.

(** ** Properties *)

(** Claim C13 (spinlock.c): mutual exclusion for any number of CPUs.  In every
    state reachable by interleaving the single shared accesses of [acquire]
    and [release] on one lock, at most one CPU is in the critical section, that
    CPU has interrupts off with a pushcli depth of one, and no CPU has reached
    the "acquire", "release" or "popcli" panics. *)
Theorem spinlock_mutual_exclusion n s :
  rtc lock_step (lock_init n) s →
  (∀ i j, l_pcs s !! i = Some Critical → l_pcs s !! j = Some Critical → i = j) ∧
  (∀ i c, l_pcs s !! i = Some Critical → l_cpus s !! i = Some c →
     c_if c = false ∧ c_ncli c = 1 ∧ lk_cpu (l_lock s) = Some i) ∧
  Panicked ∉ l_pcs s.
Proof.
  intros [o [Hall Hlk]]%lock_inv_reachable. split_and!.
  - intros i j Hi Hj. destruct (Hall i _ Hi) as [[H1 _] _].
    destruct (Hall j _ Hj) as [[H2 _] _].
    specialize (H1 eq_refl). specialize (H2 eq_refl). congruence.
  - intros i c Hi Hc. destruct (Hall i _ Hi) as (_ & [Hr _] & _ & Hcli).
    destruct (Hcli c Hc) as (? & ? & _). auto.
  - intros [i Hi]%list_elem_of_lookup. by destruct (Hall i _ Hi) as (_ & _ & ? & _).
Qed.

(** A run of two CPUs in which CPU 0 is in the critical section while CPU 1 spins. *)
Lemma spinlock_mutual_exclusion_witness :
  ∃ s, rtc lock_step (lock_init 2) s ∧ l_pcs s = [Critical; AcqXchg] ∧
    (∀ i j, l_pcs s !! i = Some Critical → l_pcs s !! j = Some Critical → i = j).
Proof.
  assert (∃ s, rtc lock_step (lock_init 2) s ∧ l_pcs s = [Critical; AcqXchg])
    as (s & Hs & Hp).
  { eexists. split.
    - eapply rtc_l. { eapply (lstep 0); [done..|]. apply st_acquire. }
      eapply rtc_l. { eapply (lstep 0); [done..|]. by apply st_acq_free. }
      eapply rtc_l. { eapply (lstep 0); [done..|]. by apply st_xchg_win. }
      eapply rtc_l. { eapply (lstep 0); [done..|]. apply st_set. }
      eapply rtc_l. { eapply (lstep 1); [done..|]. apply st_acquire. }
      eapply rtc_l. { eapply (lstep 1); [done..|]. by apply st_acq_busy. }
      eapply rtc_l. { eapply (lstep 1); [done..|]. by apply st_acq_other. }
      eapply rtc_l. { eapply (lstep 1); [done..|]. by apply st_xchg_spin. }
      apply rtc_refl.
    - done. }
  exists s. split_and!; [exact Hs|exact Hp|].
  exact (proj1 (spinlock_mutual_exclusion 2 s Hs)).
Defined.

(** ** acquire and release by one CPU *)

(** [n] nested pushcli: the depth grows by one and the flag saved by the
    outermost one is kept. *)
Lemma pushcli_depth c :
  0 ≤ c_ncli c < 2 ^ 31 - 1 →
  c_ncli (pushcli c) = c_ncli c + 1 ∧ c_if (pushcli c) = false ∧
  c_proc (pushcli c) = c_proc c.
Proof.
  intros Hn. unfold pushcli, cli, set_if, set_ncli, set_intena; simpl.
  case_match; simpl; rewrite i32_small by lia; auto.
Qed.

Lemma acquire_free me c lk :
  lk_locked lk = 0 → acquire me c lk = Ret (pushcli c, mkLock 1 (Some me)).
Proof. intros H. unfold acquire, holding. by rewrite H. Qed.

(** Matched [pushcli]/[popcli].  An [acquire] that gets the
    lock followed by the [release] returns the CPU to the interrupt state and
    the nesting depth it started with, for any depth: interrupts are turned on
    again only when the outermost pushcli found them on. *)
Theorem acquire_release_restores me c lk :
  0 ≤ c_ncli c < 2 ^ 31 - 1 →
  (c_ncli c ≠ 0 → c_if c = false) →
  lk_locked lk = 0 →
  ∃ c1 c2,
    acquire me c lk = Ret (c1, mkLock 1 (Some me)) ∧
    release me c1 (mkLock 1 (Some me)) = Ret (c2, mkLock 0 None) ∧
    c_ncli c2 = c_ncli c ∧ c_if c2 = c_if c ∧ c_proc c2 = c_proc c ∧
    (c_ncli c ≠ 0 → c_intena c2 = c_intena c).
Proof.
  intros Hn Hi Hl. rewrite acquire_free by done.
  exists (pushcli c).
  unfold release, holding. simpl. rewrite bool_decide_eq_true_2 by done. simpl.
  unfold popcli, pushcli, readeflags_IF, cli, sti, set_if, set_ncli, set_intena.
  destruct c as [ss0 esp0 ncli intena pr fl cr3]; simpl in *.
  destruct (ncli =? 0) eqn:E; bool_to_prop; simpl.
  - subst. destruct fl; simpl; eexists; split_and!; try done.
  - rewrite (i32_small (ncli + 1)) by lia.
    replace (ncli + 1 - 1) with ncli by lia. rewrite i32_small by lia.
    destruct (ncli <? 0) eqn:E1; bool_to_prop; [lia|].
    destruct (ncli =? 0) eqn:E2; bool_to_prop; [done|]. simpl.
    eexists; split_and!; try done; simpl. by rewrite Hi.
Qed.

Lemma acquire_release_restores_witness :
  ∃ c1 c2, acquire 0 (mkCpu 0 0 0 0 None true 0) initlock = Ret (c1, mkLock 1 (Some 0%nat)) ∧
    release 0 c1 (mkLock 1 (Some 0%nat)) = Ret (c2, mkLock 0 None) ∧ c_if c2 = true.
Proof.
  destruct (acquire_release_restores 0 (mkCpu 0 0 0 0 None true 0) initlock)
    as (c1 & c2 & H1 & H2 & H3 & H4 & _); simpl; [lia|done|done|].
  exists c1, c2. by rewrite H4.
Defined.

(** [getcallerpcs] fills exactly the ten entries of [pcs]. *)
Lemma getcallerpcs_length m v : length (getcallerpcs m v) = 10%nat.
Proof.
  unfold getcallerpcs. generalize (u32 (v - 8)) as ebp. generalize 10%nat as k.
  induction k as [|k IH]; intros ebp; [done|]. simpl.
  case_match; simpl; by rewrite ?length_replicate, ?IH.
Qed.
