(* ===== verification/CString.v ===== *)
(** * C strings and blocks of memory (string.c of the kernel, ulib.c of user
    programs)

    Every routine acts on byte-addressed memory through pointers, as the C
    code does, so that overlap and termination are visible.  Pointers do not
    wrap around the top of the address space. *)
From S2P Require Import Prelude Machine.

Open Scope Z_scope.

(** ** The string instructions of x86.h *)
Fixpoint stosb (m : mem) (addr data : Z) (cnt : nat) : mem :=
  match cnt with
  | O => m
  | S k => stosb (store8 m addr data) (addr + 1) data k
  end.
Fixpoint stosl (m : mem) (addr data : Z) (cnt : nat) : mem :=
  match cnt with
  | O => m
  | S k => stosl (store32 m addr data) (addr + 4) data k
  end.

(** ** string.c *)
Definition memset (m : mem) (dst c : Z) (n : Z) : mem :=
  if (Z.rem (i32 dst) 4 =? 0) && (n mod 4 =? 0) then
    let c := Z.land c 0xFF in
    stosl m dst
      (Z.lor (Z.lor (Z.lor (Z.shiftl c 24) (Z.shiftl c 16)) (Z.shiftl c 8)) c)
      (Z.to_nat (n / 4))
  else stosb m dst c (Z.to_nat n).

Fixpoint memcmp (m : mem) (s1 s2 : Z) (n : nat) : Z :=
  match n with
  | O => 0
  | S k => if m s1 =? m s2 then memcmp m (s1 + 1) (s2 + 1) k else m s1 - m s2
  end.

(** [while(n-- > 0) *d++ = *s++;] *)
Fixpoint copy_forward (m : mem) (d s : Z) (n : nat) : mem :=
  match n with
  | O => m
  | S k => copy_forward (store8 m d (m s)) (d + 1) (s + 1) k
  end.
(** [while(n-- > 0) *--d = *--s;] *)
Fixpoint copy_backward (m : mem) (d s : Z) (n : nat) : mem :=
  match n with
  | O => m
  | S k => copy_backward (store8 m (d - 1) (m (s - 1))) (d - 1) (s - 1) k
  end.
Definition memmove (m : mem) (dst src : Z) (n : nat) : mem :=
  if (src <? dst) && (dst <? src + Z.of_nat n)
  then copy_backward m (dst + Z.of_nat n) (src + Z.of_nat n) n
  else copy_forward m dst src n.

Fixpoint strncmp (m : mem) (p q : Z) (n : nat) : Z :=
  match n with
  | O => 0
  | S k => if truth (m p) && (m p =? m q) then strncmp m (p + 1) (q + 1) k
           else m p - m q
  end.

(** The two loops of [strncpy]: copy up to and including a NUL, then pad. *)
Fixpoint strncpy_loop (m : mem) (s t : Z) (n : nat) : mem :=
  match n with
  | O => m
  | S k =>
      let m' := store8 m s (m t) in
      if truth (m t) then strncpy_loop m' (s + 1) (t + 1) k
      else stosb m' (s + 1) 0 k
  end.
Definition strncpy (m : mem) (s t : Z) (n : Z) : mem :=
  strncpy_loop m s t (Z.to_nat n).

(** [while(--n > 0 && ( *s++ = *t++) != 0); *s = 0;] with [k = n - 1]. *)
Fixpoint safestrcpy_loop (m : mem) (s t : Z) (k : nat) : mem :=
  match k with
  | O => store8 m s 0
  | S k' =>
      let m' := store8 m s (m t) in
      if truth (m t) then safestrcpy_loop m' (s + 1) (t + 1) k'
      else store8 m' (s + 1) 0
  end.
Definition safestrcpy (m : mem) (s t : Z) (n : Z) : mem :=
  if n <=? 0 then m else safestrcpy_loop m s t (Z.to_nat (n - 1)).

(** [for(n = 0; s[n]; n++);]; the fuel bounds the length. *)
Fixpoint strlen (fuel : nat) (m : mem) (s : Z) : outcome Z :=
  match fuel with
  | O => Diverge
  | S f => if truth (m s)
           then let* n := strlen f m (s + 1) in Ret (n + 1)
           else Ret 0
  end.

(** ** ulib.c *)
Fixpoint strcpy (fuel : nat) (m : mem) (s t : Z) : outcome mem :=
  match fuel with
  | O => Diverge
  | S f => let m' := store8 m s (m t) in
           if truth (m t) then strcpy f m' (s + 1) (t + 1) else Ret m'
  end.
Fixpoint strcmp (fuel : nat) (m : mem) (p q : Z) : outcome Z :=
  match fuel with
  | O => Diverge
  | S f => if truth (m p) && (m p =? m q) then strcmp f m (p + 1) (q + 1)
           else Ret (m p - m q)
  end.
(** [strchr] returns the address of the first [c], or 0. *)
Fixpoint strchr (fuel : nat) (m : mem) (s c : Z) : outcome Z :=
  match fuel with
  | O => Diverge
  | S f => if truth (m s) then
             if m s =? c then Ret s else strchr f m (s + 1) c
           else Ret 0
  end.
Fixpoint atoi_loop (fuel : nat) (m : mem) (s n : Z) : outcome Z :=
  match fuel with
  | O => Diverge
  | S f => if (48 <=? m s) && (m s <=? 57)
           then atoi_loop f m (s + 1) (i32 (n * 10 + m s - 48))
           else Ret n
  end.
Definition atoi (fuel : nat) (m : mem) (s : Z) : outcome Z := atoi_loop fuel m s 0.
(** User programs have a forward-only [memmove]. *)
Definition ulib_memmove (m : mem) (dst src : Z) (n : Z) : mem :=
  copy_forward m dst src (Z.to_nat n).

(** ** C strings in memory *)
Fixpoint cstr (m : mem) (a : Z) (l : list Z) : Prop :=
  match l with
  | [] => m a = 0
  | c :: l' => m a = c ∧ c ≠ 0 ∧ cstr m (a + 1) l'
  end.

(** ** Lemmas *)
Lemma store8_eq m a v b : b = a → byte_ok v → store8 m a v b = v.
Proof.
  intros -> Hv. unfold store8, u8. rewrite Z.eqb_refl. by apply Z.mod_small.
Qed.
Lemma store8_other m a v b : b ≠ a → store8 m a v b = m b.
Proof. intros H. unfold store8. by rewrite (proj2 (Z.eqb_neq b a) H). Qed.
Lemma store8_ok m a v : mem_ok m → mem_ok (store8 m a v).
Proof. intros Hm b. unfold store8. case_match; auto with xv6. Qed.
#[export] Hint Resolve store8_ok : xv6.


(** A cell is in [a, a+n), decided. *)
Definition within (a : Z) (n : nat) (b : Z) : bool :=
  (a <=? b) && (b <? a + Z.of_nat n).
Lemma within_true a n b : within a n b = true ↔ a ≤ b < a + Z.of_nat n.
Proof. unfold within. rewrite andb_true_iff, Z.leb_le, Z.ltb_lt. done. Qed.
Lemma within_false a n b : within a n b = false ↔ ¬ (a ≤ b < a + Z.of_nat n).
Proof. rewrite <- within_true. by destruct (within a n b). Qed.
(** Case analysis on [within] tests of the goal. *)
Ltac case_within :=
  repeat match goal with
  | |- context [within ?a ?n ?b] =>
      let E := fresh "E" in
      destruct (within a n b) eqn:E;
      [apply within_true in E|apply within_false in E]
  end.

Lemma stosb_spec n : ∀ m a c b,
  stosb m a c n b = if within a n b then u8 c else m b.
Proof.
  induction n as [|n IH]; intros m a c b; simpl.
  - case_within; [lia|done].
  - rewrite IH. unfold store8. destruct (Z.eqb_spec b a); case_within; (done || lia).
Qed.

Lemma stosl_spec n : ∀ m a c b,
  stosl m a c n b =
  if within a (4 * n) b then u8 (u32 c / 2 ^ (8 * ((b - a) mod 4))) else m b.
Proof.
  induction n as [|n IH]; intros m a c b; simpl.
  - case_within; [lia|done].
  - rewrite IH.
    replace (n + (n + (n + (n + 0))))%nat with (4 * n)%nat by lia.
    destruct (decide (a ≤ b < a + 4)) as [Hb|Hb].
    + unfold store32. rewrite (proj2 (Z.leb_le a b)), (proj2 (Z.ltb_lt b (a + 4))) by lia.
      simpl. case_within; try lia. rewrite Z.mod_small by lia. done.
    + rewrite store32_other by lia. case_within; try lia.
      replace ((b - (a + 4)) mod 4) with ((b - a) mod 4); [done|].
      rewrite <- (Z_mod_plus_full (b - (a + 4)) 1 4). f_equal. lia.
Qed.

(** The word [stosl] repeats is the byte four times. *)
Lemma memset_word c i :
  0 ≤ c < 256 → 0 ≤ i < 4 →
  u8 (u32 (Z.lor (Z.lor (Z.lor (Z.shiftl c 24) (Z.shiftl c 16)) (Z.shiftl c 8)) c)
        / 2 ^ (8 * i)) = c.
Proof.
  intros Hc Hi. rewrite <- !Z.lor_assoc.
  rewrite (lor_shiftl_add c c 8), (lor_shiftl_add c _ 16), (lor_shiftl_add c _ 24) by lia.
  rewrite u32_small by lia. unfold u8.
  assert (i = 0 ∨ i = 1 ∨ i = 2 ∨ i = 3) as [->|[->|[->| ->]]] by lia;
    simpl Z.mul; change (2 ^ 0) with 1; change (2 ^ 8) with 256;
    change (2 ^ 16) with 65536; change (2 ^ 24) with 16777216;
    Z.div_mod_to_equations; lia.
Qed.

(** Pointwise description of [memset], used by the allocator. *)
Lemma memset_at m dst c n b :
  0 ≤ n →
  memset m dst c n b = if within dst (Z.to_nat n) b then u8 c else m b.
Proof.
  intros Hn. unfold memset. case_match eqn:E; [|apply stosb_spec].
  bool_to_prop. rewrite stosl_spec.
  replace (4 * Z.to_nat (n / 4))%nat with (Z.to_nat n) by
    (apply Nat2Z.inj; rewrite Nat2Z.inj_mul, !Z2Nat.id by (apply Z.div_pos || idtac; lia);
     Z.div_mod_to_equations; lia).
  case_within; [|done].
  pose proof (Z.land_ones c 8 ltac:(lia)) as Hl. change (Z.ones 8) with 255 in Hl.
  rewrite Hl.
  rewrite memset_word; [done|by apply Z.mod_pos_bound|by apply Z.mod_pos_bound].
Qed.

Lemma memset_ok m dst c n : 0 ≤ n → mem_ok m → mem_ok (memset m dst c n).
Proof. intros Hn Hm b. rewrite memset_at by done. case_match; auto with xv6. Qed.

Lemma copy_forward_spec n : ∀ m d s b,
  mem_ok m → d ≤ s ∨ s + Z.of_nat n ≤ d →
  copy_forward m d s n b = if within d n b then m (s + (b - d)) else m b.
Proof.
  induction n as [|n IH]; intros m d s b Hm Hd; simpl.
  - case_within; [lia|done].
  - rewrite IH; [|auto with xv6|lia]. destruct (decide (b = d)) as [->|Hne].
    + rewrite (store8_eq m d _ d) by (done || apply Hm).
      case_within; try lia. by replace (s + (d - d)) with s by lia.
    + rewrite (store8_other m d _ b) by done. case_within; try lia.
      rewrite store8_other by lia. f_equal. lia.
Qed.

Lemma copy_backward_spec n : ∀ m d s b,
  mem_ok m → s ≤ d →
  copy_backward m d s n b =
  if within (d - Z.of_nat n) n b then m (s + (b - d)) else m b.
Proof.
  induction n as [|n IH]; intros m d s b Hm Hd; simpl copy_backward.
  - case_within; [lia|done].
  - rewrite IH; [|auto with xv6|lia]. destruct (decide (b = d - 1)) as [->|Hne].
    + rewrite (store8_eq m (d - 1) _ (d - 1)) by (done || apply Hm).
      case_within; try lia. f_equal. lia.
    + rewrite (store8_other m (d - 1) _ b) by done. case_within; try lia.
      rewrite store8_other by lia. f_equal. lia.
Qed.

Lemma memmove_at m dst src n b :
  mem_ok m →
  memmove m dst src n b = if within dst n b then m (src + (b - dst)) else m b.
Proof.
  intros Hm. unfold memmove. case_match eqn:E; bool_to_prop.
  - rewrite copy_backward_spec by (done || lia).
    replace (dst + Z.of_nat n - Z.of_nat n) with dst by lia.
    case_match; [f_equal; lia|done].
  - apply copy_forward_spec; [done|]. apply andb_false_iff in E as [E|E]; bool_to_prop; lia.
Qed.

(** ** Properties *)

(** [memset] and [memmove] do what their names say.  For any
    destination, value and length, [memset] sets exactly the [n] bytes at
    [dst] to the low byte of [c], whichever of its word or byte instruction it
    selects; and [memmove] leaves at [dst] the [n] bytes that were at [src]
    before the call, for every overlap of the two ranges, changing nothing
    else. *)
Theorem memset_memmove_correct m :
  (∀ dst c n b, 0 ≤ n →
     memset m dst c n b = if within dst (Z.to_nat n) b then u8 c else m b) ∧
  (∀ dst src n b, mem_ok m →
     memmove m dst src n b = if within dst n b then m (src + (b - dst)) else m b).
Proof. split; intros; [by apply memset_at|by apply memmove_at]. Qed.

(** The forward-only [memmove] of ulib.c is not the kernel's: moving three
    bytes up by one over themselves duplicates the first one. *)
Example ulib_memmove_overlap :
  let m : mem := λ a, a + 1 in
  bytes_at (ulib_memmove m 1 0 3) 0 4 = [1; 1; 1; 1] ∧
  bytes_at (memmove m 1 0 3) 0 4 = [1; 1; 2; 3].
Proof. split; vm_compute; reflexivity. Qed.

(** ** Lemmas on strings *)
Lemma cstr_frame m m' l : ∀ a,
  (∀ b, a ≤ b ≤ a + Z.of_nat (length l) → m' b = m b) →
  cstr m a l → cstr m' a l.
Proof.
  induction l as [|c l IH]; intros a Hf H; simpl in *.
  - rewrite Hf by lia. done.
  - destruct H as (H1 & H2 & H3). rewrite Hf by lia. split_and!; [done..|].
    apply IH; [|done]. intros b Hb. apply Hf. lia.
Qed.

Lemma cstr_inj m l1 : ∀ a l2, cstr m a l1 → cstr m a l2 → l1 = l2.
Proof.
  induction l1 as [|c l1 IH]; intros a [|d l2]; simpl; intros H1 H2;
    [done|lia|lia|].
  destruct H1 as (? & ? & H1), H2 as (? & ? & H2). f_equal; [congruence|eauto].
Qed.

Lemma strlen_spec m l : ∀ a fuel,
  cstr m a l → (length l < fuel)%nat → strlen fuel m a = Ret (Z.of_nat (length l)).
Proof.
  induction l as [|c l IH]; intros a [|f] H Hf; simpl in *; try lia.
  - by rewrite H.
  - destruct H as (H1 & H2 & H3). rewrite H1, (proj2 (truth_true c)) by done.
    rewrite IH by (done || lia). f_equal. lia.
Qed.

Lemma strncpy_loop_spec n : ∀ m s t l b,
  mem_ok m → cstr m t l →
  s + Z.of_nat n ≤ t ∨ t + Z.of_nat (length l) < s →
  strncpy_loop m s t n b =
  if within s n b then default 0 (l !! Z.to_nat (b - s)) else m b.
Proof.
  induction n as [|n IH]; intros m s t l b Hm Hl Hd; simpl strncpy_loop.
  { case_within; [lia|done]. }
  destruct l as [|c l]; simpl in Hl, Hd.
  - rewrite Hl. simpl. rewrite stosb_spec.
    unfold store8. destruct (Z.eqb_spec b s); case_within; (done || lia).
  - destruct Hl as (Hc & Hnz & Hl). rewrite Hc, (proj2 (truth_true c)) by done.
    rewrite (IH _ _ _ l); [|auto with xv6| |lia].
    + destruct (decide (b = s)) as [->|Hne].
      * rewrite store8_eq by (done || rewrite <- Hc; apply Hm).
        case_within; try lia. by replace (s - s) with 0 by lia.
      * rewrite store8_other by done. case_within; try lia.
        by replace (Z.to_nat (b - s)) with (S (Z.to_nat (b - (s + 1)))) by lia.
    + eapply cstr_frame; [|done]. intros d Hdd. apply store8_other. lia.
Qed.

Lemma safestrcpy_loop_frame k : ∀ m s t b,
  ¬ (s ≤ b ≤ s + Z.of_nat k) → safestrcpy_loop m s t k b = m b.
Proof.
  induction k as [|k IH]; intros m s t b Hb; simpl.
  - apply store8_other. lia.
  - case_match.
    + rewrite IH by lia. apply store8_other. lia.
    + rewrite !store8_other by lia. done.
Qed.

Lemma safestrcpy_loop_spec k : ∀ m s t l,
  mem_ok m → cstr m t l →
  s + Z.of_nat k < t ∨ t + Z.of_nat (length l) < s →
  cstr (safestrcpy_loop m s t k) s (take k l).
Proof.
  induction k as [|k IH]; intros m s t l Hm Hl Hd.
  - simpl. by apply store8_eq.
  - destruct l as [|c l]; simpl in Hl, Hd.
    + simpl safestrcpy_loop. rewrite Hl. simpl. rewrite store8_other by lia.
      by apply store8_eq.
    + destruct Hl as (Hc & Hnz & Hl). simpl safestrcpy_loop.
      rewrite Hc, (proj2 (truth_true c)) by done. simpl take. simpl cstr.
      split_and!; [|done|].
      * rewrite safestrcpy_loop_frame by lia.
        apply store8_eq; [done|]. rewrite <- Hc. apply Hm.
      * apply IH; [auto with xv6| |lia].
        eapply cstr_frame; [|done]. intros d Hdd. apply store8_other. lia.
Qed.

Lemma strncmp_spec n : ∀ m p q l1 l2,
  cstr m p l1 → cstr m q l2 →
  strncmp m p q n = 0 ↔ take n l1 = take n l2.
Proof.
  induction n as [|n IH]; intros m p q l1 l2 H1 H2; [done|]. simpl strncmp.
  destruct l1 as [|c l1], l2 as [|d l2]; simpl in H1, H2; split_hyps.
  - rewrite H1, H2. done.
  - rewrite H1. simpl. split; [lia|done].
  - rewrite H2. case_match eqn:E; bool_to_prop; [lia|]. split; [lia|done].
  - destruct (Z.eqb_spec (m p) (m q)) as [Heq|Hne].
    + rewrite (proj2 (truth_true (m p))) by lia. simpl.
      rewrite (IH m (p + 1) (q + 1) l1 l2) by done.
      split; [intros ->; f_equal; lia|by intros [=]].
    + rewrite andb_false_r. split; [lia|]. intros [= ]. lia.
Qed.

(** The bounded string copies.  For a NUL-terminated source
    that does not overlap the destination, [strncpy] writes exactly [n]
    bytes, the string followed by zeros (and no zero at all when the string
    has [n] or more characters), while [safestrcpy] leaves at [s] a
    NUL-terminated string, the first [n - 1] characters of the source, and
    touches nothing outside the [n] bytes. *)
Theorem string_copies_correct m s t l n :
  mem_ok m → cstr m t l → 0 < n →
  s + n ≤ t ∨ t + Z.of_nat (length l) < s →
  (∀ b, strncpy m s t n b =
     if within s (Z.to_nat n) b then default 0 (l !! Z.to_nat (b - s)) else m b) ∧
  cstr (safestrcpy m s t n) s (take (Z.to_nat (n - 1)) l) ∧
  (∀ b, ¬ (s ≤ b < s + n) → safestrcpy m s t n b = m b).
Proof.
  intros Hm Hl Hn Hd. unfold safestrcpy. rewrite (proj2 (Z.leb_gt n 0)) by lia.
  split_and!.
  - intros b. apply strncpy_loop_spec; [done..|lia].
  - apply safestrcpy_loop_spec; [done..|lia].
  - intros b Hb. apply safestrcpy_loop_frame. lia.
Qed.

(** The memory of the witness holds the string "abc" at 100. *)
Lemma string_copies_correct_witness :
  let m : mem := λ a, if within 100 3 a then a - 3 else 0 in
  cstr (safestrcpy m 200 100 3) 200 [97; 98].
Proof.
  intros m. destruct (string_copies_correct m 200 100 [97; 98; 99] 3) as (_ & H & _).
  - intros a. unfold m, byte_ok. case_within; lia.
  - simpl; unfold m; simpl; lia.
  - lia.
  - simpl. lia.
  - exact H.
Defined.
