(* ===== verification/Kalloc.v ===== *)
(** * Physical page allocator (kalloc.c)

    The free list is threaded through the free pages: the first word of a free
    page is the address of the next one.  [kend] is the address [end] of
    kernel.ld, the first address after the loaded kernel.  The critical
    sections between [acquire(&kmem.lock)] and [release(&kmem.lock)] are
    atomic here (Spinlock.v justifies it); [km_use_lock] is kept as state. *)
From S2P Require Import Prelude Machine CString.

Open Scope Z_scope.

Record kmem := mkKmem { km_use_lock : Z; km_freelist : Z; km_mem : mem }.

Definition set_km_mem (m : mem) (k : kmem) : kmem :=
  mkKmem (km_use_lock k) (km_freelist k) m.

Section Kalloc.
Context (kend : Z).

Definition kfree (v : Z) (k : kmem) : outcome kmem :=
  if truth (v mod PGSIZE) || (v <? kend) || (PHYSTOP <=? v2p v)
  then Panic "kfree"
  else
    (* Fill with junk to catch dangling refs. *)
    let m := memset (km_mem k) v 1 PGSIZE in
    let m := store32 m v (km_freelist k) in
    Ret (mkKmem (km_use_lock k) v m).

Definition kalloc (k : kmem) : Z * kmem :=
  let r := km_freelist k in
  if truth r then (r, mkKmem (km_use_lock k) (load32 (km_mem k) r) (km_mem k))
  else (r, k).

(** [for(; p + PGSIZE <= vend; p += PGSIZE) kfree(p);] *)
Fixpoint freerange_loop (fuel : nat) (p vend : Z) (k : kmem) : outcome kmem :=
  match fuel with
  | O => Diverge
  | S f =>
      if u32 (p + PGSIZE) <=? vend then
        let* k := kfree p k in
        freerange_loop f (u32 (p + PGSIZE)) vend k
      else Ret k
  end.
Definition freerange (fuel : nat) (vstart vend : Z) (k : kmem) : outcome kmem :=
  freerange_loop fuel (PGROUNDUP vstart) vend k.

Definition kinit1 (fuel : nat) (vstart vend : Z) (k : kmem) : outcome kmem :=
  freerange fuel vstart vend (mkKmem 0 (km_freelist k) (km_mem k)).
Definition kinit2 (fuel : nat) (vstart vend : Z) (k : kmem) : outcome kmem :=
  let* k := freerange fuel vstart vend k in
  Ret (mkKmem 1 (km_freelist k) (km_mem k)).

(** ** What the free list represents *)

(** A page the allocator may own. *)
Definition page_ok (p : Z) : Prop :=
  p mod PGSIZE = 0 ∧ kend ≤ p ∧ v2p p < PHYSTOP ∧ KERNBASE ≤ p < 2 ^ 32.

Fixpoint free_chain (m : mem) (head : Z) (l : list Z) : Prop :=
  match l with
  | [] => head = 0
  | p :: l' => head = p ∧ page_ok p ∧ free_chain m (load32 m p) l'
  end.

(** The allocator's memory is well formed and its free pages are [l]. *)
Definition kmem_rep (k : kmem) (l : list Z) : Prop :=
  mem_ok (km_mem k) ∧ free_chain (km_mem k) (km_freelist k) l ∧ NoDup l.

Definition in_page (p a : Z) : Prop := p ≤ a < p + PGSIZE.

(** ** Lemmas *)
Lemma page_ok_disjoint p q a : page_ok p → page_ok q → in_page p a → in_page q a → p = q.
Proof.
  intros (Hp & _) (Hq & _) H1 H2. unfold in_page, PGSIZE in *.
  Z.div_mod_to_equations; lia.
Qed.

Lemma page_ok_valid p :
  page_ok p → (truth (p mod PGSIZE) || (p <? kend) || (PHYSTOP <=? v2p p))%bool = false.
Proof.
  intros (Hm & He & Hp & _). rewrite Hm.
  rewrite (proj2 (Z.ltb_ge p kend)), (proj2 (Z.leb_gt PHYSTOP (v2p p))) by lia. done.
Qed.

(** The chain depends only on the memory of its own pages. *)
Lemma free_chain_frame m m' l : ∀ head,
  (∀ p a, p ∈ l → in_page p a → m' a = m a) →
  free_chain m head l → free_chain m' head l.
Proof.
  induction l as [|p l IH]; intros head Hf H; [done|].
  destruct H as (-> & Hp & H). split_and!; [done..|].
  rewrite (load32_ext m' m).
  - apply IH; [|done]. intros q a Hq. apply Hf. by apply list_elem_of_further.
  - intros b Hb. apply (Hf p); [apply list_elem_of_here|]. unfold in_page, PGSIZE. lia.
Qed.

Lemma free_chain_pages m l : ∀ head p, free_chain m head l → p ∈ l → page_ok p.
Proof.
  induction l as [|q l IH]; intros head p H Hp; [by apply not_elem_of_nil in Hp|].
  destruct H as (-> & Hq & H). apply elem_of_cons in Hp as [->|Hp]; eauto.
Qed.

Lemma kfree_rep k l v :
  kmem_rep k l → page_ok v → v ∉ l →
  ∃ k', kfree v k = Ret k' ∧ kmem_rep k' (v :: l) ∧
    km_use_lock k' = km_use_lock k ∧
    (∀ a, ¬ in_page v a → km_mem k' a = km_mem k a).
Proof.
  intros (Hm & Hc & Hnd) Hv Hn. unfold kfree. rewrite page_ok_valid by done.
  eexists. split; [done|].
  assert (∀ a, ¬ in_page v a →
    store32 (memset (km_mem k) v 1 PGSIZE) v (km_freelist k) a = km_mem k a) as Hfr.
  { intros a Ha. unfold in_page, PGSIZE in *. rewrite store32_other by lia.
    rewrite memset_at by lia. case_within; [|done].
    rewrite Z2Nat.id in E by lia. lia. }
  split_and!; simpl; [|done|done]. split_and!; simpl.
  - apply store32_ok. apply memset_ok; [done|done].
  - split_and!; [done..|]. rewrite load32_store32_eq.
    assert (u32 (km_freelist k) = km_freelist k) as ->.
    { destruct l as [|p l]; simpl in Hc; [by rewrite Hc|].
      destruct Hc as (-> & (? & ? & ? & ?) & _). apply u32_small.
      unfold KERNBASE in *. lia. }
    eapply free_chain_frame; [|done]. intros p a Hp Ha. apply Hfr. intros Ha'.
    apply Hn. rewrite (page_ok_disjoint v p a); eauto using free_chain_pages.
  - by apply NoDup_cons.
Qed.

Lemma kalloc_rep k l :
  kmem_rep k l →
  match l with
  | [] => kalloc k = (0, k)
  | p :: l' => ∃ k', kalloc k = (p, k') ∧ page_ok p ∧ kmem_rep k' l' ∧
                 km_mem k' = km_mem k ∧ km_use_lock k' = km_use_lock k
  end.
Proof.
  intros (Hm & Hc & Hnd). unfold kalloc. destruct l as [|p l]; simpl in Hc.
  - by rewrite Hc.
  - destruct Hc as (-> & Hp & Hc). apply NoDup_cons in Hnd as [_ Hnd].
    assert (truth p = true) as ->.
    { apply truth_true. destruct Hp as (_ & _ & _ & ?). unfold KERNBASE in *. lia. }
    eexists. split_and!; [done|done| |done|done]. split_and!; done.
Qed.

(** ** freerange *)

(** The [n] pages from [p] on, last first. *)
Fixpoint pages_from (p : Z) (n : nat) : list Z :=
  match n with
  | O => []
  | S n' => pages_from (p + PGSIZE) n' ++ [p]
  end.

Lemma elem_of_pages_from n : ∀ p q,
  q ∈ pages_from p n ↔ ∃ i, (i < n)%nat ∧ q = p + Z.of_nat i * PGSIZE.
Proof.
  induction n as [|n IH]; intros p q; simpl.
  - split; [by intros ?%not_elem_of_nil|intros (i & ? & _); lia].
  - rewrite elem_of_app, IH, list_elem_of_singleton. split.
    + intros [(i & Hi & ->)| ->]; [exists (S i)|exists O]; lia.
    + intros ([|i] & Hi & ->); [right; lia|left; exists i; lia].
Qed.

Lemma freerange_loop_rep fuel : ∀ p vend k l,
  kmem_rep k l → p mod PGSIZE = 0 → kend ≤ p → KERNBASE ≤ p →
  vend ≤ KERNBASE + PHYSTOP → p ≤ vend + PGSIZE →
  (∀ q, q ∈ l → q < p) →
  (Z.to_nat ((vend - p) / PGSIZE) < fuel)%nat →
  ∃ k', freerange_loop fuel p vend k = Ret k' ∧
    kmem_rep k' (pages_from p (Z.to_nat ((vend - p) / PGSIZE)) ++ l).
Proof.
  induction fuel as [|f IH]; intros p vend k l Hk Hp Hke Hkb Hv Hpv Hl Hf; [lia|].
  simpl. unfold KERNBASE, PHYSTOP, PGSIZE in *.
  rewrite u32_small by lia. destruct (p + 4096 <=? vend) eqn:E; bool_to_prop.
  - destruct (kfree_rep k l p) as (k1 & -> & Hk1 & _); [done| | |].
    { unfold page_ok, KERNBASE, PHYSTOP, PGSIZE, v2p. rewrite u32_small by (unfold KERNBASE; lia).
      unfold KERNBASE. lia. }
    { intros H%Hl. lia. }
    assert ((vend - p) / 4096 = (vend - (p + 4096)) / 4096 + 1) as Hd
      by (Z.div_mod_to_equations; lia).
    assert (0 ≤ (vend - (p + 4096)) / 4096) by (apply Z.div_pos; lia).
    destruct (IH (p + 4096) vend k1 (p :: l)) as (k2 & Hk2 & Hr); try done; try lia.
    { Z.div_mod_to_equations; lia. }
    { intros q [->|Hq]%elem_of_cons; [lia|]. specialize (Hl q Hq). lia. }
    exists k2. split; [done|]. rewrite Hd, Z2Nat.inj_add, Nat.add_1_r by lia.
    simpl. unfold PGSIZE. by rewrite <- app_assoc.
  - exists k. split; [done|].
    assert ((vend - p) / 4096 < 1) by (apply Z.div_lt_upper_bound; lia).
    by replace (Z.to_nat ((vend - p) / 4096)) with O by lia.
Qed.
End Kalloc.

(** ** The allocator and its clients

    Clients hold the pages that [kalloc] gave them, write to those pages as
    they like, and return them with [kfree]. *)
Record kclient := mkKC { kc_k : kmem; kc_owned : list Z }.

Inductive kstep (kend : Z) : kclient → kclient → Prop :=
| ks_alloc k o p k' :
    kalloc k = (p, k') → p ≠ 0 → kstep kend (mkKC k o) (mkKC k' (p :: o))
| ks_fail k o k' :
    kalloc k = (0, k') → kstep kend (mkKC k o) (mkKC k' o)
| ks_free k o1 p o2 k' :
    kfree kend p k = Ret k' → kstep kend (mkKC k (o1 ++ p :: o2)) (mkKC k' (o1 ++ o2))
| ks_write k o m' :
    mem_ok m' →
    (∀ a, (∀ p, p ∈ o → ¬ in_page p a) → m' a = km_mem k a) →
    kstep kend (mkKC k o) (mkKC (set_km_mem m' k) o).

(** The pages [all] the allocator started with are split between the free
    list and the clients. *)
Definition kclient_inv (kend : Z) (all : list Z) (s : kclient) : Prop :=
  ∃ l, kmem_rep kend (kc_k s) l ∧ l ++ kc_owned s ≡ₚ all ∧ NoDup all ∧
       Forall (page_ok kend) all.

Lemma kclient_inv_step kend all s s' :
  kstep kend s s' → kclient_inv kend all s → kclient_inv kend all s'.
Proof.
  intros Hst (l & Hk & Hp & Hnd & Hok).
  destruct Hst as [k o p k' Ha Hnz|k o k' Ha|k o1 p o2 k' Hf|k o m' Hm' Hw]; simpl in *.
  - pose proof (kalloc_rep kend k l Hk) as Hr. destruct l as [|q l]; [congruence|].
    destruct Hr as (k1 & Hr & _ & Hk1 & _). rewrite Ha in Hr. simplify_eq.
    exists l. split_and!; [done| |done|done]. simpl. by rewrite <- Hp, <- Permutation_middle.
  - pose proof (kalloc_rep kend k l Hk) as Hr. destruct l as [|q l].
    + rewrite Ha in Hr. simplify_eq. by exists [].
    + destruct Hr as (k1 & Hr & (_ & _ & _ & ?) & _). rewrite Ha in Hr. simplify_eq.
      unfold KERNBASE in *. lia.
  - assert (p :: l ++ o1 ++ o2 ≡ₚ all) as Hp'
      by (rewrite <- Hp; solve_Permutation).
    destruct (kfree_rep kend k l p Hk) as (k1 & Hr & Hk1 & _).
    + rewrite Forall_forall in Hok. apply Hok. rewrite <- Hp'. apply list_elem_of_here.
    + rewrite <- Hp' in Hnd. apply NoDup_cons in Hnd as [Hnd _]. set_solver.
    + rewrite Hf in Hr. simplify_eq. by exists (p :: l).
  - exists l. split_and!; [|done..]. destruct Hk as (Hm & Hc & Hl).
    split_and!; [done| |done]. eapply free_chain_frame; [|done].
    intros p a Hpl Ha. apply Hw. intros q Hq Hqa.
    rewrite <- Hp in Hnd, Hok. apply list.NoDup_app in Hnd as (_ & Hdj & _).
    rewrite Forall_app, !Forall_forall in Hok. destruct Hok as [Hok1 Hok2].
    assert (p = q) as -> by (eapply (page_ok_disjoint kend); eauto).
    by eapply Hdj.
Qed.

Lemma kclient_inv_reachable kend all s s' :
  rtc (kstep kend) s s' → kclient_inv kend all s → kclient_inv kend all s'.
Proof. induction 1; eauto using kclient_inv_step. Qed.

(** ** Properties *)

(** Claim C30 (kalloc.c): no page is handed out twice.  Start from any well-formed
    free list [all] and let clients allocate, free pages they hold and
    overwrite the pages they hold, in any order.  Then the free list stays
    well formed, the held pages and the free pages together are exactly
    [all], a page returned by [kalloc] is page-aligned memory that no client
    holds, and [kfree] of a held page succeeds. *)
Theorem kalloc_exclusive kend k0 all s :
  kmem_rep kend k0 all →
  rtc (kstep kend) (mkKC k0 []) s →
  (∃ l, kmem_rep kend (kc_k s) l ∧ l ++ kc_owned s ≡ₚ all) ∧
  (∀ p k', kalloc (kc_k s) = (p, k') → p ≠ 0 → page_ok kend p ∧ p ∉ kc_owned s) ∧
  (∀ p, p ∈ kc_owned s → returns (kfree kend p (kc_k s))).
Proof.
  intros Hk0 Hs.
  assert (kclient_inv kend all s) as (l & Hk & Hp & Hnd & Hok).
  { eapply kclient_inv_reachable; [done|]. exists all. simpl. rewrite app_nil_r.
    destruct Hk0 as (? & ? & ?). split_and!; try done. apply Forall_forall.
    eauto using free_chain_pages. }
  rewrite <- Hp in Hnd, Hok. apply list.NoDup_app in Hnd as (_ & Hdj & _).
  rewrite Forall_app, !Forall_forall in Hok. destruct Hok as [Hok1 Hok2].
  split_and!.
  - eauto.
  - intros p k' Ha Hnz. pose proof (kalloc_rep kend _ l Hk) as Hr.
    destruct l as [|q l]; [congruence|].
    destruct Hr as (k1 & Hr & Hq & _). rewrite Ha in Hr. simplify_eq.
    split; [done|]. apply Hdj, list_elem_of_here.
  - intros p Hpo. destruct (kfree_rep kend (kc_k s) l p) as (k1 & Hr & _); eauto.
    + intros ?. by eapply Hdj.
    + by exists k1.
Qed.

(** A free list of one page at KERNBASE + 0x1000, allocated and written. *)
Lemma kalloc_exclusive_witness :
  let k0 := mkKmem 0 0x80001000 (λ _, 0) in
  let s := mkKC (set_km_mem (store8 (λ _, 0) 0x80001004 7) (mkKmem 0 0 (λ _, 0)))
                [0x80001000] in
  ∃ l, kmem_rep KERNBASE (kc_k s) l ∧ l ++ kc_owned s ≡ₚ [0x80001000].
Proof.
  intros k0 s. refine (proj1 (kalloc_exclusive KERNBASE k0 [0x80001000] s _ _)).
  - split_and!; simpl.
    + intros a. unfold byte_ok. lia.
    + split_and!; [done| |done]. vm_compute. intuition congruence.
    + apply NoDup_singleton.
  - eapply rtc_l; [by apply (ks_alloc KERNBASE k0 [] 0x80001000)|].
    apply rtc_once, ks_write; simpl.
    + apply store8_ok. intros a. unfold byte_ok. lia.
    + intros a Ha. apply store8_other. intros ->.
      apply (Ha 0x80001000); [apply list_elem_of_here|]. unfold in_page, PGSIZE. lia.
Defined.

(** [freerange] frees every whole page of the range once.  For a
    range in the kernel's mapping of physical memory and enough fuel to visit
    its pages, it returns (no panic) and the new free list is the pages of the
    range, highest address first, in front of the old list. *)
Theorem freerange_frees_range kend fuel vstart vend k l :
  kmem_rep kend k l →
  KERNBASE ≤ kend ≤ vstart → vstart ≤ vend ≤ KERNBASE + PHYSTOP →
  (∀ q, q ∈ l → q < PGROUNDUP vstart) →
  (Z.to_nat ((vend - PGROUNDUP vstart) / PGSIZE) < fuel)%nat →
  ∃ k', freerange kend fuel vstart vend k = Ret k' ∧
    kmem_rep kend k'
      (pages_from (PGROUNDUP vstart)
         (Z.to_nat ((vend - PGROUNDUP vstart) / PGSIZE)) ++ l).
Proof.
  intros Hk Hke Hv Hl Hf. unfold KERNBASE, PHYSTOP in *.
  pose proof (PGROUNDUP_spec vstart ltac:(unfold PGSIZE; lia)) as [H1 H2].
  unfold freerange. apply freerange_loop_rep; unfold KERNBASE, PHYSTOP; try done; lia.
Qed.

Lemma freerange_frees_range_witness :
  ∃ k', freerange 0x80000000 5 0x80000001 0x80004000 (mkKmem 0 0 (λ _, 0)) = Ret k' ∧
    kmem_rep 0x80000000 k' [0x80003000; 0x80002000; 0x80001000].
Proof.
  apply (freerange_frees_range 0x80000000 5 0x80000001 0x80004000 (mkKmem 0 0 (λ _, 0)) []).
  - split_and!; simpl; [intros a; unfold byte_ok; lia|done|apply NoDup_nil_2].
  - unfold KERNBASE. lia.
  - unfold KERNBASE, PHYSTOP. lia.
  - by intros q ?%not_elem_of_nil.
  - vm_compute. lia.
Defined.

(** A page freed twice is handed out twice: nothing in [kfree] detects it. *)
Example double_free_undetected :
  (let* k1 := kfree KERNBASE 0x80001000 (mkKmem 0 0 (λ _, 0)) in
   let* k2 := kfree KERNBASE 0x80001000 k1 in
   let '(p, k3) := kalloc k2 in
   let '(q, k4) := kalloc k3 in Ret (p, q)) = Ret (0x80001000, 0x80001000).
Proof. vm_compute. reflexivity. Qed.
