(* ===== verification/Vm.v ===== *)
(** * Page tables (vm.c)

    A page directory and its page tables live in kernel memory as arrays of
    1024 little-endian words; [walkpgdir] returns the address of a page table
    entry, or 0.  [kend] is the end of the kernel image (see Kalloc.v) and
    [data] the start of its data segment, both set by kernel.ld. *)
From S2P Require Import Prelude Machine CString Kalloc.

Open Scope Z_scope.

Section Vm.
Context (kend data : Z).

(** [&pgdir[PDX(va)]] *)
Definition pde_at (pgdir va : Z) : Z := pgdir + 4 * PDX va.

Definition walkpgdir (pgdir va : Z) (alloc : bool) (k : kmem) : Z * kmem :=
  let pde := load32 (km_mem k) (pde_at pgdir va) in
  if truth (Z.land pde PTE_P) then
    (p2v (PTE_ADDR pde) + 4 * PTX va, k)
  else if negb alloc then (0, k)
  else
    let '(pgtab, k) := kalloc k in
    if pgtab =? 0 then (0, k)
    else
      let m := memset (km_mem k) pgtab 0 PGSIZE in
      let m := store32 m (pde_at pgdir va)
                 (Z.lor (Z.lor (Z.lor (v2p pgtab) PTE_P) PTE_W) PTE_U) in
      (pgtab + 4 * PTX va, set_km_mem m k).

(** The loop of [mappages]; it runs until [a == last], which is reached after
    [u32 (last - a) / PGSIZE + 1] iterations, even across the top of memory. *)
Fixpoint mappages_loop (fuel : nat) (pgdir a last pa perm : Z) (k : kmem)
    : outcome (Z * kmem) :=
  match fuel with
  | O => Diverge
  | S f =>
      let '(pte, k) := walkpgdir pgdir a true k in
      if pte =? 0 then Ret (-1, k)
      else if truth (Z.land (load32 (km_mem k) pte) PTE_P) then Panic "remap"
      else
        let k := set_km_mem (store32 (km_mem k) pte (Z.lor (Z.lor pa perm) PTE_P)) k in
        if a =? last then Ret (0, k)
        else mappages_loop f pgdir (u32 (a + PGSIZE)) last (u32 (pa + PGSIZE)) perm k
  end.
Definition mappages (pgdir va size pa perm : Z) (k : kmem) : outcome (Z * kmem) :=
  let a := PGROUNDDOWN va in
  let last := PGROUNDDOWN (u32 (va + size - 1)) in
  mappages_loop (S (Z.to_nat (u32 (last - a) / PGSIZE))) pgdir a last pa perm k.

(** [struct kmap] and the table [kmap[]]. *)
Record kmap := mkKmap { km_virt : Z; km_phys_start : Z; km_phys_end : Z; km_perm : Z }.
Definition kmaps : list kmap :=
  [ mkKmap KERNBASE 0 EXTMEM PTE_W;
    mkKmap KERNLINK (v2p KERNLINK) (v2p data) 0;
    mkKmap data (v2p data) PHYSTOP PTE_W;
    mkKmap DEVSPACE DEVSPACE 0 PTE_W ].

Fixpoint setupkvm_loop (ks : list kmap) (pgdir : Z) (k : kmem) : outcome (Z * kmem) :=
  match ks with
  | [] => Ret (pgdir, k)
  | e :: ks' =>
      let* (r, k) := mappages pgdir (km_virt e) (u32 (km_phys_end e - km_phys_start e))
                       (km_phys_start e) (km_perm e) k in
      if r <? 0 then Ret (0, k) else setupkvm_loop ks' pgdir k
  end.
Definition setupkvm (k : kmem) : outcome (Z * kmem) :=
  let '(pgdir, k) := kalloc k in
  if pgdir =? 0 then Ret (0, k)
  else
    let k := set_km_mem (memset (km_mem k) pgdir 0 PGSIZE) k in
    if DEVSPACE <? p2v PHYSTOP then Panic "PHYSTOP too high"
    else setupkvm_loop kmaps pgdir k.

(** [init] is the list of bytes of the initcode. *)
Definition inituvm (pgdir : Z) (init : list Z) (sz : Z) (k : kmem) : outcome kmem :=
  if PGSIZE <=? sz then Panic "inituvm: more than a page"
  else
    let '(mm, k) := kalloc k in
    if mm =? 0 then Undef "inituvm: memset of a null page" else
    let k := set_km_mem (memset (km_mem k) mm 0 PGSIZE) k in
    let* (_, k) := mappages pgdir 0 PGSIZE (v2p mm) (Z.lor PTE_W PTE_U) k in
    Ret (set_km_mem
           (λ b, if within mm (Z.to_nat sz) b
                 then default 0 (init !! Z.to_nat (b - mm)) else km_mem k b) k).

Fixpoint deallocuvm_loop (fuel : nat) (pgdir a oldsz : Z) (k : kmem) : outcome kmem :=
  match fuel with
  | O => Diverge
  | S f =>
      if a <? oldsz then
        let '(pte, k) := walkpgdir pgdir a false k in
        if pte =? 0 then
          deallocuvm_loop f pgdir (u32 (u32 (a + (NPTENTRIES - 1) * PGSIZE) + PGSIZE)) oldsz k
        else
          let v := load32 (km_mem k) pte in
          if truth (Z.land v PTE_P) then
            let pa := PTE_ADDR v in
            if pa =? 0 then Panic "kfree"
            else
              let* k := kfree kend (p2v pa) k in
              let k := set_km_mem (store32 (km_mem k) pte 0) k in
              deallocuvm_loop f pgdir (u32 (a + PGSIZE)) oldsz k
          else deallocuvm_loop f pgdir (u32 (a + PGSIZE)) oldsz k
      else Ret k
  end.
Definition deallocuvm (pgdir oldsz newsz : Z) (k : kmem) : outcome (Z * kmem) :=
  if oldsz <=? newsz then Ret (oldsz, k)
  else
    let a := PGROUNDUP newsz in
    let* k := deallocuvm_loop (S (S (Z.to_nat ((oldsz - a) / PGSIZE)))) pgdir a oldsz k in
    Ret (newsz, k).

(** The result of [mappages] is not checked by [allocuvm]. *)
Fixpoint allocuvm_loop (fuel : nat) (pgdir a oldsz newsz : Z) (k : kmem)
    : outcome (Z * kmem) :=
  match fuel with
  | O => Diverge
  | S f =>
      if a <? newsz then
        let '(mm, k) := kalloc k in
        if mm =? 0 then
          let* (_, k) := deallocuvm pgdir newsz oldsz k in
          Ret (0, k)
        else
          let k := set_km_mem (memset (km_mem k) mm 0 PGSIZE) k in
          let* (_, k) := mappages pgdir a PGSIZE (v2p mm) (Z.lor PTE_W PTE_U) k in
          allocuvm_loop f pgdir (u32 (a + PGSIZE)) oldsz newsz k
      else Ret (newsz, k)
  end.
Definition allocuvm (pgdir oldsz newsz : Z) (k : kmem) : outcome (Z * kmem) :=
  if KERNBASE <=? newsz then Ret (0, k)
  else if newsz <? oldsz then Ret (oldsz, k)
  else
    let a := PGROUNDUP oldsz in
    allocuvm_loop (S (S (Z.to_nat ((newsz - a) / PGSIZE)))) pgdir a oldsz newsz k.

Fixpoint freevm_loop (n : nat) (i pgdir : Z) (k : kmem) : outcome kmem :=
  match n with
  | O => Ret k
  | S n' =>
      let pde := load32 (km_mem k) (pgdir + 4 * i) in
      let* k := (if truth (Z.land pde PTE_P)
                 then kfree kend (p2v (PTE_ADDR pde)) k else Ret k) in
      freevm_loop n' (i + 1) pgdir k
  end.
Definition freevm (pgdir : Z) (k : kmem) : outcome kmem :=
  if pgdir =? 0 then Panic "freevm: no pgdir"
  else
    let* (_, k) := deallocuvm pgdir KERNBASE 0 k in
    let* k := freevm_loop (Z.to_nat NPDENTRIES) 0 pgdir k in
    kfree kend pgdir k.

Definition clearpteu (pgdir uva : Z) (k : kmem) : outcome kmem :=
  let '(pte, k) := walkpgdir pgdir uva false k in
  if pte =? 0 then Panic "clearpteu"
  else Ret (set_km_mem
              (store32 (km_mem k) pte (Z.land (load32 (km_mem k) pte) (u32 (Z.lnot PTE_U)))) k).

Fixpoint copyuvm_loop (fuel : nat) (pgdir d i sz : Z) (k : kmem) : outcome (Z * kmem) :=
  match fuel with
  | O => Diverge
  | S f =>
      if i <? sz then
        let '(pte, k) := walkpgdir pgdir i false k in
        if pte =? 0 then Panic "copyuvm: pte should exist"
        else
          let v := load32 (km_mem k) pte in
          if negb (truth (Z.land v PTE_P)) then Panic "copyuvm: page not present"
          else
            let '(mm, k) := kalloc k in
            if mm =? 0 then let* k := freevm d k in Ret (0, k)
            else
              let k := set_km_mem
                         (memmove (km_mem k) mm (p2v (PTE_ADDR v)) (Z.to_nat PGSIZE)) k in
              let* (r, k) := mappages d i PGSIZE (v2p mm) (PTE_FLAGS v) k in
              if r <? 0 then let* k := freevm d k in Ret (0, k)
              else copyuvm_loop f pgdir d (u32 (i + PGSIZE)) sz k
      else Ret (d, k)
  end.
Definition copyuvm (pgdir sz : Z) (k : kmem) : outcome (Z * kmem) :=
  let* (d, k) := setupkvm k in
  if d =? 0 then Ret (0, k)
  else copyuvm_loop (S (S (Z.to_nat (sz / PGSIZE)))) pgdir d 0 sz k.

(** [walkpgdir] may return 0 here, and the code dereferences it. *)
Definition uva2ka (pgdir uva : Z) (k : kmem) : outcome Z :=
  let '(pte, k) := walkpgdir pgdir uva false k in
  if pte =? 0 then Undef "uva2ka: null pte"
  else
    let v := load32 (km_mem k) pte in
    if negb (truth (Z.land v PTE_P)) then Ret 0
    else if negb (truth (Z.land v PTE_U)) then Ret 0
    else Ret (p2v (PTE_ADDR v)).

(** [copyout] of the bytes [buf] (its length is [len]) to user address [va]. *)
Fixpoint copyout_loop (fuel : nat) (pgdir va : Z) (buf : list Z) (k : kmem)
    : outcome (Z * kmem) :=
  match fuel with
  | O => Diverge
  | S f =>
      if 0 <? Z.of_nat (length buf) then
        let va0 := PGROUNDDOWN va in
        let* pa0 := uva2ka pgdir va0 k in
        if pa0 =? 0 then Ret (-1, k)
        else
          let n := Z.min (u32 (PGSIZE - (va - va0))) (Z.of_nat (length buf)) in
          let dst := pa0 + (va - va0) in
          let m := λ b, if within dst (Z.to_nat n) b
                        then default 0 (buf !! Z.to_nat (b - dst)) else km_mem k b in
          copyout_loop f pgdir (u32 (va0 + PGSIZE)) (drop (Z.to_nat n) buf) (set_km_mem m k)
      else Ret (0, k)
  end.
Definition copyout (pgdir va : Z) (buf : list Z) (k : kmem) : outcome (Z * kmem) :=
  copyout_loop (S (S (length buf))) pgdir va buf k.
End Vm.
