(* ===== verification/VmThm.v ===== *)
(** * Address spaces (theorems on vm.c)

    An address space is a page directory whose present entries point to page
    tables; [space] says so for a map [T] from directory indices to tables,
    and [pte] is the entry that the paging hardware finds for an address.
    Every page of a space (directory, tables, user pages) is a page of the
    allocator that is not on its free list, and no page is used twice. *)
From stdpp Require Import gmap.
From S2P Require Import Prelude Machine CString Kalloc Vm.

Open Scope Z_scope.

(** ** Entries *)
Definition aligned (p : Z) : Prop := p mod PGSIZE = 0.
Definition present (e : Z) : bool := truth (Z.land e PTE_P).

Lemma lor_low x perm : x mod PGSIZE = 0 → 0 ≤ perm < PGSIZE → Z.lor x perm = x + perm.
Proof.
  intros Hx Hp. pose proof (Z.div_mod x PGSIZE ltac:(done)) as E. rewrite Hx, Z.add_0_r in E.
  rewrite E. replace (PGSIZE * (x / PGSIZE)) with (Z.shiftl (x / PGSIZE) 12)
    by (rewrite Z.shiftl_mul_pow2 by lia; unfold PGSIZE; lia).
  rewrite lor_shiftl_add by (unfold PGSIZE in *; lia). rewrite Z.shiftl_mul_pow2 by lia. unfold PGSIZE. lia.
Qed.
Lemma lor_1_range perm : 0 ≤ perm < PGSIZE → 0 ≤ Z.lor perm PTE_P < PGSIZE.
Proof.
  unfold PGSIZE, PTE_P. intros H. split; [apply Z.lor_nonneg; lia|].
  destruct (decide (perm = 0)) as [->|]; [done|].
  apply (Z.log2_lt_pow2 _ 12).
  - assert (0 ≤ Z.lor perm 1) by (apply Z.lor_nonneg; lia).
    assert (Z.lor perm 1 ≠ 0) by (rewrite Z.lor_eq_0_iff; lia). lia.
  - rewrite Z.log2_lor by lia. apply Z.max_lub_lt; [|by vm_compute]. apply Z.log2_lt_pow2; lia.
Qed.
Lemma present_low x perm : x mod PGSIZE = 0 → 0 ≤ perm < PGSIZE → present (x + perm) = present perm.
Proof.
  intros Hx Hp. unfold present, PTE_P. f_equal. rewrite !(Z.land_ones _ 1) by lia. change (2 ^ 1) with 2.
  unfold PGSIZE in *. Z.div_mod_to_equations; lia.
Qed.
Lemma present_lor perm : present (Z.lor perm PTE_P) = true.
Proof.
  unfold present, PTE_P. apply truth_true. rewrite (Z.land_ones _ 1) by lia. change (2 ^ 1) with 2.
  rewrite <- Z.bit0_mod, Z.lor_spec. by rewrite orb_true_r.
Qed.
Lemma lor_present perm : present perm = true → Z.lor perm PTE_P = perm.
Proof.
  unfold present, PTE_P. rewrite truth_true, (Z.land_ones _ 1) by lia. change (2 ^ 1) with 2.
  rewrite <- Z.bit0_mod. intros H. apply Z.bits_inj'. intros i Hi. rewrite Z.lor_spec.
  destruct (decide (i = 0)) as [->|]; [by destruct (Z.testbit perm 0)|].
  assert (Z.testbit 1 i = false) as ->; [|by rewrite orb_false_r].
  rewrite (Z.bits_above_log2 1 i); [done|lia|]. simpl. lia.
Qed.

Section space.
Context (kend : Z) (Hkend : KERNBASE < kend).

(** ** Spaces *)
Record space (m : mem) (pgdir : Z) (T : gmap Z Z) : Prop := {
  sp_dir : page_ok kend pgdir;
  sp_tab : map_Forall (λ d pt, 0 ≤ d < NPDENTRIES ∧ page_ok kend pt) T;
  sp_entry : ∀ d, 0 ≤ d < NPDENTRIES →
    match T !! d with
    | Some pt => load32 m (pgdir + 4 * d) = v2p pt + 7
    | None => present (load32 m (pgdir + 4 * d)) = false
    end }.
(** The page table entry of [va], 0 where there is no page table. *)
Definition pte (m : mem) (T : gmap Z Z) (va : Z) : Z :=
  match T !! PDX va with Some pt => load32 m (pt + 4 * PTX va) | None => 0 end.
Definition vals (T : gmap Z Z) : list Z := (map_to_list T).*2.
(** The directory and the tables. *)
Definition tpages (pgdir : Z) (T : gmap Z Z) : list Z := pgdir :: vals T.

(** A space has at most as many tables as its directory has entries. *)
Lemma tables_bound m pgdir T : space m pgdir T → (length (vals T) ≤ 1024)%nat.
Proof.
  intros [_ Ht _]. unfold vals. rewrite length_fmap, <- (length_fmap fst). change 1024%nat with (length (seqZ 0 1024)).
  apply submseteq_length, NoDup_submseteq; [apply NoDup_fst_map_to_list|].
  intros d ([d' pt] & -> & Hd)%list_elem_of_fmap. apply elem_of_map_to_list, Ht in Hd as [Hd _].
  apply elem_of_seqZ. exact Hd.
Qed.
Lemma vals_insert (T : gmap Z Z) d pt : T !! d = None → vals (<[d:=pt]> T) ≡ₚ pt :: vals T.
Proof. intros H. unfold vals. by rewrite map_to_list_insert. Qed.
Lemma elem_of_vals (T : gmap Z Z) d pt : T !! d = Some pt → pt ∈ vals T.
Proof. intros H. apply list_elem_of_fmap. exists (d, pt). split; [done|]. by apply elem_of_map_to_list. Qed.
Lemma elem_of_vals_inv (T : gmap Z Z) pt : pt ∈ vals T → ∃ d, T !! d = Some pt.
Proof. intros ([d ?] & -> & H)%list_elem_of_fmap. exists d. by apply elem_of_map_to_list. Qed.
(** Distinct indices have distinct tables when no page is used twice. *)
Lemma vals_inj (T : gmap Z Z) d d' pt : NoDup (vals T) → T !! d = Some pt → T !! d' = Some pt → d = d'.
Proof.
  intros Hnd H1 H2. destruct (decide (d = d')) as [|Hne]; [done|]. exfalso.
  assert (delete d T !! d' = Some pt) as H2' by (by rewrite lookup_delete_ne).
  assert (vals T ≡ₚ pt :: vals (delete d T)) as Hp.
  { rewrite <- (insert_delete_id T d pt) at 1 by done. apply vals_insert, lookup_delete_eq. }
  rewrite Hp in Hnd. apply NoDup_cons in Hnd as [Hnd _]. apply Hnd. by eapply elem_of_vals.
Qed.

(** ** Addresses of entries *)
Lemma PDX_range va : 0 ≤ PDX va < NPDENTRIES.
Proof.
  rewrite PDX_div. pose proof (u32_range va). unfold NPDENTRIES. split; [apply Z.div_pos; lia|].
  apply Z.div_lt_upper_bound; lia.
Qed.
Lemma PTX_range va : 0 ≤ PTX va < NPTENTRIES.
Proof. rewrite PTX_div. unfold NPTENTRIES. apply Z.mod_pos_bound. lia. Qed.
Lemma same_page va va' : word_ok va → word_ok va' →
  PDX va = PDX va' → PTX va = PTX va' → va / PGSIZE = va' / PGSIZE.
Proof.
  unfold word_ok. intros H H'. rewrite !PDX_div, !PTX_div, !u32_small by lia. unfold PGSIZE.
  intros E1 E2. Z.div_mod_to_equations; lia.
Qed.
Lemma page_indices va va' : word_ok va → word_ok va' → va / PGSIZE = va' / PGSIZE → PDX va = PDX va' ∧ PTX va = PTX va'.
Proof.
  unfold word_ok. intros H H'. rewrite !PDX_div, !PTX_div, !u32_small by lia. unfold PGSIZE.
  intros E. split; Z.div_mod_to_equations; lia.
Qed.
Lemma pte_page m T va va' : word_ok va → word_ok va' → va / PGSIZE = va' / PGSIZE → pte m T va = pte m T va'.
Proof. intros H H' E. unfold pte. destruct (page_indices va va' H H' E) as [-> ->]. done. Qed.
Lemma v2p_page p : page_ok kend p → v2p p = p - KERNBASE ∧ 0 < v2p p < PHYSTOP ∧ v2p p mod PGSIZE = 0.
Proof using Hkend.
  intros (Hm & He & Hp & Hr). assert (v2p p = p - KERNBASE) as E.
  { unfold v2p. apply u32_small. unfold KERNBASE in *. lia. }
  rewrite E in *. split_and!; [done|lia|lia|]. unfold KERNBASE, PGSIZE in *. Z.div_mod_to_equations; lia.
Qed.
Lemma p2v_v2p p : page_ok kend p → p2v (v2p p) = p.
Proof using Hkend.
  intros H. destruct (v2p_page p H) as (-> & _). destruct H as (_ & _ & _ & Hr). unfold p2v.
  rewrite Z.sub_add. apply u32_small. unfold KERNBASE in *. lia.
Qed.
Lemma PTE_ADDR_entry p f : page_ok kend p → 0 ≤ f < PGSIZE → PTE_ADDR (v2p p + f) = v2p p.
Proof using Hkend.
  intros Hp Hf. destruct (v2p_page p Hp) as (_ & Hr & Hm). rewrite PTE_ADDR_div, u32_small by (unfold PHYSTOP, PGSIZE in *; lia).
  unfold PGSIZE in *. Z.div_mod_to_equations; lia.
Qed.
Lemma PTE_FLAGS_entry p f : page_ok kend p → 0 ≤ f < PGSIZE → PTE_FLAGS (v2p p + f) = f.
Proof using Hkend.
  intros Hp Hf. destruct (v2p_page p Hp) as (_ & Hr & Hm). rewrite PTE_FLAGS_mod, u32_small by (unfold PHYSTOP, PGSIZE in *; lia).
  unfold PGSIZE in *. Z.div_mod_to_equations; lia.
Qed.
(** Words of different pages do not overlap. *)
Lemma entry_in_page p d : 0 ≤ d < 1024 → ∀ b, p + 4 * d ≤ b < p + 4 * d + 4 → in_page p b.
Proof. intros Hd b Hb. unfold in_page, PGSIZE. lia. Qed.
Lemma pages_apart p q a b : page_ok kend p → page_ok kend q → p ≠ q → in_page p a → in_page q b → a ≠ b.
Proof. intros Hp Hq Hne Ha Hb ->. apply Hne. by eapply page_ok_disjoint. Qed.

(** ** Frames *)
Lemma space_frame m m' pgdir T : (∀ x, in_page pgdir x → m' x = m x) → space m pgdir T → space m' pgdir T.
Proof.
  intros Hf [H1 H2 H3]. split; [done..|]. intros d Hd. specialize (H3 d Hd).
  assert (load32 m' (pgdir + 4 * d) = load32 m (pgdir + 4 * d)) as ->; [|done].
  apply load32_ext. intros b Hb. apply Hf. by eapply entry_in_page.
Qed.
Lemma pte_frame m m' T va : (∀ pt x, pt ∈ vals T → in_page pt x → m' x = m x) → pte m' T va = pte m T va.
Proof.
  intros Hf. unfold pte. destruct (T !! PDX va) as [pt|] eqn:E; [|done]. apply load32_ext. intros b Hb.
  apply (Hf pt); [by eapply elem_of_vals|]. eapply entry_in_page; [apply PTX_range|done].
Qed.

(** Only pages of [S] changed. *)
Definition keeps (S : list Z) (m m' : mem) : Prop :=
  ∀ q x, page_ok kend q → q ∉ S → in_page q x → m' x = m x.
Lemma pages_refl S m : keeps S m m.
Proof. by intros q x. Qed.
Lemma pages_trans S m1 m2 m3 : keeps S m1 m2 → keeps S m2 m3 → keeps S m1 m3.
Proof. intros H1 H2 q x Hq Hn Hx. rewrite (H2 q x), (H1 q x) by done. done. Qed.
Lemma pages_mono S S' m m' : S ⊆ S' → keeps S m m' → keeps S' m m'.
Proof. intros HS H q x Hq Hn Hx. apply (H q x); [done| |done]. intros Hi. by apply Hn, HS. Qed.
#[export] Instance keeps_proper : Proper ((≡ₚ) ==> eq ==> eq ==> iff) keeps.
Proof. intros S S' HS m ? <- m' ? <-. split; apply pages_mono; intros q; by rewrite HS. Qed.
Lemma keeps_store m p d v : page_ok kend p → 0 ≤ d < 1024 → keeps [p] m (store32 m (p + 4 * d) v).
Proof.
  intros Hp Hd q x Hq Hn Hx. apply store32_other.
  assert (p ≠ q) as Hne by set_solver. clear Hn.
  destruct (decide (p + 4 * d ≤ x < p + 4 * d + 4)) as [Hb|]; [|lia]. exfalso.
  pose proof (entry_in_page p d Hd x Hb) as Hpx. apply Hne. by eapply page_ok_disjoint.
Qed.
Lemma keeps_memset m p c : page_ok kend p → keeps [p] m (memset m p c PGSIZE).
Proof.
  intros Hp q x Hq Hn Hx. assert (p ≠ q) as Hne by set_solver. rewrite memset_at by done. case_within; [|done].
  exfalso. apply Hne. eapply (page_ok_disjoint kend p q x); [done..| |done].
  unfold in_page. rewrite Z2Nat.id in E by done. done.
Qed.
Lemma rep_keeps k l S m' : kmem_rep kend k l → mem_ok m' → keeps S (km_mem k) m' → (∀ p, p ∈ l → p ∉ S) →
  kmem_rep kend (set_km_mem m' k) l.
Proof.
  intros (Hm & Hc & Hnd) Hm' Hk HS. split_and!; [done| |done]. simpl. eapply free_chain_frame; [|done].
  intros p x Hp Hx. apply (Hk p x); [by eapply free_chain_pages|by apply HS|done].
Qed.
Lemma space_keeps S m m' pgdir T : keeps S m m' → pgdir ∉ S → space m pgdir T → space m' pgdir T.
Proof. intros Hk Hn Hs. eapply space_frame; [|done]. intros x Hx. by apply (Hk pgdir x); [apply Hs|..]. Qed.
Lemma pte_keeps S m m' pgdir T va : keeps S m m' → space m pgdir T → (∀ pt, pt ∈ vals T → pt ∉ S) →
  pte m' T va = pte m T va.
Proof.
  intros Hk Hs Hn. apply pte_frame. intros pt x Hpt Hx. apply (Hk pt x); [|by apply Hn|done].
  apply elem_of_vals_inv in Hpt as [d Hd]. by apply (sp_tab _ _ _ Hs) in Hd as [_ ?].
Qed.

(** ** [walkpgdir] *)
Lemma walk_hit k pgdir T va pt alloc : space (km_mem k) pgdir T → T !! PDX va = Some pt →
  walkpgdir pgdir va alloc k = (pt + 4 * PTX va, k).
Proof using Hkend.
  intros Hs HT. pose proof (sp_entry _ _ _ Hs (PDX va) (PDX_range va)) as He. rewrite HT in He.
  destruct (sp_tab _ _ _ Hs _ _ HT) as [_ Hp]. unfold walkpgdir, pde_at. rewrite He.
  change (truth (Z.land (v2p pt + 7) PTE_P)) with (present (v2p pt + 7)).
  rewrite present_low by (done || by apply v2p_page). change (present 7) with true. cbv iota.
  by rewrite PTE_ADDR_entry, p2v_v2p by done.
Qed.
Lemma walk_miss k pgdir T va : space (km_mem k) pgdir T → T !! PDX va = None → walkpgdir pgdir va false k = (0, k).
Proof.
  intros Hs HT. pose proof (sp_entry _ _ _ Hs (PDX va) (PDX_range va)) as He. rewrite HT in He.
  unfold walkpgdir, pde_at. unfold present in He. by rewrite He.
Qed.
Lemma load32_memset0 m p d : 0 ≤ d < 1024 → load32 (memset m p 0 PGSIZE) (p + 4 * d) = 0.
Proof.
  intros Hd. unfold load32. rewrite !memset_at by done.
  rewrite !(proj2 (within_true _ _ _)) by (rewrite Z2Nat.id by done; unfold PGSIZE; lia). done.
Qed.
Lemma load32_0 m a : (∀ b, a ≤ b < a + 4 → m b = 0) → load32 m a = 0.
Proof. intros H. unfold load32. rewrite !H by lia. done. Qed.
Lemma new_pde p : page_ok kend p → u32 (Z.lor (Z.lor (Z.lor (v2p p) PTE_P) PTE_W) PTE_U) = v2p p + 7.
Proof using Hkend.
  intros Hp. destruct (v2p_page p Hp) as (_ & Hr & Hm). rewrite <- !Z.lor_assoc.
  change (Z.lor PTE_P (Z.lor PTE_W PTE_U)) with 7. rewrite lor_low by (done || unfold PGSIZE; lia).
  apply u32_small. unfold PHYSTOP in *. lia.
Qed.
(** Entering a fresh zeroed table into the directory. *)
Lemma space_new_table m pgdir T d p m' :
  space m pgdir T → page_ok kend p → p ∉ tpages pgdir T → 0 ≤ d < NPDENTRIES → T !! d = None →
  m' = store32 (memset m p 0 PGSIZE) (pgdir + 4 * d) (Z.lor (Z.lor (Z.lor (v2p p) PTE_P) PTE_W) PTE_U) →
  space m' pgdir (<[d:=p]> T) ∧ keeps [p; pgdir] m m' ∧ (∀ x, in_page p x → m' x = 0) ∧
  (NoDup (tpages pgdir T) → ∀ va, pte m' (<[d:=p]> T) va = pte m T va).
Proof using Hkend.
  intros Hs Hp Hn Hd HT ->. pose proof (sp_dir _ _ _ Hs) as Hdir. unfold tpages in Hn.
  apply not_elem_of_cons in Hn as [Hpd Hpt].
  set (m1 := memset m p 0 PGSIZE). set (m' := store32 m1 _ _).
  assert (keeps [p; pgdir] m m') as Hk.
  { apply (pages_trans _ m m1 m').
    - apply (pages_mono [p]); [set_solver|by apply keeps_memset].
    - apply (pages_mono [pgdir]); [set_solver|by apply keeps_store]. }
  assert (∀ x, in_page p x → m' x = 0) as H0.
  { intros x Hx. unfold m'. rewrite (keeps_store m1 pgdir d _ Hdir Hd p x Hp); [|set_solver|done].
    unfold m1. rewrite memset_at by done. unfold in_page in Hx.
    rewrite (proj2 (within_true _ _ _)) by (rewrite Z2Nat.id by done; done). done. }
  assert (∀ x, in_page pgdir x → m1 x = m x) as H1.
  { intros x Hx. apply (keeps_memset m p 0 Hp pgdir x); [done|set_solver|done]. }
  split_and!; [|done|done|].
  - split; [done|apply map_Forall_insert_2; [done|apply Hs]|]. intros e He.
    destruct (decide (e = d)) as [->|Hne].
    + rewrite lookup_insert_eq. unfold m'. rewrite load32_store32_eq. by apply new_pde.
    + rewrite lookup_insert_ne by done. pose proof (sp_entry _ _ _ Hs e He) as Hse.
      assert (load32 m' (pgdir + 4 * e) = load32 m (pgdir + 4 * e)) as ->; [|done].
      unfold m'. rewrite load32_store32_other by lia. apply load32_ext. intros b Hb. apply H1.
      by eapply entry_in_page.
  - intros Hnd va. unfold pte. destruct (decide (PDX va = d)) as [->|Hne].
    + rewrite lookup_insert_eq, HT. apply load32_0. intros b Hb. apply H0.
      eapply entry_in_page; [apply PTX_range|done].
    + rewrite lookup_insert_ne by done. destruct (T !! PDX va) as [pt|] eqn:E; [|done].
      apply load32_ext. intros b Hb. apply (Hk pt b).
      * by apply (sp_tab _ _ _ Hs) in E as [_ ?].
      * apply elem_of_vals in E. unfold tpages in Hnd. apply NoDup_cons in Hnd as [Hnd _]. set_solver.
      * eapply entry_in_page; [apply PTX_range|done].
Qed.

(** The allocator and a space, no page used twice. *)
Definition inv (k : kmem) (l : list Z) (pgdir : Z) (T : gmap Z Z) : Prop :=
  kmem_rep kend k l ∧ space (km_mem k) pgdir T ∧ NoDup (tpages pgdir T ++ l).

Lemma walk_alloc k l pgdir T va : inv k l pgdir T →
  ∃ a k' l' T', walkpgdir pgdir va true k = (a, k') ∧ inv k' l' pgdir T' ∧ T ⊆ T' ∧
    tpages pgdir T' ++ l' ≡ₚ tpages pgdir T ++ l ∧
    (∀ va', pte (km_mem k') T' va' = pte (km_mem k) T va') ∧
    keeps (tpages pgdir T ++ l) (km_mem k) (km_mem k') ∧
    (a = 0 ∧ l = [] ∧ l' = [] ∨
     (length l ≤ S (length l'))%nat ∧ ∃ pt, T' !! PDX va = Some pt ∧ a = pt + 4 * PTX va ∧ a ≠ 0).
Proof using Hkend.
  intros Hi. pose proof Hi as (Hk & Hs & Hnd). destruct (T !! PDX va) as [pt|] eqn:ET.
  { exists (pt + 4 * PTX va), k, l, T. split_and!; [by eapply walk_hit|done..|by intros|].
    right. split; [lia|]. exists pt. split_and!; [done..|]. destruct (sp_tab _ _ _ Hs _ _ ET) as [_ (_ & _ & _ & Hr)].
    pose proof (PTX_range va). unfold KERNBASE in *. lia. }
  pose proof (sp_entry _ _ _ Hs (PDX va) (PDX_range va)) as He. rewrite ET in He.
  pose proof (kalloc_rep kend k l Hk) as Ha. unfold walkpgdir, pde_at. unfold present in He. rewrite He. cbn [negb].
  destruct l as [|p l].
  { rewrite Ha, Z.eqb_refl. exists 0, k, [], T. split_and!; [done..|by intros|by left]. }
  destruct Ha as (k1 & -> & Hp & Hk1 & Em & _). assert ((p =? 0) = false) as ->.
  { apply Z.eqb_neq. destruct Hp as (_ & _ & _ & ?). unfold KERNBASE in *. lia. }
  apply list.NoDup_app in Hnd as (Hnd1 & Hnd2 & Hnd3). apply NoDup_cons in Hnd3 as [Hpl Hnd3].
  assert (p ∉ tpages pgdir T) as Hpn. { intros Hi2. apply (Hnd2 p Hi2), list_elem_of_here. }
  assert (∀ q, q ∈ l → q ∉ tpages pgdir T) as Hln. { intros q Hq Hq2. apply (Hnd2 q Hq2). by apply list_elem_of_further. }
  rewrite Em. edestruct (space_new_table (km_mem k) pgdir T (PDX va) p) as (Hs' & Hkp & _ & Hpte);
    [done|done|done|apply PDX_range|done|reflexivity|]. set (m' := store32 _ _ _) in *.
  assert (tpages pgdir (<[PDX va:=p]> T) ≡ₚ p :: tpages pgdir T) as Hperm.
  { unfold tpages. rewrite vals_insert by done. apply Permutation_swap. }
  eexists _, (set_km_mem m' k1), l, _. split_and!; [reflexivity| | | | | |].
  - split_and!; [| exact Hs'|].
    + eapply (rep_keeps k1 l [p; pgdir]); [done| |by rewrite Em|].
      * apply store32_ok, memset_ok; [done|apply Hk].
      * intros q Hq. specialize (Hln q Hq). apply not_elem_of_cons in Hln as [Hqd _].
        rewrite !not_elem_of_cons. split_and!; [by intros ->|done|apply not_elem_of_nil].
    + rewrite Hperm. cbn [app]. apply NoDup_cons. split; [by rewrite elem_of_app; intros [?|?]|].
      apply list.NoDup_app. split_and!; [done| |done]. intros q Hq Hql. by eapply Hln.
  - by apply insert_subseteq.
  - rewrite Hperm. cbn [app]. apply Permutation_middle.
  - exact (Hpte Hnd1).
  - eapply pages_mono; [|exact Hkp]. intros q. rewrite !elem_of_cons, elem_of_app, elem_of_nil. unfold tpages.
    rewrite !elem_of_cons. tauto.
  - right. split; [done|]. exists p. split_and!; [apply lookup_insert_eq|done|].
    destruct Hp as (_ & _ & _ & Hr). pose proof (PTX_range va). unfold KERNBASE in *. lia.
Qed.

Lemma store_pte k l pgdir T va pt v : inv k l pgdir T → word_ok va → T !! PDX va = Some pt →
  let k' := set_km_mem (store32 (km_mem k) (pt + 4 * PTX va) v) k in
  inv k' l pgdir T ∧ keeps (tpages pgdir T) (km_mem k) (km_mem k') ∧
  (∀ va', word_ok va' → pte (km_mem k') T va' = if (va' / PGSIZE =? va / PGSIZE) then u32 v else pte (km_mem k) T va').
Proof using Hkend.
  intros (Hk & Hs & Hnd) Hva HT k'. destruct (sp_tab _ _ _ Hs _ _ HT) as [_ Hpt].
  assert (keeps [pt] (km_mem k) (km_mem k')) as Hkp by (apply keeps_store; [done|apply PTX_range]).
  pose proof Hnd as Hnd'. apply list.NoDup_app in Hnd' as (Hnd1 & Hnd2 & _). pose proof (elem_of_vals _ _ _ HT) as Hpv.
  split_and!.
  - split_and!; [|eapply space_keeps; [exact Hkp| |done]|done].
    + eapply rep_keeps; [done|apply store32_ok, Hk|exact Hkp|]. intros p Hp ->%list_elem_of_singleton.
      apply (Hnd2 pt); [|done]. by apply list_elem_of_further.
    + unfold tpages in Hnd1. apply NoDup_cons in Hnd1 as [Hd _]. intros ->%list_elem_of_singleton. done.
  - eapply pages_mono; [|exact Hkp]. intros q ->%list_elem_of_singleton. by apply list_elem_of_further.
  - intros va' Hva'. destruct (Z.eqb_spec (va' / PGSIZE) (va / PGSIZE)) as [E|Hne].
    + rewrite (pte_page _ _ va' va) by done. unfold pte. rewrite HT. apply load32_store32_eq.
    + unfold pte. destruct (T !! PDX va') as [pt'|] eqn:E'; [|done].
      destruct (decide (pt' = pt)) as [->|Hpne].
      * assert (PDX va' = PDX va) as Ed.
        { eapply vals_inj; [|done..]. unfold tpages in Hnd1. by apply NoDup_cons in Hnd1 as [_ ?]. }
        apply load32_store32_other. assert (PTX va' ≠ PTX va); [|lia]. intros Et. apply Hne. by apply same_page.
      * apply load32_ext. intros b Hb. destruct (sp_tab _ _ _ Hs _ _ E') as [_ Hpt'].
        apply (Hkp pt' b); [done|by rewrite list_elem_of_singleton|]. eapply entry_in_page; [apply PTX_range|done].
Qed.

(** ** [mappages] *)
(** The entry of [va] after [n] pages from [a] were mapped to [pa]; [old] before. *)
Definition mapped (a : Z) (n : nat) (pa perm old va : Z) : Z :=
  if (a <=? va) && (va <? a + Z.of_nat n * PGSIZE) then pa + (va - a) / PGSIZE * PGSIZE + Z.lor perm PTE_P else old.
(** What a run of [mappages] does to the space, [j] pages being mapped. *)
Definition maps (k : kmem) (l : list Z) (pgdir : Z) (T : gmap Z Z) (a : Z) (j : nat) (pa perm : Z)
    (k' : kmem) (l' : list Z) (T' : gmap Z Z) : Prop :=
  inv k' l' pgdir T' ∧ T ⊆ T' ∧ tpages pgdir T' ++ l' ≡ₚ tpages pgdir T ++ l ∧
  keeps (tpages pgdir T ++ l) (km_mem k) (km_mem k') ∧ (length l ≤ length l' + j)%nat ∧
  (∀ va, word_ok va → pte (km_mem k') T' va = mapped a j pa perm (pte (km_mem k) T va) va).

Lemma mapped_0 a pa perm old va : mapped a 0 pa perm old va = old.
Proof. unfold mapped. destruct (Z.leb_spec a va), (Z.ltb_spec va (a + Z.of_nat 0 * PGSIZE)); simpl in *; done || lia. Qed.
Lemma mapped_S a j pa perm old va : aligned a → aligned pa → 0 ≤ a → 0 ≤ va →
  mapped (a + PGSIZE) j (pa + PGSIZE) perm (if (va / PGSIZE =? a / PGSIZE) then pa + Z.lor perm PTE_P else old) va =
  mapped a (S j) pa perm old va.
Proof.
  unfold aligned, mapped, PGSIZE. intros Ha Hp H0 H1.
  destruct (Z.eqb_spec (va / 4096) (a / 4096)) as [E|E].
  - rewrite (proj2 (Z.leb_gt _ _)) by (Z.div_mod_to_equations; lia). simpl.
    rewrite (proj2 (Z.leb_le _ _)), (proj2 (Z.ltb_lt _ _)) by (Z.div_mod_to_equations; lia). simpl.
    assert ((va - a) / 4096 = 0) as -> by (Z.div_mod_to_equations; lia). lia.
  - destruct (Z.leb_spec (a + 4096) va) as [Hl|Hl].
    + rewrite (proj2 (Z.leb_le a va)) by lia. cbn [andb].
      replace (a + 4096 + Z.of_nat j * 4096) with (a + Z.of_nat (S j) * 4096) by lia.
      destruct (va <? _); [|done].
      assert ((va - (a + 4096)) / 4096 = (va - a) / 4096 - 1) as ->; [|lia].
      replace (va - (a + 4096)) with (va - a + (-1) * 4096) by lia. rewrite Z.div_add by lia. lia.
    + cbn [andb]. rewrite (proj2 (Z.leb_gt a va)); [done|]. Z.div_mod_to_equations; lia.
Qed.
Lemma new_pte pa perm : aligned pa → 0 ≤ pa ≤ 2 ^ 32 - PGSIZE → 0 ≤ perm < PGSIZE →
  u32 (Z.lor (Z.lor pa perm) PTE_P) = pa + Z.lor perm PTE_P.
Proof.
  intros Ha Hp Hr. pose proof (lor_1_range perm Hr). rewrite <- Z.lor_assoc, lor_low by done.
  apply u32_small. unfold PGSIZE in *. lia.
Qed.

Lemma mappages_loop_spec pgdir perm n : 0 ≤ perm < PGSIZE → ∀ k l T a pa,
  inv k l pgdir T → aligned a → 0 ≤ a → a + Z.of_nat (S n) * PGSIZE ≤ 2 ^ 32 →
  aligned pa → 0 ≤ pa → pa + Z.of_nat (S n) * PGSIZE ≤ 2 ^ 32 →
  (∀ va, a ≤ va < a + Z.of_nat (S n) * PGSIZE → present (pte (km_mem k) T va) = false) →
  ∃ r k' l' T' j, mappages_loop (S n) pgdir a (a + Z.of_nat n * PGSIZE) pa perm k = Ret (r, k') ∧
    maps k l pgdir T a j pa perm k' l' T' ∧ (r = 0 ∧ j = S n ∨ r = -1 ∧ (j ≤ n)%nat ∧ l' = []).
Proof using Hkend.
  intros Hperm. induction n as [|n IH]; intros k l T a pa Hi Ha Ha0 Hau Hp Hp0 Hpu Hno.
  all: assert (word_ok a) as Hwa by (unfold word_ok, PGSIZE in *; lia).
  all: destruct (walk_alloc k l pgdir T a Hi) as (x & k1 & l1 & T1 & Hw & Hi1 & HT & Hperm1 & Hpte & Hk & Hx).
  all: cbn [mappages_loop]; rewrite Hw.
  all: destruct Hx as [(-> & -> & ->)|(Hlen & pt & HT1 & -> & Hnz)];
    [exists (-1), k1, [], T1, 0%nat; split; [done|]; split; [|right; split_and!; [done|lia|done]];
     split_and!; [done..|simpl; lia|]; intros va _; by rewrite mapped_0, Hpte|].
  all: rewrite (proj2 (Z.eqb_neq _ _)) by done.
  all: assert (load32 (km_mem k1) (pt + 4 * PTX a) = pte (km_mem k1) T1 a) as -> by (unfold pte; by rewrite HT1).
  all: rewrite Hpte; change (truth (Z.land ?e PTE_P)) with (present e); rewrite Hno by (unfold PGSIZE in *; lia).
  all: destruct (store_pte k1 l1 pgdir T1 a pt (Z.lor (Z.lor pa perm) PTE_P) Hi1 Hwa HT1) as (Hi2 & Hk2 & Hpte2).
  all: set (k2 := set_km_mem _ k1) in *.
  all: assert (∀ va, word_ok va → pte (km_mem k2) T1 va =
    (if (va / PGSIZE =? a / PGSIZE) then pa + Z.lor perm PTE_P else pte (km_mem k) T va)) as Hpte3
    by (intros va Hva; rewrite Hpte2, Hpte, new_pte by (done || unfold PGSIZE in *; lia); done).
  all: assert (keeps (tpages pgdir T ++ l) (km_mem k) (km_mem k2)) as Hk3
    by (eapply pages_trans; [exact Hk|eapply pages_mono; [|exact Hk2]];
        intros q Hq; rewrite <- Hperm1; apply elem_of_app; by left).
  - rewrite (proj2 (Z.eqb_eq _ _)) by lia. exists 0, k2, l1, T1, 1%nat. split; [done|]. split; [|by left].
    split_and!; [done..|lia|]. intros va Hva. rewrite Hpte3, <- mapped_S by (done || apply Hva). by rewrite mapped_0.
  - rewrite (proj2 (Z.eqb_neq _ _)) by (unfold PGSIZE; lia).
    rewrite !u32_small by (unfold PGSIZE in *; lia).
    replace (a + Z.of_nat (S n) * PGSIZE) with (a + PGSIZE + Z.of_nat n * PGSIZE) by lia.
    edestruct (IH k2 l1 T1 (a + PGSIZE) (pa + PGSIZE)) as (r & k' & l' & T' & j & E & Hm & Hr); [done|..].
    1-6: unfold aligned, PGSIZE in *; (Z.div_mod_to_equations; lia) || lia.
    { intros va Hva. unfold PGSIZE in Hva. rewrite Hpte3 by (unfold word_ok, PGSIZE in *; lia).
      rewrite (proj2 (Z.eqb_neq _ _)); [apply Hno; unfold PGSIZE; lia|].
      unfold aligned, PGSIZE in *. Z.div_mod_to_equations; lia. }
    exists r, k', l', T', (S j). split; [exact E|]. split; [|destruct Hr as [[-> ->]|(-> & ? & ->)]; [by left|right; split_and!; [done|lia|done]]].
    destruct Hm as (Hi' & HT' & Hperm' & Hk' & Hlen' & Hpte'). split_and!; [done| | | |lia|].
    + by etrans.
    + by etrans.
    + eapply pages_trans; [exact Hk3|]. eapply pages_mono; [|exact Hk']. intros q. by rewrite Hperm1.
    + intros va Hva. rewrite Hpte', Hpte3 by done. apply mapped_S; [done..|apply Hva].
Qed.
Lemma mappages_spec pgdir perm n k l T va size pa : 0 ≤ perm < PGSIZE →
  inv k l pgdir T → aligned va → 0 ≤ va → size = Z.of_nat (S n) * PGSIZE → va + size ≤ 2 ^ 32 →
  aligned pa → 0 ≤ pa → pa + size ≤ 2 ^ 32 →
  (∀ x, va ≤ x < va + size → present (pte (km_mem k) T x) = false) →
  ∃ r k' l' T' j, mappages pgdir va size pa perm k = Ret (r, k') ∧
    maps k l pgdir T va j pa perm k' l' T' ∧ (r = 0 ∧ j = S n ∨ r = -1 ∧ (j ≤ n)%nat ∧ l' = []).
Proof using Hkend.
  intros Hperm Hi Ha Ha0 -> Hau Hp Hp0 Hpu Hno. unfold mappages.
  assert (PGROUNDDOWN va = va) as ->.
  { rewrite PGROUNDDOWN_div, u32_small by (unfold PGSIZE in *; lia). unfold aligned, PGSIZE in *. Z.div_mod_to_equations; lia. }
  assert (PGROUNDDOWN (u32 (va + Z.of_nat (S n) * PGSIZE - 1)) = va + Z.of_nat n * PGSIZE) as ->.
  { rewrite PGROUNDDOWN_div, u32_u32, u32_small by (unfold PGSIZE in *; lia).
    unfold aligned, PGSIZE in *. Z.div_mod_to_equations; lia. }
  assert (Z.to_nat (u32 (va + Z.of_nat n * PGSIZE - va) / PGSIZE) = n) as ->.
  { rewrite u32_small by (unfold PGSIZE in *; lia). replace (va + Z.of_nat n * PGSIZE - va) with (Z.of_nat n * PGSIZE) by lia.
    rewrite Z.div_mul by done. lia. }
  by apply mappages_loop_spec.
Qed.

(** ** The kernel's part of a space *)
Definition kcount (e : kmap) : Z := u32 (km_phys_end e - km_phys_start e).
Definition kmap_entry (old va : Z) (e : kmap) : Z :=
  mapped (km_virt e) (Z.to_nat (kcount e / PGSIZE)) (km_phys_start e) (km_perm e) old va.
Lemma kmap_entry_out e old va : aligned (kcount e) → 0 ≤ kcount e → va < km_virt e ∨ km_virt e + kcount e ≤ va →
  kmap_entry old va e = old.
Proof.
  unfold aligned, kmap_entry, mapped. intros Hc H0 Hva. rewrite Z2Nat.id by (apply Z.div_pos; [done|done]).
  destruct (Z.leb_spec (km_virt e) va), (Z.ltb_spec va (km_virt e + kcount e / PGSIZE * PGSIZE)); simpl; [|done..].
  unfold PGSIZE in *. Z.div_mod_to_equations; lia.
Qed.
Lemma kmap_entry_in e old va : aligned (kcount e) → 0 ≤ kcount e → km_virt e ≤ va < km_virt e + kcount e →
  kmap_entry old va e = km_phys_start e + (va - km_virt e) / PGSIZE * PGSIZE + Z.lor (km_perm e) PTE_P.
Proof.
  unfold aligned, kmap_entry, mapped. intros Hc H0 Hva. rewrite Z2Nat.id by (apply Z.div_pos; [done|done]).
  rewrite (proj2 (Z.leb_le _ _)), (proj2 (Z.ltb_lt _ _)); [done| |lia].
  unfold PGSIZE in *. Z.div_mod_to_equations; lia.
Qed.
Fixpoint kmaps_ok (ks : list kmap) (f : Z → Z) : Prop :=
  match ks with
  | [] => True
  | e :: ks => aligned (km_virt e) ∧ 0 ≤ km_virt e ∧ aligned (kcount e) ∧ 0 < kcount e ∧ km_virt e + kcount e ≤ 2 ^ 32 ∧
      aligned (km_phys_start e) ∧ 0 ≤ km_phys_start e ∧ km_phys_start e + kcount e ≤ 2 ^ 32 ∧
      0 ≤ km_perm e < PGSIZE ∧ (∀ va, km_virt e ≤ va < km_virt e + kcount e → present (f va) = false) ∧
      kmaps_ok ks (λ va, kmap_entry (f va) va e)
  end.
Lemma setupkvm_loop_spec pgdir ks : pgdir ≠ 0 → ∀ k l T f, kmaps_ok ks f → inv k l pgdir T →
  (∀ va, word_ok va → pte (km_mem k) T va = f va) →
  ∃ r k', setupkvm_loop ks pgdir k = Ret (r, k') ∧ keeps (tpages pgdir T ++ l) (km_mem k) (km_mem k') ∧
    (r = 0 ∧ kmem_rep kend k' [] ∧ (length (tpages pgdir T ++ l) ≤ 1025)%nat ∨ r = pgdir ∧ ∃ l' T', inv k' l' pgdir T' ∧
      tpages pgdir T' ++ l' ≡ₚ tpages pgdir T ++ l ∧
      (∀ va, word_ok va → pte (km_mem k') T' va = foldl (λ old e, kmap_entry old va e) (f va) ks)).
Proof using Hkend.
  intros Hnz. induction ks as [|e ks IH]; intros k l T f Hok Hi Hf; cbn [setupkvm_loop].
  { exists pgdir, k. split; [done|]. split; [apply pages_refl|]. right. split; [done|]. exists l, T. done. }
  destruct Hok as (Ha & Ha0 & Hc & Hc0 & Hau & Hp & Hp0 & Hpu & Hperm & Hno & Hok).
  destruct (Z.to_nat (kcount e / PGSIZE)) as [|n] eqn:En.
  { unfold aligned, PGSIZE in *. Z.div_mod_to_equations; lia. }
  edestruct (mappages_spec pgdir (km_perm e) n k l T (km_virt e) (kcount e) (km_phys_start e))
    as (r & k1 & l1 & T1 & j & E & (Hi1 & _ & Hperm1 & Hk1 & _ & Hpte1) & Hr); [done..| |done|done|done|done| |].
  { unfold aligned, PGSIZE in *. Z.div_mod_to_equations; lia. }
  { intros x Hx. rewrite Hf by (unfold word_ok; lia). by apply Hno. }
  unfold kcount in E. rewrite E. destruct Hr as [[-> ->]|(-> & _ & ->)].
  - rewrite (proj2 (Z.ltb_ge 0 0)) by lia.
    destruct (IH k1 l1 T1 (λ va, kmap_entry (f va) va e) Hok Hi1) as (r & k' & E' & Hk' & Hr).
    { intros va Hva. rewrite Hpte1, Hf by done. unfold kmap_entry. by rewrite En. }
    exists r, k'. split; [done|]. split.
    { eapply pages_trans; [exact Hk1|]. eapply pages_mono; [|exact Hk']. intros q. by rewrite Hperm1. }
    destruct Hr as [(? & ? & ?)|(-> & l' & T' & ? & Hp' & ?)]; [left; by rewrite <- Hperm1|right]. split; [done|]. exists l', T'. split; [done|].
    split; [by rewrite Hp'|done].
  - exists 0, k1. split; [done|]. split; [done|]. left. split; [done|]. split; [apply Hi1|].
    rewrite <- Hperm1, app_nil_r. destruct Hi1 as (_ & Hs1 & _). pose proof (tables_bound _ _ _ Hs1). unfold tpages. simpl. lia.
Qed.

Section kernel_map.
Context (data : Z) (Hdata : aligned data ∧ KERNLINK < data < KERNBASE + PHYSTOP).
(** The entries [setupkvm] makes. *)
Definition kpte (va : Z) : Z := foldl (λ old e, kmap_entry old va e) 0 (kmaps data).
(** The four ranges of [kmaps]. *)
Definition e_io : kmap := mkKmap KERNBASE 0 EXTMEM PTE_W.
Definition e_text : kmap := mkKmap KERNLINK (v2p KERNLINK) (v2p data) 0.
Definition e_mem : kmap := mkKmap data (v2p data) PHYSTOP PTE_W.
Definition e_dev : kmap := mkKmap DEVSPACE DEVSPACE 0 PTE_W.
Lemma data_facts : v2p data = data - KERNBASE ∧ v2p KERNLINK = EXTMEM ∧
  kcount e_io = EXTMEM ∧ kcount e_text = data - KERNLINK ∧ kcount e_mem = KERNBASE + PHYSTOP - data ∧
  kcount e_dev = 0x2000000.
Proof using Hdata.
  destruct Hdata as [_ Hd]. unfold KERNLINK, KERNBASE, EXTMEM, PHYSTOP in Hd.
  assert (v2p data = data - KERNBASE) as E. { unfold v2p. apply u32_small. unfold KERNBASE. lia. }
  split_and!; [done|by vm_compute|by vm_compute| | |by vm_compute]; unfold kcount, e_text, e_mem; cbn [km_phys_end km_phys_start];
    rewrite E; [change (v2p KERNLINK) with EXTMEM|]; rewrite u32_small; unfold KERNLINK, KERNBASE, EXTMEM, PHYSTOP; lia.
Qed.
(** Sizes, alignment and order of the ranges. *)
Lemma range_facts e : e ∈ [e_io; e_text; e_mem; e_dev] →
  aligned (km_virt e) ∧ aligned (kcount e) ∧ aligned (km_phys_start e) ∧ 0 < kcount e ∧
  0 ≤ km_phys_start e ∧ km_phys_start e + kcount e ≤ 2 ^ 32 ∧ km_virt e + kcount e ≤ 2 ^ 32 ∧
  KERNBASE ≤ km_virt e ∧ (km_perm e = 0 ∨ km_perm e = PTE_W).
Proof using Hdata.
  destruct data_facts as (E1 & E2 & E3 & E4 & E5 & E6). destruct Hdata as [Ha Hd].
  unfold aligned, KERNLINK, KERNBASE, EXTMEM, PHYSTOP, PGSIZE in *.
  rewrite !elem_of_cons, elem_of_nil. intros [->|[->|[->|[->|[]]]]];
    cbn [e_io e_text e_mem e_dev km_virt km_phys_start km_perm] in *; rewrite ?E1, ?E2, ?E3, ?E4, ?E5, ?E6;
    unfold KERNLINK, KERNBASE, EXTMEM, DEVSPACE; (split_and!; [..|tauto]); (Z.div_mod_to_equations; lia) || lia.
Qed.
Ltac in_ranges := rewrite !elem_of_cons; tauto.
Lemma range_ends : km_virt e_io + kcount e_io = km_virt e_text ∧ km_virt e_text + kcount e_text = km_virt e_mem ∧
  km_virt e_mem + kcount e_mem = KERNBASE + PHYSTOP ∧ KERNBASE + PHYSTOP ≤ km_virt e_dev ∧ km_virt e_dev + kcount e_dev = 2 ^ 32 ∧
  km_virt e_io = KERNBASE.
Proof using Hdata.
  destruct data_facts as (_ & _ & -> & -> & -> & ->). destruct Hdata as [_ Hd].
  cbn [e_io e_text e_mem e_dev km_virt]. unfold KERNLINK, KERNBASE, EXTMEM, PHYSTOP, DEVSPACE in *. lia.
Qed.
Lemma entry_out e old va : e ∈ [e_io; e_text; e_mem; e_dev] → va < km_virt e ∨ km_virt e + kcount e ≤ va → kmap_entry old va e = old.
Proof using Hdata. intros (_ & Hc & _ & H0 & _)%range_facts Hva. apply kmap_entry_out; [done|lia|done]. Qed.
Lemma entry_in e old va : e ∈ [e_io; e_text; e_mem; e_dev] → km_virt e ≤ va < km_virt e + kcount e →
  kmap_entry old va e = km_phys_start e + (va - km_virt e) / PGSIZE * PGSIZE + Z.lor (km_perm e) PTE_P.
Proof using Hdata. intros (_ & Hc & _ & H0 & _)%range_facts Hva. apply kmap_entry_in; [done|lia|done]. Qed.
Lemma kmaps_ok_data : kmaps_ok (kmaps data) (λ _, 0).
Proof using Hdata.
  destruct range_ends as (R1 & R2 & R3 & R4 & R5 & R6).
  assert (0 < kcount e_io ∧ 0 < kcount e_text ∧ 0 < kcount e_mem ∧ 0 < kcount e_dev) as (P1 & P2 & P3 & P4)
    by (split_and!; apply range_facts; in_ranges).
  change (kmaps data) with [e_io; e_text; e_mem; e_dev]. cbn [kmaps_ok].
  assert (∀ e, e ∈ [e_io; e_text; e_mem; e_dev] → 0 ≤ km_virt e ∧ 0 ≤ km_perm e < PGSIZE) as Hr.
  { intros e He. destruct (range_facts e He) as (_ & _ & _ & _ & _ & _ & _ & ? & [-> | ->]);
      unfold KERNBASE, PGSIZE, PTE_W in *; lia. }
  split_and!; try (apply range_facts; in_ranges); try (apply Hr; in_ranges); try done; intros va Hva;
    rewrite !entry_out by (in_ranges || lia); done.
Qed.
(** The kernel's mapping: nothing below KERNBASE, the physical memory above it,
    nowhere accessible to user code. *)
Lemma kpte_cases va : word_ok va → kpte va = 0 ∨ ∃ e, e ∈ [e_io; e_text; e_mem; e_dev] ∧
  km_virt e ≤ va < km_virt e + kcount e ∧
  kpte va = km_phys_start e + (va - km_virt e) / PGSIZE * PGSIZE + Z.lor (km_perm e) PTE_P.
Proof using Hdata.
  intros Hva. unfold word_ok in Hva. destruct range_ends as (R1 & R2 & R3 & R4 & R5 & R6).
  assert (0 < kcount e_io ∧ 0 < kcount e_text ∧ 0 < kcount e_mem ∧ 0 < kcount e_dev) as (P1 & P2 & P3 & P4)
    by (split_and!; apply range_facts; in_ranges).
  unfold kpte. change (kmaps data) with [e_io; e_text; e_mem; e_dev]. cbn [foldl].
  destruct (decide (km_virt e_dev ≤ va)).
  { right. exists e_dev. split; [in_ranges|]. split; [lia|]. by rewrite entry_in by (in_ranges || lia). }
  rewrite (entry_out e_dev) by (in_ranges || lia).
  destruct (decide (km_virt e_mem ≤ va < KERNBASE + PHYSTOP)).
  { right. exists e_mem. split; [in_ranges|]. split; [lia|]. by rewrite entry_in by (in_ranges || lia). }
  rewrite (entry_out e_mem) by (in_ranges || lia).
  destruct (decide (km_virt e_text ≤ va < km_virt e_mem)).
  { right. exists e_text. split; [in_ranges|]. split; [lia|]. by rewrite entry_in by (in_ranges || lia). }
  rewrite (entry_out e_text) by (in_ranges || lia).
  destruct (decide (km_virt e_io ≤ va < km_virt e_text)).
  { right. exists e_io. split; [in_ranges|]. split; [lia|]. by rewrite entry_in by (in_ranges || lia). }
  left. by rewrite (entry_out e_io) by (in_ranges || lia).
Qed.
(** The text of the kernel is mapped at its own address. *)
Lemma kpte_text va : aligned va → KERNLINK ≤ va < data → kpte va = va - KERNBASE + 1.
Proof using Hdata.
  intros Ha Hva. destruct range_ends as (R1 & R2 & R3 & R4 & R5 & R6). destruct data_facts as (D1 & D2 & _). destruct Hdata as [_ Hd].
  change (km_virt e_mem) with data in *. change (km_virt e_text) with KERNLINK in *.
  unfold kpte. change (kmaps data) with [e_io; e_text; e_mem; e_dev]. cbn [foldl].
  rewrite (entry_out e_dev) by (in_ranges || lia). rewrite (entry_out e_mem) by (in_ranges || (change (km_virt e_mem) with data; lia)).
  rewrite entry_in by (in_ranges || (change (km_virt e_text) with KERNLINK; lia)).
  change (km_phys_start e_text) with (v2p KERNLINK). change (km_virt e_text) with KERNLINK. change (km_perm e_text) with 0. rewrite D2.
  change (Z.lor 0 PTE_P) with 1. unfold aligned, KERNLINK, KERNBASE, EXTMEM, PGSIZE in *. Z.div_mod_to_equations; lia.
Qed.
(** So is what lies behind it, which may be written. *)
Lemma kpte_data va : aligned va → data ≤ va < KERNBASE + PHYSTOP → kpte va = va - KERNBASE + 3.
Proof using Hdata.
  intros Ha Hva. destruct range_ends as (R1 & R2 & R3 & R4 & R5 & R6). destruct data_facts as (D1 & _). destruct Hdata as [Had Hd].
  change (km_virt e_mem) with data in *.
  unfold kpte. change (kmaps data) with [e_io; e_text; e_mem; e_dev]. cbn [foldl].
  rewrite (entry_out e_dev) by (in_ranges || lia).
  rewrite entry_in by (in_ranges || (change (km_virt e_mem) with data; lia)).
  change (km_phys_start e_mem) with (v2p data). change (km_virt e_mem) with data. change (km_perm e_mem) with PTE_W. rewrite D1.
  change (Z.lor PTE_W PTE_P) with 3. unfold aligned, KERNBASE, PGSIZE in *. Z.div_mod_to_equations; lia.
Qed.
Lemma kpte_user va : word_ok va → va < KERNBASE → kpte va = 0.
Proof using Hdata.
  intros Hw Hva. destruct (kpte_cases va Hw) as [|(e & He & Hr & _)]; [done|].
  destruct (range_facts e He) as (_ & _ & _ & _ & _ & _ & _ & Hk & _). lia.
Qed.

(** No user access to the kernel's part. *)
Lemma kpte_no_user va : word_ok va → Z.land (kpte va) PTE_U = 0.
Proof using Hdata.
  intros Hw. destruct (kpte_cases va Hw) as [->|(e & He & Hr & ->)]; [done|].
  destruct (range_facts e He) as (_ & _ & Hp & _ & _ & _ & _ & _ & Hperm).
  change PTE_U with (Z.land 7 4). rewrite Z.land_assoc, (Z.land_ones _ 3) by lia.
  assert ((km_phys_start e + (va - km_virt e) / PGSIZE * PGSIZE + Z.lor (km_perm e) PTE_P) mod 2 ^ 3 = Z.lor (km_perm e) PTE_P) as ->.
  { destruct Hperm as [-> | ->]; [change (Z.lor 0 PTE_P) with 1|change (Z.lor PTE_W PTE_P) with 3];
      unfold aligned, PGSIZE in *; change (2 ^ 3) with 8; Z.div_mod_to_equations; lia. }
  by destruct Hperm as [-> | ->].
Qed.
Lemma page_nonzero p : page_ok kend p → p ≠ 0.
Proof. intros (_ & _ & _ & Hr). unfold KERNBASE in Hr. lia. Qed.
Lemma empty_space m d : page_ok kend d → space (memset m d 0 PGSIZE) d ∅.
Proof.
  intros Hd. split; [done|apply map_Forall_empty|]. intros e He. rewrite lookup_empty.
  by rewrite load32_memset0.
Qed.
Lemma setupkvm_spec k l : kmem_rep kend k l →
  ∃ d k', setupkvm data k = Ret (d, k') ∧ keeps l (km_mem k) (km_mem k') ∧
    (d = 0 ∧ kmem_rep kend k' [] ∧ (length l ≤ 1025)%nat ∨ d ≠ 0 ∧ ∃ l' T, inv k' l' d T ∧ tpages d T ++ l' ≡ₚ l ∧
      (∀ va, word_ok va → pte (km_mem k') T va = kpte va)).
Proof using Hkend Hdata.
  intros Hk. pose proof (kalloc_rep kend k l Hk) as Ha. unfold setupkvm. destruct l as [|d l].
  { rewrite Ha, Z.eqb_refl. exists 0, k. split; [done|]. split; [apply pages_refl|left; simpl; auto with lia]. }
  destruct Ha as (k1 & -> & Hd & Hk1 & Em & _). pose proof (page_nonzero d Hd) as Hnz.
  rewrite (proj2 (Z.eqb_neq _ _)) by done. rewrite Em. set (m1 := memset (km_mem k) d 0 PGSIZE).
  change (DEVSPACE <? p2v PHYSTOP) with false. cbv iota.
  assert (keeps [d] (km_mem k) m1) as Hkd by by apply keeps_memset.
  pose proof Hk as (_ & _ & Hnd). apply NoDup_cons in Hnd as [Hdl Hnd].
  assert (inv (set_km_mem m1 k1) l d ∅) as Hi.
  { split_and!; [|by apply empty_space|].
    - eapply rep_keeps; [done|apply memset_ok; [done|apply Hk]|by rewrite Em|].
      intros p Hp ->%list_elem_of_singleton. done.
    - unfold tpages, vals. rewrite map_to_list_empty. cbn. by apply NoDup_cons. }
  destruct (setupkvm_loop_spec d (kmaps data) Hnz _ l ∅ (λ _, 0) kmaps_ok_data Hi) as (r & k' & E & Hk' & Hr).
  { intros va _. unfold pte. by rewrite lookup_empty. }
  unfold tpages, vals in Hk', Hr. rewrite map_to_list_empty in Hk', Hr. cbn [fmap list_fmap app] in Hk', Hr.
  rewrite E. exists r, k'. split; [done|]. split.
  - eapply pages_trans; [|exact Hk']. eapply pages_mono; [|exact Hkd].
    intros q ->%list_elem_of_singleton. apply list_elem_of_here.
  - destruct Hr as [?|(-> & ?)]; [by left|by right].
Qed.
End kernel_map.

(** ** User pages

    [U] maps the number of a user page to the kernel address of its memory. *)
Definition users (m : mem) (T U : gmap Z Z) : Prop :=
  map_Forall (λ n p, page_ok kend p ∧ 0 ≤ n < KERNBASE / PGSIZE) U ∧
  ∀ va, aligned va → 0 ≤ va < KERNBASE →
    match U !! (va / PGSIZE) with
    | Some p => ∃ f, 0 ≤ f < PGSIZE ∧ pte m T va = v2p p + f ∧ present f = true
    | None => present (pte m T va) = false
    end.
(** The allocator and a space with its user pages, no page used twice. *)
Definition uinv (k : kmem) (l : list Z) (pgdir : Z) (T U : gmap Z Z) : Prop :=
  kmem_rep kend k l ∧ space (km_mem k) pgdir T ∧ NoDup (tpages pgdir T ++ vals U ++ l) ∧ users (km_mem k) T U.

Lemma uinv_inv k l pgdir T U : uinv k l pgdir T U → inv k l pgdir T.
Proof.
  intros (Hk & Hs & Hnd & _). split_and!; [done..|]. apply list.NoDup_app in Hnd as (H1 & H2 & H3).
  apply list.NoDup_app in H3 as (_ & _ & H3). apply list.NoDup_app. split_and!; [done| |done].
  intros x Hx Hl. apply (H2 x Hx). apply elem_of_app. by right.
Qed.
Lemma vals_delete (U : gmap Z Z) n p : U !! n = Some p → vals U ≡ₚ p :: vals (delete n U).
Proof. intros H. rewrite <- (insert_delete_id U n p) at 1 by done. apply vals_insert, lookup_delete_eq. Qed.
Lemma pte_entry m T va p f : page_ok kend p → 0 ≤ f < PGSIZE → pte m T va = v2p p + f → present f = true →
  present (pte m T va) = true ∧ PTE_ADDR (pte m T va) = v2p p ∧ PTE_FLAGS (pte m T va) = f.
Proof using Hkend.
  intros Hp Hf -> Hpr. split_and!; [|by apply PTE_ADDR_entry|by apply PTE_FLAGS_entry].
  rewrite present_low by (done || by apply v2p_page). done.
Qed.
Lemma vpn_word va : 0 ≤ va < KERNBASE → word_ok va.
Proof. unfold word_ok, KERNBASE. lia. Qed.
(** A mapped page has a table. *)
Lemma mapped_table m T U va p : users m T U → aligned va → 0 ≤ va < KERNBASE → U !! (va / PGSIZE) = Some p →
  ∃ pt, T !! PDX va = Some pt.
Proof using Hkend.
  intros [HU Hu] Ha Hva HUp. specialize (Hu va Ha Hva). rewrite HUp in Hu. destruct Hu as (f & Hf & E & Hp).
  destruct (HU _ _ HUp) as [Hpok _]. pose proof (v2p_page p Hpok) as (_ & ? & _).
  unfold pte in E. destruct (T !! PDX va) as [pt|]; [eauto|lia].
Qed.

(** Freeing a user page and clearing its entry. *)
Lemma unmap k l pgdir T U va p pt : uinv k l pgdir T U → aligned va → 0 ≤ va < KERNBASE →
  U !! (va / PGSIZE) = Some p → T !! PDX va = Some pt →
  ∃ k1, kfree kend p k = Ret k1 ∧
    let k2 := set_km_mem (store32 (km_mem k1) (pt + 4 * PTX va) 0) k1 in
    uinv k2 (p :: l) pgdir T (delete (va / PGSIZE) U) ∧
    keeps (tpages pgdir T ++ vals U ++ l) (km_mem k) (km_mem k2).
Proof using Hkend.
  intros Hui Ha Hva HU HT. pose proof Hui as (Hk & Hs & Hnd & HUok & Hus).
  pose proof (vals_delete U _ _ HU) as HpU. destruct (HUok _ _ HU) as [Hp _].
  pose proof Hnd as Hnd'. rewrite HpU in Hnd'. apply list.NoDup_app in Hnd' as (_ & Hn1 & Hn2).
  cbn [app] in Hn1, Hn2. apply NoDup_cons in Hn2 as [Hn2 _].
  assert (p ∉ tpages pgdir T) as Hpt. { intros Hi. apply (Hn1 p Hi), list_elem_of_here. }
  destruct (kfree_rep kend k l p Hk Hp) as (k1 & -> & Hk1 & _ & Hfr).
  { intros Hi. apply Hn2, elem_of_app. by right. }
  exists k1. split; [done|]. intros k2.
  assert (keeps [p] (km_mem k) (km_mem k1)) as Hkp.
  { intros q x Hq Hqn Hx. apply Hfr. intros Hpx. apply Hqn, list_elem_of_singleton. by eapply page_ok_disjoint. }
  assert (NoDup (tpages pgdir T ++ vals (delete (va / PGSIZE) U) ++ p :: l)) as Hnd2.
  { rewrite <- Permutation_middle, app_comm_cons, <- HpU. done. }
  assert (space (km_mem k1) pgdir T) as Hs1.
  { eapply space_keeps; [exact Hkp| |done]. intros ->%list_elem_of_singleton. apply Hpt, list_elem_of_here. }
  assert (∀ va, pte (km_mem k1) T va = pte (km_mem k) T va) as Hpte1.
  { intros x. eapply pte_keeps; [exact Hkp|done|]. intros t Ht ->%list_elem_of_singleton. by apply Hpt, list_elem_of_further. }
  assert (inv k1 (p :: l) pgdir T) as Hi1.
  { split_and!; [done..|]. apply list.NoDup_app in Hnd2 as (H1 & H2 & H3). apply list.NoDup_app in H3 as (_ & _ & H3).
    apply list.NoDup_app. split_and!; [done| |done]. intros x Hx Hl. apply (H2 x Hx), elem_of_app. by right. }
  destruct (store_pte k1 (p :: l) pgdir T va pt 0 Hi1 (vpn_word va Hva) HT) as ((Hk2 & Hs2 & _) & Hkp2 & Hpte2).
  fold k2 in Hk2, Hs2, Hkp2, Hpte2. split.
  - split_and!; [done..|]. split; [by apply map_Forall_delete|]. intros x Hx Hxr. rewrite Hpte2 by by apply vpn_word.
    destruct (Z.eqb_spec (x / PGSIZE) (va / PGSIZE)) as [->|Hne].
    + by rewrite lookup_delete_eq.
    + rewrite lookup_delete_ne, Hpte1 by done. by apply Hus.
  - eapply pages_trans.
    + eapply pages_mono; [|exact Hkp]. intros q ->%list_elem_of_singleton. rewrite !elem_of_app, HpU. right. left. apply list_elem_of_here.
    + eapply pages_mono; [|exact Hkp2]. intros q Hq. apply elem_of_app. by left.
Qed.

(** ** [deallocuvm] *)
Definition in_range (a oldsz n : Z) : bool := (a / PGSIZE <=? n) && (n * PGSIZE <? oldsz).
(** The pages of [U] from [a] to [oldsz] are free again. *)
Definition unmapped (a oldsz : Z) (U U' : gmap Z Z) : Prop :=
  ∀ n, U' !! n = if in_range a oldsz n then None else U !! n.
(** [a] is the start of a table's span or its table exists. *)
Definition at_table (T : gmap Z Z) (a : Z) : Prop := a mod 2 ^ 22 = 0 ∨ is_Some (T !! PDX a).

Lemma unmapped_none a oldsz U : oldsz ≤ a → aligned a → unmapped a oldsz U U.
Proof.
  intros Hle Ha n. unfold in_range. destruct (Z.leb_spec (a / PGSIZE) n), (Z.ltb_spec (n * PGSIZE) oldsz); simpl; try done.
  unfold aligned, PGSIZE in *. Z.div_mod_to_equations; lia.
Qed.
Lemma unmapped_step a b oldsz (U U1 U' : gmap Z Z) : a / PGSIZE ≤ b / PGSIZE →
  (∀ n, U1 !! n = if (a / PGSIZE <=? n) && (n <? b / PGSIZE) && (n * PGSIZE <? oldsz) then None else U !! n) →
  unmapped b oldsz U1 U' → unmapped a oldsz U U'.
Proof.
  intros Hab H1 H' n. rewrite H', H1. unfold in_range.
  destruct (Z.leb_spec (b / PGSIZE) n), (Z.leb_spec (a / PGSIZE) n), (Z.ltb_spec n (b / PGSIZE)), (Z.ltb_spec (n * PGSIZE) oldsz); simpl; try done; lia.
Qed.
Lemma at_table_next T a : aligned a → 0 ≤ a < KERNBASE → is_Some (T !! PDX a) → at_table T (a + PGSIZE).
Proof.
  intros Ha Hr HT. unfold at_table. destruct (decide ((a + PGSIZE) mod 2 ^ 22 = 0)) as [|Hne]; [by left|right].
  assert (PDX (a + PGSIZE) = PDX a) as ->; [|done]. unfold aligned, KERNBASE, PGSIZE in *.
  rewrite !PDX_div, !u32_small by lia. Z.div_mod_to_equations; lia.
Qed.
Lemma no_table_span a va : a mod 2 ^ 22 = 0 → 0 ≤ a → a ≤ va < a + 2 ^ 22 → va < 2 ^ 32 → PDX va = PDX a.
Proof. intros Ha H0 Hr Hv. rewrite !PDX_div, !u32_small by lia. Z.div_mod_to_equations; lia. Qed.

Lemma deallocuvm_loop_S fuel pgdir a oldsz k :
  deallocuvm_loop kend (S fuel) pgdir a oldsz k =
  if a <? oldsz then
    let '(pte, k) := walkpgdir pgdir a false k in
    if pte =? 0 then deallocuvm_loop kend fuel pgdir (u32 (u32 (a + (NPTENTRIES - 1) * PGSIZE) + PGSIZE)) oldsz k
    else if truth (Z.land (load32 (km_mem k) pte) PTE_P) then
      if PTE_ADDR (load32 (km_mem k) pte) =? 0 then Panic "kfree"
      else
        let* k1 := kfree kend (p2v (PTE_ADDR (load32 (km_mem k) pte))) k in
        deallocuvm_loop kend fuel pgdir (u32 (a + PGSIZE)) oldsz (set_km_mem (store32 (km_mem k1) pte 0) k1)
    else deallocuvm_loop kend fuel pgdir (u32 (a + PGSIZE)) oldsz k
  else Ret k.
Proof. reflexivity. Qed.
(** One page on, past an entry that is or has been cleared. *)
Lemma unmapped_page a oldsz (U U' : gmap Z Z) : aligned a → a < oldsz →
  unmapped (a + PGSIZE) oldsz (delete (a / PGSIZE) U) U' → unmapped a oldsz U U'.
Proof.
  intros Ha Hlt. assert ((a + PGSIZE) / PGSIZE = a / PGSIZE + 1) as E by (rewrite <- (Z.div_add _ 1) by done; f_equal; lia).
  apply unmapped_step; [lia|]. intros n. rewrite E. destruct (decide (n = a / PGSIZE)) as [->|Hne].
  - rewrite lookup_delete_eq, (proj2 (Z.leb_le _ _)), (proj2 (Z.ltb_lt (a / PGSIZE) _)) by lia. simpl.
    rewrite (proj2 (Z.ltb_lt _ _)); [done|]. unfold aligned, PGSIZE in *. Z.div_mod_to_equations; lia.
  - rewrite lookup_delete_ne by done.
    destruct (Z.leb_spec (a / PGSIZE) n), (Z.ltb_spec n (a / PGSIZE + 1)); simpl; (done || lia).
Qed.
(** A whole table on, where there is none. *)
Lemma unmapped_table m T a oldsz (U U' : gmap Z Z) : users m T U → a mod 2 ^ 22 = 0 → 0 ≤ a → oldsz ≤ KERNBASE →
  T !! PDX a = None → unmapped (a + 2 ^ 22) oldsz U U' → unmapped a oldsz U U'.
Proof using Hkend.
  intros Hus Ha Ha0 Hold HT. apply unmapped_step; [unfold PGSIZE; Z.div_mod_to_equations; lia|]. intros n.
  destruct (Z.leb_spec (a / PGSIZE) n), (Z.ltb_spec n ((a + 2 ^ 22) / PGSIZE)), (Z.ltb_spec (n * PGSIZE) oldsz); simpl; try done.
  destruct (U !! n) as [p|] eqn:EU; [|done]. exfalso.
  assert (aligned (n * PGSIZE)) as Hal by by apply Z.mod_mul.
  assert (a ≤ n * PGSIZE < a + 2 ^ 22) as Hr by (unfold PGSIZE in *; Z.div_mod_to_equations; lia).
  destruct (mapped_table m T U (n * PGSIZE) p Hus Hal) as [pt Hpt]; [lia|by rewrite Z.div_mul|].
  rewrite (no_table_span a) in Hpt by (done || unfold KERNBASE in *; lia). congruence.
Qed.

Lemma deallocuvm_loop_spec pgdir oldsz T fuel : oldsz ≤ KERNBASE → ∀ a k l U,
  uinv k l pgdir T U → aligned a → 0 ≤ a → oldsz - a ≤ Z.of_nat fuel * PGSIZE → (a < oldsz → at_table T a) →
  ∃ k' l' U', deallocuvm_loop kend (S fuel) pgdir a oldsz k = Ret k' ∧ uinv k' l' pgdir T U' ∧
    unmapped a oldsz U U' ∧ vals U' ++ l' ≡ₚ vals U ++ l ∧
    keeps (tpages pgdir T ++ vals U ++ l) (km_mem k) (km_mem k').
Proof using Hkend.
  intros Hold. induction fuel as [|fuel IH]; intros a k l U Hi Ha Ha0 Hf Hat; rewrite deallocuvm_loop_S;
    (destruct (Z.ltb_spec a oldsz) as [Hlt|Hge];
     [|exists k, l, U; split_and!; [done..|by apply unmapped_none|done|apply pages_refl]]); [lia|].
  assert (0 ≤ a < KERNBASE) as Har by lia. pose proof Hi as (Hk & Hs & Hnd & Hus).
  assert (u32 (a + PGSIZE) = a + PGSIZE) as Ew by (apply u32_small; unfold KERNBASE, PGSIZE in *; lia).
  assert (aligned (a + PGSIZE)) as Ha' by (unfold aligned, PGSIZE in *; Z.div_mod_to_equations; lia).
  destruct (T !! PDX a) as [pt|] eqn:ET.
  - rewrite (walk_hit k pgdir T a pt false) by done. destruct (sp_tab _ _ _ Hs _ _ ET) as [_ Hpt].
    rewrite (proj2 (Z.eqb_neq _ _)) by (pose proof (PTX_range a); destruct Hpt as (_ & _ & _ & ?); unfold KERNBASE in *; lia).
    assert (load32 (km_mem k) (pt + 4 * PTX a) = pte (km_mem k) T a) as -> by (unfold pte; by rewrite ET).
    change (truth (Z.land ?e PTE_P)) with (present e). pose proof (proj2 Hus a Ha Har) as Hu.
    rewrite Ew. destruct (U !! (a / PGSIZE)) as [p|] eqn:EU.
    + destruct Hu as (f & Hfr & E & Hpr). destruct (proj1 Hus _ _ EU) as [Hp _].
      destruct (pte_entry (km_mem k) T a p f) as (-> & -> & _); [done..|].
      rewrite (proj2 (Z.eqb_neq _ _)) by (pose proof (v2p_page p Hp); lia). rewrite p2v_v2p by done.
      destruct (unmap k l pgdir T U a p pt Hi Ha Har EU ET) as (k1 & -> & Hi2 & Hk2).
      destruct (IH (a + PGSIZE) _ (p :: l) _ Hi2 Ha') as (k' & l' & U' & E' & Hi' & Hun & Hpm & Hkp); [unfold PGSIZE in *; lia..| |].
      { intros _. apply at_table_next; eauto. }
      exists k', l', U'. split_and!; [done|done|by eapply unmapped_page| |].
      * rewrite Hpm, (vals_delete U _ _ EU). simpl. by rewrite Permutation_middle.
      * eapply pages_trans; [exact Hk2|]. eapply pages_mono; [|exact Hkp]. intros q.
        rewrite (vals_delete U _ _ EU), !elem_of_app, elem_of_cons, elem_of_cons. tauto.
    + rewrite Hu. destruct (IH (a + PGSIZE) k l U Hi Ha') as (k' & l' & U' & E' & Hi' & Hun & Hpm & Hkp); [unfold PGSIZE in *; lia..| |].
      { intros _. apply at_table_next; eauto. }
      exists k', l', U'. split_and!; [done|done| |done|done]. apply unmapped_page; [done..|]. by rewrite delete_id.
  - rewrite (walk_miss k pgdir T a), Z.eqb_refl by done. destruct (Hat Hlt) as [Hm|[pt HT]]; [|congruence].
    assert (u32 (u32 (a + (NPTENTRIES - 1) * PGSIZE) + PGSIZE) = a + 2 ^ 22) as ->.
    { rewrite u32_add_l. unfold NPTENTRIES, PGSIZE. rewrite u32_small by (unfold KERNBASE in *; lia). lia. }
    destruct (IH (a + 2 ^ 22) k l U Hi) as (k' & l' & U' & E' & Hi' & Hun & Hpm & Hkp).
    1-3: unfold aligned, PGSIZE in *; (Z.div_mod_to_equations; lia) || lia.
    { intros _. left. Z.div_mod_to_equations; lia. }
    exists k', l', U'. split_and!; [done|done|by eapply unmapped_table|done|done].
Qed.

(** ** [freevm] *)
Lemma kfree_keeps k l p : kmem_rep kend k l → page_ok kend p → p ∉ l →
  ∃ k', kfree kend p k = Ret k' ∧ kmem_rep kend k' (p :: l) ∧ keeps [p] (km_mem k) (km_mem k').
Proof.
  intros Hk Hp Hn. destruct (kfree_rep kend k l p Hk Hp Hn) as (k' & E & Hk' & _ & Hfr). exists k'. split_and!; [done..|].
  intros q x Hq Hqn Hx. apply Hfr. intros Hpx. apply Hqn, list_elem_of_singleton. by eapply page_ok_disjoint.
Qed.
Lemma deallocuvm_all k l pgdir T U : uinv k l pgdir T U →
  ∃ k' l', deallocuvm kend pgdir KERNBASE 0 k = Ret (0, k') ∧ uinv k' l' pgdir T ∅ ∧ l' ≡ₚ vals U ++ l ∧
    keeps (tpages pgdir T ++ vals U ++ l) (km_mem k) (km_mem k').
Proof using Hkend.
  intros Hi. unfold deallocuvm. change (KERNBASE <=? 0) with false. cbv iota. change (PGROUNDUP 0) with 0.
  rewrite Z.sub_0_r. destruct (deallocuvm_loop_spec pgdir KERNBASE T (S (Z.to_nat (KERNBASE / PGSIZE))) ltac:(done) 0 k l U Hi)
    as (k' & l' & U' & -> & Hi' & Hun & Hpm & Hk); [done|done| |by left|].
  { rewrite Nat2Z.inj_succ, Z2Nat.id by done. by vm_compute. }
  assert (U' = ∅) as ->.
  { apply map_eq. intros n. rewrite lookup_empty, Hun. destruct (in_range 0 KERNBASE n) eqn:E; [done|].
    destruct (U !! n) as [p|] eqn:EU; [|done]. destruct Hi as (_ & _ & _ & HU & _). apply HU in EU as [_ Hn].
    unfold in_range in E. rewrite (proj2 (Z.leb_le _ _)), (proj2 (Z.ltb_lt _ _)) in E; [done| |].
    - unfold KERNBASE, PGSIZE in *. Z.div_mod_to_equations; lia.
    - unfold PGSIZE in *. change (0 / 4096) with 0. lia. }
  exists k', l'. split_and!; [done..| |done]. unfold vals in Hpm at 1. by rewrite map_to_list_empty in Hpm.
Qed.
Lemma freevm_loop_spec pgdir T n : ∀ i k l (R : gmap Z Z), i + Z.of_nat n = NPDENTRIES → 0 ≤ i →
  kmem_rep kend k l → space (km_mem k) pgdir T → NoDup (pgdir :: vals R ++ l) →
  (∀ d, R !! d = if i <=? d then T !! d else None) →
  ∃ k' l', freevm_loop kend n i pgdir k = Ret k' ∧ kmem_rep kend k' l' ∧ l' ≡ₚ vals R ++ l ∧
    keeps (vals R ++ l) (km_mem k) (km_mem k').
Proof using Hkend.
  induction n as [|n IH]; intros i k l R Hn Hi Hk Hs Hnd HR; cbn [freevm_loop].
  { assert (R = ∅) as ->.
    { apply map_eq. intros d. rewrite lookup_empty, HR. destruct (Z.leb_spec i d); [|done].
      destruct (T !! d) as [pt|] eqn:E; [|done]. apply (sp_tab _ _ _ Hs) in E as [? _]. lia. }
    unfold vals. rewrite map_to_list_empty. exists k, l. split_and!; [done..|apply pages_refl]. }
  pose proof (sp_entry _ _ _ Hs i ltac:(lia)) as He. pose proof (HR i) as HRi. rewrite Z.leb_refl in HRi.
  apply NoDup_cons in Hnd as [Hdn Hnd]. destruct (T !! i) as [pt|] eqn:ET.
  - destruct (sp_tab _ _ _ Hs _ _ ET) as [_ Hpt]. rewrite He.
    change (truth (Z.land (v2p pt + 7) PTE_P)) with (present (v2p pt + 7)).
    rewrite present_low by (done || by apply v2p_page). change (present 7) with true. cbv iota.
    rewrite PTE_ADDR_entry, p2v_v2p by done. pose proof (vals_delete R i pt HRi) as HpR.
    rewrite HpR in Hnd, Hdn. cbn [app] in Hnd, Hdn. apply NoDup_cons in Hnd as [Hptn Hnd]. apply not_elem_of_cons in Hdn as [Hne Hdn].
    destruct (kfree_keeps k l pt Hk Hpt) as (k1 & -> & Hk1 & Hkp1).
    { intros Hl. apply Hptn, elem_of_app. by right. }
    destruct (IH (i + 1) k1 (pt :: l) (delete i R)) as (k' & l' & E & Hk' & Hl' & Hkp); [lia|lia|done| | | |].
    + eapply space_keeps; [exact Hkp1|by rewrite list_elem_of_singleton|done].
    + rewrite <- Permutation_middle. apply NoDup_cons. split; [by apply not_elem_of_cons|]. by apply NoDup_cons.
    + intros d. destruct (decide (d = i)) as [->|Hd].
      * by rewrite lookup_delete_eq, (proj2 (Z.leb_gt _ _)) by lia.
      * rewrite lookup_delete_ne, HR by done. destruct (Z.leb_spec i d), (Z.leb_spec (i + 1) d); done || lia.
    + exists k', l'. split_and!; [done..| |].
      * rewrite Hl', HpR. simpl. by rewrite Permutation_middle.
      * eapply pages_trans; (eapply pages_mono; [|eassumption]); intros q; rewrite !elem_of_app, HpR, !elem_of_cons; try tauto.
        rewrite elem_of_nil. tauto.
  - assert (truth (Z.land (load32 (km_mem k) (pgdir + 4 * i)) PTE_P) = false) as -> by exact He.
    apply (IH (i + 1)); [lia|lia|done|done|by apply NoDup_cons|]. intros d. rewrite HR.
    destruct (Z.leb_spec i d), (Z.leb_spec (i + 1) d); try done; [|lia]. replace d with i by lia. done.
Qed.
Lemma freevm_spec k l pgdir T U : uinv k l pgdir T U →
  ∃ k' l', freevm kend pgdir k = Ret k' ∧ kmem_rep kend k' l' ∧ l' ≡ₚ tpages pgdir T ++ vals U ++ l ∧
    keeps (tpages pgdir T ++ vals U ++ l) (km_mem k) (km_mem k').
Proof using Hkend.
  intros Hi. pose proof Hi as (_ & Hs & _ & _). pose proof (sp_dir _ _ _ Hs) as Hd. unfold freevm.
  rewrite (proj2 (Z.eqb_neq _ _)) by by apply page_nonzero.
  destruct (deallocuvm_all k l pgdir T U Hi) as (k1 & l1 & -> & (Hk1 & Hs1 & Hnd1 & _) & Hp1 & Hkp1).
  unfold vals in Hnd1 at 1. rewrite map_to_list_empty in Hnd1. cbn [fmap list_fmap app] in Hnd1.
  destruct (freevm_loop_spec pgdir T (Z.to_nat NPDENTRIES) 0 k1 l1 T) as (k2 & l2 & -> & Hk2 & Hp2 & Hkp2); [done|done|done|done|exact Hnd1| |].
  { intros d. destruct (Z.leb_spec 0 d); [done|]. destruct (T !! d) as [pt|] eqn:E; [|done].
    apply (sp_tab _ _ _ Hs) in E as [? _]. lia. }
  destruct (kfree_keeps k2 l2 pgdir Hk2 Hd) as (k3 & -> & Hk3 & Hkp3).
  { rewrite Hp2. by apply NoDup_cons in Hnd1 as [? _]. }
  exists k3, (pgdir :: l2). split_and!; [done..| |].
  - rewrite Hp2, Hp1. done.
  - eapply pages_trans; [exact Hkp1|]. eapply pages_trans; (eapply pages_mono; [|eassumption]); intros q.
    + rewrite Hp1. unfold tpages. simpl. rewrite elem_of_cons. tauto.
    + intros ->%list_elem_of_singleton. apply list_elem_of_here.
Qed.

(** ** Mapping a user page *)
Lemma page_next i : aligned i → (i + PGSIZE) / PGSIZE = i / PGSIZE + 1 ∧ aligned (i + PGSIZE) ∧ i / PGSIZE * PGSIZE = i.
Proof. unfold aligned, PGSIZE. intros. Z.div_mod_to_equations; lia. Qed.
(** The pages of a space, a fresh page and the free list do not overlap. *)
Lemma fresh_apart (A B l : list Z) q : NoDup (A ++ B ++ q :: l) →
  (q ∉ A ++ l) ∧ (q ∉ B) ∧ (∀ x, x ∈ B → x ∉ A ++ l) ∧ NoDup (A ++ l).
Proof.
  intros H. assert (B ++ q :: A ++ l ≡ₚ A ++ B ++ q :: l) as E by solve_Permutation. rewrite <- E in H. clear E.
  apply list.NoDup_app in H as (_ & H1 & H2). apply NoDup_cons in H2 as [H2 H3]. split_and!; [done| | |done].
  - intros Hq. apply (H1 q Hq), list_elem_of_here.
  - intros x Hx Hx'. apply (H1 x Hx). by apply list_elem_of_further.
Qed.
Lemma NoDup_perm (l l' : list Z) : l ≡ₚ l' → NoDup l → NoDup l'.
Proof. by intros ->. Qed.
Lemma mapped_page i pa f old va : aligned i → mapped i 1 pa f old va = if va / PGSIZE =? i / PGSIZE then pa + Z.lor f PTE_P else old.
Proof.
  unfold mapped, aligned, PGSIZE. intros Ha.
  destruct (Z.eqb_spec (va / 4096) (i / 4096)) as [E|E], (Z.leb_spec i va), (Z.ltb_spec va (i + Z.of_nat 1 * 4096)); simpl; try done;
    try (exfalso; Z.div_mod_to_equations; lia).
  assert ((va - i) / 4096 = 0) as -> by (Z.div_mod_to_equations; lia). lia.
Qed.
(** [mappages] of the fresh page [q] at the user address [i]; [k2] is the
    state after [q] has been taken from the free list and filled. *)
Lemma map_user k q l d T U i f k2 : uinv k (q :: l) d T U → kmem_rep kend k2 l → keeps [q] (km_mem k) (km_mem k2) →
  aligned i → 0 ≤ i < KERNBASE → U !! (i / PGSIZE) = None → 0 ≤ f < PGSIZE →
  ∃ r k3 l3 T3, mappages d i PGSIZE (v2p q) f k2 = Ret (r, k3) ∧
    keeps (q :: tpages d T ++ l) (km_mem k) (km_mem k3) ∧ (∀ x, in_page q x → km_mem k3 x = km_mem k2 x) ∧
    T ⊆ T3 ∧ tpages d T3 ++ l3 ≡ₚ tpages d T ++ l ∧
    (r = 0 ∧ uinv k3 l3 d T3 (<[i / PGSIZE := q]> U) ∧ (length l ≤ S (length l3))%nat ∧
       (∀ va, word_ok va → pte (km_mem k3) T3 va =
          if va / PGSIZE =? i / PGSIZE then v2p q + Z.lor f PTE_P else pte (km_mem k) T va) ∨
     r = -1 ∧ l3 = [] ∧ l = [] ∧ uinv k3 [] d T3 U ∧ (∀ va, word_ok va → pte (km_mem k3) T3 va = pte (km_mem k) T va)).
Proof using Hkend.
  intros (Hk & Hs & Hnd & HU & Hus) Hk2 Hkq Ha Hi HUi Hf. destruct (fresh_apart _ _ _ _ Hnd) as (Hqn & HqU & HUn & Hnd2).
  assert (page_ok kend q) as Hq by (destruct Hk as (_ & Hc & _); eapply free_chain_pages; [exact Hc|apply list_elem_of_here]).
  destruct (v2p_page q Hq) as (_ & Hvr & Hva). pose proof Hqn as Hqn'. rewrite elem_of_app in Hqn'.
  assert (inv k2 l d T) as Hi2.
  { split_and!; [done| |done]. eapply space_keeps; [exact Hkq| |done]. intros ->%list_elem_of_singleton.
    apply Hqn'. left. apply list_elem_of_here. }
  assert (∀ va, pte (km_mem k2) T va = pte (km_mem k) T va) as Hpte2.
  { intros va. eapply pte_keeps; [exact Hkq|done|]. intros t Ht ->%list_elem_of_singleton. apply Hqn'. left. by apply list_elem_of_further. }
  edestruct (mappages_spec d f 0 k2 l T i PGSIZE (v2p q)) as (r & k3 & l3 & T3 & j & E & (Hi3 & HT3 & Hperm & Hkp & Hlen & Hpte3) & Hr);
    [done|done|done|lia|lia|unfold KERNBASE, PGSIZE in *; lia|done|lia|unfold PHYSTOP, PGSIZE in *; lia| |].
  { intros x Hx. rewrite Hpte2, (pte_page _ _ x i) by (unfold word_ok, aligned, KERNBASE, PGSIZE in *; Z.div_mod_to_equations; lia).
    specialize (Hus i Ha Hi). by rewrite HUi in Hus. }
  assert (∀ va, word_ok va → pte (km_mem k3) T3 va = mapped i j (v2p q) f (pte (km_mem k) T va) va) as Hpte.
  { intros va Hw. by rewrite Hpte3, Hpte2. }
  exists r, k3, l3, T3. split; [done|]. destruct Hi3 as (Hk3 & Hs3 & _). split_and!; [| |done|done|].
  { eapply pages_trans; (eapply pages_mono; [|eassumption]); intros x Hx; [|by apply list_elem_of_further].
    apply list_elem_of_singleton in Hx as ->. apply list_elem_of_here. }
  { intros x Hx. by apply (Hkp q x). }
  assert (NoDup (q :: vals U ++ tpages d T3 ++ l3)) as Hnd3.
  { rewrite Hperm. eapply NoDup_perm; [|exact Hnd]. solve_Permutation. }
  destruct Hr as [[-> ->]|(-> & Hj & ->)]; [left|right].
  - assert (∀ va, word_ok va → pte (km_mem k3) T3 va =
      if va / PGSIZE =? i / PGSIZE then v2p q + Z.lor f PTE_P else pte (km_mem k) T va) as Hp
      by (intros va Hw; by rewrite Hpte, mapped_page).
    split_and!; [done| |lia|done]. split_and!; [done|done| |].
    + rewrite vals_insert by done. eapply NoDup_perm; [|exact Hnd3]. solve_Permutation.
    + split; [apply map_Forall_insert_2; [|done]; split; [done|]; unfold KERNBASE, PGSIZE in *; Z.div_mod_to_equations; lia|].
      intros va Hal Hrg. rewrite Hp by by apply vpn_word. destruct (Z.eqb_spec (va / PGSIZE) (i / PGSIZE)) as [->|Hne].
      * rewrite lookup_insert_eq. exists (Z.lor f PTE_P). split_and!; [apply lor_1_range, Hf..|done|apply present_lor].
      * rewrite lookup_insert_ne by done. by apply Hus.
  - assert (j = 0%nat) as -> by lia. assert (l = []) as -> by (destruct l; [done|simpl in Hlen; lia]).
    assert (∀ va, word_ok va → pte (km_mem k3) T3 va = pte (km_mem k) T va) as Hp by (intros va Hw; by rewrite Hpte, mapped_0).
    split_and!; [done..| |done]. split_and!; [done|done| |].
    + apply NoDup_cons in Hnd3 as [_ Hnd3]. eapply NoDup_perm; [|exact Hnd3]. solve_Permutation.
    + split; [done|]. intros va Hal Hrg. rewrite Hp by by apply vpn_word. by apply Hus.
Qed.

(** ** [allocuvm] *)
(** The pages of [U'] from [a] to [newsz] are zeroed pages of [l], writable by
    the user; all other pages are those of [U]. *)
Definition grown (a newsz : Z) (l : list Z) (m : mem) (T U : gmap Z Z) (m' : mem) (T' U' : gmap Z Z) : Prop :=
  (∀ n, in_range a newsz n = true → ∃ q, U' !! n = Some q ∧ q ∈ l ∧ (∀ x, in_page q x → m' x = 0) ∧
     pte m' T' (n * PGSIZE) = v2p q + Z.lor (Z.lor PTE_W PTE_U) PTE_P) ∧
  (∀ n, in_range a newsz n = false → U' !! n = U !! n) ∧
  (∀ va, word_ok va → in_range a newsz (va / PGSIZE) = false → pte m' T' va = pte m T va).
Lemma in_range_next a newsz n : aligned a → a < newsz →
  in_range a newsz n = (n =? a / PGSIZE) || in_range (a + PGSIZE) newsz n.
Proof.
  intros Ha Hlt. destruct (page_next a Ha) as (E & _ & Em). unfold in_range. rewrite E.
  destruct (Z.eqb_spec n (a / PGSIZE)) as [->|]; simpl.
  - by rewrite Z.leb_refl, Em, (proj2 (Z.ltb_lt _ _)).
  - f_equal. destruct (Z.leb_spec (a / PGSIZE) n), (Z.leb_spec (a / PGSIZE + 1) n); done || lia.
Qed.
Lemma memset_zero m q x : in_page q x → memset m q 0 PGSIZE x = 0.
Proof. intros Hx. rewrite memset_at by done. by rewrite (proj2 (within_true _ _ _)) by (rewrite Z2Nat.id by done; done). Qed.

Lemma tpages_mono pgdir (T T' : gmap Z Z) x : T ⊆ T' → x ∈ tpages pgdir T → x ∈ tpages pgdir T'.
Proof.
  intros HT. unfold tpages. rewrite !elem_of_cons. intros [->|(d & Hd)%elem_of_vals_inv]; [by left|right].
  eapply elem_of_vals, lookup_weaken; done.
Qed.
Lemma grown_step a newsz q l l3 m m3 m' T T3 T' (U U' : gmap Z Z) : aligned a → 0 ≤ a < newsz ∧ newsz ≤ KERNBASE →
  (∀ x, x ∈ l3 → x ∈ l) →
  (∀ va, word_ok va → pte m3 T3 va =
     if va / PGSIZE =? a / PGSIZE then v2p q + Z.lor (Z.lor PTE_W PTE_U) PTE_P else pte m T va) →
  (∀ x, in_page q x → m' x = 0) →
  grown (a + PGSIZE) newsz l3 m3 T3 (<[a / PGSIZE := q]> U) m' T' U' → grown a newsz (q :: l) m T U m' T' U'.
Proof.
  intros Ha Hr Hl Hpte Hz (Hg1 & Hg2 & Hg3). destruct (page_next a Ha) as (En & _ & Emul).
  assert (in_range (a + PGSIZE) newsz (a / PGSIZE) = false) as Hself.
  { unfold in_range. rewrite En, (proj2 (Z.leb_gt _ _)) by lia. done. }
  assert (word_ok a) as Hw by (apply vpn_word; lia).
  split_and!.
  - intros n Hn. rewrite in_range_next in Hn by (done || lia). apply orb_true_iff in Hn as [->%Z.eqb_eq|Hn].
    + exists q. rewrite Hg2, lookup_insert_eq, Emul, Hg3, Hpte, Z.eqb_refl by done.
      split_and!; [done|apply list_elem_of_here|done|done].
    + destruct (Hg1 n Hn) as (q' & ? & ? & ? & ?). exists q'. split_and!; [done|by apply list_elem_of_further, Hl|done|done].
  - intros n Hn. rewrite in_range_next in Hn by (done || lia). apply orb_false_iff in Hn as [Hne%Z.eqb_neq Hn].
    by rewrite Hg2, lookup_insert_ne.
  - intros va Hva Hn. rewrite in_range_next in Hn by (done || lia). apply orb_false_iff in Hn as [Hne Hn].
    rewrite Hg3, Hpte by done. by rewrite Hne.
Qed.
Lemma allocuvm_loop_spec pgdir oldsz newsz fuel : newsz ≤ KERNBASE → ∀ a k l T U,
  uinv k l pgdir T U → aligned a → 0 ≤ a → newsz - a ≤ Z.of_nat fuel * PGSIZE → (2 * fuel ≤ length l)%nat →
  (∀ n, in_range a newsz n = true → U !! n = None) →
  ∃ k' l' T' U', allocuvm_loop kend (S fuel) pgdir a oldsz newsz k = Ret (newsz, k') ∧ uinv k' l' pgdir T' U' ∧
    tpages pgdir T' ++ vals U' ++ l' ≡ₚ tpages pgdir T ++ vals U ++ l ∧
    keeps (tpages pgdir T ++ l) (km_mem k) (km_mem k') ∧ grown a newsz l (km_mem k) T U (km_mem k') T' U'.
Proof using Hkend.
  intros Hnew. induction fuel as [|fuel IH]; intros a k l T U Hi Ha Ha0 Hf Hlen Hno; cbn [allocuvm_loop];
    (destruct (Z.ltb_spec a newsz) as [Hlt|Hge];
     [|exists k, l, T, U; split_and!; [done..|apply pages_refl|]; split_and!; try done;
       intros n; unfold in_range; destruct (Z.leb_spec (a / PGSIZE) n), (Z.ltb_spec (n * PGSIZE) newsz); simpl; try done;
       exfalso; unfold aligned, PGSIZE in *; Z.div_mod_to_equations; lia]); [lia|].
  destruct (page_next a Ha) as (En & Han & Emul). pose proof Hi as (Hk & Hs & Hnd & HU & Hus).
  pose proof (kalloc_rep kend k l Hk) as Hal. destruct l as [|q l]; [simpl in Hlen; lia|].
  destruct Hal as (k1 & -> & Hq & Hk1 & Em & _). rewrite (proj2 (Z.eqb_neq _ _)) by by apply page_nonzero.
  set (k2 := set_km_mem (memset (km_mem k1) q 0 PGSIZE) k1). destruct (fresh_apart _ _ _ _ Hnd) as (Hqn & HqU & _ & _).
  assert (keeps [q] (km_mem k1) (km_mem k2)) as Hkq1 by by apply keeps_memset.
  assert (keeps [q] (km_mem k) (km_mem k2)) as Hkq by (rewrite <- Em; exact Hkq1).
  assert (kmem_rep kend k2 l) as Hk2.
  { apply (rep_keeps k1 l [q]); [done|apply memset_ok; [done|apply Hk1]|exact Hkq1|].
    intros x Hx ->%list_elem_of_singleton. apply Hqn, elem_of_app. by right. }
  destruct (map_user k q l pgdir T U a (Z.lor PTE_W PTE_U) k2) as (r & k3 & l3 & T3 & -> & HkS & Hqb & HT3 & Hperm & Hr);
    [done..|lia| |done|].
  { apply Hno. rewrite in_range_next, Z.eqb_refl by done. done. }
  destruct Hr as [(-> & Hi3 & Hlen3 & Hpte)|(-> & -> & -> & _)]; [|simpl in Hlen; lia].
  rewrite u32_small by (unfold KERNBASE, PGSIZE in *; lia). simpl length in Hlen.
  destruct (IH (a + PGSIZE) k3 l3 T3 _ Hi3 Han) as (k' & l' & T' & U' & E & Hi' & Hacc & Hkp & Hg1 & Hg2 & Hg3); [unfold PGSIZE in *; lia..| |].
  { intros n Hn. rewrite lookup_insert_ne.
    - apply Hno. rewrite in_range_next, Hn by done. apply orb_true_r.
    - intros <-. unfold in_range in Hn. rewrite En in Hn. destruct (Z.leb_spec (a / PGSIZE + 1) (a / PGSIZE)); [lia|done]. }
  assert (U !! (a / PGSIZE) = None) as HUa. { apply Hno. by rewrite in_range_next, Z.eqb_refl. }
  pose proof Hi3 as (_ & _ & Hnd3 & _). apply list.NoDup_app in Hnd3 as (_ & Hd3 & Hnd3).
  apply list.NoDup_app in Hnd3 as (_ & Hdu & _).
  exists k', l', T', U'. split_and!; [done|done| | |].
  - rewrite Hacc, vals_insert by done. transitivity (q :: vals U ++ (tpages pgdir T3 ++ l3)); [solve_Permutation|].
    rewrite Hperm. solve_Permutation.
  - rewrite Hperm in Hkp. eapply pages_trans; (eapply pages_mono; [|eassumption]); intros x; rewrite !elem_of_app, !elem_of_cons, ?elem_of_app; tauto.
  - apply (grown_step a newsz q l l3 _ (km_mem k3) _ T T3); [done|lia| |done| |done].
    + intros x Hx. assert (x ∈ tpages pgdir T ++ l) as Hxl by (rewrite <- Hperm; apply elem_of_app; by right).
      apply elem_of_app in Hxl as [Hxt|]; [|done]. exfalso. apply (Hd3 x); [|apply elem_of_app; by right].
      by eapply tpages_mono.
    + intros x Hx. rewrite (Hkp q x), (Hqb x Hx); [apply memset_zero, Hx|done| |done].
      assert (q ∈ vals (<[a / PGSIZE:=q]> U)) as Hqv by (eapply elem_of_vals, lookup_insert_eq).
      rewrite elem_of_app. intros [Hqt|Hql]; [|by apply (Hdu q)]. apply (Hd3 q Hqt), elem_of_app. by left.
Qed.

(** ** [copyuvm] *)
Section copy.
Context (data : Z) (Hdata : aligned data ∧ KERNLINK < data < KERNBASE + PHYSTOP).
(** The parent: a space with its user pages, all mapped below [sz]; [l0] is the
    free list before the copy. *)
Context (k0 : kmem) (l0 : list Z) (pgdir : Z) (Tp Up : gmap Z Z) (sz : Z).
Context (Hparent : uinv k0 l0 pgdir Tp Up) (Hsz : sz ≤ KERNBASE).
Context (Hfull : ∀ n, 0 ≤ n → n * PGSIZE < sz → is_Some (Up !! n)).

(** Page [n] of the child has the bytes and the flags of the parent's. *)
Definition copied (m : mem) (Td Ud : gmap Z Z) (n : Z) : Prop :=
  ∃ p q, Up !! n = Some p ∧ Ud !! n = Some q ∧ (∀ o, 0 ≤ o < PGSIZE → m (q + o) = km_mem k0 (p + o)) ∧
    PTE_FLAGS (pte m Td (n * PGSIZE)) = PTE_FLAGS (pte (km_mem k0) Tp (n * PGSIZE)).
(** The child when the pages below [i] are copied. *)
Definition child (d i : Z) (k : kmem) (l : list Z) (Td Ud : gmap Z Z) : Prop :=
  uinv k l d Td Ud ∧ tpages d Td ++ vals Ud ++ l ≡ₚ l0 ∧ keeps l0 (km_mem k0) (km_mem k) ∧
  (∀ n, is_Some (Ud !! n) ↔ 0 ≤ n < i / PGSIZE) ∧ (∀ n, 0 ≤ n < i / PGSIZE → copied (km_mem k) Td Ud n) ∧
  (∀ va, word_ok va → KERNBASE ≤ va → pte (km_mem k) Td va = kpte data va).

(** The parent is as it was. *)
Lemma parent_kept m : keeps l0 (km_mem k0) m → space m pgdir Tp ∧ (∀ va, pte m Tp va = pte (km_mem k0) Tp va) ∧
  (∀ n p x, Up !! n = Some p → in_page p x → m x = km_mem k0 x).
Proof using Hparent.
  intros Hk. destruct Hparent as (_ & Hs & Hnd & HU & _). apply list.NoDup_app in Hnd as (_ & H1 & H2).
  apply list.NoDup_app in H2 as (_ & H2 & _). split_and!.
  - eapply space_keeps; [exact Hk| |done]. intros Hi. apply (H1 pgdir); [apply list_elem_of_here|]. apply elem_of_app. by right.
  - intros va. eapply pte_keeps; [exact Hk|done|]. intros pt Hpt Hi. apply (H1 pt); [by apply list_elem_of_further|].
    apply elem_of_app. by right.
  - intros n p x Hp Hx. apply (Hk p x); [by apply HU in Hp as [? _]| |done]. apply H2. by eapply elem_of_vals.
Qed.
Lemma copied_keeps S m m' Td Td' Ud n : copied m Td Ud n → map_Forall (λ _ p, page_ok kend p) Ud →
  keeps S m m' → (∀ q, q ∈ vals Ud → q ∉ S) → pte m' Td' (n * PGSIZE) = pte m Td (n * PGSIZE) → copied m' Td' Ud n.
Proof.
  intros (p & q & Hp & Hq & Hb & Hf) HU Hk Hn Hpte. exists p, q. split_and!; [done..| |by rewrite Hpte].
  intros o Ho. rewrite (Hk q (q + o)); [by apply Hb|by eapply HU|by eapply Hn, elem_of_vals|unfold in_page; lia].
Qed.

(** The copied page before it is mapped. *)
Lemma copy_bytes d i k q l Td Ud p k1 : child d i k (q :: l) Td Ud → Up !! (i / PGSIZE) = Some p →
  kmem_rep kend k1 l → km_mem k1 = km_mem k →
  let k2 := set_km_mem (memmove (km_mem k1) q p (Z.to_nat PGSIZE)) k1 in
  inv k2 l d Td ∧ keeps [q] (km_mem k) (km_mem k2) ∧ page_ok kend q ∧
  (∀ o, 0 ≤ o < PGSIZE → km_mem k2 (q + o) = km_mem k0 (p + o)) ∧ (∀ va, pte (km_mem k2) Td va = pte (km_mem k) Td va).
Proof using Hdata Hparent.
  intros (Hui & Hacc & Hk0 & _) HUp Hk1 Em k2. pose proof Hui as (Hk & Hs & Hnd & _).
  assert (page_ok kend q) as Hq by (destruct Hk as (_ & Hc & _); eapply free_chain_pages; [exact Hc|apply list_elem_of_here]).
  destruct (parent_kept _ Hk0) as (_ & _ & Hpb). destruct (fresh_apart _ _ _ _ Hnd) as (Hq1 & _ & _ & Hnd2).
  assert (∀ x, km_mem k2 x = if within q (Z.to_nat PGSIZE) x then km_mem k (p + (x - q)) else km_mem k x) as Hx.
  { intros x. unfold k2. cbn [set_km_mem km_mem]. rewrite Em. apply memmove_at, Hk. }
  assert (keeps [q] (km_mem k) (km_mem k2)) as Hkp.
  { intros t x Ht Hn Htx. rewrite Hx. case_within; [|done]. exfalso. apply Hn, list_elem_of_singleton.
    eapply page_ok_disjoint; [exact Ht|exact Hq|exact Htx|]. rewrite Z2Nat.id in E by done. done. }
  rewrite elem_of_app in Hq1. split_and!; [|done|done| |].
  - split_and!; [|eapply space_keeps; [exact Hkp| |done]|done].
    + assert (keeps [q] (km_mem k1) (km_mem k2)) as Hkp1 by (rewrite Em; exact Hkp).
      apply (rep_keeps k1 l [q]); [exact Hk1| |exact Hkp1|].
      * change (mem_ok (km_mem k2)). intros x. rewrite Hx. case_match; apply Hk.
      * intros t Ht ->%list_elem_of_singleton. tauto.
    + intros ->%list_elem_of_singleton. apply Hq1. left. apply list_elem_of_here.
  - intros o Ho. rewrite Hx, (proj2 (within_true _ _ _)) by (rewrite Z2Nat.id by done; lia).
    replace (q + o - q) with o by lia. apply (Hpb (i / PGSIZE) p); [done|]. unfold in_page. lia.
  - intros va. eapply pte_keeps; [exact Hkp|done|]. intros t Ht ->%list_elem_of_singleton. apply Hq1. left. by apply list_elem_of_further.
Qed.

(** Copying page [i] into the fresh page [q] and mapping it. *)
Lemma copy_step d i k q l Td Ud p f k1 : child d i k (q :: l) Td Ud → aligned i → 0 ≤ i < sz →
  Up !! (i / PGSIZE) = Some p → pte (km_mem k0) Tp i = v2p p + f → 0 ≤ f < PGSIZE → present f = true →
  kmem_rep kend k1 l → km_mem k1 = km_mem k →
  let k2 := set_km_mem (memmove (km_mem k1) q p (Z.to_nat PGSIZE)) k1 in
  ∃ r k3 l3 T3, mappages d i PGSIZE (v2p q) f k2 = Ret (r, k3) ∧ keeps l0 (km_mem k0) (km_mem k3) ∧
    (r = 0 ∧ child d (i + PGSIZE) k3 l3 T3 (<[i / PGSIZE := q]> Ud) ∨
     r = -1 ∧ uinv k3 [] d T3 Ud ∧ q :: tpages d T3 ++ vals Ud ≡ₚ l0).
Proof using Hdata Hparent Hsz Hkend.
  intros Hch Ha Hi HUp Hpte0 Hf Hpr Hk1 Em k2.
  pose proof (copy_bytes d i k q l Td Ud p k1 Hch HUp Hk1 Em) as ((Hk2 & _) & Hkq & Hq & Hb & _). fold k2 in Hk2, Hkq, Hb.
  destruct Hch as (Hui & Hacc & Hk0 & Hdom & Hcop & Hker). pose proof Hui as (_ & _ & Hnd & HU & _).
  destruct (fresh_apart _ _ _ _ Hnd) as (_ & HqU & HUn & _). destruct (page_next i Ha) as (En & Han & Emul).
  assert (Ud !! (i / PGSIZE) = None) as HUi. { apply eq_None_not_Some. rewrite Hdom. lia. }
  destruct (map_user k q l d Td Ud i f k2) as (r & k3 & l3 & T3 & E & HkS & Hqb & _ & Hperm & Hr); [done..|lia|done|done|].
  assert (keeps l0 (km_mem k0) (km_mem k3)) as Hk03.
  { eapply pages_trans; [exact Hk0|]. eapply pages_mono; [|exact HkS]. intros x.
    rewrite <- Hacc, !elem_of_cons, !elem_of_app, !elem_of_cons. tauto. }
  exists r, k3, l3, T3. split; [done|]. split; [done|].
  destruct Hr as [(-> & Hui3 & _ & Hpte)|(-> & -> & _ & Hui3 & _)]; [left|right]; (split; [done|]).
  2:{ split; [done|]. rewrite app_nil_r in Hperm. rewrite <- Hacc, Hperm. solve_Permutation. }
  split_and!; [done| |done| | |].
  - rewrite vals_insert, <- Hacc by done. transitivity (q :: vals Ud ++ (tpages d T3 ++ l3)); [solve_Permutation|].
    rewrite Hperm. solve_Permutation.
  - intros n. rewrite En. destruct (decide (n = i / PGSIZE)) as [->|Hne].
    + rewrite lookup_insert_eq. split; [intros _|by eauto]. unfold PGSIZE in *. Z.div_mod_to_equations; lia.
    + rewrite lookup_insert_ne, Hdom by done. lia.
  - intros n Hn. rewrite En in Hn. destruct (decide (n = i / PGSIZE)) as [->|Hne].
    + exists p, q. rewrite lookup_insert_eq, Emul, Hpte0, Hpte, Z.eqb_refl, lor_present by (done || apply vpn_word; lia).
      split_and!; [done..| |].
      * intros o Ho. rewrite Hqb by (unfold in_page; lia). by apply Hb.
      * destruct Hparent as (_ & _ & _ & HUp' & _). apply HUp' in HUp as [? _]. by rewrite !PTE_FLAGS_entry.
    + destruct (copied_keeps (q :: tpages d Td ++ l) _ (km_mem k3) _ T3 _ _ (Hcop n ltac:(lia))) as (p' & q' & ? & ? & ? & ?); [|done| | |].
      * intros x y Hxy. by apply HU in Hxy as [? _].
      * intros x Hx. rewrite not_elem_of_cons. split; [by intros ->|by apply HUn].
      * rewrite Hpte, Z.div_mul, (proj2 (Z.eqb_neq _ _)); [done..|].
        apply vpn_word. unfold KERNBASE, PGSIZE in *. Z.div_mod_to_equations; lia.
      * exists p', q'. by rewrite lookup_insert_ne.
  - intros va Hw Hkb. rewrite Hpte, (proj2 (Z.eqb_neq _ _)); [by apply Hker| |done].
    unfold KERNBASE, PGSIZE in *. Z.div_mod_to_equations; lia.
Qed.
Lemma copyuvm_loop_spec d fuel : ∀ i k l Td Ud, child d i k l Td Ud → aligned i → 0 ≤ i →
  sz - i ≤ Z.of_nat fuel * PGSIZE → i < sz + PGSIZE →
  ∃ r k', copyuvm_loop kend (S fuel) pgdir d i sz k = Ret (r, k') ∧ keeps l0 (km_mem k0) (km_mem k') ∧
    (r = 0 ∧ (∃ lost l', kmem_rep kend k' l' ∧ lost ++ l' ≡ₚ l0 ∧ (length lost ≤ 1)%nat) ∨
     r = d ∧ ∃ i' l' T' U', child d i' k' l' T' U' ∧ sz ≤ i' < sz + PGSIZE ∧ aligned i').
Proof using All.
  induction fuel as [|fuel IH]; intros i k l Td Ud Hch Ha Hi0 Hf Hiu; cbn [copyuvm_loop];
    (destruct (Z.ltb_spec i sz) as [Hlt|Hge];
     [|exists d, k; split; [done|]; split; [apply Hch|]; right; split; [done|]; exists i, l, Td, Ud; done]); [lia|].
  pose proof Hch as (Hui & Hacc & Hk0 & _). destruct (parent_kept _ Hk0) as (Hsp & Hptp & _).
  destruct (page_next i Ha) as (En & Han & Emul). destruct (Hfull (i / PGSIZE)) as [p HUp].
  { unfold PGSIZE. Z.div_mod_to_equations; lia. } { lia. }
  pose proof Hparent as (_ & _ & _ & Hus). destruct (mapped_table _ _ _ i p Hus Ha ltac:(lia) HUp) as [pt HT].
  pose proof (proj2 Hus i Ha ltac:(lia)) as Hu. rewrite HUp in Hu. destruct Hu as (f & Hf0 & Epte & Hpr).
  destruct (proj1 Hus _ _ HUp) as [Hp _]. destruct (sp_tab _ _ _ Hsp _ _ HT) as [_ Hpt].
  rewrite (walk_hit k pgdir Tp i pt false) by done.
  rewrite (proj2 (Z.eqb_neq _ _)) by (pose proof (PTX_range i); destruct Hpt as (_ & _ & _ & ?); unfold KERNBASE in *; lia).
  assert (load32 (km_mem k) (pt + 4 * PTX i) = pte (km_mem k0) Tp i) as -> by (rewrite <- Hptp; unfold pte; by rewrite HT).
  change (truth (Z.land ?e PTE_P)) with (present e).
  destruct (pte_entry (km_mem k0) Tp i p f) as (-> & -> & ->); [done..|]. cbn [negb]. rewrite p2v_v2p by done.
  pose proof (kalloc_rep kend k l (proj1 Hui)) as Hal. destruct l as [|q l].
  { rewrite Hal, Z.eqb_refl. destruct (freevm_spec k [] d Td Ud Hui) as (k' & l' & -> & Hk' & Hl' & Hkp).
    exists 0, k'. split; [done|]. rewrite Hacc in Hl', Hkp. split; [by eapply pages_trans|]. left. split; [done|]. exists [], l'.
    split_and!; [done|exact Hl'|simpl; lia]. }
  destruct Hal as (k1 & -> & Hq & Hk1 & Em & _). rewrite (proj2 (Z.eqb_neq _ _)) by by apply page_nonzero.
  destruct (copy_step d i k q l Td Ud p f k1) as (r & k3 & l3 & T3 & -> & Hk3 & [[-> Hch']|(-> & Hui3 & Hacc3)]); [done|done|lia|done|done|done|done|done|done| |].
  - rewrite (proj2 (Z.ltb_ge 0 0)) by lia. rewrite u32_small by (unfold KERNBASE, PGSIZE in *; lia).
    apply (IH (i + PGSIZE) k3 l3 T3 _ Hch' Han); unfold PGSIZE in *; lia.
  - change (-1 <? 0) with true. cbv iota. destruct (freevm_spec k3 [] d T3 Ud Hui3) as (k' & l' & -> & Hk' & Hl' & Hkp).
    rewrite app_nil_r in Hl', Hkp. exists 0, k'. split; [done|]. split.
    { eapply pages_trans; [exact Hk3|]. eapply pages_mono; [|exact Hkp]. intros x Hx. rewrite <- Hacc3. by apply list_elem_of_further. }
    left. split; [done|]. exists [q], l'. split_and!; [done| |done]. rewrite Hl'. exact Hacc3.
Qed.
End copy.
End space.

(** *** A small space: one table, one user page with two numbers in it, two free
    pages. *)
Definition wmem : mem :=
  store32 (store32 (store32 (store32 (store32 (λ _, 0) 0x80502004 904) 0x8050238c (-4096)) 0x80500000 (0x501000 + 7)) 0x80501000 (0x502000 + 7))
    0x80503000 0x80504000.
Definition wk : kmem := mkKmem 0 0x80503000 wmem.
Definition wfree : list Z := [0x80503000; 0x80504000].
Definition wT : gmap Z Z := {[0 := 0x80501000]}.
Definition wU : gmap Z Z := {[0 := 0x80502000]}.

Lemma wmem_0 a : a mod 4 = 0 → a ≠ 0x80500000 → a ≠ 0x80501000 → a ≠ 0x80502004 → a ≠ 0x8050238c → a ≠ 0x80503000 → load32 wmem a = 0.
Proof.
  intros Ha H1 H2 H3 H4 H5. unfold wmem. rewrite !load32_store32_other by (Z.div_mod_to_equations; lia). done.
Qed.
Lemma wpage p : p ∈ [0x80500000; 0x80501000; 0x80502000; 0x80503000; 0x80504000] → page_ok 0x80400000 p.
Proof. rewrite !elem_of_cons, elem_of_nil. intros [->|[->|[->|[->|[->|[]]]]]]; vm_compute; intuition congruence. Qed.
Lemma wspace : uinv 0x80400000 wk wfree 0x80500000 wT wU.
Proof.
  assert (∀ p, p ∈ [0x80500000; 0x80501000; 0x80502000; 0x80503000; 0x80504000] → page_ok 0x80400000 p) as Hp by apply wpage.
  assert (load32 wmem 0x80501000 = 0x502000 + 7) as H1 by (by vm_compute).
  assert (v2p 0x80502000 = 0x502000) as Hv by (by vm_compute).
  split_and!.
  - split_and!; [repeat apply store32_ok; intros a; by unfold byte_ok| |by apply (bool_decide_unpack _); vm_compute].
    simpl. split_and!; [done|apply Hp; set_solver| |apply Hp; set_solver|by vm_compute]. by vm_compute.
  - split; [apply Hp; set_solver| |].
    + apply map_Forall_singleton. split; [done|]. apply Hp. set_solver.
    + intros d Hd. unfold wT. destruct (decide (d = 0)) as [->|Hne].
      * rewrite lookup_singleton_eq. by vm_compute.
      * rewrite lookup_singleton_ne by done. unfold NPDENTRIES in Hd. cbn [wk km_mem].
        rewrite wmem_0 by (Z.div_mod_to_equations; lia). done.
  - unfold tpages, vals, wT, wU. rewrite !map_to_list_singleton. by apply (bool_decide_unpack _); vm_compute.
  - split; [apply map_Forall_singleton; split; [apply Hp; set_solver|done]|].
    intros va Ha Hr. unfold wU. destruct (decide (va / PGSIZE = 0)) as [E|Hne].
    + rewrite E, lookup_singleton_eq. exists 7. split_and!; [done|done| |done].
      assert (va = 0) as -> by (unfold aligned, PGSIZE in *; Z.div_mod_to_equations; lia).
      unfold pte. change (PDX 0) with 0. unfold wT. rewrite lookup_singleton_eq. by rewrite Hv.
    + rewrite lookup_singleton_ne by done. unfold pte, wT. destruct (decide (PDX va = 0)) as [E|]; [|by rewrite lookup_singleton_ne].
      rewrite E, lookup_singleton_eq. pose proof (PTX_range va) as Ht. unfold NPTENTRIES in Ht. cbn [wk km_mem].
      assert (PTX va ≠ 0) as Hn0.
      { intros E0. apply Hne. rewrite PDX_div, u32_small in E by (unfold KERNBASE in *; lia).
        rewrite PTX_div, u32_small in E0 by (unfold KERNBASE in *; lia). unfold PGSIZE. Z.div_mod_to_equations; lia. }
      rewrite wmem_0 by (Z.div_mod_to_equations; lia). done.
Qed.

(** ** Properties *)

Lemma uinv_parent kend k l pgdir T U k' l' : uinv kend k l pgdir T U → kmem_rep kend k' l' →
  keeps kend l (km_mem k) (km_mem k') → (∀ x, x ∈ l' → x ∈ l) → uinv kend k' l' pgdir T U.
Proof.
  intros Hp Hk' Hkp Hl. destruct (parent_kept kend k l pgdir T U Hp (km_mem k') Hkp) as (Hs & Hpte & _).
  destruct Hp as (Hk & _ & Hnd & HU & Hus). split_and!; [done|done| |split; [done|]; intros va Ha Hr; rewrite Hpte; by apply Hus].
  apply list.NoDup_app in Hnd as (H1 & H2 & H3). apply list.NoDup_app in H3 as (H3 & H4 & _).
  apply list.NoDup_app. split_and!; [done| |].
  - intros x Hx. rewrite elem_of_app. intros [Hu|Hxl]; apply (H2 x Hx), elem_of_app; auto.
  - apply list.NoDup_app. split_and!; [done| |apply Hk']. intros x Hx Hxl. apply (H4 x Hx). auto.
Qed.

(** Claim C11: fork copies memory and isolates it.  For a well-formed parent
    space whose pages below [sz] are mapped, [copyuvm] returns without panic,
    writing only pages that were free.  It returns 0 when memory runs out;
    otherwise the new directory is a well-formed space made of formerly free
    pages, each used once, whose user pages are exactly those below [sz], with
    the parent's bytes and flags in memory of their own, and whose kernel part
    is that of [kmap] and closed to user code; the parent's space is still
    well formed.  On failure inside the copy all pages but at most one are
    back on the free list. *)
Theorem copyuvm_isolated kend data k l pgdir T U sz :
  KERNBASE < kend → aligned data ∧ KERNLINK < data < KERNBASE + PHYSTOP →
  uinv kend k l pgdir T U → 0 ≤ sz ≤ KERNBASE → (∀ n, 0 ≤ n → n * PGSIZE < sz → is_Some (U !! n)) →
  ∃ d k', copyuvm kend data pgdir sz k = Ret (d, k') ∧ keeps kend l (km_mem k) (km_mem k') ∧
    (d = 0 ∧ (∃ l', kmem_rep kend k' l' ∧ (l' = [] ∨ ∃ lost, lost ++ l' ≡ₚ l ∧ (length lost ≤ 1)%nat)) ∨
     d ≠ 0 ∧ ∃ l' Td Ud, uinv kend k' l' d Td Ud ∧ tpages d Td ++ vals Ud ++ l' ≡ₚ l ∧
       uinv kend k' l' pgdir T U ∧
       (∀ n, is_Some (Ud !! n) ↔ 0 ≤ n ∧ n * PGSIZE < sz) ∧
       (∀ n, 0 ≤ n → n * PGSIZE < sz → copied k T U (km_mem k') Td Ud n) ∧
       (∀ va, word_ok va → KERNBASE ≤ va →
          pte (km_mem k') Td va = kpte data va ∧ Z.land (pte (km_mem k') Td va) PTE_U = 0)).
Proof.
  intros Hkend Hdata Hp Hsz Hfull. unfold copyuvm.
  destruct (setupkvm_spec kend Hkend data Hdata k l (proj1 Hp)) as (d & k1 & -> & Hk1 & [(-> & Hk1' & _)|(Hnz & l1 & T1 & Hi1 & Hacc1 & Hpte1)]).
  { rewrite Z.eqb_refl. exists 0, k1. split; [done|]. split; [done|]. left. eauto. }
  rewrite (proj2 (Z.eqb_neq _ _)) by done. assert (vals ∅ = []) as Hv by (unfold vals; by rewrite map_to_list_empty).
  assert (child kend data k l T U d 0 k1 l1 T1 ∅) as Hch.
  { split_and!; [|by rewrite Hv|done| |intros n Hn; change (0 / PGSIZE) with 0 in Hn; lia|auto].
    - destruct Hi1 as (? & ? & ?). split_and!; [done|done|by rewrite Hv|]. split; [apply map_Forall_empty|].
      intros va Ha Hr. rewrite lookup_empty, Hpte1, (kpte_user data Hdata) by (by apply vpn_word || lia). done.
    - intros n. rewrite lookup_empty. change (0 / PGSIZE) with 0. split; [by intros []|lia]. }
  destruct (copyuvm_loop_spec kend Hkend data Hdata k l pgdir T U sz Hp (proj2 Hsz) Hfull d (S (Z.to_nat (sz / PGSIZE))) 0 k1 l1 T1 ∅ Hch)
    as (r & k' & E & Hk' & Hr); [done|lia| |unfold PGSIZE; lia|].
  { rewrite Nat2Z.inj_succ, Z2Nat.id by (apply Z.div_pos; [lia|done]). unfold PGSIZE. Z.div_mod_to_equations; lia. }
  rewrite E. exists r, k'. split; [done|]. split; [done|]. destruct Hr as [(-> & lost & l' & ? & ? & ?)|(-> & i & l' & T' & U' & Hc & Hir & Hia)].
  { left. split; [done|]. exists l'. split; [done|]. right. by exists lost. }
  right. split; [done|]. destruct Hc as (Hui & Hacc & _ & Hdom & Hcop & Hker). exists l', T', U'.
  assert (∀ n, 0 ≤ n < i / PGSIZE ↔ 0 ≤ n ∧ n * PGSIZE < sz) as Hn by (intros n; unfold aligned, PGSIZE in *; Z.div_mod_to_equations; lia).
  split_and!; [done|done| |by intros n; rewrite Hdom|by intros n H1 H2; apply Hcop, Hn|].
  - apply (uinv_parent kend k l); [done|apply Hui|done|]. intros x Hx. rewrite <- Hacc, !elem_of_app. tauto.
  - intros va Hw Hkb. rewrite Hker by done. split; [done|]. by apply (kpte_no_user data Hdata).
Qed.

(** The one page of the small space is copied, or memory runs out. *)
Lemma copyuvm_isolated_witness :
  ∃ d k', copyuvm 0x80400000 0x80108000 0x80500000 4096 wk = Ret (d, k') ∧ keeps 0x80400000 wfree wmem (km_mem k').
Proof.
  destruct (copyuvm_isolated 0x80400000 0x80108000 wk wfree 0x80500000 wT wU 4096) as (d & k' & E & Hk & _).
  - done.
  - split; [done|]. unfold KERNLINK, KERNBASE, EXTMEM, PHYSTOP. lia.
  - apply wspace.
  - unfold KERNBASE. lia.
  - intros n H0 Hn. unfold PGSIZE in Hn. replace n with 0 by lia. unfold wU. rewrite lookup_singleton_eq. eauto.
  - exists d, k'. split; [exact E|exact Hk].
Defined.

(** [freevm] frees an address space.  For a well-formed space it
    returns without panic, and the free list is then exactly the old one with
    the directory, the page tables and the user pages of the space; no other
    page is written. *)
Theorem freevm_returns_pages kend k l pgdir T U : KERNBASE < kend → uinv kend k l pgdir T U →
  ∃ k' l', freevm kend pgdir k = Ret k' ∧ kmem_rep kend k' l' ∧ l' ≡ₚ tpages pgdir T ++ vals U ++ l ∧
    keeps kend (tpages pgdir T ++ vals U ++ l) (km_mem k) (km_mem k').
Proof. intros Hkend. by apply freevm_spec. Qed.

Lemma freevm_returns_pages_witness :
  ∃ k' l', freevm 0x80400000 0x80500000 wk = Ret k' ∧ kmem_rep 0x80400000 k' l' ∧
    l' ≡ₚ [0x80500000; 0x80501000; 0x80502000; 0x80503000; 0x80504000].
Proof.
  destruct (freevm_returns_pages 0x80400000 wk wfree 0x80500000 wT wU eq_refl wspace) as (k' & l' & E & Hk & Hl & _).
  exists k', l'. split; [exact E|]. split; [exact Hk|]. exact Hl.
Defined.

(** [allocuvm] grows a process.  With two free pages for every page
    of growth it returns the new size, and every new page below it is a zeroed
    page of the free list, mapped readable and writable for the user; all
    other mappings, and all memory but the free pages and page tables, are as
    before, and no page is used twice. *)
Theorem allocuvm_grows kend k l pgdir T U oldsz newsz : KERNBASE < kend → uinv kend k l pgdir T U →
  0 ≤ oldsz ≤ newsz → newsz < KERNBASE →
  (∀ n, in_range (PGROUNDUP oldsz) newsz n = true → U !! n = None) →
  (2 * (Z.to_nat ((newsz - PGROUNDUP oldsz) / PGSIZE) + 1) ≤ length l)%nat →
  ∃ k' l' T' U', allocuvm kend pgdir oldsz newsz k = Ret (newsz, k') ∧ uinv kend k' l' pgdir T' U' ∧
    tpages pgdir T' ++ vals U' ++ l' ≡ₚ tpages pgdir T ++ vals U ++ l ∧
    keeps kend (tpages pgdir T ++ l) (km_mem k) (km_mem k') ∧
    grown (PGROUNDUP oldsz) newsz l (km_mem k) T U (km_mem k') T' U'.
Proof.
  intros Hkend Hi Ho Hn Hno Hlen. unfold allocuvm.
  rewrite (proj2 (Z.leb_gt _ _)), (proj2 (Z.ltb_ge _ _)) by lia.
  destruct (PGROUNDUP_spec oldsz) as [Ha Hr]; [unfold KERNBASE, PGSIZE in *; lia|].
  apply allocuvm_loop_spec; [done|lia|done|done|lia| |lia|done].
  set (x := (newsz - PGROUNDUP oldsz) / PGSIZE) in *. assert (newsz - PGROUNDUP oldsz < (x + 1) * PGSIZE).
  { unfold x, PGSIZE. Z.div_mod_to_equations; lia. }
  unfold PGSIZE in *. lia.
Qed.
(** The second page is allocated. *)
Lemma allocuvm_grows_witness :
  ∃ k' l' T' U', allocuvm 0x80400000 0x80500000 4096 5000 wk = Ret (5000, k') ∧ uinv 0x80400000 k' l' 0x80500000 T' U' ∧
    grown 4096 5000 wfree wmem wT wU (km_mem k') T' U'.
Proof.
  destruct (allocuvm_grows 0x80400000 wk wfree 0x80500000 wT wU 4096 5000) as (k' & l' & T' & U' & E & Hi & _ & _ & Hg).
  - done.
  - apply wspace.
  - lia.
  - unfold KERNBASE. lia.
  - intros n Hn. unfold in_range in Hn. apply andb_true_iff in Hn as [Hn _]. apply Z.leb_le in Hn.
    change (PGROUNDUP 4096 / PGSIZE) with 1 in Hn. unfold wU. apply lookup_singleton_ne. lia.
  - vm_compute. lia.
  - exists k', l', T', U'. split; [exact E|]. split; [exact Hi|exact Hg].
Defined.
