(* ===== verification/Proc.v ===== *)
(** * The process table and its linked lists (proc.c, proc.h)

    [struct proc] is a record, [ptable.proc] a list of [NPROC] of them, and a
    [struct proc *] is [None] for the null pointer or [Some i] for
    [&ptable.proc[i]].  The ready lists and the free list are threaded through
    the [next] fields, as in the C code.  The first part gives the list
    operations the scheduler is built from; the second part relates the
    pointer structure to lists of process indices ([lists_rep]) and proves
    that every operation refines an operation on those lists. *)
From S2P Require Import Prelude Machine.

Open Scope Z_scope.

(** ** Data *)
Inductive procstate := UNUSED | EMBRYO | SLEEPING | RUNNABLE | RUNNING | ZOMBIE.
#[export] Instance procstate_eq_dec : EqDecision procstate.
Proof. solve_decision. Defined.

(** A sleep channel is an address; the address of a process structure is kept
    symbolic. *)
Inductive chan := ChanNone | ChanProc (i : nat) | ChanAddr (a : Z).
#[export] Instance chan_eq_dec : EqDecision chan.
Proof. solve_decision. Defined.

Record proc := mkProc {
  p_sz : Z;
  p_pgdir : Z;
  p_kstack : Z;
  p_state : procstate;
  p_pid : Z;
  p_uid : Z;
  p_gid : Z;
  p_priority : Z;
  p_parent : option nat;
  p_tf : Z;
  p_context : Z;
  p_chan : chan;
  p_killed : Z;
  p_ofile : list Z;
  p_cwd : Z;
  p_next : option nat;
  p_name : list Z }.

(** [p->field = v] *)
Definition set_sz (v : Z) (p : proc) : proc :=
  mkProc v (p_pgdir p) (p_kstack p) (p_state p) (p_pid p) (p_uid p) (p_gid p)
    (p_priority p) (p_parent p) (p_tf p) (p_context p) (p_chan p) (p_killed p)
    (p_ofile p) (p_cwd p) (p_next p) (p_name p).
Definition set_pgdir (v : Z) (p : proc) : proc :=
  mkProc (p_sz p) v (p_kstack p) (p_state p) (p_pid p) (p_uid p) (p_gid p)
    (p_priority p) (p_parent p) (p_tf p) (p_context p) (p_chan p) (p_killed p)
    (p_ofile p) (p_cwd p) (p_next p) (p_name p).
Definition set_kstack (v : Z) (p : proc) : proc :=
  mkProc (p_sz p) (p_pgdir p) v (p_state p) (p_pid p) (p_uid p) (p_gid p)
    (p_priority p) (p_parent p) (p_tf p) (p_context p) (p_chan p) (p_killed p)
    (p_ofile p) (p_cwd p) (p_next p) (p_name p).
Definition set_state (v : procstate) (p : proc) : proc :=
  mkProc (p_sz p) (p_pgdir p) (p_kstack p) v (p_pid p) (p_uid p) (p_gid p)
    (p_priority p) (p_parent p) (p_tf p) (p_context p) (p_chan p) (p_killed p)
    (p_ofile p) (p_cwd p) (p_next p) (p_name p).
Definition set_pid (v : Z) (p : proc) : proc :=
  mkProc (p_sz p) (p_pgdir p) (p_kstack p) (p_state p) v (p_uid p) (p_gid p)
    (p_priority p) (p_parent p) (p_tf p) (p_context p) (p_chan p) (p_killed p)
    (p_ofile p) (p_cwd p) (p_next p) (p_name p).
Definition set_uid (v : Z) (p : proc) : proc :=
  mkProc (p_sz p) (p_pgdir p) (p_kstack p) (p_state p) (p_pid p) v (p_gid p)
    (p_priority p) (p_parent p) (p_tf p) (p_context p) (p_chan p) (p_killed p)
    (p_ofile p) (p_cwd p) (p_next p) (p_name p).
Definition set_gid (v : Z) (p : proc) : proc :=
  mkProc (p_sz p) (p_pgdir p) (p_kstack p) (p_state p) (p_pid p) (p_uid p) v
    (p_priority p) (p_parent p) (p_tf p) (p_context p) (p_chan p) (p_killed p)
    (p_ofile p) (p_cwd p) (p_next p) (p_name p).
Definition set_priority (v : Z) (p : proc) : proc :=
  mkProc (p_sz p) (p_pgdir p) (p_kstack p) (p_state p) (p_pid p) (p_uid p) (p_gid p) v
    (p_parent p) (p_tf p) (p_context p) (p_chan p) (p_killed p) (p_ofile p) (p_cwd p)
    (p_next p) (p_name p).
Definition set_parent (v : option nat) (p : proc) : proc :=
  mkProc (p_sz p) (p_pgdir p) (p_kstack p) (p_state p) (p_pid p) (p_uid p) (p_gid p)
    (p_priority p) v (p_tf p) (p_context p) (p_chan p) (p_killed p) (p_ofile p)
    (p_cwd p) (p_next p) (p_name p).
Definition set_tf (v : Z) (p : proc) : proc :=
  mkProc (p_sz p) (p_pgdir p) (p_kstack p) (p_state p) (p_pid p) (p_uid p) (p_gid p)
    (p_priority p) (p_parent p) v (p_context p) (p_chan p) (p_killed p) (p_ofile p)
    (p_cwd p) (p_next p) (p_name p).
Definition set_context (v : Z) (p : proc) : proc :=
  mkProc (p_sz p) (p_pgdir p) (p_kstack p) (p_state p) (p_pid p) (p_uid p) (p_gid p)
    (p_priority p) (p_parent p) (p_tf p) v (p_chan p) (p_killed p) (p_ofile p)
    (p_cwd p) (p_next p) (p_name p).
Definition set_chan (v : chan) (p : proc) : proc :=
  mkProc (p_sz p) (p_pgdir p) (p_kstack p) (p_state p) (p_pid p) (p_uid p) (p_gid p)
    (p_priority p) (p_parent p) (p_tf p) (p_context p) v (p_killed p) (p_ofile p)
    (p_cwd p) (p_next p) (p_name p).
Definition set_killed (v : Z) (p : proc) : proc :=
  mkProc (p_sz p) (p_pgdir p) (p_kstack p) (p_state p) (p_pid p) (p_uid p) (p_gid p)
    (p_priority p) (p_parent p) (p_tf p) (p_context p) (p_chan p) v (p_ofile p)
    (p_cwd p) (p_next p) (p_name p).
Definition set_ofile (v : list Z) (p : proc) : proc :=
  mkProc (p_sz p) (p_pgdir p) (p_kstack p) (p_state p) (p_pid p) (p_uid p) (p_gid p)
    (p_priority p) (p_parent p) (p_tf p) (p_context p) (p_chan p) (p_killed p) v
    (p_cwd p) (p_next p) (p_name p).
Definition set_cwd (v : Z) (p : proc) : proc :=
  mkProc (p_sz p) (p_pgdir p) (p_kstack p) (p_state p) (p_pid p) (p_uid p) (p_gid p)
    (p_priority p) (p_parent p) (p_tf p) (p_context p) (p_chan p) (p_killed p)
    (p_ofile p) v (p_next p) (p_name p).
Definition set_next (v : option nat) (p : proc) : proc :=
  mkProc (p_sz p) (p_pgdir p) (p_kstack p) (p_state p) (p_pid p) (p_uid p) (p_gid p)
    (p_priority p) (p_parent p) (p_tf p) (p_context p) (p_chan p) (p_killed p)
    (p_ofile p) (p_cwd p) v (p_name p).
Definition set_name (v : list Z) (p : proc) : proc :=
  mkProc (p_sz p) (p_pgdir p) (p_kstack p) (p_state p) (p_pid p) (p_uid p) (p_gid p)
    (p_priority p) (p_parent p) (p_tf p) (p_context p) (p_chan p) (p_killed p)
    (p_ofile p) (p_cwd p) (p_next p) v.

Record ptable := mkPt {
  procs : list proc;
  pReadyList : list (option nat);
  pFreeList : option nat;
  TimeToReset : Z }.

Definition set_procs (v : list proc) (t : ptable) : ptable :=
  mkPt v (pReadyList t) (pFreeList t) (TimeToReset t).
Definition set_pReadyList (v : list (option nat)) (t : ptable) : ptable :=
  mkPt (procs t) v (pFreeList t) (TimeToReset t).
Definition set_pFreeList (v : option nat) (t : ptable) : ptable :=
  mkPt (procs t) (pReadyList t) v (TimeToReset t).
Definition set_TimeToReset (v : Z) (t : ptable) : ptable :=
  mkPt (procs t) (pReadyList t) (pFreeList t) v.

Definition MaxTimeToReset : Z := 100.
Definition NPRIO : nat := 3.

(** [p->field] and [p->field = v] for [p = &ptable.proc[i]]. *)
Definition get_proc (i : nat) (t : ptable) : outcome proc :=
  match procs t !! i with
  | Some p => Ret p
  | None => Undef "struct proc pointer outside ptable.proc"
  end.
Definition upd_proc (i : nat) (f : proc → proc) (t : ptable) : outcome ptable :=
  let* p := get_proc i t in
  Ret (set_procs (<[i := f p]> (procs t)) t).
(** Following a pointer that may be null. *)
Definition deref (o : option nat) : outcome nat :=
  match o with
  | Some i => Ret i
  | None => Undef "null struct proc pointer"
  end.

(** [ptable.pReadyList[priority]]: the array has three entries. *)
Definition ready_index (priority : Z) : outcome nat :=
  if (0 <=? priority) && (priority <? Z.of_nat NPRIO) then Ret (Z.to_nat priority)
  else Undef "pReadyList index out of bounds".
Definition ready_head (k : nat) (t : ptable) : option nat :=
  default None (pReadyList t !! k).
Definition set_ready_head (k : nat) (v : option nat) (t : ptable) : ptable :=
  set_pReadyList (<[k := v]> (pReadyList t)) t.

(** [while(temp->next != 0) temp = temp->next;].  A list of distinct
    processes has at most [NPROC] elements, so [NPROC] is enough fuel. *)
Fixpoint list_last (fuel : nat) (temp : nat) (t : ptable) : outcome nat :=
  match fuel with
  | O => Diverge
  | S f =>
      let* p := get_proc temp t in
      match p_next p with
      | None => Ret temp
      | Some n => list_last f n t
      end
  end.

(** ** Operations of proc.c *)

(** The loop stops at the first entry with the given pid. *)
Fixpoint setpriority_loop (pid priority : Z) (ps : list proc) : list proc :=
  match ps with
  | [] => []
  | p :: ps' => if p_pid p =? pid then set_priority priority p :: ps'
                else p :: setpriority_loop pid priority ps'
  end.
Definition setpriority (pid priority : Z) (t : ptable) : Z * ptable :=
  (0, set_procs (setpriority_loop pid priority (procs t)) t).

(** Append ready list [k] to ready list 1 and empty it; [ResetPriority] has
    this code once for list 0 and once for list 2. *)
Definition splice_to_1 (k : nat) (t : ptable) : outcome ptable :=
  match ready_head k t with
  | None => Ret t
  | Some h =>
      let* t := match ready_head 1 t with
                | None => Ret (set_ready_head 1 (Some h) t)
                | Some temp =>
                    let* last := list_last NPROC temp t in
                    upd_proc last (set_next (Some h)) t
                end in
      Ret (set_ready_head k None t)
  end.
Definition ResetPriority (t : ptable) : outcome ptable :=
  let t := set_procs (set_priority 1 <$> procs t) t in
  let* t := splice_to_1 0 t in
  splice_to_1 2 t.

Definition AddFreeList (toadd : option nat) (t : ptable) : outcome (Z * ptable) :=
  match toadd with
  | None => Ret (-1, t)
  | Some i =>
      match pFreeList t with
      | None =>
          let* t := upd_proc i (set_next None) (set_pFreeList (Some i) t) in
          Ret (0, t)
      | Some restoflist =>
          let* t := upd_proc i (set_next (Some restoflist)) (set_pFreeList (Some i) t) in
          Ret (0, t)
      end
  end.

Definition RemoveFreeList (t : ptable) : outcome (option nat * ptable) :=
  match pFreeList t with
  | None => Ret (None, t)
  | Some i =>
      let* p := get_proc i t in
      Ret (Some i, set_pFreeList (p_next p) t)
  end.

Definition AddReadyList (toadd : nat) (t : ptable) : outcome (Z * ptable) :=
  let* p := get_proc toadd t in
  if negb (bool_decide (p_state p = RUNNABLE)) then Ret (-1, t)
  else
    let* k := ready_index (p_priority p) in
    match ready_head k t with
    | None =>
        let* t := upd_proc toadd (set_next None) (set_ready_head k (Some toadd) t) in
        Ret (0, t)
    | Some temp =>
        let* last := list_last NPROC temp t in
        let* t := upd_proc toadd (set_next None) t in
        let* t := upd_proc last (set_next (Some toadd)) t in
        Ret (0, t)
    end.

(** [while(current != toremove){ prev = current; current = current->next; }]:
    the predecessor of [toremove]. *)
Fixpoint find_prev (fuel : nat) (prev : nat) (current : option nat) (toremove : nat)
    (t : ptable) : outcome nat :=
  match fuel with
  | O => Diverge
  | S f =>
      let* c := deref current in
      if (c =? toremove)%nat then Ret prev
      else
        let* p := get_proc c t in
        find_prev f c (p_next p) toremove t
  end.

Definition RemoveReadyList (toremove : nat) (t : ptable) : outcome (Z * ptable) :=
  let* r := get_proc toremove t in
  let* k := ready_index (p_priority r) in
  match ready_head k t with
  | None => Ret (-1, t)
  | Some h =>
      let* ph := get_proc h t in
      match p_next ph with
      | None => Ret (0, set_ready_head k None t)
      | Some n =>
          if (h =? toremove)%nat then Ret (0, set_ready_head k (Some n) t)
          else
            let* prev := find_prev NPROC h (Some n) toremove t in
            let* r := get_proc toremove t in
            let* t := upd_proc prev (set_next (p_next r)) t in
            Ret (0, t)
      end
  end.

(** The first process of the first non-empty ready list. *)
Definition GetReady (t : ptable) : option nat :=
  match ready_head 0 t with
  | Some i => Some i
  | None => match ready_head 1 t with
            | Some i => Some i
            | None => ready_head 2 t
            end
  end.

(** ** Linked lists as lists of indices *)
Definition next_of (ps : list proc) (i : nat) : option (option nat) :=
  p_next <$> ps !! i.

(** Following [next] from [h] visits exactly [l]. *)
Fixpoint chain (ps : list proc) (h : option nat) (l : list nat) : Prop :=
  match l with
  | [] => h = None
  | i :: l' => h = Some i ∧ ∃ n, next_of ps i = Some n ∧ chain ps n l'
  end.

(** The free list is [fl] and ready list [k] is the [k]-th element of [rl]; no
    process is on two lists or twice on one. *)
Definition lists_rep (t : ptable) (fl : list nat) (rl : list (list nat)) : Prop :=
  chain (procs t) (pFreeList t) fl ∧
  Forall2 (chain (procs t)) (pReadyList t) rl ∧
  length rl = NPRIO ∧ NoDup (fl ++ concat rl) ∧
  length (procs t) = NPROC.

(** Two tables agree up to the links. *)
Definition same_data (t t' : ptable) : Prop :=
  set_next None <$> procs t' = set_next None <$> procs t ∧
  TimeToReset t' = TimeToReset t.

(** ** Abstract queues *)

(** What the lists promise to the rest of the kernel: a stack of free slots,
    one FIFO queue per priority, and the state and priority of each slot. *)
Record queues := mkQ {
  q_free : list nat;
  q_ready : list (list nat);
  q_attr : list (procstate * Z) }.

Inductive qop :=
| QAddFree (i : nat)
| QRemoveFree
| QAddReady (i : nat)
| QRemoveReady (i : nat)
| QGetReady
| QReset
| QSetState (i : nat) (s : procstate)
| QSetPriority (i : nat) (v : Z).

Inductive reply := RInt (z : Z) | RPtr (p : option nat).

Definition q_unqueued (i : nat) (q : queues) : bool :=
  negb (nat_mem i (q_free q ++ concat (q_ready q))) && (i <? length (q_attr q))%nat.
Definition prio_ok (v : Z) : bool := (0 <=? v) && (v <? Z.of_nat NPRIO).

(** The abstract operations, with the conditions under which the code may call
    them: [None] when a condition does not hold. *)
Definition q_step (o : qop) (q : queues) : option (reply * queues) :=
  match o with
  | QAddFree i =>
      if q_unqueued i q then Some (RInt 0, mkQ (i :: q_free q) (q_ready q) (q_attr q)) else None
  | QRemoveFree => Some (RPtr (head (q_free q)), mkQ (tail (q_free q)) (q_ready q) (q_attr q))
  | QAddReady i =>
      '(s, v) ← q_attr q !! i;
      if negb (bool_decide (s = RUNNABLE)) then Some (RInt (-1), q)
      else if prio_ok v && q_unqueued i q then
        l ← q_ready q !! Z.to_nat v;
        Some (RInt 0, mkQ (q_free q) (<[Z.to_nat v := l ++ [i]]> (q_ready q)) (q_attr q))
      else None
  | QRemoveReady i =>
      '(s, v) ← q_attr q !! i;
      l ← q_ready q !! Z.to_nat v;
      if prio_ok v && nat_mem i l then
        Some (RInt 0, mkQ (q_free q)
                (<[Z.to_nat v := filter (λ j, j ≠ i) l]> (q_ready q)) (q_attr q))
      else None
  | QGetReady => Some (RPtr (head (concat (q_ready q))), q)
  | QReset =>
      match q_ready q with
      | [r0; r1; r2] =>
          Some (RInt 0, mkQ (q_free q) [[]; r1 ++ r0 ++ r2; []]
                  ((λ '(s, _), (s, 1)) <$> q_attr q))
      | _ => None
      end
  | QSetState i s =>
      '(_, v) ← q_attr q !! i;
      Some (RInt 0, mkQ (q_free q) (q_ready q) (<[i := (s, v)]> (q_attr q)))
  | QSetPriority i v =>
      '(s, _) ← q_attr q !! i;
      if q_unqueued i q then Some (RInt 0, mkQ (q_free q) (q_ready q) (<[i := (s, v)]> (q_attr q)))
      else None
  end.

(** The same operations on the process table. *)
Definition c_step (o : qop) (t : ptable) : outcome (reply * ptable) :=
  match o with
  | QAddFree i => let* (r, t) := AddFreeList (Some i) t in Ret (RInt r, t)
  | QRemoveFree => let* (p, t) := RemoveFreeList t in Ret (RPtr p, t)
  | QAddReady i => let* (r, t) := AddReadyList i t in Ret (RInt r, t)
  | QRemoveReady i => let* (r, t) := RemoveReadyList i t in Ret (RInt r, t)
  | QGetReady => Ret (RPtr (GetReady t), t)
  | QReset => let* t := ResetPriority t in Ret (RInt 0, t)
  | QSetState i s => let* t := upd_proc i (set_state s) t in Ret (RInt 0, t)
  | QSetPriority i v => let* t := upd_proc i (set_priority v) t in Ret (RInt 0, t)
  end.

Fixpoint q_run (os : list qop) (q : queues) : option (list reply * queues) :=
  match os with
  | [] => Some ([], q)
  | o :: os => '(r, q) ← q_step o q; '(rs, q) ← q_run os q; Some (r :: rs, q)
  end.
Fixpoint c_run (os : list qop) (t : ptable) : outcome (list reply * ptable) :=
  match os with
  | [] => Ret ([], t)
  | o :: os => let* (r, t) := c_step o t in let* (rs, t) := c_run os t in Ret (r :: rs, t)
  end.

Definition attr (p : proc) : procstate * Z := (p_state p, p_priority p).
Definition queues_rep (t : ptable) (q : queues) : Prop :=
  lists_rep t (q_free q) (q_ready q) ∧ q_attr q = attr <$> procs t.

(** The table [userinit] starts from: every slot unused and on no list. *)
Definition empty_proc : proc :=
  mkProc 0 0 0 UNUSED 0 0 0 0 None 0 0 ChanNone 0 (replicate 16 0) 0 None (replicate 16 0).
Definition pt0 : ptable := mkPt (replicate NPROC empty_proc) (replicate NPRIO None) None 0.
Definition q0 : queues := mkQ [] (replicate NPRIO []) (replicate NPROC (UNUSED, 0)).

(** *** Lemmas on [chain] *)
Lemma next_of_upd ps i p v j :
  ps !! i = Some p →
  next_of (<[i := set_next v p]> ps) j = if decide (i = j) then Some v else next_of ps j.
Proof.
  intros Hi. unfold next_of. case_decide as Hij; subst.
  - by rewrite list_lookup_insert_eq by (by eapply lookup_lt_Some).
  - by rewrite list_lookup_insert_ne.
Qed.

Lemma next_of_upd_data ps i p q j :
  ps !! i = Some p → p_next q = p_next p → next_of (<[i := q]> ps) j = next_of ps j.
Proof.
  intros Hi Hq. unfold next_of. destruct (decide (i = j)) as [->|].
  - rewrite list_lookup_insert_eq by (by eapply lookup_lt_Some).
    rewrite Hi. simpl. by rewrite Hq.
  - by rewrite list_lookup_insert_ne.
Qed.

Lemma chain_frame ps ps' l : ∀ h,
  (∀ i, i ∈ l → next_of ps' i = next_of ps i) → chain ps h l → chain ps' h l.
Proof.
  induction l as [|i l IH]; intros h Hf H; [done|].
  destruct H as (-> & n & Hn & H). split; [done|]. exists n. split.
  - rewrite Hf; [done|apply list_elem_of_here].
  - apply IH; [|done]. intros j Hj. apply Hf. by apply list_elem_of_further.
Qed.

Lemma chain_bound ps l : ∀ h i, chain ps h l → i ∈ l → (i < length ps)%nat.
Proof.
  induction l as [|j l IH]; intros h i H Hi; [by apply not_elem_of_nil in Hi|].
  destruct H as (-> & n & Hn & H). apply elem_of_cons in Hi as [->|Hi]; [|eauto].
  unfold next_of in Hn. apply fmap_Some in Hn as (p & Hp & _).
  by eapply lookup_lt_Some.
Qed.

(** A segment from [h] through [l] to [e]. *)
Fixpoint segment (ps : list proc) (h : option nat) (l : list nat) (e : option nat) : Prop :=
  match l with
  | [] => h = e
  | i :: l' => h = Some i ∧ ∃ n, next_of ps i = Some n ∧ segment ps n l' e
  end.

Lemma chain_split ps l1 l2 : ∀ h,
  chain ps h (l1 ++ l2) ↔ ∃ e, segment ps h l1 e ∧ chain ps e l2.
Proof.
  induction l1 as [|i l1 IH]; intros h; simpl.
  - split; [eauto|by intros (? & -> & ?)].
  - split.
    + intros (-> & n & Hn & (e & He & Hc)%IH). eauto 10.
    + intros (e & (-> & n & Hn & He) & Hc). split; [done|]. exists n.
      split; [done|]. apply IH. eauto.
Qed.

Lemma segment_snoc ps l x : ∀ h e,
  segment ps h (l ++ [x]) e ↔ segment ps h l (Some x) ∧ next_of ps x = Some e.
Proof.
  induction l as [|i l IH]; intros h e; simpl.
  - split; [by intros (-> & n & ? & ->)|intros [-> ?]; eauto].
  - split.
    + intros (-> & n & Hn & [??]%IH). eauto 10.
    + intros [(-> & n & Hn & ?) ?]. split; [done|]. exists n. rewrite IH. auto.
Qed.

Lemma segment_frame ps ps' l e : ∀ h,
  (∀ i, i ∈ l → next_of ps' i = next_of ps i) → segment ps h l e → segment ps' h l e.
Proof.
  induction l as [|i l IH]; intros h Hf H; [done|].
  destruct H as (-> & n & Hn & H). split; [done|]. exists n. split.
  - rewrite Hf; [done|apply list_elem_of_here].
  - apply IH; [|done]. intros j Hj. apply Hf. by apply list_elem_of_further.
Qed.

Lemma get_proc_next i n t :
  next_of (procs t) i = Some n → ∃ p, get_proc i t = Ret p ∧ p_next p = n ∧ procs t !! i = Some p.
Proof.
  unfold next_of, get_proc. intros (p & -> & ->)%fmap_Some. eauto.
Qed.

(** The pointer walk reaches the last element. *)
Lemma list_last_chain t l : ∀ fuel i x,
  chain (procs t) (Some i) (l ++ [x]) → (length l < fuel)%nat →
  list_last fuel i t = Ret x.
Proof.
  induction l as [|j l IH]; intros [|f] i x H Hf; simpl in *; try lia.
  - destruct H as ([= ->] & n & Hn & ->).
    destruct (get_proc_next x None t Hn) as (p & -> & -> & _). done.
  - destruct H as ([= ->] & n & Hn & Hc).
    destruct (get_proc_next j n t Hn) as (p & -> & -> & _).
    destruct n as [n|]; [|by destruct l; simpl in Hc; destruct Hc].
    apply IH; [done|lia].
Qed.

(** Removing [x] from the middle of a chain is redirecting its predecessor. *)
Lemma find_prev_chain t l1 x l2 : ∀ fuel prev h,
  chain (procs t) h (l1 ++ x :: l2) → x ∉ l1 → (length l1 < fuel)%nat →
  find_prev fuel prev h x t = Ret (default prev (last l1)).
Proof.
  induction l1 as [|j l1 IH]; intros [|f] prev h H Hx Hf; simpl in *; try lia.
  - destruct H as (-> & _). simpl. by rewrite Nat.eqb_refl.
  - destruct H as (-> & n & Hn & Hc). simpl.
    apply not_elem_of_cons in Hx as [Hne Hx].
    rewrite (proj2 (Nat.eqb_neq j x)) by done.
    destruct (get_proc_next j n t Hn) as (p & -> & -> & _).
    rewrite (IH f j n) by (done || lia). rewrite (last_cons j l1). by destruct (last l1).
Qed.

Arguments list_last : simpl never.
Arguments find_prev : simpl never.

(** *** Replacing one ready list *)
Lemma chains_insert ps ps' hs rl k h' l' :
  Forall2 (chain ps) hs rl →
  (∀ j l i, j ≠ k → rl !! j = Some l → i ∈ l → next_of ps' i = next_of ps i) →
  chain ps' h' l' →
  Forall2 (chain ps') (<[k := h']> hs) (<[k := l']> rl).
Proof.
  intros HF Hfr Hc. pose proof (Forall2_length _ _ _ HF) as Hlen.
  rewrite Forall2_lookup in HF |- *. intros j. specialize (HF j).
  destruct (decide (k = j)) as [->|Hne].
  - destruct (decide (j < length hs)%nat).
    + rewrite !list_lookup_insert_eq by lia. by constructor.
    + rewrite !lookup_ge_None_2 by (rewrite length_insert; lia). constructor.
  - rewrite !list_lookup_insert_ne by done.
    destruct (rl !! j) as [l|] eqn:Hl; inversion HF; constructor.
    eapply chain_frame; [|done]. eauto.
Qed.

Lemma chains_frame ps ps' hs rl :
  Forall2 (chain ps) hs rl →
  (∀ i, i ∈ concat rl → next_of ps' i = next_of ps i) →
  Forall2 (chain ps') hs rl.
Proof.
  intros HF Hfr. rewrite Forall2_lookup in HF |- *. intros j. specialize (HF j).
  destruct (rl !! j) as [l|] eqn:Hl; inversion HF; constructor.
  eapply chain_frame; [|done]. intros i Hi. apply Hfr, elem_of_concat. eauto.
Qed.

Lemma ready_head_chain t fl rl k l :
  lists_rep t fl rl → rl !! k = Some l → chain (procs t) (ready_head k t) l.
Proof.
  intros (_ & HF & _) Hl. unfold ready_head.
  rewrite Forall2_lookup in HF. specialize (HF k). rewrite Hl in HF.
  inversion HF. done.
Qed.

Lemma upd_proc_eq i p f t :
  procs t !! i = Some p → upd_proc i f t = Ret (set_procs (<[i := f p]> (procs t)) t).
Proof. intros H. unfold upd_proc, get_proc. by rewrite H. Qed.

Lemma erase_insert (ps : list proc) i p v :
  ps !! i = Some p →
  set_next None <$> (<[i := set_next v p]> ps) = set_next None <$> ps.
Proof.
  intros Hi. rewrite list_fmap_insert.
  rewrite list_insert_id; [done|]. by rewrite list_lookup_fmap, Hi.
Qed.

Lemma set_next_eta p : p = set_next (p_next p) (set_next None p).
Proof. by destruct p. Qed.

Lemma same_data_lookup t t' i p :
  same_data t t' → procs t !! i = Some p →
  ∃ n, procs t' !! i = Some (set_next n p).
Proof.
  intros [He _] Hi.
  assert (set_next None <$> procs t' !! i = set_next None <$> procs t !! i) as H
    by (by rewrite <- !list_lookup_fmap, He).
  rewrite Hi in H. apply fmap_Some in H as (q & Hq & H). exists (p_next q).
  rewrite Hq, (set_next_eta q) at 1. by rewrite <- H.
Qed.

Lemma same_data_refl t : same_data t t.
Proof. done. Qed.
Lemma same_data_trans t1 t2 t3 : same_data t1 t2 → same_data t2 t3 → same_data t1 t3.
Proof. intros [H1 H2] [H3 H4]. split; congruence. Qed.

(** *** Refinement of each operation *)
Lemma AddFreeList_rep t fl rl i :
  lists_rep t fl rl → i ∉ fl ++ concat rl → (i < NPROC)%nat →
  ∃ t', AddFreeList (Some i) t = Ret (0, t') ∧ lists_rep t' (i :: fl) rl ∧
        same_data t t'.
Proof.
  intros (Hf & Hr & Hl & Hnd & Hlen) Hi Hb.
  destruct (lookup_lt_is_Some_2 (procs t) i) as [p Hp]; [lia|].
  set (t' := set_procs (<[i := set_next (pFreeList t) p]> (procs t))
               (set_pFreeList (Some i) t)).
  assert (AddFreeList (Some i) t = Ret (0, t')) as Heq.
  { unfold AddFreeList. destruct (pFreeList t) eqn:E;
      rewrite (upd_proc_eq i p) by done; unfold t'; by rewrite ?E. }
  exists t'. split; [done|]. apply not_elem_of_app in Hi as [Hi1 Hi2]. split.
  - split_and!; simpl.
    + split; [done|]. exists (pFreeList t). rewrite next_of_upd, decide_True by done.
      split; [done|]. eapply chain_frame; [|done]. intros j Hj.
      rewrite next_of_upd, decide_False by (done || congruence). done.
    + eapply chains_frame; [done|]. intros j Hj.
      rewrite next_of_upd, decide_False by (done || congruence). done.
    + done.
    + apply NoDup_cons. rewrite not_elem_of_app. done.
    + by rewrite length_insert.
  - split; [|done]. by apply erase_insert.
Qed.

Lemma RemoveFreeList_rep t fl rl :
  lists_rep t fl rl →
  match fl with
  | [] => RemoveFreeList t = Ret (None, t)
  | i :: fl' => ∃ t', RemoveFreeList t = Ret (Some i, t') ∧ lists_rep t' fl' rl ∧
                  procs t' = procs t ∧ TimeToReset t' = TimeToReset t
  end.
Proof.
  intros (Hf & Hr & Hl & Hnd & Hlen). unfold RemoveFreeList.
  destruct fl as [|i fl]; simpl in Hf.
  - by rewrite Hf.
  - destruct Hf as (-> & n & Hn & Hc).
    destruct (get_proc_next i n t Hn) as (p & -> & -> & _).
    eexists. split; [done|]. split; [|done].
    split_and!; simpl; try done. by apply NoDup_cons in Hnd as [_ ?].
Qed.

Lemma lists_rep_lengths t fl rl k l :
  lists_rep t fl rl → rl !! k = Some l → (length l ≤ NPROC)%nat.
Proof.
  intros Hrep Hl. pose proof (ready_head_chain _ _ _ _ _ Hrep Hl) as Hc.
  destruct Hrep as (_ & _ & _ & Hnd & Hlen). apply NoDup_bound.
  - apply NoDup_app_r in Hnd. by eapply NoDup_concat_lookup.
  - intros i Hi. rewrite <- Hlen. by eapply chain_bound.
Qed.

Lemma ready_index_eq z : 0 ≤ z < Z.of_nat NPRIO → ready_index z = Ret (Z.to_nat z).
Proof.
  intros Hz. unfold ready_index.
  by rewrite (proj2 (Z.leb_le 0 z)), (proj2 (Z.ltb_lt z (Z.of_nat NPRIO))) by lia.
Qed.

Lemma insert_head_id t k i :
  pReadyList t !! k = Some i → <[k := ready_head k t]> (pReadyList t) = pReadyList t.
Proof. intros H. apply list_insert_id. unfold ready_head. by rewrite H. Qed.

Lemma lists_rep_heads t fl rl k l :
  lists_rep t fl rl → rl !! k = Some l → pReadyList t !! k = Some (ready_head k t).
Proof.
  intros (_ & HF & _) Hl. unfold ready_head.
  rewrite Forall2_lookup in HF. specialize (HF k). rewrite Hl in HF. inversion HF; done.
Qed.

(** Rebuilding [lists_rep] after ready list [k] changed from [l] to [l']. *)
Lemma lists_rep_update t t' fl rl k l l' :
  lists_rep t fl rl → rl !! k = Some l →
  pFreeList t' = pFreeList t → length (procs t') = NPROC →
  (∀ j, j ∈ fl ++ concat rl → j ∉ l → next_of (procs t') j = next_of (procs t) j) →
  (∃ h', pReadyList t' = <[k := h']> (pReadyList t) ∧ chain (procs t') h' l') →
  NoDup (fl ++ concat (<[k := l']> rl)) →
  lists_rep t' fl (<[k := l']> rl).
Proof.
  intros (Hf & Hr & Hlen & Hnd & Hps) Hl Hfree Hps' Hfr (h' & Hh & Hc) Hnd'.
  assert (∀ j, j ∈ fl → j ∉ l) as Hdj.
  { intros j Hj Hjl. apply list.NoDup_app in Hnd as (_ & Hd & _).
    eapply Hd; [done|]. apply elem_of_concat. eauto. }
  split_and!; [| |by rewrite length_insert|done|done].
  - rewrite Hfree. eapply chain_frame; [|done]. intros j Hj.
    apply Hfr; [apply elem_of_app; by left|auto].
  - rewrite Hh. eapply chains_insert; [done| |done]. intros j lj i Hne Hj Hi.
    apply Hfr.
    + apply elem_of_app. right. apply elem_of_concat. eauto.
    + apply NoDup_app_r in Hnd. by eapply NoDup_concat_disjoint.
Qed.

Lemma NoDup_insert_snoc fl (rl : list (list nat)) k l i :
  NoDup (fl ++ concat rl) → rl !! k = Some l → i ∉ fl ++ concat rl →
  NoDup (fl ++ concat (<[k := l ++ [i]]> rl)).
Proof.
  intros Hnd Hl Hi.
  assert (concat (<[k := l ++ [i]]> rl) ≡ₚ i :: concat rl) as ->.
  { apply (Permutation_app_inv_l l). rewrite concat_insert_perm by done.
    by rewrite <- app_assoc. }
  rewrite <- Permutation_middle. by apply NoDup_cons.
Qed.

Lemma NoDup_insert_remove fl (rl : list (list nat)) k l1 i l2 :
  NoDup (fl ++ concat rl) → rl !! k = Some (l1 ++ i :: l2) →
  NoDup (fl ++ concat (<[k := l1 ++ l2]> rl)) ∧ i ∉ fl ++ concat (<[k := l1 ++ l2]> rl).
Proof.
  intros Hnd Hl.
  assert (concat rl ≡ₚ i :: concat (<[k := l1 ++ l2]> rl)) as Hp.
  { apply (Permutation_app_inv_l (l1 ++ l2)). rewrite <- (concat_insert_perm _ _ _ (l1 ++ l2) Hl).
    rewrite <- (Permutation_middle l1 l2 i), <- Permutation_middle. done. }
  rewrite Hp, <- Permutation_middle in Hnd. apply NoDup_cons in Hnd as [??]. done.
Qed.

(** Linking [i] behind the last element [x] of a chain. *)
Lemma chain_snoc ps h l x px i p :
  chain ps h (l ++ [x]) → NoDup (l ++ [x]) → i ∉ l ++ [x] →
  ps !! i = Some p → <[i := set_next None p]> ps !! x = Some px →
  chain (<[x := set_next (Some i) px]> (<[i := set_next None p]> ps)) h ((l ++ [x]) ++ [i]).
Proof.
  intros (e & Hseg & (-> & _))%chain_split Hnd Hi Hp Hx. rewrite <- app_assoc.
  assert (x ≠ i) by set_solver. apply list.NoDup_app in Hnd as (_ & Hd & _).
  apply chain_split. exists (Some x). split.
  - eapply segment_frame; [|done]. intros j Hj.
    assert (j ≠ x) by (intros ->; eapply Hd; [done|apply list_elem_of_here]).
    rewrite next_of_upd, decide_False by done.
    rewrite next_of_upd, decide_False by (done || set_solver). done.
  - split; [done|]. exists (Some i). rewrite next_of_upd, decide_True by done.
    split; [done|]. split; [done|]. exists None.
    rewrite next_of_upd, decide_False by done. by rewrite next_of_upd, decide_True.
Qed.

Lemma AddReadyList_rep t fl rl i p l :
  lists_rep t fl rl → procs t !! i = Some p →
  p_state p = RUNNABLE → 0 ≤ p_priority p < Z.of_nat NPRIO →
  rl !! Z.to_nat (p_priority p) = Some l → i ∉ fl ++ concat rl →
  ∃ t', AddReadyList i t = Ret (0, t') ∧
    lists_rep t' fl (<[Z.to_nat (p_priority p) := l ++ [i]]> rl) ∧ same_data t t'.
Proof.
  intros Hrep Hp Hst Hpr Hl Hi. set (k := Z.to_nat (p_priority p)) in *.
  pose proof (ready_head_chain _ _ _ _ _ Hrep Hl) as Hc.
  pose proof (lists_rep_heads _ _ _ _ _ Hrep Hl) as Hh.
  pose proof (lists_rep_lengths _ _ _ _ _ Hrep Hl) as Hln.
  pose proof Hrep as (_ & _ & _ & Hnd & Hps).
  assert (i ∉ l) as Hil.
  { intros H. apply Hi, elem_of_app. right. apply elem_of_concat. eauto. }
  unfold AddReadyList, get_proc. rewrite Hp.
  rewrite bool_decide_eq_true_2 by done. simpl. rewrite ready_index_eq by done. fold k.
  destruct l as [|x l _] using rev_ind.
  - simpl in Hc. rewrite Hc. rewrite (upd_proc_eq i p) by done.
    eexists. split; [done|]. split; [|split; [by apply erase_insert|done]].
    apply (lists_rep_update t _ fl rl k []); try done; simpl.
    + by rewrite length_insert.
    + intros j Hj _. rewrite next_of_upd, decide_False by (done || congruence). done.
    + exists (Some i). split; [done|]. split; [done|]. exists None.
      by rewrite next_of_upd, decide_True.
    + by apply (NoDup_insert_snoc fl rl k [] i).
  - rewrite length_app in Hln. simpl in Hln.
    assert (∃ temp, ready_head k t = Some temp) as [temp Htemp].
    { destruct l; simpl in Hc; destruct Hc as [-> _]; eauto. }
    rewrite Htemp. rewrite (list_last_chain t l NPROC temp x) by
      (rewrite <- ?Htemp; done || lia).
    assert (x ≠ i) as Hxi by (intros ->; apply Hil, elem_of_app; right; apply list_elem_of_here).
    pose proof Hc as (e & Hseg & (-> & n & Hn & _))%chain_split.
    destruct (get_proc_next x n t Hn) as (px & _ & _ & Hx).
    rewrite (upd_proc_eq i p) by done.
    rewrite (upd_proc_eq x px) by (simpl; by rewrite list_lookup_insert_ne).
    eexists. split; [done|].
    assert (<[i:=set_next None p]> (procs t) !! x = Some px) as Hx'
      by (by rewrite list_lookup_insert_ne).
    split; [|split; [simpl; by rewrite !erase_insert|done]].
    apply (lists_rep_update t _ fl rl k (l ++ [x])); try done; simpl.
    + by rewrite !length_insert.
    + intros j Hj Hjl. rewrite next_of_upd, decide_False by (set_solver || done).
      rewrite next_of_upd, decide_False by (set_solver || done). done.
    + exists (Some temp). split; [by rewrite <- Htemp, (insert_head_id t k _ Hh)|].
      rewrite <- Htemp. apply chain_snoc; try done. apply NoDup_app_r in Hnd.
      by eapply NoDup_concat_lookup.
    + by apply NoDup_insert_snoc.
Qed.

(** Unlinking the element after [prev]. *)
Lemma chain_unlink ps h l1 prev i l2 pp n :
  chain ps h ((l1 ++ [prev]) ++ i :: l2) → NoDup ((l1 ++ [prev]) ++ i :: l2) →
  ps !! prev = Some pp → next_of ps i = Some n →
  chain (<[prev := set_next n pp]> ps) h ((l1 ++ [prev]) ++ l2).
Proof.
  intros (e & [Hseg Hprev]%segment_snoc & (-> & n' & Hn' & Hc))%chain_split Hnd Hpp Hn.
  rewrite Hn in Hn'. injection Hn' as <-.
  rewrite <- app_assoc in Hnd. apply list.NoDup_app in Hnd as (_ & Hd & Hnd').
  simpl in Hd, Hnd'. apply NoDup_cons in Hnd' as [Hp2 _].
  apply chain_split. exists n. split.
  - apply segment_snoc. split.
    + eapply segment_frame; [|done]. intros j Hj.
      rewrite next_of_upd, decide_False; [done| |done].
      intros <-. eapply Hd; [done|apply list_elem_of_here].
    + by rewrite next_of_upd, decide_True.
  - eapply chain_frame; [|done]. intros j Hj.
    rewrite next_of_upd, decide_False; [done|set_solver|done].
Qed.

Lemma RemoveReadyList_rep t fl rl i p l1 l2 :
  lists_rep t fl rl → procs t !! i = Some p → 0 ≤ p_priority p < Z.of_nat NPRIO →
  rl !! Z.to_nat (p_priority p) = Some (l1 ++ i :: l2) →
  ∃ t', RemoveReadyList i t = Ret (0, t') ∧
    lists_rep t' fl (<[Z.to_nat (p_priority p) := l1 ++ l2]> rl) ∧ same_data t t'.
Proof.
  intros Hrep Hp Hpr Hl. set (k := Z.to_nat (p_priority p)) in *.
  pose proof (ready_head_chain _ _ _ _ _ Hrep Hl) as Hc.
  pose proof (lists_rep_heads _ _ _ _ _ Hrep Hl) as Hh.
  pose proof (lists_rep_lengths _ _ _ _ _ Hrep Hl) as Hln.
  pose proof Hrep as (_ & _ & _ & Hnd & Hps).
  assert (NoDup (l1 ++ i :: l2)) as Hndl
    by (apply NoDup_app_r in Hnd; by eapply NoDup_concat_lookup).
  destruct (NoDup_insert_remove fl rl k l1 i l2 Hnd Hl) as [Hnd' _].
  unfold RemoveReadyList. unfold get_proc at 1. rewrite Hp, ready_index_eq by done. fold k.
  destruct l1 as [|h l1]; simpl in Hc.
  - (* the first element *)
    destruct Hc as (Hhd & n & Hn & Hc). rewrite Hhd.
    destruct (get_proc_next i n t Hn) as (p' & -> & Hpn & Hp').
    rewrite Hp in Hp'. injection Hp' as <-. rewrite Hpn, Nat.eqb_refl.
    exists (set_ready_head k n t). split; [by destruct n|]. split; [|done].
    apply (lists_rep_update t _ fl rl k ([] ++ i :: l2)); try done; simpl. eauto.
  - (* a later element *)
    destruct Hc as (Hhd & n & Hn & Hc). rewrite Hhd.
    destruct (get_proc_next h n t Hn) as (ph & -> & -> & _).
    assert (∃ n', n = Some n') as [n' ->].
    { destruct l1; simpl in Hc; destruct Hc as [-> _]; eauto. }
    simpl in Hndl. apply NoDup_cons in Hndl as [Hhl Hndl'].
    rewrite (proj2 (Nat.eqb_neq h i)) by (intros ->; apply Hhl; set_solver).
    rewrite (find_prev_chain t l1 i l2) by
      (done || (simpl in Hln; rewrite length_app in Hln; simpl in Hln; lia) ||
       (apply list.NoDup_app in Hndl' as (_ & Hd & _); intros H; eapply Hd;
        [done|apply list_elem_of_here])).
    assert (∃ l0, h :: l1 = l0 ++ [default h (last l1)]) as [l0 Hl0].
    { destruct l1 as [|x l1 _] using rev_ind; [by exists []|].
      rewrite last_snoc. by exists (h :: l1). }
    set (prev := default h (last l1)) in *.
    assert (chain (procs t) (ready_head k t) ((l0 ++ [prev]) ++ i :: l2)) as Hc2.
    { rewrite <- Hl0, Hhd. simpl. eauto. }
    pose proof Hc2 as (e & [_ Hpv]%segment_snoc & (-> & ni & Hni & _))%chain_split.
    destruct (get_proc_next prev _ t Hpv) as (pp & _ & _ & Hpp).
    unfold get_proc. rewrite Hp. rewrite (upd_proc_eq prev pp) by done.
    eexists. split; [done|].
    assert (next_of (procs t) i = Some (p_next p)) as Hni' by (unfold next_of; by rewrite Hp).
    split; [|split; [by apply erase_insert|done]].
    rewrite Hl0 in *.
    apply (lists_rep_update t _ fl rl k ((l0 ++ [prev]) ++ i :: l2)); try done; simpl.
    + by rewrite length_insert.
    + intros j Hj Hjl. rewrite next_of_upd, decide_False; [done|set_solver|done].
    + exists (ready_head k t). split; [by rewrite (insert_head_id t k _ Hh)|].
      eapply chain_unlink; try done. rewrite <- Hl0. by apply NoDup_cons.
Qed.

Lemma chain_head ps h l : chain ps h l → h = head l.
Proof. destruct l; simpl; [done|by intros [-> _]]. Qed.

Lemma GetReady_rep t fl rl : lists_rep t fl rl → GetReady t = head (concat rl).
Proof.
  intros Hrep. pose proof Hrep as (_ & _ & Hlen & _).
  destruct rl as [|r0 [|r1 [|r2 [|]]]]; try done. unfold GetReady.
  rewrite (chain_head _ _ _ (ready_head_chain t fl _ 0 r0 Hrep eq_refl)).
  rewrite (chain_head _ _ _ (ready_head_chain t fl _ 1 r1 Hrep eq_refl)).
  rewrite (chain_head _ _ _ (ready_head_chain t fl _ 2 r2 Hrep eq_refl)).
  by destruct r0, r1, r2.
Qed.

(** Moving the whole list [lk] behind [l1]: the table after linking. *)
Lemma splice_rep t t' fl rl k l1 lk :
  lists_rep t fl rl → k ≠ 1%nat → rl !! 1%nat = Some l1 → rl !! k = Some lk →
  pFreeList t' = pFreeList t → length (procs t') = NPROC →
  (∀ j, j ∉ l1 → next_of (procs t') j = next_of (procs t) j) →
  (∃ h, pReadyList t' = <[k := None]> (<[1%nat := h]> (pReadyList t)) ∧
        chain (procs t') h (l1 ++ lk)) →
  lists_rep t' fl (<[k := []]> (<[1%nat := l1 ++ lk]> rl)).
Proof.
  intros (Hf & Hr & Hlen & Hnd & Hps) Hk H1 Hlk Hfree Hps' Hfr (h & Hh & Hc).
  pose proof (NoDup_app_r _ _ Hnd) as Hndc.
  assert (concat (<[k := []]> (<[1%nat := l1 ++ lk]> rl)) ≡ₚ concat rl) as Hperm.
  { apply (Permutation_app_inv_l (l1 ++ lk)).
    rewrite <- (concat_insert_perm rl 1 l1 (l1 ++ lk)) at 1 by done.
    rewrite <- app_assoc. apply Permutation_app_head.
    by rewrite (concat_insert_perm _ k lk []) by (by rewrite list_lookup_insert_ne). }
  split_and!; [| |by rewrite !length_insert|by rewrite Hperm|done].
  - rewrite Hfree. eapply chain_frame; [|done]. intros j Hj. apply Hfr. intros Hj1.
    apply list.NoDup_app in Hnd as (_ & Hd & _). eapply Hd; [done|].
    apply elem_of_concat. eauto.
  - rewrite Hh. eapply chains_insert; [|done|done].
    eapply chains_insert; [done| |done]. intros j l i Hj Hl Hi. apply Hfr.
    by eapply NoDup_concat_disjoint.
Qed.

Lemma chain_join ps h l x px h2 l2 :
  chain ps h (l ++ [x]) → chain ps h2 l2 → NoDup ((l ++ [x]) ++ l2) → ps !! x = Some px →
  chain (<[x := set_next h2 px]> ps) h ((l ++ [x]) ++ l2).
Proof.
  intros (e & Hseg & (-> & _))%chain_split Hc2 Hnd Hx. rewrite <- app_assoc in *.
  apply list.NoDup_app in Hnd as (_ & Hd & Hnd). simpl in Hd, Hnd.
  apply NoDup_cons in Hnd as [Hx2 _].
  apply chain_split. exists (Some x). split.
  - eapply segment_frame; [|done]. intros j Hj. rewrite next_of_upd, decide_False; [done| |done].
    intros <-. eapply Hd; [done|apply list_elem_of_here].
  - split; [done|]. exists h2. rewrite next_of_upd, decide_True by done. split; [done|].
    eapply chain_frame; [|done]. intros j Hj.
    rewrite next_of_upd, decide_False; [done|by intros <-|done].
Qed.

Lemma splice_to_1_rep t fl rl k l1 lk :
  lists_rep t fl rl → k ≠ 1%nat → rl !! 1%nat = Some l1 → rl !! k = Some lk →
  ∃ t', splice_to_1 k t = Ret t' ∧
    lists_rep t' fl (<[k := []]> (<[1%nat := l1 ++ lk]> rl)) ∧ same_data t t'.
Proof.
  intros Hrep Hk H1 Hlk.
  pose proof (ready_head_chain _ _ _ _ _ Hrep Hlk) as Hck.
  pose proof (ready_head_chain _ _ _ _ _ Hrep H1) as Hc1.
  pose proof (lists_rep_heads _ _ _ _ _ Hrep H1) as Hh1.
  pose proof (lists_rep_lengths _ _ _ _ _ Hrep H1) as Hln.
  pose proof Hrep as (_ & _ & _ & Hnd & Hps). unfold splice_to_1.
  destruct lk as [|h lk].
  { simpl in Hck. rewrite Hck. exists t. split; [done|]. split; [|done].
    rewrite app_nil_r, (list_insert_id _ 1), list_insert_id by done. done. }
  destruct (Hck) as [Hhd _]. rewrite Hhd.
  destruct l1 as [|x l1 _] using rev_ind.
  - simpl in Hc1. rewrite Hc1. eexists. split; [done|]. split; [|done].
    apply (splice_rep t _ fl rl k []); try done. exists (Some h). split; [done|].
    simpl app. by rewrite <- Hhd.
  - rewrite length_app in Hln. simpl in Hln.
    assert (∃ temp, ready_head 1 t = Some temp) as [temp Htemp].
    { destruct l1; simpl in Hc1; destruct Hc1 as [-> _]; eauto. }
    rewrite Htemp, (list_last_chain t l1 NPROC temp x) by (rewrite <- ?Htemp; done || lia).
    pose proof Hc1 as (e & _ & (-> & n & Hn & _))%chain_split.
    destruct (get_proc_next x n t Hn) as (px & _ & _ & Hx).
    rewrite (upd_proc_eq x px) by done. eexists. split; [done|].
    split; [|split; [by apply erase_insert|done]].
    apply (splice_rep t _ fl rl k (l1 ++ [x])); try done; simpl.
    + by rewrite length_insert.
    + intros j Hj. rewrite next_of_upd, decide_False; [done|set_solver|done].
    + exists (ready_head 1 t). split; [by rewrite (insert_head_id t 1 _ Hh1)|].
      rewrite <- Hhd. apply chain_join; try done.
      apply NoDup_app_r in Hnd. apply list.NoDup_app. split_and!.
      * by eapply NoDup_concat_lookup.
      * intros i Hi Hi2. by apply (NoDup_concat_disjoint rl k 1 (h :: lk) (l1 ++ [x]) i Hnd Hlk H1 Hk Hi2).
      * by eapply NoDup_concat_lookup.
Qed.

Lemma lists_rep_priority t fl rl v :
  lists_rep t fl rl → lists_rep (set_procs (set_priority v <$> procs t) t) fl rl.
Proof.
  intros (Hf & Hr & Hlen & Hnd & Hps).
  assert (∀ i, next_of (set_priority v <$> procs t) i = next_of (procs t) i) as Hn.
  { intros i. unfold next_of. rewrite list_lookup_fmap. by destruct (procs t !! i). }
  split_and!; simpl; [| |done|done|by rewrite length_fmap].
  - eapply chain_frame; [|done]. intros; apply Hn.
  - eapply chains_frame; [done|]. intros; apply Hn.
Qed.

Lemma ResetPriority_rep t fl r0 r1 r2 :
  lists_rep t fl [r0; r1; r2] →
  ∃ t', ResetPriority t = Ret t' ∧ lists_rep t' fl [[]; r1 ++ r0 ++ r2; []] ∧
        same_data (set_procs (set_priority 1 <$> procs t) t) t'.
Proof.
  intros Hrep%(lists_rep_priority _ _ _ 1). unfold ResetPriority.
  destruct (splice_to_1_rep _ fl _ 0 r1 r0 Hrep) as (t1 & -> & Hrep1 & Hs1); [done..|].
  destruct (splice_to_1_rep _ fl _ 2 (r1 ++ r0) r2 Hrep1) as (t2 & -> & Hrep2 & Hs2); [done..|].
  exists t2. split; [done|]. split; [|by eapply same_data_trans].
  simpl in Hrep2. by rewrite <- app_assoc in Hrep2.
Qed.

Lemma same_data_attr t t' : same_data t t' → attr <$> procs t' = attr <$> procs t.
Proof.
  intros [H _]. assert (∀ l : list proc, attr <$> l = attr <$> (set_next None <$> l)) as E.
  { intros l. rewrite <- list_fmap_compose. by apply list_fmap_ext. }
  by rewrite (E (procs t')), (E (procs t)), H.
Qed.

Lemma filter_ne_split (i : nat) l1 l2 :
  NoDup (l1 ++ i :: l2) → filter (λ j, j ≠ i) (l1 ++ i :: l2) = l1 ++ l2.
Proof.
  intros (_ & Hd & (Hi & _)%NoDup_cons)%list.NoDup_app.
  assert (∀ l : list nat, i ∉ l → filter (λ j, j ≠ i) l = l) as Hf.
  { induction l as [|x l IH]; intros Hl; [done|].
    apply not_elem_of_cons in Hl as [Hx Hl].
    rewrite filter_cons, decide_True by done. by rewrite IH. }
  rewrite filter_app, filter_cons_False by (by intros ?).
  rewrite (Hf l2) by done. rewrite (Hf l1); [done|].
  intros H. eapply Hd; [done|apply list_elem_of_here].
Qed.

Lemma upd_proc_rep t fl rl i p f :
  lists_rep t fl rl → procs t !! i = Some p → p_next (f p) = p_next p →
  ∃ t', upd_proc i f t = Ret t' ∧ lists_rep t' fl rl ∧
        t' = set_procs (<[i := f p]> (procs t)) t.
Proof.
  intros (Hf & Hr & Hlen & Hnd & Hps) Hp Hn. rewrite (upd_proc_eq i p) by done.
  eexists. split; [done|]. split; [|done].
  assert (∀ j, next_of (<[i := f p]> (procs t)) j = next_of (procs t) j)
    by (intros j; by eapply next_of_upd_data).
  split_and!; simpl; [eapply chain_frame; eauto|eapply chains_frame; eauto|done|done|].
  by rewrite length_insert.
Qed.

Lemma attr_lookup t q i a :
  queues_rep t q → q_attr q !! i = Some a →
  ∃ p, procs t !! i = Some p ∧ a = (p_state p, p_priority p).
Proof.
  intros [_ ->] H. rewrite list_lookup_fmap in H.
  destruct (procs t !! i) as [p|]; simplify_eq/=. eauto.
Qed.

Lemma prio_ok_spec v : prio_ok v = true ↔ (0 ≤ v < Z.of_nat NPRIO).
Proof. unfold prio_ok. bool_to_prop. lia. Qed.

Lemma q_unqueued_spec t q i :
  queues_rep t q → q_unqueued i q = true →
  (i ∉ q_free q ++ concat (q_ready q)) ∧ (i < NPROC)%nat.
Proof.
  intros [(_ & _ & _ & _ & Hps) Ha] H. unfold q_unqueued in H.
  apply andb_prop in H as [H1%negb_true_iff H2%Nat.ltb_lt].
  rewrite Ha, length_fmap in H2. split; [|lia].
  by rewrite <- nat_mem_spec, H1.
Qed.

(** One abstract step is one step of the table, with the same reply. *)
Lemma step_refines o t q r q' :
  queues_rep t q → q_step o q = Some (r, q') →
  ∃ t', c_step o t = Ret (r, t') ∧ queues_rep t' q'.
Proof.
  intros HR H. pose proof HR as [Hrep Ha].
  destruct o as [i| |i|i| | |i s|i v]; cbn [q_step] in H; cbn [c_step].
  - destruct (q_unqueued i q) eqn:Hu; simplify_eq.
    destruct (q_unqueued_spec _ _ _ HR Hu) as [Hi Hlt].
    destruct (AddFreeList_rep _ _ _ _ Hrep Hi Hlt) as (t' & -> & Hrep' & Hs).
    exists t'. split; [done|]. split; [done|]. by rewrite (same_data_attr _ _ Hs).
  - simplify_eq. pose proof (RemoveFreeList_rep _ _ _ Hrep) as Hrm.
    destruct (q_free q) as [|i fl] eqn:Hfl.
    + rewrite Hrm. exists t. split; [done|]. split; [done|done].
    + destruct Hrm as (t' & -> & Hrep' & Hps & _). exists t'. split; [done|].
      split; [done|]. simpl. by rewrite Hps.
  - destruct (q_attr q !! i) as [[s v]|] eqn:Hi; [|done]. simpl in H.
    destruct (attr_lookup _ _ _ _ HR Hi) as (p & Hp & [= -> ->]).
    case_bool_decide as Hst; simpl in H.
    + destruct (prio_ok _) eqn:Hv; [|done]. destruct (q_unqueued i q) eqn:Hu; [|done].
      simpl in H. destruct (q_ready q !! _) as [l|] eqn:Hl; simplify_eq/=.
      apply prio_ok_spec in Hv. destruct (q_unqueued_spec _ _ _ HR Hu) as [Hq _].
      destruct (AddReadyList_rep _ _ _ _ _ _ Hrep Hp Hst Hv Hl Hq) as (t' & -> & Hrep' & Hs).
      exists t'. split; [done|]. split; [done|]. by rewrite (same_data_attr _ _ Hs).
    + simplify_eq. exists t. unfold AddReadyList, get_proc. rewrite Hp. simpl.
      rewrite bool_decide_eq_false_2 by done. done.
  - destruct (q_attr q !! i) as [[s v]|] eqn:Hi; [|done]. simpl in H.
    destruct (attr_lookup _ _ _ _ HR Hi) as (p & Hp & [= -> ->]).
    destruct (q_ready q !! _) as [l|] eqn:Hl; [|done]. simpl in H.
    destruct (prio_ok _) eqn:Hv; [|done]. apply prio_ok_spec in Hv.
    destruct (nat_mem i l) eqn:Hil; [|done]. apply nat_mem_spec in Hil.
    simplify_eq/=.
    apply list_elem_of_split in Hil as (l1 & l2 & ->).
    destruct (RemoveReadyList_rep _ _ _ _ _ _ _ Hrep Hp Hv Hl) as (t' & -> & Hrep' & Hs).
    exists t'. split; [done|]. rewrite filter_ne_split.
    + split; [done|]. by rewrite (same_data_attr _ _ Hs).
    + destruct Hrep as (_ & _ & _ & Hnd & _). eapply NoDup_concat_lookup; [|done].
      by eapply NoDup_app_r.
  - simplify_eq. exists t. by rewrite (GetReady_rep _ _ _ Hrep).
  - destruct (q_ready q) as [|r0 [|r1 [|r2 [|]]]] eqn:Hr; try done. simplify_eq.
    destruct (ResetPriority_rep _ _ _ _ _ Hrep) as (t' & -> & Hrep' & Hs).
    exists t'. split; [done|]. split; [done|]. rewrite (same_data_attr _ _ Hs). simpl.
    rewrite Ha, <- !list_fmap_compose. by apply list_fmap_ext.
  - destruct (q_attr q !! i) as [[s0 v]|] eqn:Hi; [|done]. simplify_eq/=.
    destruct (attr_lookup _ _ _ _ HR Hi) as (p & Hp & [= -> ->]).
    destruct (upd_proc_rep _ _ _ _ _ (set_state s) Hrep Hp eq_refl) as (t' & -> & Hrep' & ->).
    eexists. split; [done|]. split; [done|]. simpl. by rewrite list_fmap_insert, Ha.
  - destruct (q_attr q !! i) as [[s0 v0]|] eqn:Hi; [|done]. simpl in H.
    destruct (q_unqueued i q); simplify_eq.
    destruct (attr_lookup _ _ _ _ HR Hi) as (p & Hp & [= -> ->]).
    destruct (upd_proc_rep _ _ _ _ _ (set_priority v) Hrep Hp eq_refl) as (t' & -> & Hrep' & ->).
    eexists. split; [done|]. split; [done|]. simpl. by rewrite list_fmap_insert, Ha.
Qed.

(** Claim C12.  The linked lists of proc.c implement the abstract queues: from
    a table that represents the queues, every sequence of list operations and
    state or priority changes that the queues allow runs to completion on the
    table (no null or wild pointer is followed and no loop runs off its list),
    returns the same results, and ends in a table that represents the final
    queues.  In particular [GetReady] returns the oldest process of the best
    non-empty priority and [ResetPriority] gathers the lists in the order
    1, 0, 2. *)
Theorem lists_implement_queues os : ∀ t q rs q',
  queues_rep t q → q_run os q = Some (rs, q') →
  ∃ t', c_run os t = Ret (rs, t') ∧ queues_rep t' q'.
Proof.
  induction os as [|o os IH]; intros t q rs q' HR H; simpl in H; simplify_eq.
  { by exists t. }
  destruct (q_step o q) as [[r q1]|] eqn:Ho; [|done]. simpl in H.
  destruct (step_refines _ _ _ _ _ HR Ho) as (t1 & Hc & HR1).
  destruct (q_run os q1) as [[rs1 q2]|] eqn:Hos; [|done]. simplify_eq/=.
  destruct (IH _ _ _ _ HR1 Hos) as (t2 & Hc2 & HR2).
  exists t2. by rewrite Hc, Hc2.
Qed.

Lemma queues_rep0 : queues_rep pt0 q0.
Proof.
  split; [|done]. split_and!; [done|by repeat constructor|done|constructor|done].
Qed.

Lemma lists_implement_queues_witness :
  ∃ t',
    c_run [QAddFree 7; QAddFree 5; QRemoveFree; QSetState 5 RUNNABLE; QAddReady 5;
           QRemoveFree; QSetState 7 RUNNABLE; QSetPriority 7 2; QAddReady 7; QReset;
           QGetReady; QRemoveReady 5; QGetReady] pt0 =
      Ret ([RInt 0; RInt 0; RPtr (Some 5%nat); RInt 0; RInt 0; RPtr (Some 7%nat); RInt 0;
            RInt 0; RInt 0; RInt 0; RPtr (Some 5%nat); RInt 0; RPtr (Some 7%nat)], t') ∧
    q_ready q0 = [[]; []; []].
Proof.
  set (os := [QAddFree 7; QAddFree 5; _; _; _; _; _; _; _; _; _; _; _]).
  assert (∃ rs q', q_run os q0 = Some (rs, q') ∧
            rs = [RInt 0; RInt 0; RPtr (Some 5%nat); RInt 0; RInt 0; RPtr (Some 7%nat); RInt 0;
            RInt 0; RInt 0; RInt 0; RPtr (Some 5%nat); RInt 0; RPtr (Some 7%nat)])
    as (rs & q' & Hq & ->) by (vm_compute; eauto).
  destruct (lists_implement_queues os pt0 q0 _ q' queues_rep0 Hq) as (t' & H & _).
  exists t'. split; [exact H|reflexivity].
Defined.
