(* ===== verification/ProcOps.v ===== *)
(** * Processes (proc.c) on a machine with several CPUs

    Every function of proc.c that is not a list operation of Proc.v, and
    switchuvm and switchkvm of vm.c, as computations on the state of the
    kernel, run by CPU [me].

    A context switch is where a kernel stack is left: the part of a function
    before [swtch] and the part after it are two definitions, and what the
    part after it still needs (the saved [intena], the lock of [sleep]) is
    kept in a [kont] per process, which stands for the saved kernel stack.

    The file system is used through the class [FileOps]; the pages of a
    process through Vm.v and Kalloc.v. *)
From S2P Require Import Prelude Machine Spinlock CString Kalloc Vm Proc.

Open Scope Z_scope.

(** What proc.c uses of file.c, fs.c and log.c, on a file-system state [W]. *)
Class FileOps (W : Type) := {
  fo_filedup : Z → M W Z;
  fo_fileclose : Z → M W unit;
  fo_idup : Z → M W Z;
  fo_iput : Z → M W unit;
  fo_begin_op : M W unit;
  fo_end_op : M W unit;
  fo_namei_root : M W Z;
  (** [iinit(ROOTDEV); initlog(ROOTDEV);] *)
  fo_init : M W unit }.

(** Locks are named by their index; the first one is [ptable.lock]. *)
Definition PTABLE_LOCK : nat := 0.

(** The kernel stack of a process that is not running: where [swtch] will
    return to. *)
Inductive kont :=
| KForkret                          (* the stack allocproc builds *)
| KYield (intena : Z)               (* in sched, called by yield *)
| KSleep (intena : Z) (lk : nat)    (* in sched, called by sleep(_, lk) *)
| KExit (intena : Z).               (* in sched, called by exit *)

Record kstate (W : Type) := mkK {
  k_cpus : list cpu;
  k_locks : list spinlock;
  k_pt : ptable;
  k_konts : list kont;
  k_initproc : option nat;
  k_nextpid : Z;
  k_first : Z;
  k_kpgdir : Z;
  k_km : kmem;
  k_w : W }.
Arguments mkK {W}.
Arguments k_cpus {W}.
Arguments k_locks {W}.
Arguments k_pt {W}.
Arguments k_konts {W}.
Arguments k_initproc {W}.
Arguments k_nextpid {W}.
Arguments k_first {W}.
Arguments k_kpgdir {W}.
Arguments k_km {W}.
Arguments k_w {W}.

(** [s] with one field replaced. *)
Definition with_cpus {W} (v : list cpu) (s : kstate W) : kstate W :=
  mkK v (k_locks s) (k_pt s) (k_konts s) (k_initproc s) (k_nextpid s) (k_first s)
    (k_kpgdir s) (k_km s) (k_w s).
Definition with_locks {W} (v : list spinlock) (s : kstate W) : kstate W :=
  mkK (k_cpus s) v (k_pt s) (k_konts s) (k_initproc s) (k_nextpid s) (k_first s)
    (k_kpgdir s) (k_km s) (k_w s).
Definition with_pt {W} (v : ptable) (s : kstate W) : kstate W :=
  mkK (k_cpus s) (k_locks s) v (k_konts s) (k_initproc s) (k_nextpid s) (k_first s)
    (k_kpgdir s) (k_km s) (k_w s).
Definition with_konts {W} (v : list kont) (s : kstate W) : kstate W :=
  mkK (k_cpus s) (k_locks s) (k_pt s) v (k_initproc s) (k_nextpid s) (k_first s)
    (k_kpgdir s) (k_km s) (k_w s).
Definition with_initproc {W} (v : option nat) (s : kstate W) : kstate W :=
  mkK (k_cpus s) (k_locks s) (k_pt s) (k_konts s) v (k_nextpid s) (k_first s)
    (k_kpgdir s) (k_km s) (k_w s).
Definition with_nextpid {W} (v : Z) (s : kstate W) : kstate W :=
  mkK (k_cpus s) (k_locks s) (k_pt s) (k_konts s) (k_initproc s) v (k_first s)
    (k_kpgdir s) (k_km s) (k_w s).
Definition with_first {W} (v : Z) (s : kstate W) : kstate W :=
  mkK (k_cpus s) (k_locks s) (k_pt s) (k_konts s) (k_initproc s) (k_nextpid s) v
    (k_kpgdir s) (k_km s) (k_w s).
Definition with_km {W} (v : kmem) (s : kstate W) : kstate W :=
  mkK (k_cpus s) (k_locks s) (k_pt s) (k_konts s) (k_initproc s) (k_nextpid s) (k_first s)
    (k_kpgdir s) v (k_w s).
Definition with_w {W} (v : W) (s : kstate W) : kstate W :=
  mkK (k_cpus s) (k_locks s) (k_pt s) (k_konts s) (k_initproc s) (k_nextpid s) (k_first s)
    (k_kpgdir s) (k_km s) v.

(** Offsets in [struct trapframe] and [struct context]. *)
Definition sizeof_trapframe : Z := 76.
Definition sizeof_context : Z := 20.
Definition tf_eax : Z := 28.
Definition tf_es : Z := 40.
Definition tf_ds : Z := 44.
Definition tf_eip : Z := 56.
Definition tf_cs : Z := 60.
Definition tf_eflags : Z := 64.
Definition tf_esp : Z := 68.
Definition tf_ss : Z := 72.
Definition context_eip : Z := 16.

Definition store16 (m : mem) (a v : Z) : mem :=
  store8 (store8 m a (u8 v)) (a + 1) (u8 (Z.shiftr v 8)).
Definition load16 (m : mem) (a : Z) : Z := m a + 2 ^ 8 * m (a + 1).

(** [struct uproc]; the strings are the 16 bytes of the arrays. *)
Record uproc := mkU {
  u_pid : Z; u_uid : Z; u_gid : Z; u_ppid : Z; u_priority : Z;
  u_state : list Z; u_size : Z; u_name : list Z }.

(** A C string with its terminating zero. *)
Definition cbytes (s : string) : list Z :=
  (λ a, Z.of_nat (Ascii.nat_of_ascii a)) <$> String.list_ascii_of_string s.
Definition cstring (s : string) : list Z := cbytes s ++ [0].

(** [safestrcpy(dst, src, sizeof(dst))] between two arrays: [dst] is placed at
    address 0 and [src] right behind it. *)
Definition array_safestrcpy (dst src : list Z) : list Z :=
  let n := length dst in
  let m := λ a, default 0 ((dst ++ src) !! Z.to_nat a) in
  bytes_at (safestrcpy m 0 (Z.of_nat n) (Z.of_nat n)) 0 n.

Section Ops.
Context {W : Type} `{FileOps W}.
(** [end] and [data] of kernel.ld, the addresses of the assembly routines
    [forkret] and [trapret], and the initcode program linked into the kernel. *)
Context (kend data forkret_addr trapret_addr : Z) (initcode : list Z).
(** The CPU that runs the code. *)
Context (me : nat).

Abbreviation K := (M (kstate W)).

(** ** Access to the parts of the state *)
Definition mycpu : K cpu :=
  let! cs := gets k_cpus in
  match cs !! me with
  | Some c => ret c
  | None => undef "no such cpu"
  end.
Definition set_cpu (c : cpu) : K unit :=
  modify (λ s, with_cpus (<[me := c]> (k_cpus s)) s).
Definition upd_cpu (f : cpu → cpu) : K unit :=
  let! c := mycpu in set_cpu (f c).
Definition get_lock (l : nat) : K spinlock :=
  let! ls := gets k_locks in
  match ls !! l with
  | Some lk => ret lk
  | None => undef "no such lock"
  end.
Definition set_lock (l : nat) (lk : spinlock) : K unit :=
  modify (λ s, with_locks (<[l := lk]> (k_locks s)) s).
Definition on_pt {A} (e : M ptable A) : K A := zoom k_pt with_pt e.
Definition on_km {A} (e : M kmem A) : K A := zoom k_km with_km e.
Definition on_w {A} (e : M W A) : K A := zoom k_w with_w e.
Definition set_kont (i : nat) (k : kont) : K unit :=
  modify (λ s, with_konts (<[i := k]> (k_konts s)) s).
Definition set_initproc (p : option nat) : K unit := modify (with_initproc p).
Definition set_nextpid (n : Z) : K unit := modify (with_nextpid n).
Definition set_first (n : Z) : K unit := modify (with_first n).
Definition read_proc (i : nat) : K proc :=
  let! t := gets k_pt in lift (get_proc i t).
(** [p->field = v;] *)
Definition write_proc (i : nat) (f : proc → proc) : K unit :=
  on_pt (λ t, let* t := upd_proc i f t in Ret (tt, t)).
Definition upd_mem (f : mem → mem) : K unit :=
  on_km (modify (λ k, set_km_mem (f (km_mem k)) k)).

(** [proc], the process of this CPU, when the code dereferences it. *)
Definition myproc : K nat :=
  let! c := mycpu in lift (deref (c_proc c)).
Definition acquire_lock (l : nat) : K unit :=
  let! c := mycpu in
  let! lk := get_lock l in
  let! (c, lk) := lift (acquire me c lk) in
  set_cpu c ;! set_lock l lk.
Definition release_lock (l : nat) : K unit :=
  let! c := mycpu in
  let! lk := get_lock l in
  let! (c, lk) := lift (release me c lk) in
  set_cpu c ;! set_lock l lk.

(** ** Address spaces (vm.c) *)

(** The descriptor that [switchuvm] writes to [cpu->gdt] is a constant and is
    left out. *)
Definition switchuvm (p : nat) : K unit :=
  upd_cpu pushcli ;!
  let! cur := myproc in
  let! cp := read_proc cur in
  upd_cpu (set_ts (Z.shiftl SEG_KDATA 3) (u32 (p_kstack cp + KSTACKSIZE))) ;!
  let! pp := read_proc p in
  if p_pgdir pp =? 0 then panic "switchuvm: no pgdir"
  else
    upd_cpu (set_cr3 (v2p (p_pgdir pp))) ;!
    let! c := mycpu in
    let! c := lift (popcli c) in
    set_cpu c.

Definition switchkvm : K unit :=
  let! kpgdir := gets k_kpgdir in
  upd_cpu (set_cr3 (v2p kpgdir)).

(** ** Creation of processes *)

(** [allocproc] while it holds the lock. *)
Definition alloc_slot : K (option nat) :=
  acquire_lock PTABLE_LOCK ;!
  let! p := on_pt RemoveFreeList in
  match p with
  | None => release_lock PTABLE_LOCK ;! ret None
  | Some i =>
      write_proc i (set_state EMBRYO) ;!
      let! n := gets k_nextpid in
      write_proc i (set_pid n) ;!
      set_nextpid (i32 (n + 1)) ;!
      release_lock PTABLE_LOCK ;!
      ret (Some i)
  end.
(** The rest of [allocproc]; when there is no page for the stack it puts the
    slot back without taking the lock again. *)
Definition alloc_stack (i : nat) : K (option nat) :=
  let! kstack := on_km (λ k, Ret (kalloc k)) in
  write_proc i (set_kstack kstack) ;!
  if kstack =? 0 then
    write_proc i (set_state UNUSED) ;!
    on_pt (AddFreeList (Some i)) ;!
    ret None
  else
    let sp := u32 (kstack + KSTACKSIZE) in
    let sp := u32 (sp - sizeof_trapframe) in
    write_proc i (set_tf sp) ;!
    let sp := u32 (sp - 4) in
    upd_mem (λ m, store32 m sp trapret_addr) ;!
    let sp := u32 (sp - sizeof_context) in
    write_proc i (set_context sp) ;!
    upd_mem (λ m, memset m sp 0 sizeof_context) ;!
    upd_mem (λ m, store32 m (sp + context_eip) forkret_addr) ;!
    set_kont i KForkret ;!
    ret (Some i).
Definition allocproc : K (option nat) :=
  let! p := alloc_slot in
  match p with
  | None => ret None
  | Some i => alloc_stack i
  end.

(** [for(p = ptable.proc; p < &ptable.proc[NPROC]; p++)] *)
Definition all_procs : list nat := seq 0 NPROC.

(** [userinit] empties the lists and puts the unused slots on the free list ... *)
Definition userinit_lists : K unit :=
  on_pt (modify (λ t, mkPt (procs t) [None; None; None] None (TimeToReset t))) ;!
  acquire_lock PTABLE_LOCK ;!
  for_each all_procs (λ i,
    let! p := read_proc i in
    if bool_decide (p_state p = UNUSED) then on_pt (AddFreeList (Some i)) ;! skip
    else skip) ;!
  release_lock PTABLE_LOCK.
(** ... and makes the first process. *)
Definition userinit : K unit :=
  userinit_lists ;!
  let! o := allocproc in
  let! i := lift (deref o) in
  write_proc i (set_uid 0) ;!
  write_proc i (set_gid 1) ;!
  write_proc i (set_priority 1) ;!
  set_initproc (Some i) ;!
  let! pgdir := on_km (setupkvm data) in
  write_proc i (set_pgdir pgdir) ;!
  if pgdir =? 0 then panic "userinit: out of memory?"
  else
    on_km (λ k, let* k := inituvm pgdir initcode (Z.of_nat (length initcode)) k in Ret (tt, k)) ;!
    write_proc i (set_sz PGSIZE) ;!
    let! p := read_proc i in
    let tf := p_tf p in
    let ds := Z.lor (Z.shiftl SEG_UDATA 3) DPL_USER in
    upd_mem (λ m, memset m tf 0 sizeof_trapframe) ;!
    upd_mem (λ m, store16 m (tf + tf_cs) (Z.lor (Z.shiftl SEG_UCODE 3) DPL_USER)) ;!
    upd_mem (λ m, store16 m (tf + tf_ds) ds) ;!
    upd_mem (λ m, store16 m (tf + tf_es) (load16 m (tf + tf_ds))) ;!
    upd_mem (λ m, store16 m (tf + tf_ss) (load16 m (tf + tf_ds))) ;!
    upd_mem (λ m, store32 m (tf + tf_eflags) FL_IF) ;!
    upd_mem (λ m, store32 m (tf + tf_esp) PGSIZE) ;!
    upd_mem (λ m, store32 m (tf + tf_eip) 0) ;!
    write_proc i (λ p, set_name (array_safestrcpy (p_name p) (cstring "initcode")) p) ;!
    let! cwd := on_w fo_namei_root in
    write_proc i (set_cwd cwd) ;!
    write_proc i (set_state RUNNABLE) ;!
    acquire_lock PTABLE_LOCK ;!
    on_pt (AddReadyList i) ;!
    release_lock PTABLE_LOCK.

Definition growproc (n : Z) : K Z :=
  let! cur := myproc in
  let! p := read_proc cur in
  let sz := p_sz p in
  let finish sz :=
    write_proc cur (set_sz sz) ;! switchuvm cur ;! ret 0 in
  if 0 <? n then
    let! sz := on_km (allocuvm kend (p_pgdir p) sz (u32 (sz + n))) in
    if sz =? 0 then ret (-1) else finish sz
  else if n <? 0 then
    let! sz := on_km (deallocuvm kend (p_pgdir p) sz (u32 (sz + n))) in
    if sz =? 0 then ret (-1) else finish sz
  else finish sz.

(** ** fork *)

(** [fork] after [allocproc]: the copy of the address space failed. *)
Definition fork_abort (np : nat) : K Z :=
  let! p := read_proc np in
  on_km (λ k, let* k := kfree kend (p_kstack p) k in Ret (tt, k)) ;!
  write_proc np (set_kstack 0) ;!
  write_proc np (set_state UNUSED) ;!
  acquire_lock PTABLE_LOCK ;!
  on_pt (AddFreeList (Some np)) ;!
  release_lock PTABLE_LOCK ;!
  ret (-1).
Definition fork_dupfile (cur np fd : nat) : K unit :=
  let! p := read_proc cur in
  let f := default 0 (p_ofile p !! fd) in
  if truth f then
    let! f' := on_w (fo_filedup f) in
    write_proc np (λ q, set_ofile (<[fd := f']> (p_ofile q)) q)
  else skip.
(** ... and what it does to the child before it takes the lock. *)
Definition fork_fill (cur np : nat) : K unit :=
  let! p := read_proc cur in
  write_proc np (set_sz (p_sz p)) ;!
  write_proc np (set_parent (Some cur)) ;!
  let! q := read_proc np in
  upd_mem (λ m, memmove m (p_tf q) (p_tf p) (Z.to_nat sizeof_trapframe)) ;!
  write_proc np (set_uid (p_uid p)) ;!
  write_proc np (set_gid (p_gid p)) ;!
  write_proc np (set_priority 1) ;!
  upd_mem (λ m, store32 m (p_tf q + tf_eax) 0) ;!
  for_each (seq 0 NOFILE) (fork_dupfile cur np) ;!
  let! cwd := on_w (fo_idup (p_cwd p)) in
  write_proc np (set_cwd cwd) ;!
  write_proc np (λ q, set_name (array_safestrcpy (p_name q) (p_name p)) q).
Definition fork_commit (np : nat) : K Z :=
  let! q := read_proc np in
  acquire_lock PTABLE_LOCK ;!
  write_proc np (set_state RUNNABLE) ;!
  on_pt (AddReadyList np) ;!
  release_lock PTABLE_LOCK ;!
  ret (p_pid q).
Definition fork_child (np : nat) : K Z :=
  let! cur := myproc in
  let! p := read_proc cur in
  let! pgdir := on_km (copyuvm kend data (p_pgdir p) (p_sz p)) in
  write_proc np (set_pgdir pgdir) ;!
  if pgdir =? 0 then fork_abort np
  else fork_fill cur np ;! fork_commit np.
Definition fork : K Z :=
  let! o := allocproc in
  match o with
  | None => ret (-1)
  | Some np => fork_child np
  end.

(** ** Giving up the CPU *)

(** [sched] up to its [swtch]; [k] is the stack it leaves behind. *)
Definition sched (k : Z → kont) : K unit :=
  let! lk := get_lock PTABLE_LOCK in
  if negb (holding me lk) then panic "sched ptable.lock" else
  let! c := mycpu in
  if negb (c_ncli c =? 1) then panic "sched locks" else
  let! cur := myproc in
  let! p := read_proc cur in
  if bool_decide (p_state p = RUNNING) then panic "sched running"
  else if truth (readeflags_IF c) then panic "sched interruptible"
  else set_kont cur (k (c_intena c)).
(** [sched] after its [swtch]. *)
Definition sched_return (intena : Z) : K unit := upd_cpu (set_intena intena).

Definition yield : K unit :=
  acquire_lock PTABLE_LOCK ;!
  let! cur := myproc in
  write_proc cur (set_state RUNNABLE) ;!
  on_pt (AddReadyList cur) ;!
  sched KYield.
Definition yield_return (intena : Z) : K unit :=
  sched_return intena ;! release_lock PTABLE_LOCK.

(** [sleep(chan, lk)]; [lk] is [None] for the null pointer. *)
Definition sleep (ch : chan) (lk : option nat) : K unit :=
  let! c := mycpu in
  match c_proc c with
  | None => panic "sleep"
  | Some cur =>
      match lk with
      | None => panic "sleep without lk"
      | Some l =>
          (if (l =? PTABLE_LOCK)%nat then skip
           else acquire_lock PTABLE_LOCK ;! release_lock l) ;!
          write_proc cur (set_chan ch) ;!
          write_proc cur (set_state SLEEPING) ;!
          sched (λ intena, KSleep intena l)
      end
  end.
(** [sleep] after [sched] returned: [ptable.lock] is given back, unless it is
    the lock the caller holds; the caller's lock is taken again by
    [sleep_reacquire], which may have to wait for another CPU. *)
Definition sleep_return (intena : Z) (l : nat) : K unit :=
  sched_return intena ;!
  let! cur := myproc in
  write_proc cur (set_chan ChanNone) ;!
  if (l =? PTABLE_LOCK)%nat then skip else release_lock PTABLE_LOCK.
Definition sleep_reacquire (l : nat) : K unit :=
  if (l =? PTABLE_LOCK)%nat then skip else acquire_lock l.

Definition wakeup1 (ch : chan) : K unit :=
  for_each all_procs (λ i,
    let! p := read_proc i in
    if bool_decide (p_state p = SLEEPING) && bool_decide (p_chan p = ch) then
      write_proc i (set_state RUNNABLE) ;! on_pt (AddReadyList i) ;! skip
    else skip).
Definition wakeup (ch : chan) : K unit :=
  acquire_lock PTABLE_LOCK ;! wakeup1 ch ;! release_lock PTABLE_LOCK.

(** The first time it runs, [forkret] also initialises the file system. *)
Definition forkret : K unit :=
  release_lock PTABLE_LOCK ;!
  let! first := gets k_first in
  if truth first then set_first 0 ;! on_w fo_init else skip.

(** ** exit and wait *)
Definition chan_of (p : option nat) : chan :=
  match p with Some i => ChanProc i | None => ChanNone end.

Definition exit_close (cur fd : nat) : K unit :=
  let! p := read_proc cur in
  let f := default 0 (p_ofile p !! fd) in
  if truth f then
    on_w (fo_fileclose f) ;!
    write_proc cur (λ q, set_ofile (<[fd := 0]> (p_ofile q)) q)
  else skip.
(** [exit] before it takes the lock. *)
Definition exit_files (cur : nat) : K unit :=
  for_each (seq 0 NOFILE) (exit_close cur) ;!
  on_w fo_begin_op ;!
  let! p := read_proc cur in
  on_w (fo_iput (p_cwd p)) ;!
  on_w fo_end_op ;!
  write_proc cur (set_cwd 0).
(** Pass abandoned children to init. *)
Definition reparent (cur : nat) : K unit :=
  for_each all_procs (λ i,
    let! p := read_proc i in
    if bool_decide (p_parent p = Some cur) then
      let! ip := gets k_initproc in
      write_proc i (set_parent ip) ;!
      if bool_decide (p_state p = ZOMBIE) then wakeup1 (chan_of ip) else skip
    else skip).
Definition exit_locked (cur : nat) : K unit :=
  acquire_lock PTABLE_LOCK ;!
  let! p := read_proc cur in
  wakeup1 (chan_of (p_parent p)) ;!
  reparent cur ;!
  write_proc cur (set_state ZOMBIE) ;!
  sched KExit.
Definition exit : K unit :=
  let! cur := myproc in
  let! ip := gets k_initproc in
  if bool_decide (Some cur = ip) then panic "init exiting"
  else exit_files cur ;! exit_locked cur.

(** The scan of [wait]: whether there are children, and the first zombie. *)
Fixpoint wait_scan (cur : nat) (ps : list proc) (i : nat) (havekids : bool)
    : bool * option nat :=
  match ps with
  | [] => (havekids, None)
  | p :: ps' =>
      if bool_decide (p_parent p = Some cur) then
        if bool_decide (p_state p = ZOMBIE) then (true, Some i)
        else wait_scan cur ps' (S i) true
      else wait_scan cur ps' (S i) havekids
  end.
Definition reap (i : nat) : K Z :=
  let! p := read_proc i in
  on_km (λ k, let* k := kfree kend (p_kstack p) k in Ret (tt, k)) ;!
  write_proc i (set_kstack 0) ;!
  on_km (λ k, let* k := freevm kend (p_pgdir p) k in Ret (tt, k)) ;!
  write_proc i (set_state UNUSED) ;!
  on_pt (AddFreeList (Some i)) ;!
  write_proc i (set_pid 0) ;!
  write_proc i (set_parent None) ;!
  write_proc i (λ q, set_name (<[0%nat := 0]> (p_name q)) q) ;!
  write_proc i (set_killed 0) ;!
  release_lock PTABLE_LOCK ;!
  ret (p_pid p).
(** One round of the loop of [wait], entered with the lock held: the value
    that [wait] returns, or [None] when the process went to sleep. *)
Definition wait_round : K (option Z) :=
  let! cur := myproc in
  let! t := gets k_pt in
  let '(havekids, z) := wait_scan cur (procs t) 0 false in
  match z with
  | Some i => let! pid := reap i in ret (Some pid)
  | None =>
      let! p := read_proc cur in
      if negb havekids || truth (p_killed p) then
        release_lock PTABLE_LOCK ;! ret (Some (-1))
      else sleep (ChanProc cur) (Some PTABLE_LOCK) ;! ret None
  end.
Definition wait : K (option Z) :=
  acquire_lock PTABLE_LOCK ;! wait_round.

(** ** scheduler *)

(** [sti(); acquire(&ptable.lock);] *)
Definition scheduler_top : K unit :=
  upd_cpu sti ;! acquire_lock PTABLE_LOCK.
Definition reset_timer : K unit :=
  let! t := gets k_pt in
  if TimeToReset t =? 0 then
    on_pt (λ t, let* t := ResetPriority t in Ret (tt, t)) ;!
    on_pt (modify (set_TimeToReset MaxTimeToReset))
  else on_pt (modify (set_TimeToReset (u32 (TimeToReset t - 1)))).
(** The body of the while loop up to [swtch]. *)
Definition scheduler_run : K unit :=
  reset_timer ;!
  let! t := gets k_pt in
  upd_cpu (set_c_proc (GetReady t)) ;!
  let! p := lift (deref (GetReady t)) in
  switchuvm p ;!
  write_proc p (set_state RUNNING) ;!
  on_pt (RemoveReadyList p) ;!
  skip.
(** One turn of the while loop: [false] when the lists are empty and the lock
    has been released, [true] at the [swtch] to the chosen process. *)
Definition scheduler_turn : K bool :=
  let! t := gets k_pt in
  match ready_head 0 t, ready_head 1 t, ready_head 2 t with
  | None, None, None => release_lock PTABLE_LOCK ;! ret false
  | _, _, _ => scheduler_run ;! ret true
  end.
(** After the process has switched back. *)
Definition scheduler_back : K unit :=
  switchkvm ;! upd_cpu (set_c_proc None).

(** The process that [scheduler_turn] switched to goes on: [RCaller] when
    [forkret] or [yield] return to their caller, [RSleep l] when [sleep] is at
    its [sleep_reacquire l], [RWait r] when [wait] returns [r], and [RSwitch]
    when the process switched away again. *)
Inductive resumed := RCaller | RSleep (l : nat) | RWait (r : Z) | RSwitch.
Definition resume : K resumed :=
  let! cur := myproc in
  let! ks := gets k_konts in
  match ks !! cur with
  | None => undef "no kernel stack"
  | Some KForkret => forkret ;! ret RCaller
  | Some (KYield intena) => yield_return intena ;! ret RCaller
  | Some (KSleep intena l) =>
      sleep_return intena l ;!
      if (l =? PTABLE_LOCK)%nat then
        let! r := wait_round in
        match r with
        | Some r => ret (RWait r)
        | None => ret RSwitch
        end
      else ret (RSleep l)
  | Some (KExit intena) => sched_return intena ;! panic "zombie exit"
  end.

(** ** Operations on other processes *)
Fixpoint find_pid (pid : Z) (ps : list proc) (i : nat) : option nat :=
  match ps with
  | [] => None
  | p :: ps' => if p_pid p =? pid then Some i else find_pid pid ps' (S i)
  end.
Definition kill (pid : Z) : K Z :=
  acquire_lock PTABLE_LOCK ;!
  let! t := gets k_pt in
  match find_pid pid (procs t) 0 with
  | Some i =>
      write_proc i (set_killed 1) ;!
      let! p := read_proc i in
      (if bool_decide (p_state p = SLEEPING) then
         write_proc i (set_state RUNNABLE) ;! on_pt (AddReadyList i) ;! skip
       else skip) ;!
      release_lock PTABLE_LOCK ;!
      ret 0
  | None => release_lock PTABLE_LOCK ;! ret (-1)
  end.
Definition set_proc_priority (pid priority : Z) : K Z :=
  on_pt (λ t, Ret (setpriority pid priority t)).

(** [states[]] of [getProcInfo] *)
Definition state_name (s : procstate) : list Z :=
  match s with
  | UNUSED => cstring "UNUSED "
  | EMBRYO => cstring "EMBRYO "
  | SLEEPING => cstring "SLEEP  "
  | RUNNABLE => cstring "READY  "
  | RUNNING => cstring "RUNNING"
  | ZOMBIE => cstring "ZOMBIE "
  end.
(** [while(src[c] != 0){ dst[c] = src[c]; c++; }] *)
Fixpoint copy_chars (dst src : list Z) : outcome (list Z) :=
  match src with
  | [] => Undef "string without terminator"
  | c :: src' =>
      if c =? 0 then Ret dst
      else match dst with
           | [] => Undef "write past the end of an array"
           | _ :: dst' => let* r := copy_chars dst' src' in Ret (c :: r)
           end
  end.
(** [table[i] = ...] for process [p]; [old] is what the entry held. *)
Definition fill_uproc (t : ptable) (p : proc) (old : uproc) : outcome uproc :=
  let* pp := deref (p_parent p) in
  let* par := get_proc pp t in
  let* name := copy_chars (u_name old) (p_name p) in
  let* st := copy_chars (u_state old) (state_name (p_state p)) in
  Ret (mkU (p_pid p) (p_uid p) (p_gid p) (p_pid par) (p_priority p) st (p_sz p) name).
Fixpoint getProcInfo_loop (t : ptable) (ps : list proc) (i : nat) (table : list uproc)
    : outcome (nat * list uproc) :=
  match ps with
  | [] => Ret (i, table)
  | p :: ps' =>
      if bool_decide (p_state p = UNUSED) then getProcInfo_loop t ps' i table
      else match table !! i with
           | None => Undef "write past the end of the table"
           | Some old =>
               let* u := fill_uproc t p old in
               getProcInfo_loop t ps' (S i) (<[i := u]> table)
           end
  end.
Definition getProcInfo (max : Z) (table : list uproc) (t : ptable) : outcome (Z * list uproc) :=
  let* (i, table) := getProcInfo_loop t (procs t) 0 table in
  if max <? Z.of_nat i then Ret (-1, table) else Ret (Z.of_nat i, table).
End Ops.
