(* ===== verification/Sched.v ===== *)
(** * The scheduler on several CPUs

    A step relation over the operations of ProcOps.v: the CPUs of the machine
    run the scheduler loop and the kernel code of processes, interleaved at
    the critical sections of [ptable.lock].  The invariant [Inv] says what the
    ready lists, the free list, the process states, the CPUs and the locks
    have to do with each other; the theorems at the end are about every
    reachable state. *)
From S2P Require Import Prelude Machine Spinlock Kalloc Vm Proc ProcOps.

Open Scope Z_scope.

(** ** The machine *)

(** What a CPU is doing. *)
Inductive act :=
| Idle                     (* in scheduler(), no process *)
| Intr                     (* in an interrupt handler, no process *)
| Resuming                 (* just switched to a process, inside its sched() *)
| Run                      (* running a process *)
| Reacquire (l : nat)      (* in sleep(), about to take lock l again *)
| Forking (np : nat)       (* in fork(), slot np allocated *)
| ForkStack (np : nat)     (* in fork(), slot np has a kernel stack *)
| Leaving                  (* the process has changed its state and calls sched() *)
| Left.                    (* switched back to scheduler() *)

(** A CPU's phase: whether it holds [ptable.lock], and its activity. *)
Abbreviation phase := (bool * act)%type.

Record config (W : Type) := mkG { g_k : kstate W; g_phs : list phase }.
Arguments mkG {W}.
Arguments g_k {W}.
Arguments g_phs {W}.

(** The number of locks of [ls] that CPU [c] holds. *)
Fixpoint held (c : nat) (ls : list spinlock) : nat :=
  match ls with
  | [] => 0
  | lk :: ls' => (if holding c lk then 1 else 0) + held c ls'
  end.

Section Steps.
Context {W : Type} `{FileOps W}.
Context (kend data forkret_addr trapret_addr : Z).
(** One step of CPU [me].  The label is the call of [setpriority(pid, pr)] that
    the step is, if it is one: it writes the table without any check and without
    [ptable.lock].

    Two things are coarser than in the code: when [allocproc] finds no page it
    puts its slot back on the free list without the lock, which is one step here
    ([m_nostack]); and a process is not preempted inside [fork]. *)
Inductive mstep (me : nat) : option (Z * Z) → phase → kstate W → phase → kstate W → Prop :=
| m_top s s' :
    scheduler_top me s = Ret (tt, s') → mstep me None (false, Idle) s (true, Idle) s'
| m_none s s' :
    scheduler_turn me s = Ret (false, s') → mstep me None (true, Idle) s (false, Idle) s'
| m_dispatch s s' :
    scheduler_turn me s = Ret (true, s') → mstep me None (true, Idle) s (true, Resuming) s'
| m_resume s s' :
    resume kend me s = Ret (RCaller, s') → mstep me None (true, Resuming) s (false, Run) s'
| m_resume_sleep s l s' :
    resume kend me s = Ret (RSleep l, s') → mstep me None (true, Resuming) s (false, Reacquire l) s'
| m_resume_wait s r s' :
    resume kend me s = Ret (RWait r, s') → mstep me None (true, Resuming) s (false, Run) s'
| m_resume_switch s s' :
    resume kend me s = Ret (RSwitch, s') → mstep me None (true, Resuming) s (true, Left) s'
| m_back s s' :
    scheduler_back me s = Ret (tt, s') → mstep me None (true, Left) s (true, Idle) s'
| m_reacquire s l s' :
    sleep_reacquire me l s = Ret (tt, s') → mstep me None (false, Reacquire l) s (false, Run) s'
| m_yield s s' :
    yield me s = Ret (tt, s') → mstep me None (false, Run) s (true, Left) s'
| m_sleep s ch l s' :
    l ≠ PTABLE_LOCK → sleep me ch (Some l) s = Ret (tt, s') →
    mstep me None (false, Run) s (true, Left) s'
| m_wait s r s' :
    wait kend me s = Ret (Some r, s') → mstep me None (false, Run) s (false, Run) s'
| m_wait_switch s s' :
    wait kend me s = Ret (None, s') → mstep me None (false, Run) s (true, Left) s'
| m_exit s s' :
    exit me s = Ret (tt, s') → mstep me None (false, Run) s (true, Left) s'
(** An interrupt handler on a CPU with no process: it starts from the idle
    loop and goes back to it holding no lock. *)
| m_intr s : mstep me None (false, Idle) s (false, Intr) s
| m_iret s : held me (k_locks s) = 0%nat → mstep me None (false, Intr) s (false, Idle) s
| m_wakeup s ch a s' :
    a = Intr ∨ a = Run → wakeup me ch s = Ret (tt, s') → mstep me None (false, a) s (false, a) s'
| m_kill s pid r s' :
    kill me pid s = Ret (r, s') → mstep me None (false, Run) s (false, Run) s'
| m_setpriority s pid pr r s' :
    set_proc_priority pid pr s = Ret (r, s') →
    mstep me (Some (pid, pr)) (false, Run) s (false, Run) s'
| m_noslot s s' :
    alloc_slot me s = Ret (None, s') → mstep me None (false, Run) s (false, Run) s'
| m_slot s np s' :
    alloc_slot me s = Ret (Some np, s') → mstep me None (false, Run) s (false, Forking np) s'
| m_nostack s np s' :
    alloc_stack forkret_addr trapret_addr np s = Ret (None, s') →
    mstep me None (false, Forking np) s (false, Run) s'
| m_stack s np s' :
    alloc_stack forkret_addr trapret_addr np s = Ret (Some np, s') →
    mstep me None (false, Forking np) s (false, ForkStack np) s'
| m_fork s np r s' :
    fork_child kend data me np s = Ret (r, s') → mstep me None (false, ForkStack np) s (false, Run) s'
| m_grow s n r s' :
    growproc kend me n s = Ret (r, s') → mstep me None (false, Run) s (false, Run) s'
| m_switchuvm s c cur s' :
    k_cpus s !! me = Some c → c_proc c = Some cur → switchuvm me cur s = Ret (tt, s') →
    mstep me None (false, Run) s (false, Run) s'
| m_acquire s l a s' :
    a = Intr ∨ a = Run → l ≠ PTABLE_LOCK → acquire_lock me l s = Ret (tt, s') →
    mstep me None (false, a) s (false, a) s'
| m_release s l a s' :
    a = Intr ∨ a = Run → l ≠ PTABLE_LOCK → release_lock me l s = Ret (tt, s') →
    mstep me None (false, a) s (false, a) s'
(** Other system calls: the process changes fields of its own slot that no
    list depends on, memory and files. *)
| m_own s c cur f t km w :
    k_cpus s !! me = Some c → c_proc c = Some cur →
    (∀ p, p_state (f p) = p_state p ∧ p_priority (f p) = p_priority p ∧
          p_next (f p) = p_next p ∧ (p_pgdir p ≠ 0 → p_pgdir (f p) ≠ 0)) →
    upd_proc cur f (k_pt s) = Ret t →
    mstep me None (false, Run) s (false, Run) (with_w w (with_km km (with_pt t s)))
(** Memory, devices and files change; no process is concerned. *)
| m_device s km w a :
    a = Intr ∨ a = Run → mstep me None (false, a) s (false, a) (with_w w (with_km km s)).

(** A run of the machine in which every call of [setpriority] is one that
    [may_set] allows; with [λ _ _ _, True] it is any run. *)
Context (may_set : kstate W → Z → Z → Prop).
Definition allowed (l : option (Z * Z)) (s : kstate W) : Prop :=
  match l with Some (pid, pr) => may_set s pid pr | None => True end.
Inductive step : config W → config W → Prop :=
| step_cpu me l s phs ph ph' s' :
    phs !! me = Some ph → allowed l s → mstep me l ph s ph' s' →
    step (mkG s phs) (mkG s' (<[me := ph']> phs)).
End Steps.

(** The calls of [setpriority] under which the lists stay correct: the priority
    is 0, 1 or 2, and the process is not on a ready list. *)
Definition may_set_ok {W} (s : kstate W) (pid pr : Z) : Prop :=
  prio_ok pr = true ∧
  ∀ i p, find_pid pid (procs (k_pt s)) 0 = Some i → procs (k_pt s) !! i = Some p →
    p_state p ≠ RUNNABLE.

(** ** The invariant *)

(** What the lists and the other CPUs have to know of a process. *)
Abbreviation view := (procstate * Z * Z)%type.
Definition view_of (p : proc) : view := (p_state p, p_priority p, p_pgdir p).
Definition views (t : ptable) : list view := view_of <$> procs t.
Definition state_in (v : list view) (i : nat) : option procstate := (λ w : view, w.1.1) <$> v !! i.

Definition live (s : procstate) : bool :=
  match s with SLEEPING | RUNNABLE | RUNNING => true | _ => false end.

(** The free list holds the unused slots; ready list [k] the runnable
    processes of priority [k]; live processes have a page table and a valid
    priority. *)
Definition slot_ok (fl : list nat) (rl : list (list nat)) (i : nat) (w : view) : Prop :=
  let '(st, pr, pg) := w in
  (i ∈ fl ↔ st = UNUSED) ∧
  (∀ k l, rl !! k = Some l → (i ∈ l ↔ st = RUNNABLE ∧ pr = Z.of_nat k)) ∧
  (live st = true → prio_ok pr = true ∧ pg ≠ 0).
Definition tbl_inv (t : ptable) : Prop :=
  ∃ fl rl, lists_rep t fl rl ∧ ∀ i w, views t !! i = Some w → slot_ok fl rl i w.


(** The process of a CPU, and the slot [fork] is filling. *)
Definition left_state (s : procstate) : bool :=
  match s with SLEEPING | RUNNABLE | ZOMBIE => true | _ => false end.
Definition no_proc (a : act) : bool := match a with Idle | Intr => true | _ => false end.
Definition fork_of (a : act) : option nat :=
  match a with Forking np | ForkStack np => Some np | _ => None end.
Definition act_ok (v : list view) (a : act) (cp : option nat) : Prop :=
  match a with
  | Idle | Intr => cp = None
  | Leaving | Left => ∃ i st, cp = Some i ∧ state_in v i = Some st ∧ left_state st = true
  | _ => (∃ i, cp = Some i ∧ state_in v i = Some RUNNING) ∧
         ∀ np, fork_of a = Some np → state_in v np = Some EMBRYO
  end.
(** Activities that only a holder of [ptable.lock] is in. *)
Definition in_sched (a : act) : bool :=
  match a with Resuming | Leaving | Left => true | _ => false end.
Definition returns_to (k : kont) : bool :=
  match k with KExit _ => false | _ => true end.

(** The invariant of processes and CPUs; [cps] are the [proc] pointers of the
    CPUs and [ks] the saved stacks. *)
Record TInv (t : ptable) (cps : list (option nat)) (ks : list kont) (phs : list phase) : Prop := {
  ti_tbl : tbl_inv t;
  ti_len : length cps = length phs;
  ti_konts : length ks = NPROC;
  ti_act : ∀ c b a cp, phs !! c = Some (b, a) → cps !! c = Some cp → act_ok (views t) a cp;
  ti_lock : ∀ c1 c2 a1 a2, phs !! c1 = Some (true, a1) → phs !! c2 = Some (true, a2) → c1 = c2;
  ti_in_sched : ∀ c b a, phs !! c = Some (b, a) → in_sched a = true → b = true;
  ti_uniq : ∀ c1 c2 i, cps !! c1 = Some (Some i) → cps !! c2 = Some (Some i) → c1 = c2;
  ti_fork : ∀ c1 c2 b1 b2 a1 a2 np, phs !! c1 = Some (b1, a1) → phs !! c2 = Some (b2, a2) →
      fork_of a1 = Some np → fork_of a2 = Some np → c1 = c2;
  ti_run : ∀ i, state_in (views t) i = Some RUNNING → ∃ c, cps !! c = Some (Some i);
  ti_kont : ∀ i st, state_in (views t) i = Some st → live st = true →
      ∃ k, ks !! i = Some k ∧ returns_to k = true;
  ti_stack : ∀ c b np, phs !! c = Some (b, ForkStack np) → ks !! np = Some KForkret }.


(** The invariant of locks and interrupts: the pushcli depth of a CPU is the
    number of locks it holds, with interrupts off when it is not zero; the
    phase tells who holds [ptable.lock]; the scheduler holds no other lock. *)
Record LInv (ls : list spinlock) (cs : list cpu) (phs : list phase) : Prop := {
  li_len : length cs = length phs;
  li_locks : 0 < Z.of_nat (length ls) < 2 ^ 30;
  li_shape : ∀ l lk, ls !! l = Some lk → lk = mkLock 0 None ∨ ∃ c, lk = mkLock 1 (Some c);
  li_cli : ∀ c cp, cs !! c = Some cp →
      c_ncli cp = Z.of_nat (held c ls) ∧ (c_ncli cp ≠ 0 → c_if cp = false);
  li_ptable : ∀ c b a, phs !! c = Some (b, a) →
      (b = true ↔ ls !! PTABLE_LOCK = Some (mkLock 1 (Some c)));
  li_owner : ∀ c, ls !! PTABLE_LOCK = Some (mkLock 1 (Some c)) → (c < length phs)%nat;
  li_only : ∀ c (b : bool) (a : act), phs !! c = Some (b, a) → a = Idle ∨ a = Left →
      held c ls = if b then 1%nat else 0%nat }.

Definition Inv {W} (g : config W) : Prop :=
  TInv (k_pt (g_k g)) (c_proc <$> k_cpus (g_k g)) (k_konts (g_k g)) (g_phs g) ∧
  LInv (k_locks (g_k g)) (k_cpus (g_k g)) (g_phs g).

(** ** The table operations keep the invariant *)
Lemma views_lookup t i p : procs t !! i = Some p → views t !! i = Some (view_of p).
Proof. intros H. unfold views. by rewrite list_lookup_fmap, H. Qed.

Lemma views_lookup_inv t i w :
  views t !! i = Some w → ∃ p, procs t !! i = Some p ∧ w = view_of p.
Proof.
  unfold views. rewrite list_lookup_fmap. destruct (procs t !! i) as [p|]; simpl; [|done].
  intros [= <-]. eauto.
Qed.

Lemma same_data_views t t' : same_data t t' → views t' = views t.
Proof.
  intros [H _]. assert (∀ l : list proc, view_of <$> l = view_of <$> (set_next None <$> l)) as E.
  { intros l. rewrite <- list_fmap_compose. by apply list_fmap_ext. }
  unfold views. by rewrite (E (procs t')), (E (procs t)), H.
Qed.

Lemma views_insert i q t : views (set_procs (<[i := q]> (procs t)) t) = <[i := view_of q]> (views t).
Proof. unfold views. simpl. by rewrite list_fmap_insert. Qed.

Lemma slots_update (v : list view) fl rl fl' rl' i w' :
  (∀ j w, v !! j = Some w → slot_ok fl rl j w) →
  (∀ j, j ≠ i → (j ∈ fl' ↔ j ∈ fl)) →
  (∀ j k l', j ≠ i → rl' !! k = Some l' → ∃ l, rl !! k = Some l ∧ (j ∈ l' ↔ j ∈ l)) →
  slot_ok fl' rl' i w' →
  ∀ j w, <[i := w']> v !! j = Some w → slot_ok fl' rl' j w.
Proof.
  intros Hv Hf Hr Hi j w Hj. destruct (decide (j = i)) as [->|Hne].
  - rewrite list_lookup_insert_eq in Hj; [by simplify_eq|].
    rewrite <- (length_insert v i w'). by eapply lookup_lt_Some.
  - rewrite list_lookup_insert_ne in Hj by done.
    destruct w as [[st pr] pg]. destruct (Hv _ _ Hj) as (H1 & H2 & H3).
    split_and!; [by rewrite Hf| |done]. intros k l' Hl'.
    destruct (Hr _ _ _ Hne Hl') as (l & Hl & ->). by apply H2.
Qed.

(** A slot that is neither unused nor runnable is on no list. *)
Lemma slot_unqueued fl rl i st pr pg :
  slot_ok fl rl i (st, pr, pg) → st ≠ UNUSED → st ≠ RUNNABLE → i ∉ fl ++ concat rl.
Proof.
  intros (H1 & H2 & _) Hu Hr. rewrite elem_of_app, elem_of_concat. intros [H|(k & l & Hk & Hi)].
  - by apply H1 in H.
  - apply (H2 k l Hk) in Hi. tauto.
Qed.

Lemma tbl_write t i p f :
  tbl_inv t → procs t !! i = Some p → p_next (f p) = p_next p →
  (p_state (f p) = UNUSED ↔ p_state p = UNUSED) →
  (p_state (f p) = RUNNABLE ↔ p_state p = RUNNABLE) →
  (p_state p = RUNNABLE → p_priority (f p) = p_priority p) →
  (live (p_state (f p)) = true → prio_ok (p_priority (f p)) = true ∧ p_pgdir (f p) ≠ 0) →
  ∃ t', upd_proc i f t = Ret t' ∧ tbl_inv t' ∧ views t' = <[i := view_of (f p)]> (views t) ∧
        t' = set_procs (<[i := f p]> (procs t)) t.
Proof.
  intros (fl & rl & Hrep & Hv) Hp Hn Hu Hr Hpr Hl.
  destruct (upd_proc_rep _ _ _ _ _ f Hrep Hp Hn) as (t' & Ht & Hrep' & ->).
  eexists. split_and!; [done| |by apply views_insert|done].
  exists fl, rl. split; [done|]. rewrite views_insert.
  apply (slots_update _ fl rl); [done|done|eauto|].
  destruct (Hv _ _ (views_lookup _ _ _ Hp)) as (H1 & H2 & H3).
  split_and!; [by rewrite H1, Hu| |done]. intros k l Hk. rewrite (H2 k l Hk), Hr.
  split; intros [? <-]; auto using eq_sym.
Qed.

Lemma tbl_runnable t i st pr pg :
  tbl_inv t → views t !! i = Some (st, pr, pg) → st ≠ UNUSED → st ≠ RUNNABLE →
  prio_ok pr = true → pg ≠ 0 →
  ∃ t1 t2, upd_proc i (set_state RUNNABLE) t = Ret t1 ∧ AddReadyList i t1 = Ret (0, t2) ∧
    tbl_inv t2 ∧ views t2 = <[i := (RUNNABLE, pr, pg)]> (views t).
Proof.
  intros (fl & rl & Hrep & Hv) Hi Hu Hr Hpr Hpg.
  pose proof (slot_unqueued _ _ _ _ _ _ (Hv _ _ Hi) Hu Hr) as Hq.
  destruct (Hv _ _ Hi) as (H1 & _).
  destruct (views_lookup_inv _ _ _ Hi) as (p & Hp & [= -> -> ->]).
  destruct (upd_proc_rep _ _ _ _ _ (set_state RUNNABLE) Hrep Hp eq_refl) as (t1 & -> & Hrep1 & Ht1).
  apply prio_ok_spec in Hpr. pose proof Hrep as (_ & _ & Hlen & _).
  destruct (lookup_lt_is_Some_2 rl (Z.to_nat (p_priority p))) as [l Hl]; [unfold NPRIO in *; lia|].
  destruct (AddReadyList_rep t1 fl rl i (set_state RUNNABLE p) l) as (t2 & H2 & Hrep2 & Hs); try done.
  { subst t1. simpl. apply list_lookup_insert_eq. by eapply lookup_lt_Some. }
  exists t1, t2. split_and!; [done|done| |].
  - exists fl, (<[Z.to_nat (p_priority p) := l ++ [i]]> rl). split; [done|].
    rewrite (same_data_views _ _ Hs). subst t1. rewrite views_insert.
    apply (slots_update _ fl rl); [done|done| |].
    + intros j k l' Hj Hl'. apply list_lookup_insert_Some in Hl' as [(<- & <- & _)|[_ ?]]; [|eauto].
      exists l. split; [done|]. set_solver.
    + split_and!; [|intros k l' Hl'; simpl|by split; [apply prio_ok_spec|]].
      * rewrite H1. split; [by intros|done].
      * destruct (Hv _ _ Hi) as (_ & Hk & _).
        apply list_lookup_insert_Some in Hl' as [(<- & <- & _)|[Hne Hl']].
        -- split; [intros _; split; [done|]|]; [rewrite Z2Nat.id by lia; done|]. set_solver.
        -- rewrite (Hk _ _ Hl'). split; [tauto|]. intros [_ E]. destruct Hne.
           rewrite E. by rewrite Nat2Z.id.
  - rewrite (same_data_views _ _ Hs). subst t1. by rewrite views_insert.
Qed.

Lemma tbl_free t i st pr pg :
  tbl_inv t → views t !! i = Some (st, pr, pg) → st ≠ UNUSED → st ≠ RUNNABLE →
  ∃ t1 t2, upd_proc i (set_state UNUSED) t = Ret t1 ∧ AddFreeList (Some i) t1 = Ret (0, t2) ∧
    tbl_inv t2 ∧ views t2 = <[i := (UNUSED, pr, pg)]> (views t).
Proof.
  intros (fl & rl & Hrep & Hv) Hi Hu Hr.
  pose proof (slot_unqueued _ _ _ _ _ _ (Hv _ _ Hi) Hu Hr) as Hq.
  destruct (Hv _ _ Hi) as (_ & Hk & _).
  destruct (views_lookup_inv _ _ _ Hi) as (p & Hp & [= -> -> ->]).
  destruct (upd_proc_rep _ _ _ _ _ (set_state UNUSED) Hrep Hp eq_refl) as (t1 & -> & Hrep1 & Ht1).
  pose proof Hrep as (_ & _ & _ & _ & Hlen).
  destruct (AddFreeList_rep t1 fl rl i Hrep1 Hq) as (t2 & H2 & Hrep2 & Hs).
  { rewrite <- Hlen. by eapply lookup_lt_Some. }
  exists t1, t2. rewrite (same_data_views _ _ Hs). subst t1. rewrite views_insert.
  split_and!; [done|done| |done].
  exists (i :: fl), rl. split; [done|]. rewrite (same_data_views _ _ Hs), views_insert.
  apply (slots_update _ fl rl); [done|set_solver|eauto|].
  split_and!; [set_solver| |done]. intros k l Hl. rewrite (Hk k l Hl). split; [tauto|by intros []].
Qed.

Lemma tbl_alloc t :
  tbl_inv t →
  RemoveFreeList t = Ret (None, t) ∨
  ∃ i pr pg t1 t2, RemoveFreeList t = Ret (Some i, t1) ∧ views t !! i = Some (UNUSED, pr, pg) ∧
    upd_proc i (set_state EMBRYO) t1 = Ret t2 ∧ tbl_inv t2 ∧
    views t2 = <[i := (EMBRYO, pr, pg)]> (views t).
Proof.
  intros (fl & rl & Hrep & Hv). pose proof (RemoveFreeList_rep _ _ _ Hrep) as Hrm.
  destruct fl as [|i fl]; [by left|right]. destruct Hrm as (t1 & -> & Hrep1 & Hps & _).
  pose proof Hrep as (Hc & _ & _ & Hnd & Hlen).
  assert (∃ p, procs t !! i = Some p) as [p Hp].
  { apply lookup_lt_is_Some_2. eapply chain_bound; [done|apply list_elem_of_here]. }
  pose proof (views_lookup _ _ _ Hp) as Hi. destruct (Hv _ _ Hi) as (H1 & H2 & _).
  assert (p_state p = UNUSED) as Hst by (apply H1; apply list_elem_of_here).
  destruct (upd_proc_rep t1 fl rl i p (set_state EMBRYO) Hrep1) as (t2 & H & Hrep2 & Ht2);
    [by rewrite Hps|done|].
  exists i, (p_priority p), (p_pgdir p), t1, t2. unfold view_of in Hi. rewrite Hst in Hi.
  assert (views t2 = <[i:=view_of (set_state EMBRYO p)]> (views t)) as Hvs.
  { subst t2. rewrite views_insert. unfold views. by rewrite Hps. }
  split_and!; [done|done|done| |done].
  exists fl, rl. split; [done|]. rewrite Hvs. apply (slots_update _ (i :: fl) rl); [done| |eauto|].
  - intros j Hj. rewrite elem_of_cons. tauto.
  - simpl in Hnd. apply NoDup_cons in Hnd as [Hnd _]. split_and!; [|intros k l Hl|done].
    + split; [|done]. intros Hif. destruct Hnd. apply elem_of_app. by left.
    + rewrite (H2 k l Hl), Hst. split; [by intros []|by intros []].
Qed.

Lemma tbl_reset t :
  tbl_inv t →
  ∃ t', ResetPriority t = Ret t' ∧ tbl_inv t' ∧
    views t' = (λ w : view, (w.1.1, 1, w.2)) <$> views t.
Proof.
  intros (fl & rl & Hrep & Hv). pose proof Hrep as (_ & _ & Hlen & _).
  destruct rl as [|r0 [|r1 [|r2 [|]]]]; try done.
  destruct (ResetPriority_rep _ _ _ _ _ Hrep) as (t' & Ht & Hrep' & Hs).
  assert (views t' = (λ w : view, (w.1.1, 1, w.2)) <$> views t) as Hvs.
  { rewrite (same_data_views _ _ Hs). unfold views. simpl.
    rewrite <- !list_fmap_compose. by apply list_fmap_ext. }
  exists t'. split_and!; [done| |done]. exists fl, [[]; r1 ++ r0 ++ r2; []]. split; [done|].
  intros i w. rewrite Hvs, list_lookup_fmap. destruct (views t !! i) as [[[st pr] pg]|] eqn:Hi;
    simpl; [|done]. intros [= <-].
  destruct (Hv _ _ Hi) as (H1 & H2 & H3). split_and!; [done| |].
  - pose proof (H2 0%nat r0 eq_refl) as Q0. pose proof (H2 1%nat r1 eq_refl) as Q1.
    pose proof (H2 2%nat r2 eq_refl) as Q2.
    intros [|[|[|k]]] l Hl; simplify_eq/=; rewrite ?elem_of_nil, ?elem_of_app, ?Q0, ?Q1, ?Q2;
      try (split; [done|intros [_ E]; lia]).
    split; [tauto|]. intros [Hr _]. subst st. destruct (H3 eq_refl) as [Hp%prio_ok_spec _].
    unfold NPRIO in Hp. simpl in Hp.
    assert (pr = 0 ∨ pr = 1 ∨ pr = 2) as [->|[->| ->]] by lia; auto.
  - intros Hl. destruct (H3 Hl). done.
Qed.

Lemma tbl_ready t :
  tbl_inv t →
  match GetReady t with
  | Some i => ∃ pr pg, views t !! i = Some (RUNNABLE, pr, pg)
  | None => ready_head 0 t = None ∧ ready_head 1 t = None ∧ ready_head 2 t = None
  end.
Proof.
  intros (fl & rl & Hrep & Hv). destruct (GetReady t) as [i|] eqn:Hg.
  - rewrite (GetReady_rep _ _ _ Hrep) in Hg.
    assert (i ∈ concat rl) as (k & l & Hk & Hil)%elem_of_concat.
    { destruct (concat rl); simplify_eq/=. apply list_elem_of_here. }
    pose proof (ready_head_chain _ _ _ _ _ Hrep Hk) as Hc.
    destruct (lookup_lt_is_Some_2 (procs t) i) as [p Hp]; [by eapply chain_bound|].
    pose proof (views_lookup _ _ _ Hp) as Hi. destruct (Hv _ _ Hi) as (_ & H2 & _).
    apply (H2 k l Hk) in Hil as [Hst _]. unfold view_of in Hi. rewrite Hst in Hi. eauto.
  - unfold GetReady in Hg. destruct (ready_head 0 t), (ready_head 1 t); done.
Qed.

(** [p->state = RUNNING; RemoveReadyList(p);] *)
Lemma tbl_dispatch t i pr pg :
  tbl_inv t → views t !! i = Some (RUNNABLE, pr, pg) →
  ∃ t1 t2, upd_proc i (set_state RUNNING) t = Ret t1 ∧ RemoveReadyList i t1 = Ret (0, t2) ∧
    tbl_inv t2 ∧ views t2 = <[i := (RUNNING, pr, pg)]> (views t).
Proof.
  intros (fl & rl & Hrep & Hv) Hi. destruct (Hv _ _ Hi) as (H1 & H2 & H3).
  destruct (H3 eq_refl) as [Hpr Hpg]. pose proof Hpr as Hpz%prio_ok_spec.
  destruct (views_lookup_inv _ _ _ Hi) as (p & Hp & E). injection E as Est -> ->.
  destruct (upd_proc_rep _ _ _ _ _ (set_state RUNNING) Hrep Hp eq_refl) as (t1 & -> & Hrep1 & Ht1).
  pose proof Hrep as (_ & _ & Hlen & Hnd & _). set (k := Z.to_nat (p_priority p)) in *.
  destruct (lookup_lt_is_Some_2 rl k) as [l Hl]; [unfold NPRIO in *; lia|].
  assert (i ∈ l) as Hil by (apply (H2 k l Hl); split; [done|unfold k; lia]).
  apply list_elem_of_split in Hil as (l1 & l2 & ->).
  destruct (RemoveReadyList_rep t1 fl rl i (set_state RUNNING p) l1 l2) as (t2 & Hr & Hrep2 & Hs);
    try done.
  { subst t1. simpl. apply list_lookup_insert_eq. by eapply lookup_lt_Some. }
  exists t1, t2. rewrite (same_data_views _ _ Hs). subst t1. rewrite views_insert.
  split_and!; [done|done| |done]. exists fl, (<[k := l1 ++ l2]> rl). split; [done|].
  rewrite (same_data_views _ _ Hs), views_insert. apply (slots_update _ fl rl); [done|done| |].
  - intros j k' l' Hj Hl'. apply list_lookup_insert_Some in Hl' as [(<- & <- & _)|[_ ?]]; [|eauto].
    eexists. split; [done|]. set_solver.
  - split_and!; [rewrite H1; done| |done]. intros k' l' Hl'.
    split; [|by intros []]. intros Hin. exfalso.
    apply list_lookup_insert_Some in Hl' as [(<- & <- & _)|[Hne Hl']].
    + apply NoDup_app_r in Hnd. pose proof (NoDup_concat_lookup _ _ _ Hnd Hl) as Hn.
      apply list.NoDup_app in Hn as (_ & Hd & Hn). apply NoDup_cons in Hn as [Hn _]. set_solver.
    + apply (H2 k' l' Hl') in Hin as [_ E]. apply Hne. unfold k. rewrite E. apply Nat2Z.id.
Qed.

(** ** Locks and interrupts *)
Lemma holding_free c : holding c (mkLock 0 None) = false.
Proof. done. Qed.
Lemma holding_taken c c' : holding c (mkLock 1 (Some c')) = bool_decide (c' = c).
Proof. unfold holding. simpl. repeat case_bool_decide; congruence. Qed.

Lemma held_insert c ls l lk lk' :
  ls !! l = Some lk →
  (held c (<[l := lk']> ls) + (if holding c lk then 1 else 0) =
   held c ls + (if holding c lk' then 1 else 0))%nat.
Proof.
  revert l. induction ls as [|x ls IH]; intros [|l] Hl; simplify_eq/=; [lia|].
  specialize (IH l Hl). lia.
Qed.
Lemma held_le c ls : (held c ls ≤ length ls)%nat.
Proof. induction ls; simpl; [lia|]. case_match; lia. Qed.
Lemma held_pos c ls l : ls !! l = Some (mkLock 1 (Some c)) → (0 < held c ls)%nat.
Proof.
  intros Hl. pose proof (held_insert c ls l _ (mkLock 0 None) Hl) as H.
  rewrite holding_taken, bool_decide_eq_true_2, holding_free in H by done.
  cbn match in H. lia.
Qed.

(** [acquire] of a free lock, seen from the invariant. *)
Lemma LInv_acquire ls cs phs me c b a l b' :
  LInv ls cs phs → cs !! me = Some c → phs !! me = Some (b, a) → ls !! l = Some (mkLock 0 None) →
  (l = PTABLE_LOCK ∧ b' = true ∨ l ≠ PTABLE_LOCK ∧ b' = b) →
  (a = Idle ∨ a = Left → l = PTABLE_LOCK) →
  LInv (<[l := mkLock 1 (Some me)]> ls) (<[me := pushcli c]> cs) (<[me := (b', a)]> phs).
Proof.
  intros [Hlen Hlk Hsh Hcli Hpt Hown Honly] Hc Hph Hl Hb Ha.
  pose proof (lookup_lt_Some _ _ _ Hc). pose proof (lookup_lt_Some _ _ _ Hl) as Hlb.
  assert (∀ d, held d (<[l := mkLock 1 (Some me)]> ls) =
               held d ls + (if decide (d = me) then 1 else 0))%nat as Hheld.
  { intros d. pose proof (held_insert d ls l _ (mkLock 1 (Some me)) Hl) as E.
    rewrite holding_free, holding_taken in E.
    destruct (decide (d = me)) as [->|Hd];
      [rewrite bool_decide_eq_true_2 in E by done|rewrite bool_decide_eq_false_2 in E by done];
      cbn match in E; lia. }
  pose proof (held_le me ls).
  destruct (Hcli _ _ Hc) as [Hn Hi].
  destruct (pushcli_depth c) as (Hd1 & Hd2 & _); [lia|].
  split; rewrite ?length_insert; try done.
  - intros l' lk' [(<- & <- & _)|[_ Hl']]%list_lookup_insert_Some; eauto.
  - intros d cp [(<- & <- & _)|[Hne Hd]]%list_lookup_insert_Some; rewrite Hheld.
    + rewrite decide_True, Hd1 by done. split; [lia|done].
    + rewrite decide_False by done. rewrite Nat.add_0_r. eauto.
  - intros d bd ad [(<- & [= <- <-] & _)|[Hne Hd]]%list_lookup_insert_Some.
    + destruct Hb as [[-> ->]|[Hne ->]].
      * rewrite list_lookup_insert_eq by done. done.
      * rewrite list_lookup_insert_ne by done. eauto.
    + rewrite (Hpt _ _ _ Hd). destruct Hb as [[-> ->]|[Hn' ->]].
      * rewrite list_lookup_insert_eq, Hl by done. split; [done|]. intros [=]. by destruct Hne.
      * by rewrite list_lookup_insert_ne.
  - intros d [(<- & [= <-] & _)|[_ Hd]]%list_lookup_insert_Some; [|eauto].
    by eapply lookup_lt_Some.
  - intros d bd ad [(<- & [= <- <-] & _)|[Hne Hd]]%list_lookup_insert_Some Had; rewrite Hheld.
    + specialize (Ha Had). rewrite decide_True by done.
      destruct Hb as [[_ ->]|[]]; [|done]. rewrite (Honly _ _ _ Hph Had).
      destruct b; [|done]. pose proof (proj1 (Hpt _ _ _ Hph) eq_refl). congruence.
    + rewrite decide_False, Nat.add_0_r by done. eauto.
Qed.

(** [popcli] below a positive depth never panics. *)
Lemma popcli_depth c n :
  c_ncli c = Z.of_nat (S n) → c_if c = false → Z.of_nat (S n) < 2 ^ 31 →
  ∃ c', popcli c = Ret c' ∧ c_ncli c' = Z.of_nat n ∧ c_proc c' = c_proc c ∧
        (n ≠ 0%nat → c_if c' = false).
Proof.
  intros Hn Hi Hb. unfold popcli, readeflags_IF. rewrite Hi. simpl. rewrite Hn.
  rewrite i32_small by lia. destruct (_ <? 0) eqn:E; bool_to_prop; [lia|].
  destruct (_ && _) eqn:E2; eexists; (split; [done|]); simpl.
  - bool_to_prop. split_and!; [lia|done|]. intros. lia.
  - split_and!; [lia|done|done].
Qed.

Lemma LInv_release ls cs phs me c b a l :
  LInv ls cs phs → cs !! me = Some c → phs !! me = Some (b, a) →
  ls !! l = Some (mkLock 1 (Some me)) →
  (a = Left → l ≠ PTABLE_LOCK) →
  ∃ c', popcli c = Ret c' ∧ c_proc c' = c_proc c ∧
    LInv (<[l := mkLock 0 None]> ls) (<[me := c']> cs)
      (<[me := (if decide (l = PTABLE_LOCK) then false else b, a)]> phs).
Proof.
  intros [Hlen Hlk Hsh Hcli Hpt Hown Honly] Hc Hph Hl Ha.
  pose proof (lookup_lt_Some _ _ _ Hc). pose proof (lookup_lt_Some _ _ _ Hl) as Hlb.
  assert (∀ d, held d (<[l := mkLock 0 None]> ls) + (if decide (d = me) then 1 else 0) =
               held d ls)%nat as Hheld.
  { intros d. pose proof (held_insert d ls l _ (mkLock 0 None) Hl) as E.
    rewrite holding_free, holding_taken in E.
    destruct (decide (d = me)) as [->|Hd];
      [rewrite bool_decide_eq_true_2 in E by done|rewrite bool_decide_eq_false_2 in E by done];
      cbn match in E; lia. }
  pose proof (Hheld me) as Hme. rewrite decide_True in Hme by done.
  pose proof (held_le me ls). destruct (Hcli _ _ Hc) as [Hn Hi].
  destruct (popcli_depth c (held me (<[l := mkLock 0 None]> ls))) as (c' & Hp & Hd1 & Hpr & Hd2);
    [lia|apply Hi; lia|lia|].
  exists c'. split_and!; [done|done|].
  split; rewrite ?length_insert; try done.
  - intros l' lk' [(<- & <- & _)|[_ Hl']]%list_lookup_insert_Some; eauto.
  - intros d cp [(<- & <- & _)|[Hne Hd]]%list_lookup_insert_Some.
    + split; [done|]. rewrite Hd1. intros Hz. apply Hd2. lia.
    + specialize (Hheld d). rewrite decide_False, Nat.add_0_r in Hheld by done.
      rewrite Hheld. eauto.
  - intros d bd ad [(<- & [= <- <-] & _)|[Hne Hd]]%list_lookup_insert_Some;
      destruct (decide (l = PTABLE_LOCK)) as [->|Hn0].
    + rewrite list_lookup_insert_eq by done. done.
    + rewrite list_lookup_insert_ne by done. eauto.
    + rewrite (Hpt _ _ _ Hd), list_lookup_insert_eq, Hl by done. split; [|done].
      intros [=]. by destruct Hne.
    + rewrite list_lookup_insert_ne by done. eauto.
  - intros d [(<- & [=] & _)|[_ Hd]]%list_lookup_insert_Some; eauto.
  - intros d bd ad [(<- & [= <- <-] & _)|[Hne Hd]]%list_lookup_insert_Some Had.
    + specialize (Honly _ _ _ Hph Had). destruct b; [|lia].
      pose proof (proj1 (Hpt _ _ _ Hph) eq_refl) as Hp0.
      destruct (decide (l = PTABLE_LOCK)) as [->|Hne]; [lia|].
      pose proof (held_pos me (<[l := mkLock 0 None]> ls) PTABLE_LOCK) as Hpos.
      rewrite list_lookup_insert_ne in Hpos by done. specialize (Hpos Hp0). lia.
    + specialize (Hheld d). rewrite decide_False, Nat.add_0_r in Hheld by done.
      rewrite Hheld. eauto.
Qed.

(** ** Processes and CPUs *)
Lemma state_in_insert (v : list view) i w w0 j :
  v !! i = Some w0 →
  state_in (<[i := w]> v) j = if decide (j = i) then Some w.1.1 else state_in v j.
Proof.
  intros Hi. unfold state_in. case_decide; subst.
  - by rewrite list_lookup_insert_eq by (by eapply lookup_lt_Some).
  - by rewrite list_lookup_insert_ne.
Qed.

Lemma state_in_views t i p : procs t !! i = Some p → state_in (views t) i = Some (p_state p).
Proof. intros H. unfold state_in, views. by rewrite list_lookup_fmap, H. Qed.

Lemma state_in_reset (v : list view) i :
  state_in ((λ w : view, (w.1.1, 1, w.2)) <$> v) i = state_in v i.
Proof. unfold state_in. rewrite list_lookup_fmap. by destruct (v !! i). Qed.

Lemma act_ok_ext v v' a cp :
  (∀ i, cp = Some i ∨ fork_of a = Some i → state_in v' i = state_in v i) →
  act_ok v a cp → act_ok v' a cp.
Proof.
  intros Hs. destruct a; simpl; try done.
  all: try (intros [(i & -> & Hi) Hf]; split; [exists i; rewrite Hs; auto|]; intros n Hn;
            rewrite Hs; auto).
  all: intros (i & st & -> & Hi & Hl); exists i, st; rewrite Hs; auto.
Qed.

(** CPU [c] has [i] as its process or is filling it in fork. *)
Definition refers (phs : list phase) (cps : list (option nat)) (c i : nat) : Prop :=
  cps !! c = Some (Some i) ∨ ∃ b a, phs !! c = Some (b, a) ∧ fork_of a = Some i.

Lemma refers_state t cps ks phs c i :
  TInv t cps ks phs → refers phs cps c i →
  ∃ st, state_in (views t) i = Some st ∧
    (st = RUNNING ∨ st = EMBRYO ∨ left_state st = true ∧ ∃ a, phs !! c = Some (true, a)).
Proof.
  intros [_ Hlen _ Hact _ Hin _ _ _ _ _].
  intros [Hc|(b & a & Hc & Hf)].
  - destruct (lookup_lt_is_Some_2 phs c) as [[b a] Hp].
    { rewrite <- Hlen. by eapply lookup_lt_Some. }
    specialize (Hact _ _ _ _ Hp Hc). specialize (Hin _ _ _ Hp).
    destruct a; simpl in Hact, Hin; try done.
    all: try (destruct Hact as [(j & [= <-] & Hj) _]; exists RUNNING; auto).
    all: destruct Hact as (j & st & [= <-] & Hj & Hl); exists st; split; [done|];
         right; right; split; [done|]; rewrite <- (Hin eq_refl); eauto.
  - destruct (lookup_lt_is_Some_2 cps c) as [cp Hcp].
    { rewrite Hlen. by eapply lookup_lt_Some. }
    specialize (Hact _ _ _ _ Hc Hcp). exists EMBRYO. split; [|auto].
    destruct a; simpl in Hact, Hf; try done; destruct Hact as [_ Hact]; auto.
Qed.

(** Nobody else refers to the own process, to the slot being forked, to an
    unused slot, or, under the lock, to a process that is not running. *)
Lemma not_refers t cps ks phs me b a cp i st :
  TInv t cps ks phs → phs !! me = Some (b, a) → cps !! me = Some cp →
  state_in (views t) i = Some st →
  (st = RUNNING ∧ cp = Some i) ∨ (st = EMBRYO ∧ fork_of a = Some i) ∨ st = UNUSED ∨
  (b = true ∧ st ≠ RUNNING ∧ st ≠ EMBRYO) →
  ∀ c, c ≠ me → ¬ refers phs cps c i.
Proof.
  intros HT Hph Hcp Hst Hcase c Hc Href.
  destruct (refers_state _ _ _ _ _ _ HT Href) as (st' & Hst' & Hs). simplify_eq.
  destruct HT as [_ Hlen _ Hact Hlock Hin Huniq Hfork _ _ _].
  destruct Hcase as [[-> ->]|[[-> Hf]|[->|(-> & Hr & He)]]].
  - destruct Href as [Href|(b' & a' & Hp & Hf)]; [by apply Hc; eauto|].
    destruct (lookup_lt_is_Some_2 cps c) as [cp' Hcp'].
    { rewrite Hlen. by eapply lookup_lt_Some. }
    specialize (Hact _ _ _ _ Hp Hcp').
    destruct a'; simpl in Hact, Hf; try done; destruct Hact as [_ Hact];
      specialize (Hact _ Hf); congruence.
  - destruct Href as [Href|(b' & a' & Hp & Hf')]; [|by apply Hc; eauto].
    destruct (lookup_lt_is_Some_2 phs c) as [[b' a'] Hp].
    { rewrite <- Hlen. by eapply lookup_lt_Some. }
    specialize (Hact _ _ _ _ Hp Href).
    destruct a'; simpl in Hact; try done;
      try (destruct Hact as [(j & [= <-] & Hj) _]; congruence);
      destruct Hact as (j & s' & [= <-] & Hj & Hl); simplify_eq.
  - destruct Hs as [?|[?|[? _]]]; done.
  - destruct Hs as [?|[?|(_ & a' & Hp)]]; [done|done|]. by apply Hc; eauto.
Qed.

(** What has to be shown when CPU [me] moves to phase [(b', a')] and process
    [cp'], the table becomes [t'] and the stacks [ks']. *)
Lemma TInv_move t cps ks phs me b a cp t' b' a' cp' ks' :
  TInv t cps ks phs → phs !! me = Some (b, a) → cps !! me = Some cp →
  tbl_inv t' →
  (∀ c i, c ≠ me → refers phs cps c i → state_in (views t') i = state_in (views t) i) →
  act_ok (views t') a' cp' →
  (b' = true → b = true ∨ ∀ c ac, phs !! c ≠ Some (true, ac)) →
  (in_sched a' = true → b' = true) →
  (∀ i, cp' = Some i → cp = Some i ∨ ∀ c, cps !! c ≠ Some (Some i)) →
  (∀ np, fork_of a' = Some np → fork_of a = Some np ∨ ∀ c, ¬ refers phs cps c np) →
  (∀ i, state_in (views t') i = Some RUNNING →
        cp' = Some i ∨ (cp ≠ Some i ∧ state_in (views t) i = Some RUNNING)) →
  length ks' = NPROC →
  (∀ i st, state_in (views t') i = Some st → live st = true →
        ∃ k, ks' !! i = Some k ∧ returns_to k = true) →
  (∀ np, a' = ForkStack np → ks' !! np = Some KForkret) →
  (∀ c np, c ≠ me → refers phs cps c np → ks' !! np = ks !! np) →
  TInv t' (<[me := cp']> cps) ks' (<[me := (b', a')]> phs).
Proof.
  intros HT Hph Hcp Htbl Hoth Hact' Hb Hin' Hcp' Hfk Hrun' Hks' Hk' Hst' Hksoth.
  pose proof HT as [_ Hlen Hks Hact Hlock Hin Huniq Hfork Hrun Hkont Hstk].
  pose proof (lookup_lt_Some _ _ _ Hph) as Hlt. pose proof (lookup_lt_Some _ _ _ Hcp) as Hlt'.
  split; rewrite ?length_insert; try done.
  - intros c bc ac cpc [(<- & [= <- <-] & _)|[Hne Hc]]%list_lookup_insert_Some.
    + rewrite list_lookup_insert_eq by done. by intros [= <-].
    + rewrite list_lookup_insert_ne by done. intros Hcc. eapply act_ok_ext; [|by eauto].
      intros i Hi. apply (Hoth c); [done|]. destruct Hi as [->|Hi]; [by left|right; eauto].
  - intros c1 c2 a1 a2 [(<- & E1 & _)|[Hn1 H1]]%list_lookup_insert_Some
      [(<- & E2 & _)|[Hn2 H2]]%list_lookup_insert_Some; [done| | |eauto].
    + injection E1 as -> <-. destruct (Hb eq_refl) as [->|Hno]; [eauto|by destruct (Hno _ _ H2)].
    + injection E2 as -> <-. destruct (Hb eq_refl) as [->|Hno]; [eauto|by destruct (Hno _ _ H1)].
  - intros c bc ac [(<- & [= <- <-] & _)|[Hn1 H1]]%list_lookup_insert_Some; eauto.
  - intros c1 c2 i [(<- & [= ->] & _)|[Hn1 H1]]%list_lookup_insert_Some
      [(<- & E & _)|[Hn2 H2]]%list_lookup_insert_Some; [done| | |eauto].
    + destruct (Hcp' i eq_refl) as [->|Hno]; [eauto|by destruct (Hno _ H2)].
    + destruct (Hcp' i E) as [->|Hno]; [eauto|by destruct (Hno _ H1)].
  - intros c1 c2 b1 b2 a1 a2 np [(<- & [= <- <-] & _)|[Hn1 H1]]%list_lookup_insert_Some
      [(<- & E & _)|[Hn2 H2]]%list_lookup_insert_Some F1 F2; [done| | |eauto].
    + destruct (Hfk _ F1) as [F|Hno]; [eauto|]. destruct (Hno c2). right; eauto.
    + injection E as <- <-. destruct (Hfk _ F2) as [F|Hno]; [eauto|]. destruct (Hno c1). right; eauto.
  - intros i Hi. destruct (Hrun' i Hi) as [->|[Hne Hi']].
    + exists me. by rewrite list_lookup_insert_eq.
    + destruct (Hrun i Hi') as [c Hc]. exists c. rewrite list_lookup_insert_ne; [done|].
      intros ->. congruence.
  - intros c bc np [(<- & [= <- ->] & _)|[Hn1 H1]]%list_lookup_insert_Some; [auto|].
    rewrite (Hksoth c); [eauto|done|]. right; eauto.
Qed.

(** The lock is taken or given back, or the activity changes among those that
    ask the same of the process. *)
Lemma TInv_phase t cps ks phs me b a cp b' a' :
  TInv t cps ks phs → phs !! me = Some (b, a) → cps !! me = Some cp →
  act_ok (views t) a' cp →
  (b' = true → b = true ∨ ∀ c ac, phs !! c ≠ Some (true, ac)) →
  (in_sched a' = true → b' = true) →
  (∀ np, fork_of a' = Some np → fork_of a = Some np) →
  (∀ np, a' = ForkStack np → ks !! np = Some KForkret) →
  TInv t cps ks (<[me := (b', a')]> phs).
Proof.
  intros HT Hph Hcp Ha Hb Hin Hf Hs.
  rewrite <- (list_insert_id cps me cp) by done.
  pose proof HT as [Htbl _ Hks _ _ _ _ _ Hrun Hkont _].
  eapply TInv_move; eauto. intros i Hi.
  destruct cp as [j|]; [|by right]. destruct (decide (i = j)) as [->|]; [by left|].
  right. split; [congruence|done].
Qed.

(** Slot [i] changes its view; nobody else refers to it. *)
Lemma TInv_slot t cps ks phs me b a cp t' i (w w' : view) a' :
  TInv t cps ks phs → phs !! me = Some (b, a) → cps !! me = Some cp →
  tbl_inv t' → views t !! i = Some w → views t' = <[i := w']> (views t) →
  (∀ c, c ≠ me → ¬ refers phs cps c i) →
  act_ok (views t') a' cp → (in_sched a' = true → b = true) →
  (∀ np, fork_of a' = Some np → fork_of a = Some np ∨ ∀ c, ¬ refers phs cps c np) →
  (w'.1.1 = RUNNING → w.1.1 = RUNNING) →
  (live w'.1.1 = true → ∃ k, ks !! i = Some k ∧ returns_to k = true) →
  (∀ np, a' = ForkStack np → ks !! np = Some KForkret) →
  TInv t' cps ks (<[me := (b, a')]> phs).
Proof.
  intros HT Hph Hcp Htbl Hi Hv Href Ha Hin Hf Hrun Hk Hs.
  rewrite <- (list_insert_id cps me cp) by done.
  pose proof HT as [_ _ Hks _ _ _ _ _ Hrun0 Hkont _].
  assert (∀ j, state_in (views t') j = if decide (j = i) then Some w'.1.1 else state_in (views t) j)
    as Hst by (intros j; rewrite Hv; by eapply state_in_insert).
  assert (state_in (views t) i = Some w.1.1) as Hwi by (unfold state_in; by rewrite Hi).
  eapply TInv_move; eauto.
  - intros c j Hc Hr. rewrite Hst. case_decide; [|done]. subst. by destruct (Href c Hc).
  - intros j Hj. rewrite Hst in Hj. destruct (decide (cp = Some j)) as [->|]; [by left|].
    right. split; [done|]. case_decide; [subst|done]. rewrite Hwi. f_equal. apply Hrun. congruence.
  - intros j st Hj Hl. rewrite Hst in Hj. case_decide; [subst; simplify_eq; auto|eauto].
Qed.
