(* ===== verification/SchedThm.v ===== *)
(** * The scheduler theorems

    Every operation of ProcOps.v keeps the invariant of Sched.v, and the
    operations that only work on the table and the locks return without panic
    from every state that satisfies it.  The last part states the theorems
    for the states reachable from the state [userinit] leaves. *)
From S2P Require Import Prelude Machine Spinlock Kalloc Vm Proc ProcOps Sched.

Open Scope Z_scope.

(** ** Rules for the operations on the kernel state *)
Section Rules.
Context {W : Type} (F : Prop) (me : nat).
Implicit Types s : kstate W.

Lemma wp_mycpu s c Q : k_cpus s !! me = Some c → Q c s → wp F (mycpu me) Q s.
Proof. intros Hc HQ. unfold wp, mycpu, bind, gets. by rewrite Hc. Qed.

Lemma wp_upd_cpu s c f Q :
  k_cpus s !! me = Some c → Q tt (with_cpus (<[me := f c]> (k_cpus s)) s) →
  wp F (upd_cpu me f) Q s.
Proof. intros Hc HQ. unfold upd_cpu. apply wp_bind. by eapply wp_mycpu. Qed.

Lemma wp_get_lock s l lk Q : k_locks s !! l = Some lk → Q lk s → wp F (get_lock l) Q s.
Proof. intros Hl HQ. unfold wp, get_lock, bind, gets. by rewrite Hl. Qed.

Lemma wp_myproc s c i Q :
  k_cpus s !! me = Some c → c_proc c = Some i → Q i s → wp F (myproc me) Q s.
Proof.
  intros Hc Hi HQ. unfold myproc. apply wp_bind. eapply wp_mycpu; [done|]. by rewrite Hi.
Qed.

Lemma wp_read_proc s i p Q : procs (k_pt s) !! i = Some p → Q p s → wp F (read_proc i) Q s.
Proof.
  intros Hp HQ. unfold wp, read_proc, bind, gets, lift, get_proc. by rewrite Hp.
Qed.

Lemma wp_on_pt {A} s (e : M ptable A) a t Q :
  e (k_pt s) = Ret (a, t) → Q a (with_pt t s) → wp F (on_pt e) Q s.
Proof. intros He HQ. unfold wp, on_pt, zoom. by rewrite He. Qed.

Lemma wp_write_proc s i f t Q :
  upd_proc i f (k_pt s) = Ret t → Q tt (with_pt t s) → wp F (write_proc i f) Q s.
Proof. intros He HQ. unfold write_proc. eapply wp_on_pt; [|done]. by rewrite He. Qed.
End Rules.

(** Computations on memory and files leave the rest of the state alone. *)
Lemma wp_on_km {W A} (e : M kmem A) Q (s : kstate W) :
  (∀ a k, Q a (with_km k s)) → wp True (on_km e) Q s.
Proof. intros HQ. unfold wp, on_km, zoom. by destruct (e (k_km s)) as [[a k]| | |]. Qed.
Lemma wp_on_w {W A} (e : M W A) Q (s : kstate W) :
  (∀ a w, Q a (with_w w s)) → wp True (on_w e) Q s.
Proof. intros HQ. unfold wp, on_w, zoom. by destruct (e (k_w s)) as [[a w]| | |]. Qed.

Section InvRules.
Context {W : Type}.
Implicit Types (s : kstate W) (phs : list phase).

Lemma Inv_cpu s phs me b a :
  Inv (mkG s phs) → phs !! me = Some (b, a) →
  ∃ c, k_cpus s !! me = Some c ∧ act_ok (views (k_pt s)) a (c_proc c).
Proof.
  intros [HT HL] Hph. simpl in *. destruct (lookup_lt_is_Some_2 (k_cpus s) me) as [c Hc].
  { rewrite (li_len _ _ _ HL). by eapply lookup_lt_Some. }
  exists c. split; [done|]. eapply (ti_act _ _ _ _ HT); [done|].
  by rewrite list_lookup_fmap, Hc.
Qed.

(** The process a CPU runs. *)
Lemma Inv_running s phs me b a :
  Inv (mkG s phs) → phs !! me = Some (b, a) → (a = Run ∨ a = Resuming) →
  ∃ c cur p, k_cpus s !! me = Some c ∧ c_proc c = Some cur ∧
    procs (k_pt s) !! cur = Some p ∧ p_state p = RUNNING.
Proof.
  intros HI Hph Ha. destruct (Inv_cpu _ _ _ _ _ HI Hph) as (c & Hc & Hact).
  assert (∃ i, c_proc c = Some i ∧ state_in (views (k_pt s)) i = Some RUNNING) as (i & Hi & Hst)
    by (destruct Ha as [-> | ->]; apply Hact).
  unfold state_in in Hst. destruct (views (k_pt s) !! i) as [w|] eqn:Hw; [|done].
  destruct (views_lookup_inv _ _ _ Hw) as (p & Hp & ->). exists c, i, p. simpl in Hst.
  split_and!; congruence.
Qed.

Lemma Inv_cps s phs me c : Inv (mkG s phs) → k_cpus s !! me = Some c →
  (c_proc <$> k_cpus s) !! me = Some (c_proc c).
Proof. intros _ Hc. by rewrite list_lookup_fmap, Hc. Qed.

(** Nothing but the CPU structures and the locks differs. *)
Definition same_procs s s' : Prop :=
  k_pt s' = k_pt s ∧ k_konts s' = k_konts s ∧ c_proc <$> k_cpus s' = c_proc <$> k_cpus s ∧
  k_initproc s' = k_initproc s.

Lemma same_procs_trans s1 s2 s3 : same_procs s1 s2 → same_procs s2 s3 → same_procs s1 s3.
Proof. unfold same_procs. intuition congruence. Qed.
Lemma same_procs_cur s s' me c c' :
  same_procs s s' → k_cpus s !! me = Some c → k_cpus s' !! me = Some c' → c_proc c' = c_proc c.
Proof.
  intros (_ & _ & E & _) Hc Hc'. apply (f_equal (.!! me)) in E.
  rewrite !list_lookup_fmap, Hc, Hc' in E. by injection E.
Qed.

Definition ptable_free s : Prop := k_locks s !! PTABLE_LOCK = Some (mkLock 0 None).

Lemma Inv_not_owner s phs me a :
  Inv (mkG s phs) → phs !! me = Some (false, a) →
  k_locks s !! PTABLE_LOCK ≠ Some (mkLock 1 (Some me)).
Proof.
  intros [_ HL] Hph H. simpl in *. by apply (proj2 (li_ptable _ _ _ HL _ _ _ Hph)) in H.
Qed.

Lemma Inv_free_no_owner s phs :
  Inv (mkG s phs) → ptable_free s → ∀ c ac, phs !! c ≠ Some (true, ac).
Proof.
  intros [_ HL] Hf c ac Hc. simpl in *. unfold ptable_free in Hf.
  pose proof (proj1 (li_ptable _ _ _ HL _ _ _ Hc) eq_refl). congruence.
Qed.

Lemma fmap_insert_cproc (cs : list cpu) me c c' :
  cs !! me = Some c → c_proc c' = c_proc c → c_proc <$> <[me := c']> cs = c_proc <$> cs.
Proof.
  intros Hc Hp. rewrite list_fmap_insert, Hp. apply list_insert_id.
  by rewrite list_lookup_fmap, Hc.
Qed.

Lemma pushcli_proc c : c_proc (pushcli c) = c_proc c.
Proof. unfold pushcli. by case_match. Qed.

Lemma wp_acquire_ptable F me s phs a Q :
  Inv (mkG s phs) → phs !! me = Some (false, a) → F ∨ ptable_free s →
  in_sched a = false →
  (∀ s', Inv (mkG s' (<[me := (true, a)]> phs)) → same_procs s s' →
     held me (k_locks s') = S (held me (k_locks s)) →
     k_locks s' = <[PTABLE_LOCK := mkLock 1 (Some me)]> (k_locks s) → Q tt s') →
  wp F (acquire_lock me PTABLE_LOCK) Q s.
Proof.
  intros HI Hph Hfree Ha HQ. pose proof HI as [HT HL]. simpl in *.
  destruct (Inv_cpu _ _ _ _ _ HI Hph) as (c & Hc & Hact).
  destruct (lookup_lt_is_Some_2 (k_locks s) PTABLE_LOCK) as [lk Hlk].
  { pose proof (li_locks _ _ _ HL). unfold PTABLE_LOCK. lia. }
  unfold acquire_lock. apply wp_bind. eapply wp_mycpu; [done|].
  apply wp_bind. eapply wp_get_lock; [done|]. apply wp_bind.
  destruct (li_shape _ _ _ HL _ _ Hlk) as [->|[d ->]].
  - eapply wp_lift; [by apply acquire_free|]. apply wp_bind, wp_modify, wp_modify. apply HQ.
    + split; simpl.
      * rewrite (fmap_insert_cproc _ _ c) by (done || apply pushcli_proc).
        eapply TInv_phase; eauto using Inv_cps, Inv_free_no_owner.
        intros np ->. eapply (ti_stack _ _ _ _ HT). exact Hph.
      * eapply (LInv_acquire _ _ _ _ _ false a); eauto.
    + unfold same_procs. simpl. split_and!; try done.
      by apply (fmap_insert_cproc _ _ c), pushcli_proc.
    + simpl. pose proof (held_insert me _ _ _ (mkLock 1 (Some me)) Hlk) as E.
      rewrite holding_free, holding_taken, bool_decide_eq_true_2 in E by done.
      cbn match in E. lia.
    + done.
  - destruct Hfree as [HF|Hf]; [|unfold ptable_free in Hf; congruence].
    unfold wp, lift, acquire. rewrite holding_taken. case_bool_decide; done.
Qed.

Lemma wp_release_ptable F me s phs a Q :
  Inv (mkG s phs) → phs !! me = Some (true, a) → in_sched a = false →
  (∀ s', Inv (mkG s' (<[me := (false, a)]> phs)) → same_procs s s' → Q tt s') →
  wp F (release_lock me PTABLE_LOCK) Q s.
Proof.
  intros HI Hph Ha HQ. pose proof HI as [HT HL]. simpl in *.
  destruct (Inv_cpu _ _ _ _ _ HI Hph) as (c & Hc & Hact).
  pose proof (proj1 (li_ptable _ _ _ HL _ _ _ Hph) eq_refl) as Hlk.
  unfold release_lock. apply wp_bind. eapply wp_mycpu; [done|].
  apply wp_bind. eapply wp_get_lock; [done|]. apply wp_bind.
  destruct (LInv_release _ _ _ _ _ _ _ _ HL Hc Hph Hlk) as (c' & Hpop & Hcp & HL').
  { intros ->. done. }
  eapply wp_lift.
  { unfold release. rewrite holding_taken, bool_decide_eq_true_2 by done. simpl. by rewrite Hpop. }
  apply wp_bind, wp_modify, wp_modify. apply HQ.
  - split; simpl; [|by rewrite decide_True in HL' by done].
    rewrite (fmap_insert_cproc _ _ c) by done.
    eapply TInv_phase; eauto using Inv_cps.
    intros np ->. eapply (ti_stack _ _ _ _ HT). exact Hph.
  - unfold same_procs. simpl. split_and!; try done. by apply (fmap_insert_cproc _ _ c).
Qed.

(** *** Changes of the table *)
Lemma Inv_states s phs t' :
  Inv (mkG s phs) → tbl_inv t' →
  (∀ i, state_in (views t') i = state_in (views (k_pt s)) i) →
  Inv (mkG (with_pt t' s) phs).
Proof.
  intros [[Htbl Hlen Hks Hact Hlock Hin Huniq Hfork Hrun Hkont Hstk] HL] Ht Hv.
  split; [|done]. split; simpl; try done.
  - intros c b a cp Hp Hc. eapply act_ok_ext; [|by eauto]. auto.
  - intros i. rewrite Hv. apply Hrun.
  - intros i st. rewrite Hv. apply Hkont.
Qed.

(** Fields that the lists do not depend on. *)
Lemma wp_write_same F s phs i p f Q :
  Inv (mkG s phs) → procs (k_pt s) !! i = Some p →
  view_of (f p) = view_of p → p_next (f p) = p_next p →
  (∀ s', s' = with_pt (set_procs (<[i := f p]> (procs (k_pt s))) (k_pt s)) s →
     Inv (mkG s' phs) → Q tt s') →
  wp F (write_proc i f) Q s.
Proof.
  intros HI Hp Hv Hn HQ. pose proof HI as [HT _]. injection Hv as Hv1 Hv2 Hv3.
  destruct (ti_tbl _ _ _ _ HT) as (fl & rl & Hrep & Hslot).
  destruct (Hslot _ _ (views_lookup _ _ _ Hp)) as (_ & _ & Hlive).
  destruct (tbl_write (k_pt s) i p f) as (t' & Ht & Htbl & Hvs & ->);
    rewrite ?Hv1, ?Hv2, ?Hv3; try done; [apply (ti_tbl _ _ _ _ HT)|].
  eapply wp_write_proc; [done|]. apply HQ; [done|]. apply Inv_states; [done|done|].
  intros j. rewrite Hvs. rewrite (state_in_insert _ _ _ _ _ (views_lookup _ _ _ Hp)).
  case_decide; [|done]. subst. rewrite (state_in_views _ _ _ Hp). simpl. by rewrite Hv1.
Qed.

(** Outside [sched] a CPU refers to running processes and embryos only. *)
Lemma act_ok_no_ref v a cp i st :
  in_sched a = false → act_ok v a cp → state_in v i = Some st → st ≠ RUNNING → st ≠ EMBRYO →
  cp = Some i ∨ fork_of a = Some i → False.
Proof.
  intros Ha Hact Hi Hr He Hj. destruct a; simpl in *; try done; destruct Hj as [->|Hj]; try done;
    destruct Hact as [(j & Ej & Hjs) Hf]; simplify_eq/=; try congruence.
  all: specialize (Hf _ eq_refl); congruence.
Qed.

(** A sleeping process becomes runnable, by a CPU that holds the lock. *)
Lemma wp_wake F me s phs a i p Q :
  Inv (mkG s phs) → phs !! me = Some (true, a) → in_sched a = false →
  procs (k_pt s) !! i = Some p → p_state p = SLEEPING →
  (∀ s', Inv (mkG s' phs) → k_cpus s' = k_cpus s → k_locks s' = k_locks s →
     k_konts s' = k_konts s → k_initproc s' = k_initproc s → Q tt s') →
  wp F (write_proc i (set_state RUNNABLE) ;! on_pt (AddReadyList i) ;! skip) Q s.
Proof.
  intros HI Hph Ha Hp Hst HQ. pose proof HI as [HT HL]. simpl in HT.
  destruct (Inv_cpu _ _ _ _ _ HI Hph) as (c & Hc & Hact).
  pose proof (views_lookup _ _ _ Hp) as Hv. unfold view_of in Hv. rewrite Hst in Hv.
  pose proof (ti_tbl _ _ _ _ HT) as (fl & rl & Hrep & Hslot).
  destruct (Hslot _ _ Hv) as (_ & _ & Hlive). destruct (Hlive eq_refl) as [Hpr Hpg].
  destruct (tbl_runnable _ _ _ _ _ (ti_tbl _ _ _ _ HT) Hv) as (t1 & t2 & H1 & H2 & Htbl & Hvs);
    try done.
  apply wp_bind. eapply wp_write_proc; [done|]. apply wp_bind.
  eapply (wp_on_pt F _ (AddReadyList i) 0 t2); [done|]. apply wp_skip. apply HQ; try done.
  split; [|done]. simpl. rewrite <- (list_insert_id phs me (true, a)) by done.
  assert (state_in (views (k_pt s)) i = Some SLEEPING) as Hsi by (unfold state_in; by rewrite Hv).
  assert (∀ d, d ≠ me → ¬ refers phs (c_proc <$> k_cpus s) d i) as Href.
  { eapply not_refers; eauto using Inv_cps. right; right; right. split_and!; [done..|].
    congruence. }
  eapply TInv_slot; eauto using Inv_cps; try done.
  - eapply act_ok_ext; [|done]. intros j Hj. rewrite Hvs, (state_in_insert _ _ _ _ _ Hv).
    case_decide; [subst j|done]. exfalso. by eapply act_ok_no_ref.
  - intros _. by eapply (ti_kont _ _ _ _ HT).
  - intros np ->. by eapply (ti_stack _ _ _ _ HT).
Qed.

Lemma Inv_slot s phs i : Inv (mkG s phs) → (i < NPROC)%nat → ∃ p, procs (k_pt s) !! i = Some p.
Proof.
  intros [HT _] Hi. destruct (ti_tbl _ _ _ _ HT) as (fl & rl & (_ & _ & _ & _ & Hlen) & _).
  apply lookup_lt_is_Some_2. simpl in *. lia.
Qed.

(** [s'] differs from [s] only in the table, memory and files. *)
Definition same_cpus s s' : Prop :=
  k_cpus s' = k_cpus s ∧ k_locks s' = k_locks s ∧ k_konts s' = k_konts s ∧
  k_initproc s' = k_initproc s.
Lemma same_cpus_refl s : same_cpus s s.
Proof. done. Qed.
Lemma same_cpus_trans s1 s2 s3 : same_cpus s1 s2 → same_cpus s2 s3 → same_cpus s1 s3.
Proof. unfold same_cpus. intuition congruence. Qed.

Lemma wp_wakeup1 F me s phs a ch :
  Inv (mkG s phs) → phs !! me = Some (true, a) → in_sched a = false →
  wp F (wakeup1 ch) (λ _ s', Inv (mkG s' phs) ∧ same_cpus s s') s.
Proof.
  intros HI Hph Ha. unfold wakeup1.
  apply (wp_for_each F (λ s', Inv (mkG s' phs) ∧ same_cpus s s')); [|by split].
  intros i s1 [_ Hi]%elem_of_seq [HI1 Hs1].
  destruct (Inv_slot _ _ i HI1) as [p Hp]; [lia|].
  apply wp_bind. eapply wp_read_proc; [done|].
  destruct (_ && _) eqn:E; [|by apply wp_skip].
  apply andb_prop in E as [E%bool_decide_eq_true _].
  eapply wp_wake; [done..|]. intros s2 HI2 ????. split; [done|].
  eapply same_cpus_trans; [done|]. done.
Qed.

(** *** Leaving the CPU *)
Lemma LInv_relabel ls cs phs me (b : bool) a a' :
  LInv ls cs phs → phs !! me = Some (b, a) →
  (a' = Idle ∨ a' = Left → held me ls = if b then 1%nat else 0%nat) →
  LInv ls cs (<[me := (b, a')]> phs).
Proof.
  intros [Hlen Hlk Hsh Hcli Hpt Hown Honly] Hph Ha.
  split; rewrite ?length_insert; try done.
  - intros d bd ad [(<- & [= <- <-] & _)|[Hne Hd]]%list_lookup_insert_Some; eauto.
  - intros d bd ad [(<- & [= <- <-] & _)|[Hne Hd]]%list_lookup_insert_Some; eauto.
Qed.

(** The running process [cur] changes its state to [st] and leaves. *)
Lemma Inv_leave s phs me cur c t' (w w' : view) :
  Inv (mkG s phs) → phs !! me = Some (true, Run) → k_cpus s !! me = Some c → c_proc c = Some cur →
  tbl_inv t' → views (k_pt s) !! cur = Some w → views t' = <[cur := w']> (views (k_pt s)) →
  w.1.1 = RUNNING → left_state w'.1.1 = true →
  Inv (mkG (with_pt t' s) (<[me := (true, Leaving)]> phs)).
Proof.
  intros HI Hph Hc Hcur Htbl Hw Hv Hr Hl. pose proof HI as [HT HL]. simpl in *.
  assert (state_in (views (k_pt s)) cur = Some RUNNING) as Hst
    by (unfold state_in; by rewrite Hw, <- Hr).
  split; simpl; [|by eapply LInv_relabel; eauto; intros [|]].
  eapply TInv_slot; eauto using Inv_cps; try done.
  - eapply not_refers; eauto using Inv_cps.
  - exists cur, w'.1.1. rewrite Hv, (state_in_insert _ _ _ _ _ Hw), decide_True by done. done.
  - intros _. by eapply (ti_kont _ _ _ _ HT).
Qed.

Lemma wp_leave_runnable {A} F me s phs cur c (e : M (kstate W) A) Q :
  Inv (mkG s phs) → phs !! me = Some (true, Run) →
  k_cpus s !! me = Some c → c_proc c = Some cur →
  (∀ s', Inv (mkG s' (<[me := (true, Leaving)]> phs)) → same_cpus s s' → wp F e Q s') →
  wp F (write_proc cur (set_state RUNNABLE) ;! on_pt (AddReadyList cur) ;! e) Q s.
Proof.
  intros HI Hph Hc Hcur HQ. pose proof HI as [HT HL].
  destruct (Inv_running _ _ _ _ _ HI Hph (or_introl eq_refl)) as (c' & i & p & Hc' & Hi & Hp & Hst).
  assert (i = cur) as -> by congruence. pose proof (views_lookup _ _ _ Hp) as Hv. unfold view_of in Hv. rewrite Hst in Hv.
  pose proof (ti_tbl _ _ _ _ HT) as (fl & rl & Hrep & Hslot).
  destruct (Hslot _ _ Hv) as (_ & _ & Hlive). destruct (Hlive eq_refl) as [Hpr Hpg].
  destruct (tbl_runnable _ _ _ _ _ (ti_tbl _ _ _ _ HT) Hv) as (t1 & t2 & H1 & H2 & Htbl & Hvs);
    try done.
  apply wp_bind. eapply wp_write_proc; [done|]. apply wp_bind.
  eapply (wp_on_pt F _ (AddReadyList cur) 0 t2); [done|]. apply HQ; [|done].
  change (with_pt t2 (with_pt t1 s)) with (with_pt t2 s).
  eapply Inv_leave; eauto; done.
Qed.

Lemma wp_leave F me s phs cur c st Q :
  Inv (mkG s phs) → phs !! me = Some (true, Run) →
  k_cpus s !! me = Some c → c_proc c = Some cur → st = SLEEPING ∨ st = ZOMBIE →
  (∀ s', Inv (mkG s' (<[me := (true, Leaving)]> phs)) → same_cpus s s' →
     state_in (views (k_pt s')) cur = Some st → Q tt s') →
  wp F (write_proc cur (set_state st)) Q s.
Proof.
  intros HI Hph Hc Hcur Hst' HQ. pose proof HI as [HT HL].
  destruct (Inv_running _ _ _ _ _ HI Hph (or_introl eq_refl)) as (c' & i & p & Hc' & Hi & Hp & Hst).
  assert (i = cur) as -> by congruence. pose proof (views_lookup _ _ _ Hp) as Hv.
  pose proof (ti_tbl _ _ _ _ HT) as (fl & rl & Hrep & Hslot).
  destruct (Hslot _ _ Hv) as (_ & _ & Hlive). rewrite Hst in Hlive.
  destruct (tbl_write (k_pt s) cur p (set_state st) (ti_tbl _ _ _ _ HT) Hp)
    as (t' & Ht & Htbl & Hvs & _); simpl; rewrite ?Hst; auto; try (by destruct Hst' as [-> | ->]).
  eapply wp_write_proc; [done|]. apply HQ; [|done|].
  - eapply Inv_leave; eauto; try done. by destruct Hst' as [-> | ->].
  - simpl. rewrite Hvs, (state_in_insert _ _ _ _ _ Hv), decide_True by done. done.
Qed.

Lemma holds_ptable s phs me a :
  Inv (mkG s phs) → phs !! me = Some (true, a) →
  k_locks s !! PTABLE_LOCK = Some (mkLock 1 (Some me)).
Proof. intros [_ HL] Hph. by apply (li_ptable _ _ _ HL _ _ _ Hph). Qed.

(** The own process of a CPU that is leaving. *)
Lemma Inv_leaving s phs me :
  Inv (mkG s phs) → phs !! me = Some (true, Leaving) →
  ∃ c cur p, k_cpus s !! me = Some c ∧ c_proc c = Some cur ∧
    procs (k_pt s) !! cur = Some p ∧ left_state (p_state p) = true.
Proof.
  intros HI Hph. destruct (Inv_cpu _ _ _ _ _ HI Hph) as (c & Hc & i & st & Hi & Hst & Hl).
  unfold state_in in Hst. destruct (views (k_pt s) !! i) as [w|] eqn:Hw; [|done].
  destruct (views_lookup_inv _ _ _ Hw) as (p & Hp & ->). exists c, i, p. simpl in Hst.
  split_and!; congruence.
Qed.

Lemma wp_sched F me s phs k :
  Inv (mkG s phs) → phs !! me = Some (true, Leaving) →
  F ∨ held me (k_locks s) = 1%nat →
  ((∀ n, returns_to (k n) = true) ∨
   ∀ c cur, k_cpus s !! me = Some c → c_proc c = Some cur →
     state_in (views (k_pt s)) cur = Some ZOMBIE) →
  wp F (sched me k) (λ _ s', Inv (mkG s' (<[me := (true, Left)]> phs))) s.
Proof.
  intros HI Hph Hheld Hk. pose proof HI as [HT HL]. simpl in *.
  destruct (Inv_leaving _ _ _ HI Hph) as (c & cur & p & Hc & Hcur & Hp & Hl).
  destruct (li_cli _ _ _ HL _ _ Hc) as [Hn Hif].
  pose proof (holds_ptable _ _ _ _ HI Hph) as Hlk. pose proof (held_pos _ _ _ Hlk) as Hpos.
  unfold sched. apply wp_bind. eapply wp_get_lock; [done|].
  rewrite holding_taken, bool_decide_eq_true_2 by done. simpl.
  apply wp_bind. eapply wp_mycpu; [done|].
  destruct (c_ncli c =? 1) eqn:E; bool_to_prop; simpl.
  2:{ destruct Hheld as [HF|Hh]; [unfold wp, panic; done|lia]. }
  apply wp_bind. eapply wp_myproc; [done..|]. apply wp_bind. eapply wp_read_proc; [done|].
  rewrite bool_decide_eq_false_2 by (intros Hr; by rewrite Hr in Hl).
  unfold readeflags_IF. rewrite Hif by lia. simpl. apply wp_modify.
  split; simpl; [|eapply LInv_relabel; eauto; lia].
  pose proof (state_in_views _ _ _ Hp) as Hst.
  assert (cur < length (k_konts s))%nat as Hb.
  { rewrite (ti_konts _ _ _ _ HT). destruct (ti_tbl _ _ _ _ HT) as (? & ? & (_ & _ & _ & _ & <-) & _).
    by eapply lookup_lt_Some. }
  rewrite <- (list_insert_id (c_proc <$> k_cpus s) me (Some cur))
    by (rewrite <- Hcur; eauto using Inv_cps).
  eapply TInv_move; eauto using Inv_cps; try done.
  - apply (ti_tbl _ _ _ _ HT).
  - exists cur, (p_state p). done.
  - intros i [= <-]. by left.
  - intros i Hi. right. split; [|done]. rewrite Hcur. intros [= <-].
    rewrite Hst in Hi. injection Hi as Hi. by rewrite Hi in Hl.
  - rewrite length_insert. apply (ti_konts _ _ _ _ HT).
  - intros i st Hi Hlv. destruct (decide (i = cur)) as [->|Hne].
    + rewrite list_lookup_insert_eq by done. eexists. split; [done|].
      destruct Hk as [Hk|Hk]; [done|]. specialize (Hk _ _ Hc Hcur).
      rewrite Hi in Hk. by injection Hk as ->.
    + rewrite list_lookup_insert_ne by done. by eapply (ti_kont _ _ _ _ HT).
  - intros d np Hd Href. rewrite list_lookup_insert_ne; [done|]. intros <-.
    eapply (not_refers _ _ _ _ me); eauto using Inv_cps.
    right; right; right. split_and!; [done| |]; intros E2; by rewrite E2 in Hl.
Qed.

Lemma list_insert_twice {A} (l : list A) i x y : <[i := x]> (<[i := y]> l) = <[i := x]> l.
Proof. apply list_insert_insert_eq. Qed.

(** A CPU that runs no critical section holds [n] other locks. *)
Lemma wp_yield F me s phs :
  Inv (mkG s phs) → phs !! me = Some (false, Run) →
  F ∨ (ptable_free s ∧ held me (k_locks s) = 0%nat) →
  wp F (yield me) (λ _ s', Inv (mkG s' (<[me := (true, Left)]> phs))) s.
Proof.
  intros HI Hph Hfree. pose proof (lookup_lt_Some _ _ _ Hph) as Hlt. unfold yield.
  apply wp_bind. eapply wp_acquire_ptable; [done..| |done|]; [tauto|].
  intros s1 HI1 Hs1 Hh1 _.
  assert (<[me := (true, Run)]> phs !! me = Some (true, Run)) as Hph1
    by (by apply list_lookup_insert_eq).
  destruct (Inv_running _ _ _ _ _ HI1 Hph1 (or_introl eq_refl)) as (c & cur & p & Hc & Hcur & Hp & Hst).
  apply wp_bind. eapply wp_myproc; [done..|]. eapply wp_leave_runnable; [done..|].
  intros s2 HI2 Hs2. rewrite list_insert_twice in HI2.
  eapply wp_mono; [eapply wp_sched; [done|by apply list_lookup_insert_eq| |by left]|].
  - destruct Hfree as [|[_ Hz]]; [by left|right]. destruct Hs2 as (_ & -> & _). lia.
  - intros [] s3. by rewrite list_insert_twice.
Qed.

(** *** Other locks *)
Lemma wp_acquire_other F me s phs b a l Q :
  Inv (mkG s phs) → phs !! me = Some (b, a) → l ≠ PTABLE_LOCK → a ≠ Idle → a ≠ Left →
  F ∨ k_locks s !! l = Some (mkLock 0 None) →
  (∀ s', Inv (mkG s' phs) → same_procs s s' → Q tt s') →
  wp F (acquire_lock me l) Q s.
Proof.
  intros HI Hph Hl Hi Hf HF HQ. pose proof HI as [HT HL]. simpl in *.
  destruct (Inv_cpu _ _ _ _ _ HI Hph) as (c & Hc & Hact).
  unfold acquire_lock. apply wp_bind. eapply wp_mycpu; [done|]. apply wp_bind.
  destruct (k_locks s !! l) as [lk|] eqn:Hlk.
  2:{ destruct HF as [HF|]; [|done]. unfold wp, get_lock, bind, gets. by rewrite Hlk. }
  eapply wp_get_lock; [done|]. apply wp_bind.
  destruct (li_shape _ _ _ HL _ _ Hlk) as [->|[d ->]].
  - eapply wp_lift; [by apply acquire_free|]. apply wp_bind, wp_modify, wp_modify. apply HQ.
    + split; simpl.
      * by rewrite (fmap_insert_cproc _ _ c) by (done || apply pushcli_proc).
      * rewrite <- (list_insert_id phs me (b, a)) by done.
        eapply (LInv_acquire _ _ _ _ _ b a); eauto. by intros [|].
    + unfold same_procs. simpl. split_and!; try done.
      by apply (fmap_insert_cproc _ _ c), pushcli_proc.
  - destruct HF as [HF|]; [|done].
    unfold wp, lift, acquire. rewrite holding_taken. case_bool_decide; done.
Qed.

Lemma wp_release_other F me s phs b a l Q :
  Inv (mkG s phs) → phs !! me = Some (b, a) → l ≠ PTABLE_LOCK →
  F ∨ k_locks s !! l = Some (mkLock 1 (Some me)) →
  (∀ s', Inv (mkG s' phs) → same_procs s s' →
     k_locks s' = <[l := mkLock 0 None]> (k_locks s) →
     k_locks s !! l = Some (mkLock 1 (Some me)) → Q tt s') →
  wp F (release_lock me l) Q s.
Proof.
  intros HI Hph Hl HF HQ. pose proof HI as [HT HL]. simpl in *.
  destruct (Inv_cpu _ _ _ _ _ HI Hph) as (c & Hc & Hact).
  unfold release_lock. apply wp_bind. eapply wp_mycpu; [done|]. apply wp_bind.
  destruct (k_locks s !! l) as [lk|] eqn:Hlk.
  2:{ destruct HF as [HF|]; [|done]. unfold wp, get_lock, bind, gets. by rewrite Hlk. }
  eapply wp_get_lock; [done|]. apply wp_bind.
  assert (lk = mkLock 1 (Some me) ∨ F ∧ holding me lk = false) as [->|[HF' Hh]].
  { destruct (li_shape _ _ _ HL _ _ Hlk) as [->|[d ->]].
    - destruct HF as [HF|]; [by right|done].
    - destruct (decide (d = me)) as [->|]; [by left|]. right.
      rewrite holding_taken, bool_decide_eq_false_2 by done. split; [|done].
      destruct HF as [HF|[=]]; done. }
  2:{ unfold wp, lift, release. by rewrite Hh. }
  destruct (LInv_release _ _ _ _ _ _ _ _ HL Hc Hph Hlk) as (c' & Hpop & Hcp & HL'); [done|].
  eapply wp_lift.
  { unfold release. rewrite holding_taken, bool_decide_eq_true_2 by done. simpl. by rewrite Hpop. }
  apply wp_bind, wp_modify, wp_modify. apply HQ; [|unfold same_procs; simpl|done|done].
  - split; simpl; [by rewrite (fmap_insert_cproc _ _ c)|].
    rewrite decide_False in HL' by done. by rewrite (list_insert_id phs) in HL'.
  - split_and!; try done. by apply (fmap_insert_cproc _ _ c).
Qed.

(** *** sleep, wakeup, kill *)
Lemma wp_sleep F me s phs ch l :
  Inv (mkG s phs) → phs !! me = Some (false, Run) → l ≠ PTABLE_LOCK →
  F ∨ (ptable_free s ∧ k_locks s !! l = Some (mkLock 1 (Some me)) ∧ held me (k_locks s) = 1%nat) →
  wp F (sleep me ch (Some l)) (λ _ s', Inv (mkG s' (<[me := (true, Left)]> phs))) s.
Proof.
  intros HI Hph Hl Hfree. pose proof (lookup_lt_Some _ _ _ Hph) as Hlt.
  destruct (Inv_running _ _ _ _ _ HI Hph (or_introl eq_refl)) as (c & cur & p & Hc & Hcur & _).
  unfold sleep. apply wp_bind. eapply wp_mycpu; [done|]. rewrite Hcur.
  rewrite (proj2 (Nat.eqb_neq _ _)) by done.
  apply wp_bind, wp_bind. eapply wp_acquire_ptable; [done..| |done|]; [tauto|].
  intros s1 HI1 Hs1 Hh1 Hlk1.
  assert (<[me := (true, Run)]> phs !! me = Some (true, Run)) as Hph1
    by (by apply list_lookup_insert_eq).
  assert (F ∨ k_locks s1 !! l = Some (mkLock 1 (Some me))) as Hl1.
  { rewrite Hlk1, list_lookup_insert_ne by done. tauto. }
  eapply wp_release_other; [done..|]. intros s2 HI2 Hs2 Hlk2 Hlm.
  destruct (Inv_running _ _ _ _ _ HI2 Hph1 (or_introl eq_refl))
    as (c2 & cur2 & p2 & Hc2 & Hcur2 & Hp2 & Hst2).
  assert (cur2 = cur) as ->.
  { pose proof (same_procs_cur _ _ _ _ _ (same_procs_trans _ _ _ Hs1 Hs2) Hc Hc2). congruence. }
  apply wp_bind. eapply wp_write_same; [done..|]. intros s3 -> HI3. apply wp_bind.
  eapply wp_leave; [done|done|done|done|by left|]. intros s4 HI4 Hs4 Hst4.
  rewrite list_insert_twice in HI4.
  eapply wp_mono; [eapply wp_sched; [done|by apply list_lookup_insert_eq| |by left]|].
  - destruct Hfree as [|(_ & _ & Hz)]; [by left|right].
    destruct Hs4 as (_ & -> & _). simpl. rewrite Hlk2.
    pose proof (held_insert me _ _ _ (mkLock 0 None) Hlm) as E.
    rewrite holding_taken, bool_decide_eq_true_2, holding_free in E by done.
    cbn match in E. lia.
  - intros [] s5. by rewrite list_insert_twice.
Qed.

(** A critical section of a CPU in activity [a]: the lock is taken, [e] keeps
    the invariant, and the lock is given back. *)
Lemma wp_critical {A} F me s phs a (e : M (kstate W) A) (Q : A → kstate W → Prop) :
  Inv (mkG s phs) → phs !! me = Some (false, a) → in_sched a = false → F ∨ ptable_free s →
  (∀ s1, Inv (mkG s1 (<[me := (true, a)]> phs)) → same_procs s s1 → wp F e Q s1) →
  wp F (acquire_lock me PTABLE_LOCK ;! e) Q s.
Proof.
  intros HI Hph Ha Hfree He. apply wp_bind. eapply wp_acquire_ptable; [done..|].
  intros s1 HI1 Hs1 _ _. auto.
Qed.

Lemma wp_unlock {A} F me s phs a (r : A) :
  Inv (mkG s (<[me := (true, a)]> phs)) → (me < length phs)%nat → in_sched a = false →
  wp F (release_lock me PTABLE_LOCK ;! ret r) (λ r' s', r' = r ∧ Inv (mkG s' (<[me := (false, a)]> phs))) s.
Proof.
  intros HI Hlt Ha. apply wp_bind.
  eapply wp_release_ptable; [done|by apply list_lookup_insert_eq|done|].
  intros s' HI' _. rewrite list_insert_twice in HI'. by apply wp_ret.
Qed.

Lemma insert_phase phs me (ph : phase) : phs !! me = Some ph → <[me := ph]> phs = phs.
Proof. apply list_insert_id. Qed.

Lemma wp_wakeup F me s phs a ch :
  Inv (mkG s phs) → phs !! me = Some (false, a) → in_sched a = false → F ∨ ptable_free s →
  wp F (wakeup me ch) (λ _ s', Inv (mkG s' phs)) s.
Proof.
  intros HI Hph Ha Hfree. pose proof (lookup_lt_Some _ _ _ Hph) as Hlt. unfold wakeup.
  eapply wp_critical; [done..|]. intros s1 HI1 _. apply wp_bind.
  eapply wp_mono; [eapply wp_wakeup1; [done|by apply list_lookup_insert_eq|done]|].
  intros [] s2 [HI2 _].
  eapply wp_release_ptable; [done|by apply list_lookup_insert_eq|done|].
  intros s3 HI3 _. by rewrite list_insert_twice, insert_phase in HI3.
Qed.

Lemma find_pid_spec pid ps : ∀ n i,
  find_pid pid ps n = Some i →
  ∃ j p, i = (n + j)%nat ∧ ps !! j = Some p ∧ p_pid p = pid.
Proof.
  induction ps as [|p ps IH]; intros n i H; simpl in H; [done|].
  destruct (p_pid p =? pid) eqn:E; bool_to_prop; simplify_eq.
  - exists 0%nat, p. split_and!; [lia|done|done].
  - destruct (IH _ _ H) as (j & q & -> & Hq & Hpid). exists (S j), q. split_and!; [lia|done|done].
Qed.

Lemma wp_kill F me s phs pid :
  Inv (mkG s phs) → phs !! me = Some (false, Run) → F ∨ ptable_free s →
  wp F (kill me pid) (λ _ s', Inv (mkG s' phs)) s.
Proof.
  intros HI Hph Hfree. pose proof (lookup_lt_Some _ _ _ Hph) as Hlt. unfold kill.
  eapply wp_critical; [done..|]. intros s1 HI1 _. apply wp_bind, wp_gets.
  assert (∀ s2 (r : Z), Inv (mkG s2 (<[me:=(true, Run)]> phs)) →
    wp F (release_lock me PTABLE_LOCK ;! ret r) (λ _ s', Inv (mkG s' phs)) s2) as Hend.
  { intros s2 r HI2. eapply wp_mono; [by eapply wp_unlock|]. intros r' s3 [_ HI3].
    by rewrite insert_phase in HI3. }
  destruct (find_pid pid (procs (k_pt s1)) 0) as [i|] eqn:Hi; [|auto].
  apply find_pid_spec in Hi as (j & p & -> & Hp & _). simpl.
  apply wp_bind. eapply wp_write_same; [done..|]. intros s2 -> HI2.
  apply wp_bind. eapply (wp_read_proc F _ _ (set_killed 1 p)).
  { simpl. apply list_lookup_insert_eq. by eapply lookup_lt_Some. }
  apply wp_bind. case_bool_decide as Hst; [|apply wp_skip; auto].
  eapply wp_wake; [done|by apply list_lookup_insert_eq|done| |done|auto].
  simpl. apply list_lookup_insert_eq. by eapply lookup_lt_Some.
Qed.

(** *** exit *)
Lemma wp_reparent F me s phs a cur :
  Inv (mkG s phs) → phs !! me = Some (true, a) → in_sched a = false →
  wp F (reparent cur) (λ _ s', Inv (mkG s' phs) ∧ same_cpus s s') s.
Proof.
  intros HI Hph Ha. unfold reparent.
  apply (wp_for_each F (λ s', Inv (mkG s' phs) ∧ same_cpus s s')); [|by split].
  intros i s1 [_ Hi]%elem_of_seq [HI1 Hs1].
  destruct (Inv_slot _ _ i HI1) as [p Hp]; [lia|].
  apply wp_bind. eapply wp_read_proc; [done|].
  case_bool_decide; [|by apply wp_skip].
  apply wp_bind, wp_gets, wp_bind. eapply wp_write_same; [done..|]. intros s2 -> HI2.
  case_bool_decide; [|by apply wp_skip].
  eapply wp_mono; [by eapply wp_wakeup1|]. intros [] s3 [HI3 Hs3]. split; [done|].
  eapply same_cpus_trans; [exact Hs1|]. eapply same_cpus_trans; [|exact Hs3]. done.
Qed.

(** The process of the CPU is a zombie that has switched away in [exit]. *)
Definition in_exit me s : Prop :=
  ∃ c cur n, k_cpus s !! me = Some c ∧ c_proc c = Some cur ∧
    state_in (views (k_pt s)) cur = Some ZOMBIE ∧ k_konts s !! cur = Some (KExit n).
Lemma sched_stack me k s : (∀ c cur, k_cpus s !! me = Some c → c_proc c = Some cur → (cur < length (k_konts s))%nat) →
  wp True (sched me k) (λ _ s', k_cpus s' = k_cpus s ∧ k_pt s' = k_pt s ∧
    ∃ c cur n, k_cpus s !! me = Some c ∧ c_proc c = Some cur ∧ k_konts s' !! cur = Some (k n)) s.
Proof.
  intros Hlen. destruct (k_cpus s !! me) as [c|] eqn:Hc.
  - assert (mycpu me s = Ret (c, s)) as Hm by (unfold mycpu, bind, gets; by rewrite Hc).
    unfold wp, sched, get_lock, myproc, read_proc, bind, gets, lift, ret, panic.
    destruct (k_locks s !! PTABLE_LOCK) as [lk|]; [|done]. destruct (negb (holding me lk)); [done|]. cbv beta iota. rewrite Hm. cbv beta iota.
    destruct (negb (c_ncli c =? 1)); [done|]. rewrite Hm. cbv beta iota. destruct (c_proc c) as [cur|] eqn:Hcur; [|done]. cbn.
    destruct (get_proc cur (k_pt s)) as [p| | |]; [|done..].
    destruct (bool_decide _); [done|]. destruct (truth (readeflags_IF c)); [done|]. cbn. split_and!; [done|done|].
    exists c, cur, (c_intena c). split_and!; [done|done|]. apply list_lookup_insert_eq. by eapply Hlen.
  - unfold wp, sched, get_lock, bind, gets, panic. destruct (k_locks s !! PTABLE_LOCK) as [lk|]; [|done].
    unfold ret. destruct (negb (holding me lk)); [done|]. unfold mycpu, bind, gets. by rewrite Hc.
Qed.
Lemma Inv_stack s phs me c cur : Inv (mkG s phs) → k_cpus s !! me = Some c → c_proc c = Some cur →
  state_in (views (k_pt s)) cur = Some ZOMBIE → (cur < length (k_konts s))%nat.
Proof.
  intros [HT _] Hc Hcur Hz. simpl in HT. rewrite (ti_konts _ _ _ _ HT).
  destruct (ti_tbl _ _ _ _ HT) as (? & ? & (_ & _ & _ & _ & <-) & _).
  unfold state_in in Hz. destruct (views (k_pt s) !! cur) as [w|] eqn:E; [|done].
  apply views_lookup_inv in E as (p & Hp & _). by eapply lookup_lt_Some.
Qed.
Lemma wp_exit_locked F me s phs c cur :
  Inv (mkG s phs) → phs !! me = Some (false, Run) →
  k_cpus s !! me = Some c → c_proc c = Some cur →
  F ∨ (ptable_free s ∧ held me (k_locks s) = 0%nat) →
  wp F (exit_locked me cur) (λ _ s', Inv (mkG s' (<[me := (true, Left)]> phs)) ∧ in_exit me s') s.
Proof.
  intros HI Hph Hc Hcur Hfree. pose proof (lookup_lt_Some _ _ _ Hph) as Hlt. unfold exit_locked.
  apply wp_bind. eapply wp_acquire_ptable; [done..| |done|]; [tauto|]. intros s1 HI1 Hs1 Hh1 _.
  assert (<[me := (true, Run)]> phs !! me = Some (true, Run)) as Hph1
    by (by apply list_lookup_insert_eq).
  destruct (Inv_running _ _ _ _ _ HI1 Hph1 (or_introl eq_refl)) as (c1 & cur1 & p & Hc1 & Hcur1 & Hp & Hst).
  assert (cur1 = cur) as -> by (pose proof (same_procs_cur _ _ _ _ _ Hs1 Hc Hc1); congruence).
  apply wp_bind. eapply wp_read_proc; [done|]. apply wp_bind.
  eapply wp_mono; [by eapply wp_wakeup1|]. intros [] s2 [HI2 Hs2]. apply wp_bind.
  eapply wp_mono; [by eapply wp_reparent|]. intros [] s3 [HI3 Hs3]. apply wp_bind.
  pose proof (same_cpus_trans _ _ _ Hs2 Hs3) as (Hcs & Hls & _).
  eapply (wp_leave F me _ _ cur c1 ZOMBIE);
    [done|done|by rewrite Hcs|done|by right|]. intros s4 HI4 (Hcs4 & Hls4 & _) Hst4.
  rewrite list_insert_twice in HI4.
  assert (∀ c' cur', k_cpus s4 !! me = Some c' → c_proc c' = Some cur' → cur' = cur) as Hme
    by (intros c' cur' Hc' Hcur'; rewrite Hcs4, Hcs in Hc'; congruence).
  eapply wp_mono; [eapply wp_and; [eapply wp_sched; [done|by apply list_lookup_insert_eq| |right]|apply sched_stack]|].
  - destruct Hfree as [|[_ Hz]]; [by left|right]. rewrite Hls4, Hls. lia.
  - intros c' cur' Hc' Hcur'. by rewrite (Hme _ _ Hc' Hcur').
  - intros c' cur' Hc' Hcur'. eapply Inv_stack; [done..|]. by rewrite (Hme _ _ Hc' Hcur').
  - intros [] s5 [HI5 (Hcs5 & Hpt5 & c5 & cur5 & n5 & Hc5 & Hcur5 & Hk5)]. rewrite list_insert_twice in HI5.
    split; [done|]. assert (cur5 = cur) as -> by eauto. exists c5, cur, n5. split_and!; [by rewrite Hcs5|done|by rewrite Hpt5|done].
Qed.

Lemma lookup_insert_proc (ps : list proc) i p q :
  ps !! i = Some p → <[i := q]> ps !! i = Some q.
Proof. intros H. apply list_lookup_insert_eq. by eapply lookup_lt_Some. Qed.

(** The slot just written to. *)
Ltac solve_slot := simpl; repeat eapply lookup_insert_proc; eassumption.

Lemma wp_exit_files `{FileOps W} s phs cur p :
  Inv (mkG s phs) → procs (k_pt s) !! cur = Some p →
  wp True (exit_files cur) (λ _ s', Inv (mkG s' phs) ∧ same_cpus s s') s.
Proof.
  intros HI Hp. unfold exit_files. apply wp_bind.
  eapply wp_mono.
  { apply (wp_for_each True (λ s', (Inv (mkG s' phs) ∧ same_cpus s s') ∧
      ∃ p, procs (k_pt s') !! cur = Some p)); [|eauto using same_cpus_refl].
    intros fd s1 _ [[HI1 Hs1] [p1 Hp1]]. unfold exit_close. apply wp_bind.
    eapply wp_read_proc; [done|]. case_match; [|apply wp_skip; eauto].
    apply wp_bind, wp_on_w. intros [] w. eapply wp_write_same; [exact HI1|exact Hp1|done|done|].
    intros s2 -> HI2. split; [split; [done|]|].
    - eapply same_cpus_trans; [done|]. done.
    - eexists. by eapply lookup_insert_proc. }
  intros [] s1 [[HI1 Hs1] [p1 Hp1]]. apply wp_bind, wp_on_w. intros [] w1.
  apply wp_bind. eapply wp_read_proc; [done|]. apply wp_bind, wp_on_w. intros [] w2.
  apply wp_bind, wp_on_w. intros [] w3. eapply wp_write_same; [exact HI1|exact Hp1|done|done|].
  intros s2 -> HI2. split; [done|]. eapply same_cpus_trans; [done|]. done.
Qed.

Lemma wp_exit `{FileOps W} me s phs :
  Inv (mkG s phs) → phs !! me = Some (false, Run) →
  wp True (exit me) (λ _ s', Inv (mkG s' (<[me := (true, Left)]> phs)) ∧ in_exit me s') s.
Proof.
  intros HI Hph.
  destruct (Inv_running _ _ _ _ _ HI Hph (or_introl eq_refl)) as (c & cur & p & Hc & Hcur & Hp & Hst).
  unfold exit. apply wp_bind. eapply wp_myproc; [done..|]. apply wp_bind, wp_gets.
  case_bool_decide; [done|]. apply wp_bind.
  eapply wp_mono; [by eapply wp_exit_files|]. intros [] s1 [HI1 (Hcs & _)].
  eapply wp_exit_locked; [done|done|by rewrite Hcs|done|by left].
Qed.

(** *** wait *)
Lemma wait_scan_spec cur ps : ∀ n hk hk' i,
  wait_scan cur ps n hk = (hk', Some i) →
  ∃ j p, i = (n + j)%nat ∧ ps !! j = Some p ∧ p_state p = ZOMBIE ∧ p_parent p = Some cur.
Proof.
  induction ps as [|p ps IH]; intros n hk hk' i H; simpl in H; [done|].
  assert (∀ hk, wait_scan cur ps (S n) hk = (hk', Some i) →
    ∃ j q, i = (n + j)%nat ∧ (p :: ps) !! j = Some q ∧ p_state q = ZOMBIE ∧ p_parent q = Some cur)
    as Hrec.
  { intros hk0 H0. destruct (IH _ _ _ _ H0) as (j & q & -> & Hq & Hz). exists (S j), q.
    split_and!; [lia|done|apply Hz|apply Hz]. }
  case_bool_decide; [|eauto]. case_bool_decide; [|eauto].
  simplify_eq. exists 0%nat, p. split_and!; [lia|done..].
Qed.

(** A zombie's slot is put back on the free list. *)
Lemma wp_free {A} F me s phs a i p (e : M (kstate W) A) Q :
  Inv (mkG s phs) → phs !! me = Some (true, a) → in_sched a = false →
  procs (k_pt s) !! i = Some p → p_state p = ZOMBIE →
  (∀ s' p', Inv (mkG s' phs) → same_cpus s s' → procs (k_pt s') !! i = Some p' → wp F e Q s') →
  wp F (write_proc i (set_state UNUSED) ;! on_pt (AddFreeList (Some i)) ;! e) Q s.
Proof.
  intros HI Hph Ha Hp Hst HQ. pose proof HI as [HT HL]. simpl in HT.
  destruct (Inv_cpu _ _ _ _ _ HI Hph) as (c & Hc & Hact).
  pose proof (views_lookup _ _ _ Hp) as Hv. unfold view_of in Hv. rewrite Hst in Hv.
  destruct (tbl_free _ _ _ _ _ (ti_tbl _ _ _ _ HT) Hv) as (t1 & t2 & H1 & H2 & Htbl & Hvs);
    try done.
  apply wp_bind. eapply wp_write_proc; [done|]. apply wp_bind.
  eapply (wp_on_pt F _ (AddFreeList (Some i)) 0 t2); [done|].
  assert (∃ p', procs t2 !! i = Some p') as [p' Hp'].
  { apply lookup_lt_is_Some_2. rewrite <- (length_fmap view_of). change (i < length (views t2))%nat.
    rewrite Hvs, length_insert. by eapply lookup_lt_Some. }
  eapply HQ; [|done|exact Hp']. split; [|done]. simpl.
  rewrite <- (list_insert_id phs me (true, a)) by done.
  assert (state_in (views (k_pt s)) i = Some ZOMBIE) as Hsi by (unfold state_in; by rewrite Hv).
  eapply TInv_slot; eauto using Inv_cps; try done.
  - eapply not_refers; eauto using Inv_cps. right; right; right. by split_and!.
  - eapply act_ok_ext; [|done]. intros j Hj. rewrite Hvs, (state_in_insert _ _ _ _ _ Hv).
    case_decide; [subst j|done]. exfalso. by eapply act_ok_no_ref.
  - intros np ->. by eapply (ti_stack _ _ _ _ HT).
Qed.

Lemma wp_reap me s phs i p kend :
  Inv (mkG s phs) → phs !! me = Some (true, Run) →
  procs (k_pt s) !! i = Some p → p_state p = ZOMBIE →
  wp True (reap kend me i) (λ _ s', Inv (mkG s' (<[me := (false, Run)]> phs))) s.
Proof.
  intros HI Hph Hp Hst. unfold reap. apply wp_bind. eapply wp_read_proc; [done|].
  apply wp_bind, wp_on_km. intros [] k1. apply wp_bind.
  eapply wp_write_same; [exact HI|exact Hp|done|done|]. intros s1 -> HI1.
  apply wp_bind, wp_on_km. intros [] k2.
  eapply (wp_free _ me _ phs Run i (set_kstack 0 p));
    [exact HI1|done|done|by eapply lookup_insert_proc|done|]. intros s2 p2 HI2 _ Hp2.
  apply wp_bind. eapply wp_write_same; [done..|]. intros s3 -> HI3.
  apply wp_bind. eapply wp_write_same; [done|solve_slot|done|done|]. intros s4 -> HI4.
  apply wp_bind. eapply wp_write_same; [done|solve_slot|done|done|]. intros s5 -> HI5.
  apply wp_bind. eapply wp_write_same; [done|solve_slot|done|done|]. intros s6 -> HI6.
  apply wp_bind. eapply wp_release_ptable; [done..|]. intros s7 HI7 _. by apply wp_ret.
Qed.

(** [sleep(chan, &ptable.lock)] *)
Lemma wp_sleep_ptable F me s phs ch :
  Inv (mkG s phs) → phs !! me = Some (true, Run) → F ∨ held me (k_locks s) = 1%nat →
  wp F (sleep me ch (Some PTABLE_LOCK)) (λ _ s', Inv (mkG s' (<[me := (true, Left)]> phs))) s.
Proof.
  intros HI Hph Hh. pose proof (lookup_lt_Some _ _ _ Hph) as Hlt.
  destruct (Inv_running _ _ _ _ _ HI Hph (or_introl eq_refl)) as (c & cur & p & Hc & Hcur & Hp & Hst).
  unfold sleep. apply wp_bind. eapply wp_mycpu; [done|]. rewrite Hcur. simpl.
  apply wp_bind, wp_skip, wp_bind. eapply wp_write_same; [done..|]. intros s1 -> HI1.
  apply wp_bind. eapply wp_leave; [done|done|done|done|by left|]. intros s2 HI2 (_ & Hls & _) Hst2.
  eapply wp_mono; [eapply wp_sched; [done|by apply list_lookup_insert_eq| |by left]|].
  - destruct Hh as [|Hh]; [by left|right]. by rewrite Hls.
  - intros [] s3. by rewrite list_insert_twice.
Qed.

Lemma wp_wait_round me s phs kend :
  Inv (mkG s phs) → phs !! me = Some (true, Run) →
  wp True (wait_round kend me)
    (λ r s', match r with
             | Some _ => Inv (mkG s' (<[me := (false, Run)]> phs))
             | None => Inv (mkG s' (<[me := (true, Left)]> phs))
             end) s.
Proof.
  intros HI Hph.
  destruct (Inv_running _ _ _ _ _ HI Hph (or_introl eq_refl)) as (c & cur & p & Hc & Hcur & Hp & Hst).
  unfold wait_round. apply wp_bind. eapply wp_myproc; [done..|]. apply wp_bind, wp_gets.
  destruct (wait_scan cur (procs (k_pt s)) 0 false) as [hk [i|]] eqn:Hs.
  - destruct (wait_scan_spec _ _ _ _ _ _ Hs) as (j & q & -> & Hq & Hz & _). simpl.
    apply wp_bind. eapply wp_mono; [by eapply wp_reap|]. intros r s' HI'. by apply wp_ret.
  - apply wp_bind. eapply wp_read_proc; [done|]. case_match.
    + apply wp_bind. eapply wp_release_ptable; [done..|]. intros s' HI' _. by apply wp_ret.
    + apply wp_bind. eapply wp_mono; [eapply wp_sleep_ptable; eauto|].
      intros [] s' HI'. by apply wp_ret.
Qed.

(** *** The process that was switched to *)
Lemma Inv_resumed s phs me :
  Inv (mkG s phs) → phs !! me = Some (true, Resuming) →
  Inv (mkG s (<[me := (true, Run)]> phs)).
Proof.
  intros HI Hph. pose proof HI as [HT HL]. destruct (Inv_cpu _ _ _ _ _ HI Hph) as (c & Hc & Hact).
  split; simpl in *; [|eapply LInv_relabel; eauto; by intros [|]].
  eapply TInv_phase; eauto using Inv_cps; done.
Qed.

Lemma LInv_set_cpu ls cs phs me c c' :
  LInv ls cs phs → cs !! me = Some c → c_ncli c' = c_ncli c →
  (c_ncli c ≠ 0 → c_if c' = false) → LInv ls (<[me := c']> cs) phs.
Proof.
  intros [Hlen Hlk Hsh Hcli Hpt Hown Honly] Hc Hn Hi. split; rewrite ?length_insert; try done.
  intros d cp [(<- & <- & _)|[Hne Hd]]%list_lookup_insert_Some; [|eauto].
  rewrite Hn. split; [by eapply Hcli|done].
Qed.

Lemma wp_sched_return F me s phs b a intena Q :
  Inv (mkG s phs) → phs !! me = Some (b, a) →
  (∀ s', Inv (mkG s' phs) → same_procs s s' → k_locks s' = k_locks s → Q tt s') →
  wp F (sched_return me intena) Q s.
Proof.
  intros HI Hph HQ. pose proof HI as [HT HL]. destruct (Inv_cpu _ _ _ _ _ HI Hph) as (c & Hc & Hact).
  unfold sched_return. eapply wp_upd_cpu; [done|]. apply HQ; [|unfold same_procs; simpl|done].
  - split; simpl in *; [by rewrite (fmap_insert_cproc _ _ c)|].
    eapply LInv_set_cpu; eauto. by destruct (li_cli _ _ _ HL _ _ Hc).
  - split_and!; try done. by apply (fmap_insert_cproc _ _ c).
Qed.

Lemma wp_forkret `{FileOps W} me s phs :
  Inv (mkG s phs) → phs !! me = Some (true, Run) →
  wp True (forkret me) (λ _ s', Inv (mkG s' (<[me := (false, Run)]> phs))) s.
Proof.
  intros HI Hph. unfold forkret. apply wp_bind. eapply wp_release_ptable; [done..|].
  intros s1 HI1 _. apply wp_bind, wp_gets. case_match; [|by apply wp_skip].
  apply wp_bind, wp_modify, wp_on_w. intros [] w. exact HI1.
Qed.

Lemma wp_resume `{FileOps W} me s phs kend :
  Inv (mkG s phs) → phs !! me = Some (true, Resuming) →
  wp True (resume kend me)
    (λ r s', match r with
             | RCaller | RWait _ => Inv (mkG s' (<[me := (false, Run)]> phs))
             | RSleep l => Inv (mkG s' (<[me := (false, Reacquire l)]> phs))
             | RSwitch => Inv (mkG s' (<[me := (true, Left)]> phs))
             end) s.
Proof.
  intros HI0 Hph0. pose proof (Inv_resumed _ _ _ HI0 Hph0) as HI.
  pose proof (lookup_lt_Some _ _ _ Hph0) as Hlt.
  assert (<[me := (true, Run)]> phs !! me = Some (true, Run)) as Hph
    by (by apply list_lookup_insert_eq).
  destruct (Inv_running _ _ _ _ _ HI Hph (or_introl eq_refl)) as (c & cur & p & Hc & Hcur & Hp & Hst).
  unfold resume. apply wp_bind. eapply wp_myproc; [done..|]. apply wp_bind, wp_gets.
  destruct (k_konts s !! cur) as [[|n|n l|n]|]; [| | | |done]; apply wp_bind.
  - eapply wp_mono; [by eapply wp_forkret|]. intros [] s' HI'. apply wp_ret.
    by rewrite list_insert_twice in HI'.
  - unfold yield_return. apply wp_bind. eapply wp_sched_return; [done..|]. intros s1 HI1 _ _.
    eapply wp_release_ptable; [done..|]. intros s2 HI2 _. apply wp_ret.
    by rewrite list_insert_twice in HI2.
  - unfold sleep_return. apply wp_bind. eapply wp_sched_return; [done..|]. intros s1 HI1 _ _.
    destruct (Inv_running _ _ _ _ _ HI1 Hph (or_introl eq_refl)) as (c1 & cur1 & p1 & Hc1 & Hcur1 & Hp1 & _).
    apply wp_bind. eapply wp_myproc; [done..|]. apply wp_bind. eapply wp_write_same; [done..|].
    intros s2 -> HI2. destruct (l =? PTABLE_LOCK)%nat.
    + apply wp_skip, wp_bind. eapply wp_mono; [by eapply wp_wait_round|].
      intros [r|] s3 HI3; apply wp_ret; by rewrite list_insert_twice in HI3.
    + eapply wp_release_ptable; [done..|]. intros s3 HI3 _. apply wp_ret.
      rewrite list_insert_twice in HI3.
      change (Inv (mkG s3 (<[me := (false, Reacquire l)]> phs))).
      rewrite <- (list_insert_twice phs me _ (false, Run)).
      destruct (Inv_cpu _ _ _ _ _ HI3 (list_lookup_insert_eq _ _ _ Hlt)) as (c3 & Hc3 & Hact3).
      pose proof HI3 as [HT3 HL3]. split; simpl in *.
      * eapply TInv_phase; eauto using Inv_cps, list_lookup_insert_eq; done.
      * eapply LInv_relabel; [done|by apply list_lookup_insert_eq|]. by intros [|].
  - eapply wp_sched_return; [done..|]. done.
Qed.

(** *** scheduler *)
Lemma wp_scheduler_back F me s phs :
  Inv (mkG s phs) → phs !! me = Some (true, Left) →
  wp F (scheduler_back me) (λ _ s', Inv (mkG s' (<[me := (true, Idle)]> phs))) s.
Proof.
  intros HI Hph. pose proof HI as [HT HL]. simpl in *.
  destruct (Inv_cpu _ _ _ _ _ HI Hph) as (c & Hc & i & st & Hi & Hst & Hl).
  unfold scheduler_back, switchkvm. apply wp_bind, wp_bind, wp_gets.
  eapply wp_upd_cpu; [done|]. eapply wp_upd_cpu.
  { simpl. apply list_lookup_insert_eq. by eapply lookup_lt_Some. }
  simpl. rewrite list_insert_insert_eq. split; simpl.
  - rewrite list_fmap_insert. simpl.
    eapply TInv_move; eauto using Inv_cps; try done.
    + apply (ti_tbl _ _ _ _ HT).
    + intros j Hj. right. split; [|done]. rewrite Hi. intros [= ->].
      rewrite Hst in Hj. injection Hj as ->. done.
    + apply (ti_konts _ _ _ _ HT).
    + apply (ti_kont _ _ _ _ HT).
  - eapply LInv_set_cpu; eauto; [|by destruct (li_cli _ _ _ HL _ _ Hc)].
    eapply LInv_relabel; [done..|]. intros _. by eapply (li_only _ _ _ HL _ _ _ Hph); right.
Qed.

Lemma popcli_cr3 c c' : popcli c = Ret c' → c_cr3 c' = c_cr3 c.
Proof. unfold popcli. intros E. repeat case_match; by simplify_eq. Qed.
Lemma wp_switchuvm F me s c cur p i q n Q :
  k_cpus s !! me = Some c → c_proc c = Some cur → procs (k_pt s) !! cur = Some p →
  procs (k_pt s) !! i = Some q → p_pgdir q ≠ 0 →
  c_ncli c = Z.of_nat n → Z.of_nat n < 2 ^ 30 →
  (∀ c', c_ncli c' = c_ncli c → c_proc c' = c_proc c → (c_ncli c ≠ 0 → c_if c' = false) →
     c_cr3 c' = v2p (p_pgdir q) → Q tt (with_cpus (<[me := c']> (k_cpus s)) s)) →
  wp F (switchuvm me i) Q s.
Proof.
  intros Hc Hcur Hp Hq Hpg Hn Hb HQ. pose proof (lookup_lt_Some _ _ _ Hc) as Hlt.
  destruct (pushcli_depth c) as (Hd1 & Hd2 & Hd3); [lia|].
  unfold switchuvm. apply wp_bind. eapply wp_upd_cpu; [done|]. apply wp_bind.
  eapply wp_myproc; [by apply list_lookup_insert_eq|by rewrite Hd3|].
  apply wp_bind. eapply wp_read_proc; [done|]. apply wp_bind.
  eapply wp_upd_cpu; [by apply list_lookup_insert_eq|].
  apply wp_bind. eapply wp_read_proc; [done|]. rewrite (proj2 (Z.eqb_neq _ _)) by done.
  apply wp_bind. eapply wp_upd_cpu; [apply list_lookup_insert_eq; simpl; by rewrite ?length_insert|].
  simpl. rewrite !list_insert_insert_eq.
  apply wp_bind. eapply wp_mycpu; [by apply list_lookup_insert_eq|]. apply wp_bind.
  destruct (popcli_depth (set_cr3 (v2p (p_pgdir q))
    (set_ts (Z.shiftl SEG_KDATA 3) (u32 (p_kstack p + KSTACKSIZE)) (pushcli c))) n)
    as (c' & Hpop & Hn' & Hp' & Hi'); [simpl; lia|done|lia|].
  eapply wp_lift; [exact Hpop|]. apply wp_modify. simpl. unfold with_cpus at 1. simpl.
  rewrite list_insert_insert_eq. apply HQ; [lia| | |].
  - rewrite Hp'. simpl. done.
  - intros Hz. apply Hi'. lia.
  - by apply popcli_cr3 in Hpop.
Qed.

Lemma LInv_ncli ls cs phs me c :
  LInv ls cs phs → cs !! me = Some c →
  ∃ n, c_ncli c = Z.of_nat n ∧ Z.of_nat n < 2 ^ 30.
Proof.
  intros HL Hc. destruct (li_cli _ _ _ HL _ _ Hc) as [Hn _]. exists (held me ls). split; [done|].
  pose proof (held_le me ls). pose proof (li_locks _ _ _ HL). lia.
Qed.

Lemma tbl_timer t v : tbl_inv t → tbl_inv (set_TimeToReset v t).
Proof. done. Qed.

Lemma wp_reset_timer F s phs :
  Inv (mkG s phs) →
  wp F reset_timer (λ _ s', Inv (mkG s' phs) ∧ same_cpus s s' ∧
    (∀ i, state_in (views (k_pt s')) i = state_in (views (k_pt s)) i)) s.
Proof.
  intros HI. pose proof HI as [HT _]. pose proof (ti_tbl _ _ _ _ HT) as Htbl. simpl in Htbl.
  unfold reset_timer. apply wp_bind, wp_gets. case_match.
  - destruct (tbl_reset _ Htbl) as (t' & Ht & Htbl' & Hv).
    assert (∀ i, state_in (views t') i = state_in (views (k_pt s)) i) as Hst
      by (intros i; rewrite Hv; apply state_in_reset).
    apply wp_bind. eapply (wp_on_pt F _ _ tt t'); [by rewrite Ht|].
    eapply (wp_on_pt F _ _ tt); [done|]. split_and!; [|done|done].
    by apply (Inv_states s phs (set_TimeToReset MaxTimeToReset t')).
  - eapply (wp_on_pt F _ _ tt); [done|]. split_and!; [|done|done].
    by apply (Inv_states s phs (set_TimeToReset _ (k_pt s))).
Qed.

Lemma wp_scheduler_top F me s phs :
  Inv (mkG s phs) → phs !! me = Some (false, Idle) → F ∨ ptable_free s →
  wp F (scheduler_top me) (λ _ s', Inv (mkG s' (<[me := (true, Idle)]> phs))) s.
Proof.
  intros HI Hph Hfree. pose proof HI as [HT HL].
  destruct (Inv_cpu _ _ _ _ _ HI Hph) as (c & Hc & Hact).
  unfold scheduler_top. apply wp_bind. eapply wp_upd_cpu; [done|].
  eapply wp_acquire_ptable; [|done|exact Hfree|done|].
  - split; simpl in *; [by rewrite (fmap_insert_cproc _ _ c)|].
    eapply LInv_set_cpu; eauto. destruct (li_cli _ _ _ HL _ _ Hc) as [Hn _].
    rewrite (li_only _ _ _ HL _ _ _ Hph) in Hn by (by left). intros []. done.
  - intros s' HI' _ _ _. done.
Qed.

Lemma Inv_dispatch s phs me c c' i pr pg t' :
  Inv (mkG s phs) → phs !! me = Some (true, Idle) → k_cpus s !! me = Some c →
  views (k_pt s) !! i = Some (RUNNABLE, pr, pg) → tbl_inv t' →
  views t' = <[i := (RUNNING, pr, pg)]> (views (k_pt s)) →
  c_proc c' = Some i → c_ncli c' = c_ncli c → (c_ncli c ≠ 0 → c_if c' = false) →
  Inv (mkG (with_pt t' (with_cpus (<[me := c']> (k_cpus s)) s)) (<[me := (true, Resuming)]> phs)).
Proof.
  intros HI Hph Hc Hv Htbl Hvs Hcp Hn Hi. pose proof HI as [HT HL]. simpl in *.
  destruct (Inv_cpu _ _ _ _ _ HI Hph) as (c0 & Hc0 & Hact). simplify_eq. simpl in Hact.
  assert (state_in (views (k_pt s)) i = Some RUNNABLE) as Hsi by (unfold state_in; by rewrite Hv).
  assert (∀ j, state_in (views t') j = if decide (j = i) then Some RUNNING else state_in (views (k_pt s)) j)
    as Hst by (intros j; rewrite Hvs; by eapply state_in_insert).
  assert (∀ d, d ≠ me → ¬ refers phs (c_proc <$> k_cpus s) d i) as Href.
  { eapply not_refers; eauto using Inv_cps. right; right; right. by split_and!. }
  split; simpl.
  - rewrite list_fmap_insert, Hcp. eapply TInv_move; eauto using Inv_cps; try done.
    + intros d j Hd Hr. rewrite Hst. case_decide; [subst|done]. by destruct (Href d Hd).
    + split; [|done]. exists i. by rewrite Hst, decide_True.
    + intros j [= <-]. right. intros d Hd. destruct (decide (d = me)) as [->|Hne].
      * rewrite list_lookup_fmap, Hc in Hd. simpl in Hd. congruence.
      * apply (Href d Hne). by left.
    + intros j Hj. rewrite Hst in Hj. case_decide; [subst; by left|]. right.
      split; [congruence|done].
    + apply (ti_konts _ _ _ _ HT).
    + intros j st Hj Hl. rewrite Hst in Hj. case_decide; [subst|by eapply (ti_kont _ _ _ _ HT)].
      by eapply (ti_kont _ _ _ _ HT).
  - eapply LInv_set_cpu; eauto. eapply LInv_relabel; [done..|]. by intros [|].
Qed.

Lemma tbl_ready_some t i :
  tbl_inv t → state_in (views t) i = Some RUNNABLE →
  ∃ j pr pg, GetReady t = Some j ∧ views t !! j = Some (RUNNABLE, pr, pg).
Proof.
  intros Htbl Hi. pose proof (tbl_ready _ Htbl) as Hr.
  destruct (GetReady t) as [j|] eqn:Hg; [destruct Hr as (pr & pg & Hv); eauto|].
  exfalso. destruct Htbl as (fl & rl & Hrep & Hslot).
  unfold state_in in Hi. destruct (views t !! i) as [[[st pr] pg]|] eqn:Hv; [|done].
  simpl in Hi. injection Hi as ->. destruct (Hslot _ _ Hv) as (_ & Hk & Hl).
  destruct (Hl eq_refl) as [Hp%prio_ok_spec _]. pose proof Hrep as (_ & _ & Hlen & _).
  destruct (lookup_lt_is_Some_2 rl (Z.to_nat pr)) as [l Hlk]; [unfold NPRIO in *; lia|].
  assert (i ∈ l) by (apply (Hk _ _ Hlk); split; [done|lia]).
  assert (i ∈ concat rl) as Hin by (apply elem_of_concat; eauto).
  rewrite (GetReady_rep _ _ _ Hrep) in Hg. destruct (concat rl); [set_solver|done].
Qed.

Lemma wp_scheduler_run F me s phs i :
  Inv (mkG s phs) → phs !! me = Some (true, Idle) →
  state_in (views (k_pt s)) i = Some RUNNABLE →
  wp F (scheduler_run me) (λ _ s', Inv (mkG s' (<[me := (true, Resuming)]> phs))) s.
Proof.
  intros HI Hph Hi. unfold scheduler_run. apply wp_bind.
  eapply wp_mono; [by apply wp_reset_timer|]. intros [] s1 (HI1 & _ & Hst1).
  rewrite <- Hst1 in Hi. pose proof HI1 as [HT1 HL1]. pose proof (ti_tbl _ _ _ _ HT1) as Htbl.
  destruct (tbl_ready_some _ _ Htbl Hi) as (j & pr & pg & Hg & Hv). simpl in Hg, Hv.
  destruct (Inv_cpu _ _ _ _ _ HI1 Hph) as (c & Hc & Hact). pose proof (lookup_lt_Some _ _ _ Hc).
  destruct (LInv_ncli _ _ _ _ _ HL1 Hc) as (n & Hn & Hb).
  destruct (views_lookup_inv _ _ _ Hv) as (p & Hp & E). injection E as Est -> ->.
  destruct Htbl as (fl & rl & Hrep & Hslot). destruct (Hslot _ _ Hv) as (_ & _ & Hl).
  destruct (tbl_dispatch _ _ _ _ (ti_tbl _ _ _ _ HT1) Hv) as (t1 & t2 & H1 & H2 & Htbl2 & Hvs).
  apply wp_bind, wp_gets, wp_bind. rewrite Hg. eapply wp_upd_cpu; [done|].
  apply wp_bind. eapply wp_lift; [done|]. apply wp_bind.
  eapply wp_switchuvm; [by apply list_lookup_insert_eq|done|done|done|by apply Hl|done|done|].
  intros c' Hn' Hp' Hi' _. apply wp_bind. eapply wp_write_proc; [done|]. apply wp_bind.
  eapply (wp_on_pt F _ _ 0 t2); [done|]. apply wp_skip.
  simpl. unfold with_pt, with_cpus. simpl. rewrite list_insert_insert_eq.
  by apply (Inv_dispatch s1 phs me c c' j (p_priority p) (p_pgdir p) t2).
Qed.

Lemma wp_scheduler_turn F me s phs :
  Inv (mkG s phs) → phs !! me = Some (true, Idle) →
  wp F (scheduler_turn me)
    (λ r s', Inv (mkG s' (<[me := (r, if r then Resuming else Idle)]> phs))) s.
Proof.
  intros HI Hph. unfold scheduler_turn. apply wp_bind, wp_gets.
  pose proof HI as [HT _]. pose proof (tbl_ready _ (ti_tbl _ _ _ _ HT)) as Hready. simpl in Hready.
  destruct (GetReady (k_pt s)) as [i|] eqn:Hg.
  - destruct Hready as (pr & pg & Hv).
    assert (state_in (views (k_pt s)) i = Some RUNNABLE) as Hi by (unfold state_in; by rewrite Hv).
    assert (wp F (scheduler_run me ;! ret true)
      (λ r s', Inv (mkG s' (<[me := (r, if r then Resuming else Idle)]> phs))) s) as Hrun.
    { apply wp_bind. eapply wp_mono; [by eapply wp_scheduler_run|]. intros [] s' HI'. by apply wp_ret. }
    unfold GetReady in Hg.
    by destruct (ready_head 0 (k_pt s)), (ready_head 1 (k_pt s)), (ready_head 2 (k_pt s)).
  - destruct Hready as (-> & -> & ->). apply wp_bind.
    eapply wp_release_ptable; [done..|]. intros s' HI' _. by apply wp_ret.
Qed.

(** *** fork *)
Lemma Inv_slot_change s phs me b a a' t' i (w w' : view) :
  Inv (mkG s phs) → phs !! me = Some (b, a) → in_sched a = false → a ≠ Idle → a ≠ Intr →
  tbl_inv t' → views (k_pt s) !! i = Some w → views t' = <[i := w']> (views (k_pt s)) →
  (w.1.1 = UNUSED ∨ w.1.1 = EMBRYO ∧ fork_of a = Some i) → w'.1.1 ≠ RUNNING →
  (live w'.1.1 = true → k_konts s !! i = Some KForkret) →
  (a' = Run ∨ a' = Forking i ∧ w'.1.1 = EMBRYO) →
  Inv (mkG (with_pt t' s) (<[me := (b, a')]> phs)).
Proof.
  intros HI Hph Ha Hni Hnh Htbl Hv Hvs Hw Hw' Hk Ha'. pose proof HI as [HT HL]. simpl in *.
  destruct (Inv_cpu _ _ _ _ _ HI Hph) as (c & Hc & Hact).
  assert (state_in (views (k_pt s)) i = Some w.1.1) as Hsi by (unfold state_in; by rewrite Hv).
  assert (∃ cur, c_proc c = Some cur ∧ state_in (views (k_pt s)) cur = Some RUNNING) as (cur & Hcur & Hrun).
  { destruct a; simpl in *; try done; destruct Hact as [(j & ? & ?) _]; eauto. }
  assert (cur ≠ i) as Hne.
  { intros ->. rewrite Hsi in Hrun. injection Hrun as E. rewrite E in Hw. destruct Hw as [|[]]; done. }
  assert (∀ d, d ≠ me → ¬ refers phs (c_proc <$> k_cpus s) d i) as Href.
  { eapply not_refers; eauto using Inv_cps. destruct Hw as [->|[-> ?]]; auto. }
  split; simpl; [|eapply LInv_relabel; eauto; by destruct Ha' as [-> | [-> _]]; intros [|]].
  eapply TInv_slot; eauto using Inv_cps; try done.
  - assert (∃ j, c_proc c = Some j ∧ state_in (views t') j = Some RUNNING) as Hr'.
    { exists cur. rewrite Hvs, (state_in_insert _ _ _ _ _ Hv), decide_False by done. done. }
    destruct Ha' as [-> | [-> He]]; (split; [done|]); [done|]. intros np [= <-].
    rewrite Hvs, (state_in_insert _ _ _ _ _ Hv), decide_True by done. by rewrite He.
  - by destruct Ha' as [-> | [-> _]].
  - destruct Ha' as [-> | [-> _]]; [done|]. intros np [= <-].
    destruct Hw as [Hu|[_ Hf]]; [right|by left]. intros d Hr.
    destruct (refers_state _ _ _ _ _ _ HT Hr) as (st & E & Hs). rewrite Hsi, Hu in E.
    injection E as <-. destruct Hs as [|[|[]]]; done.
  - by destruct Ha' as [-> | [-> _]].
Qed.

Lemma wp_alloc_slot F me s phs :
  Inv (mkG s phs) → phs !! me = Some (false, Run) → F ∨ ptable_free s →
  wp F (alloc_slot me)
    (λ r s', match r with
             | None => Inv (mkG s' phs)
             | Some np => Inv (mkG s' (<[me := (false, Forking np)]> phs))
             end) s.
Proof.
  intros HI Hph Hfree. pose proof (lookup_lt_Some _ _ _ Hph) as Hlt. unfold alloc_slot.
  eapply wp_critical; [done..|]. intros s1 HI1 _. apply wp_bind.
  assert (<[me := (true, Run)]> phs !! me = Some (true, Run)) as Hph1
    by (by apply list_lookup_insert_eq).
  pose proof HI1 as [HT1 _].
  destruct (tbl_alloc _ (ti_tbl _ _ _ _ HT1))
    as [Hn|(i & pr & pg & t1 & t2 & H1 & Hv & H2 & Htbl & Hvs)]; simpl in *.
  - eapply (wp_on_pt F _ _ None); [done|].
    eapply wp_mono; [by eapply wp_unlock|]. intros r s2 [-> HI2]. by rewrite insert_phase in HI2.
  - eapply (wp_on_pt F _ _ (Some i)); [done|]. apply wp_bind. eapply wp_write_proc; [done|].
    apply wp_bind, wp_gets, wp_bind.
    assert (Inv (mkG (with_pt t2 s1) (<[me := (true, Forking i)]> phs))) as HI2.
    { rewrite <- (list_insert_twice phs me _ (true, Run)).
      eapply Inv_slot_change; eauto; try done; by left. }
    destruct (views_lookup_inv t2 i (EMBRYO, pr, pg)) as (p & Hp & _).
    { rewrite Hvs. apply list_lookup_insert_eq. by eapply lookup_lt_Some. }
    eapply (wp_write_same F (with_pt t2 s1)); [done|done|done|done|]. intros s3 -> HI3.
    apply wp_bind, wp_modify, wp_bind.
    eapply (wp_release_ptable F me _ (<[me := (true, Forking i)]> phs) (Forking i));
      [exact HI3|by apply list_lookup_insert_eq|done|].
    intros s4 HI4 _. apply wp_ret. by rewrite list_insert_twice in HI4.
Qed.

(** Writes to a slot that is not live. *)
Lemma wp_write_dead F s phs i p f Q :
  Inv (mkG s phs) → procs (k_pt s) !! i = Some p → live (p_state p) = false →
  p_state (f p) = p_state p → p_next (f p) = p_next p →
  (∀ s', s' = with_pt (set_procs (<[i := f p]> (procs (k_pt s))) (k_pt s)) s →
     Inv (mkG s' phs) → Q tt s') →
  wp F (write_proc i f) Q s.
Proof.
  intros HI Hp Hl Hst Hn HQ. pose proof HI as [HT _].
  destruct (tbl_write (k_pt s) i p f) as (t' & Ht & Htbl & Hvs & ->);
    rewrite ?Hst; try done; [apply (ti_tbl _ _ _ _ HT)|by intros E; rewrite E in Hl| |].
  { intros E. by rewrite E in Hl. }
  eapply wp_write_proc; [done|]. apply HQ; [done|]. apply Inv_states; [done|done|].
  intros j. rewrite Hvs, (state_in_insert _ _ _ _ _ (views_lookup _ _ _ Hp)).
  case_decide; [|done]. subst. rewrite (state_in_views _ _ _ Hp). simpl. by rewrite Hst.
Qed.

Lemma Inv_embryo s phs me b a np :
  Inv (mkG s phs) → phs !! me = Some (b, a) → fork_of a = Some np →
  ∃ p, procs (k_pt s) !! np = Some p ∧ p_state p = EMBRYO.
Proof.
  intros HI Hph Hf. destruct (Inv_cpu _ _ _ _ _ HI Hph) as (c & Hc & Hact).
  assert (state_in (views (k_pt s)) np = Some EMBRYO) as Hst.
  { destruct a; simpl in Hf; try done; by apply Hact. }
  unfold state_in in Hst. destruct (views (k_pt s) !! np) as [w|] eqn:Hw; [|done].
  destruct (views_lookup_inv _ _ _ Hw) as (p & Hp & ->). exists p. split; [done|]. simpl in Hst.
  congruence.
Qed.

(** The new stack of slot [np]. *)
Lemma Inv_new_stack s phs me np :
  Inv (mkG s phs) → phs !! me = Some (false, Forking np) →
  Inv (mkG (with_konts (<[np := KForkret]> (k_konts s)) s) (<[me := (false, ForkStack np)]> phs)).
Proof.
  intros HI Hph. pose proof HI as [HT HL]. simpl in *.
  destruct (Inv_cpu _ _ _ _ _ HI Hph) as (c & Hc & Hact).
  destruct (Inv_embryo _ _ _ _ _ np HI Hph eq_refl) as (p & Hp & Hst).
  pose proof (state_in_views _ _ _ Hp) as Hsi. rewrite Hst in Hsi.
  assert (np < length (k_konts s))%nat as Hb.
  { rewrite (ti_konts _ _ _ _ HT). destruct (ti_tbl _ _ _ _ HT) as (? & ? & (_ & _ & _ & _ & <-) & _).
    by eapply lookup_lt_Some. }
  split; simpl; [|eapply LInv_relabel; eauto; by intros [|]].
  rewrite <- (list_insert_id (c_proc <$> k_cpus s) me (c_proc c)) by eauto using Inv_cps.
  destruct (Inv_cpu _ _ _ _ _ HI Hph) as (c' & Hc' & (cur & Hcur & Hrun) & Hf). simplify_eq.
  eapply TInv_move; eauto using Inv_cps; try done.
  - apply (ti_tbl _ _ _ _ HT).
  - intros i Hi. destruct (decide (c_proc c = Some i)); auto.
  - rewrite length_insert. apply (ti_konts _ _ _ _ HT).
  - intros i st Hi Hl. rewrite list_lookup_insert_ne; [by eapply (ti_kont _ _ _ _ HT)|].
    intros <-. rewrite Hsi in Hi. by injection Hi as <-.
  - intros n [= <-]. by apply list_lookup_insert_eq.
  - intros d n Hd Hr. rewrite list_lookup_insert_ne; [done|]. intros <-.
    eapply (not_refers _ _ _ _ me _ _ _ np EMBRYO HT Hph);
      [eauto using Inv_cps|done|by right; left|exact Hd|done].
Qed.

Lemma wp_alloc_stack F me s phs np fr tr :
  Inv (mkG s phs) → phs !! me = Some (false, Forking np) →
  wp F (alloc_stack fr tr np)
    (λ r s', match r with
             | None => Inv (mkG s' (<[me := (false, Run)]> phs))
             | Some _ => Inv (mkG s' (<[me := (false, ForkStack np)]> phs))
             end) s.
Proof.
  intros HI Hph. destruct (Inv_embryo _ _ _ _ _ np HI Hph eq_refl) as (p & Hp & Hst).
  unfold alloc_stack. apply wp_bind. unfold on_km. apply wp_zoom. unfold wp at 1.
  destruct (kalloc (k_km s)) as [kstack k]. apply wp_bind.
  eapply (wp_write_same F (with_km k s) phs); [exact HI|exact Hp|done|done|]. intros s1 Hs1 HI1.
  assert (procs (k_pt s1) !! np = Some (set_kstack kstack p)) as Hp1 by (subst s1; solve_slot).
  clear Hs1. destruct (kstack =? 0).
  - pose proof HI1 as [HT1 _].
    pose proof (views_lookup _ _ _ Hp1) as Hv. unfold view_of in Hv. simpl in Hv. rewrite Hst in Hv.
    destruct (tbl_free _ _ _ _ _ (ti_tbl _ _ _ _ HT1) Hv) as (t1 & t2 & H1 & H2 & Htbl & Hvs);
      [done..|].
    apply wp_bind. eapply wp_write_proc; [done|]. apply wp_bind.
    eapply (wp_on_pt F _ _ 0); [done|]. apply wp_ret.
    change (Inv (mkG (with_pt t2 s1) (<[me := (false, Run)]> phs))).
    eapply (Inv_slot_change _ phs me false (Forking np) Run t2 np); eauto; done.
  - apply wp_bind. eapply (wp_write_same F _ phs); [exact HI1|exact Hp1|done|done|]. intros s2 -> HI2.
    apply wp_bind, wp_modify, wp_bind.
    eapply (wp_write_same F _ phs); [exact HI2|solve_slot|done|done|]. intros s3 -> HI3.
    apply wp_bind, wp_modify, wp_bind, wp_modify, wp_bind, wp_modify, wp_ret.
    eapply (Inv_new_stack _ phs); [exact HI3|done].
Qed.

Lemma wp_acquire_with_pt F me l t s Q :
  wp F (acquire_lock me l) (λ u s', Q u (with_pt t s')) s →
  wp F (acquire_lock me l) Q (with_pt t s).
Proof.
  unfold wp, acquire_lock, bind, mycpu, get_lock, gets, lift. simpl. unfold bind, gets. simpl.
  destruct (k_cpus s !! me) as [c|]; simpl; [|done].
  destruct (k_locks s !! l) as [lk|]; simpl; [|done].
  by destruct (acquire me c lk) as [[c' lk']| | |].
Qed.

(** Slot [np] is the embryo [p]. *)
Definition embryo s phs np p : Prop :=
  Inv (mkG s phs) ∧ procs (k_pt s) !! np = Some p ∧ p_state p = EMBRYO.

Lemma wp_write_np F s phs np p f Q :
  embryo s phs np p → p_state (f p) = p_state p → p_next (f p) = p_next p →
  (∀ s', embryo s' phs np (f p) → Q tt s') → wp F (write_proc np f) Q s.
Proof.
  intros (HI & Hp & Hst) Hs Hn HQ. eapply wp_write_dead; [done|done|by rewrite Hst|done|done|].
  intros s' -> HI'. apply HQ. split_and!; [done|solve_slot|congruence].
Qed.

Lemma wp_fork_abort me s phs np p kend :
  embryo s phs np p → phs !! me = Some (false, ForkStack np) →
  wp True (fork_abort kend me np) (λ _ s', Inv (mkG s' (<[me := (false, Run)]> phs))) s.
Proof.
  intros (HI & Hp & Hst) Hph. pose proof (lookup_lt_Some _ _ _ Hph) as Hlt. unfold fork_abort.
  apply wp_bind. eapply wp_read_proc; [done|]. apply wp_bind, wp_on_km. intros [] k.
  apply wp_bind. eapply (wp_write_np True (with_km k s) phs np p); [done|done|done|].
  intros s1 (HI1 & Hp1 & Hst1). pose proof HI1 as [HT1 _].
  pose proof (views_lookup _ _ _ Hp1) as Hv. unfold view_of in Hv. rewrite Hst1 in Hv.
  destruct (tbl_free _ _ _ _ _ (ti_tbl _ _ _ _ HT1) Hv) as (t1 & t2 & H1 & H2 & Htbl & Hvs);
    [done..|]. simpl in H1, Htbl, Hvs.
  apply wp_bind. eapply wp_write_proc; [done|]. apply wp_bind, wp_acquire_with_pt.
  eapply wp_acquire_ptable; [done..|by left|done|]. intros s2 HI2 (Hpt2 & Hks2 & _) _ _.
  apply wp_bind. eapply (wp_on_pt True _ _ 0 t2); [done|].
  assert (Inv (mkG (with_pt t2 s2) (<[me := (true, Run)]> phs))) as HI3.
  { rewrite <- (list_insert_twice phs me _ (true, ForkStack np)).
    eapply (Inv_slot_change _ _ me true (ForkStack np) Run t2 np); eauto; rewrite ?Hpt2; try done.
    - by apply list_lookup_insert_eq.
    - by right. }
  apply wp_bind. eapply (wp_release_ptable True me _ (<[me := (true, Run)]> phs) Run);
    [exact HI3|by apply list_lookup_insert_eq|done|].
  intros s4 HI4 _. apply wp_ret. by rewrite list_insert_twice in HI4.
Qed.

Lemma wp_fork_commit F me s phs np p :
  embryo s phs np p → phs !! me = Some (false, ForkStack np) →
  prio_ok (p_priority p) = true → p_pgdir p ≠ 0 → F ∨ ptable_free s →
  wp F (fork_commit me np) (λ r s', r = p_pid p ∧ Inv (mkG s' (<[me := (false, Run)]> phs))) s.
Proof.
  intros (HI & Hp & Hst) Hph Hpr Hpg Hfree. pose proof (lookup_lt_Some _ _ _ Hph) as Hlt.
  unfold fork_commit. apply wp_bind. eapply wp_read_proc; [done|].
  eapply wp_critical; [done..|]. intros s1 HI1 (Hpt1 & Hks1 & _).
  pose proof HI1 as [HT1 _]. rewrite <- Hpt1 in Hp.
  pose proof (views_lookup _ _ _ Hp) as Hv. unfold view_of in Hv. rewrite Hst in Hv.
  destruct (tbl_runnable _ _ _ _ _ (ti_tbl _ _ _ _ HT1) Hv) as (t1 & t2 & H1 & H2 & Htbl & Hvs);
    [done..|].
  apply wp_bind. eapply wp_write_proc; [done|]. apply wp_bind.
  eapply (wp_on_pt F _ _ 0 t2); [done|].
  assert (Inv (mkG (with_pt t2 s1) (<[me := (true, Run)]> phs))) as HI3.
  { rewrite <- (list_insert_twice phs me _ (true, ForkStack np)).
    eapply (Inv_slot_change _ _ me true (ForkStack np) Run t2 np); eauto; try done.
    - by apply list_lookup_insert_eq.
    - intros _. rewrite Hks1. destruct HI as [HT _]. by eapply (ti_stack _ _ _ _ HT). }
  eapply (wp_mono _ _ (λ r' s', r' = p_pid p ∧ Inv (mkG s' (<[me := (false, Run)]> phs))));
    [|done]. by eapply wp_unlock.
Qed.

Lemma wp_fork_fill `{FileOps W} me s phs cur np p Q :
  embryo s phs np p → phs !! me = Some (false, ForkStack np) → (cur < NPROC)%nat →
  (∀ s' p', embryo s' phs np p' → p_pgdir p' = p_pgdir p → p_priority p' = 1 → Q tt s') →
  wp True (fork_fill cur np) Q s.
Proof.
  intros He Hph Hcur HQ. unfold fork_fill. apply wp_bind.
  destruct (Inv_slot _ _ cur (proj1 He) Hcur) as [pc Hpc]. eapply wp_read_proc; [done|].
  apply wp_bind. eapply wp_write_np; [done|done|done|]. intros s1 He1.
  apply wp_bind. eapply wp_write_np; [done|done|done|]. intros s2 He2.
  apply wp_bind. eapply wp_read_proc; [apply He2|]. apply wp_bind, wp_modify.
  apply wp_bind. eapply (wp_write_np True _ phs); [exact He2|done|done|]. intros s3 He3.
  apply wp_bind. eapply wp_write_np; [done|done|done|]. intros s4 He4.
  apply wp_bind. eapply wp_write_np; [done|done|done|]. intros s5 He5.
  apply wp_bind, wp_modify, wp_bind.
  eapply wp_mono.
  { apply (wp_for_each True (λ s', ∃ p', embryo s' phs np p' ∧ p_pgdir p' = p_pgdir p ∧
      p_priority p' = 1)).
    - intros fd s6 _ (p6 & He6 & Hpg6 & Hpr6). unfold fork_dupfile. apply wp_bind.
      destruct (Inv_slot _ _ cur (proj1 He6) Hcur) as [pc6 Hpc6]. eapply wp_read_proc; [done|].
      case_match; [|apply wp_skip; eauto]. apply wp_bind, wp_on_w. intros f' w.
      eapply (wp_write_np True (with_w w s6) phs np p6); [done|done|done|]. intros s7 He7. eauto.
    - eexists. split; [exact He5|]. done. }
  intros [] s6 (p6 & He6 & Hpg6 & Hpr6). apply wp_bind, wp_on_w. intros cwd w.
  apply wp_bind. eapply (wp_write_np True (with_w w s6) phs np p6); [done|done|done|].
  intros s7 He7. eapply wp_write_np; [done|done|done|]. intros s8 He8. by eapply HQ.
Qed.

Lemma wp_fork_child `{FileOps W} me s phs np kend data :
  Inv (mkG s phs) → phs !! me = Some (false, ForkStack np) →
  wp True (fork_child kend data me np) (λ _ s', Inv (mkG s' (<[me := (false, Run)]> phs))) s.
Proof.
  intros HI Hph. destruct (Inv_embryo _ _ _ _ _ np HI Hph eq_refl) as (p & Hp & Hst).
  destruct (Inv_cpu _ _ _ _ _ HI Hph) as (c & Hc & (cur & Hcur & Hrun) & _).
  unfold state_in in Hrun. destruct (views (k_pt s) !! cur) as [w|] eqn:Hw; [|done].
  destruct (views_lookup_inv _ _ _ Hw) as (pc & Hpc & _).
  assert (cur < NPROC)%nat as Hlt.
  { destruct HI as [HT _]. destruct (ti_tbl _ _ _ _ HT) as (? & ? & (_ & _ & _ & _ & <-) & _).
    by eapply lookup_lt_Some. }
  unfold fork_child. apply wp_bind. eapply wp_myproc; [done..|].
  apply wp_bind. eapply wp_read_proc; [done|]. apply wp_bind, wp_on_km. intros pgdir k.
  apply wp_bind. eapply (wp_write_np True (with_km k s) phs np p); [done|done|done|].
  intros s1 He1. destruct (pgdir =? 0) eqn:E; bool_to_prop; [by eapply wp_fork_abort|].
  apply wp_bind. eapply wp_fork_fill; [done..|]. intros s2 p2 He2 Hpg Hpr.
  eapply wp_mono; [eapply wp_fork_commit; [done|done| | |by left]|by intros r s' []].
  - by rewrite Hpr.
  - by rewrite Hpg.
Qed.

(** *** growproc, setpriority *)
(** A running process loads its own page table. *)
Lemma wp_switchuvm_own {A} me s phs c cur (k : M (kstate W) A) Q :
  Inv (mkG s phs) → phs !! me = Some (false, Run) → k_cpus s !! me = Some c → c_proc c = Some cur →
  (∀ s', Inv (mkG s' phs) → wp True k Q s') → wp True (switchuvm me cur ;! k) Q s.
Proof.
  intros HI Hph Hc Hcur HQ.
  destruct (Inv_running _ _ _ _ _ HI Hph (or_introl eq_refl)) as (c0 & cur0 & p & Hc0 & Hcur0 & Hp & Hst).
  simplify_eq. pose proof HI as [HT HL]. destruct (LInv_ncli _ _ _ _ _ HL Hc) as (d & Hn & Hb).
  destruct (ti_tbl _ _ _ _ HT) as (fl & rl & _ & Hslot).
  destruct (Hslot _ _ (views_lookup _ _ _ Hp)) as (_ & _ & Hlive). rewrite Hst in Hlive.
  apply wp_bind. eapply wp_switchuvm; [done|done|done|done|by apply Hlive|done|done|].
  intros c' Hn' Hp' Hi' _. apply HQ. split; simpl in *; [by rewrite (fmap_insert_cproc _ _ c)|by eapply LInv_set_cpu].
Qed.
Lemma wp_growproc me s phs kend n :
  Inv (mkG s phs) → phs !! me = Some (false, Run) →
  wp True (growproc kend me n) (λ _ s', Inv (mkG s' phs)) s.
Proof.
  intros HI Hph.
  destruct (Inv_running _ _ _ _ _ HI Hph (or_introl eq_refl)) as (c & cur & p & Hc & Hcur & Hp & Hst).
  assert (∀ k sz, wp True (write_proc cur (set_sz sz) ;! switchuvm me cur ;! ret 0)
    (λ _ s', Inv (mkG s' phs)) (with_km k s)) as Hfin.
  { intros k sz. apply wp_bind. eapply (wp_write_same True (with_km k s) phs);
      [exact HI|exact Hp|done|done|]. intros s1 Hs1 HI1.
    assert (k_cpus s1 = k_cpus s) as Hc1 by (by subst s1).
    eapply wp_switchuvm_own; [done|done|by rewrite Hc1|done|]. intros s2 HI2. by apply wp_ret. }
  unfold growproc. apply wp_bind. eapply wp_myproc; [done..|]. apply wp_bind.
  eapply wp_read_proc; [done|]. repeat case_match.
  - apply wp_bind, wp_on_km. intros sz k. case_match; [by apply wp_ret|apply Hfin].
  - apply wp_bind, wp_on_km. intros sz k. case_match; [by apply wp_ret|apply Hfin].
  - apply (Hfin (k_km s)).
Qed.

Lemma setpriority_loop_find pid pr ps : ∀ n,
  setpriority_loop pid pr ps =
  match find_pid pid ps n with
  | Some i => match ps !! (i - n)%nat with
              | Some p => <[(i - n)%nat := set_priority pr p]> ps
              | None => ps
              end
  | None => ps
  end.
Proof.
  induction ps as [|p ps IH]; intros n; simpl; [done|].
  destruct (p_pid p =? pid) eqn:E; [by rewrite Nat.sub_diag|].
  rewrite (IH (S n)). destruct (find_pid pid ps (S n)) as [i|] eqn:Hf; [|done].
  destruct (find_pid_spec _ _ _ _ Hf) as (j & q & -> & Hq & _).
  replace (S n + j - S n)%nat with j by lia. replace (S n + j - n)%nat with (S j) by lia.
  simpl. by rewrite Hq.
Qed.

Lemma wp_setpriority F s phs pid pr :
  Inv (mkG s phs) → may_set_ok s pid pr →
  wp F (set_proc_priority pid pr) (λ _ s', Inv (mkG s' phs)) s.
Proof.
  intros HI [Hpr Hok]. unfold set_proc_priority. eapply (wp_on_pt F _ _ 0); [done|].
  rewrite (setpriority_loop_find _ _ _ 0). pose proof HI as [HT _].
  destruct (find_pid pid (procs (k_pt s)) 0) as [i|] eqn:Hf.
  2:{ replace (set_procs _ _) with (k_pt s) by (by destruct (k_pt s)).
      by replace (with_pt (k_pt s) s) with s by (by destruct s). }
  destruct (find_pid_spec _ _ _ _ Hf) as (j & p & -> & Hp & _). simpl. rewrite Nat.sub_0_r, Hp.
  simpl in Hok. specialize (Hok _ _ eq_refl Hp).
  destruct (ti_tbl _ _ _ _ HT) as (fl & rl & Hrep & Hslot).
  destruct (Hslot _ _ (views_lookup _ _ _ Hp)) as (_ & _ & Hl).
  destruct (tbl_write (k_pt s) j p (set_priority pr)) as (t' & _ & Htbl & Hvs & Ht');
    try done; [apply (ti_tbl _ _ _ _ HT)|intros E; split; [done|by apply Hl]|].
  rewrite <- Ht'. apply Inv_states; [done|done|].
  intros i. rewrite Hvs, (state_in_insert _ _ _ _ _ (views_lookup _ _ _ Hp)).
  case_decide; [|done]. subst. by rewrite (state_in_views _ _ _ Hp).
Qed.

Lemma Inv_own s phs me c cur f t km w :
  Inv (mkG s phs) → phs !! me = Some (false, Run) →
  k_cpus s !! me = Some c → c_proc c = Some cur →
  (∀ p, p_state (f p) = p_state p ∧ p_priority (f p) = p_priority p ∧
        p_next (f p) = p_next p ∧ (p_pgdir p ≠ 0 → p_pgdir (f p) ≠ 0)) →
  upd_proc cur f (k_pt s) = Ret t → Inv (mkG (with_w w (with_km km (with_pt t s))) phs).
Proof.
  intros HI Hph Hc Hcur Hf Ht.
  destruct (Inv_running _ _ _ _ _ HI Hph (or_introl eq_refl)) as (c' & i & p & Hc' & Hi & Hp & Hst).
  assert (i = cur) as -> by congruence. pose proof HI as [HT _].
  destruct (ti_tbl _ _ _ _ HT) as (fl & rl & Hrep & Hslot).
  destruct (Hslot _ _ (views_lookup _ _ _ Hp)) as (_ & _ & Hl).
  destruct (Hf p) as (E1 & E2 & E3 & E4).
  destruct (tbl_write (k_pt s) cur p f) as (t' & Ht2 & Htbl & Hvs & _);
    rewrite ?E1, ?E2; try done; [apply (ti_tbl _ _ _ _ HT)| |].
  { intros Hlv. destruct (Hl Hlv). auto. }
  rewrite Ht in Ht2. injection Ht2 as <-.
  change (Inv (mkG (with_pt t s) phs)). apply Inv_states; [done|done|].
  intros j. rewrite Hvs, (state_in_insert _ _ _ _ _ (views_lookup _ _ _ Hp)).
  case_decide; [|done]. subst. rewrite (state_in_views _ _ _ Hp). simpl. by rewrite E1.
Qed.
End InvRules.

(** ** Reachable states *)

(** The state [userinit] leaves: one runnable process, the other slots free,
    every CPU about to enter [scheduler()]. *)
Definition booted {W} (g : config W) : Prop :=
  let s := g_k g in
  g_phs g = replicate (length (k_cpus s)) (false, Idle) ∧
  Forall (λ c, c_proc c = None ∧ c_ncli c = 0) (k_cpus s) ∧
  Forall (λ lk, lk = initlock) (k_locks s) ∧ 0 < Z.of_nat (length (k_locks s)) < 2 ^ 30 ∧
  length (k_konts s) = NPROC ∧
  ∃ i fl p, lists_rep (k_pt s) fl [[]; [i]; []] ∧ procs (k_pt s) !! i = Some p ∧
    p_state p = RUNNABLE ∧ p_priority p = 1 ∧ p_pgdir p ≠ 0 ∧ k_konts s !! i = Some KForkret ∧
    ∀ j q, procs (k_pt s) !! j = Some q → j ≠ i → p_state q = UNUSED ∧ j ∈ fl.

Lemma booted_states {W} (g : config W) i fl p :
  lists_rep (k_pt (g_k g)) fl [[]; [i]; []] → procs (k_pt (g_k g)) !! i = Some p →
  p_state p = RUNNABLE → p_priority p = 1 → p_pgdir p ≠ 0 →
  (∀ j q, procs (k_pt (g_k g)) !! j = Some q → j ≠ i → p_state q = UNUSED ∧ j ∈ fl) →
  tbl_inv (k_pt (g_k g)).
Proof.
  intros Hrep Hp Hst Hpr Hpg Hoth. exists fl, [[]; [i]; []]. split; [done|].
  intros j w (q & Hq & ->)%views_lookup_inv.
  destruct (decide (j = i)) as [->|Hne].
  - assert (q = p) as -> by congruence. unfold view_of. rewrite Hst, Hpr.
    destruct Hrep as (_ & _ & _ & Hnd & _). apply list.NoDup_app in Hnd as (_ & Hd & _).
    split_and!; [|intros [|[|[|k]]] l Hl; simplify_eq/=|done].
    + split; [|done]. intros Hi. destruct (Hd _ Hi). simpl. apply list_elem_of_here.
    + split; [by intros ?%not_elem_of_nil|intros [_ E]; lia].
    + split; [done|]. intros _. apply list_elem_of_here.
    + split; [by intros ?%not_elem_of_nil|intros [_ E]; lia].
  - destruct (Hoth _ _ Hq Hne) as [Hu Hf]. unfold view_of. rewrite Hu.
    split_and!; [done| |done]. intros [|[|[|k]]] l Hl; simplify_eq/=; (split; [|by intros []]).
    + by intros ?%not_elem_of_nil.
    + intros E%list_elem_of_singleton. done.
    + by intros ?%not_elem_of_nil.
Qed.

Lemma held_none c ls : Forall (λ lk, lk = initlock) ls → held c ls = 0%nat.
Proof. induction 1 as [|? ? -> ? IH]; [done|]. simpl. by rewrite IH. Qed.

Lemma Inv_booted {W} (g : config W) : booted g → Inv g.
Proof.
  destruct g as [s phs]. unfold booted; simpl.
  intros (-> & Hcs & Hls & Hll & Hlk & i & fl & p & Hrep & Hp & Hst & Hpr & Hpg & Hkf & Hoth).
  rewrite Forall_forall in Hcs.
  assert (∀ c cp, (c_proc <$> k_cpus s) !! c = Some cp → cp = None) as Hnone.
  { intros c cp. rewrite list_lookup_fmap. destruct (k_cpus s !! c) as [x|] eqn:E; [|done].
    intros [= <-]. apply (Hcs x). by eapply list_elem_of_lookup_2. }
  assert (∀ j st, state_in (views (k_pt s)) j = Some st → j = i ∧ st = RUNNABLE ∨ st = UNUSED) as Hs.
  { intros j st Hj. unfold state_in in Hj. destruct (views (k_pt s) !! j) as [w|] eqn:Hw; [|done].
    destruct (views_lookup_inv _ _ _ Hw) as (q & Hq & ->). simpl in Hj. injection Hj as <-.
    destruct (decide (j = i)) as [->|Hne]; [left|right; by apply (Hoth j)].
    split; [done|]. congruence. }
  split; split; simpl; try done.
  - by eapply (booted_states (mkG s (replicate (length (k_cpus s)) (false, Idle)))).
  - by rewrite length_fmap, length_replicate.
  - intros c b a cp [[= -> ->] _]%lookup_replicate Hc. by apply Hnone in Hc.
  - intros c1 c2 a1 a2 [[=] _]%lookup_replicate.
  - intros c b a [[= -> ->] _]%lookup_replicate. done.
  - intros c1 c2 j H1. by apply Hnone in H1.
  - intros c1 c2 b1 b2 a1 a2 np [[= -> ->] _]%lookup_replicate. done.
  - intros j Hj. destruct (Hs _ _ Hj) as [[_ E]|E]; done.
  - intros j st Hj Hl. destruct (Hs _ _ Hj) as [[-> _]| ->]; [eauto|done].
  - intros c b np [[=] _]%lookup_replicate.
  - by rewrite length_replicate.
  - intros l lk Hl. left. rewrite Forall_forall in Hls. apply Hls. by eapply list_elem_of_lookup_2.
  - intros c cp Hc. rewrite held_none by done. destruct (Hcs cp) as [_ ->]; [by eapply list_elem_of_lookup_2|].
    done.
  - intros c b a [[= -> ->] _]%lookup_replicate. split; [done|]. intros Hl.
    rewrite Forall_forall in Hls. assert (mkLock 1 (Some c) = initlock) by
      (apply Hls; by eapply list_elem_of_lookup_2). done.
  - intros c Hl. rewrite Forall_forall in Hls. assert (mkLock 1 (Some c) = initlock) by
      (apply Hls; by eapply list_elem_of_lookup_2). done.
  - intros c b a [[= -> ->] _]%lookup_replicate _. by rewrite held_none.
Qed.

Section Reach.
Context {W : Type} `{FileOps W} (kend data fr tr : Z).
Implicit Types (s : kstate W) (g : config W).

Lemma Inv_relabel_run s phs me l :
  Inv (mkG s phs) → phs !! me = Some (false, Reacquire l) → Inv (mkG s (<[me := (false, Run)]> phs)).
Proof.
  intros HI Hph. pose proof HI as [HT HL]. destruct (Inv_cpu _ _ _ _ _ HI Hph) as (c & Hc & Hact).
  split; simpl in *; [|eapply LInv_relabel; eauto; by intros [|]].
  eapply TInv_phase; eauto using Inv_cps; done.
Qed.

(** An interrupt handler starts or ends on a CPU with no process. *)
Lemma Inv_relabel_cpu s phs me a a' :
  Inv (mkG s phs) → phs !! me = Some (false, a) → no_proc a = true → no_proc a' = true →
  (a' = Idle → held me (k_locks s) = 0%nat) → Inv (mkG s (<[me := (false, a')]> phs)).
Proof.
  intros HI Hph Ha Ha' Hh. pose proof HI as [HT HL]. destruct (Inv_cpu _ _ _ _ _ HI Hph) as (c & Hc & Hact).
  split; simpl in *; [|eapply LInv_relabel; eauto; intros [-> | ->]; [by apply Hh|done]].
  eapply TInv_phase; eauto using Inv_cps; by destruct a, a'.
Qed.

Lemma wp_reacquire me s phs l :
  Inv (mkG s phs) → phs !! me = Some (false, Reacquire l) →
  wp True (sleep_reacquire me l) (λ _ s', Inv (mkG s' (<[me := (false, Run)]> phs))) s.
Proof.
  intros HI Hph. unfold sleep_reacquire. destruct (l =? PTABLE_LOCK)%nat eqn:E; bool_to_prop.
  - apply wp_skip. by eapply Inv_relabel_run.
  - eapply wp_acquire_other; [done|done|done|done|done|by left|].
    intros s' HI' _. by eapply Inv_relabel_run.
Qed.

Lemma wp_wait me s phs :
  Inv (mkG s phs) → phs !! me = Some (false, Run) →
  wp True (wait kend me)
    (λ r s', match r with
             | Some _ => Inv (mkG s' (<[me := (false, Run)]> phs))
             | None => Inv (mkG s' (<[me := (true, Left)]> phs))
             end) s.
Proof.
  intros HI Hph. pose proof (lookup_lt_Some _ _ _ Hph) as Hlt. unfold wait.
  eapply wp_critical; [done|done|done|by left|]. intros s1 HI1 _.
  eapply wp_mono; [eapply wp_wait_round; [done|by apply list_lookup_insert_eq]|].
  intros [r|] s2 HI2; by rewrite list_insert_twice in HI2.
Qed.

Lemma Inv_mstep me l ph s ph' s' phs :
  mstep kend data fr tr me l ph s ph' s' → allowed may_set_ok l s →
  Inv (mkG s phs) → phs !! me = Some ph → Inv (mkG s' (<[me := ph']> phs)).
Proof.
  intros Hst Hg HI Hph. pose proof (insert_phase _ _ _ Hph) as Hid.
  destruct Hst as
    [s s' E|s s' E|s s' E|s s' E|s l s' E|s r s' E|s s' E|s s' E|s l s' E|s s' E|s ch l s' Hl E
    |s r s' E|s s' E|s s' E|s|s Hh|s ch a s' Ha E|s pid r s' E|s pid pr r s' E|s s' E|s np s' E
    |s np s' E|s np s' E|s np r s' E|s n r s' E|s c cur s' Hc Hcur E|s l a s' Ha Hl E|s l a s' Ha Hl E
    |s c cur f t km w Hc Hcur Hf E|s km w a Ha];
    [| | | | | | | | | | | | | | | |rewrite Hid|rewrite Hid|rewrite Hid|rewrite Hid| | | |
    |rewrite Hid|rewrite Hid|rewrite Hid|rewrite Hid|rewrite Hid|rewrite Hid].
  1: exact (wp_ret_inv _ _ _ _ _ (wp_scheduler_top True me s phs HI Hph (or_introl I)) E).
  1,2: exact (wp_ret_inv _ _ _ _ _ (wp_scheduler_turn True me s phs HI Hph) E).
  1,2,3,4: exact (wp_ret_inv _ _ _ _ _ (wp_resume me s phs kend HI Hph) E).
  - exact (wp_ret_inv _ _ _ _ _ (wp_scheduler_back True me s phs HI Hph) E).
  - exact (wp_ret_inv _ _ _ _ _ (wp_reacquire me s phs l HI Hph) E).
  - exact (wp_ret_inv _ _ _ _ _ (wp_yield True me s phs HI Hph (or_introl I)) E).
  - exact (wp_ret_inv _ _ _ _ _ (wp_sleep True me s phs ch l HI Hph Hl (or_introl I)) E).
  - exact (wp_ret_inv _ _ _ _ _ (wp_wait me s phs HI Hph) E).
  - exact (wp_ret_inv _ _ _ _ _ (wp_wait me s phs HI Hph) E).
  - exact (proj1 (wp_ret_inv _ _ _ _ _ (wp_exit me s phs HI Hph) E)).
  - by eapply Inv_relabel_cpu; [done..|].
  - by eapply Inv_relabel_cpu; [done..|].
  - refine (wp_ret_inv _ _ _ _ _ (wp_wakeup True me s phs a ch HI Hph _ (or_introl I)) E).
    by destruct Ha as [-> | ->].
  - exact (wp_ret_inv _ _ _ _ _ (wp_kill True me s phs pid HI Hph (or_introl I)) E).
  - exact (wp_ret_inv _ _ _ _ _ (wp_setpriority True s phs pid pr HI Hg) E).
  - exact (wp_ret_inv _ _ _ _ _ (wp_alloc_slot True me s phs HI Hph (or_introl I)) E).
  - exact (wp_ret_inv _ _ _ _ _ (wp_alloc_slot True me s phs HI Hph (or_introl I)) E).
  - exact (wp_ret_inv _ _ _ _ _ (wp_alloc_stack True me s phs np fr tr HI Hph) E).
  - exact (wp_ret_inv _ _ _ _ _ (wp_alloc_stack True me s phs np fr tr HI Hph) E).
  - exact (wp_ret_inv _ _ _ _ _ (wp_fork_child me s phs np kend data HI Hph) E).
  - exact (wp_ret_inv _ _ _ _ _ (wp_growproc me s phs kend n HI Hph) E).
  - refine (wp_ret_inv _ (λ _ s', Inv (mkG s' phs)) _ _ _ _ (bind_Ret _ (λ _, ret tt) _ _ _ E)).
    eapply wp_switchuvm_own; [done..|]. intros s2 HI2. by apply wp_ret.
  - refine (wp_ret_inv _ (λ _ s', Inv (mkG s' phs)) _ _ _ _ E).
    eapply wp_acquire_other; [done|done|done|by destruct Ha as [-> | ->]..|by left|]. auto.
  - refine (wp_ret_inv _ (λ _ s', Inv (mkG s' phs)) _ _ _ _ E).
    eapply wp_release_other; [done|done|done|by left|]. auto.
  - by eapply Inv_own.
  - exact HI.
Qed.

Lemma Inv_steps g g' : rtc (step kend data fr tr may_set_ok) g g' → Inv g → Inv g'.
Proof.
  induction 1 as [|g1 g2 g3 Hs _ IH]; [done|]. intros HI. apply IH.
  destruct Hs as [me l s phs ph ph' s' Hph Hg Hm]. by eapply Inv_mstep.
Qed.
Lemma Inv_reachable g0 g :
  booted g0 → rtc (step kend data fr tr may_set_ok) g0 g → Inv g.
Proof. intros Hb Hr. eapply Inv_steps; [done|by apply Inv_booted]. Qed.
End Reach.

(** ** Properties of the reachable states *)

(** Claim C1 (proc.c, any number of CPUs).  Take any run from boot, by
    scheduling, fork, exit, wait, sleep, wakeup, kill, growproc, interrupts and
    other system calls, in which every call of [setpriority] is for a priority
    0, 1 or 2 and a process that is not on a ready list; [setpriority] checks
    neither, and the end of this file shows what happens otherwise.  [allocproc]'s push onto the
    free list without the lock is one step of the run, and a process is not
    preempted inside fork.  In every state of such a run: no process is the
    current process of two CPUs; the free list holds exactly the unused slots
    and ready list [k] exactly the runnable processes of priority [k]; and every
    running process is the current process of a CPU. *)
Theorem scheduler_safety {W} `{FileOps W} kend data fr tr (g0 g : config W) :
  booted g0 → rtc (step kend data fr tr may_set_ok) g0 g →
  (∀ c1 c2 cp1 cp2 i, k_cpus (g_k g) !! c1 = Some cp1 → k_cpus (g_k g) !! c2 = Some cp2 →
     c_proc cp1 = Some i → c_proc cp2 = Some i → c1 = c2) ∧
  (∃ fl rl, lists_rep (k_pt (g_k g)) fl rl ∧
     ∀ i p, procs (k_pt (g_k g)) !! i = Some p →
       (i ∈ fl ↔ p_state p = UNUSED) ∧
       ∀ k l, rl !! k = Some l → (i ∈ l ↔ p_state p = RUNNABLE ∧ p_priority p = Z.of_nat k)) ∧
  (∀ i p, procs (k_pt (g_k g)) !! i = Some p → p_state p = RUNNING →
     ∃ c cp, k_cpus (g_k g) !! c = Some cp ∧ c_proc cp = Some i).
Proof.
  intros Hb Hr. destruct (Inv_reachable _ _ _ _ _ _ Hb Hr) as [HT _]. split_and!.
  - intros c1 c2 cp1 cp2 i H1 H2 E1 E2. eapply (ti_uniq _ _ _ _ HT _ _ i);
      rewrite list_lookup_fmap; [rewrite H1|rewrite H2]; simpl; congruence.
  - destruct (ti_tbl _ _ _ _ HT) as (fl & rl & Hrep & Hslot). exists fl, rl. split; [done|].
    intros i p Hp. by destruct (Hslot _ _ (views_lookup _ _ _ Hp)) as (H1 & H2 & _).
  - intros i p Hp Hst. destruct (ti_run _ _ _ _ HT i) as [c Hc].
    { by rewrite (state_in_views _ _ _ Hp), Hst. }
    rewrite list_lookup_fmap in Hc. destruct (k_cpus (g_k g) !! c) as [cp|] eqn:E; [|done].
    injection Hc as Hc. eauto.
Qed.

(** Claim C2 (proc.c).  The scheduler and the blocking operations do not fail,
    in any state of a run from boot in which every call of [setpriority] is for
    a priority 0, 1 or 2 and a process that is not on a ready list: a CPU that holds [ptable.lock] in [scheduler()]
    completes its turn (no null pointer, no endless list walk, no panic in
    switchuvm, popcli or release) and a process that switched away is always
    taken back; when the lock is free, [scheduler()] can enter, and a process
    that holds no lock can yield, wake others, kill and allocate a slot, and
    one that holds just the lock [l] can sleep on it, without the panics of
    [sched], [acquire] and [release]. *)
Theorem scheduler_progress {W} `{FileOps W} kend data fr tr (g0 g : config W) me :
  booted g0 → rtc (step kend data fr tr may_set_ok) g0 g →
  let s := g_k g in
  (g_phs g !! me = Some (true, Idle) → returns (scheduler_turn me s)) ∧
  (g_phs g !! me = Some (true, Left) → returns (scheduler_back me s)) ∧
  (ptable_free s →
     (g_phs g !! me = Some (false, Idle) → returns (scheduler_top me s)) ∧
     (g_phs g !! me = Some (false, Run) →
        (∀ ch, returns (wakeup me ch s)) ∧ (∀ pid, returns (kill me pid s)) ∧
        returns (alloc_slot me s) ∧
        (held me (k_locks s) = 0%nat → returns (yield me s)) ∧
        (∀ ch l, l ≠ PTABLE_LOCK → k_locks s !! l = Some (mkLock 1 (Some me)) →
           held me (k_locks s) = 1%nat → returns (sleep me ch (Some l) s)))).
Proof.
  intros Hb Hr. pose proof (Inv_reachable _ _ _ _ _ _ Hb Hr) as HI.
  destruct g as [s phs]. simpl in *.
  assert (∀ A (e : M (kstate W) A) Q, wp False e Q s → returns (e s)) as Hok.
  { intros A e Q Hwp. destruct (wp_ok _ _ _ Hwp) as (a & s' & -> & _). by eexists. }
  split_and!; [intros Hph|intros Hph|intros Hfree; split; intros Hph].
  - by eapply Hok, wp_scheduler_turn.
  - by eapply Hok, wp_scheduler_back.
  - eapply Hok, wp_scheduler_top; eauto.
  - split_and!; intros.
    + eapply Hok, wp_wakeup; eauto.
    + eapply Hok, wp_kill; eauto.
    + eapply Hok, wp_alloc_slot; eauto.
    + eapply Hok, wp_yield; eauto.
    + eapply Hok, wp_sleep; eauto.
Qed.

(** Locks (spinlock.c, proc.c).  In every reachable state the pushcli depth of
    a CPU is the number of locks it holds and its interrupts are off while it
    holds one; at most one CPU holds [ptable.lock]; and a CPU in the scheduler
    holds no other lock. *)
Theorem lock_discipline {W} `{FileOps W} kend data fr tr (g0 g : config W) :
  booted g0 → rtc (step kend data fr tr may_set_ok) g0 g →
  (∀ c cp, k_cpus (g_k g) !! c = Some cp →
     c_ncli cp = Z.of_nat (held c (k_locks (g_k g))) ∧
     (held c (k_locks (g_k g)) ≠ 0%nat → c_if cp = false)) ∧
  (∀ c1 c2 a1 a2, g_phs g !! c1 = Some (true, a1) → g_phs g !! c2 = Some (true, a2) → c1 = c2) ∧
  (∀ c (b : bool), g_phs g !! c = Some (b, Idle) → held c (k_locks (g_k g)) = if b then 1%nat else 0%nat).
Proof.
  intros Hb Hr. destruct (Inv_reachable _ _ _ _ _ _ Hb Hr) as [HT HL]. split_and!.
  - intros c cp Hc. destruct (li_cli _ _ _ HL _ _ Hc) as [Hn Hi]. split; [done|].
    intros Hz. apply Hi. lia.
  - apply (ti_lock _ _ _ _ HT).
  - intros c b Hc. by eapply (li_only _ _ _ HL _ _ _ Hc); left.
Qed.

(** *** A concrete machine *)

(** A file system that stores nothing. *)
#[export] Instance no_files : FileOps unit := {
  fo_filedup f := ret f;
  fo_fileclose _ := skip;
  fo_idup i := ret i;
  fo_iput _ := skip;
  fo_begin_op := skip;
  fo_end_op := skip;
  fo_namei_root := ret 1;
  fo_init := skip }.

(** Slot 63 is init; the slots below it are on the free list. *)
Definition boot_proc (i : nat) : proc :=
  set_next (match i with O => None | S j => Some j end) empty_proc.
Definition init_proc : proc :=
  set_pgdir 0x80400000 (set_priority 1 (set_pid 1 (set_state RUNNABLE empty_proc))).
Definition boot_pt : ptable :=
  mkPt ((boot_proc <$> seq 0 63) ++ [init_proc]) [None; Some 63%nat; None] (Some 62%nat) 0.
Definition boot_config : config unit :=
  mkG (mkK (replicate 2 (mkCpu 0 0 0 0 None true 0)) (replicate 3 initlock) boot_pt
         (replicate NPROC KForkret) (Some 63%nat) 2 1 0 (mkKmem 0 0 (λ _, 0)) tt)
      (replicate 2 (false, Idle)).

Lemma boot_lookup j : (j < 63)%nat → procs boot_pt !! j = Some (boot_proc j).
Proof.
  intros Hj. change (procs boot_pt) with ((boot_proc <$> seq 0 63) ++ [init_proc]).
  rewrite lookup_app_l by (rewrite length_fmap, length_seq; lia).
  by rewrite list_lookup_fmap, lookup_seq_lt by lia.
Qed.

Lemma boot_chain : chain (procs boot_pt) (Some 62%nat) (rev (seq 0 63)).
Proof.
  assert (∀ n, (n ≤ 63)%nat →
    chain (procs boot_pt) (match n with O => None | S j => Some j end) (rev (seq 0 n))) as H.
  { induction n as [|n IH]; intros Hn; [done|].
    rewrite seq_S, rev_app_distr. simpl. split; [done|]. eexists. split; [|apply IH; lia].
    unfold next_of. by rewrite boot_lookup by lia. }
  apply (H 63%nat). lia.
Qed.

Lemma boot_config_booted : booted boot_config.
Proof.
  unfold booted. split_and!; [done|by repeat constructor|by repeat constructor|done|done|done|].
  exists 63%nat, (rev (seq 0 63)), init_proc. split_and!; try done.
  - split_and!; [apply boot_chain| |done| |done].
    + constructor; [done|]. constructor; [|by repeat constructor].
      split; [done|]. exists None. done.
    + change (concat _) with [63%nat]. rewrite <- (Permutation_rev (seq 0 63)).
      exact (NoDup_seq 0 64).
  - intros j q Hj Hne. pose proof (lookup_lt_Some _ _ _ Hj) as Hlt.
    change (length (procs _)) with 64%nat in Hlt.
    rewrite boot_lookup in Hj by lia. simplify_eq. split; [done|].
    rewrite <- (Permutation_rev (seq 0 63)). apply elem_of_seq. lia.
Qed.

(** The two CPUs enter the scheduler one after the other; the first one
    dispatches init and init returns from [forkret]. *)
Lemma boot_run :
  ∃ g, rtc (step 0 0 0 0 may_set_ok) boot_config g ∧
    g_phs g = [(false, Run); (true, Idle)] ∧
    option_map c_proc (k_cpus (g_k g) !! 0%nat) = Some (Some 63%nat) ∧
    k_locks (g_k g) !! 0%nat = Some (mkLock 1 (Some 1%nat)).
Proof.
  eexists. split_and!.
  - eapply rtc_l. { eapply (step_cpu _ _ _ _ _ 0 None); [done|done|]. apply m_top. vm_compute. reflexivity. }
    eapply rtc_l. { eapply (step_cpu _ _ _ _ _ 0 None); [done|done|]. apply m_dispatch. vm_compute. reflexivity. }
    eapply rtc_l. { eapply (step_cpu _ _ _ _ _ 0 None); [done|done|]. apply m_resume. vm_compute. reflexivity. }
    eapply rtc_l. { eapply (step_cpu _ _ _ _ _ 1 None); [done|done|]. apply m_top. vm_compute. reflexivity. }
    apply rtc_refl.
  - done.
  - done.
  - done.
Qed.

Lemma scheduler_safety_witness :
  ∃ g : config unit, booted boot_config ∧ rtc (step 0 0 0 0 may_set_ok) boot_config g ∧
    option_map c_proc (k_cpus (g_k g) !! 0%nat) = Some (Some 63%nat) ∧
    (∀ c1 c2 cp1 cp2 i, k_cpus (g_k g) !! c1 = Some cp1 → k_cpus (g_k g) !! c2 = Some cp2 →
       c_proc cp1 = Some i → c_proc cp2 = Some i → c1 = c2).
Proof.
  destruct boot_run as (g & Hr & _ & Hc & _). exists g. split_and!; [exact boot_config_booted|exact Hr|exact Hc|].
  exact (proj1 (scheduler_safety 0 0 0 0 boot_config g boot_config_booted Hr)).
Defined.

Lemma scheduler_progress_witness :
  ∃ g : config unit, booted boot_config ∧ rtc (step 0 0 0 0 may_set_ok) boot_config g ∧
    g_phs g !! 1%nat = Some (true, Idle) ∧ returns (scheduler_turn 1 (g_k g)).
Proof.
  destruct boot_run as (g & Hr & Hph & _). exists g.
  assert (g_phs g !! 1%nat = Some (true, Idle)) as Hp by (rewrite Hph; reflexivity).
  split_and!; [exact boot_config_booted|exact Hr|exact Hp|].
  exact (proj1 (scheduler_progress 0 0 0 0 boot_config g 1 boot_config_booted Hr) Hp).
Defined.

Lemma lock_discipline_witness :
  ∃ g : config unit, booted boot_config ∧ rtc (step 0 0 0 0 may_set_ok) boot_config g ∧
    g_phs g !! 1%nat = Some (true, Idle) ∧ held 1 (k_locks (g_k g)) = 1%nat.
Proof.
  destruct boot_run as (g & Hr & Hph & _). exists g.
  assert (g_phs g !! 1%nat = Some (true, Idle)) as Hp by (rewrite Hph; reflexivity).
  split_and!; [exact boot_config_booted|exact Hr|exact Hp|].
  exact (proj2 (proj2 (lock_discipline 0 0 0 0 boot_config g boot_config_booted Hr)) 1%nat true Hp).
Defined.

(** *** What setpriority can do *)

(** Two processes on two CPUs: slot 1 runs on CPU 0, slot 2 is ready. *)
Definition two_procs : list proc :=
  <[1%nat := set_pid 1 (set_state RUNNING init_proc)]>
    (<[2%nat := set_pid 2 init_proc]> (replicate NPROC (set_state ZOMBIE empty_proc))).
Definition two_pt : ptable := mkPt two_procs [None; Some 2%nat; None] None 50.
Definition two_config_with {W} (w : W) : config W :=
  mkG (mkK [mkCpu 0 0 0 0 (Some 1%nat) true 0; mkCpu 0 0 0 0 None true 0]
         (replicate 5 initlock) two_pt (replicate NPROC (KYield FL_IF)) (Some 1%nat) 3 0 0
         (mkKmem 0 0 (λ _, 0)) w)
      [(false, Run); (false, Idle)].
Definition two_config : config unit := two_config_with tt.

Lemma two_views i w :
  views two_pt !! i = Some w →
  (i = 1%nat ∧ w = (RUNNING, 1, 0x80400000)) ∨ (i = 2%nat ∧ w = (RUNNABLE, 1, 0x80400000)) ∨
  (i ≠ 1%nat ∧ i ≠ 2%nat ∧ w = (ZOMBIE, 0, 0)).
Proof.
  intros (p & Hp & ->)%views_lookup_inv. change (procs two_pt) with two_procs in Hp.
  unfold two_procs in Hp.
  apply list_lookup_insert_Some in Hp as [(<- & <- & _)|[H1 Hp]]; [by left|].
  apply list_lookup_insert_Some in Hp as [(<- & <- & _)|[H2 Hp]]; [by right; left|].
  apply lookup_replicate in Hp as [-> _]. by right; right.
Qed.

Lemma two_tbl_inv : tbl_inv two_pt.
Proof.
  exists [], [[]; [2%nat]; []]. split.
  - split_and!; [done| |done|by repeat constructor; set_solver|done].
    constructor; [done|]. constructor; [|by repeat constructor]. split; [done|]. by exists None.
  - intros i w [(-> & ->)|[(-> & ->)|(H1 & H2 & ->)]]%two_views;
      (split_and!; [by split; [intros ?%not_elem_of_nil|]| |done]);
      intros [|[|[|k]]] l Hl; simplify_eq/=;
      rewrite ?list_elem_of_singleton, ?elem_of_nil; intuition (try done; lia).
Qed.

Lemma two_config_with_inv {W} (w : W) : Inv (two_config_with w).
Proof.
  assert (∀ i st, state_in (views two_pt) i = Some st →
    (i = 1%nat ∧ st = RUNNING) ∨ (i = 2%nat ∧ st = RUNNABLE) ∨ st = ZOMBIE) as Hst.
  { intros i st. unfold state_in. destruct (views two_pt !! i) as [vw|] eqn:Hw; [|done].
    apply two_views in Hw as [(-> & ->)|[(-> & ->)|(_ & _ & ->)]]; intros [= <-]; auto. }
  split; split; try done; simpl.
  - apply two_tbl_inv.
  - intros [|[|c]] b a cp Hp Hc; simplify_eq/=; [|done]. split; [|done]. by exists 1%nat.
  - intros [|[|c]] c2 a1 a2 Hp; simplify_eq/=.
  - intros [|[|c]] b a Hp; by simplify_eq/=.
  - intros [|[|c1]] [|[|c2]] i; by intros; simplify_eq/=.
  - intros [|[|c1]] c2 b1 b2 a1 a2 np Hp; by intros; simplify_eq/=.
  - intros i Hi. destruct (Hst _ _ Hi) as [[-> _]|[[_ E]|E]]; [by exists 0%nat|done|done].
  - intros i st Hi Hl. exists (KYield FL_IF). split; [|done].
    by destruct (Hst _ _ Hi) as [[-> _]|[[-> _]| ->]].
  - intros [|[|c]] b np Hp; by simplify_eq/=.
  - intros l lk Hl. apply (lookup_replicate 5 initlock lk l) in Hl as [-> _]. by left.
  - intros [|[|c]] cp Hc; simplify_eq/=; by split.
  - intros [|[|c]] b a Hp; by simplify_eq/=.
  - intros [|[|c]] b a Hp; simplify_eq/=; done.
Qed.

Lemma two_config_inv : Inv two_config.
Proof. apply two_config_with_inv. Qed.

(** Claim C38 (proc.c:22-36).  [setpriority] on a process that waits on a ready list
    does not move it, so the scheduler later looks for it on the wrong list and
    leaves it queued: from a correct state a process that runs on one CPU is
    dispatched on another CPU too. *)
Theorem setpriority_runs_process_twice :
  Inv two_config ∧
  ∃ g, rtc (step 0 0 0 0 (λ _ _ _, True)) two_config g ∧
    c_proc <$> k_cpus (g_k g) = [Some 2%nat; Some 2%nat].
Proof.
  split; [exact two_config_inv|]. eexists. split.
  - eapply rtc_l. { eapply (step_cpu _ _ _ _ _ 0 (Some (2, 2))); [done|done|]. eapply m_setpriority. vm_compute. reflexivity. }
    eapply rtc_l. { eapply (step_cpu _ _ _ _ _ 1 None); [done|done|]. apply m_top. vm_compute. reflexivity. }
    eapply rtc_l. { eapply (step_cpu _ _ _ _ _ 1 None); [done|done|]. apply m_dispatch. vm_compute. reflexivity. }
    eapply rtc_l. { eapply (step_cpu _ _ _ _ _ 1 None); [done|done|]. apply m_resume. vm_compute. reflexivity. }
    eapply rtc_l. { eapply (step_cpu _ _ _ _ _ 0 None); [done|done|]. apply m_yield. vm_compute. reflexivity. }
    eapply rtc_l. { eapply (step_cpu _ _ _ _ _ 0 None); [done|done|]. apply m_back. vm_compute. reflexivity. }
    eapply rtc_l. { eapply (step_cpu _ _ _ _ _ 0 None); [done|done|]. apply m_dispatch. vm_compute. reflexivity. }
    apply rtc_refl.
  - reflexivity.
Qed.
