(* ===== verification/Fair.v ===== *)
(** * No ready process starves

    [ResetPriority] runs every [MaxTimeToReset + 1] turns of the scheduler and
    moves every ready process to the list of priority 1, behind those that are
    already there.  This file proves that this is enough: a process on a ready
    list is chosen within a fixed number of turns, whatever the other processes
    do short of calling [setpriority] on a process that is on a ready list.  [turn] is the effect of [scheduler_turn] on the process table. *)
From S2P Require Import Prelude Machine Spinlock Kalloc Vm Proc ProcOps Sched SchedThm.

Open Scope Z_scope.

(** One turn of the loop of [scheduler()] on the table: the chosen process. *)
Definition turn_timer (t : ptable) : outcome ptable :=
  if TimeToReset t =? 0 then
    let* t := ResetPriority t in Ret (set_TimeToReset MaxTimeToReset t)
  else Ret (set_TimeToReset (u32 (TimeToReset t - 1)) t).
Definition turn (t : ptable) : outcome (option nat * ptable) :=
  match ready_head 0 t, ready_head 1 t, ready_head 2 t with
  | None, None, None => Ret (None, t)
  | _, _, _ =>
      let* t := turn_timer t in
      let* p := deref (GetReady t) in
      let* t := upd_proc p (set_state RUNNING) t in
      let* (_, t) := RemoveReadyList p t in
      Ret (Some p, t)
  end.





Lemma set_ready_head_timer k v t : TimeToReset (set_ready_head k v t) = TimeToReset t.
Proof. done. Qed.









(** ** The wait of a ready process *)



Lemma head_cons_app (i p : nat) l1 l2 :
  head (l1 ++ i :: l2) = Some p → p = i ∨ ∃ l1', l1 = p :: l1'.
Proof. destruct l1 as [|x l1]; simpl; intros [= ->]; [by left|right; eauto]. Qed.










(** ** Theorems *)



(** ** The scheduler makes these turns *)
Lemma bind_inv {S A B} (e : M S A) (k : A → M S B) s b s' :
  bind e k s = Ret (b, s') → ∃ a s1, e s = Ret (a, s1) ∧ k a s1 = Ret (b, s').
Proof. unfold bind. destruct (e s) as [[a s1]| | |]; [eauto|done..]. Qed.
Lemma lift_inv {S A} (e : outcome A) (s : S) a s' : lift e s = Ret (a, s') → e = Ret a ∧ s' = s.
Proof. unfold lift. destruct e; intros H; simplify_eq; done. Qed.
Lemma popcli_proc c c' : popcli c = Ret c' → c_proc c' = c_proc c.
Proof. unfold popcli. intros H. repeat (case_in H; simplify_eq/=; try done). Qed.

Section Scheduler.
Context {W : Type} (me : nat).
Implicit Types s : kstate W.

Lemma upd_cpu_inv f s s' :
  upd_cpu me f s = Ret (tt, s') →
  ∃ c, k_cpus s !! me = Some c ∧ s' = with_cpus (<[me := f c]> (k_cpus s)) s.
Proof.
  unfold upd_cpu, mycpu, bind, gets. destruct (k_cpus s !! me) as [c|] eqn:Hc; [|done].
  intros [= <-]. eauto.
Qed.
Lemma on_pt_inv {A} (e : M ptable A) s a s' :
  on_pt e s = Ret (a, s') → ∃ t, e (k_pt s) = Ret (a, t) ∧ s' = with_pt t s.
Proof. unfold on_pt, zoom. destruct (e (k_pt s)) as [[? t]| | |]; intros H; simplify_eq. eauto. Qed.

(** [switchuvm] keeps the table and the current process. *)
Lemma switchuvm_inv p s s' :
  switchuvm me p s = Ret (tt, s') →
  k_pt s' = k_pt s ∧ ∃ c c', k_cpus s !! me = Some c ∧ k_cpus s' !! me = Some c' ∧ c_proc c' = c_proc c.
Proof.
  unfold switchuvm. intros H. apply bind_inv in H as ([] & s1 & H1 & H).
  apply upd_cpu_inv in H1 as (c & Hc & ->). pose proof (lookup_lt_Some _ _ _ Hc) as Hlt.
  apply bind_inv in H as (cur & s2 & H2 & H). unfold myproc in H2.
  apply bind_inv in H2 as (c2 & s3 & H2 & H3). unfold mycpu, bind, gets in H2. simpl in H2.
  rewrite list_lookup_insert_eq in H2 by done. injection H2 as <- <-. apply lift_inv in H3 as [_ ->].
  apply bind_inv in H as (cp & s3 & H3 & H). unfold read_proc in H3.
  apply bind_inv in H3 as (t3 & s4 & [= <- <-] & H3). apply lift_inv in H3 as [_ ->].
  apply bind_inv in H as ([] & s5 & H5 & H). apply upd_cpu_inv in H5 as (c5 & Hc5 & ->).
  simpl in Hc5. rewrite list_lookup_insert_eq in Hc5 by done. injection Hc5 as <-.
  apply bind_inv in H as (pp & s6 & H6 & H). unfold read_proc in H6.
  apply bind_inv in H6 as (t6 & s7 & [= <- <-] & H6). apply lift_inv in H6 as [_ ->].
  destruct (p_pgdir pp =? 0); [done|].
  apply bind_inv in H as ([] & s8 & H8 & H). apply upd_cpu_inv in H8 as (c8 & Hc8 & ->).
  simpl in Hc8. rewrite list_insert_insert_eq, list_lookup_insert_eq in Hc8 by done. injection Hc8 as <-.
  apply bind_inv in H as (c9 & s9 & H9 & H). unfold mycpu, bind, gets in H9. simpl in H9.
  rewrite !list_insert_insert_eq, list_lookup_insert_eq in H9 by done. injection H9 as <- <-.
  apply bind_inv in H as (c10 & s10 & H10 & H). apply lift_inv in H10 as [Hpop ->].
  unfold set_cpu, modify in H. injection H as <-. simpl. split; [done|].
  exists c, c10. split; [done|]. split; [by rewrite !list_insert_insert_eq, list_lookup_insert_eq|].
  apply popcli_proc in Hpop. rewrite Hpop. simpl. apply pushcli_proc.
Qed.

Lemma reset_timer_inv s s' : reset_timer s = Ret (tt, s') →
  turn_timer (k_pt s) = Ret (k_pt s') ∧ k_cpus s' = k_cpus s.
Proof.
  unfold reset_timer, turn_timer. intros H. apply bind_inv in H as (t & s3 & [= <- <-] & H2).
  destruct (TimeToReset (k_pt s) =? 0).
  - apply bind_inv in H2 as ([] & s4 & H3 & H2). apply on_pt_inv in H3 as (t3 & H3 & ->).
    destruct (ResetPriority (k_pt s)); simplify_eq. by apply on_pt_inv in H2 as (t4 & [= <-] & ->).
  - by apply on_pt_inv in H2 as (t4 & [= <-] & ->).
Qed.

Lemma scheduler_run_inv s s' :
  scheduler_run me s = Ret (tt, s') →
  ∃ p c, (let* t := turn_timer (k_pt s) in let* p := deref (GetReady t) in
      let* t := upd_proc p (set_state RUNNING) t in let* (_, t) := RemoveReadyList p t in
      Ret (Some p, t)) = Ret (Some p, k_pt s') ∧ k_cpus s' !! me = Some c ∧ c_proc c = Some p.
Proof.
  intros H. unfold scheduler_run in H. apply bind_inv in H as ([] & s2 & H2 & H).
  apply reset_timer_inv in H2 as [-> _].
  apply bind_inv in H as (t & s3 & [= <- <-] & H). apply bind_inv in H as ([] & s4 & H4 & H).
  apply upd_cpu_inv in H4 as (c & Hc & ->).
  apply bind_inv in H as (p & s5 & H5 & H). apply lift_inv in H5 as [Hp ->]. rewrite Hp.
  apply bind_inv in H as ([] & s6 & H6 & H).
  apply switchuvm_inv in H6 as (E6 & c1 & c2 & Hc1 & Hc2 & Ecp). simpl in E6, Hc1.
  rewrite list_lookup_insert_eq in Hc1 by (by eapply lookup_lt_Some). injection Hc1 as <-.
  apply bind_inv in H as ([] & s7 & H7 & H). unfold write_proc in H7.
  apply on_pt_inv in H7 as (t7 & H7 & ->).
  rewrite E6 in H7. destruct (upd_proc p _ (k_pt s2)) as [t7'| | |]; simplify_eq.
  apply bind_inv in H as (r & s8 & H8 & [= <-]). apply on_pt_inv in H8 as (t8 & H8 & ->).
  simpl in H8. rewrite H8. exists p, c2. split_and!; [done|done|].
  rewrite Ecp. simpl. destruct (GetReady (k_pt s2)); by simplify_eq/=.
Qed.

Lemma release_lock_pt l s s' : release_lock me l s = Ret (tt, s') → k_pt s' = k_pt s.
Proof.
  unfold release_lock. intros H.
  apply bind_inv in H as (c & s2 & H2 & H). unfold mycpu, bind, gets in H2.
  destruct (k_cpus s !! me); [|done]. injection H2 as <- <-.
  apply bind_inv in H as (lk & s2 & H2 & H). unfold get_lock, bind, gets in H2.
  destruct (k_locks s !! _); [|done]. injection H2 as <- <-.
  apply bind_inv in H as ([c' lk'] & s2 & H2 & H). apply lift_inv in H2 as [_ ->].
  by apply bind_inv in H as ([] & s2 & [= <-] & [= <-]).
Qed.

(** [scheduler_turn] is [turn] on the process table: when it reaches
    the [swtch], the table has made one turn and the process chosen by it is the
    current process of the CPU; when it releases the lock instead, no process
    was ready and the table is unchanged. *)
Theorem scheduler_turn_table s s' b :
  scheduler_turn me s = Ret (b, s') →
  if (b : bool)
  then ∃ p c, turn (k_pt s) = Ret (Some p, k_pt s') ∧ k_cpus s' !! me = Some c ∧ c_proc c = Some p
  else turn (k_pt s) = Ret (None, k_pt s').
Proof.
  unfold scheduler_turn. intros H. apply bind_inv in H as (t & s0 & [= <- <-] & H).
  unfold turn. destruct (ready_head 0 (k_pt s)), (ready_head 1 (k_pt s)), (ready_head 2 (k_pt s));
    try (apply bind_inv in H as ([] & s1 & H & [= <- <-]); by apply scheduler_run_inv).
  apply bind_inv in H as ([] & s1 & H & [= <- <-]). by rewrite (release_lock_pt _ _ _ H).
Qed.
End Scheduler.

(** CPU 1 of [two_config] in its scheduler, with process 2 ready. *)
Definition run_or {S A} (e : M S A) (s : S) : S :=
  match e s with Ret (_, s') => s' | _ => s end.
Definition turn_state : kstate unit := run_or (scheduler_top 1) (g_k two_config).
Lemma scheduler_turn_table_witness :
  ∃ p c, turn (k_pt turn_state) = Ret (Some p, k_pt (run_or (scheduler_turn 1) turn_state)) ∧
    k_cpus (run_or (scheduler_turn 1) turn_state) !! 1%nat = Some c ∧ c_proc c = Some p.
Proof.
  apply (scheduler_turn_table 1 turn_state (run_or (scheduler_turn 1) turn_state) true).
  vm_compute. reflexivity.
Defined.
