(* ===== verification/Pipe.v ===== *)
(** * Pipes (pipe.c)

    The ring buffer of a pipe and the code of [pipewrite], [piperead] and
    [pipeclose] between taking and leaving [p->lock].  A call that has to wait
    ends its part with [sleep]; what it still has to do is returned, and the
    call continues from there when it is woken.  The second half runs any
    number of readers and writers on one pipe in any order.

    Allocation of the pipe and of its files is in File.v. *)
From S2P Require Import Prelude Machine.

Open Scope Z_scope.

Definition PIPESIZE : Z := 512.

(** [struct pipe] without its lock: the definitions below are the critical
    sections of the lock. *)
Record pipe := mkPipe {
  pi_data : list Z;
  pi_nread : Z;
  pi_nwrite : Z;
  pi_readopen : Z;
  pi_writeopen : Z }.

(** The two sleep channels of a pipe: [&p->nread] and [&p->nwrite]. *)
Inductive pchan := NREAD | NWRITE.
#[export] Instance pchan_eq_dec : EqDecision pchan.
Proof. solve_decision. Defined.

(** How a call leaves the lock: with a result, or asleep on a channel. *)
Inductive pres (A : Type) := PRet (r : A) | PSleep (ch : pchan).
Arguments PRet {A} r.
Arguments PSleep {A} ch.

(** [p->data[p->nwrite++ % PIPESIZE] = c;] *)
Definition pipe_put (c : Z) (p : pipe) : pipe :=
  mkPipe (<[Z.to_nat (pi_nwrite p mod PIPESIZE) := c]> (pi_data p)) (pi_nread p)
    (u32 (pi_nwrite p + 1)) (pi_readopen p) (pi_writeopen p).
(** [p->data[p->nread++ % PIPESIZE]] *)
Definition pipe_get (p : pipe) : Z * pipe :=
  (default 0 (pi_data p !! Z.to_nat (pi_nread p mod PIPESIZE)),
   mkPipe (pi_data p) (u32 (pi_nread p + 1)) (pi_nwrite p) (pi_readopen p) (pi_writeopen p)).

(** The loop of [pipewrite] on the bytes [rest] that are still to be written,
    of [n] in all: how it ends, the bytes left, the pipe, and the channels
    woken up. *)
Fixpoint pipewrite (killed : bool) (rest : list Z) (n : Z) (p : pipe)
    : pres Z * list Z * pipe * list pchan :=
  match rest with
  | [] => (PRet n, [], p, [NREAD])
  | c :: rest' =>
      if pi_nwrite p =? u32 (pi_nread p + PIPESIZE) then
        if (pi_readopen p =? 0) || killed then (PRet (-1), rest, p, [])
        else (PSleep NWRITE, rest, p, [NREAD])
      else pipewrite killed rest' n (pipe_put c p)
  end.

(** The copy loop of [piperead]: at most [n] bytes. *)
Fixpoint piperead_copy (n : nat) (p : pipe) : list Z * pipe :=
  match n with
  | O => ([], p)
  | S n' =>
      if pi_nread p =? pi_nwrite p then ([], p)
      else
        let '(c, p) := pipe_get p in
        let '(cs, p) := piperead_copy n' p in
        (c :: cs, p)
  end.
(** [piperead]: the result is the bytes read, [None] for -1. *)
Definition piperead (killed : bool) (n : Z) (p : pipe)
    : pres (option (list Z)) * pipe * list pchan :=
  if (pi_nread p =? pi_nwrite p) && truth (pi_writeopen p) then
    if killed then (PRet None, p, [])
    else (PSleep NREAD, p, [])
  else
    let '(cs, p) := piperead_copy (Z.to_nat n) p in
    (PRet (Some cs), p, [NWRITE]).

(** [pipeclose]: whether the pipe is freed, and the channel woken up. *)
Definition pipeclose (writable : Z) (p : pipe) : bool * pipe * list pchan :=
  let '(p, woken) :=
    if truth writable
    then (mkPipe (pi_data p) (pi_nread p) (pi_nwrite p) (pi_readopen p) 0, [NREAD])
    else (mkPipe (pi_data p) (pi_nread p) (pi_nwrite p) 0 (pi_writeopen p), [NWRITE]) in
  ((pi_readopen p =? 0) && (pi_writeopen p =? 0), p, woken).

(** What [pipealloc] writes to a new pipe; [data] is what the page held. *)
Definition pipe_init (data : list Z) : pipe := mkPipe data 0 0 1 1.

(** ** Readers and writers *)

(** A thread is outside the pipe, writing or reading; [asleep] when it is in
    [sleep] and nobody has woken it since. *)
Inductive thread :=
| TOut
| TWrite (rest : list Z) (n : Z) (asleep : bool)
| TRead (n : Z) (asleep : bool).

Definition woken_on (ch : pchan) (woken : list pchan) : bool :=
  existsb (λ c, bool_decide (c = ch)) woken.
Definition wake_thread (woken : list pchan) (t : thread) : thread :=
  match t with
  | TOut => TOut
  | TWrite rest n a => TWrite rest n (a && negb (woken_on NWRITE woken))
  | TRead n a => TRead n (a && negb (woken_on NREAD woken))
  end.

(** A pipe in use: the threads, and the bytes written and read so far. *)
Record pstate := mkPS { ps_pipe : pipe; ps_threads : list thread; ps_in : list Z; ps_out : list Z }.

(** The thread after a call ended with [r]. *)
Definition after_write (r : pres Z) (rest : list Z) (n : Z) : thread :=
  match r with PRet _ => TOut | PSleep _ => TWrite rest n true end.
Definition after_read (r : pres (option (list Z))) (n : Z) : thread :=
  match r with PRet _ => TOut | PSleep _ => TRead n true end.
Definition bytes_read (r : pres (option (list Z))) : list Z :=
  match r with PRet (Some cs) => cs | _ => [] end.

(** A thread inside a call has the file of its end of the pipe open, so that
    end is not closed before the call returns. *)
Definition uses_end (writable : Z) (t : thread) : bool :=
  match t with
  | TOut => false
  | TWrite _ _ _ => truth writable
  | TRead _ _ => negb (truth writable)
  end.

(** [may_die] says whether a process can find itself killed inside a call. *)
Inductive pstep (may_die : bool) : pstate → pstate → Prop :=
| p_call_write s i bytes :
    ps_threads s !! i = Some TOut → pi_writeopen (ps_pipe s) ≠ 0 →
    pstep may_die s (mkPS (ps_pipe s)
      (<[i := TWrite bytes (Z.of_nat (length bytes)) false]> (ps_threads s)) (ps_in s) (ps_out s))
| p_call_read s i n :
    ps_threads s !! i = Some TOut → pi_readopen (ps_pipe s) ≠ 0 →
    pstep may_die s (mkPS (ps_pipe s) (<[i := TRead n false]> (ps_threads s)) (ps_in s) (ps_out s))
| p_write s i rest n killed r rest' p woken :
    ps_threads s !! i = Some (TWrite rest n false) → (killed = true → may_die = true) →
    pipewrite killed rest n (ps_pipe s) = (r, rest', p, woken) →
    pstep may_die s (mkPS p (wake_thread woken <$> <[i := after_write r rest' n]> (ps_threads s))
      (ps_in s ++ take (length rest - length rest') rest) (ps_out s))
| p_read s i n killed r p woken :
    ps_threads s !! i = Some (TRead n false) → (killed = true → may_die = true) →
    piperead killed n (ps_pipe s) = (r, p, woken) →
    pstep may_die s (mkPS p (wake_thread woken <$> <[i := after_read r n]> (ps_threads s))
      (ps_in s) (ps_out s ++ bytes_read r))
| p_close s writable freed p woken :
    (∀ i t, ps_threads s !! i = Some t → uses_end writable t = false) →
    pipeclose writable (ps_pipe s) = (freed, p, woken) →
    pstep may_die s (mkPS p (wake_thread woken <$> ps_threads s) (ps_in s) (ps_out s))
| p_wake s i t : (* kill() wakes a sleeping process *)
    ps_threads s !! i = Some t →
    pstep may_die s (mkPS (ps_pipe s) (<[i := wake_thread [NREAD; NWRITE] t]> (ps_threads s))
      (ps_in s) (ps_out s)).

Definition pinit (data : list Z) (n : nat) : pstate :=
  mkPS (pipe_init data) (replicate n TOut) [] [].

(** ** The ring buffer as a queue *)
Definition pipe_rep (p : pipe) (buf : list Z) : Prop :=
  length (pi_data p) = Z.to_nat PIPESIZE ∧ word_ok (pi_nread p) ∧
  pi_nwrite p = u32 (pi_nread p + Z.of_nat (length buf)) ∧
  (length buf ≤ Z.to_nat PIPESIZE)%nat ∧
  ∀ i b, buf !! i = Some b →
    pi_data p !! Z.to_nat ((pi_nread p + Z.of_nat i) mod PIPESIZE) = Some b.


Lemma u32_mod_pipe a : u32 a mod PIPESIZE = a mod PIPESIZE.
Proof. unfold u32, PIPESIZE. apply Z.mod_mod_divide. by exists (2 ^ 23). Qed.

Lemma pipe_rep_init data : length data = Z.to_nat PIPESIZE → pipe_rep (pipe_init data) [].
Proof. intros H. split_and!; [done|done|done|simpl; lia|done]. Qed.

(** Full and empty are told apart by the counters, also after they wrapped. *)
Lemma pipe_full_spec p buf :
  pipe_rep p buf →
  (pi_nwrite p =? u32 (pi_nread p + PIPESIZE)) = (length buf =? Z.to_nat PIPESIZE)%nat.
Proof.
  intros (_ & Hr & -> & Hl & _). unfold word_ok, u32, PIPESIZE in *.
  destruct (Nat.eqb_spec (length buf) (Z.to_nat 512)) as [E|E].
  - rewrite E. apply Z.eqb_refl.
  - apply Z.eqb_neq. Z.div_mod_to_equations. lia.
Qed.
Lemma pipe_empty_spec p buf :
  pipe_rep p buf → (pi_nread p =? pi_nwrite p) = (length buf =? 0)%nat.
Proof.
  intros (_ & Hr & -> & Hl & _). unfold word_ok, u32, PIPESIZE in *.
  destruct (Nat.eqb_spec (length buf) 0) as [E|E].
  - rewrite E. apply Z.eqb_eq. rewrite Z.add_0_r, Z.mod_small; lia.
  - apply Z.eqb_neq. Z.div_mod_to_equations. lia.
Qed.

Lemma pipe_put_rep p buf c :
  pipe_rep p buf → (length buf < Z.to_nat PIPESIZE)%nat → pipe_rep (pipe_put c p) (buf ++ [c]).
Proof.
  intros (Hd & Hr & Hw & Hl & Hb) Hlt. unfold pipe_put. split_and!; simpl.
  - by rewrite length_insert.
  - done.
  - rewrite Hw, length_app, u32_add_l. simpl. f_equal. lia.
  - rewrite length_app. simpl. lia.
  - intros i b Hi. rewrite Hw, u32_mod_pipe. apply lookup_snoc_Some in Hi as [[Hi Hbi]|[-> ->]].
    + rewrite list_lookup_insert_ne; [auto|]. unfold PIPESIZE in *. Z.div_mod_to_equations. lia.
    + apply list_lookup_insert_eq. rewrite Hd. unfold PIPESIZE. Z.div_mod_to_equations. lia.
Qed.

Lemma pipe_get_rep p b buf :
  pipe_rep p (b :: buf) → (pipe_get p).1 = b ∧ pipe_rep (pipe_get p).2 buf.
Proof.
  intros (Hd & Hr & Hw & Hl & Hb). unfold pipe_get. split; [|split_and!]; simpl.
  - specialize (Hb 0%nat b eq_refl). rewrite Z.add_0_r in Hb. by rewrite Hb.
  - done.
  - apply u32_range.
  - rewrite Hw, u32_add_l. simpl. f_equal. lia.
  - simpl in Hl. lia.
  - intros i c Hi. specialize (Hb (S i) c Hi).
    rewrite <- (u32_mod_pipe (u32 _ + _)), u32_add_l, u32_mod_pipe. rewrite <- Hb. do 3 f_equal. lia.
Qed.

(** [pipewrite] appends a prefix of its bytes; it returns when all are written,
    and otherwise stops at a full pipe. *)
Lemma pipewrite_rep killed rest n : ∀ p buf r rest' p' woken,
  pipe_rep p buf → pipewrite killed rest n p = (r, rest', p', woken) →
  ∃ done, rest = done ++ rest' ∧ pipe_rep p' (buf ++ done) ∧
    pi_readopen p' = pi_readopen p ∧ pi_writeopen p' = pi_writeopen p ∧
    ((r = PRet n ∧ rest' = [] ∧ woken = [NREAD]) ∨
     (length (buf ++ done) = Z.to_nat PIPESIZE ∧ rest' ≠ [] ∧
      ((r = PRet (-1) ∧ woken = [] ∧ (pi_readopen p = 0 ∨ killed = true)) ∨
       (r = PSleep NWRITE ∧ woken = [NREAD] ∧ pi_readopen p ≠ 0)))).
Proof.
  induction rest as [|c rest IH]; intros p buf r rest' p' woken Hrep H; simpl in H.
  - simplify_eq. exists []. rewrite (app_nil_r buf). split_and!; auto 10.
  - rewrite (pipe_full_spec p buf) in H by done.
    destruct (length buf =? Z.to_nat PIPESIZE)%nat eqn:E; bool_to_prop.
    + exists []. rewrite (app_nil_r buf).
      destruct ((pi_readopen p =? 0) || killed) eqn:E2; simplify_eq; split_and!; try done.
      * right. split_and!; [done|done|left]. split_and!; [done|done|].
        apply orb_prop in E2 as [E2|E2]; bool_to_prop; auto.
      * right. bool_to_prop. split_and!; [done|done|right]. done.
    + assert (length buf < Z.to_nat PIPESIZE)%nat by (destruct Hrep as (_ & _ & _ & ? & _); lia).
      destruct (IH _ _ _ _ _ _ (pipe_put_rep _ _ c Hrep ltac:(done)) H)
        as (dn & -> & Hrep' & Ho1 & Ho2 & Hcase).
      exists (c :: dn). rewrite <- app_assoc in Hrep', Hcase. simpl in *. split_and!; auto.
Qed.

Lemma piperead_copy_rep n : ∀ p buf,
  pipe_rep p buf →
  (piperead_copy n p).1 = take n buf ∧ pipe_rep (piperead_copy n p).2 (drop n buf) ∧
  pi_readopen (piperead_copy n p).2 = pi_readopen p ∧
  pi_writeopen (piperead_copy n p).2 = pi_writeopen p.
Proof.
  induction n as [|n IH]; intros p buf Hrep; [done|]. cbn [piperead_copy].
  rewrite (pipe_empty_spec p buf) by done.
  destruct buf as [|b buf]; [done|]. cbn [length Nat.eqb].
  destruct (pipe_get_rep p b buf Hrep) as [Hb Hrep']. destruct (pipe_get p) as [c p1] eqn:Hg.
  destruct (IH p1 buf Hrep') as (H1 & H2 & H3 & H4).
  assert (pi_readopen p1 = pi_readopen p ∧ pi_writeopen p1 = pi_writeopen p) as [Ho1 Ho2].
  { unfold pipe_get in Hg. by injection Hg as <- <-. }
  destruct (piperead_copy n p1) as [cs p2]. simpl in *.
  split_and!; [congruence|done|congruence|congruence].
Qed.

Lemma piperead_rep killed n p buf r p' woken :
  pipe_rep p buf → piperead killed n p = (r, p', woken) →
  buf = bytes_read r ++ drop (length (bytes_read r)) buf ∧
  pipe_rep p' (drop (length (bytes_read r)) buf) ∧
  pi_readopen p' = pi_readopen p ∧ pi_writeopen p' = pi_writeopen p ∧
  ((p' = p ∧ woken = [] ∧ (r = PSleep NREAD ∧ buf = [] ∧ pi_writeopen p ≠ 0 ∨
                           r = PRet None ∧ killed = true)) ∨
   (r = PRet (Some (take (Z.to_nat n) buf)) ∧ woken = [NWRITE])).
Proof.
  intros Hrep. unfold piperead. rewrite (pipe_empty_spec p buf) by done.
  destruct ((length buf =? 0)%nat && truth (pi_writeopen p)) eqn:E.
  - apply andb_prop in E as [E1 E2]. unfold truth in E2. bool_to_prop.
    destruct buf; [|done].
    destruct killed; intros [= <- <- <-]; simpl; split_and!; auto 10.
  - destruct (piperead_copy_rep (Z.to_nat n) p buf Hrep) as (H1 & H2 & H3 & H4).
    destruct (piperead_copy (Z.to_nat n) p) as [cs p1]. simpl in *. subst cs.
    intros [= <- <- <-]. simpl.
    assert (∀ k, drop (length (take k buf)) buf = drop k buf) as Hd.
    { intros k. rewrite length_take. destruct (decide (k ≤ length buf)%nat).
      - by rewrite Nat.min_l by lia.
      - rewrite Nat.min_r, !drop_ge by lia. done. }
    rewrite Hd. split_and!; auto. symmetry. apply take_drop.
Qed.

(** ** The invariant of readers and writers *)
Record pinv (may_die : bool) (s : pstate) (buf : list Z) : Prop := {
  pv_rep : pipe_rep (ps_pipe s) buf;
  pv_fifo : ps_in s = ps_out s ++ buf;
  pv_read : ∀ i n a, ps_threads s !! i = Some (TRead n a) → pi_readopen (ps_pipe s) ≠ 0;
  pv_reader : may_die = false → ∀ i n, ps_threads s !! i = Some (TRead n true) →
      buf = [] ∧ pi_writeopen (ps_pipe s) ≠ 0;
  pv_writer : ∀ i rest n, ps_threads s !! i = Some (TWrite rest n true) →
      length buf = Z.to_nat PIPESIZE ∧ pi_readopen (ps_pipe s) ≠ 0 }.

Lemma pinv_init d data n : length data = Z.to_nat PIPESIZE → pinv d (pinit data n) [].
Proof.
  intros H. split; simpl; [by apply pipe_rep_init|done|..].
  - intros i m a [[=] _]%lookup_replicate.
  - intros _ i m [[=] _]%lookup_replicate.
  - intros i rest m [[=] _]%lookup_replicate.
Qed.

Lemma wake_read_inv woken t n :
  wake_thread woken t = TRead n true → t = TRead n true ∧ woken_on NREAD woken = false.
Proof.
  destruct t as [|r m a|m a]; simpl; intros [=]. subst. destruct a, (woken_on NREAD woken); done.
Qed.
Lemma wake_write_inv woken t rest n :
  wake_thread woken t = TWrite rest n true → t = TWrite rest n true ∧ woken_on NWRITE woken = false.
Proof.
  destruct t as [|r m a|m a]; simpl; intros [=]. subst. destruct a, (woken_on NWRITE woken); done.
Qed.
Lemma wake_read_any woken t n a : wake_thread woken t = TRead n a → ∃ a', t = TRead n a'.
Proof. destruct t; simpl; intros [=]; subst; eauto. Qed.

(** A thread moves on and others are woken. *)
Lemma lookup_woken woken i t' (ts : list thread) j t :
  (wake_thread woken <$> <[i := t']> ts) !! j = Some t →
  ∃ t0, wake_thread woken t0 = t ∧ (j = i ∧ t0 = t' ∨ j ≠ i ∧ ts !! j = Some t0).
Proof.
  rewrite list_lookup_fmap. destruct (<[i:=t']> ts !! j) as [t0|] eqn:E; [|done].
  intros [= <-]. exists t0. split; [done|].
  apply list_lookup_insert_Some in E as [(<- & <- & _)|[? ?]]; auto.
Qed.

Lemma pinv_write d s i rest n killed r rest' p woken buf :
  pinv d s buf → ps_threads s !! i = Some (TWrite rest n false) → (killed = true → d = true) →
  pipewrite killed rest n (ps_pipe s) = (r, rest', p, woken) →
  ∃ buf', pinv d (mkPS p (wake_thread woken <$> <[i := after_write r rest' n]> (ps_threads s))
      (ps_in s ++ take (length rest - length rest') rest) (ps_out s)) buf'.
Proof.
  intros [Hrep Hfifo Hrd Hreader Hwriter] Hi Hk Hw.
  destruct (pipewrite_rep _ _ _ _ _ _ _ _ _ Hrep Hw) as (dn & -> & Hrep' & Ho1 & Ho2 & Hcase).
  exists (buf ++ dn). split; simpl; [done|..].
  - rewrite Hfifo, length_app, <- app_assoc. do 2 f_equal. apply take_app_length'. lia.
  - intros j m a (t0 & (a' & ->)%wake_read_any & [[-> E]|[_ E]])%lookup_woken; [by destruct r|].
    rewrite Ho1. eauto.
  - intros Hd j m (t0 & [-> Hn]%wake_read_inv & [[-> E]|[_ E]])%lookup_woken; [by destruct r|].
    specialize (Hrd _ _ _ E).
    destruct Hcase as [(-> & -> & ->)|(_ & _ & [(-> & -> & [H0|H0])|(-> & -> & _)])];
      try done; try (by specialize (Hk H0); congruence).
  - intros j rs m (t0 & [-> Hn]%wake_write_inv & [[-> E]|[_ E]])%lookup_woken.
    + destruct Hcase as [(-> & -> & ->)|(Hfull & _ & [(-> & _)|(-> & -> & Hop)])]; try done.
      rewrite Ho1. done.
    + destruct (Hwriter _ _ _ E) as [Hl Hop]. rewrite Ho1. split; [|done].
      destruct Hrep' as (_ & _ & _ & Hle & _). rewrite length_app in *. lia.
Qed.

Lemma pinv_read d s i n killed r p woken buf :
  pinv d s buf → ps_threads s !! i = Some (TRead n false) →
  piperead killed n (ps_pipe s) = (r, p, woken) →
  ∃ buf', pinv d (mkPS p (wake_thread woken <$> <[i := after_read r n]> (ps_threads s))
      (ps_in s) (ps_out s ++ bytes_read r)) buf'.
Proof.
  intros [Hrep Hfifo Hrd Hreader Hwriter] Hi Hr.
  destruct (piperead_rep _ _ _ _ _ _ _ Hrep Hr) as (Hbuf & Hrep' & Ho1 & Ho2 & Hcase).
  exists (drop (length (bytes_read r)) buf). split; simpl; [done|..].
  - rewrite Hfifo, <- app_assoc. f_equal. done.
  - intros j m a (t0 & (a' & ->)%wake_read_any & [[-> E]|[_ E]])%lookup_woken; rewrite Ho1; eauto.
  - intros Hd j m (t0 & [-> Hn]%wake_read_inv & [[-> E]|[_ E]])%lookup_woken; rewrite Ho2.
    + destruct Hcase as [(-> & -> & [(-> & -> & Hop)|(-> & _)])|(-> & ->)]; done.
    + destruct (Hreader Hd _ _ E) as [-> Hop]. by rewrite drop_nil.
  - intros j rs m (t0 & [-> Hn]%wake_write_inv & [[-> E]|[_ E]])%lookup_woken; [by destruct r|].
    rewrite Ho1. destruct (Hwriter _ _ _ E) as [Hl Hop]. split; [|done].
    destruct Hcase as [(-> & -> & [(-> & -> & _)|(-> & _)])|(-> & ->)]; try done.
Qed.

Lemma pinv_close d s writable freed p woken buf :
  pinv d s buf → (∀ i t, ps_threads s !! i = Some t → uses_end writable t = false) →
  pipeclose writable (ps_pipe s) = (freed, p, woken) →
  pinv d (mkPS p (wake_thread woken <$> ps_threads s) (ps_in s) (ps_out s)) buf.
Proof.
  intros [Hrep Hfifo Hrd Hreader Hwriter] Hno Hc.
  assert (∀ j t, (wake_thread woken <$> ps_threads s) !! j = Some t →
    ∃ t0, wake_thread woken t0 = t ∧ ps_threads s !! j = Some t0) as Hlk.
  { intros j t. rewrite list_lookup_fmap. destruct (ps_threads s !! j); [|done]. intros [= <-]. eauto. }
  unfold pipeclose in Hc. destruct (truth writable) eqn:E; injection Hc as <- <- <-;
    (split; simpl; [exact Hrep|done|..]).
  - intros j m a (t0 & (a' & ->)%wake_read_any & Ht)%Hlk. eauto.
  - intros _ j m (t0 & [-> Hn]%wake_read_inv & Ht)%Hlk. done.
  - intros j rs m (t0 & [-> Hn]%wake_write_inv & Ht)%Hlk. eauto.
  - intros j m a (t0 & (a' & ->)%wake_read_any & Ht)%Hlk. specialize (Hno _ _ Ht). simpl in Hno.
    by rewrite E in Hno.
  - intros Hd j m (t0 & [-> Hn]%wake_read_inv & Ht)%Hlk. eauto.
  - intros j rs m (t0 & [-> Hn]%wake_write_inv & Ht)%Hlk. done.
Qed.

(** Threads that did not fall asleep add no obligation. *)
Lemma pinv_thread d s buf i t :
  pinv d s buf →
  (∀ n a, t = TRead n a → pi_readopen (ps_pipe s) ≠ 0) →
  (∀ n, t ≠ TRead n true) → (∀ rest n, t ≠ TWrite rest n true) →
  pinv d (mkPS (ps_pipe s) (<[i := t]> (ps_threads s)) (ps_in s) (ps_out s)) buf.
Proof.
  intros [Hrep Hfifo Hrd Hreader Hwriter] H1 H2 H3. split; simpl; [done|done|..].
  - intros j n a [(_ & -> & _)|[_ Hj]]%list_lookup_insert_Some; eauto.
  - intros Hd j n [(_ & -> & _)|[_ Hj]]%list_lookup_insert_Some; [by destruct (H2 n)|eauto].
  - intros j rest n [(_ & -> & _)|[_ Hj]]%list_lookup_insert_Some; [by destruct (H3 rest n)|eauto].
Qed.

Lemma pinv_step d s s' buf : pstep d s s' → pinv d s buf → ∃ buf', pinv d s' buf'.
Proof.
  intros Hst HI. destruct Hst as
    [s i bytes Hi Ho|s i n Hi Ho|s i rest n killed r rest' p woken Hi Hk Hw
    |s i n killed r p woken Hi Hk Hr|s writable freed p woken Hno Hc|s i t Hi].
  - exists buf. by apply pinv_thread.
  - exists buf. by apply pinv_thread.
  - by eapply pinv_write.
  - by eapply pinv_read.
  - exists buf. by eapply pinv_close.
  - exists buf. destruct t as [|rest n a|n a]; apply pinv_thread; try done; simpl.
    + intros rs m [= _ _ E]. by destruct a.
    + intros m a' [= <- _]. by eapply (pv_read _ _ _ HI).
    + intros m [= _ E]. by destruct a.
Qed.

Lemma pinv_reachable d data n s :
  length data = Z.to_nat PIPESIZE → rtc (pstep d) (pinit data n) s → ∃ buf, pinv d s buf.
Proof.
  intros Hd Hr. assert (∃ buf, pinv d (pinit data n) buf) as [buf HI] by (eexists; by apply pinv_init).
  revert buf HI. induction Hr as [|s1 s2 s3 H1 _ IH]; intros buf HI; [eauto|].
  destruct (pinv_step _ _ _ _ H1 HI) as [buf' HI']. eauto.
Qed.

(** ** Properties *)

(** Claim C27 (pipe.c).  A pipe is a bounded FIFO for any number of readers and
    writers.  However their calls interleave, sleep, are woken or are killed,
    the bytes read so far followed by the bytes in the ring buffer are exactly
    the bytes written so far, in order; the buffer never holds more than
    [PIPESIZE] bytes; and this survives the wrap-around of the 32-bit counters,
    which tell a full from an empty buffer. *)
Theorem pipe_fifo d data n s :
  length data = Z.to_nat PIPESIZE → rtc (pstep d) (pinit data n) s →
  ∃ buf, ps_in s = ps_out s ++ buf ∧ (length buf ≤ Z.to_nat PIPESIZE)%nat ∧
    u32 (pi_nwrite (ps_pipe s) - pi_nread (ps_pipe s)) = Z.of_nat (length buf) ∧
    ∀ i b, buf !! i = Some b →
      pi_data (ps_pipe s) !! Z.to_nat ((pi_nread (ps_pipe s) + Z.of_nat i) mod PIPESIZE) = Some b.
Proof.
  intros Hd [buf [(Hl & Hrd & Hw & Hle & Hb) Hf _ _ _]]%pinv_reachable; [|done].
  exists buf. split_and!; [done|done| |done]. rewrite Hw.
  unfold word_ok, u32, PIPESIZE in *. Z.div_mod_to_equations. lia.
Qed.

(** Claim C28 (pipe.c).  No wakeup is lost as long as no process is killed inside
    [pipewrite]: a reader sleeps only while the pipe is empty and has a
    writer, and a writer sleeps only while the pipe is full and has a reader.
    So whenever a sleeping call could make progress, it has been woken. *)
Theorem pipe_no_lost_wakeup data n s :
  length data = Z.to_nat PIPESIZE → rtc (pstep false) (pinit data n) s →
  (∀ i m, ps_threads s !! i = Some (TRead m true) →
     pi_nread (ps_pipe s) = pi_nwrite (ps_pipe s) ∧ pi_writeopen (ps_pipe s) ≠ 0) ∧
  (∀ i rest m, ps_threads s !! i = Some (TWrite rest m true) →
     pi_nwrite (ps_pipe s) = u32 (pi_nread (ps_pipe s) + PIPESIZE) ∧ pi_readopen (ps_pipe s) ≠ 0).
Proof.
  intros Hd [buf [Hrep _ _ Hrd Hwr]]%pinv_reachable; [|done]. split.
  - intros i m Hi. destruct (Hrd eq_refl _ _ Hi) as [-> Ho]. split; [|done].
    pose proof (pipe_empty_spec _ _ Hrep) as E. simpl in E. by bool_to_prop.
  - intros i rest m Hi. destruct (Hwr _ _ _ Hi) as [Hl Ho]. split; [|done].
    pose proof (pipe_full_spec _ _ Hrep) as E. rewrite Hl, Nat.eqb_refl in E. by bool_to_prop.
Qed.

(** A reader falls asleep, a writer writes three bytes, the reader gets two. *)
Lemma pipe_run d :
  ∃ s, rtc (pstep d) (pinit (replicate 512 0) 2) s ∧ ps_in s = [7; 8; 9] ∧ ps_out s = [7; 8].
Proof.
  eexists. split_and!.
  - eapply rtc_l. { eapply (p_call_read _ _ 0 2); [vm_compute; reflexivity|discriminate]. }
    eapply rtc_l. { eapply (p_read _ _ 0 2 false); [vm_compute; reflexivity|discriminate|vm_compute; reflexivity]. }
    eapply rtc_l. { eapply (p_call_write _ _ 1 [7; 8; 9]); [vm_compute; reflexivity|discriminate]. }
    eapply rtc_l. { eapply (p_write _ _ 1 _ _ false); [vm_compute; reflexivity|discriminate|vm_compute; reflexivity]. }
    eapply rtc_l. { eapply (p_read _ _ 0 2 false); [vm_compute; reflexivity|discriminate|vm_compute; reflexivity]. }
    apply rtc_refl.
  - vm_compute. reflexivity.
  - vm_compute. reflexivity.
Qed.

Lemma pipe_fifo_witness :
  ∃ s buf, rtc (pstep true) (pinit (replicate 512 0) 2) s ∧ ps_out s = [7; 8] ∧
    ps_in s = ps_out s ++ buf.
Proof.
  destruct (pipe_run true) as (s & Hr & _ & Ho).
  destruct (pipe_fifo true (replicate 512 0) 2 s eq_refl Hr) as (buf & Hf & _).
  exists s, buf. split_and!; [exact Hr|exact Ho|exact Hf].
Defined.

Lemma pipe_no_lost_wakeup_witness :
  ∃ s, rtc (pstep false) (pinit (replicate 512 0) 2) s ∧
    ps_threads s !! 0%nat = Some (TRead 2 true) ∧
    pi_nread (ps_pipe s) = pi_nwrite (ps_pipe s).
Proof.
  assert (∃ s, rtc (pstep false) (pinit (replicate 512 0) 2) s ∧
    ps_threads s !! 0%nat = Some (TRead 2 true)) as (s & Hr & Ht).
  { eexists. split.
    - eapply rtc_l. { eapply (p_call_read _ _ 0 2); done. }
      eapply rtc_l. { eapply (p_read _ _ 0 2 false); [done|done|reflexivity]. }
      apply rtc_refl.
    - reflexivity. }
  exists s. split_and!; [exact Hr|exact Ht|].
  exact (proj1 (proj1 (pipe_no_lost_wakeup (replicate 512 0) 2 s eq_refl Hr) 0%nat 2 Ht)).
Defined.

(** A writer that is killed while the pipe is full returns without waking the
    readers (pipe.c:85-88): the reader sleeps although 512 bytes are waiting. *)
Example killed_writer_strands_reader :
  ∃ s, rtc (pstep true) (pinit (replicate 512 0) 2) s ∧
    ps_threads s !! 0%nat = Some (TRead 1 true) ∧
    u32 (pi_nwrite (ps_pipe s) - pi_nread (ps_pipe s)) = 512.
Proof.
  eexists. split_and!.
  - eapply rtc_l. { eapply (p_call_read _ _ 0 1); [reflexivity|discriminate]. }
    eapply rtc_l. { eapply (p_read _ _ 0 1 false); [reflexivity|discriminate|vm_compute; reflexivity]. }
    eapply rtc_l. { eapply (p_call_write _ _ 1 (replicate 513 5)); [reflexivity|discriminate]. }
    eapply rtc_l. { eapply (p_write _ _ 1 _ _ true); [reflexivity|reflexivity|vm_compute; reflexivity]. }
    apply rtc_refl.
  - vm_compute. reflexivity.
  - vm_compute. reflexivity.
Qed.
