(* ===== verification/Block.v ===== *)
(** * Disk blocks as lists of bytes (fs.h)

    A block is a list of [BSIZE] bytes; the little-endian fields of the
    on-disk structures are read and written at byte offsets.  This file also
    has the constants of fs.h. *)
From S2P Require Import Prelude Machine.

Open Scope Z_scope.

(** ** Constants of fs.h *)
Definition ROOTINO : Z := 1.
Definition BSIZE : Z := 512.
Definition NDIRECT : Z := 12.
Definition NINDIRECT : Z := BSIZE / 4.
Definition MAXFILE : Z := NDIRECT + NINDIRECT.
Definition DIRSIZ : Z := 14.
Definition sizeof_dinode : Z := 64.
Definition sizeof_dirent : Z := 16.
Definition IPB : Z := BSIZE / sizeof_dinode.
Definition BPB : Z := BSIZE * 8.

Abbreviation block := (list Z).
Definition zero_block : block := replicate (Z.to_nat BSIZE) 0.
Definition block_ok (d : block) : Prop := length d = Z.to_nat BSIZE ∧ Forall byte_ok d.

(** ** Fields at byte offset [o] *)
Definition get8 (d : block) (o : nat) : Z := default 0 (d !! o).
Definition put8 (o : nat) (v : Z) (d : block) : block := <[o := u8 v]> d.
Definition get16 (d : block) (o : nat) : Z := get8 d o + 2 ^ 8 * get8 d (o + 1).
Definition put16 (o : nat) (v : Z) (d : block) : block :=
  put8 (o + 1) (Z.shiftr v 8) (put8 o v d).
Definition get32 (d : block) (o : nat) : Z :=
  get8 d o + 2 ^ 8 * get8 d (o + 1) + 2 ^ 16 * get8 d (o + 2) + 2 ^ 24 * get8 d (o + 3).
Definition put32 (o : nat) (v : Z) (d : block) : block :=
  put8 (o + 3) (Z.shiftr v 24) (put8 (o + 2) (Z.shiftr v 16)
    (put8 (o + 1) (Z.shiftr v 8) (put8 o v d))).
(** [memmove(d + o, src, n)] for [n] bytes of [src] *)
Fixpoint put_bytes (o : nat) (src : list Z) (d : block) : block :=
  match src with
  | [] => d
  | b :: src' => put_bytes (S o) src' (<[o := b]> d)
  end.
Definition get_bytes (d : block) (o n : nat) : list Z := take n (drop o d).

(** ** Lemmas *)
Lemma length_put8 o v d : length (put8 o v d) = length d.
Proof. apply length_insert. Qed.
Lemma length_put16 o v d : length (put16 o v d) = length d.
Proof. unfold put16. by rewrite !length_put8. Qed.
Lemma length_put32 o v d : length (put32 o v d) = length d.
Proof. unfold put32. by rewrite !length_put8. Qed.
Lemma length_put_bytes src : ∀ o d, length (put_bytes o src d) = length d.
Proof. induction src as [|b src IH]; intros o d; simpl; [done|]. by rewrite IH, length_insert. Qed.

Lemma u8_byte v : byte_ok (u8 v).
Proof. unfold u8, byte_ok. apply Z.mod_pos_bound. lia. Qed.

Lemma put8_ok o v d : block_ok d → block_ok (put8 o v d).
Proof.
  intros [Hl Hf]. split; [by rewrite length_put8|]. apply Forall_insert; [done|apply u8_byte].
Qed.
Lemma put16_ok o v d : block_ok d → block_ok (put16 o v d).
Proof. intros H. by apply put8_ok, put8_ok. Qed.
Lemma put32_ok o v d : block_ok d → block_ok (put32 o v d).
Proof. intros H. by do 4 apply put8_ok. Qed.
Lemma put_bytes_ok src : ∀ o d, Forall byte_ok src → block_ok d → block_ok (put_bytes o src d).
Proof.
  induction src as [|b src IH]; intros o d Hs [Hl Hd]; simpl; [done|].
  apply Forall_cons in Hs as [Hb Hs]. apply IH; [done|]. split; [by rewrite length_insert|].
  by apply Forall_insert.
Qed.
Lemma zero_block_ok : block_ok zero_block.
Proof.
  split; [by unfold zero_block; rewrite length_replicate|].
  apply Forall_replicate. unfold byte_ok. lia.
Qed.

Lemma get8_put8_eq o v d : (o < length d)%nat → get8 (put8 o v d) o = u8 v.
Proof. intros H. unfold get8, put8. by rewrite list_lookup_insert_eq. Qed.
Lemma get8_put8_ne o o' v d : o ≠ o' → get8 (put8 o v d) o' = get8 d o'.
Proof. intros H. unfold get8, put8. by rewrite list_lookup_insert_ne. Qed.

Lemma u8_shiftr v k : 0 ≤ k → u8 (Z.shiftr v k) = (v / 2 ^ k) mod 2 ^ 8.
Proof. intros Hk. unfold u8. by rewrite Z.shiftr_div_pow2. Qed.

Lemma get16_put16_eq o v d : (o + 1 < length d)%nat → get16 (put16 o v d) o = u16 v.
Proof.
  intros H. unfold get16, put16.
  rewrite (get8_put8_ne (o + 1) o), !get8_put8_eq by (rewrite ?length_put8; lia).
  rewrite u8_shiftr by lia. unfold u8, u16. Z.div_mod_to_equations. lia.
Qed.
Lemma get16_put16_ne o o' v d : (o + 1 < o' ∨ o' + 1 < o)%nat → get16 (put16 o v d) o' = get16 d o'.
Proof. intros H. unfold get16, put16. by rewrite !get8_put8_ne by lia. Qed.

Lemma get32_put32_eq o v d : (o + 3 < length d)%nat → get32 (put32 o v d) o = u32 v.
Proof.
  intros H. unfold get32, put32.
  rewrite !(get8_put8_ne (o + 3)), !(get8_put8_ne (o + 2) o), !(get8_put8_ne (o + 2) (o + 1)),
    !(get8_put8_ne (o + 1) o), !get8_put8_eq by (rewrite ?length_put8; lia).
  rewrite !u8_shiftr by lia. unfold u8, u32. Z.div_mod_to_equations. lia.
Qed.
Lemma get32_put32_ne o o' v d : (o + 3 < o' ∨ o' + 3 < o)%nat → get32 (put32 o v d) o' = get32 d o'.
Proof. intros H. unfold get32, put32. by rewrite !get8_put8_ne by lia. Qed.

Lemma get8_range d o : block_ok d → byte_ok (get8 d o).
Proof.
  intros [_ Hf]. unfold get8. destruct (d !! o) as [b|] eqn:E; simpl; [|unfold byte_ok; lia].
  by eapply Forall_lookup_1.
Qed.
Lemma get32_range d o : block_ok d → word_ok (get32 d o).
Proof.
  intros H. unfold get32, word_ok.
  pose proof (get8_range d o H). pose proof (get8_range d (o + 1) H).
  pose proof (get8_range d (o + 2) H). pose proof (get8_range d (o + 3) H).
  unfold byte_ok in *. lia.
Qed.

Lemma put_bytes_lookup src : ∀ o d i, (o + length src ≤ length d)%nat →
  put_bytes o src d !! i =
  if decide (o ≤ i < o + length src)%nat then src !! (i - o)%nat else d !! i.
Proof.
  induction src as [|b src IH]; intros o d i Hl; simpl in *.
  - rewrite decide_False by lia. done.
  - rewrite IH by (rewrite length_insert; lia). destruct (decide (i = o)) as [->|Hne].
    + rewrite decide_False, list_lookup_insert_eq, decide_True, Nat.sub_diag by lia. done.
    + rewrite list_lookup_insert_ne by done.
      destruct (decide (S o ≤ i < S (o + length src))%nat).
      * rewrite !decide_True by lia. by replace (i - o)%nat with (S (i - S o)) by lia.
      * rewrite !decide_False by lia. done.
Qed.

Lemma get_put_bytes src o d :
  (o + length src ≤ length d)%nat → get_bytes (put_bytes o src d) o (length src) = src.
Proof.
  intros Hl. unfold get_bytes. apply list_eq. intros i.
  destruct (decide (i < length src)%nat).
  - rewrite lookup_take_lt, lookup_drop, put_bytes_lookup, decide_True by lia. f_equal. lia.
  - rewrite lookup_take_ge by lia. symmetry. apply lookup_ge_None. lia.
Qed.
