(* ===== verification/Bio.v ===== *)
(** * Buffer cache and disk (bio.c, buf.h, ide.c)

    The buffers are numbered by their place in [bcache.buf]; the doubly linked
    list through [prev] and [next] is the list [bc_lru] of these numbers, from
    [head.next] (most recently used) to [head.prev].  The disk is a function
    of device and block number; [bc_trace] records the blocks written to it,
    oldest first, so that the state of the disk after a crash can be told.

    A process that finds a buffer busy sleeps until another process releases
    it; here, where one process runs at a time, that is [Diverge]. *)
From S2P Require Import Prelude Machine Block.

Open Scope Z_scope.

Definition B_BUSY : Z := 0x1.
Definition B_VALID : Z := 0x2.
Definition B_DIRTY : Z := 0x4.

Record buf := mkBuf { b_flags : Z; b_dev : Z; b_blockno : Z; b_data : block }.

Definition set_b_flags (f : Z) (b : buf) : buf := mkBuf f (b_dev b) (b_blockno b) (b_data b).
Definition set_b_data (d : block) (b : buf) : buf := mkBuf (b_flags b) (b_dev b) (b_blockno b) d.

Definition disk : Type := Z → Z → block.
Definition disk_write (dv : disk) (dev blockno : Z) (d : block) : disk :=
  λ dev' b', if (dev' =? dev) && (b' =? blockno) then d else dv dev' b'.

Record bcache := mkBc {
  bc_bufs : list buf;
  bc_lru : list nat;
  bc_havedisk1 : Z;
  bc_disk : disk;
  bc_trace : list (Z * Z * block) }.

Definition set_bufs (v : list buf) (s : bcache) : bcache :=
  mkBc v (bc_lru s) (bc_havedisk1 s) (bc_disk s) (bc_trace s).
Definition set_lru (v : list nat) (s : bcache) : bcache :=
  mkBc (bc_bufs s) v (bc_havedisk1 s) (bc_disk s) (bc_trace s).
Definition write_disk (dev blockno : Z) (d : block) (s : bcache) : bcache :=
  mkBc (bc_bufs s) (bc_lru s) (bc_havedisk1 s) (disk_write (bc_disk s) dev blockno d)
    (bc_trace s ++ [(dev, blockno, d)]).

Definition get_buf (i : nat) : M bcache buf :=
  let! bs := gets bc_bufs in
  match bs !! i with
  | Some b => ret b
  | None => undef "struct buf pointer outside bcache.buf"
  end.
Definition put_buf (i : nat) (b : buf) : M bcache unit :=
  modify (λ s, set_bufs (<[i := b]> (bc_bufs s)) s).
(** Change the data of a buffer. *)
Definition upd_data (i : nat) (f : block → block) : M bcache unit :=
  let! b := get_buf i in put_buf i (set_b_data (f (b_data b)) b).

(** [b->dev = -1] *)
Definition NODEV : Z := 0xffffffff.
(** [binit] links each buffer in front of the list, on a zeroed array. *)
Definition binit (s : bcache) : bcache :=
  mkBc (replicate NBUF (mkBuf 0 NODEV 0 zero_block))
    (foldl (λ l i, i :: l) [] (seq 0 NBUF)) (bc_havedisk1 s) (bc_disk s) (bc_trace s).

(** ** ide.c

    A request of [iderw] by the only running process: the queue is empty,
    [idestart] hands the request to the disk at once, and [ideintr] completes
    it before the process goes on.  The disk is indexed by the device number as
    it is, where ide.c takes its lowest bit: there are devices 0 and 1 only.
    Ide.v has the driver on its ports. *)
Definition idestart (i : nat) : M bcache unit :=
  let! b := get_buf i in
  if FSSIZE <=? b_blockno b then panic "incorrect blockno"
  else if truth (Z.land (b_flags b) B_DIRTY)
  then modify (write_disk (b_dev b) (b_blockno b) (b_data b))
  else skip.
Definition ideintr (i : nat) : M bcache unit :=
  let! b := get_buf i in
  let! dv := gets bc_disk in
  let b := if truth (Z.land (b_flags b) B_DIRTY) then b
           else set_b_data (dv (b_dev b) (b_blockno b)) b in
  put_buf i (set_b_flags (Z.land (Z.lor (b_flags b) B_VALID) (Z.lnot B_DIRTY)) b).
Definition iderw (i : nat) : M bcache unit :=
  let! b := get_buf i in
  let! hd := gets bc_havedisk1 in
  if negb (truth (Z.land (b_flags b) B_BUSY)) then panic "iderw: buf not busy"
  else if Z.land (b_flags b) (Z.lor B_VALID B_DIRTY) =? B_VALID then panic "iderw: nothing to do"
  else if truth (b_dev b) && negb (truth hd) then panic "iderw: ide disk 1 not present"
  else idestart i ;! ideintr i.

(** ** bio.c *)

(** The first buffer on the list, in the given direction, that satisfies [p]. *)
Fixpoint find_buf (p : buf → bool) (order : list nat) (bs : list buf) : option nat :=
  match order with
  | [] => None
  | i :: order' =>
      match bs !! i with
      | Some b => if p b then Some i else find_buf p order' bs
      | None => find_buf p order' bs
      end
  end.
Definition has_key (dev blockno : Z) (b : buf) : bool :=
  (b_dev b =? dev) && (b_blockno b =? blockno).
Definition recyclable (b : buf) : bool :=
  (Z.land (b_flags b) B_BUSY =? 0) && (Z.land (b_flags b) B_DIRTY =? 0).

Definition bget (dev blockno : Z) : M bcache nat :=
  let! s := gets id in
  match find_buf (has_key dev blockno) (bc_lru s) (bc_bufs s) with
  | Some i =>
      let! b := get_buf i in
      if negb (truth (Z.land (b_flags b) B_BUSY)) then
        put_buf i (set_b_flags (Z.lor (b_flags b) B_BUSY) b) ;! ret i
      else diverge
  | None =>
      match find_buf recyclable (rev (bc_lru s)) (bc_bufs s) with
      | Some i =>
          let! b := get_buf i in
          put_buf i (mkBuf B_BUSY dev blockno (b_data b)) ;! ret i
      | None => panic "bget: no buffers"
      end
  end.

Definition bread (dev blockno : Z) : M bcache nat :=
  let! i := bget dev blockno in
  let! b := get_buf i in
  (if negb (truth (Z.land (b_flags b) B_VALID)) then iderw i else skip) ;!
  ret i.

Definition bwrite (i : nat) : M bcache unit :=
  let! b := get_buf i in
  if Z.land (b_flags b) B_BUSY =? 0 then panic "bwrite"
  else
    put_buf i (set_b_flags (Z.lor (b_flags b) B_DIRTY) b) ;!
    iderw i.

Definition brelse (i : nat) : M bcache unit :=
  let! b := get_buf i in
  if Z.land (b_flags b) B_BUSY =? 0 then panic "brelse"
  else
    modify (λ s, set_lru (i :: filter (λ j, j ≠ i) (bc_lru s)) s) ;!
    put_buf i (set_b_flags (Z.land (b_flags b) (Z.lnot B_BUSY)) b).

(** ** The cache as a view of the disk *)
Definition busy (b : buf) : bool := Z.testbit (b_flags b) 0.
Definition valid (b : buf) : bool := Z.testbit (b_flags b) 1.
Definition dirty (b : buf) : bool := Z.testbit (b_flags b) 2.

(** What a reader of the block gets: the valid buffer that holds it, or else
    the disk. *)
Definition content (s : bcache) (dev blockno : Z) : block :=
  match List.find (λ b, has_key dev blockno b && valid b) (bc_bufs s) with
  | Some b => b_data b
  | None => bc_disk s dev blockno
  end.

Definition bkey (b : buf) : Z * Z := (b_dev b, b_blockno b).

(** No block is in two buffers; every buffer that was ever used is valid; a
    released clean buffer agrees with the disk. *)
Record bc_wf (s : bcache) : Prop := {
  bw_len : length (bc_bufs s) = NBUF;
  bw_lru : bc_lru s ≡ₚ seq 0 NBUF;
  bw_uniq : ∀ i j b b', bc_bufs s !! i = Some b → bc_bufs s !! j = Some b' →
      b_dev b ≠ NODEV → bkey b = bkey b' → i = j;
  bw_used : ∀ i b, bc_bufs s !! i = Some b → b_dev b ≠ NODEV → valid b = true;
  bw_fresh : ∀ i b, bc_bufs s !! i = Some b → b_dev b = NODEV →
      busy b = false ∧ dirty b = false;
  bw_clean : ∀ i b, bc_bufs s !! i = Some b → b_dev b ≠ NODEV → dirty b = false →
      busy b = false → b_data b = bc_disk s (b_dev b) (b_blockno b);
  bw_dev : bc_havedisk1 s ≠ 0 }.

(** The abstract cache: [c] is what readers see, [dv] the disk, [tr] the writes
    made so far, [D] the dirty blocks and [B] the busy blocks with their
    buffers. *)
Record cview (s : bcache) (c dv : disk) (tr : list (Z * Z * block))
    (D : gset (Z * Z)) (B : gmap (Z * Z) nat) : Prop := {
  cv_wf : bc_wf s;
  cv_content : ∀ d k, d ≠ NODEV → content s d k = c d k;
  cv_disk : bc_disk s = dv;
  cv_trace : bc_trace s = tr;
  cv_dirty : ∀ x, x ∈ D ↔ ∃ i b, bc_bufs s !! i = Some b ∧ bkey b = x ∧ dirty b = true;
  cv_busy : ∀ x i, B !! x = Some i ↔ ∃ b, bc_bufs s !! i = Some b ∧ bkey b = x ∧ busy b = true }.

(** ** The cache as used by its callers *)
Inductive block_op := ReadBlock (k : Z) | WriteBlock (k : Z) (d : block).
Definition op_block (o : block_op) : Z :=
  match o with ReadBlock k => k | WriteBlock k _ => k end.

(** [b = bread(dev, k); ... b->data ...; brelse(b)] and
    [b = bread(dev, k); memmove(b->data, d, BSIZE); bwrite(b); brelse(b)] *)
Definition run_op (dev : Z) (o : block_op) : M bcache block :=
  match o with
  | ReadBlock k =>
      let! i := bread dev k in
      let! b := get_buf i in
      brelse i ;! ret (b_data b)
  | WriteBlock k d =>
      let! i := bread dev k in
      upd_data i (λ _, d) ;! bwrite i ;! brelse i ;! ret d
  end.
Fixpoint run_ops (dev : Z) (os : list block_op) : M bcache (list block) :=
  match os with
  | [] => ret []
  | o :: os' =>
      let! d := run_op dev o in
      let! ds := run_ops dev os' in
      ret (d :: ds)
  end.

(** The same operations on the disk itself. *)
Definition disk_op (dev : Z) (o : block_op) (dv : disk) : block * disk :=
  match o with
  | ReadBlock k => (dv dev k, dv)
  | WriteBlock k d => (d, disk_write dv dev k d)
  end.
Fixpoint disk_ops (dev : Z) (os : list block_op) (dv : disk) : list block * disk :=
  match os with
  | [] => ([], dv)
  | o :: os' =>
      let (d, dv) := disk_op dev o dv in
      let (ds, dv) := disk_ops dev os' dv in
      (d :: ds, dv)
  end.

(** ** Flags *)
Lemma land_pow2 f k : 0 ≤ k → Z.land f (2 ^ k) = if Z.testbit f k then 2 ^ k else 0.
Proof.
  intros Hk. apply Z.bits_inj'. intros n Hn. rewrite Z.land_spec, Z.pow2_bits_eqb by done.
  destruct (Z.eqb_spec k n) as [->|Hne].
  - destruct (Z.testbit f n); [by rewrite Z.pow2_bits_true|by rewrite Z.bits_0].
  - rewrite andb_false_r. destruct (Z.testbit f k); [by rewrite Z.pow2_bits_false|by rewrite Z.bits_0].
Qed.
Lemma flag_busy b : truth (Z.land (b_flags b) B_BUSY) = busy b.
Proof. unfold B_BUSY, busy. rewrite (land_pow2 _ 0) by done. by destruct (Z.testbit _ 0). Qed.
Lemma flag_valid b : truth (Z.land (b_flags b) B_VALID) = valid b.
Proof. unfold B_VALID, valid. rewrite (land_pow2 _ 1) by done. by destruct (Z.testbit _ 1). Qed.
Lemma flag_dirty b : truth (Z.land (b_flags b) B_DIRTY) = dirty b.
Proof. unfold B_DIRTY, dirty. rewrite (land_pow2 _ 2) by done. by destruct (Z.testbit _ 2). Qed.
Lemma flag_busy0 b : (Z.land (b_flags b) B_BUSY =? 0) = negb (busy b).
Proof. rewrite <- flag_busy. unfold truth. by rewrite negb_involutive. Qed.
Lemma flag_dirty0 b : (Z.land (b_flags b) B_DIRTY =? 0) = negb (dirty b).
Proof. rewrite <- flag_dirty. unfold truth. by rewrite negb_involutive. Qed.
Lemma flag_valid_dirty b :
  (Z.land (b_flags b) (Z.lor B_VALID B_DIRTY) =? B_VALID) = valid b && negb (dirty b).
Proof.
  rewrite Z.land_lor_distr_r. unfold B_VALID, B_DIRTY, valid, dirty.
  rewrite (land_pow2 _ 1), (land_pow2 _ 2) by done.
  by destruct (Z.testbit _ 1), (Z.testbit _ 2).
Qed.

(** Compute the flags of a buffer after the bit operations of the code. *)
Ltac flags :=
  unfold busy, valid, dirty, B_BUSY, B_VALID, B_DIRTY in *; simpl b_flags in *;
  rewrite ?Z.land_spec, ?Z.lor_spec, ?Z.lnot_spec in * by lia; simpl in *;
  rewrite ?andb_true_r, ?andb_false_r, ?orb_false_r, ?orb_true_r in *.

(** ** Looking for buffers *)
Lemma find_buf_some p order bs i :
  find_buf p order bs = Some i → ∃ b, i ∈ order ∧ bs !! i = Some b ∧ p b = true.
Proof.
  induction order as [|j order IH]; simpl; [done|].
  destruct (bs !! j) as [b|] eqn:Hj.
  - destruct (p b) eqn:Hp.
    + intros [= ->]. exists b. split_and!; [apply list_elem_of_here|done|done].
    + intros (b' & Hi & ?)%IH. exists b'. split; [by apply list_elem_of_further|done].
  - intros (b' & Hi & ?)%IH. exists b'. split; [by apply list_elem_of_further|done].
Qed.
Lemma find_buf_none p order bs :
  find_buf p order bs = None → ∀ i b, i ∈ order → bs !! i = Some b → p b = false.
Proof.
  induction order as [|j order IH]; simpl; intros H i b Hi Hb; [by apply not_elem_of_nil in Hi|].
  apply elem_of_cons in Hi as [->|Hi].
  - rewrite Hb in H. by destruct (p b).
  - destruct (bs !! j) as [b'|]; [destruct (p b')|]; eauto; done.
Qed.

Lemma bw_in_lru s i b : bc_wf s → bc_bufs s !! i = Some b → i ∈ bc_lru s.
Proof.
  intros Hw Hi. rewrite (bw_lru _ Hw). apply elem_of_seq. apply lookup_lt_Some in Hi.
  rewrite (bw_len _ Hw) in Hi. lia.
Qed.

Lemma has_key_bkey d k b : has_key d k b = true ↔ bkey b = (d, k).
Proof.
  unfold has_key, bkey. rewrite andb_true_iff, !Z.eqb_eq. split; [by intros [-> ->]|by intros [= -> ->]].
Qed.
Lemma has_key_bkey_ne d k b : has_key d k b = false ↔ bkey b ≠ (d, k).
Proof. rewrite <- not_true_iff_false. by rewrite has_key_bkey. Qed.

Lemma content_buf s i b :
  bc_wf s → bc_bufs s !! i = Some b → b_dev b ≠ NODEV → valid b = true →
  content s (b_dev b) (b_blockno b) = b_data b.
Proof.
  intros Hw Hi Hd Hv. unfold content.
  destruct (List.find _ (bc_bufs s)) as [b'|] eqn:E.
  - apply List.find_some in E as [Hin Hp]. apply list_elem_of_In, list_elem_of_lookup in Hin as [j Hj].
    apply andb_prop in Hp as [Hk _]. apply has_key_bkey in Hk.
    assert (i = j) as -> by (by eapply (bw_uniq _ Hw)). congruence.
  - eapply List.find_none in E; [|apply list_elem_of_In; by eapply list_elem_of_lookup_2].
    unfold has_key in E. rewrite !Z.eqb_refl, Hv in E. done.
Qed.
Lemma content_disk s dev blk :
  (∀ i b, bc_bufs s !! i = Some b → has_key dev blk b = true → valid b = false) →
  content s dev blk = bc_disk s dev blk.
Proof.
  intros H. unfold content. destruct (List.find _ (bc_bufs s)) as [b'|] eqn:E; [|done].
  apply List.find_some in E as [Hin Hp]. apply list_elem_of_In, list_elem_of_lookup in Hin as [j Hj].
  apply andb_prop in Hp as [Hk Hv]. rewrite (H _ _ Hj Hk) in Hv. done.
Qed.

(** ** Specifications of the operations *)
Lemma get_buf_eq s i b : bc_bufs s !! i = Some b → get_buf i s = Ret (b, s).
Proof. intros H. unfold get_buf, bind, gets. by rewrite H. Qed.
Lemma wp_get_buf F s i b Q : bc_bufs s !! i = Some b → Q b s → wp F (get_buf i) Q s.
Proof. intros H HQ. unfold wp. by rewrite (get_buf_eq _ _ _ H). Qed.
Lemma wp_put_buf F s i b Q : Q tt (set_bufs (<[i := b]> (bc_bufs s)) s) → wp F (put_buf i b) Q s.
Proof. done. Qed.

Lemma lookup_put (bs : list buf) i b b0 : bs !! i = Some b0 → <[i := b]> bs !! i = Some b.
Proof. intros H. apply list_lookup_insert_eq. by eapply lookup_lt_Some. Qed.

(** Reading the disk into a buffer. *)
Lemma wp_iderw_read F s i b Q :
  bc_bufs s !! i = Some b → busy b = true → valid b = false → dirty b = false →
  b_blockno b < FSSIZE → bc_havedisk1 s ≠ 0 →
  (∀ f, busy (set_b_flags f b) = true → valid (set_b_flags f b) = true →
     dirty (set_b_flags f b) = false →
     Q tt (set_bufs (<[i := mkBuf f (b_dev b) (b_blockno b) (bc_disk s (b_dev b) (b_blockno b))]>
                       (bc_bufs s)) s)) →
  wp F (iderw i) Q s.
Proof.
  intros Hi Hb Hv Hd Hn Hh HQ. unfold iderw. apply wp_bind. eapply wp_get_buf; [done|].
  apply wp_bind, wp_gets. rewrite flag_busy, Hb, flag_valid_dirty, Hv. simpl.
  rewrite (proj2 (truth_true (bc_havedisk1 s)) Hh). rewrite andb_false_r. simpl.
  apply wp_bind. unfold idestart. apply wp_bind. eapply wp_get_buf; [done|].
  rewrite (proj2 (Z.leb_gt _ _)) by done. rewrite flag_dirty, Hd. apply wp_skip.
  unfold ideintr. apply wp_bind. eapply wp_get_buf; [done|]. apply wp_bind, wp_gets.
  rewrite flag_dirty, Hd. apply wp_put_buf. simpl. apply HQ; flags; by rewrite ?Hb.
Qed.

(** Writing a buffer to the disk. *)
Lemma wp_iderw_write F s i b Q :
  bc_bufs s !! i = Some b → busy b = true → dirty b = true →
  b_blockno b < FSSIZE → bc_havedisk1 s ≠ 0 →
  (∀ f, busy (set_b_flags f b) = true → valid (set_b_flags f b) = true →
     dirty (set_b_flags f b) = false →
     Q tt (set_bufs (<[i := set_b_flags f b]> (bc_bufs s))
             (write_disk (b_dev b) (b_blockno b) (b_data b) s))) →
  wp F (iderw i) Q s.
Proof.
  intros Hi Hb Hd Hn Hh HQ. unfold iderw. apply wp_bind. eapply wp_get_buf; [done|].
  apply wp_bind, wp_gets. rewrite flag_busy, Hb, flag_valid_dirty, Hd. simpl. rewrite andb_false_r.
  rewrite (proj2 (truth_true (bc_havedisk1 s)) Hh). rewrite andb_false_r. simpl.
  apply wp_bind. unfold idestart. apply wp_bind. eapply wp_get_buf; [done|].
  rewrite (proj2 (Z.leb_gt _ _)) by done. rewrite flag_dirty, Hd. apply wp_modify.
  unfold ideintr. apply wp_bind. eapply wp_get_buf; [done|]. apply wp_bind, wp_gets.
  rewrite flag_dirty, Hd. apply wp_put_buf. simpl. apply HQ; flags; by rewrite ?Hb.
Qed.


Lemma disk_write_eq dv d k x : disk_write dv d k x d k = x.
Proof. unfold disk_write. by rewrite !Z.eqb_refl. Qed.
Lemma disk_write_ne dv d k x d' k' : (d', k') ≠ (d, k) → disk_write dv d k x d' k' = dv d' k'.
Proof. intros H. unfold disk_write. destruct (_ && _) eqn:E; [|done]. bool_to_prop. congruence. Qed.

(** ** Replacing one buffer *)
Lemma cached_cases s d k :
  (∃ j b, bc_bufs s !! j = Some b ∧ bkey b = (d, k)) ∨
  (∀ j b, bc_bufs s !! j = Some b → bkey b ≠ (d, k)).
Proof.
  destruct (List.find (has_key d k) (bc_bufs s)) as [b|] eqn:E.
  - left. apply List.find_some in E as [Hin Hp]. apply has_key_bkey in Hp.
    apply list_elem_of_In, list_elem_of_lookup in Hin as [j Hj]. eauto.
  - right. intros j b Hj Hk%has_key_bkey. eapply List.find_none in E;
      [|apply list_elem_of_In; by eapply list_elem_of_lookup_2].
    by rewrite Hk in E.
Qed.
Lemma content_uncached s d k :
  (∀ j b, bc_bufs s !! j = Some b → bkey b ≠ (d, k)) → content s d k = bc_disk s d k.
Proof. intros H. apply content_disk. intros j b Hj Hk%has_key_bkey. by destruct (H _ _ Hj). Qed.

Lemma wf_update s i b0 b :
  bc_wf s → bc_bufs s !! i = Some b0 →
  (bkey b = bkey b0 ∨ (∀ j b', bc_bufs s !! j = Some b' → bkey b' ≠ bkey b)) →
  b_dev b ≠ NODEV → valid b = true →
  (dirty b = false → busy b = false → b_data b = bc_disk s (b_dev b) (b_blockno b)) →
  bc_wf (set_bufs (<[i := b]> (bc_bufs s)) s).
Proof.
  intros [Hlen Hlru Huniq Hused Hfresh Hclean Hdev] Hi Hkey Hd Hv Hc.
  assert (∀ j b', bc_bufs s !! j = Some b' → j ≠ i → bkey b' ≠ bkey b) as Hno.
  { intros j b' Hj Hne E. destruct Hkey as [K|Hk]; [|by eapply Hk].
    apply Hne. eapply Huniq; [done|exact Hi| |congruence]. unfold bkey in E. congruence. }
  split; simpl; rewrite ?length_insert; try done.
  - intros j k b1 b2 [(<- & <- & _)|[Hj J]]%list_lookup_insert_Some
      [(<- & <- & _)|[Hk K]]%list_lookup_insert_Some Hn E; [done| | |eauto].
    + destruct (Hno _ _ K); congruence.
    + destruct (Hno _ _ J); congruence.
  - intros j b1 [(<- & <- & _)|[Hj J]]%list_lookup_insert_Some; eauto.
  - intros j b1 [(<- & <- & _)|[Hj J]]%list_lookup_insert_Some; eauto. done.
  - intros j b1 [(<- & <- & _)|[Hj J]]%list_lookup_insert_Some; eauto.
Qed.

(** The content of all blocks when buffer [i] becomes the valid buffer [b]. *)
Lemma content_update s i b0 b d k :
  bc_wf s → bc_bufs s !! i = Some b0 →
  bc_wf (set_bufs (<[i := b]> (bc_bufs s)) s) → b_dev b ≠ NODEV → valid b = true → d ≠ NODEV →
  content (set_bufs (<[i := b]> (bc_bufs s)) s) d k =
  if has_key d k b then b_data b
  else if has_key d k b0 then bc_disk s d k
  else content s d k.
Proof.
  intros Hw Hi Hw' Hn Hv Hd. destruct (has_key d k b) eqn:E.
  - apply has_key_bkey in E as [= <- <-].
    apply (content_buf _ i b); [done|by eapply lookup_put|done|done].
  - apply has_key_bkey_ne in E. destruct (has_key d k b0) eqn:E0.
    + apply has_key_bkey in E0. rewrite content_uncached; [done|].
      intros j b1 [(<- & <- & _)|[Hj J]]%list_lookup_insert_Some Hk; [congruence|].
      apply Hj. eapply (bw_uniq _ Hw); [done|done| |congruence].
      injection E0. congruence.
    + apply has_key_bkey_ne in E0. destruct (cached_cases s d k) as [(j & b1 & Hj & Hk)|Hno].
      * assert (j ≠ i) as Hne by (intros ->; congruence). injection Hk as <- <-.
        rewrite (content_buf s j b1), (content_buf _ j b1); try done.
        -- simpl. by rewrite list_lookup_insert_ne.
        -- by apply (bw_used _ Hw j).
        -- by apply (bw_used _ Hw j).
      * rewrite !content_uncached; [done|done|].
        intros j b1 [(<- & <- & _)|[Hj J]]%list_lookup_insert_Some; eauto.
Qed.

(** The abstract cache after the same change. *)
Definition key_if (p : bool) (b : buf) : gset (Z * Z) := if p then {[bkey b]} else ∅.

Lemma cview_put s c dv tr D B i b0 b c' D' B' :
  cview s c dv tr D B → bc_bufs s !! i = Some b0 →
  bc_wf (set_bufs (<[i := b]> (bc_bufs s)) s) → b_dev b ≠ NODEV → valid b = true →
  (∀ d k, d ≠ NODEV →
     c' d k = if has_key d k b then b_data b else if has_key d k b0 then dv d k else c d k) →
  D' = D ∖ key_if (dirty b0) b0 ∪ key_if (dirty b) b →
  B' = (if busy b then insert (bkey b) i else id) ((if busy b0 then delete (bkey b0) else id) B) →
  (bkey b = bkey b0 ∨ busy b0 = false ∧ dirty b0 = false) →
  cview (set_bufs (<[i := b]> (bc_bufs s)) s) c' dv tr D' B'.
Proof.
  intros [Hw Hc Hdv Htr HD HB] Hi Hw' Hn Hv Hc' -> -> Hkey.
  assert (∀ j b', bc_bufs s !! j = Some b' → j ≠ i → bkey b' ≠ bkey b) as Hno.
  { intros j b' Hj Hne E. apply Hne. symmetry.
    eapply (bw_uniq _ Hw' i j b b'); simpl; [by eapply lookup_put| |done|done].
    by rewrite list_lookup_insert_ne. }
  assert (∀ j b', bc_bufs s !! j = Some b' → j ≠ i → bkey b' = bkey b0 →
    busy b' = false ∧ dirty b' = false) as Hno0.
  { intros j b' Hj Hne E. destruct (decide (b_dev b' = NODEV)) as [Hd|Hd].
    - by apply (bw_fresh _ Hw j).
    - destruct Hne. by eapply (bw_uniq _ Hw). }
  split; [done| |done|done| |].
  - intros d k Hd. rewrite (content_update s i b0 b d k Hw Hi Hw' Hn Hv Hd), Hc', Hc, Hdv by done. done.
  - intros x. rewrite elem_of_union, elem_of_difference, HD. simpl. split.
    + intros [[(j & b1 & Hj & Hk & Hd) Hx]|Hx].
      * assert (j ≠ i) as Hne.
        { intros ->. simplify_eq. unfold key_if in Hx. rewrite Hd in Hx. set_solver. }
        exists j, b1. by rewrite list_lookup_insert_ne.
      * unfold key_if in Hx. destruct (dirty b) eqn:Hd; [|set_solver].
        apply elem_of_singleton in Hx as ->. exists i, b. split_and!; [by eapply lookup_put|done|done].
    + intros (j & b1 & [(<- & <- & _)|[Hj J]]%list_lookup_insert_Some & <- & Hd).
      * right. unfold key_if. rewrite Hd. set_solver.
      * left. split; [eauto|]. unfold key_if. destruct (dirty b0) eqn:Hd0; [|set_solver].
        intros E%elem_of_singleton. destruct (Hno0 _ _ J) as [_ ?]; congruence.
  - intros x j. simpl.
    assert ((if busy b0 then delete (bkey b0) else id) B !! x = Some j ↔
            ∃ b1, j ≠ i ∧ bc_bufs s !! j = Some b1 ∧ bkey b1 = x ∧ busy b1 = true) as HB0.
    { destruct (busy b0) eqn:E0; unfold id; rewrite ?lookup_delete_Some, HB.
      - split.
        + intros (Hne & b1 & Hj & Hk & Hb). exists b1. split_and!; [|done..]. intros ->. congruence.
        + intros (b1 & Hne & Hj & Hk & Hb). split; [|eauto]. intros <-.
          destruct (Hno0 _ _ Hj Hne); congruence.
      - split; intros (b1 & H); exists b1; [|tauto]. split; [|done]. intros ->.
        destruct H as (H1 & _ & H2). congruence. }
    destruct (busy b) eqn:Eb; unfold id at 1; rewrite ?lookup_insert_Some, HB0; split.
    + intros [[<- <-]|[Hne (b1 & ? & ? & ? & ?)]].
      * exists b. split_and!; [by eapply lookup_put|done|done].
      * exists b1. by rewrite list_lookup_insert_ne.
    + intros (b1 & [(<- & <- & _)|[Hj J]]%list_lookup_insert_Some & <- & Hb); [by left|].
      right. split; [|by exists b1]. intros E. by eapply Hno.
    + intros (b1 & ? & ? & ? & ?). exists b1. by rewrite list_lookup_insert_ne.
    + intros (b1 & [(<- & <- & _)|[Hj J]]%list_lookup_insert_Some & <- & Hb); [congruence|].
      by exists b1.
Qed.

(** ** The operations on the abstract cache *)

(** Some buffer can be recycled unless the busy and dirty blocks fill the cache. *)
Lemma recycle_exists s c dv tr D B :
  cview s c dv tr D B → (size (D ∪ dom B) < NBUF)%nat →
  find_buf recyclable (rev (bc_lru s)) (bc_bufs s) ≠ None.
Proof.
  intros [Hw _ _ _ HD HB] Hsz Hnone.
  assert (∀ i b, bc_bufs s !! i = Some b → bkey b ∈ D ∪ dom B ∧ b_dev b ≠ NODEV) as Hall.
  { intros i b Hi.
    assert (recyclable b = false) as Hr.
    { eapply (find_buf_none _ _ _ Hnone); [|done].
      apply list_elem_of_In, in_rev. rewrite rev_involutive. apply list_elem_of_In.
      by eapply bw_in_lru. }
    unfold recyclable in Hr. rewrite flag_busy0, flag_dirty0 in Hr. split.
    - apply elem_of_union. destruct (dirty b) eqn:Ed; [left; apply HD; eauto|].
      destruct (busy b) eqn:Eb; [|done]. right. apply elem_of_dom. exists i. apply HB. eauto.
    - intros Hd. destruct (bw_fresh _ Hw i b Hi Hd) as [E1 E2]. by rewrite E1, E2 in Hr. }
  assert (NoDup (bkey <$> bc_bufs s)) as Hnd.
  { apply NoDup_alt. intros i j x [b [Hb Hi]]%list_lookup_fmap_Some [b' [Hb' Hj]]%list_lookup_fmap_Some.
    eapply (bw_uniq _ Hw); [done|done|by apply (Hall i)|congruence]. }
  assert (list_to_set (bkey <$> bc_bufs s) ⊆ D ∪ dom B) as Hsub.
  { intros x [b [-> [i Hi]%list_elem_of_lookup]]%elem_of_list_to_set%list_elem_of_fmap.
    by apply (Hall i). }
  apply subseteq_size in Hsub. rewrite size_list_to_set in Hsub by done.
  rewrite length_fmap, (bw_len _ Hw) in Hsub. lia.
Qed.

Lemma content_held s c dv tr D B d k i :
  cview s c dv tr D B → B !! (d, k) = Some i →
  ∃ b, bc_bufs s !! i = Some b ∧ bkey b = (d, k) ∧ busy b = true ∧ valid b = true ∧
       b_dev b ≠ NODEV ∧ b_data b = c d k ∧ (dirty b = true ↔ (d, k) ∈ D).
Proof.
  intros [Hw Hc _ _ HD HB] (b & Hi & Hk & Hb)%HB.
  assert (b_dev b ≠ NODEV) as Hd.
  { intros Hd. destruct (bw_fresh _ Hw i b Hi Hd). congruence. }
  exists b. split_and!; try done; [by apply (bw_used _ Hw i)| |].
  - injection Hk as <- <-. rewrite <- Hc by done. symmetry. apply (content_buf s i); [done..|].
    by apply (bw_used _ Hw i).
  - rewrite HD. split; [eauto|]. intros (j & b' & Hj & Hk' & Hd').
    assert (i = j) as <- by (eapply (bw_uniq _ Hw); [done..|congruence]). congruence.
Qed.

Lemma wp_bget_hit s c dv tr D B dev blk i :
  cview s c dv tr D B → dev ≠ NODEV → B !! (dev, blk) = None →
  find_buf (has_key dev blk) (bc_lru s) (bc_bufs s) = Some i →
  ∃ b0 f, bc_bufs s !! i = Some b0 ∧ bget dev blk s =
     Ret (i, set_bufs (<[i := set_b_flags f b0]> (bc_bufs s)) s) ∧
     valid (set_b_flags f b0) = true ∧
     cview (set_bufs (<[i := set_b_flags f b0]> (bc_bufs s)) s) c dv tr D (<[(dev, blk) := i]> B).
Proof.
  intros Hv Hdev HB Hf. pose proof (cv_wf _ _ _ _ _ _ Hv) as Hw.
  pose proof (find_buf_some _ _ _ _ Hf) as (b0 & _ & Hi & Hk). apply has_key_bkey in Hk.
  assert (b_dev b0 ≠ NODEV) as Hd0 by (injection Hk; congruence).
  pose proof (bw_used _ Hw i b0 Hi Hd0) as Hval.
  assert (busy b0 = false) as Hb.
  { destruct (busy b0) eqn:E; [|done]. exfalso.
    assert (B !! (dev, blk) = Some i) by (apply (cv_busy _ _ _ _ _ _ Hv); eauto). congruence. }
  exists b0, (Z.lor (b_flags b0) B_BUSY). set (b := set_b_flags _ b0).
  assert (valid b = true ∧ busy b = true ∧ dirty b = dirty b0) as (V & Y & Dy).
  { subst b. flags. by rewrite Hval. }
  split_and!; [done| |done|].
  - unfold bget, bind, gets, id. rewrite Hf, (get_buf_eq _ _ _ Hi).
    rewrite flag_busy, Hb. done.
  - eapply cview_put; try done.
    + eapply wf_update; try done; [by left|congruence].
    + intros d k Hd. change (has_key d k b) with (has_key d k b0).
      destruct (has_key d k b0) eqn:E; [|done]. apply has_key_bkey in E as [= <- <-].
      rewrite <- (cv_content _ _ _ _ _ _ Hv) by done. change (b_data b) with (b_data b0).
      by apply (content_buf s i).
    + rewrite Dy. change (key_if (dirty b0) b) with (key_if (dirty b0) b0).
      destruct (dirty b0) eqn:E; unfold key_if; [|set_solver].
      assert (bkey b0 ∈ D) by (apply (cv_dirty _ _ _ _ _ _ Hv); eauto).
      apply leibniz_equiv. rewrite difference_union. set_solver.
    + rewrite Y, Hb, <- Hk. done.
    + by left.
Qed.

(** A recycled buffer is filled from the disk. *)
Lemma cview_recycle s c dv tr D B dev blk i b0 f :
  cview s c dv tr D B → dev ≠ NODEV → bc_bufs s !! i = Some b0 →
  busy b0 = false → dirty b0 = false →
  (∀ j b, bc_bufs s !! j = Some b → bkey b ≠ (dev, blk)) →
  let b := mkBuf f dev blk (bc_disk s dev blk) in
  busy b = true → valid b = true → dirty b = false →
  cview (set_bufs (<[i := b]> (bc_bufs s)) s) c dv tr D (<[(dev, blk) := i]> B).
Proof.
  intros Hv Hdev Hi Hb0 Hd0 Hno b Hb Hval Hd. pose proof (cv_wf _ _ _ _ _ _ Hv) as Hw.
  eapply cview_put; try done.
  - eapply wf_update; try done. by right.
  - intros d k Hdk. rewrite <- !(cv_content _ _ _ _ _ _ Hv), <- (cv_disk _ _ _ _ _ _ Hv) by done.
    destruct (has_key d k b) eqn:E.
    + apply has_key_bkey in E. injection E as <- <-. by apply content_uncached.
    + destruct (has_key d k b0) eqn:E0; [|done]. apply has_key_bkey in E0 as [= <- <-].
      rewrite (content_buf s i b0), (bw_clean _ Hw i b0); try done. by apply (bw_used _ Hw i).
  - unfold key_if. rewrite Hd, Hd0. set_solver.
  - by rewrite Hb, Hb0.
  - by right.
Qed.

Lemma wp_bread F s c dv tr D B dev blk Q :
  cview s c dv tr D B → dev ≠ NODEV → blk < FSSIZE → B !! (dev, blk) = None →
  ((dev, blk) ∈ D ∨ (size (D ∪ dom B) < NBUF)%nat) →
  (∀ i s', cview s' c dv tr D (<[(dev, blk) := i]> B) → Q i s') →
  wp F (bread dev blk) Q s.
Proof.
  intros Hv Hdev Hblk HB Hroom HQ. unfold bread. apply wp_bind.
  destruct (find_buf (has_key dev blk) (bc_lru s) (bc_bufs s)) as [i|] eqn:Hf.
  - destruct (wp_bget_hit _ _ _ _ _ _ _ _ _ Hv Hdev HB Hf) as (b0 & f & Hi & Hg & Hval & Hv').
    unfold wp at 1. rewrite Hg. apply wp_bind. eapply wp_get_buf; [by eapply lookup_put|].
    rewrite flag_valid, Hval. apply wp_bind, wp_skip, wp_ret. eauto.
  - assert (∀ j b, bc_bufs s !! j = Some b → bkey b ≠ (dev, blk)) as Hno.
    { intros j b Hj. apply has_key_bkey_ne. eapply find_buf_none; [done| |done].
      eapply bw_in_lru; [|done]. apply (cv_wf _ _ _ _ _ _ Hv). }
    destruct Hroom as [(j & b & Hj & Hk & _)%(cv_dirty _ _ _ _ _ _ Hv)|Hroom]; [by destruct (Hno j b)|].
    unfold bget. apply wp_bind, wp_gets. unfold id. rewrite Hf.
    destruct (find_buf recyclable _ _) as [i|] eqn:Hr; [|by destruct (recycle_exists _ _ _ _ _ _ Hv Hroom)].
    pose proof (find_buf_some _ _ _ _ Hr) as (b0 & _ & Hi & Hrec). unfold recyclable in Hrec.
    rewrite flag_busy0, flag_dirty0 in Hrec. apply andb_true_iff in Hrec as [Hb0 Hd0].
    apply negb_true_iff in Hb0, Hd0.
    apply wp_bind. eapply wp_get_buf; [done|]. apply wp_bind, wp_put_buf, wp_ret.
    apply wp_bind. eapply wp_get_buf; [by eapply lookup_put|]. simpl. apply wp_bind.
    eapply wp_iderw_read; [by eapply lookup_put|done..| |].
    + apply (bw_dev _ (cv_wf _ _ _ _ _ _ Hv)).
    + intros f E1 E2 E3. simpl. unfold set_bufs at 1. simpl. rewrite list_insert_insert_eq.
      apply wp_ret, HQ. by eapply cview_recycle.
Qed.

(** Changing the flags or the data of a held buffer. *)
Lemma cview_held s c dv tr D B d k i b b' c' :
  cview s c dv tr D B → B !! (d, k) = Some i → bc_bufs s !! i = Some b →
  bkey b' = bkey b → valid b' = true →
  (dirty b' = false → busy b' = false → b_data b' = dv d k) →
  (∀ d' k', c' d' k' = if has_key d' k' b' then b_data b' else c d' k') →
  cview (set_bufs (<[i := b']> (bc_bufs s)) s) c' dv tr
    (if dirty b' then D ∪ {[(d, k)]} else D ∖ {[(d, k)]})
    (if busy b' then B else delete (d, k) B).
Proof.
  intros Hv HB Hi Hkey Hval Hclean Hc'. pose proof (cv_wf _ _ _ _ _ _ Hv) as Hw.
  destruct (content_held _ _ _ _ _ _ _ _ _ Hv HB) as (b1 & Hi1 & Hk & Hb & Hval0 & Hn & Hdat & HD).
  rewrite Hi in Hi1. injection Hi1 as <-. assert (b_dev b' ≠ NODEV) as Hn' by (unfold bkey in Hkey; congruence).
  eapply cview_put; try done.
  - eapply wf_update; [done..|by left|done|done|]. rewrite Hk in Hkey. injection Hkey as -> ->.
    by rewrite (cv_disk _ _ _ _ _ _ Hv).
  - intros d' k' _. rewrite Hc'. destruct (has_key d' k' b') eqn:E; [done|].
    destruct (has_key d' k' b) eqn:E0; [|done]. apply has_key_bkey_ne in E.
    apply has_key_bkey in E0. congruence.
  - unfold key_if. rewrite Hkey, Hk. apply set_eq. intros x.
    destruct (dirty b'), (dirty b); destruct (decide (x = (d, k))) as [->|Hx]; set_solver.
  - rewrite Hb, Hkey, Hk. destruct (busy b'); [|done]. unfold id. by rewrite insert_delete_id.
  - by left.
Qed.

Lemma cview_write_disk s c dv tr D B d k i :
  cview s c dv tr D B → B !! (d, k) = Some i →
  cview (write_disk d k (c d k) s) c (disk_write dv d k (c d k)) (tr ++ [(d, k, c d k)]) D B.
Proof.
  intros Hv HB.
  destruct (content_held _ _ _ _ _ _ _ _ _ Hv HB) as (b & Hi & Hk & Hb & Hval & Hn & Hdat & _).
  destruct Hv as [[Hlen Hlru Hu Hus Hfr Hcl Hdev] Hc <- <- HD HBu].
  assert (bc_wf (write_disk d k (c d k) s)) as Hw'.
  { split; simpl; try done. intros j b1 Hj Hd1 E1 E2. unfold disk_write.
    destruct ((_ =? d) && (_ =? k)) eqn:E; [|by eapply Hcl].
    apply (has_key_bkey d k b1) in E.
    assert (j = i) as -> by (apply (Hu j i b1 b); [done..|congruence]). congruence. }
  split; try done.
  intros d' k' Hd'. destruct (decide ((d', k') = (d, k))) as [[= -> ->]|Hne].
  - injection Hk as <- <-. by rewrite (content_buf _ i b).
  - rewrite <- (Hc d' k' Hd'). unfold content. simpl. destruct (List.find _ _); [done|].
    unfold disk_write. destruct ((d' =? d) && (k' =? k)) eqn:E; [|done].
    bool_to_prop. congruence.
Qed.

Lemma same_dirty (b : bool) (x : Z * Z) (D : gset (Z * Z)) :
  (b = true ↔ x ∈ D) → (if b then D ∪ {[x]} else D ∖ {[x]}) = D.
Proof.
  intros H. apply set_eq. intros y. destruct b; destruct (decide (y = x)) as [->|]; set_solver.
Qed.

(** [memmove] into the data of a held buffer, or any other change of it. *)
Lemma wp_upd_data F s c dv tr D B d k i f Q :
  cview s c dv tr D B → B !! (d, k) = Some i →
  (∀ s', cview s' (disk_write c d k (f (c d k))) dv tr D B → Q tt s') →
  wp F (upd_data i f) Q s.
Proof.
  intros Hv HB HQ.
  destruct (content_held _ _ _ _ _ _ _ _ _ Hv HB) as (b & Hi & Hk & Hb & Hval & Hn & Hdat & HD).
  unfold upd_data. apply wp_bind. eapply wp_get_buf; [done|]. apply wp_put_buf, HQ.
  assert (busy (set_b_data (f (b_data b)) b) = true) as Hb' by done.
  pose proof (cview_held s c dv tr D B d k i b (set_b_data (f (b_data b)) b)
    (disk_write c d k (f (c d k))) Hv HB Hi eq_refl Hval) as H.
  rewrite Hb' in H. change (dirty (set_b_data _ b)) with (dirty b) in H.
  rewrite (same_dirty _ _ _ HD) in H. apply H; [done|]. intros d' k'. simpl. unfold disk_write, has_key. simpl.
  injection Hk as -> ->. rewrite Hdat, (Z.eqb_sym d d'), (Z.eqb_sym k k'). done.
Qed.

Lemma same_content (c : disk) d k b b' :
  bkey b = (d, k) → b_data b = c d k → bkey b' = bkey b → b_data b' = b_data b →
  ∀ d' k', c d' k' = if has_key d' k' b' then b_data b' else c d' k'.
Proof.
  intros Hk Hd Hk' Hd' d' k'. destruct (has_key d' k' b') eqn:E; [|done].
  apply has_key_bkey in E. rewrite Hk', Hk in E. injection E as <- <-. congruence.
Qed.

Lemma wp_bwrite F s c dv tr D B d k i Q :
  cview s c dv tr D B → B !! (d, k) = Some i → k < FSSIZE →
  (∀ s', cview s' c (disk_write dv d k (c d k)) (tr ++ [(d, k, c d k)]) (D ∖ {[(d, k)]}) B → Q tt s') →
  wp F (bwrite i) Q s.
Proof.
  intros Hv HB Hk HQ.
  destruct (content_held _ _ _ _ _ _ _ _ _ Hv HB) as (b & Hi & Hkey & Hb & Hval & Hn & Hdat & HD).
  pose proof Hkey as [= Ed Ek].
  unfold bwrite. apply wp_bind. eapply wp_get_buf; [done|]. rewrite flag_busy0, Hb. simpl.
  apply wp_bind, wp_put_buf.
  assert (busy (set_b_flags (Z.lor (b_flags b) B_DIRTY) b) = true ∧
          dirty (set_b_flags (Z.lor (b_flags b) B_DIRTY) b) = true) as [E1 E2].
  { flags. by rewrite Hb. }
  eapply wp_iderw_write; [by eapply lookup_put|done|done| | |].
  - simpl. lia.
  - apply (bw_dev _ (cv_wf _ _ _ _ _ _ Hv)).
  - intros f F1 F2 F3. apply HQ. simpl. unfold set_bufs, write_disk at 1. simpl.
    rewrite list_insert_insert_eq, Hdat, Ed, Ek.
    pose proof (cview_write_disk _ _ _ _ _ _ _ _ _ Hv HB) as Hv'.
    set (b' := set_b_flags f b).
    assert (busy b' = true) as G1 by done. assert (dirty b' = false) as G3 by done.
    pose proof (cview_held _ c _ _ _ _ d k i b b' c Hv' HB Hi eq_refl F2) as H.
    rewrite G1, G3 in H. apply H; [done|by apply (same_content c d k b)].
Qed.

Lemma cview_set_lru s c dv tr D B l :
  cview s c dv tr D B → l ≡ₚ bc_lru s → cview (set_lru l s) c dv tr D B.
Proof.
  intros [[Hlen Hlru Hu Hus Hfr Hcl Hdev] Hc Hdv Htr HD HB] Hl.
  split; [|done..]. split; simpl; try done. by rewrite Hl.
Qed.
Lemma move_front_perm (i : nat) l : NoDup l → i ∈ l → i :: filter (λ j, j ≠ i) l ≡ₚ l.
Proof.
  intros Hnd Hi. apply NoDup_Permutation; [|done|].
  - constructor; [rewrite list_elem_of_filter; tauto|by apply NoDup_filter].
  - intros j. rewrite elem_of_cons, list_elem_of_filter.
    destruct (decide (j = i)) as [->|]; tauto.
Qed.

Lemma wp_brelse F s c dv tr D B d k i Q :
  cview s c dv tr D B → B !! (d, k) = Some i → ((d, k) ∈ D ∨ c d k = dv d k) →
  (∀ s', cview s' c dv tr D (delete (d, k) B) → Q tt s') →
  wp F (brelse i) Q s.
Proof.
  intros Hv HB Hclean HQ. pose proof (cv_wf _ _ _ _ _ _ Hv) as Hw.
  destruct (content_held _ _ _ _ _ _ _ _ _ Hv HB) as (b & Hi & Hkey & Hb & Hval & Hn & Hdat & HD).
  unfold brelse. apply wp_bind. eapply wp_get_buf; [done|]. rewrite flag_busy0, Hb. simpl.
  apply wp_bind, wp_modify, wp_put_buf, HQ.
  assert (i :: filter (λ j, j ≠ i) (bc_lru s) ≡ₚ bc_lru s) as Hp.
  { apply move_front_perm; [|by eapply bw_in_lru]. rewrite (bw_lru _ Hw). apply NoDup_seq. }
  pose proof (cview_set_lru _ _ _ _ _ _ _ Hv Hp) as Hv'.
  set (b' := set_b_flags (Z.land (b_flags b) (Z.lnot B_BUSY)) b).
  assert (busy b' = false ∧ valid b' = true ∧ dirty b' = dirty b) as (G1 & G2 & G3).
  { subst b'. flags. by rewrite Hval. }
  pose proof (cview_held _ c _ _ _ _ d k i b b' c Hv' HB Hi eq_refl G2) as H.
  rewrite G1, G3 in H.
  rewrite (same_dirty _ _ _ HD) in H. apply H.
  - intros Hd _. change (b_data b = dv d k). destruct Hclean as [HinD|]; [|congruence].
    apply HD in HinD. congruence.
  - by apply (same_content c d k b).
Qed.

(** [b->flags |= B_DIRTY] on a held buffer *)
Lemma wp_pin F s c dv tr D B d k i Q :
  cview s c dv tr D B → B !! (d, k) = Some i →
  (∀ s', cview s' c dv tr (D ∪ {[(d, k)]}) B → Q tt s') →
  wp F (let! b := get_buf i in put_buf i (set_b_flags (Z.lor (b_flags b) B_DIRTY) b)) Q s.
Proof.
  intros Hv HB HQ.
  destruct (content_held _ _ _ _ _ _ _ _ _ Hv HB) as (b & Hi & Hkey & Hb & Hval & Hn & Hdat & HD).
  apply wp_bind. eapply wp_get_buf; [done|]. apply wp_put_buf, HQ.
  set (b' := set_b_flags _ b).
  assert (busy b' = true ∧ valid b' = true ∧ dirty b' = true) as (G1 & G2 & G3).
  { subst b'. flags. by rewrite Hval, Hb. }
  pose proof (cview_held _ c _ _ _ _ d k i b b' c Hv HB Hi eq_refl G2) as H.
  rewrite G1, G3 in H. apply H; [done|by apply (same_content c d k b)].
Qed.

(** ** The cache is invisible *)
Lemma cview_binit s :
  bc_havedisk1 s ≠ 0 → cview (binit s) (bc_disk s) (bc_disk s) (bc_trace s) ∅ ∅.
Proof.
  intros Hd.
  assert (∀ i b, bc_bufs (binit s) !! i = Some b → b = mkBuf 0 NODEV 0 zero_block) as Hall.
  { intros i b H. by apply lookup_replicate in H as [-> _]. }
  split; [| |done|done| |].
  - split; [apply length_replicate| | | | | |done].
    + change (bc_lru (binit s)) with (rev (seq 0 NBUF)). symmetry. apply Permutation_rev.
    + intros i j b b' ->%Hall. done.
    + intros i b ->%Hall. done.
    + intros i b ->%Hall. done.
    + intros i b ->%Hall. done.
  - intros d k Hn. change (bc_disk s d k) with (bc_disk (binit s) d k). apply content_uncached. intros j b ->%Hall. unfold bkey. simpl. congruence.
  - intros x. split; [by intros ?%elem_of_empty|]. by intros (i & b & ->%Hall & _ & ?).
  - intros x i. rewrite lookup_empty. split; [done|]. by intros (b & ->%Hall & _ & ?).
Qed.

(** A cached view with nothing dirty or busy: the readers see the disk. *)
Definition quiet (s : bcache) (dv : disk) : Prop :=
  ∃ c tr, cview s c dv tr ∅ ∅ ∧ ∀ d k, c d k = dv d k.

Lemma empty_room : (size ((∅ : gset (Z * Z)) ∪ dom (∅ : gmap (Z * Z) nat)) < NBUF)%nat.
Proof. rewrite dom_empty_L, union_empty_r_L, size_empty. unfold NBUF. lia. Qed.

Lemma wp_run_op F s dv dev o Q :
  quiet s dv → dev ≠ NODEV → op_block o < FSSIZE →
  (∀ s', quiet s' (disk_op dev o dv).2 → Q (disk_op dev o dv).1 s') →
  wp F (run_op dev o) Q s.
Proof.
  intros (c & tr & Hv & Hc) Hdev Hk HQ.
  destruct o as [k|k d]; simpl in *; apply wp_bind;
    (eapply wp_bread; [exact Hv|done|done|apply lookup_empty|right; by apply empty_room|]).
  - intros i s1 Hv1. assert (<[(dev, k) := i]> (∅ : gmap (Z * Z) nat) !! (dev, k) = Some i) as HB
      by apply lookup_insert_eq.
    destruct (content_held _ _ _ _ _ _ _ _ _ Hv1 HB) as (b & Hi & _ & _ & _ & _ & Hdat & _).
    apply wp_bind. eapply wp_get_buf; [done|]. apply wp_bind.
    eapply wp_brelse; [exact Hv1|done|by right|]. intros s2 Hv2.
    apply wp_ret. rewrite Hdat, Hc. apply HQ. exists c, tr.
    by rewrite delete_insert_id in Hv2 by apply lookup_empty.
  - intros i s1 Hv1. assert (<[(dev, k) := i]> (∅ : gmap (Z * Z) nat) !! (dev, k) = Some i) as HB
      by apply lookup_insert_eq.
    apply wp_bind. eapply wp_upd_data; [exact Hv1|done|]. intros s2 Hv2.
    apply wp_bind. eapply wp_bwrite; [exact Hv2|done|done|]. intros s3 Hv3.
    apply wp_bind. eapply wp_brelse; [exact Hv3|done|right; by rewrite !disk_write_eq|].
    intros s4 Hv4. apply wp_ret, HQ.
    rewrite delete_insert_id in Hv4 by apply lookup_empty.
    replace (∅ ∖ {[(dev, k)]}) with (∅ : gset (Z * Z)) in Hv4 by set_solver.
    rewrite disk_write_eq in Hv4. eexists _, _. split; [exact Hv4|].
    intros d' k'. unfold disk_write. by destruct (_ && _).
Qed.

Lemma wp_run_ops F dev os : ∀ s dv Q,
  quiet s dv → dev ≠ NODEV → Forall (λ o, op_block o < FSSIZE) os →
  (∀ s', quiet s' (disk_ops dev os dv).2 → Q (disk_ops dev os dv).1 s') →
  wp F (run_ops dev os) Q s.
Proof.
  induction os as [|o os IH]; intros s dv Q Hq Hdev Hos HQ; simpl in *; [by apply wp_ret, HQ|].
  apply Forall_cons in Hos as [Ho Hos]. apply wp_bind.
  eapply wp_run_op; [done..|]. intros s1 Hq1. apply wp_bind.
  destruct (disk_op dev o dv) as [d dv1]. simpl in *.
  eapply IH; [done..|]. intros s2 Hq2. apply wp_ret.
  destruct (disk_ops dev os dv1) as [ds dv2]. simpl in *. by apply HQ.
Qed.

(** Claim C25: the buffer cache is a transparent copy of the disk.  Any sequence
    of block reads and writes through [bread], [bwrite] and [brelse], from an
    initialised cache and on blocks of the file system, ends without panic and
    without waiting, gives each reader the block as the disk itself would have
    held it, and leaves the disk itself with every write applied in order,
    whatever buffers were recycled on the way. *)
Theorem bcache_refines_disk dev os s :
  bc_havedisk1 s ≠ 0 → dev ≠ NODEV → Forall (λ o, op_block o < FSSIZE) os →
  ∃ s', run_ops dev os (binit s) = Ret ((disk_ops dev os (bc_disk s)).1, s') ∧
        bc_disk s' = (disk_ops dev os (bc_disk s)).2.
Proof.
  intros Hd Hdev Hos.
  assert (quiet (binit s) (bc_disk s)) as Hq by (eexists _, _; by split; [apply cview_binit|]).
  destruct (wp_ok (run_ops dev os) (λ ds s', ds = (disk_ops dev os (bc_disk s)).1 ∧
    bc_disk s' = (disk_ops dev os (bc_disk s)).2) (binit s)) as (ds & s' & E & -> & H); [|eauto].
  eapply wp_run_ops; [done..|]. intros s' (c & tr & Hv & _). split; [done|].
  apply (cv_disk _ _ _ _ _ _ Hv).
Qed.

Definition wit_bcache : bcache := mkBc [] [] 1 (λ _ _, zero_block) [].
Definition wit_ops : list block_op := [ReadBlock 3; WriteBlock 3 [7]; ReadBlock 3; WriteBlock 999 [9]].
Lemma bcache_refines_disk_witness :
  ∃ s', run_ops 1 wit_ops (binit wit_bcache) = Ret ([zero_block; [7]; [7]; [9]], s') ∧
        bc_disk s' = (disk_ops 1 wit_ops (λ _ _, zero_block)).2.
Proof.
  apply (bcache_refines_disk 1 wit_ops wit_bcache); [done..|].
  repeat constructor.
Defined.
