(* ===== verification/Ide.v ===== *)
(** * The disk driver on its ports (ide.c), and the memory disk (memide.c)

    Bio.v uses the driver for one process at a time.  Here any number of
    processes wait for their requests: the queue linked through [qnext], the
    registers of the disk controller, and interrupts that come between.  What
    runs under [idelock] is one step; a process that sleeps in [iderw] takes
    no step until its buffer is done. *)
From S2P Require Import Prelude Machine Block Bio CString.

Open Scope Z_scope.

Definition SECTOR_SIZE : Z := 512.
Definition IDE_BSY : Z := 0x80.
Definition IDE_DRDY : Z := 0x40.
Definition IDE_DF : Z := 0x20.
Definition IDE_ERR : Z := 0x01.
Definition IDE_CMD_READ : Z := 0x20.
Definition IDE_CMD_WRITE : Z := 0x30.

(** ** The controller

    An ATA disk in LBA mode: a command takes its sector and drive from the
    registers; after it the status says busy for [a_slow] reads, whatever
    [a_slow] is.  A read leaves the sectors in the data register, a write is
    done when all its data has come.  While [a_err] is set reads fail; writes do
    not fail. *)
Record ata := mkAta {
  r_count : Z; r_lba0 : Z; r_lba1 : Z; r_lba2 : Z; r_dev : Z;
  a_busy : nat; a_slow : nat; a_err : bool; a_drive1 : bool;
  a_data : list Z; a_want : bool; a_disk : disk }.
Definition set_a_busy (n : nat) (a : ata) : ata :=
  mkAta (r_count a) (r_lba0 a) (r_lba1 a) (r_lba2 a) (r_dev a) n (a_slow a) (a_err a) (a_drive1 a) (a_data a) (a_want a) (a_disk a).
Definition set_a_err (e : bool) (a : ata) : ata :=
  mkAta (r_count a) (r_lba0 a) (r_lba1 a) (r_lba2 a) (r_dev a) (a_busy a) (a_slow a) e (a_drive1 a) (a_data a) (a_want a) (a_disk a).
Definition drive (a : ata) : Z := Z.land (Z.shiftr (r_dev a) 4) 1.
Definition lba (a : ata) : Z :=
  r_lba0 a + 2 ^ 8 * r_lba1 a + 2 ^ 16 * r_lba2 a + 2 ^ 24 * Z.land (r_dev a) 0xf.
Definition sectors (a : ata) : list Z :=
  concat ((λ i, a_disk a (drive a) (lba a + Z.of_nat i)) <$> seq 0 (Z.to_nat (r_count a))).
Definition ata_command (v : Z) (a : ata) : ata :=
  if v =? IDE_CMD_READ then
    mkAta (r_count a) (r_lba0 a) (r_lba1 a) (r_lba2 a) (r_dev a) (a_slow a) (a_slow a) (a_err a) (a_drive1 a) (sectors a) false (a_disk a)
  else if v =? IDE_CMD_WRITE then
    mkAta (r_count a) (r_lba0 a) (r_lba1 a) (r_lba2 a) (r_dev a) 0 (a_slow a) (a_err a) (a_drive1 a) [] true (a_disk a)
  else a.
Definition outb (port v : Z) (a : ata) : ata :=
  let v := u8 v in
  let '(mkAta n l0 l1 l2 d b s e p dat w dk) := a in
  if port =? 0x1f2 then mkAta v l0 l1 l2 d b s e p dat w dk
  else if port =? 0x1f3 then mkAta n v l1 l2 d b s e p dat w dk
  else if port =? 0x1f4 then mkAta n l0 v l2 d b s e p dat w dk
  else if port =? 0x1f5 then mkAta n l0 l1 v d b s e p dat w dk
  else if port =? 0x1f6 then mkAta n l0 l1 l2 v b s e p dat w dk
  else if port =? 0x1f7 then ata_command v a
  else a.
(** The status register *)
Definition inb_status (a : ata) : Z * ata :=
  if (drive a =? 1) && negb (a_drive1 a) then (0, a)
  else match a_busy a with
       | S n => (IDE_BSY, set_a_busy n a)
       | O => (if a_err a then Z.lor IDE_DRDY IDE_ERR else IDE_DRDY, a)
       end.
(** [outsl(0x1f0, data, n / 4)] and [insl]; a sector is written when it is whole. *)
Definition outsl (bs : list Z) (a : ata) : ata :=
  if a_want a && (Z.of_nat (length bs) =? SECTOR_SIZE * r_count a) && (r_count a =? 1) then
    mkAta (r_count a) (r_lba0 a) (r_lba1 a) (r_lba2 a) (r_dev a) (a_slow a) (a_slow a) (a_err a) (a_drive1 a) [] false
      (disk_write (a_disk a) (drive a) (lba a) bs)
  else a.
Definition insl (n : nat) (a : ata) : list Z := take (4 * n) (a_data a).

(** ** ide.c *)
(** The buffers and their fields [qnext]; [d_woken] are the buffers [wakeup] was called on. *)
Record ide := mkIde {
  d_bufs : list buf; d_qnext : list (option nat); d_queue : option nat; d_havedisk1 : Z; d_ata : ata; d_woken : list nat }.
Definition set_d_bufs (v : list buf) (s : ide) : ide := mkIde v (d_qnext s) (d_queue s) (d_havedisk1 s) (d_ata s) (d_woken s).
Definition set_d_qnext (v : list (option nat)) (s : ide) : ide := mkIde (d_bufs s) v (d_queue s) (d_havedisk1 s) (d_ata s) (d_woken s).
Definition set_d_queue (v : option nat) (s : ide) : ide := mkIde (d_bufs s) (d_qnext s) v (d_havedisk1 s) (d_ata s) (d_woken s).
Definition set_d_havedisk1 (v : Z) (s : ide) : ide := mkIde (d_bufs s) (d_qnext s) (d_queue s) v (d_ata s) (d_woken s).
Definition set_d_ata (v : ata) (s : ide) : ide := mkIde (d_bufs s) (d_qnext s) (d_queue s) (d_havedisk1 s) v (d_woken s).
Definition woke (i : nat) (s : ide) : ide := mkIde (d_bufs s) (d_qnext s) (d_queue s) (d_havedisk1 s) (d_ata s) (d_woken s ++ [i]).
Abbreviation I := (M ide).

Definition the_buf (i : nat) : I buf :=
  let! bs := gets d_bufs in match bs !! i with Some b => ret b | None => undef "struct buf pointer" end.
Definition set_buf (i : nat) (b : buf) : I unit := modify (λ s, set_d_bufs (<[i := b]> (d_bufs s)) s).
Definition qnext (i : nat) : I (option nat) :=
  let! q := gets d_qnext in match q !! i with Some n => ret n | None => undef "struct buf pointer" end.
Definition set_qnext (i : nat) (n : option nat) : I unit := modify (λ s, set_d_qnext (<[i := n]> (d_qnext s)) s).
Definition port_out (port v : Z) : I unit := modify (λ s, set_d_ata (outb port v (d_ata s)) s).
Definition port_status : I Z := λ s, let '(v, a) := inb_status (d_ata s) in Ret (v, set_d_ata a s).

(** [fuel] bounds the reads of the status *)
Fixpoint idewait (fuel : nat) (checkerr : bool) : I Z :=
  match fuel with
  | O => diverge
  | S fuel =>
      let! r := port_status in
      if negb (Z.land r (Z.lor IDE_BSY IDE_DRDY) =? IDE_DRDY) then idewait fuel checkerr
      else if checkerr && negb (Z.land r (Z.lor IDE_DF IDE_ERR) =? 0) then ret (-1)
      else ret 0
  end.
(** [ideinit], after the interrupt controllers; the disk 1 is looked for up to
    1000 times. *)
Fixpoint find_disk1 (n : nat) : I unit :=
  match n with
  | O => skip
  | S n => let! r := port_status in if negb (r =? 0) then modify (set_d_havedisk1 1) else find_disk1 n
  end.
Definition ideinit (fuel : nat) : I unit :=
  idewait fuel false ;!
  port_out 0x1f6 (Z.lor 0xe0 (Z.shiftl 1 4)) ;!
  find_disk1 1000 ;!
  port_out 0x1f6 (Z.lor 0xe0 (Z.shiftl 0 4)).

Definition idestart (fuel : nat) (p : option nat) : I unit :=
  match p with
  | None => panic "idestart"
  | Some i =>
      let! b := the_buf i in
      if FSSIZE <=? b_blockno b then panic "incorrect blockno"
      else
        let sector_per_block := BSIZE / SECTOR_SIZE in
        let sector := i32 (b_blockno b * sector_per_block) in
        if 7 <? sector_per_block then panic "idestart"
        else
          idewait fuel false ;!
          port_out 0x3f6 0 ;!
          port_out 0x1f2 sector_per_block ;!
          port_out 0x1f3 (Z.land sector 0xff) ;!
          port_out 0x1f4 (Z.land (Z.shiftr sector 8) 0xff) ;!
          port_out 0x1f5 (Z.land (Z.shiftr sector 16) 0xff) ;!
          port_out 0x1f6 (Z.lor (Z.lor 0xe0 (Z.shiftl (Z.land (b_dev b) 1) 4)) (Z.land (Z.shiftr sector 24) 0x0f)) ;!
          if truth (Z.land (b_flags b) B_DIRTY) then
            port_out 0x1f7 IDE_CMD_WRITE ;!
            modify (λ s, set_d_ata (outsl (take (Z.to_nat BSIZE) (b_data b)) (d_ata s)) s)
          else port_out 0x1f7 IDE_CMD_READ
  end.
(** Read data if needed. *)
Definition read_data (fuel : nat) (b : buf) : I buf :=
  if truth (Z.land (b_flags b) B_DIRTY) then ret b
  else
    let! r := idewait fuel true in
    if 0 <=? r then
      let! a := gets d_ata in
      ret (set_b_data (insl (Z.to_nat (BSIZE / 4)) a) b)
    else ret b.
Definition ideintr (fuel : nat) : I unit :=
  let! q := gets d_queue in
  match q with
  | None => skip
  | Some i =>
      let! n := qnext i in
      modify (set_d_queue n) ;!
      let! b := the_buf i in
      let! b := read_data fuel b in
      set_buf i (set_b_flags (Z.land (Z.lor (b_flags b) B_VALID) (Z.lnot B_DIRTY)) b) ;!
      modify (woke i) ;!
      match n with
      | Some _ => idestart fuel n
      | None => skip
      end
  end.
(** The loop that appends [b] to the queue, from the buffer [j] on. *)
Fixpoint append_to (fuel : nat) (j i : nat) : I unit :=
  match fuel with
  | O => diverge
  | S fuel =>
      let! n := qnext j in
      match n with
      | Some k => append_to fuel k i
      | None => set_qnext j (Some i)
      end
  end.
(** [iderw] up to its loop, and the loop's condition. *)
Definition iderw_request (fuel : nat) (i : nat) : I unit :=
  let! b := the_buf i in
  let! hd := gets d_havedisk1 in
  if negb (truth (Z.land (b_flags b) B_BUSY)) then panic "iderw: buf not busy"
  else if Z.land (b_flags b) (Z.lor B_VALID B_DIRTY) =? B_VALID then panic "iderw: nothing to do"
  else if truth (b_dev b) && negb (truth hd) then panic "iderw: ide disk 1 not present"
  else
    set_qnext i None ;!
    let! q := gets d_queue in
    match q with
    | None => modify (set_d_queue (Some i))
    | Some j => append_to fuel j i
    end ;!
    let! q := gets d_queue in
    match q with
    | Some j => if (j =? i)%nat then idestart fuel (Some i) else skip
    | None => skip
    end.
Definition iderw_finished (b : buf) : bool := Z.land (b_flags b) (Z.lor B_VALID B_DIRTY) =? B_VALID.

(** ** The queue of requests

    What the driver promises: requests are served in the order they came, a
    read gets what the disk holds then, a write is on the disk when it is
    served.  A read that the disk reports as failed is served too, with the data
    the buffer had.  [Fault e]: from now on reads fail, or they do no longer. *)
Record rq := mkRq { q_bufs : list buf; q_pending : list nat; q_disk : disk; q_err : bool }.
Inductive event := Request (i : nat) | Interrupt | Use (i : nat) (b : buf) | Fault (e : bool).
Definition served (b : buf) (d : block) : buf :=
  mkBuf (Z.land (Z.lor (b_flags b) B_VALID) (Z.lnot B_DIRTY)) (b_dev b) (b_blockno b) d.
Definition rq_step (e : event) (s : rq) : rq :=
  match e with
  | Request i => mkRq (q_bufs s) (q_pending s ++ [i]) (q_disk s) (q_err s)
  | Use i b => mkRq (<[i := b]> (q_bufs s)) (q_pending s) (q_disk s) (q_err s)
  | Fault e => mkRq (q_bufs s) (q_pending s) (q_disk s) e
  | Interrupt =>
      match q_pending s with
      | [] => s
      | i :: rest =>
          match q_bufs s !! i with
          | Some b =>
              if dirty b then
                mkRq (<[i := served b (b_data b)]> (q_bufs s)) rest (disk_write (q_disk s) (b_dev b) (b_blockno b) (b_data b)) (q_err s)
              else
                let d := if q_err s then b_data b else q_disk s (b_dev b) (b_blockno b) in
                mkRq (<[i := served b d]> (q_bufs s)) rest (q_disk s) (q_err s)
          | None => s
          end
      end
  end.
(** Processes ask for buffers they hold, for blocks of a disk there is, and
    touch no buffer while it is asked for. *)
Definition request_ok (hd : Z) (b : buf) : Prop :=
  busy b = true ∧ (valid b = false ∨ dirty b = true) ∧
  (b_dev b = 0 ∨ (b_dev b = 1 ∧ hd ≠ 0)) ∧ 0 ≤ b_blockno b < FSSIZE ∧ length (b_data b) = Z.to_nat BSIZE.
Definition event_ok (hd : Z) (e : event) (s : rq) : Prop :=
  match e with
  | Request i => (i ∉ q_pending s) ∧ ∃ b, q_bufs s !! i = Some b ∧ request_ok hd b
  | Use i b => (i ∉ q_pending s) ∧ (i < length (q_bufs s))%nat
  | Interrupt | Fault _ => True
  end.
Fixpoint events_ok (hd : Z) (es : list event) (s : rq) : Prop :=
  match es with [] => True | e :: es => event_ok hd e s ∧ events_ok hd es (rq_step e s) end.
Definition ide_step (fuel : nat) (e : event) (s : ide) : outcome ide :=
  match e with
  | Request i => let* (_, s) := iderw_request fuel i s in Ret s
  | Interrupt => let* (_, s) := ideintr fuel s in Ret s
  | Use i b => Ret (set_d_bufs (<[i := b]> (d_bufs s)) s)
  | Fault e => Ret (set_d_ata (set_a_err e (d_ata s)) s)
  end.
Fixpoint ide_run (fuel : nat) (es : list event) (s : ide) : outcome ide :=
  match es with [] => Ret s | e :: es => let* s := ide_step fuel e s in ide_run fuel es s end.

(** The queue from [p] on is [l]. *)
Fixpoint chain (q : list (option nat)) (p : option nat) (l : list nat) : Prop :=
  match l with
  | [] => p = None
  | i :: l => p = Some i ∧ ∃ n, q !! i = Some n ∧ chain q n l
  end.
(** The controller works on [b]: it has been given the data to write, or holds
    the data that was read. *)
Definition working (b : buf) (d0 : disk) (a : ata) : Prop :=
  if dirty b then a_disk a = disk_write d0 (b_dev b) (b_blockno b) (b_data b)
  else a_disk a = d0 ∧ take (Z.to_nat BSIZE) (a_data a) = d0 (b_dev b) (b_blockno b).
(** The driver's state [s] is the queue [r]. *)
Record ide_rel (slow : nat) (hd : Z) (s : ide) (r : rq) : Prop := {
  ir_bufs : d_bufs s = q_bufs r;
  ir_qlen : length (d_qnext s) = length (d_bufs s);
  ir_hd : d_havedisk1 s = hd;
  ir_drive : (hd ≠ 0 → a_drive1 (d_ata s) = true) ∧ (a_drive1 (d_ata s) = true ∨ drive (d_ata s) = 0);
  ir_chain : chain (d_qnext s) (d_queue s) (q_pending r);
  ir_nodup : NoDup (q_pending r);
  ir_ok : ∀ i, i ∈ q_pending r → ∃ b, q_bufs r !! i = Some b ∧ request_ok hd b;
  ir_blocks : ∀ d n, length (q_disk r d n) = Z.to_nat BSIZE;
  ir_err : a_err (d_ata s) = q_err r;
  ir_ata : (a_busy (d_ata s) ≤ slow)%nat ∧ (a_slow (d_ata s) ≤ slow)%nat;
  ir_work : match q_pending r with
            | [] => a_disk (d_ata s) = q_disk r
            | i :: _ => ∀ b, q_bufs r !! i = Some b → working b (q_disk r) (d_ata s)
            end }.

Lemma the_buf_ok i b s : d_bufs s !! i = Some b → the_buf i s = Ret (b, s).
Proof. intros H. unfold the_buf, bind, gets. by rewrite H. Qed.
Lemma qnext_ok i n s : d_qnext s !! i = Some n → qnext i s = Ret (n, s).
Proof. intros H. unfold qnext, bind, gets. by rewrite H. Qed.

(** ** The controller's part *)
Definition settled (a : ata) : ata := set_a_busy 0 a.
Lemma status_ready a : a_drive1 a = true ∨ drive a = 0 → (drive a =? 1) && negb (a_drive1 a) = false.
Proof. intros [->| ->]; [apply andb_false_r|done]. Qed.
Lemma idewait_ready chk : ∀ fuel s, a_drive1 (d_ata s) = true ∨ drive (d_ata s) = 0 →
  (a_busy (d_ata s) < fuel)%nat →
  idewait fuel chk s = Ret (if chk && a_err (d_ata s) then -1 else 0, set_d_ata (settled (d_ata s)) s).
Proof.
  induction fuel as [|fuel IH]; intros s Hd Hb; [lia|]. cbn [idewait]. unfold bind, port_status, inb_status.
  rewrite status_ready by done. destruct s as [bs q p h a w], a as [n l0 l1 l2 d b sl e p1 dat wt dk].
  cbn [d_ata a_busy a_err a_drive1] in *. destruct b as [|b]; [by destruct chk, e|].
  transitivity (idewait fuel chk (mkIde bs q p h (mkAta n l0 l1 l2 d b sl e p1 dat wt dk) w)); [reflexivity|].
  rewrite IH; [done|exact Hd|cbn; lia].
Qed.
(** The registers after the sector [s] of drive [d] has been selected. *)
Definition selected (d s : Z) (a : ata) : ata :=
  mkAta 1 (s mod 256) ((s / 256) mod 256) ((s / 65536) mod 256) (0xe0 + 16 * d)
    0 (a_slow a) (a_err a) (a_drive1 a) (a_data a) (a_want a) (a_disk a).
Lemma selected_address d s a : d = 0 ∨ d = 1 → 0 ≤ s < 2 ^ 24 → drive (selected d s a) = d ∧ lba (selected d s a) = s.
Proof.
  intros Hd Hs. unfold drive, lba. cbn [selected r_dev r_lba0 r_lba1 r_lba2].
  split; [by destruct Hd as [->| ->]|].
  assert (Z.land (0xe0 + 16 * d) 0xf = 0) as -> by (by destruct Hd as [->| ->]). Z.div_mod_to_equations; lia.
Qed.
Lemma select_sector d s a : d = 0 ∨ d = 1 → 0 ≤ s < 2 ^ 24 →
  outb 0x1f6 (Z.lor (Z.lor 0xe0 (Z.shiftl (Z.land d 1) 4)) (Z.land (Z.shiftr s 24) 0x0f))
    (outb 0x1f5 (Z.land (Z.shiftr s 16) 0xff) (outb 0x1f4 (Z.land (Z.shiftr s 8) 0xff)
      (outb 0x1f3 (Z.land s 0xff) (outb 0x1f2 1 (outb 0x3f6 0 (settled a)))))) = selected d s a.
Proof.
  intros Hd Hs. destruct a. unfold outb, settled, set_a_busy, selected.
  cbn [r_count r_lba0 r_lba1 r_lba2 r_dev a_busy a_slow a_err a_drive1 a_data a_want a_disk]. cbn [Z.eqb Pos.eqb].
  assert (∀ x, Z.land x 0xff = x mod 256) as H8 by (intros x; apply (Z.land_ones x 8); lia).
  rewrite !H8, !Z.shiftr_div_pow2 by lia. unfold u8. change (2 ^ 8) with 256. change (2 ^ 16) with 65536.
  rewrite !Z.mod_mod by lia. assert (s / 2 ^ 24 = 0) as -> by (apply Z.div_small; lia).
  f_equal. by destruct Hd as [->| ->].
Qed.

Lemma write_sector d s a bs : length bs = Z.to_nat BSIZE →
  let a1 := selected d s a in
  outsl bs (outb 0x1f7 IDE_CMD_WRITE a1) =
    mkAta 1 (r_lba0 a1) (r_lba1 a1) (r_lba2 a1) (r_dev a1) (a_slow a) (a_slow a) (a_err a) (a_drive1 a) [] false
      (disk_write (a_disk a) (drive a1) (lba a1) bs).
Proof. intros Hl a1. unfold outsl, outb. cbn. rewrite Hl. done. Qed.
Lemma read_sector d s a :
  let a1 := selected d s a in
  outb 0x1f7 IDE_CMD_READ a1 =
    mkAta 1 (r_lba0 a1) (r_lba1 a1) (r_lba2 a1) (r_dev a1) (a_slow a) (a_slow a) (a_err a) (a_drive1 a)
      (a_disk a (drive a1) (lba a1)) false (a_disk a).
Proof.
  intros a1. unfold outb. cbn -[drive lba]. unfold ata_command, sectors. cbn -[drive lba].
  change (u8 IDE_CMD_READ =? IDE_CMD_READ) with true. cbv iota. f_equal. change (Z.to_nat 1) with 1%nat.
  cbn [seq fmap list_fmap concat]. rewrite app_nil_r. f_equal. lia.
Qed.
Definition ata_ok (slow : nat) (a : ata) : Prop := (a_busy a ≤ slow)%nat ∧ (a_slow a ≤ slow)%nat.
Lemma idestart_works fuel slow hd i b s : d_bufs s !! i = Some b → request_ok hd b → ata_ok slow (d_ata s) →
  (hd ≠ 0 → a_drive1 (d_ata s) = true) → a_drive1 (d_ata s) = true ∨ drive (d_ata s) = 0 →
  (∀ d n, length (a_disk (d_ata s) d n) = Z.to_nat BSIZE) → (slow < fuel)%nat →
  ∃ a, idestart fuel (Some i) s = Ret (tt, set_d_ata a s) ∧ ata_ok slow a ∧ working b (a_disk (d_ata s)) a ∧
    a_drive1 a = a_drive1 (d_ata s) ∧ (a_drive1 a = true ∨ drive a = 0) ∧ a_err a = a_err (d_ata s).
Proof.
  intros Hb (Hbusy & Hneed & Hdev & Hbn & Hlen) (Hby & Hsl) Hd1 Hdr Hdk Hf.
  assert (b_dev b = 0 ∨ b_dev b = 1) as Hdev' by tauto.
  set (a1 := selected (b_dev b) (b_blockno b) (d_ata s)).
  assert (0 ≤ b_blockno b < 2 ^ 24) as Hbn' by (unfold FSSIZE in Hbn; lia).
  destruct (selected_address (b_dev b) (b_blockno b) (d_ata s) Hdev' Hbn') as [Hda Hla]. fold a1 in Hda, Hla.
  assert (a_drive1 a1 = true ∨ drive a1 = 0) as Hdr1.
  { destruct Hdev as [E|[E Eh]]; [right; congruence|left; by apply Hd1]. }
  exists (if dirty b then outsl (take (Z.to_nat BSIZE) (b_data b)) (outb 0x1f7 IDE_CMD_WRITE a1)
          else outb 0x1f7 IDE_CMD_READ a1).
  split.
  - unfold idestart. erewrite bind_Ret by by apply the_buf_ok.
    rewrite (proj2 (Z.leb_gt _ _)) by apply Hbn. change (BSIZE / SECTOR_SIZE) with 1.
    change (7 <? 1) with false. cbv iota. rewrite Z.mul_1_r, i32_small by (unfold FSSIZE in Hbn; lia).
    erewrite bind_Ret by (apply idewait_ready; [done|lia]).
    do 6 (erewrite bind_Ret by reflexivity).
    assert (truth (Z.land (b_flags b) B_DIRTY) = dirty b) as -> by apply flag_dirty.
    pose proof (select_sector (b_dev b) (b_blockno b) (d_ata s) Hdev' Hbn') as Hsel. fold a1 in Hsel.
    destruct s as [bs q p h a w]. cbn [d_ata set_d_ata] in *. rewrite Hsel.
    destruct (dirty b); reflexivity.
  - unfold working. destruct (dirty b).
    + rewrite take_ge by lia. pose proof (write_sector (b_dev b) (b_blockno b) (d_ata s) (b_data b) Hlen) as E.
      cbv zeta in E. fold a1 in E. rewrite E, Hda, Hla. done.
    + pose proof (read_sector (b_dev b) (b_blockno b) (d_ata s)) as E. cbv zeta in E. fold a1 in E. rewrite E, Hda, Hla.
      split; [done|]. split; [|done]. split; [done|]. cbn [a_data]. apply take_ge. by rewrite Hdk.
Qed.

(** ** The queue's part *)
Lemma chain_insert q i n l : ∀ p, i ∉ l → chain q p l → chain (<[i := n]> q) p l.
Proof.
  induction l as [|j l IH]; intros p Hi; cbn [chain]; [done|]. apply not_elem_of_cons in Hi as [Hj Hi].
  intros (-> & m & Hm & Hc). split; [done|]. exists m. split; [by rewrite list_lookup_insert_ne|by apply IH].
Qed.
Lemma append_to_spec i : ∀ l j fuel s, chain (d_qnext s) (Some j) (j :: l) → NoDup (j :: l) → i ∉ j :: l →
  d_qnext s !! i = Some None → (length l < fuel)%nat →
  ∃ q, append_to fuel j i s = Ret (tt, set_d_qnext q s) ∧ length q = length (d_qnext s) ∧
    chain q (Some j) (j :: l ++ [i]) ∧ ∀ m, m ∉ j :: l → q !! m = d_qnext s !! m.
Proof.
  induction l as [|k l IH]; intros j [|fuel] s Hc Hnd Hi Hq Hf; cbn [length] in Hf; try lia.
  - destruct Hc as (_ & n & Hn & ->). apply not_elem_of_cons in Hi as [Hij _]. cbn [append_to].
    erewrite bind_Ret by by apply qnext_ok. exists (<[j := Some i]> (d_qnext s)). split; [done|].
    split; [apply length_insert|]. split.
    2: { intros m [Hm _]%not_elem_of_cons. by rewrite list_lookup_insert_ne. }
    split; [done|]. exists (Some i). split.
    { apply list_lookup_insert_eq. by eapply lookup_lt_Some. }
    split; [done|]. exists None. split; [by rewrite list_lookup_insert_ne by done|done].
  - destruct Hc as (_ & n & Hn & Hc). destruct Hc as (-> & Hc). cbn [append_to].
    erewrite bind_Ret by by apply qnext_ok. apply NoDup_cons in Hnd as [Hj Hnd]. apply not_elem_of_cons in Hi as [Hij Hi].
    destruct (IH k fuel s) as (q & E & Hl & Hq' & Ho); [by split|done|done|done|lia|].
    exists q. split; [done|]. split; [done|]. split.
    + split; [done|]. exists (Some k). split; [by rewrite Ho|done].
    + intros m [Hm Hm']%not_elem_of_cons. by apply Ho.
Qed.

Lemma pending_bound {slow hd s r} : ide_rel slow hd s r → (length (q_pending r) ≤ length (q_bufs r))%nat.
Proof.
  intros H. rewrite <- (length_seq (length (q_bufs r)) 0). apply submseteq_length, NoDup_submseteq; [apply H|].
  intros i Hi. destruct (ir_ok _ _ _ _ H i Hi) as (b & Hb & _). apply elem_of_seq.
  apply lookup_lt_Some in Hb. lia.
Qed.
Lemma sim_request fuel slow hd i s r : ide_rel slow hd s r → event_ok hd (Request i) r →
  (slow < fuel)%nat → (length (q_bufs r) < fuel)%nat →
  ∃ s', iderw_request fuel i s = Ret (tt, s') ∧ ide_rel slow hd s' (rq_step (Request i) r) ∧ d_woken s' = d_woken s.
Proof.
  intros R (Hi & b & Hb & Hok) Hf Hf'. pose proof (pending_bound R) as Hpb. pose proof Hok as (Hbusy & Hneed & Hdev & Hbn & Hlen).
  destruct R as [R1 R2 R3 [R4 R4'] R5 R6 R7 R8 Re R9 R10]. rewrite <- R1 in Hb.
  assert (i < length (d_qnext s))%nat as Hil by (rewrite R2; by eapply lookup_lt_Some).
  unfold iderw_request. erewrite bind_Ret by by apply the_buf_ok. erewrite bind_Ret by reflexivity.
  rewrite flag_busy, Hbusy, flag_valid_dirty. cbn [negb].
  assert (valid b && negb (dirty b) = false) as ->.
  { destruct Hneed as [->| ->]; [done|apply andb_false_r]. }
  assert (truth (b_dev b) && negb (truth (d_havedisk1 s)) = false) as ->.
  { rewrite R3. destruct Hdev as [->|[-> Hh]]; [done|]. by rewrite (proj2 (truth_true hd) Hh). }
  erewrite bind_Ret by reflexivity. erewrite bind_Ret by reflexivity. cbn [d_queue set_d_qnext].
  destruct (q_pending r) as [|j l] eqn:Ep; cbn [chain] in R5.
  - rewrite R5. erewrite bind_Ret by reflexivity. erewrite bind_Ret by reflexivity.
    cbn [d_queue set_d_queue]. rewrite Nat.eqb_refl.
    set (s1 := set_d_queue (Some i) (set_d_qnext (<[i := None]> (d_qnext s)) s)).
    destruct (idestart_works fuel slow hd i b s1) as (a & E & Ha & Hw & Hd1 & Hd2 & Hde); try done; [intros d n; cbn; rewrite R10; apply R8|].
    exists (set_d_ata a s1). split; [done|]. split; [|done]. cbn [s1 d_ata set_d_queue set_d_qnext] in *. rewrite R10 in Hw.
    subst s1. constructor; cbn [rq_step q_bufs q_pending q_disk q_err set_d_ata set_d_queue set_d_qnext d_bufs d_qnext d_queue d_havedisk1 d_ata]; rewrite ?Ep; cbn [app].
    all: try done.
    + rewrite length_insert. done.
    + split; [|done]. rewrite Hd1. done.
    + split; [done|]. exists None. split; [by apply list_lookup_insert_eq|done].
    + apply NoDup_singleton.
    + intros k ->%list_elem_of_singleton. exists b. by rewrite <- R1.
    + by rewrite Hde.
    + intros b' Hb'. rewrite <- R1, Hb in Hb'. by simplify_eq.
  - destruct R5 as (Hq0 & n & Hn & Hc). rewrite Hq0. pose proof Hi as [Hij Hil']%not_elem_of_cons.
    destruct (append_to_spec i l j fuel (set_d_qnext (<[i := None]> (d_qnext s)) s)) as (q & E & Hl & Hq & Ho).
    { apply chain_insert; [done|]. split; [done|]. eauto. }
    { done. } { done. } { by apply list_lookup_insert_eq. } { cbn [length] in Hpb. lia. }
    erewrite bind_Ret by exact E. erewrite bind_Ret by reflexivity. cbn [d_queue set_d_qnext].
    rewrite Hq0, (proj2 (Nat.eqb_neq j i)) by congruence.
    eexists. split; [reflexivity|]. split; [|done].
    constructor; cbn [rq_step q_bufs q_pending q_disk q_err set_d_qnext d_bufs d_qnext d_queue d_havedisk1 d_ata]; rewrite ?Ep.
    all: try done.
    + rewrite Hl. cbn [set_d_qnext d_qnext]. by rewrite length_insert.
    + by rewrite Hq0.
    + apply NoDup_app. split; [done|]. split; [|apply NoDup_singleton]. intros k Hk ->%list_elem_of_singleton. done.
    + intros k [Hk| ->%list_elem_of_singleton]%elem_of_app; [by apply R7|]. exists b. by rewrite <- R1.
Qed.

(** The controller is idle and the queue's head, if there is one, is started. *)
Lemma start_next fuel slow hd s r :
  d_bufs s = q_bufs r → length (d_qnext s) = length (d_bufs s) → d_havedisk1 s = hd →
  (hd ≠ 0 → a_drive1 (d_ata s) = true) ∧ (a_drive1 (d_ata s) = true ∨ drive (d_ata s) = 0) →
  chain (d_qnext s) (d_queue s) (q_pending r) → NoDup (q_pending r) →
  (∀ i, i ∈ q_pending r → ∃ b, q_bufs r !! i = Some b ∧ request_ok hd b) →
  (∀ d n, length (q_disk r d n) = Z.to_nat BSIZE) → a_err (d_ata s) = q_err r → ata_ok slow (d_ata s) →
  a_disk (d_ata s) = q_disk r → (slow < fuel)%nat →
  ∃ s', match d_queue s with Some _ => idestart fuel (d_queue s) | None => skip end s = Ret (tt, s') ∧
    ide_rel slow hd s' r ∧ d_woken s' = d_woken s.
Proof.
  intros R1 R2 R3 R4 R5 R6 R7 R8 Re R9 R10 Hf. destruct (q_pending r) as [|k rest] eqn:Ep.
  - cbn [chain] in R5. rewrite R5. exists s. split; [done|]. split; [|done]. constructor; rewrite ?Ep; try done.
  - pose proof R5 as (E & _). destruct (R7 k) as (b & Hb & Hok); [left|]. rewrite E.
    destruct (idestart_works fuel slow hd k b s) as (a & Es & Ha & Hw & Hd1 & Hd2 & Hde); try done;
      [by rewrite R1|apply R4|apply R4|intros d n; by rewrite R10|].
    exists (set_d_ata a s). split; [done|]. split; [|done]. rewrite R10 in Hw.
    constructor; cbn [set_d_ata d_bufs d_qnext d_queue d_havedisk1 d_ata]; rewrite ?Ep; try done.
    + split; [|done]. rewrite Hd1. apply R4.
    + by rewrite Hde.
    + intros b' Hb'. by simplify_eq.
Qed.
Lemma served_flags b d : served b d = set_b_flags (Z.land (Z.lor (b_flags b) B_VALID) (Z.lnot B_DIRTY)) (set_b_data d b).
Proof. done. Qed.
Definition head_of (l : list nat) : list nat := take 1 l.
(** The data of the request the controller works on. *)
Lemma read_data_spec fuel slow b d0 s : working b d0 (d_ata s) → ata_ok slow (d_ata s) →
  a_drive1 (d_ata s) = true ∨ drive (d_ata s) = 0 → (slow < fuel)%nat →
  let d := if dirty b || a_err (d_ata s) then b_data b else d0 (b_dev b) (b_blockno b) in
  ∃ a, read_data fuel b s = Ret (set_b_data d b, set_d_ata a s) ∧ ata_ok slow a ∧
    a_disk a = (if dirty b then disk_write d0 (b_dev b) (b_blockno b) (b_data b) else d0) ∧
    a_drive1 a = a_drive1 (d_ata s) ∧ drive a = drive (d_ata s) ∧ a_err a = a_err (d_ata s).
Proof.
  intros Hw (Hb & Hs) Hd Hf. unfold working in Hw. unfold read_data. rewrite flag_dirty. destruct (dirty b); cbn [orb].
  - exists (d_ata s). destruct b, s. by split_and!.
  - destruct Hw as [Hw1 Hw2]. exists (settled (d_ata s)).
    erewrite bind_Ret by (apply idewait_ready; [done|lia]). cbn [andb].
    assert (ata_ok slow (settled (d_ata s))) as Hq by (split; cbn; lia).
    destruct (a_err (d_ata s)) eqn:He; cbn [Z.leb Z.compare]; [by destruct b|].
    erewrite bind_Ret by reflexivity. cbn [d_ata set_d_ata]. unfold insl.
    change (4 * Z.to_nat (BSIZE / 4))%nat with (Z.to_nat BSIZE). cbn [settled set_a_busy a_data]. rewrite Hw2.
    done.
Qed.
Lemma sim_interrupt fuel slow hd s r : ide_rel slow hd s r → (slow < fuel)%nat →
  ∃ s', ideintr fuel s = Ret (tt, s') ∧ ide_rel slow hd s' (rq_step Interrupt r) ∧
    d_woken s' = d_woken s ++ head_of (q_pending r).
Proof.
  intros R Hf. pose proof R as [R1 R2 R3 R4 R5 R6 R7 R8 Re R9 R10].
  destruct (q_pending r) as [|i rest] eqn:Ep.
  { exists s. unfold ideintr. erewrite bind_Ret by reflexivity. cbn [chain] in R5. rewrite R5. split; [done|].
    unfold rq_step. rewrite Ep. split; [done|]. by rewrite app_nil_r. }
  destruct R5 as (Hq & n & Hn & Hc). destruct (R7 i) as (b & Hb & Hok); [left|]. specialize (R10 b Hb).
  apply NoDup_cons in R6 as [Hi R6]. pose proof (lookup_lt_Some _ _ _ Hb) as Hlt.
  destruct (read_data_spec fuel slow b (q_disk r) (set_d_queue n s) R10 R9 (proj2 R4) Hf) as (a & E & Ha & Hdk & Hd1 & Hd2 & Hde).
  unfold ideintr. erewrite bind_Ret by reflexivity. rewrite Hq. erewrite bind_Ret by (by apply qnext_ok).
  erewrite bind_Ret by reflexivity. erewrite bind_Ret by (apply the_buf_ok; cbn; by rewrite R1).
  erewrite bind_Ret by exact E. erewrite bind_Ret by reflexivity. erewrite bind_Ret by reflexivity.
  set (d := if dirty b || _ then _ else _) in *. set (s2 := woke i _).
  assert (rq_step Interrupt r = mkRq (<[i := served b d]> (q_bufs r)) rest (a_disk a) (q_err r)) as ->.
  { unfold rq_step. rewrite Ep, Hb, Hdk, <- Re. unfold d. by destruct (dirty b). }
  destruct (start_next fuel slow hd s2 (mkRq (<[i := served b d]> (q_bufs r)) rest (a_disk a) (q_err r))) as (s' & E' & Hr & Hwk); try done.
  - cbn. by rewrite R1.
  - cbn. by rewrite R2, length_insert.
  - cbn. by rewrite Hd1, Hd2.
  - intros k Hk. destruct (R7 k) as (b' & Hb' & Hok'); [by right|]. exists b'. split; [|done].
    cbn. rewrite list_lookup_insert_ne; [done|]. intros ->. done.
  - intros d' n'. cbn. rewrite Hdk. destruct (dirty b); [|apply R8]. unfold disk_write. destruct (_ && _); [apply Hok|apply R8].
  - cbn. by rewrite Hde.
  - exists s'. split; [exact E'|]. split; [done|]. by rewrite Hwk.
Qed.

(** ** Start-up *)
Lemma find_disk1_spec n : ∀ s, drive (d_ata s) = 1 → (a_busy (d_ata s) < n)%nat ∨ a_drive1 (d_ata s) = false → d_havedisk1 s = 0 →
  ∃ a, find_disk1 n s = Ret (tt, set_d_havedisk1 (if a_drive1 (d_ata s) then 1 else 0) (set_d_ata a s)) ∧
    (a_busy a ≤ a_busy (d_ata s))%nat ∧ a = set_a_busy (a_busy a) (d_ata s).
Proof.
  induction n as [|n IH]; intros s Hd Hb Hh; cbn [find_disk1].
  - destruct Hb as [Hb|Hb]; [lia|]. rewrite Hb. exists (d_ata s). destruct s as [? ? ? ? a ?], a. cbn in *. by subst.
  - unfold port_status, inb_status. destruct (a_drive1 (d_ata s)) eqn:Ed.
    + destruct Hb as [Hb|[=]]. destruct (a_busy (d_ata s)) as [|m] eqn:Em.
      * exists (d_ata s). unfold bind at 1. rewrite Hd, Ed, Em. cbn [Z.eqb Pos.eqb andb negb].
        destruct s as [? ? ? ? a ?], a as [? ? ? ? ? ? ? e ? ? ? ?]. cbn in *. subst. by destruct e.
      * exists (set_a_busy m (d_ata s)). unfold bind at 1. rewrite Hd, Ed, Em. cbn [Z.eqb Pos.eqb andb negb].
        destruct s as [? ? ? ? a ?], a. cbn in *. subst. split; [done|]. split; [lia|done].
    + unfold bind at 1. rewrite Hd, Ed. cbn [Z.eqb Pos.eqb andb negb].
      assert (set_d_ata (d_ata s) s = s) as -> by by destruct s.
      destruct (IH s) as (a & E & Ha); [done|by right|done|]. rewrite Ed in E. eauto.
Qed.
(** The disk at the start: drive 0 is selected, no request. *)
Record ide_boot (slow : nat) (s : ide) : Prop := {
  ib_queue : d_queue s = None;
  ib_qlen : length (d_qnext s) = length (d_bufs s);
  ib_hd : d_havedisk1 s = 0;
  ib_drive : drive (d_ata s) = 0;
  ib_ata : ata_ok slow (d_ata s);
  ib_blocks : ∀ d n, length (a_disk (d_ata s) d n) = Z.to_nat BSIZE }.
Definition disk1 (s : ide) : Z := if a_drive1 (d_ata s) then 1 else 0.
Definition rq_of (s : ide) : rq := mkRq (d_bufs s) [] (a_disk (d_ata s)) (a_err (d_ata s)).
Lemma ideinit_ready fuel slow s : ide_boot slow s → (slow < fuel)%nat →
  ∃ s', ideinit fuel s = Ret (tt, s') ∧ ide_rel slow (disk1 s) s' (rq_of s) ∧ d_woken s' = d_woken s.
Proof.
  intros [B1 B2 B3 B4 (B6 & B7) B8] Hf. unfold ideinit.
  erewrite bind_Ret by (apply idewait_ready; [by right|lia]). erewrite bind_Ret by reflexivity.
  set (s1 := set_d_ata (outb 0x1f6 _ _) _).
  assert (drive (d_ata s1) = 1 ∧ a_busy (d_ata s1) = 0%nat) as [D1 D2].
  { unfold s1. destruct s as [? ? ? ? a ?], a. done. }
  destruct (find_disk1_spec 1000 s1) as (a & E & Ha & Hb); [done|left; rewrite D2; apply Nat.lt_0_succ|done|].
  rewrite D2 in Ha. assert (a_busy a = 0%nat) as Ha0 by lia. rewrite Ha0 in Hb. clear Ha.
  erewrite bind_Ret by exact E. eexists. split; [reflexivity|]. clear E Ha0. subst a.
  unfold s1, disk1, rq_of. clear s1 D1 D2. destruct s as [bs q p h a w], a as [n l0 l1 l2 d b sl e p1 dat wt dk].
  cbn [d_queue d_qnext d_bufs d_havedisk1 d_ata a_err a_busy a_slow a_drive1 a_disk] in *. subst.
  split; [|done]. constructor; cbn; try done.
  - split; [by destruct p1|by right].
  - constructor.
  - intros i Hi. by apply elem_of_nil in Hi.
  - lia.
Qed.

(** ** The driver serves a queue *)
Definition rq_run (es : list event) (r : rq) : rq := foldl (λ r e, rq_step e r) r es.
(** The buffers in the order they are served. *)
Fixpoint order (es : list event) (r : rq) : list nat :=
  match es with
  | [] => []
  | e :: es => (match e with Interrupt => head_of (q_pending r) | _ => [] end) ++ order es (rq_step e r)
  end.
Lemma bufs_length e r : length (q_bufs (rq_step e r)) = length (q_bufs r).
Proof. destruct e as [i| |i b|e]; cbn; [done| |apply length_insert|done]. repeat case_match; cbn; rewrite ?length_insert; done. Qed.
Lemma ide_run_sim fuel slow hd es : ∀ s r, ide_rel slow hd s r → events_ok hd es r →
  (slow < fuel)%nat → (length (q_bufs r) < fuel)%nat →
  ∃ s', ide_run fuel es s = Ret s' ∧ ide_rel slow hd s' (rq_run es r) ∧ d_woken s' = d_woken s ++ order es r.
Proof.
  induction es as [|e es IH]; intros s r R Hok Hf Hf'; cbn [ide_run order]; [exists s; by rewrite app_nil_r|].
  destruct Hok as [He Hes].
  assert (∃ s1, ide_step fuel e s = Ret s1 ∧ ide_rel slow hd s1 (rq_step e r) ∧
    d_woken s1 = d_woken s ++ match e with Interrupt => head_of (q_pending r) | _ => [] end) as (s1 & E & R1 & W1).
  { destruct e as [i| |i b|e]; cbn [ide_step].
    - destruct (sim_request fuel slow hd i s r R He Hf Hf') as (s1 & E & R1 & W). exists s1. by rewrite E, app_nil_r.
    - destruct (sim_interrupt fuel slow hd s r R Hf) as (s1 & E & R1 & W). exists s1. by rewrite E.
    - eexists. split; [reflexivity|]. rewrite app_nil_r. split; [|done]. destruct He as [Hi Hl].
      destruct R as [R1 R2 R3 R4 R5 R6 R7 R8 Re R9 R10].
      constructor; cbn [rq_step q_bufs q_pending q_disk q_err set_d_bufs d_bufs d_qnext d_queue d_havedisk1 d_ata]; try done.
      + by rewrite R1.
      + by rewrite length_insert.
      + intros k Hk. destruct (R7 k Hk) as (b' & Hb' & Hok'). exists b'. split; [|done].
        rewrite list_lookup_insert_ne; [done|]. by intros ->.
      + destruct (q_pending r) as [|k rest]; [done|]. intros b'. rewrite list_lookup_insert_ne; [apply R10|].
        intros ->. apply Hi. left.
    - eexists. split; [reflexivity|]. rewrite app_nil_r. split; [|done]. by destruct R. }
  rewrite E. destruct (IH s1 (rq_step e r)) as (s' & E' & R' & W'); [done|done|done|by rewrite bufs_length|].
  exists s'. split; [done|]. split; [done|]. by rewrite W', W1, app_assoc.
Qed.

Lemma served_finished b d : iderw_finished (served b d) = true.
Proof. unfold iderw_finished. rewrite flag_valid_dirty. unfold valid, dirty, served. cbn [b_flags]. flags. done. Qed.
Lemma pending_waits hd b : request_ok hd b → iderw_finished b = false.
Proof.
  intros (_ & Hn & _). unfold iderw_finished. rewrite flag_valid_dirty. destruct Hn as [->| ->]; [done|apply andb_false_r].
Qed.

(** Claim C26: the disk driver serves its queue.  For any controller that is
    busy for at most [slow] reads of its status, and any order of requests by
    processes, of interrupts, also spurious ones, of uses of buffers by
    processes that hold them, and of the controller's reads beginning or ceasing
    to fail, the driver never panics and never waits for ever.  It does what
    the queue of requests says: they are served in the order they came, one at
    a time; a read gets the data its block has after all earlier writes, unless
    the controller reports an error, when it keeps the data the buffer had and
    is marked valid all the same; a write is on the disk before the next
    request, where writes are taken not to fail; each buffer is woken when it is
    served, and a process sees its buffer finished exactly when it has been
    served.  Requests are for buffers that are busy, for a disk that is present,
    and not already in the queue. *)
Theorem ide_serves_queue fuel slow s es :
  ide_boot slow s → (slow < fuel)%nat → (length (d_bufs s) < fuel)%nat → events_ok (disk1 s) es (rq_of s) →
  let r := rq_run es (rq_of s) in
  ∃ s1 s2, ideinit fuel s = Ret (tt, s1) ∧ ide_run fuel es s1 = Ret s2 ∧
    d_bufs s2 = q_bufs r ∧ chain (d_qnext s2) (d_queue s2) (q_pending r) ∧
    d_woken s2 = d_woken s ++ order es (rq_of s) ∧
    (q_pending r = [] → a_disk (d_ata s2) = q_disk r) ∧
    (∀ i b, i ∈ q_pending r → d_bufs s2 !! i = Some b → iderw_finished b = false) ∧
    (∀ b d, iderw_finished (served b d) = true).
Proof.
  intros Hb Hf Hf' Hok r. destruct (ideinit_ready fuel slow s Hb Hf) as (s1 & E1 & R1 & W1).
  destruct (ide_run_sim fuel slow (disk1 s) es s1 (rq_of s) R1 Hok Hf Hf') as (s2 & E2 & R2 & W2). fold r in R2.
  exists s1, s2. split; [done|]. split; [done|]. split; [apply R2|]. split; [apply R2|]. split; [by rewrite W2, W1|].
  split; [|split; [|apply served_finished]].
  - intros Ep. pose proof (ir_work _ _ _ _ R2) as Hw. by rewrite Ep in Hw.
  - intros i b Hi Hib. destruct (ir_ok _ _ _ _ R2 i Hi) as (b' & Hb' & Hr). rewrite (ir_bufs _ _ _ _ R2) in Hib. simplify_eq.
    by eapply pending_waits.
Qed.
(** Two processes: one writes block 7, the other reads it and is served after. *)
Definition wata : ata := mkAta 0 0 0 0 0xe0 2 2 false true [] false (λ _ _, zero_block).
Definition wbufs : list buf := [mkBuf 5 1 7 (replicate 512 9); mkBuf 1 1 7 zero_block].
Definition wide : ide := mkIde wbufs [None; None] None 0 wata [].
Lemma ide_serves_queue_witness :
  ∃ s1 s2, ideinit 5 wide = Ret (tt, s1) ∧
    ide_run 5 [Request 0; Request 1; Interrupt; Interrupt] s1 = Ret s2 ∧
    d_bufs s2 !! 1%nat = Some (mkBuf 3 1 7 (replicate 512 9)) ∧ d_woken s2 = [0; 1]%nat.
Proof.
  destruct (ide_serves_queue 5 2 wide [Request 0; Request 1; Interrupt; Interrupt]) as (s1 & s2 & E1 & E2 & H1 & _ & H2 & _).
  - by split.
  - lia.
  - cbn. lia.
  - cbn [events_ok event_ok].
    split; [split; [apply not_elem_of_nil|]; exists (mkBuf 5 1 7 (replicate 512 9)); split; [done|]|].
    { split; [done|]. split; [by right|]. split; [by right|]. done. }
    split; [|done]. split; [change (q_pending _) with [0%nat]; by rewrite list_elem_of_singleton|]. exists (mkBuf 1 1 7 zero_block). split; [done|].
    split; [done|]. split; [by left|]. split; [by right|]. done.
  - exists s1, s2. split; [exact E1|]. split; [exact E2|]. rewrite H1, H2. split; reflexivity.
Defined.
(** When the disk reports an error for a read the buffer is marked valid all
    the same, with the data it had. *)
Example ide_error_ignored :
  let s := mkIde [mkBuf 1 0 7 (replicate 512 9)] [None] None 0
             (mkAta 0 0 0 0 0xe0 0 0 true true [] false (λ _ _, zero_block)) [] in
  match ide_run 5 [Request 0; Interrupt] s with
  | Ret s' => d_bufs s' = [mkBuf 3 0 7 (replicate 512 9)]
  | _ => False
  end.
Proof. by vm_compute. Qed.

(** ** The memory disk (memide.c)

    The image of the file system is part of the kernel, at [memdisk]; a
    request is served at once. *)
Definition block_at (m : mem) (p : Z) : block := (λ i, m (p + Z.of_nat i)) <$> seq 0 (Z.to_nat BSIZE).
Definition put_block (p : Z) (d : block) (m : mem) : mem :=
  λ a, if (p <=? a) && (a <? p + BSIZE) then default 0 (d !! Z.to_nat (a - p)) else m a.
Definition mem_ideinit (start size : Z) : Z * Z := (start, i32 (size / BSIZE)).
Definition mem_ideintr (m : mem) : mem := m.
Definition mem_iderw (memdisk disksize : Z) (b : buf) (m : mem) : outcome (buf * mem) :=
  if negb (truth (Z.land (b_flags b) B_BUSY)) then Panic "iderw: buf not busy"
  else if Z.land (b_flags b) (Z.lor B_VALID B_DIRTY) =? B_VALID then Panic "iderw: nothing to do"
  else if negb (b_dev b =? 1) then Panic "iderw: request not for disk 1"
  else if u32 disksize <=? b_blockno b then Panic "iderw: block out of range"
  else
    let p := u32 (memdisk + b_blockno b * BSIZE) in
    let '(b, m) :=
      if truth (Z.land (b_flags b) B_DIRTY) then
        (set_b_flags (Z.land (b_flags b) (Z.lnot B_DIRTY)) b, put_block p (b_data b) m)
      else (set_b_data (block_at m p) b, m) in
    Ret (set_b_flags (Z.lor (b_flags b) B_VALID) b, m).
(** The image as a disk. *)
Definition image (m : mem) (memdisk : Z) : disk := λ _ n, block_at m (memdisk + n * BSIZE).

Lemma block_at_put m p d q : length d = Z.to_nat BSIZE → q + BSIZE ≤ p ∨ p + BSIZE ≤ q ∨ q = p →
  block_at (put_block p d m) q = if q =? p then d else block_at m q.
Proof.
  intros Hd Hq. apply list_eq. intros i. unfold block_at. rewrite list_lookup_fmap.
  destruct (lt_dec i (Z.to_nat BSIZE)) as [Hi|Hi].
  - rewrite lookup_seq_lt by done. cbn [fmap option_fmap option_map Nat.add]. unfold put_block, BSIZE in *.
    destruct (Z.eqb_spec q p) as [->|Hne].
    + rewrite (proj2 (Z.leb_le _ _)), (proj2 (Z.ltb_lt _ _)) by lia. cbn [andb].
      replace (Z.to_nat (p + Z.of_nat i - p)) with i by lia.
      destruct (lookup_lt_is_Some_2 d i) as [x Hx]; [lia|]. by rewrite Hx.
    + rewrite list_lookup_fmap, lookup_seq_lt by done. cbn [fmap option_fmap option_map Nat.add].
      destruct (Z.leb_spec p (q + Z.of_nat i)), (Z.ltb_spec (q + Z.of_nat i) (p + 512)); try done. lia.
  - rewrite lookup_seq_ge by lia. destruct (q =? p).
    + symmetry. apply lookup_ge_None. lia.
    + rewrite list_lookup_fmap, lookup_seq_ge by lia. done.
Qed.
Lemma served_flags_mem f : Z.lor (Z.land f (Z.lnot B_DIRTY)) B_VALID = Z.land (Z.lor f B_VALID) (Z.lnot B_DIRTY).
Proof. rewrite Z.land_lor_distr_l. done. Qed.
Lemma clean_flags b : dirty b = false → Z.land (b_flags b) (Z.lnot B_DIRTY) = b_flags b.
Proof.
  unfold dirty. intros H. apply Z.bits_inj'. intros i Hi. rewrite Z.land_spec, Z.lnot_spec by done.
  change B_DIRTY with (2 ^ 2). rewrite Z.pow2_bits_eqb by lia.
  destruct (Z.eqb_spec 2 i) as [<-|]; [by rewrite H|by rewrite andb_true_r].
Qed.
(** The memory disk serves a request as the queue does, with the bytes of the
    image as the disk. *)
Lemma memide_serves memdisk disksize b m : request_ok 1 b → b_dev b = 1 →
  0 ≤ b_blockno b < disksize → disksize < 2 ^ 31 → 0 ≤ memdisk → memdisk + disksize * BSIZE < 2 ^ 32 →
  ∃ m', let disk := image m memdisk in
    mem_iderw memdisk disksize b m = Ret (served b (if dirty b then b_data b else disk 1 (b_blockno b)), m') ∧
    ∀ n, 0 ≤ n < disksize → image m' memdisk 1 n =
      (if dirty b then disk_write disk 1 (b_blockno b) (b_data b) else disk) 1 n.
Proof.
  intros (Hb & Hn & _ & _ & Hl) Hd Hbn Hds Hm0 Hm. unfold mem_iderw.
  rewrite flag_busy, Hb, flag_valid_dirty, Hd, flag_dirty. cbn [negb Z.eqb Pos.eqb].
  assert (valid b && negb (dirty b) = false) as -> by (destruct Hn as [->| ->]; [done|apply andb_false_r]).
  rewrite (u32_small disksize), (proj2 (Z.leb_gt _ _)) by lia. rewrite (u32_small (memdisk + _)) by (unfold BSIZE in *; lia).
  destruct (dirty b) eqn:Edirty.
  - exists (put_block (memdisk + b_blockno b * BSIZE) (b_data b) m). split.
    + unfold served, set_b_flags. cbn [b_flags b_dev b_blockno b_data]. by rewrite served_flags_mem.
    + intros n Hn'. unfold image. rewrite block_at_put; [|done|unfold BSIZE; lia]. unfold disk_write. cbn [Z.eqb Pos.eqb andb].
      destruct (Z.eqb_spec n (b_blockno b)) as [->|Hne]; [by rewrite Z.eqb_refl|].
      rewrite (proj2 (Z.eqb_neq _ _)) by (unfold BSIZE; lia). done.
  - exists m. split; [|done]. unfold served, set_b_flags, set_b_data. cbn [b_flags b_dev b_blockno b_data].
    do 2 f_equal. f_equal. rewrite <- served_flags_mem. f_equal. symmetry. by apply clean_flags.
Qed.
