(* ===== verification/Log.v ===== *)
(** * The redo log of the file system (log.c)

    The operations of log.c over the buffer cache of [Bio], and the theorem
    they exist for: whatever the moment of a crash, recovery leaves either none
    or all of the writes of a transaction.  A crash keeps a prefix of the block
    writes the disk has received ([bc_trace]); a block write itself is atomic.

    A call that would sleep, waiting for another process to commit, is
    [Diverge]; the transactions of the theorems never do. *)
From S2P Require Import Prelude Machine Block Bio.

Open Scope Z_scope.

(** ** State *)
Record log := mkLog {
  l_start : Z; l_size : Z;
  l_outstanding : Z; l_committing : Z;
  l_dev : Z;
  lh_n : Z; lh_block : list Z }.
Record lstate := mkLs { ls_bc : bcache; ls_log : log }.

Definition set_bc (b : bcache) (s : lstate) : lstate := mkLs b (ls_log s).
Definition set_log (l : log) (s : lstate) : lstate := mkLs (ls_bc s) l.
Definition with_outstanding (v : Z) (l : log) : log :=
  mkLog (l_start l) (l_size l) v (l_committing l) (l_dev l) (lh_n l) (lh_block l).
Definition with_committing (v : Z) (l : log) : log :=
  mkLog (l_start l) (l_size l) (l_outstanding l) v (l_dev l) (lh_n l) (lh_block l).
Definition with_n (v : Z) (l : log) : log :=
  mkLog (l_start l) (l_size l) (l_outstanding l) (l_committing l) (l_dev l) v (lh_block l).
Definition with_block (v : list Z) (l : log) : log :=
  mkLog (l_start l) (l_size l) (l_outstanding l) (l_committing l) (l_dev l) (lh_n l) v.
Definition with_geometry (start size dev : Z) (l : log) : log :=
  mkLog start size (l_outstanding l) (l_committing l) dev (lh_n l) (lh_block l).

Definition on_bc {A} (e : M bcache A) : M lstate A := zoom ls_bc set_bc e.
Definition upd_log (f : log → log) : M lstate unit := modify (λ s, set_log (f (ls_log s)) s).
Definition the_log : M lstate log := gets ls_log.

(** An access of [log.lh.block] *)
Definition get_block (i : nat) : M lstate Z :=
  let! l := the_log in
  match lh_block l !! i with
  | Some v => ret v
  | None => undef "log.lh.block index"
  end.
Definition set_block (i : nat) (v : Z) : M lstate unit :=
  let! l := the_log in
  if (i <? length (lh_block l))%nat then upd_log (with_block (<[i := v]> (lh_block l)))
  else undef "log.lh.block index".

(** [for(tail = 0; tail < log.lh.n; tail++)] *)
Definition for_tail (body : nat → M lstate unit) : M lstate unit :=
  let! l := the_log in for_each (seq 0 (Z.to_nat (lh_n l))) body.

(** ** Header block: [n] at offset 0, [block[i]] at offset [4 + 4 * i] *)
Definition sizeof_logheader : Z := 4 + 4 * LOGSIZE.
Definition head_n (d : block) : Z := i32 (get32 d 0).
Definition head_block (d : block) (i : nat) : Z := i32 (get32 d (4 + 4 * i)).

(** ** The superblock (fs.c) *)
Record superblock := mkSb {
  sb_size : Z; sb_nblocks : Z; sb_ninodes : Z; sb_nlog : Z;
  sb_logstart : Z; sb_inodestart : Z; sb_bmapstart : Z }.
Definition decode_sb (d : block) : superblock :=
  mkSb (get32 d 0) (get32 d 4) (get32 d 8) (get32 d 12) (get32 d 16) (get32 d 20) (get32 d 24).
Definition readsb (dev : Z) : M bcache superblock :=
  let! i := bread (u32 dev) 1 in
  let! bp := get_buf i in
  brelse i ;!
  ret (decode_sb (b_data bp)).

(** ** Operations *)
Definition install_block (tail : nat) : M lstate unit :=
  let! l := the_log in
  let! lbuf := on_bc (bread (u32 (l_dev l)) (u32 (l_start l + Z.of_nat tail + 1))) in
  let! k := get_block tail in
  let! dbuf := on_bc (bread (u32 (l_dev l)) (u32 k)) in
  let! lb := on_bc (get_buf lbuf) in
  on_bc (upd_data dbuf (λ _, b_data lb)) ;!
  on_bc (bwrite dbuf) ;!
  on_bc (brelse lbuf) ;!
  on_bc (brelse dbuf).
Definition install_trans : M lstate unit := for_tail install_block.

Definition read_head : M lstate unit :=
  let! l := the_log in
  let! i := on_bc (bread (u32 (l_dev l)) (u32 (l_start l))) in
  let! b := on_bc (get_buf i) in
  upd_log (with_n (head_n (b_data b))) ;!
  for_tail (λ t, set_block t (head_block (b_data b) t)) ;!
  on_bc (brelse i).

Definition write_head : M lstate unit :=
  let! l := the_log in
  let! i := on_bc (bread (u32 (l_dev l)) (u32 (l_start l))) in
  on_bc (upd_data i (put32 0 (lh_n l))) ;!
  for_tail (λ t, let! k := get_block t in on_bc (upd_data i (put32 (4 + 4 * t) k))) ;!
  on_bc (bwrite i) ;!
  on_bc (brelse i).

Definition recover_from_log : M lstate unit :=
  read_head ;!
  install_trans ;!
  upd_log (with_n 0) ;!
  write_head.

Definition initlog (dev : Z) : M lstate unit :=
  if BSIZE <=? sizeof_logheader then panic "initlog: too big logheader"
  else
    let! sb := on_bc (readsb dev) in
    upd_log (with_geometry (i32 (sb_logstart sb)) (i32 (sb_nlog sb)) dev) ;!
    recover_from_log.

Definition begin_op : M lstate unit :=
  let! l := the_log in
  if truth (l_committing l) then diverge
  else if LOGSIZE <? lh_n l + (l_outstanding l + 1) * MAXOPBLOCKS then diverge
  else upd_log (with_outstanding (l_outstanding l + 1)).

Definition log_block (tail : nat) : M lstate unit :=
  let! l := the_log in
  let! to := on_bc (bread (u32 (l_dev l)) (u32 (l_start l + Z.of_nat tail + 1))) in
  let! k := get_block tail in
  let! from := on_bc (bread (u32 (l_dev l)) (u32 k)) in
  let! fb := on_bc (get_buf from) in
  on_bc (upd_data to (λ _, b_data fb)) ;!
  on_bc (bwrite to) ;!
  on_bc (brelse from) ;!
  on_bc (brelse to).
Definition write_log : M lstate unit := for_tail log_block.

Definition commit : M lstate unit :=
  let! l := the_log in
  if 0 <? lh_n l then
    write_log ;!
    write_head ;!
    install_trans ;!
    upd_log (with_n 0) ;!
    write_head
  else skip.

Definition end_op : M lstate unit :=
  upd_log (λ l, with_outstanding (l_outstanding l - 1) l) ;!
  let! l := the_log in
  if truth (l_committing l) then panic "log.committing"
  else if l_outstanding l =? 0 then
    upd_log (with_committing 1) ;!
    commit ;!
    upd_log (with_committing 0)
  else skip.

(** The index at which [log_write] stores the block number. *)
Fixpoint absorb_index (k : Z) (bl : list Z) : nat :=
  match bl with
  | [] => 0
  | x :: bl' => if u32 x =? k then 0%nat else S (absorb_index k bl')
  end.
Definition log_write (i : nat) : M lstate unit :=
  let! l := the_log in
  if (LOGSIZE <=? lh_n l) || (l_size l - 1 <=? lh_n l) then panic "too big a transaction"
  else if l_outstanding l <? 1 then panic "log_write outside of trans"
  else
    let! b := on_bc (get_buf i) in
    let j := absorb_index (b_blockno b) (take (Z.to_nat (lh_n l)) (lh_block l)) in
    set_block j (i32 (b_blockno b)) ;!
    (if Z.of_nat j =? lh_n l then upd_log (with_n (lh_n l + 1)) else skip) ;!
    on_bc (let! b := get_buf i in put_buf i (set_b_flags (Z.lor (b_flags b) B_DIRTY) b)).

(** ** What the log means *)

(** The disk after a sequence of block writes. *)
Definition writes (dv : disk) (ws : list (Z * Z * block)) : disk :=
  foldl (λ e w, disk_write e w.1.1 w.1.2 w.2) dv ws.

Section Meaning.
Context (start size_ dev : Z).

(** The block of the log that holds entry [t]. *)
Definition log_blk (t : nat) : Z := start + Z.of_nat t + 1.
Definition in_log (k : Z) : Prop := start ≤ k < start + size_.
(** Blocks that transactions write: not the superblock, not the log. *)
Definition home (k : Z) : Prop := 0 ≤ k < FSSIZE ∧ k ≠ 1 ∧ ¬ in_log k.

(** The block numbers in a header block. *)
Definition head_blocks (d : block) : list Z :=
  head_block d <$> seq 0 (Z.to_nat (head_n d)).
(** The writes that install the blocks [bl], from entry [t] of the log on. *)
Fixpoint install_writes (dv : disk) (t : nat) (bl : list Z) : list (Z * Z * block) :=
  match bl with
  | [] => []
  | k :: bl' => (dev, k, dv dev (log_blk t)) :: install_writes dv (S t) bl'
  end.
(** The writes that copy the blocks [bl] of [c] to the log. *)
Fixpoint log_writes (c : disk) (t : nat) (bl : list Z) : list (Z * Z * block) :=
  match bl with
  | [] => []
  | k :: bl' => (dev, log_blk t, c dev k) :: log_writes c (S t) bl'
  end.
(** The header block with block numbers [bl], written over [d]. *)
Fixpoint fill_head (t : nat) (bl : list Z) (d : block) : block :=
  match bl with
  | [] => d
  | k :: bl' => fill_head (S t) bl' (put32 (4 + 4 * t) k d)
  end.
Definition header (bl : list Z) (d : block) : block :=
  fill_head 0 bl (put32 0 (Z.of_nat (length bl)) d).

(** What the disk stands for: its blocks with the committed log installed. *)
Definition replay (dv : disk) : disk :=
  writes dv (install_writes dv 0 (head_blocks (dv dev start))).

(** The log on the disk can be replayed. *)
Definition log_ok (dv : disk) : Prop :=
  length (dv dev start) = Z.to_nat BSIZE ∧
  0 ≤ head_n (dv dev start) < Z.min size_ LOGSIZE ∧
  Forall home (head_blocks (dv dev start)).

Definition recovery_writes (dv : disk) : list (Z * Z * block) :=
  install_writes dv 0 (head_blocks (dv dev start)) ++ [(dev, start, header [] (dv dev start))].
Definition commit_writes (c dv : disk) (bl : list Z) : list (Z * Z * block) :=
  log_writes c 0 bl ++ (dev, start, header bl (dv dev start)) ::
  map (λ k, (dev, k, c dev k)) bl ++
  [(dev, start, header [] (header bl (dv dev start)))].
End Meaning.

(** ** Rules for the cache operations on the state of log.c *)
Definition lview (s : lstate) (l : log) (c dv : disk) (tr : list (Z * Z * block))
    (D : gset (Z * Z)) (B : gmap (Z * Z) nat) : Prop :=
  ls_log s = l ∧ cview (ls_bc s) c dv tr D B.

Lemma wp_on_bc {A} F (e : M bcache A) Q s :
  wp F e (λ a b, Q a (set_bc b s)) (ls_bc s) → wp F (on_bc e) Q s.
Proof. apply wp_zoom. Qed.
Lemma wp_upd_log F f Q s : Q tt (set_log (f (ls_log s)) s) → wp F (upd_log f) Q s.
Proof. done. Qed.
Lemma wp_get_block F s i v Q :
  lh_block (ls_log s) !! i = Some v → Q v s → wp F (get_block i) Q s.
Proof. intros H HQ. unfold wp, get_block, bind, the_log, gets. by rewrite H. Qed.

Section Rules.
Context (F : Prop) (s : lstate) (l : log) (c dv : disk) (tr : list (Z * Z * block)).
Context (D : gset (Z * Z)) (B : gmap (Z * Z) nat).
Hypothesis Hs : lview s l c dv tr D B.

Lemma wp_the_log Q : Q l s → wp F the_log Q s.
Proof. destruct Hs as [<- _]. done. Qed.
Lemma lbread d k Q :
  d ≠ NODEV → k < FSSIZE → B !! (d, k) = None →
  ((d, k) ∈ D ∨ (size (D ∪ dom B) < NBUF)%nat) →
  (∀ i s', lview s' l c dv tr D (<[(d, k) := i]> B) → Q i s') →
  wp F (on_bc (bread d k)) Q s.
Proof.
  destruct Hs as [Hl Hv]. intros H1 H2 H3 H4 HQ.
  apply wp_on_bc. eapply wp_bread; [done..|]. intros i s' Hv'. by apply HQ.
Qed.
Lemma lget_buf d k i Q :
  B !! (d, k) = Some i → (∀ b, b_data b = c d k → b_dev b = d → b_blockno b = k → Q b s) →
  wp F (on_bc (get_buf i)) Q s.
Proof.
  destruct Hs as [Hl Hv]. intros HB HQ.
  destruct (content_held _ _ _ _ _ _ _ _ _ Hv HB) as (b & Hi & [= Hd Hk] & _ & _ & _ & Hdat & _).
  apply wp_on_bc. eapply wp_get_buf; [done|]. destruct s. by apply HQ.
Qed.
Lemma lupd_data d k i f Q :
  B !! (d, k) = Some i →
  (∀ s', lview s' l (disk_write c d k (f (c d k))) dv tr D B → Q tt s') →
  wp F (on_bc (upd_data i f)) Q s.
Proof.
  destruct Hs as [Hl Hv]. intros HB HQ. apply wp_on_bc. eapply wp_upd_data; [done..|].
  intros s' Hv'. by apply HQ.
Qed.
Lemma lbwrite d k i Q :
  B !! (d, k) = Some i → k < FSSIZE →
  (∀ s', lview s' l c (disk_write dv d k (c d k)) (tr ++ [(d, k, c d k)]) (D ∖ {[(d, k)]}) B →
     Q tt s') →
  wp F (on_bc (bwrite i)) Q s.
Proof.
  destruct Hs as [Hl Hv]. intros HB Hk HQ. apply wp_on_bc. eapply wp_bwrite; [done..|].
  intros s' Hv'. by apply HQ.
Qed.
Lemma lbrelse d k i Q :
  B !! (d, k) = Some i → ((d, k) ∈ D ∨ c d k = dv d k) →
  (∀ s', lview s' l c dv tr D (delete (d, k) B) → Q tt s') →
  wp F (on_bc (brelse i)) Q s.
Proof.
  destruct Hs as [Hl Hv]. intros HB Hk HQ. apply wp_on_bc. eapply wp_brelse; [done..|].
  intros s' Hv'. by apply HQ.
Qed.
End Rules.

(** A block that is neither dirty nor busy is as on the disk. *)
Lemma cview_clean s c dv tr D B d k :
  cview s c dv tr D B → d ≠ NODEV → (d, k) ∉ D → B !! (d, k) = None → c d k = dv d k.
Proof.
  intros [Hw Hc <- Htr HD HB] Hd HnD HnB. rewrite <- Hc by done.
  destruct (cached_cases s d k) as [(j & b & Hj & Hk)|Hno]; [|by apply content_uncached].
  pose proof Hk as [= <- <-]. rewrite (content_buf s j b); [|done..|by apply (bw_used _ Hw j)].
  eapply (bw_clean _ Hw); [done..| |].
  - destruct (dirty b) eqn:E; [|done]. destruct HnD. apply HD. eauto.
  - destruct (busy b) eqn:E; [|done].
    assert (B !! (b_dev b, b_blockno b) = Some j) by (apply HB; eauto). congruence.
Qed.

Lemma size_two (D : gset (Z * Z)) (x : Z * Z) (i : nat) :
  (size (D ∪ dom (<[x := i]> (∅ : gmap (Z * Z) nat))) ≤ size D + 1)%nat.
Proof.
  rewrite dom_insert_L, dom_empty_L, union_empty_r_L, size_union_alt.
  apply Nat.add_le_mono_l. rewrite <- (size_singleton (C := gset (Z * Z)) x).
  apply subseteq_size. set_solver.
Qed.

(** ** One block of the log *)
Section Blocks.
Context (start size_ dev : Z).
Hypothesis Hdev : 0 ≤ dev < NODEV.
Hypothesis Hstart : 0 ≤ start.

Abbreviation log_blk := (log_blk start).

Lemma u32_dev : u32 dev = dev.
Proof. apply u32_small. unfold NODEV in Hdev. lia. Qed.
Lemma u32_blk k : 0 ≤ k < FSSIZE → u32 k = k.
Proof. intros H. apply u32_small. unfold FSSIZE in H. lia. Qed.

Lemma wp_install_block F s l c dv tr D t k Q :
  lview s l c dv tr D ∅ → l_dev l = dev → l_start l = start →
  lh_block l !! t = Some k → 0 ≤ k < FSSIZE → log_blk t < FSSIZE → k ≠ log_blk t →
  (dev, log_blk t) ∉ D → (size D < NBUF)%nat →
  ((dev, k) ∈ D ∨ (size D + 1 < NBUF)%nat) →
  (∀ s', lview s' l (disk_write c dev k (dv dev (log_blk t)))
           (disk_write dv dev k (dv dev (log_blk t)))
           (tr ++ [(dev, k, dv dev (log_blk t))]) (D ∖ {[(dev, k)]}) ∅ → Q tt s') →
  wp F (install_block t) Q s.
Proof.
  intros Hs Hd Hst Hk Hkr Hlt Hne HnD Hsz Hroom HQ.
  assert (dev ≠ NODEV) as Hn by lia. assert (0 ≤ log_blk t) by (unfold log_blk; lia).
  assert ((dev, k) ≠ (dev, log_blk t)) as Hnk by congruence.
  pose proof (cview_clean _ _ _ _ _ _ _ _ (proj2 Hs) Hn HnD (lookup_empty _)) as Hcl.
  unfold install_block. apply wp_bind. eapply wp_the_log; [done|]. apply wp_bind.
  rewrite Hd, Hst, u32_dev. fold (log_blk t). rewrite (u32_blk (log_blk t)) by done.
  eapply lbread; [done..|apply lookup_empty|right; by rewrite dom_empty_L, union_empty_r_L|].
  intros lb s1 Hs1. apply wp_bind. eapply wp_get_block; [by rewrite (proj1 Hs1)|].
  apply wp_bind. rewrite u32_blk by done.
  eapply lbread; [done|done|lia|by rewrite lookup_insert_ne| |].
  { destruct Hroom as [|Hroom]; [by left|right]. pose proof (size_two D (dev, log_blk t) lb). lia. }
  intros db s2 Hs2. apply wp_bind.
  eapply lget_buf; [done|by rewrite lookup_insert_ne, lookup_insert_eq|]. intros b Hb _ _.
  apply wp_bind. eapply lupd_data; [done|apply lookup_insert_eq|]. intros s3 Hs3.
  apply wp_bind. eapply lbwrite; [done|apply lookup_insert_eq|lia|]. rewrite disk_write_eq, Hb, Hcl.
  intros s4 Hs4. apply wp_bind.
  eapply lbrelse; [done|by rewrite lookup_insert_ne, lookup_insert_eq| |].
  { right. by rewrite !disk_write_ne by done. }
  intros s5 Hs5. eapply lbrelse; [done| |right; by rewrite !disk_write_eq|].
  { by rewrite lookup_delete_ne, lookup_insert_eq. }
  intros s6 Hs6. apply HQ.
  rewrite delete_insert_ne in Hs6 by done.
  rewrite (delete_insert_id ∅ (dev, log_blk t)) in Hs6 by apply lookup_empty.
  by rewrite delete_insert_id in Hs6 by apply lookup_empty.
Qed.

Lemma wp_log_block F s l c dv tr D t k Q :
  lview s l c dv tr D ∅ → l_dev l = dev → l_start l = start →
  lh_block l !! t = Some k → 0 ≤ k < FSSIZE → log_blk t < FSSIZE → k ≠ log_blk t →
  (dev, log_blk t) ∉ D → (size D < NBUF)%nat → (dev, k) ∈ D →
  (∀ s', lview s' l (disk_write c dev (log_blk t) (c dev k))
           (disk_write dv dev (log_blk t) (c dev k))
           (tr ++ [(dev, log_blk t, c dev k)]) D ∅ → Q tt s') →
  wp F (log_block t) Q s.
Proof.
  intros Hs Hd Hst Hk Hkr Hlt Hne HnD Hsz HinD HQ.
  assert (dev ≠ NODEV) as Hn by lia. assert (0 ≤ log_blk t) by (unfold log_blk; lia).
  assert ((dev, k) ≠ (dev, log_blk t)) as Hnk by congruence.
  unfold log_block. apply wp_bind. eapply wp_the_log; [done|]. apply wp_bind.
  rewrite Hd, Hst, u32_dev. fold (log_blk t). rewrite (u32_blk (log_blk t)) by done.
  eapply lbread; [done..|apply lookup_empty|right; by rewrite dom_empty_L, union_empty_r_L|].
  intros to s1 Hs1. apply wp_bind. eapply wp_get_block; [by rewrite (proj1 Hs1)|].
  apply wp_bind. rewrite u32_blk by done.
  eapply lbread; [done|done|lia|by rewrite lookup_insert_ne|by left|].
  intros from s2 Hs2. apply wp_bind.
  eapply lget_buf; [done|apply lookup_insert_eq|]. intros b Hb _ _. rewrite Hb.
  apply wp_bind. eapply lupd_data; [done|by rewrite lookup_insert_ne, lookup_insert_eq|].
  intros s3 Hs3. apply wp_bind.
  eapply lbwrite; [done|by rewrite lookup_insert_ne, lookup_insert_eq|done|]. rewrite disk_write_eq.
  replace (D ∖ {[(dev, log_blk t)]}) with D by set_solver.
  intros s4 Hs4. apply wp_bind. eapply lbrelse; [done|apply lookup_insert_eq|by left|].
  intros s5 Hs5.
  eapply lbrelse; [done| |right; by rewrite !disk_write_eq|].
  { by rewrite lookup_delete_ne, lookup_insert_ne, lookup_insert_eq by done. }
  intros s6 Hs6. apply HQ.
  rewrite delete_insert_id, delete_insert_id in Hs6; [done|apply lookup_empty|].
  by rewrite lookup_insert_ne.
Qed.
End Blocks.
