(* ===== verification/LogThm.v ===== *)
(** * Crash safety of the log (log.c)

    The pure side of the argument (what a prefix of the writes of [commit] or
    of recovery leaves on the disk), the loops of log.c, and the theorems: a
    transaction is atomic at every crash point, recovery completes it, and
    recovery may itself crash and be run again. *)
From S2P Require Import Prelude Machine Block Bio Log.

Open Scope Z_scope.

(** A transaction of the file system: [begin_op()], blocks read, changed and
    given to [log_write], and [end_op()]. *)
Definition tx_write (dev : Z) (w : Z * block) : M lstate unit :=
  let! i := on_bc (bread dev w.1) in
  on_bc (upd_data i (λ _, w.2)) ;!
  log_write i ;!
  on_bc (brelse i).
Definition transaction (dev : Z) (ws : list (Z * block)) : M lstate unit :=
  begin_op ;! for_each ws (tx_write dev) ;! end_op.
Definition tx_writes (dev : Z) (ws : list (Z * block)) : list (Z * Z * block) :=
  map (λ w, (dev, w.1, w.2)) ws.


(** The machine after power on: the disk [dv], the zeroed [struct log] and the
    empty cache of [binit]. *)
Definition log0 : log := mkLog 0 0 0 0 0 0 (replicate (Z.to_nat LOGSIZE) 0).
Definition power_on (dv : disk) : lstate := mkLs (binit (mkBc [] [] 1 dv [])) log0.
Definition disk_of (s : lstate) : disk := bc_disk (ls_bc s).

(** ** Writes *)
Lemma writes_app dv w1 w2 : writes dv (w1 ++ w2) = writes (writes dv w1) w2.
Proof. unfold writes. by rewrite foldl_app. Qed.

(** A block that is not written keeps its contents; one that is written does
    not depend on what was there. *)
Lemma writes_ne ws : ∀ dv d k, (∀ x, (d, k, x) ∉ ws) → writes dv ws d k = dv d k.
Proof.
  induction ws as [|[[d' k'] x] ws IH]; intros dv d k H; [done|]. simpl.
  change (writes (disk_write dv d' k' x) ws d k = dv d k). rewrite IH.
  - apply disk_write_ne. intros [= -> ->]. apply (H x), list_elem_of_here.
  - intros y Hy. by apply (H y), list_elem_of_further.
Qed.
Lemma writes_ext ws : ∀ dv dv' d k, dv d k = dv' d k → writes dv ws d k = writes dv' ws d k.
Proof.
  induction ws as [|[[d' k'] y] ws IH]; intros dv dv' d k H; [done|]. simpl. apply IH.
  unfold disk_write. by destruct (_ && _).
Qed.
Lemma writes_in ws : ∀ dv dv' d k x, (d, k, x) ∈ ws → writes dv ws d k = writes dv' ws d k.
Proof.
  induction ws as [|[[d' k'] y] ws IH]; intros dv dv' d k x Hx; [by apply not_elem_of_nil in Hx|].
  apply elem_of_cons in Hx as [[= <- <- <-]|Hx].
  - apply (writes_ext ws (disk_write dv d k x) (disk_write dv' d k x)). by rewrite !disk_write_eq.
  - by eapply (IH (disk_write dv d' k' y) (disk_write dv' d' k' y)).
Qed.
Lemma written_dec (ws : list (Z * Z * block)) d k :
  (∃ x, (d, k, x) ∈ ws) ∨ (∀ x, (d, k, x) ∉ ws).
Proof.
  destruct (decide ((d, k) ∈ ws.*1)) as [([[d' k'] x] & [= <- <-] & H)%list_elem_of_fmap|Hn].
  - eauto.
  - right. intros x Hx. apply Hn, list_elem_of_fmap. by exists (d, k, x).
Qed.
(** Writes to blocks that are written again afterwards do not matter. *)
Lemma writes_absorb dv p ws d k :
  (∀ d k x, (d, k, x) ∈ p → ∃ y, (d, k, y) ∈ ws) →
  writes (writes dv p) ws d k = writes dv ws d k.
Proof.
  intros H. destruct (written_dec ws d k) as [[x Hx]|Hno]; [by eapply writes_in|].
  rewrite !writes_ne; try done. intros x Hx. destruct (H _ _ _ Hx) as [y Hy]. by apply (Hno y).
Qed.

Lemma prefix_app_inv {A} (p l1 l2 : list A) :
  p `prefix_of` l1 ++ l2 → p `prefix_of` l1 ∨ ∃ p', p = l1 ++ p' ∧ p' `prefix_of` l2.
Proof.
  revert p. induction l1 as [|x l1 IH]; intros p Hp; simpl in *; [right; eauto|].
  destruct p as [|y p]; [left; apply prefix_nil|].
  pose proof (prefix_cons_inv_1 _ _ _ _ Hp) as ->. apply prefix_cons_inv_2 in Hp.
  destruct (IH _ Hp) as [H|(p' & -> & H)]; [left; by apply prefix_cons|right; eauto].
Qed.
Lemma prefix_elem_of {A} (p l : list A) x : p `prefix_of` l → x ∈ p → x ∈ l.
Proof. intros [k ->]. rewrite elem_of_app. tauto. Qed.
Lemma prefix_single {A} (p : list A) x : p `prefix_of` [x] → p = [] ∨ p = [x].
Proof.
  destruct p as [|y p]; [by left|]. intros Hp. right.
  pose proof (prefix_cons_inv_1 _ _ _ _ Hp) as ->. apply prefix_cons_inv_2 in Hp.
  apply prefix_nil_inv in Hp as ->. done.
Qed.

(** ** Header blocks *)
Lemma length_fill_head bl : ∀ t d, length (fill_head t bl d) = length d.
Proof. induction bl as [|k bl IH]; intros t d; simpl; [done|]. by rewrite IH, length_put32. Qed.
Lemma length_header bl d : length (header bl d) = length d.
Proof. unfold header. by rewrite length_fill_head, length_put32. Qed.
Lemma fill_head_ne bl : ∀ t d o, (o + 3 < 4 + 4 * t)%nat → get32 (fill_head t bl d) o = get32 d o.
Proof.
  induction bl as [|k bl IH]; intros t d o H; simpl; [done|].
  rewrite IH by lia. apply get32_put32_ne. lia.
Qed.
Lemma fill_head_lookup bl : ∀ t d j k,
  (4 + 4 * (t + length bl) ≤ length d)%nat → bl !! j = Some k →
  get32 (fill_head t bl d) (4 + 4 * (t + j)) = u32 k.
Proof.
  induction bl as [|k' bl IH]; intros t d j k Hl Hj; [done|]. cbn [fill_head].
  cbn [length] in Hl. destruct j as [|j]; simpl in Hj.
  - injection Hj as ->. rewrite Nat.add_0_r, fill_head_ne by lia. apply get32_put32_eq. lia.
  - replace (t + S j)%nat with (S t + j)%nat by lia. apply IH; [|done]. rewrite length_put32. lia.
Qed.

Lemma i32_u32 k : 0 ≤ k < 2 ^ 31 → i32 (u32 k) = k.
Proof. intros H. rewrite u32_small by lia. apply i32_small. lia. Qed.

(** A header reads back as it was written. *)
Lemma head_n_header bl d :
  length d = Z.to_nat BSIZE → (length bl ≤ 30)%nat → head_n (header bl d) = Z.of_nat (length bl).
Proof.
  intros Hd Hl. unfold head_n, header. rewrite fill_head_ne by lia.
  rewrite get32_put32_eq by (rewrite Hd; unfold BSIZE; lia). apply i32_u32. lia.
Qed.
Lemma head_blocks_header bl d :
  length d = Z.to_nat BSIZE → (length bl ≤ 30)%nat → Forall (λ k, 0 ≤ k < FSSIZE) bl →
  head_blocks (header bl d) = bl.
Proof.
  intros Hd Hl Hbl. unfold head_blocks. rewrite head_n_header by done. rewrite Nat2Z.id.
  apply list_eq. intros j. rewrite list_lookup_fmap. destruct (bl !! j) as [k|] eqn:Hj.
  - pose proof (lookup_lt_Some _ _ _ Hj). rewrite lookup_seq_lt by done. simpl. f_equal.
    unfold head_block, header. change (4 + 4 * j)%nat with (4 + 4 * (0 + j))%nat.
    rewrite (fill_head_lookup bl 0 _ j k); [|rewrite length_put32, Hd; unfold BSIZE; lia|done].
    apply i32_u32. pose proof (Forall_lookup_1 _ _ _ _ Hbl Hj) as Hk. simpl in Hk. unfold FSSIZE in Hk. lia.
  - apply lookup_ge_None in Hj. by rewrite lookup_seq_ge.
Qed.

(** ** Crash points *)
Section Crash.
Context (start size_ dev : Z).
Abbreviation log_blk := (log_blk start).
Abbreviation in_log := (in_log start size_).
Abbreviation home := (home start size_).
Abbreviation install_writes := (install_writes start dev).
Abbreviation log_writes := (log_writes start dev).
Abbreviation replay := (replay start dev).
Abbreviation log_ok := (log_ok start size_ dev).

Lemma in_log_start : 0 < size_ → in_log start.
Proof. unfold Log.in_log. lia. Qed.
Lemma in_log_blk t : Z.of_nat t + 1 < size_ → in_log (log_blk t).
Proof. unfold Log.in_log, Log.log_blk. lia. Qed.
Lemma home_not_log k : home k → ¬ in_log k.
Proof. unfold Log.home. tauto. Qed.

Lemma install_writes_in dv bl : ∀ t d k x, (d, k, x) ∈ install_writes dv t bl → d = dev ∧ k ∈ bl.
Proof.
  induction bl as [|k' bl IH]; intros t d k x H; simpl in H; [by apply not_elem_of_nil in H|].
  apply elem_of_cons in H as [[= -> -> _]|H]; [split; [done|apply list_elem_of_here]|].
  apply IH in H as [-> H]. split; [done|by apply list_elem_of_further].
Qed.
Lemma install_writes_key dv bl : ∀ t k, k ∈ bl → ∃ x, (dev, k, x) ∈ install_writes dv t bl.
Proof.
  induction bl as [|k' bl IH]; intros t k H; [by apply not_elem_of_nil in H|]. simpl.
  apply elem_of_cons in H as [->|H]; [eexists; apply list_elem_of_here|].
  destruct (IH (S t) k H) as [x Hx]. exists x. by apply list_elem_of_further.
Qed.
Lemma install_writes_map c dv bl : ∀ t,
  (∀ j k, bl !! j = Some k → dv dev (log_blk (t + j)) = c dev k) →
  install_writes dv t bl = map (λ k, (dev, k, c dev k)) bl.
Proof.
  induction bl as [|k bl IH]; intros t H; [done|]. simpl. f_equal.
  - by rewrite <- (H 0%nat k eq_refl), Nat.add_0_r.
  - apply IH. intros j k' Hj. by rewrite <- (H (S j) k' Hj), Nat.add_succ_r.
Qed.
Lemma install_writes_ext dv dv' bl : ∀ t,
  (∀ j, (j < length bl)%nat → dv dev (log_blk (t + j)) = dv' dev (log_blk (t + j))) →
  install_writes dv t bl = install_writes dv' t bl.
Proof.
  induction bl as [|k bl IH]; intros t H; [done|]. simpl. f_equal.
  - pose proof (H 0%nat ltac:(simpl; lia)) as E. rewrite Nat.add_0_r in E. by rewrite E.
  - apply IH. intros j Hj. pose proof (H (S j) ltac:(simpl; lia)) as E.
    by rewrite Nat.add_succ_r in E.
Qed.
Lemma log_writes_ext (c c' : disk) bl : ∀ t,
  (∀ k, k ∈ bl → c dev k = c' dev k) → log_writes c t bl = log_writes c' t bl.
Proof.
  induction bl as [|k bl IH]; intros t H; [done|]. simpl. f_equal.
  - by rewrite (H k (list_elem_of_here _ _)).
  - apply IH. intros x Hx. by apply H, list_elem_of_further.
Qed.
Lemma log_writes_in c bl : ∀ t d k x, (d, k, x) ∈ log_writes c t bl →
  d = dev ∧ ∃ j, (j < length bl)%nat ∧ k = log_blk (t + j).
Proof.
  induction bl as [|k' bl IH]; intros t d k x H; simpl in H; [by apply not_elem_of_nil in H|].
  apply elem_of_cons in H as [[= -> -> _]|H].
  - split; [done|]. exists 0%nat. rewrite Nat.add_0_r. simpl. split; [lia|done].
  - apply IH in H as [-> (j & Hj & ->)]. split; [done|]. exists (S j).
    rewrite Nat.add_succ_r. simpl. split; [lia|done].
Qed.
Lemma log_writes_lookup c bl : ∀ t dv j k, bl !! j = Some k →
  writes dv (log_writes c t bl) dev (log_blk (t + j)) = c dev k.
Proof.
  induction bl as [|k' bl IH]; intros t dv j k Hj; [done|]. simpl.
  change (writes (disk_write dv dev (log_blk t) (c dev k')) (log_writes c (S t) bl)
    dev (log_blk (t + j)) = c dev k).
  destruct j as [|j]; simpl in Hj.
  - injection Hj as ->. rewrite Nat.add_0_r, writes_ne; [apply disk_write_eq|].
    intros x (_ & j & _ & E)%log_writes_in. unfold Log.log_blk in E. lia.
  - rewrite <- (IH (S t) (disk_write dv dev (log_blk t) (c dev k')) j k Hj).
    by rewrite Nat.add_succ_r.
Qed.
Lemma map_writes_key (c : disk) bl d k x : (d, k, x) ∈ map (λ k, (dev, k, c dev k)) bl → k ∈ bl.
Proof.
  intros H. apply list_elem_of_In, List.in_map_iff in H as (k' & E & H).
  injection E as _ -> _. by apply list_elem_of_In.
Qed.
Lemma map_writes_in (c : disk) bl dv k :
  k ∈ bl → writes dv (map (λ k, (dev, k, c dev k)) bl) dev k = c dev k.
Proof.
  revert dv. induction bl as [|k' bl IH]; intros dv H; [by apply not_elem_of_nil in H|]. simpl.
  change (writes (disk_write dv dev k' (c dev k')) (map (λ k, (dev, k, c dev k)) bl) dev k = c dev k).
  destruct (decide (k ∈ bl)) as [Hk|Hk]; [by apply IH|].
  apply elem_of_cons in H as [->|H]; [|done]. rewrite writes_ne; [apply disk_write_eq|].
  by intros x ?%map_writes_key.
Qed.
Lemma map_writes_ne (c : disk) bl dv k :
  k ∉ bl → writes dv (map (λ k, (dev, k, c dev k)) bl) dev k = dv dev k.
Proof.
  intros H. apply writes_ne. by intros x ?%map_writes_key.
Qed.

Hypothesis Hsize : 0 < size_.

Lemma replay_empty e : head_n (e dev start) = 0 → replay e = e.
Proof. intros H. unfold Log.replay, head_blocks. by rewrite H. Qed.
Lemma log_ok_empty e :
  length (e dev start) = Z.to_nat BSIZE → head_n (e dev start) = 0 → log_ok e.
Proof.
  intros Hl H. split; [done|]. split; [rewrite H; unfold LOGSIZE, MAXOPBLOCKS; lia|].
  unfold head_blocks. by rewrite H.
Qed.
Lemma length_head_blocks d : length (head_blocks d) = Z.to_nat (head_n d).
Proof. unfold head_blocks. by rewrite length_fmap, length_seq. Qed.

(** Writes of home blocks do not touch the log. *)
Lemma home_writes_log e ws k :
  (∀ d k x, (d, k, x) ∈ ws → home k) → in_log k → writes e ws dev k = e dev k.
Proof. intros H Hk. apply writes_ne. intros x Hx%H. by apply home_not_log in Hx. Qed.

(** The header says [hb], the log holds the contents, and any of the home
    blocks may already have been installed. *)
Lemma replay_partial dv p hb :
  log_ok dv → head_blocks (dv dev start) = hb → p `prefix_of` install_writes dv 0 hb →
  log_ok (writes dv p) ∧ ∀ k, replay (writes dv p) dev k = replay dv dev k.
Proof.
  intros (Hl & Hn & Hh) Hhb Hp.
  assert (∀ d k x, (d, k, x) ∈ p → home k) as Hph.
  { intros d k x Hx. apply (prefix_elem_of _ _ _ Hp), install_writes_in in Hx as [_ Hx].
    rewrite Hhb in Hh. by eapply Forall_forall in Hx; [|exact Hh]. }
  assert (writes dv p dev start = dv dev start) as Hst.
  { apply home_writes_log; [done|by apply in_log_start]. }
  split; [unfold Log.log_ok; by rewrite Hst|]. intros k. unfold Log.replay. rewrite Hst, Hhb.
  assert (install_writes (writes dv p) 0 hb = install_writes dv 0 hb) as ->.
  { apply install_writes_ext. intros j Hj. apply home_writes_log; [done|]. apply in_log_blk.
    rewrite <- Hhb, length_head_blocks in Hj. lia. }
  apply writes_absorb. intros d k' x Hx. exists x. by eapply prefix_elem_of.
Qed.

(** The end of recovery and of a commit: an empty header. *)
Lemma header_cleared e :
  length (e dev start) = Z.to_nat BSIZE →
  let e' := disk_write e dev start (header [] (e dev start)) in
  length (e' dev start) = Z.to_nat BSIZE ∧ head_n (e' dev start) = 0 ∧
  ∀ k, ¬ in_log k → e' dev k = e dev k.
Proof.
  intros Hl. simpl. rewrite disk_write_eq, length_header. split_and!; [done|by apply head_n_header; simpl; lia|].
  intros k Hk. apply disk_write_ne. intros [= ->]. by apply Hk, in_log_start.
Qed.

Lemma installed_start dv :
  log_ok dv → writes dv (install_writes dv 0 (head_blocks (dv dev start))) dev start = dv dev start.
Proof.
  intros (_ & _ & Hh). apply home_writes_log; [|by apply in_log_start].
  intros d k x [_ Hx]%install_writes_in. by eapply Forall_forall in Hx; [|exact Hh].
Qed.
Lemma recovery_prefix dv p :
  log_ok dv → p `prefix_of` recovery_writes start dev dv →
  log_ok (writes dv p) ∧ ∀ k, ¬ in_log k → replay (writes dv p) dev k = replay dv dev k.
Proof.
  intros Hok [Hp|(p' & -> & Hp)]%prefix_app_inv.
  - destruct (replay_partial _ _ _ Hok eq_refl Hp) as [H1 H2]. auto.
  - apply prefix_single in Hp as [->| ->].
    { rewrite app_nil_r. destruct (replay_partial _ _ _ Hok eq_refl (reflexivity _)) as [H1 H2]. auto. }
    destruct (replay_partial _ _ _ Hok eq_refl (reflexivity _)) as [(Hl1 & _) _].
    rewrite writes_app. set (e := writes dv _) in *. simpl writes.
    assert (e dev start = dv dev start) as Hst by by apply installed_start.
    rewrite <- Hst. destruct (header_cleared e Hl1) as (C1 & C2 & C3).
    split; [by apply log_ok_empty|]. intros k Hk. rewrite replay_empty by done. by apply C3.
Qed.

(** The result of a complete recovery. *)
Lemma recovery_result dv :
  log_ok dv →
  let e := writes dv (recovery_writes start dev dv) in
  length (e dev start) = Z.to_nat BSIZE ∧ head_n (e dev start) = 0 ∧
  ∀ k, ¬ in_log k → e dev k = replay dv dev k.
Proof.
  intros Hok. destruct (recovery_prefix dv _ Hok (reflexivity _)) as [(Hl & _) Hr].
  destruct (replay_partial _ _ _ Hok eq_refl (reflexivity _)) as [(Hl1 & _) _].
  simpl. unfold recovery_writes in *. rewrite writes_app in *. set (e := writes dv _) in *.
  assert (e dev start = dv dev start) as Hst by by apply installed_start.
  simpl writes in *. rewrite <- Hst in *. destruct (header_cleared e Hl1) as (C1 & C2 & C3).
  split_and!; [done..|]. intros k Hk. rewrite <- (Hr k Hk). by rewrite replay_empty.
Qed.

(** ** Crash points of a commit *)
Section Commit.
Context (c dv : disk) (bl : list Z).
Hypothesis Hlen : length (dv dev start) = Z.to_nat BSIZE.
Hypothesis Hempty : head_n (dv dev start) = 0.
Hypothesis Hbl : Z.of_nat (length bl) < Z.min size_ LOGSIZE.
Hypothesis Hhome : Forall home bl.
Hypothesis Hclean : ∀ k, ¬ in_log k → k ∉ bl → c dev k = dv dev k.

Lemma commit_bl_range : Forall (λ k, 0 ≤ k < FSSIZE) bl.
Proof. eapply Forall_impl; [done|]. intros k (H & _). done. Qed.
Lemma commit_bl_30 : (length bl ≤ 30)%nat.
Proof. unfold LOGSIZE, MAXOPBLOCKS in Hbl. lia. Qed.

Lemma log_writes_region d k x : (d, k, x) ∈ log_writes c 0 bl → in_log k ∧ k ≠ start.
Proof.
  intros (_ & j & Hj & ->)%log_writes_in. split; [apply in_log_blk; simpl; lia|].
  unfold Log.log_blk. lia.
Qed.

(** Before the header is written the log says nothing. *)
Lemma commit_prefix_log p :
  p `prefix_of` log_writes c 0 bl →
  log_ok (writes dv p) ∧ ∀ k, ¬ in_log k → replay (writes dv p) dev k = dv dev k.
Proof.
  intros Hp.
  assert (writes dv p dev start = dv dev start) as Hst.
  { apply writes_ne. intros x Hx%(prefix_elem_of _ _ _ Hp)%log_writes_region. tauto. }
  split; [apply log_ok_empty; by rewrite Hst|]. intros k Hk.
  rewrite replay_empty by (by rewrite Hst). apply writes_ne.
  intros x Hx%(prefix_elem_of _ _ _ Hp)%log_writes_region. tauto.
Qed.

(** The disk at the commit point. *)
Definition committed : disk :=
  disk_write (writes dv (log_writes c 0 bl)) dev start (header bl (dv dev start)).
Lemma committed_head : head_blocks (committed dev start) = bl.
Proof.
  unfold committed. rewrite disk_write_eq.
  apply head_blocks_header; [done|apply commit_bl_30|apply commit_bl_range].
Qed.
Lemma committed_ok : log_ok committed.
Proof.
  unfold Log.log_ok. rewrite committed_head. unfold committed. rewrite disk_write_eq, length_header.
  split; [done|]. split; [|done]. rewrite head_n_header by (done || apply commit_bl_30). lia.
Qed.
Lemma committed_installs : install_writes committed 0 bl = map (λ k, (dev, k, c dev k)) bl.
Proof.
  apply install_writes_map. intros j k Hj. unfold committed. rewrite disk_write_ne.
  - by apply log_writes_lookup.
  - intros [= E]. unfold Log.log_blk in E. lia.
Qed.
Lemma committed_replay k : ¬ in_log k → replay committed dev k = c dev k.
Proof.
  intros Hk. unfold Log.replay. rewrite committed_head, committed_installs.
  destruct (decide (k ∈ bl)) as [Hin|Hin]; [by apply map_writes_in|].
  rewrite map_writes_ne, Hclean by done. unfold committed.
  rewrite disk_write_ne by (intros [= ->]; by apply Hk, in_log_start).
  apply writes_ne. intros x [Hx _]%log_writes_region. done.
Qed.

Lemma commit_writes_split :
  commit_writes start dev c dv bl =
  (log_writes c 0 bl ++ [(dev, start, header bl (dv dev start))]) ++ recovery_writes start dev committed.
Proof.
  unfold commit_writes, recovery_writes. rewrite committed_head, committed_installs.
  unfold committed. by rewrite disk_write_eq, <- app_assoc.
Qed.

(** At every crash point of a commit the disk can be recovered, and stands for
    the contents before or after the transaction. *)
Lemma commit_prefix p :
  p `prefix_of` commit_writes start dev c dv bl →
  log_ok (writes dv p) ∧
  ((∀ k, ¬ in_log k → replay (writes dv p) dev k = dv dev k) ∨
   (∀ k, ¬ in_log k → replay (writes dv p) dev k = c dev k)).
Proof.
  rewrite commit_writes_split. intros [Hp|(p' & -> & Hp)]%prefix_app_inv.
  - apply prefix_app_inv in Hp as [Hp|(p1 & -> & [->| ->]%prefix_single)].
    + destruct (commit_prefix_log _ Hp). auto.
    + rewrite app_nil_r. destruct (commit_prefix_log _ (reflexivity _)). auto.
    + rewrite writes_app. split; [apply committed_ok|right]. apply committed_replay.
  - rewrite !writes_app. change (writes (writes dv _) [_]) with committed.
    destruct (recovery_prefix _ _ committed_ok Hp) as [H1 H2]. split; [done|right].
    intros k Hk. rewrite H2 by done. by apply committed_replay.
Qed.
Lemma commit_result :
  let e := writes dv (commit_writes start dev c dv bl) in
  length (e dev start) = Z.to_nat BSIZE ∧ head_n (e dev start) = 0 ∧
  ∀ k, ¬ in_log k → e dev k = c dev k.
Proof.
  simpl. rewrite commit_writes_split, !writes_app.
  change (writes (writes dv _) [_]) with committed.
  destruct (recovery_result _ committed_ok) as (H1 & H2 & H3). split_and!; [done..|].
  intros k Hk. rewrite H3 by done. by apply committed_replay.
Qed.
End Commit.
End Crash.

(** ** The loops of log.c *)
Definition keyset (dev : Z) (bl : list Z) : gset (Z * Z) := list_to_set (map (pair dev) bl).
Definition blocks_at (l : log) (t : nat) (bl : list Z) : Prop :=
  ∀ j k, bl !! j = Some k → lh_block l !! (t + j)%nat = Some k.

Lemma elem_of_keyset dev bl d k : (d, k) ∈ keyset dev bl ↔ d = dev ∧ k ∈ bl.
Proof.
  unfold keyset. rewrite elem_of_list_to_set, list_elem_of_In, List.in_map_iff. split.
  - intros (x & [= <- <-] & H). by rewrite list_elem_of_In.
  - intros [-> H]. exists k. by rewrite <- list_elem_of_In.
Qed.
Lemma size_keyset dev bl : (size (keyset dev bl) ≤ length bl)%nat.
Proof.
  unfold keyset. induction bl as [|k bl IH]; [done|]. cbn [map length].
  rewrite list_to_set_cons, size_union_alt, size_singleton.
  assert (size (list_to_set (map (pair dev) bl) ∖ {[(dev, k)]} : gset (Z * Z)) ≤
          size (list_to_set (map (pair dev) bl) : gset (Z * Z)))%nat
    by (apply subseteq_size; set_solver). lia.
Qed.
Lemma keyset_cons_diff dev k bl : k ∉ bl → keyset dev (k :: bl) ∖ {[(dev, k)]} = keyset dev bl.
Proof.
  intros Hk. apply set_eq. intros [d x].
  rewrite elem_of_difference, !elem_of_keyset, elem_of_singleton, elem_of_cons.
  split; [|intros [-> Hx]; split; [tauto|congruence]]. intros [[-> [->|H]] Hne]; [done|done].
Qed.
Lemma blocks_at_tail l t k bl : blocks_at l t (k :: bl) → blocks_at l (S t) bl.
Proof.
  intros H j x Hj. specialize (H (S j) x Hj). by rewrite Nat.add_succ_r in H.
Qed.
Lemma blocks_at_head l t k bl : blocks_at l t (k :: bl) → lh_block l !! t = Some k.
Proof. intros H. specialize (H 0%nat k eq_refl). by rewrite Nat.add_0_r in H. Qed.

Section Loops.
Context (start size_ dev : Z).
Hypothesis Hdev : 0 ≤ dev < NODEV.
Hypothesis Hstart : 1 < start.
Hypothesis Hsize : 0 < size_.
Hypothesis Hend : start + size_ ≤ FSSIZE.
Abbreviation log_blk := (log_blk start).
Abbreviation in_log := (in_log start size_).
Abbreviation home := (home start size_).

Definition geometry (l : log) : Prop := l_dev l = dev ∧ l_start l = start ∧ l_size l = size_.
(** The dirty blocks are none (recovery) or those still to be installed. *)
Definition to_install (D : gset (Z * Z)) (bl : list Z) : Prop :=
  D = ∅ ∨ NoDup bl ∧ D = keyset dev bl.

Lemma to_install_size D bl : to_install D bl → (length bl < 30)%nat → (size D < NBUF)%nat.
Proof.
  intros [->|[_ ->]] Hl; unfold NBUF; [rewrite size_empty; lia|].
  pose proof (size_keyset dev bl). lia.
Qed.
Lemma to_install_log D bl k : to_install D bl → Forall home bl → in_log k → (dev, k) ∉ D.
Proof.
  intros [->|[_ ->]] Hh Hk; [set_solver|]. rewrite elem_of_keyset. intros [_ Hx].
  eapply Forall_forall in Hx; [|exact Hh]. by apply home_not_log in Hx.
Qed.

Lemma wp_install_loop F l bl : ∀ s t c dv tr D Q,
  lview s l c dv tr D ∅ → geometry l → blocks_at l t bl → Forall home bl →
  (t + length bl < 30)%nat → Z.of_nat (t + length bl) < size_ → to_install D bl →
  (∀ s', lview s' l (writes c (install_writes start dev dv t bl))
           (writes dv (install_writes start dev dv t bl))
           (tr ++ install_writes start dev dv t bl) ∅ ∅ → Q tt s') →
  wp F (for_each (seq t (length bl)) install_block) Q s.
Proof.
  induction bl as [|k bl IH]; intros s t c dv tr D Q Hs (Hd & Hst & Hsz) Hb Hh Hl Hls HD HQ.
  - apply HQ. rewrite app_nil_r. by destruct HD as [->|[_ ->]].
  - cbn [length seq for_each]. apply Forall_cons in Hh as [Hk Hh]. cbn [length] in *.
    assert (in_log (log_blk t)) as Hil by (apply in_log_blk; lia).
    pose proof (home_not_log _ _ _ Hk) as Hkn. pose proof (proj1 Hk) as Hkr.
    apply wp_bind. eapply (wp_install_block start dev Hdev ltac:(lia)); [done..| | | | | | | |].
    + by eapply blocks_at_head.
    + done.
    + unfold Log.in_log in Hil. lia.
    + intros ->. done.
    + eapply to_install_log; [done|by constructor|done].
    + eapply to_install_size; [done|simpl; lia].
    + destruct HD as [->|[_ ->]]; [right; rewrite size_empty; unfold NBUF; lia|left].
      apply elem_of_keyset. split; [done|apply list_elem_of_here].
    + intros s1 Hs1.
      assert (install_writes start dev dv (S t) bl =
        install_writes start dev (disk_write dv dev k (dv dev (log_blk t))) (S t) bl) as E.
      { apply install_writes_ext. intros j Hj. symmetry. apply disk_write_ne. intros [= E].
        apply Hkn. rewrite <- E. apply in_log_blk. lia. }
      eapply IH; [exact Hs1|done|by eapply blocks_at_tail|done|lia|lia| |].
      * destruct HD as [->|[Hnd ->]]; [left; set_solver|right].
        apply NoDup_cons in Hnd as [Hnk Hnd]. by rewrite keyset_cons_diff.
      * rewrite <- E, <- app_assoc. simpl. exact HQ.
Qed.

Lemma wp_log_loop F l bl D : ∀ s t c dv tr Q,
  lview s l c dv tr D ∅ → geometry l → blocks_at l t bl → Forall home bl →
  Z.of_nat (t + length bl) < size_ → (size D < NBUF)%nat → (∀ k, in_log k → (dev, k) ∉ D) →
  (∀ k, k ∈ bl → (dev, k) ∈ D) →
  (∀ s', lview s' l (writes c (log_writes start dev c t bl))
           (writes dv (log_writes start dev c t bl))
           (tr ++ log_writes start dev c t bl) D ∅ → Q tt s') →
  wp F (for_each (seq t (length bl)) log_block) Q s.
Proof.
  induction bl as [|k bl IH]; intros s t c dv tr Q Hs (Hd & Hst & Hsz) Hb Hh Hls HD Hnl HinD HQ.
  - apply HQ. by rewrite app_nil_r.
  - cbn [length seq for_each]. apply Forall_cons in Hh as [Hk Hh]. cbn [length] in *.
    assert (in_log (log_blk t)) as Hil by (apply in_log_blk; lia).
    pose proof (home_not_log _ _ _ Hk) as Hkn. pose proof (proj1 Hk) as Hkr.
    apply wp_bind. eapply (wp_log_block start dev Hdev ltac:(lia)); [done..| | | | | | | |].
    + by eapply blocks_at_head.
    + done.
    + unfold Log.in_log in Hil. lia.
    + intros ->. done.
    + by apply Hnl.
    + done.
    + apply HinD, list_elem_of_here.
    + intros s1 Hs1.
      assert (log_writes start dev c (S t) bl =
        log_writes start dev (disk_write c dev (log_blk t) (c dev k)) (S t) bl) as E.
      { apply log_writes_ext. intros x Hx. symmetry. apply disk_write_ne. intros [= ->].
        eapply Forall_forall in Hx; [|exact Hh]. by apply home_not_log in Hx. }
      eapply IH; [exact Hs1|done|by eapply blocks_at_tail|done|lia|done|done| |].
      * intros x Hx. by apply HinD, list_elem_of_further.
      * rewrite <- E, <- app_assoc. simpl. exact HQ.
Qed.

(** *** The header *)
Lemma lview_ext s l c c' dv tr D B :
  lview s l c dv tr D B → (∀ d k, c d k = c' d k) → lview s l c' dv tr D B.
Proof.
  intros [Hl [Hw Hc Hdv Htr HD HB]] H. split; [done|]. split; try done.
  intros d k Hd. by rewrite <- H, Hc.
Qed.
Lemma disk_write_twice (c : disk) d k x y d' k' :
  disk_write (disk_write c d k x) d k y d' k' = disk_write c d k y d' k'.
Proof. unfold disk_write. by destruct (_ && _). Qed.

Lemma wp_fill_loop F l i B bl : ∀ s t c dv tr D d Q,
  lview s l (disk_write c dev start d) dv tr D B → B !! (dev, start) = Some i →
  blocks_at l t bl →
  (∀ s', lview s' l (disk_write c dev start (fill_head t bl d)) dv tr D B → Q tt s') →
  wp F (for_each (seq t (length bl))
    (λ t, let! k := get_block t in on_bc (upd_data i (put32 (4 + 4 * t) k)))) Q s.
Proof.
  induction bl as [|k bl IH]; intros s t c dv tr D d Q Hs HB Hb HQ; [by apply HQ|].
  cbn [length seq for_each]. apply wp_bind, wp_bind.
  eapply wp_get_block; [rewrite (proj1 Hs); by eapply blocks_at_head|].
  eapply lupd_data; [done..|]. rewrite disk_write_eq. intros s1 Hs1.
  eapply IH; [|done|by eapply blocks_at_tail|exact HQ].
  eapply lview_ext; [exact Hs1|]. apply disk_write_twice.
Qed.

Lemma wp_for_tail F s l body m Q :
  ls_log s = l → lh_n l = Z.of_nat m → wp F (for_each (seq 0 m) body) Q s →
  wp F (for_tail body) Q s.
Proof.
  intros <- Hn H. unfold for_tail. apply wp_bind, wp_gets. by rewrite Hn, Nat2Z.id.
Qed.

Lemma u32_start : u32 start = start.
Proof. apply u32_blk. lia. Qed.

Lemma wp_write_head F s l c dv tr D bl Q :
  lview s l c dv tr D ∅ → geometry l → lh_n l = Z.of_nat (length bl) → blocks_at l 0 bl →
  (dev, start) ∉ D → (size D < NBUF)%nat →
  (∀ s', lview s' l (disk_write c dev start (header bl (dv dev start)))
           (disk_write dv dev start (header bl (dv dev start)))
           (tr ++ [(dev, start, header bl (dv dev start))]) D ∅ → Q tt s') →
  wp F write_head Q s.
Proof.
  intros Hs (Hd & Hst & Hsz) Hn Hb HnD HD HQ. assert (dev ≠ NODEV) as Hdn by lia.
  pose proof (cview_clean _ _ _ _ _ _ _ _ (proj2 Hs) Hdn HnD (lookup_empty _)) as Hcl.
  unfold write_head. apply wp_bind. eapply wp_the_log; [done|]. apply wp_bind.
  rewrite Hd, Hst, (u32_dev dev Hdev), u32_start, Hn.
  eapply lbread; [done|done|lia|apply lookup_empty|right; by rewrite dom_empty_L, union_empty_r_L|].
  intros i s1 Hs1. apply wp_bind. eapply lupd_data; [done|apply lookup_insert_eq|].
  intros s2 Hs2. apply wp_bind. eapply wp_for_tail; [apply Hs2|done|].
  eapply wp_fill_loop; [exact Hs2|apply lookup_insert_eq|done|]. rewrite Hcl.
  change (fill_head 0 bl (put32 0 (Z.of_nat (length bl)) (dv dev start)))
    with (header bl (dv dev start)).
  intros s3 Hs3. apply wp_bind. eapply lbwrite; [done|apply lookup_insert_eq|lia|].
  rewrite disk_write_eq. replace (D ∖ {[(dev, start)]}) with D by set_solver.
  intros s4 Hs4. eapply lbrelse; [done|apply lookup_insert_eq|right; by rewrite !disk_write_eq|].
  intros s5 Hs5. apply HQ. by rewrite delete_insert_id in Hs5 by apply lookup_empty.
Qed.

Lemma wp_set_blocks F d m : ∀ s l t Q,
  ls_log s = l → (t + m ≤ length (lh_block l))%nat →
  (∀ bs, length bs = length (lh_block l) →
     (∀ j, (j < t)%nat → bs !! j = lh_block l !! j) →
     (∀ j, (t ≤ j < t + m)%nat → bs !! j = Some (head_block d j)) →
     Q tt (set_log (with_block bs l) s)) →
  wp F (for_each (seq t m) (λ t, set_block t (head_block d t))) Q s.
Proof.
  induction m as [|m IH]; intros s l t Q Hl Hlen HQ; cbn [seq for_each].
  - apply wp_skip. specialize (HQ (lh_block l)).
    replace (set_log (with_block (lh_block l) l) s) with s in HQ
      by (destruct s as [bc ll]; simpl in *; subst; by destruct l).
    apply HQ; [done|done|lia].
  - apply wp_bind. unfold set_block. apply wp_bind, wp_gets. rewrite Hl.
    rewrite (proj2 (Nat.ltb_lt _ _)) by lia. apply wp_upd_log. rewrite Hl.
    eapply IH; [done|simpl; rewrite length_insert; lia|]. simpl. rewrite length_insert.
    intros bs Hbl H1 H2. apply HQ; [done| |].
    + intros j Hj. rewrite H1 by lia. apply list_lookup_insert_ne. lia.
    + intros j Hj. destruct (decide (j = t)) as [->|Hne]; [|apply H2; lia].
      rewrite H1 by lia. apply list_lookup_insert_eq. lia.
Qed.

Lemma wp_read_head F s l c dv tr Q :
  lview s l c dv tr ∅ ∅ → geometry l → log_ok start size_ dev dv →
  length (lh_block l) = Z.to_nat LOGSIZE →
  (∀ l' s', lview s' l' c dv tr ∅ ∅ → geometry l' →
     lh_n l' = Z.of_nat (length (head_blocks (dv dev start))) →
     blocks_at l' 0 (head_blocks (dv dev start)) → length (lh_block l') = Z.to_nat LOGSIZE →
     l_outstanding l' = l_outstanding l → l_committing l' = l_committing l → Q tt s') →
  wp F read_head Q s.
Proof.
  intros Hs (Hd & Hst & Hsz) (Hbs & Hn & _) Hlen HQ. assert (dev ≠ NODEV) as Hdn by lia.
  assert ((dev, start) ∉ (∅ : gset (Z * Z))) as HnD by set_solver.
  pose proof (cview_clean _ _ _ _ _ _ _ _ (proj2 Hs) Hdn HnD (lookup_empty _)) as Hcl.
  unfold read_head. apply wp_bind. eapply wp_the_log; [done|]. apply wp_bind.
  rewrite Hd, Hst, (u32_dev dev Hdev), u32_start.
  eapply lbread; [done|done|lia|apply lookup_empty|right; apply empty_room|].
  intros i s1 Hs1. apply wp_bind. eapply lget_buf; [done|apply lookup_insert_eq|].
  intros b Hb _ _. rewrite Hb, Hcl. apply wp_bind, wp_upd_log. rewrite (proj1 Hs1).
  apply wp_bind. eapply (wp_for_tail _ _ _ _ (Z.to_nat (head_n (dv dev start))));
    [done|simpl; lia|].
  eapply wp_set_blocks; [done|simpl; lia|]. intros bs Hbl _ Hget. cbn [lh_block with_n] in *.
  eapply lbrelse; [split; [done|apply Hs1]|apply lookup_insert_eq|right; by rewrite Hcl|].
  intros s2 Hs2. rewrite delete_insert_id in Hs2 by apply lookup_empty.
  eapply HQ; [exact Hs2|done| | |simpl in *; by rewrite Hbl|done|done].
  - simpl. rewrite length_head_blocks. lia.
  - intros j k Hj. simpl. unfold head_blocks in Hj.
    apply list_lookup_fmap_Some in Hj as (j' & -> & Hj').
    apply lookup_seq in Hj' as [-> Hj']. apply Hget. lia.
Qed.

(** *** Recovery *)
Lemma wp_recover F s l c dv tr Q :
  lview s l c dv tr ∅ ∅ → geometry l → log_ok start size_ dev dv →
  length (lh_block l) = Z.to_nat LOGSIZE →
  (∀ l' c' s', lview s' l' c' (writes dv (recovery_writes start dev dv))
                 (tr ++ recovery_writes start dev dv) ∅ ∅ →
     geometry l' → lh_n l' = 0 → length (lh_block l') = Z.to_nat LOGSIZE →
     l_outstanding l' = l_outstanding l → l_committing l' = l_committing l → Q tt s') →
  wp F recover_from_log Q s.
Proof.
  intros Hs Hg Hok Hlen HQ. unfold recover_from_log. apply wp_bind.
  eapply wp_read_head; [done..|]. intros l1 s1 Hs1 Hg1 Hn1 Hb1 Hl1 Ho1 Hc1. apply wp_bind.
  eapply wp_for_tail; [apply Hs1|done|].
  pose proof (length_head_blocks (dv dev start)) as Hlh. pose proof Hok as (_ & Hn & Hh).
  unfold LOGSIZE, MAXOPBLOCKS in Hn.
  eapply wp_install_loop; [exact Hs1|done|done|done|lia|lia|by left|].
  intros s2 [Hl2 Hv2]. apply wp_bind, wp_upd_log. rewrite Hl2.
  eapply (wp_write_head F _ (with_n 0 l1) _ _ _ ∅ []); [split; [done|exact Hv2]|done|done|done|set_solver| |].
  { rewrite size_empty. unfold NBUF. lia. }
  rewrite (installed_start start size_ dev Hsize dv Hok). intros s3 Hs3. rewrite <- app_assoc in Hs3.
  eapply HQ; [unfold recovery_writes; rewrite writes_app; exact Hs3|done..].
Qed.

Definition on_disk (dv : disk) : Prop :=
  i32 (sb_logstart (decode_sb (dv dev 1))) = start ∧ i32 (sb_nlog (decode_sb (dv dev 1))) = size_.

Lemma wp_initlog F bc l dv Q :
  bc_havedisk1 bc ≠ 0 → bc_disk bc = dv → on_disk dv → log_ok start size_ dev dv →
  length (lh_block l) = Z.to_nat LOGSIZE →
  (∀ l' c' s', lview s' l' c' (writes dv (recovery_writes start dev dv))
                 (bc_trace bc ++ recovery_writes start dev dv) ∅ ∅ →
     geometry l' → lh_n l' = 0 → length (lh_block l') = Z.to_nat LOGSIZE →
     l_outstanding l' = l_outstanding l → l_committing l' = l_committing l → Q tt s') →
  wp F (initlog dev) Q (mkLs (binit bc) l).
Proof.
  intros Hdk Hdv [Hsb1 Hsb2] Hok Hlen HQ. assert (dev ≠ NODEV) as Hdn by lia.
  pose proof (cview_binit bc Hdk) as Hv. rewrite Hdv in Hv.
  unfold initlog. simpl (BSIZE <=? sizeof_logheader).
  apply wp_bind, wp_on_bc. unfold readsb. apply wp_bind. rewrite (u32_dev dev Hdev).
  eapply wp_bread; [exact Hv|done|done|apply lookup_empty|right; apply empty_room|].
  intros i s1 Hv1. pose proof (lookup_insert_eq (∅ : gmap (Z * Z) nat) (dev, 1) i) as HB.
  destruct (content_held _ _ _ _ _ _ _ _ _ Hv1 HB) as (b & Hi & _ & _ & _ & _ & Hdat & _).
  apply wp_bind. eapply wp_get_buf; [done|]. apply wp_bind.
  eapply wp_brelse; [exact Hv1|done|by right|]. intros s2 Hv2.
  rewrite delete_insert_id in Hv2 by apply lookup_empty.
  apply wp_ret. rewrite Hdat. apply wp_bind, wp_upd_log. rewrite Hsb1, Hsb2.
  eapply wp_recover; [split; [done|exact Hv2]|done|done|done|exact HQ].
Qed.

(** *** Commit *)
Lemma wp_commit F s l c dv tr bl Q :
  lview s l c dv tr (keyset dev bl) ∅ → geometry l → lh_n l = Z.of_nat (length bl) →
  blocks_at l 0 bl → NoDup bl → Forall home bl → bl ≠ [] →
  Z.of_nat (length bl) < Z.min size_ LOGSIZE →
  length (dv dev start) = Z.to_nat BSIZE →
  (∀ c' s', lview s' (with_n 0 l) c' (writes dv (commit_writes start dev c dv bl))
              (tr ++ commit_writes start dev c dv bl) ∅ ∅ → Q tt s') →
  wp F commit Q s.
Proof.
  intros Hs Hg Hn Hb Hnd Hh Hne Hl Hlen HQ.
  pose proof Hl as Hl30. unfold LOGSIZE, MAXOPBLOCKS in Hl30.
  assert (size (keyset dev bl) < NBUF)%nat as HD
    by (unfold NBUF; pose proof (size_keyset dev bl); lia).
  assert (∀ k, in_log k → (dev, k) ∉ keyset dev bl) as Hnl.
  { intros k Hk. eapply to_install_log; [by right|done|done]. }
  unfold commit. apply wp_bind. eapply wp_the_log; [done|]. rewrite Hn.
  rewrite (proj2 (Z.ltb_lt _ _)) by (destruct bl; [done|simpl; lia]).
  apply wp_bind. eapply wp_for_tail; [apply Hs|done|].
  eapply wp_log_loop; [exact Hs|done|done|done|simpl; lia|done|done| |].
  { intros k Hk. by apply elem_of_keyset. }
  intros s1 Hs1. apply wp_bind.
  eapply wp_write_head; [exact Hs1|done|done|done|by apply Hnl, in_log_start|done|].
  assert (writes dv (log_writes start dev c 0 bl) dev start = dv dev start) as Hst.
  { apply writes_ne. intros x Hx.
    apply (log_writes_region start size_ dev c dv bl Hlen Hl) in Hx. tauto. }
  rewrite Hst. change (disk_write (writes dv _) dev start _) with (committed start dev c dv bl).
  intros s2 Hs2. apply wp_bind. eapply wp_for_tail; [apply Hs2|done|].
  eapply wp_install_loop; [exact Hs2|done|done|done|simpl; lia|simpl; lia|by right|].
  intros s3 [Hl3 Hv3]. apply wp_bind, wp_upd_log. rewrite Hl3.
  eapply (wp_write_head F _ (with_n 0 l) _ _ _ ∅ []); [split; [done|exact Hv3]|done|done|done|set_solver| |].
  { rewrite size_empty. unfold NBUF. lia. }
  assert (log_ok start size_ dev (committed start dev c dv bl)) as Hok.
  { by apply committed_ok. }
  assert (head_blocks (committed start dev c dv bl dev start) = bl) as Hhb.
  { by apply (committed_head start size_). }
  pose proof (installed_start start size_ dev Hsize _ Hok) as Hst2. rewrite Hhb in Hst2.
  rewrite Hst2. intros s4 Hs4. eapply HQ.
  rewrite (commit_writes_split start size_) by done.
  unfold recovery_writes. rewrite !writes_app, Hhb.
  change (writes (writes dv (log_writes start dev c 0 bl)) [_]) with (committed start dev c dv bl).
  rewrite <- !app_assoc in Hs4. rewrite <- !app_assoc. exact Hs4.
Qed.

(** *** Transactions *)

(** Inside a transaction of [o] operations that has changed the blocks [bl] and
    holds the buffers [B]. *)
Record in_txn (o : Z) (s : lstate) (c dv : disk) (tr : list (Z * Z * block)) (bl : list Z)
    (B : gmap (Z * Z) nat) : Prop := {
  it_view : lview s (ls_log s) c dv tr (keyset dev bl) B;
  it_geo : geometry (ls_log s);
  it_n : lh_n (ls_log s) = Z.of_nat (length bl);
  it_blocks : blocks_at (ls_log s) 0 bl;
  it_len : length (lh_block (ls_log s)) = Z.to_nat LOGSIZE;
  it_nodup : NoDup bl;
  it_home : Forall home bl;
  it_out : l_outstanding (ls_log s) = o;
  it_com : l_committing (ls_log s) = 0;
  it_op : 1 ≤ o }.
Abbreviation in_tx := (in_txn 1).

(** Between transactions: the log is empty in memory and on the disk, nothing
    is dirty or busy. *)
Record idle (s : lstate) (dv : disk) (tr : list (Z * Z * block)) : Prop := {
  id_view : ∃ c, lview s (ls_log s) c dv tr ∅ ∅;
  id_geo : geometry (ls_log s);
  id_n : lh_n (ls_log s) = 0;
  id_len : length (lh_block (ls_log s)) = Z.to_nat LOGSIZE;
  id_out : l_outstanding (ls_log s) = 0;
  id_com : l_committing (ls_log s) = 0;
  id_block : length (dv dev start) = Z.to_nat BSIZE;
  id_head : head_n (dv dev start) = 0 }.

Lemma absorb_in k bl :
  Forall (λ x, 0 ≤ x < FSSIZE) bl → k ∈ bl → bl !! absorb_index k bl = Some k.
Proof.
  induction bl as [|x bl IH]; intros Hr Hk; [by apply not_elem_of_nil in Hk|]. simpl.
  apply Forall_cons in Hr as [Hx Hr]. rewrite u32_blk by done.
  destruct (Z.eqb_spec x k) as [->|Hne]; [done|].
  apply elem_of_cons in Hk as [->|Hk]; [done|]. by apply IH.
Qed.
Lemma absorb_out k bl :
  Forall (λ x, 0 ≤ x < FSSIZE) bl → k ∉ bl → absorb_index k bl = length bl.
Proof.
  induction bl as [|x bl IH]; intros Hr Hk; [done|]. simpl.
  apply Forall_cons in Hr as [Hx Hr]. rewrite u32_blk by done.
  apply not_elem_of_cons in Hk as [Hne Hk].
  destruct (Z.eqb_spec x k) as [->|_]; [done|]. by rewrite IH.
Qed.
Lemma blocks_at_take l bl : blocks_at l 0 bl → take (length bl) (lh_block l) = bl.
Proof.
  intros H. apply list_eq. intros j. destruct (bl !! j) as [k|] eqn:Hj.
  - rewrite lookup_take_lt by (by eapply lookup_lt_Some). by apply (H j k).
  - apply lookup_ge_None in Hj. by rewrite lookup_take_ge.
Qed.

(** The blocks of the transaction after [log_write] of block [k]. *)
Definition absorb (k : Z) (bl : list Z) : list Z := if decide (k ∈ bl) then bl else bl ++ [k].

Lemma log_write_index l bl k :
  blocks_at l 0 bl → Forall home bl → (length bl < length (lh_block l))%nat →
  let j := absorb_index k bl in
  (j < length (lh_block l))%nat ∧ blocks_at (with_block (<[j := k]> (lh_block l)) l) 0 (absorb k bl) ∧
  ((j = length bl ∧ k ∉ bl) ∨ ((j < length bl)%nat ∧ k ∈ bl)).
Proof.
  intros Hb Hh Hl j.
  assert (Forall (λ x, 0 ≤ x < FSSIZE) bl) as Hr by (eapply Forall_impl; [done|]; by intros x [Hx _]).
  unfold absorb. case_decide as Hk.
  - pose proof (absorb_in k bl Hr Hk) as Hj. pose proof (lookup_lt_Some _ _ _ Hj) as Hlt.
    split_and!; [subst j; lia| |right; split; done].
    intros i x Hi. simpl. specialize (Hb i x Hi). simpl in Hb.
    destruct (decide (i = j)) as [->|Hne]; [|by rewrite list_lookup_insert_ne].
    rewrite list_lookup_insert_eq by (subst j; lia). subst j. congruence.
  - pose proof (absorb_out k bl Hr Hk) as Hj. subst j. rewrite Hj.
    split_and!; [done| |left; done].
    intros i x [Hi|[? Hi]]%lookup_app_Some; simpl.
    + rewrite list_lookup_insert_ne; [by apply (Hb i x)|]. apply lookup_lt_Some in Hi. lia.
    + apply list_lookup_singleton_Some in Hi as [Hi <-].
      replace i with (length bl) by lia. by rewrite list_lookup_insert_eq.
Qed.
Lemma absorb_keyset k bl : keyset dev (absorb k bl) = keyset dev bl ∪ {[(dev, k)]}.
Proof.
  apply set_eq. intros [d x]. unfold absorb.
  rewrite elem_of_union, elem_of_singleton, !elem_of_keyset. case_decide as Hk.
  - split; [tauto|]. intros [H|[= -> ->]]; tauto.
  - rewrite elem_of_app, list_elem_of_singleton. split; [|intros [H|[= -> ->]]; tauto].
    intros [-> [H| ->]]; tauto.
Qed.
Lemma absorb_nodup k bl : NoDup bl → NoDup (absorb k bl).
Proof.
  intros H. unfold absorb. case_decide as Hk; [done|].
  apply list.NoDup_app. split_and!; [done| |apply NoDup_singleton].
  intros x Hx ->%list_elem_of_singleton. done.
Qed.
Lemma absorb_home k bl : home k → Forall home bl → Forall home (absorb k bl).
Proof.
  intros Hk H. unfold absorb. case_decide; [done|]. apply Forall_app. split; [done|by constructor].
Qed.
Lemma absorb_elem k bl : k ∈ absorb k bl.
Proof. unfold absorb. case_decide; [done|]. apply elem_of_app. right. by apply list_elem_of_singleton. Qed.
Lemma absorb_subset k bl j : j ∈ bl → j ∈ absorb k bl.
Proof. intros H. unfold absorb. case_decide; [done|]. apply elem_of_app. by left. Qed.
Lemma absorb_length k bl : (length (absorb k bl) ≤ S (length bl))%nat.
Proof. unfold absorb. case_decide; [lia|]. rewrite length_app. simpl. lia. Qed.

(** Rules for the operations inside a transaction. *)
Lemma in_tx_view {o} s s' c c' dv tr bl B B' :
  in_txn o s c dv tr bl B → lview s' (ls_log s) c' dv tr (keyset dev bl) B' → in_txn o s' c' dv tr bl B'.
Proof.
  intros [Hs Hg Hn Hb Hlen Hnd Hh Ho Hc] Hs'. pose proof (proj1 Hs') as E.
  split; by rewrite ?E.
Qed.
Lemma in_tx_held {o} s c dv tr bl B k :
  in_txn o s c dv tr bl B → B !! (dev, k) = None → k ∈ bl ∨ c dev k = dv dev k.
Proof.
  intros [[_ Hv] _ _ _ _ _ _ _ _] HB. destruct (decide (k ∈ bl)) as [|Hk]; [by left|right].
  eapply cview_clean; [exact Hv|lia| |done]. rewrite elem_of_keyset. tauto.
Qed.
Lemma tx_bread {o} F s c dv tr bl B k Q :
  in_txn o s c dv tr bl B → 0 ≤ k < FSSIZE → B !! (dev, k) = None →
  (k ∈ bl ∨ (length bl + size B < 30)%nat) →
  (∀ i s', in_txn o s' c dv tr bl (<[(dev, k) := i]> B) → Q i s') →
  wp F (on_bc (bread dev k)) Q s.
Proof.
  intros Hin Hk HB Hroom HQ. eapply lbread; [apply Hin|lia|lia|done| |].
  - destruct Hroom as [Hk'|Hroom]; [left; by apply elem_of_keyset|right].
    rewrite size_union_alt. pose proof (size_keyset dev bl).
    assert (size (dom B ∖ keyset dev bl) ≤ size (dom B))%nat by (apply subseteq_size; set_solver).
    rewrite size_dom in *. unfold NBUF. lia.
  - intros i s' Hs'. apply HQ. by eapply in_tx_view.
Qed.
Lemma tx_get_buf {o} F s c dv tr bl B k i Q :
  in_txn o s c dv tr bl B → B !! (dev, k) = Some i → (∀ b, b_data b = c dev k → Q b s) →
  wp F (on_bc (get_buf i)) Q s.
Proof. intros Hin HB HQ. eapply lget_buf; [apply Hin|done|]. intros b Hb _ _. by apply HQ. Qed.
Lemma tx_upd_data {o} F s c dv tr bl B k i f Q :
  in_txn o s c dv tr bl B → B !! (dev, k) = Some i →
  (∀ s', in_txn o s' (disk_write c dev k (f (c dev k))) dv tr bl B → Q tt s') →
  wp F (on_bc (upd_data i f)) Q s.
Proof.
  intros Hin HB HQ. eapply lupd_data; [apply Hin|done|]. intros s' Hs'. apply HQ.
  by eapply in_tx_view.
Qed.
Lemma tx_brelse {o} F s c dv tr bl B k i Q :
  in_txn o s c dv tr bl B → B !! (dev, k) = Some i → (k ∈ bl ∨ c dev k = dv dev k) →
  (∀ s', in_txn o s' c dv tr bl (delete (dev, k) B) → Q tt s') →
  wp F (on_bc (brelse i)) Q s.
Proof.
  intros Hin HB Hk HQ. eapply lbrelse; [apply Hin|done| |].
  - destruct Hk as [Hk|Hk]; [left; by apply elem_of_keyset|by right].
  - intros s' Hs'. apply HQ. by eapply in_tx_view.
Qed.
Lemma tx_log_write {o} F s c dv tr bl B k i Q :
  in_txn o s c dv tr bl B → B !! (dev, k) = Some i → home k →
  Z.of_nat (length bl) < Z.min (size_ - 1) 29 →
  (∀ s', in_txn o s' c dv tr (absorb k bl) B → Q tt s') → wp F (log_write i) Q s.
Proof.
  intros [Hs Hg Hn Hb Hlen Hnd Hh Ho Hc Hop] HB Hk Hl HQ.
  pose proof (proj1 Hk) as Hkr. unfold LOGSIZE, MAXOPBLOCKS in Hlen.
  unfold log_write. apply wp_bind. eapply wp_the_log; [done|].
  rewrite Hn, Ho, (proj2 (proj2 Hg)).
  rewrite (proj2 (Z.leb_gt LOGSIZE _)), (proj2 (Z.leb_gt (size_ - 1) _)) by (unfold LOGSIZE, MAXOPBLOCKS; lia).
  rewrite (proj2 (Z.ltb_ge o 1)) by done. simpl. apply wp_bind. eapply lget_buf; [exact Hs|done|]. intros b _ _ ->.
  rewrite Nat2Z.id, blocks_at_take by done.
  destruct (log_write_index (ls_log s) bl k Hb Hh ltac:(lia)) as (Hj & Hb' & Hcase).
  rewrite i32_small by (unfold FSSIZE in *; lia).
  apply wp_bind. unfold set_block. apply wp_bind. eapply wp_the_log; [exact Hs|].
  rewrite (proj2 (Nat.ltb_lt _ _)) by done. apply wp_upd_log. apply wp_bind.
  set (l1 := with_block (<[absorb_index k bl := k]> (lh_block (ls_log s))) (ls_log s)) in *.
  set (l2 := with_n (Z.of_nat (length (absorb k bl))) l1).
  eapply wp_mono with (Q := λ _ s3, lview s3 l2 c dv tr (keyset dev bl) B).
  { unfold l2, absorb. destruct Hcase as [[Ej Hk']|[Hlt Hk']].
    - rewrite Ej, Z.eqb_refl, decide_False by done. apply wp_upd_log. split; [|apply Hs].
      unfold l1. rewrite Ej, length_app, Nat2Z.inj_add. done.
    - rewrite (proj2 (Z.eqb_neq _ _)), decide_True by (done || lia). apply wp_skip.
      split; [|apply Hs]. unfold set_log, ls_log at 1, l1, with_n, with_block. simpl. by rewrite Hn. }
  intros [] s3 Hs3. apply wp_on_bc.
  eapply wp_pin; [apply Hs3|done|]. intros b1 Hv4. rewrite <- absorb_keyset in Hv4.
  apply HQ. assert (ls_log (set_bc b1 s3) = l2) as E5 by apply Hs3.
  split; rewrite ?E5; try done.
  - simpl. rewrite length_insert. done.
  - by apply absorb_nodup.
  - by apply absorb_home.
Qed.

Lemma wp_tx_write {o} F s c dv tr bl k x Q :
  in_txn o s c dv tr bl ∅ → home k → Z.of_nat (length bl) < Z.min (size_ - 1) 29 →
  (∀ s', in_txn o s' (disk_write c dev k x) dv tr (absorb k bl) ∅ → Q tt s') →
  wp F (tx_write dev (k, x)) Q s.
Proof.
  intros Hin Hk Hl HQ. unfold tx_write. simpl. apply wp_bind.
  eapply tx_bread; [done|apply Hk|apply lookup_empty|right; rewrite map_size_empty; lia|].
  intros i s1 Hs1. apply wp_bind. eapply tx_upd_data; [done|apply lookup_insert_eq|].
  intros s2 Hs2. apply wp_bind. eapply tx_log_write; [done|apply lookup_insert_eq|done|done|].
  intros s3 Hs3. eapply tx_brelse; [done|apply lookup_insert_eq|left; apply absorb_elem|].
  intros s4 Hs4. apply HQ. by rewrite delete_insert_id in Hs4 by apply lookup_empty.
Qed.

Lemma wp_tx_writes {o} F ws : ∀ s c dv tr bl Q,
  in_txn o s c dv tr bl ∅ → Forall (λ w, home w.1) ws →
  Z.of_nat (length bl + length ws) ≤ Z.min (size_ - 1) 29 →
  (∀ s' bl', in_txn o s' (writes c (tx_writes dev ws)) dv tr bl' ∅ →
     Z.of_nat (length bl') ≤ Z.min (size_ - 1) 29 → Q tt s') →
  wp F (for_each ws (tx_write dev)) Q s.
Proof.
  induction ws as [|[k x] ws IH]; intros s c dv tr bl Q Hs Hh Hl HQ; cbn [for_each length] in *.
  - apply wp_skip. eapply HQ; [done|lia].
  - apply Forall_cons in Hh as [Hk Hh]. apply wp_bind.
    eapply wp_tx_write; [done|done|lia|]. intros s1 Hs1. eapply IH; [done|done| |exact HQ].
    pose proof (absorb_length k bl). lia.
Qed.
(** Writes of different blocks that were not in the log. *)
Lemma wp_tx_fresh {o} F ws : ∀ s c dv tr bl Q,
  in_txn o s c dv tr bl ∅ → Forall (λ w, home w.1) ws → NoDup (bl ++ map fst ws) →
  Z.of_nat (length bl + length ws) ≤ Z.min (size_ - 1) 29 →
  (∀ s' c', in_txn o s' c' dv tr (bl ++ map fst ws) ∅ → Q tt s') →
  wp F (for_each ws (tx_write dev)) Q s.
Proof.
  induction ws as [|[k x] ws IH]; intros s c dv tr bl Q Hs Hh Hnd Hl HQ; cbn [for_each length map fst] in *.
  - apply wp_skip. rewrite app_nil_r in HQ. by eapply HQ.
  - apply Forall_cons in Hh as [Hk Hh]. apply wp_bind. eapply wp_tx_write; [done|done|lia|]. intros s1 Hs1.
    assert (absorb k bl = bl ++ [k]) as Ea.
    { unfold absorb. rewrite decide_False; [done|]. intros Hin. apply list.NoDup_app in Hnd as (_ & Hd & _).
      apply (Hd k Hin), list_elem_of_here. }
    rewrite Ea in Hs1. rewrite (cons_middle k bl (map fst ws)), app_assoc in Hnd, HQ.
    eapply IH; [exact Hs1|done|done| |exact HQ]. rewrite length_app. simpl. lia.
Qed.
(** The log is full. *)
Lemma full_log_panics {o} s c dv tr bl k x :
  in_txn o s c dv tr bl ∅ → home k → (length bl < 30)%nat → size_ - 1 ≤ Z.of_nat (length bl) →
  tx_write dev (k, x) s = Panic "too big a transaction".
Proof.
  intros Hin Hk Hl Hfull.
  destruct (wp_ok (let! i := on_bc (bread dev k) in on_bc (upd_data i (λ _, x)) ;! ret i)
    (λ i s', ∃ c', in_txn o s' c' dv tr bl {[(dev, k) := i]}) s) as (i & s' & E & c' & Hin').
  { apply wp_bind. eapply tx_bread; [done|apply Hk|apply lookup_empty|right; rewrite map_size_empty; lia|].
    intros i s1 Hs1. apply wp_bind. eapply tx_upd_data; [done|apply lookup_insert_eq|]. intros s2 Hs2. apply wp_ret. eauto. }
  unfold tx_write. cbn [fst snd]. unfold bind in E |- *. destruct (on_bc (bread dev k) s) as [[i1 s1]| | |]; [|done..].
  destruct (on_bc (upd_data i1 _) s1) as [[[] s2]| | |]; [|done..]. injection E as -> ->.
  unfold log_write, bind, the_log, gets. destruct Hin' as [_ (_ & _ & Hsz) Hn _ _ _ _ _ _ _].
  rewrite Hn, Hsz, (proj2 (Z.leb_le _ _) Hfull), orb_true_r. done.
Qed.

(** The writes of a transaction: those of its commit, if it changed anything. *)
Definition tx_trace (c dv : disk) (bl : list Z) : list (Z * Z * block) :=
  match bl with [] => [] | _ => commit_writes start dev c dv bl end.

Lemma in_tx_clean s c dv tr bl k : in_tx s c dv tr bl ∅ → k ∉ bl → c dev k = dv dev k.
Proof.
  intros [[_ Hv] _ _ _ _ _ _ _ _] Hk. eapply cview_clean; [exact Hv|lia| |apply lookup_empty].
  rewrite elem_of_keyset. tauto.
Qed.

Lemma wp_end_op F s c dv tr bl Q :
  in_tx s c dv tr bl ∅ → Z.of_nat (length bl) ≤ Z.min (size_ - 1) 29 →
  length (dv dev start) = Z.to_nat BSIZE → head_n (dv dev start) = 0 →
  (∀ s', idle s' (writes dv (tx_trace c dv bl)) (tr ++ tx_trace c dv bl) → Q tt s') →
  wp F end_op Q s.
Proof.
  intros Hin Hl Hlen He HQ.
  assert (∀ k, k ∉ bl → c dev k = dv dev k) as Hcl by (intros k; by eapply in_tx_clean).
  destruct Hin as [[_ Hv] Hg Hn Hb Hll Hnd Hh Ho Hc].
  unfold end_op. apply wp_bind, wp_upd_log, wp_bind, wp_gets. simpl. rewrite Hc, Ho. simpl.
  apply wp_bind, wp_upd_log, wp_bind.
  destruct bl as [|k0 bl0] eqn:Ebl.
  - unfold commit. apply wp_bind, wp_gets. simpl. rewrite Hn. apply wp_skip, wp_upd_log, HQ.
    simpl. rewrite app_nil_r. split; simpl; try done. exists c. split; [done|]. exact Hv.
  - rewrite <- Ebl in *. assert (Z.of_nat (length bl) < Z.min size_ LOGSIZE) as Hl'
      by (unfold LOGSIZE, MAXOPBLOCKS; lia).
    eapply wp_commit; [split; [done|exact Hv]|done|done|done|done|done|by subst|done|done|].
    intros c' s1 [Hl1 Hv1]. apply wp_upd_log, HQ. rewrite Hl1.
    replace (tx_trace c dv bl) with (commit_writes start dev c dv bl) by (by rewrite Ebl).
    destruct (commit_result start size_ dev Hsize c dv bl) as (R1 & R2 & _); try done.
    { intros k _. apply Hcl. }
    split; simpl; try done. exists c'. split; [done|]. exact Hv1.
Qed.

(** Crash points of a transaction. *)
Lemma tx_prefix c dv bl p :
  length (dv dev start) = Z.to_nat BSIZE → head_n (dv dev start) = 0 →
  Z.of_nat (length bl) ≤ Z.min (size_ - 1) 29 → Forall home bl →
  (∀ k, k ∉ bl → c dev k = dv dev k) → p `prefix_of` tx_trace c dv bl →
  log_ok start size_ dev (writes dv p) ∧
  ((∀ k, ¬ in_log k → replay start dev (writes dv p) dev k = dv dev k) ∨
   (∀ k, ¬ in_log k → replay start dev (writes dv p) dev k = c dev k)).
Proof.
  intros Hlen He Hl Hh Hcl Hp. destruct bl as [|k0 bl0] eqn:Ebl.
  - apply prefix_nil_inv in Hp as ->. split; [by apply log_ok_empty|left].
    intros k _. by rewrite replay_empty.
  - rewrite <- Ebl in *. apply (commit_prefix start size_ dev Hsize c dv bl); try done.
    + unfold LOGSIZE, MAXOPBLOCKS. lia.
    + intros k _. apply Hcl.
    + by rewrite Ebl in *.
Qed.
Lemma tx_result c dv bl k :
  length (dv dev start) = Z.to_nat BSIZE → Z.of_nat (length bl) ≤ Z.min (size_ - 1) 29 →
  head_n (dv dev start) = 0 → Forall home bl →
  (∀ k, k ∉ bl → c dev k = dv dev k) → ¬ in_log k → writes dv (tx_trace c dv bl) dev k = c dev k.
Proof.
  intros Hlen Hl He Hh Hcl Hk. destruct bl as [|k0 bl0] eqn:Ebl.
  - simpl. symmetry. apply Hcl, not_elem_of_nil.
  - rewrite <- Ebl in *. replace (tx_trace c dv bl) with (commit_writes start dev c dv bl) by (by rewrite Ebl).
    destruct (commit_result start size_ dev Hsize c dv bl) as (_ & _ & R); try done.
    + unfold LOGSIZE, MAXOPBLOCKS. lia.
    + intros k' _. apply Hcl.
    + by apply R.
Qed.

(** The superblock is never written. *)
Lemma tx_trace_sb c dv bl p : Forall home bl → p `prefix_of` tx_trace c dv bl →
  Z.of_nat (length bl) ≤ Z.min (size_ - 1) 29 → writes dv p dev 1 = dv dev 1.
Proof.
  intros Hh Hp Hl. apply writes_ne. intros x Hx%(prefix_elem_of _ _ _ Hp).
  assert ((dev, 1, x) ∈ commit_writes start dev c dv bl) as Hx' by (destruct bl; [set_solver|done]).
  unfold commit_writes in Hx'. rewrite elem_of_app, elem_of_cons, elem_of_app, list_elem_of_singleton in Hx'.
  destruct Hx' as [(_ & j & _ & E)%log_writes_in|[[= E]|[Hm%map_writes_key|[= E]]]].
  - unfold Log.log_blk in E. lia.
  - lia.
  - eapply Forall_forall in Hm; [|exact Hh]. destruct Hm as (_ & ? & _). done.
  - lia.
Qed.
End Loops.

(** ** Theorems *)
Abbreviation in_tx start size_ dev := (in_txn start size_ dev 1).
Definition log_geometry (start size_ dev : Z) : Prop :=
  0 ≤ dev < NODEV ∧ 1 < start ∧ 0 < size_ ∧ start + size_ ≤ FSSIZE.

Lemma initlog_ok start size_ dev dv :
  log_geometry start size_ dev → on_disk start size_ dev dv → log_ok start size_ dev dv →
  ∃ s', initlog dev (power_on dv) = Ret (tt, s') ∧
    disk_of s' = writes dv (recovery_writes start dev dv) ∧
    bc_trace (ls_bc s') = recovery_writes start dev dv ∧
    idle start size_ dev s' (disk_of s') (bc_trace (ls_bc s')).
Proof.
  intros (Hd & Hs & Hsz & He) Hsb Hok.
  destruct (wp_ok (initlog dev) (λ _ s',
    disk_of s' = writes dv (recovery_writes start dev dv) ∧
    bc_trace (ls_bc s') = recovery_writes start dev dv ∧
    idle start size_ dev s' (disk_of s') (bc_trace (ls_bc s'))) (power_on dv))
    as ([] & s' & E & H); [|eauto].
  eapply (wp_initlog start size_ dev); try done.
  intros l' c' s' [El Hv] Hg Hn Hlen Ho Hc. unfold disk_of.
  rewrite (cv_disk _ _ _ _ _ _ Hv), (cv_trace _ _ _ _ _ _ Hv). split_and!; [done..|].
  destruct (recovery_result start size_ dev Hsz dv Hok) as (R1 & R2 & _).
  split; rewrite ?El; try done. exists c'. done.
Qed.

(** The block writes of a transaction that logged [bl]: what they leave, and
    what a reboot after a prefix of them finds. *)
Lemma tx_crash start size_ dev c' dv bl :
  log_geometry start size_ dev → on_disk start size_ dev dv → Forall (home start size_) bl →
  Z.of_nat (length bl) ≤ Z.min (size_ - 1) 29 → (∀ k, k ∉ bl → c' dev k = dv dev k) →
  length (dv dev start) = Z.to_nat BSIZE → head_n (dv dev start) = 0 →
  (∀ k, ¬ in_log start size_ k → writes dv (tx_trace start dev c' dv bl) dev k = c' dev k) ∧
  ∀ P, P `prefix_of` tx_trace start dev c' dv bl →
    ∃ s2, initlog dev (power_on (writes dv P)) = Ret (tt, s2) ∧
      ((∀ k, ¬ in_log start size_ k → disk_of s2 dev k = dv dev k) ∨
       (∀ k, ¬ in_log start size_ k → disk_of s2 dev k = c' dev k)).
Proof.
  intros Hgeo Hsb Hbh Hbl' Hcl Hbl He. pose proof Hgeo as (Hd & Hs & Hsz & Hend). split.
  - intros k Hk. by rewrite (tx_result start size_ dev).
  - intros P HP. destruct (tx_prefix start size_ dev Hsz c' dv bl P) as [Hok Hcase]; try done.
    destruct (initlog_ok start size_ dev (writes dv P) Hgeo) as (s2 & E2 & D2 & _); [|done|].
    { unfold on_disk. by rewrite (tx_trace_sb start size_ dev Hd Hs Hsz Hend c' dv bl P). }
    exists s2. split; [done|]. rewrite D2.
    destruct (recovery_result start size_ dev Hsz _ Hok) as (_ & _ & R).
    destruct Hcase as [Hc1|Hc1]; [left|right]; intros k Hk; by rewrite R, Hc1 by done.
Qed.
(** [begin_op] on an idle log. *)
Lemma wp_begin_idle F start size_ dev s dv tr (Q : unit → lstate → Prop) :
  log_geometry start size_ dev → idle start size_ dev s dv tr →
  (∀ s' c, in_tx start size_ dev s' c dv tr [] ∅ → (∀ k, c dev k = dv dev k) → Q tt s') →
  wp F begin_op Q s.
Proof.
  intros (Hd & _) [[c [_ Hv]] Hg Hn Hlen Ho Hc Hbl He] HQ.
  unfold begin_op. apply wp_bind, wp_gets. rewrite Hc, Hn, Ho. apply wp_upd_log.
  eapply HQ; [split; simpl; try done; constructor|].
  intros k. eapply cview_clean; [exact Hv|lia|set_solver|apply lookup_empty].
Qed.

(** Claim C4: transactions are atomic under crashes.  From an idle log, a
    transaction that writes up to [min (size - 1) 29] home blocks returns,
    leaves the log idle and the disk with all of its writes.  If the machine
    stops instead after any prefix of the block writes of the run, the next
    boot's [initlog] returns, and every block outside the log then has either
    the contents before the transaction, for all blocks, or the contents after
    it, for all blocks. *)
Theorem transaction_atomic start size_ dev s dv tr ws :
  log_geometry start size_ dev → on_disk start size_ dev dv →
  idle start size_ dev s dv tr →
  Forall (λ w, home start size_ w.1) ws → Z.of_nat (length ws) ≤ Z.min (size_ - 1) 29 →
  ∃ s' W, transaction dev ws s = Ret (tt, s') ∧
    idle start size_ dev s' (writes dv W) (tr ++ W) ∧
    (∀ k, ¬ in_log start size_ k → writes dv W dev k = writes dv (tx_writes dev ws) dev k) ∧
    ∀ P, P `prefix_of` W →
      ∃ s2, initlog dev (power_on (writes dv P)) = Ret (tt, s2) ∧
        ((∀ k, ¬ in_log start size_ k → disk_of s2 dev k = dv dev k) ∨
         (∀ k, ¬ in_log start size_ k → disk_of s2 dev k = writes dv (tx_writes dev ws) dev k)).
Proof.
  intros Hgeo Hsb Hid Hh Hl. pose proof Hgeo as (Hd & Hs & Hsz & Hend).
  set (new := writes dv (tx_writes dev ws)).
  destruct (wp_ok (transaction dev ws) (λ _ s', ∃ c' bl, Forall (home start size_) bl ∧
    Z.of_nat (length bl) ≤ Z.min (size_ - 1) 29 ∧ (∀ k, k ∉ bl → c' dev k = dv dev k) ∧
    (∀ k, c' dev k = new dev k) ∧
    idle start size_ dev s' (writes dv (tx_trace start dev c' dv bl)) (tr ++ tx_trace start dev c' dv bl)) s)
    as ([] & s' & E & c' & bl & Hbh & Hbl' & Hcl & Hnew & Hid').
  { unfold transaction. apply wp_bind. eapply wp_begin_idle; [done..|]. intros s1 c Hin Hc. apply wp_bind.
    eapply (wp_tx_writes start size_ dev Hd Hs Hsz Hend _ ws _ c dv tr []); [done|done|simpl; lia|].
    intros s2 bl Hin2 Hb'. eapply wp_end_op; [done..|apply Hid|apply Hid|]. intros s3 Hid3.
    exists (writes c (tx_writes dev ws)), bl. split_and!; [apply Hin2|done| | |done].
    - intros k. eapply (in_tx_clean start size_ dev); try done.
    - intros k. by apply writes_ext. }
  exists s', (tx_trace start dev c' dv bl).
  destruct (tx_crash start size_ dev c' dv bl) as [H1 H2]; try done; [apply Hid..|].
  split_and!; [done|done| |].
  - intros k Hk. rewrite H1 by done. apply Hnew.
  - intros P HP. destruct (H2 P HP) as (s2 & E2 & [Hc|Hc]); exists s2; (split; [done|]); [by left|right].
    intros k Hk. rewrite Hc by done. apply Hnew.
Qed.

(** A file system disk as mkfs lays it out: 30 log blocks from block 2 on. *)
Definition wit_disk : disk := λ d k,
  if k =? 1 then put32 16 2 (put32 12 30 zero_block) else zero_block.
Definition wit_log : lstate :=
  mkLs (binit (mkBc [] [] 1 wit_disk [])) (mkLog 2 30 0 0 1 0 (replicate (Z.to_nat LOGSIZE) 0)).

Lemma wit_idle : idle 2 30 1 wit_log wit_disk [].
Proof.
  split; try done. exists wit_disk. split; [done|].
  by apply (cview_binit (mkBc [] [] 1 wit_disk [])).
Qed.
Lemma wit_geometry : log_geometry 2 30 1.
Proof. unfold log_geometry, NODEV, FSSIZE. lia. Qed.
Lemma wit_on_disk : on_disk 2 30 1 wit_disk.
Proof. vm_compute. done. Qed.
Lemma wit_home k : (31 <? k) && (k <? 1000) = true → home 2 30 k.
Proof. intros H. bool_to_prop. unfold home, in_log, FSSIZE. lia. Qed.

Lemma transaction_atomic_witness :
  ∃ s' W, transaction 1 [(100, [7]); (200, [8]); (100, [9])] wit_log = Ret (tt, s') ∧
    idle 2 30 1 s' (writes wit_disk W) ([] ++ W) ∧
    (∀ k, ¬ in_log 2 30 k → writes wit_disk W 1 k =
       writes wit_disk (tx_writes 1 [(100, [7]); (200, [8]); (100, [9])]) 1 k) ∧
    ∀ P, P `prefix_of` W →
      ∃ s2, initlog 1 (power_on (writes wit_disk P)) = Ret (tt, s2) ∧
        ((∀ k, ¬ in_log 2 30 k → disk_of s2 1 k = wit_disk 1 k) ∨
         (∀ k, ¬ in_log 2 30 k → disk_of s2 1 k =
            writes wit_disk (tx_writes 1 [(100, [7]); (200, [8]); (100, [9])]) 1 k)).
Proof.
  apply (transaction_atomic 2 30 1 wit_log wit_disk []).
  - apply wit_geometry.
  - apply wit_on_disk.
  - apply wit_idle.
  - repeat constructor; by apply wit_home.
  - simpl. lia.
Defined.

(** Claim C14: recovery completes the committed transaction and can be
    interrupted.  From any disk whose log can be replayed, [initlog] returns with
    the log idle and every block outside the log as the replayed log says; and if
    the machine stops after any prefix of the writes of this recovery, the next
    [initlog] returns with the same contents. *)
Theorem recovery_restartable start size_ dev dv :
  log_geometry start size_ dev → on_disk start size_ dev dv → log_ok start size_ dev dv →
  ∃ s', initlog dev (power_on dv) = Ret (tt, s') ∧
    idle start size_ dev s' (disk_of s') (bc_trace (ls_bc s')) ∧
    (∀ k, ¬ in_log start size_ k → disk_of s' dev k = replay start dev dv dev k) ∧
    ∀ P, P `prefix_of` bc_trace (ls_bc s') →
      ∃ s2, initlog dev (power_on (writes dv P)) = Ret (tt, s2) ∧
        ∀ k, ¬ in_log start size_ k → disk_of s2 dev k = disk_of s' dev k.
Proof.
  intros Hgeo Hsb Hok. pose proof Hgeo as (Hd & Hs & Hsz & Hend).
  destruct (initlog_ok start size_ dev dv Hgeo Hsb Hok) as (s' & E & D' & T & Hid).
  destruct (recovery_result start size_ dev Hsz dv Hok) as (_ & _ & R).
  exists s'. split_and!; [done|done|by rewrite D'|]. rewrite T. intros P HP.
  destruct (recovery_prefix start size_ dev Hsz dv P Hok HP) as [HokP RP].
  destruct (initlog_ok start size_ dev (writes dv P) Hgeo) as (s2 & E2 & D2 & _); [|done|].
  { unfold on_disk. rewrite writes_ne; [done|]. intros x Hx%(prefix_elem_of _ _ _ HP).
    unfold recovery_writes in Hx. apply elem_of_app in Hx as [[_ Hx]%install_writes_in|Hx].
    - destruct Hok as (_ & _ & Hh). eapply Forall_forall in Hx; [|exact Hh].
      destruct Hx as (_ & ? & _). done.
    - apply list_elem_of_singleton in Hx. injection Hx. lia. }
  exists s2. split; [done|]. intros k Hk. rewrite D2, D'.
  destruct (recovery_result start size_ dev Hsz _ HokP) as (_ & _ & R2). by rewrite R2, RP, R.
Qed.

(** A disk with a committed transaction that is not installed yet: block 100. *)
Definition wit_committed : disk :=
  disk_write (disk_write wit_disk 1 3 [7]) 1 2 (header [100] zero_block).
Lemma recovery_restartable_witness :
  ∃ s', initlog 1 (power_on wit_committed) = Ret (tt, s') ∧
    idle 2 30 1 s' (disk_of s') (bc_trace (ls_bc s')) ∧
    (∀ k, ¬ in_log 2 30 k → disk_of s' 1 k = replay 2 1 wit_committed 1 k) ∧
    ∀ P, P `prefix_of` bc_trace (ls_bc s') →
      ∃ s2, initlog 1 (power_on (writes wit_committed P)) = Ret (tt, s2) ∧
        ∀ k, ¬ in_log 2 30 k → disk_of s2 1 k = disk_of s' 1 k.
Proof.
  apply (recovery_restartable 2 30 1 wit_committed).
  - apply wit_geometry.
  - vm_compute. done.
  - split; [vm_compute; done|]. split; [vm_compute; done|].
    replace (head_blocks (wit_committed 1 2)) with [100] by (vm_compute; reflexivity).
    repeat constructor; by apply wit_home.
Defined.

(** [begin_op] admits three operations on an idle log. *)
Lemma wp_begin_three F start size_ dev s dv tr (Q : unit → lstate → Prop) :
  log_geometry start size_ dev → idle start size_ dev s dv tr →
  (∀ s' c, in_txn start size_ dev 3 s' c dv tr [] ∅ → Q tt s') →
  wp F (begin_op ;! begin_op ;! begin_op) Q s.
Proof.
  intros (Hd & _) [[c [_ Hv]] Hg Hn Hlen Ho Hc Hbl He] HQ.
  unfold begin_op. apply wp_bind, wp_bind, wp_gets. rewrite Hc, Hn, Ho. apply wp_upd_log.
  apply wp_bind, wp_bind, wp_gets. simpl. rewrite Hc, Hn. apply wp_upd_log.
  apply wp_bind, wp_gets. simpl. rewrite Hc, Hn. apply wp_upd_log.
  eapply HQ. split; simpl; try done. constructor.
Qed.
(** Claim C40: the reservation of [begin_op] is one block too generous.  On any
    idle log of 30 blocks, the size that mkfs makes, [begin_op] lets three
    operations in at once, each promised [MAXOPBLOCKS] = 10 blocks.  Let them
    write, together and in any order, any 30 different blocks outside the log:
    the first 29 writes succeed, and [log_write] of the last one panics. *)
Theorem log_reservation_overflow start dev s dv tr ws w :
  log_geometry start 30 dev → idle start 30 dev s dv tr →
  Forall (λ w, home start 30 w.1) (ws ++ [w]) → NoDup (map fst (ws ++ [w])) → length ws = 29%nat →
  ∃ s3 s29, (begin_op ;! begin_op ;! begin_op) s = Ret (tt, s3) ∧ l_outstanding (ls_log s3) = 3 ∧
    for_each ws (tx_write dev) s3 = Ret (tt, s29) ∧ lh_n (ls_log s29) = 29 ∧
    tx_write dev w s29 = Panic "too big a transaction".
Proof.
  intros Hgeo Hid Hh Hnd Hlen. pose proof Hgeo as (Hd & Hs & Hsz & Hend).
  apply Forall_app in Hh as [Hh Hw]. apply list.Forall_cons_1 in Hw as [Hw _]. rewrite map_app in Hnd. apply list.NoDup_app in Hnd as (Hnd & _).
  destruct (wp_ok (begin_op ;! begin_op ;! begin_op) (λ _ s', ∃ c, in_txn start 30 dev 3 s' c dv tr [] ∅) s)
    as ([] & s3 & E3 & c & H3); [eapply wp_begin_three; [done..|]; eauto|].
  destruct (wp_ok (for_each ws (tx_write dev)) (λ _ s', ∃ c', in_txn start 30 dev 3 s' c' dv tr (map fst ws) ∅) s3)
    as ([] & s29 & E29 & c' & H29).
  { eapply (wp_tx_fresh start 30 dev Hd Hs Hsz Hend); [exact H3|done|done|simpl; lia|]. eauto. }
  exists s3, s29. split_and!; [done|apply H3|done|rewrite (it_n _ _ _ _ _ _ _ _ _ _ H29), length_map; lia|].
  destruct w as [k x]. eapply (full_log_panics start 30 dev Hd Hs Hsz Hend); [exact H29|exact Hw|rewrite length_map; lia..].
Qed.
Lemma log_reservation_overflow_witness :
  ∃ s3 s29, (begin_op ;! begin_op ;! begin_op) wit_log = Ret (tt, s3) ∧
    for_each (map (λ k, (Z.of_nat k, zero_block)) (seq 100 29)) (tx_write 1) s3 = Ret (tt, s29) ∧
    tx_write 1 (129, zero_block) s29 = Panic "too big a transaction".
Proof.
  destruct (log_reservation_overflow 2 1 wit_log wit_disk [] (map (λ k, (Z.of_nat k, zero_block)) (seq 100 29)) (129, zero_block))
    as (s3 & s29 & E1 & _ & E2 & _ & E3).
  - exact wit_geometry.
  - exact wit_idle.
  - cbn [map seq app]. repeat constructor; by apply wit_home.
  - change (map fst _) with (seqZ 100 30). apply NoDup_seqZ.
  - reflexivity.
  - exists s3, s29. split; [exact E1|]. split; [exact E2|exact E3].
Defined.
