(* ===== verification/Fs.v ===== *)
(** * The file system: blocks, inodes, directories and paths (fs.c, file.h, stat.h)

    Every operation of fs.c, over the log and the buffer cache.  An in-memory
    inode is its place in [icache.inode]; [readi] returns the bytes it copies
    to its destination and [writei] is given the bytes of its source.  A process
    that finds an inode locked sleeps: [Diverge] here, where one process runs. *)
From S2P Require Import Prelude Machine Block Bio Log.

Open Scope Z_scope.

(** ** Constants and data *)
Definition T_DIR : Z := 1.
Definition T_FILE : Z := 2.
Definition T_DEV : Z := 3.
Definition I_BUSY : Z := 0x1.
Definition I_VALID : Z := 0x2.

Record inode := mkInode {
  i_dev : Z; i_inum : Z; i_ref : Z; i_flags : Z;
  i_type : Z; i_major : Z; i_minor : Z; i_nlink : Z;
  i_size : Z; i_addrs : list Z }.

Definition set_i_ref (v : Z) (ip : inode) : inode :=
  mkInode (i_dev ip) (i_inum ip) v (i_flags ip) (i_type ip) (i_major ip) (i_minor ip)
    (i_nlink ip) (i_size ip) (i_addrs ip).
Definition set_i_flags (v : Z) (ip : inode) : inode :=
  mkInode (i_dev ip) (i_inum ip) (i_ref ip) v (i_type ip) (i_major ip) (i_minor ip)
    (i_nlink ip) (i_size ip) (i_addrs ip).
Definition set_i_type (v : Z) (ip : inode) : inode :=
  mkInode (i_dev ip) (i_inum ip) (i_ref ip) (i_flags ip) v (i_major ip) (i_minor ip)
    (i_nlink ip) (i_size ip) (i_addrs ip).
Definition set_i_major (v : Z) (ip : inode) : inode :=
  mkInode (i_dev ip) (i_inum ip) (i_ref ip) (i_flags ip) (i_type ip) v (i_minor ip)
    (i_nlink ip) (i_size ip) (i_addrs ip).
Definition set_i_minor (v : Z) (ip : inode) : inode :=
  mkInode (i_dev ip) (i_inum ip) (i_ref ip) (i_flags ip) (i_type ip) (i_major ip) v
    (i_nlink ip) (i_size ip) (i_addrs ip).
Definition set_i_nlink (v : Z) (ip : inode) : inode :=
  mkInode (i_dev ip) (i_inum ip) (i_ref ip) (i_flags ip) (i_type ip) (i_major ip) (i_minor ip)
    v (i_size ip) (i_addrs ip).
Definition set_i_size (v : Z) (ip : inode) : inode :=
  mkInode (i_dev ip) (i_inum ip) (i_ref ip) (i_flags ip) (i_type ip) (i_major ip) (i_minor ip)
    (i_nlink ip) v (i_addrs ip).
Definition set_i_addrs (v : list Z) (ip : inode) : inode :=
  mkInode (i_dev ip) (i_inum ip) (i_ref ip) (i_flags ip) (i_type ip) (i_major ip) (i_minor ip)
    (i_nlink ip) (i_size ip) v.

Record stat := mkStat { st_type : Z; st_dev : Z; st_ino : Z; st_nlink : Z; st_size : Z }.

(** The log and cache, the superblock [sb] in memory, and the inode cache. *)
Record fstate := mkFs { fs_ls : lstate; fs_sb : superblock; fs_ic : list inode }.
Definition set_ls (v : lstate) (s : fstate) : fstate := mkFs v (fs_sb s) (fs_ic s).
Definition set_sb (v : superblock) (s : fstate) : fstate := mkFs (fs_ls s) v (fs_ic s).
Definition set_ic (v : list inode) (s : fstate) : fstate := mkFs (fs_ls s) (fs_sb s) v.

Definition on_log {A} (e : M lstate A) : M fstate A := zoom fs_ls set_ls e.
Definition on_buf {A} (e : M bcache A) : M fstate A := on_log (on_bc e).
Definition the_sb : M fstate superblock := gets fs_sb.
Definition get_inode (i : nat) : M fstate inode :=
  let! ic := gets fs_ic in
  match ic !! i with
  | Some ip => ret ip
  | None => undef "struct inode pointer outside icache.inode"
  end.
Definition put_inode (i : nat) (ip : inode) : M fstate unit :=
  modify (λ s, set_ic (<[i := ip]> (fs_ic s)) s).
Definition upd_inode (i : nat) (f : inode → inode) : M fstate unit :=
  let! ip := get_inode i in put_inode i (f ip).

(** ** Macros of fs.h *)
Definition IBLOCK (i : Z) (sb : superblock) : Z := u32 (u32 i / IPB + sb_inodestart sb).
Definition BBLOCK (b : Z) (sb : superblock) : Z := u32 (b / BPB + sb_bmapstart sb).

(** ** Blocks *)
Definition bzero (dev bno : Z) : M fstate unit :=
  let! bp := on_buf (bread dev bno) in
  on_buf (upd_data bp (λ _, zero_block)) ;!
  on_log (log_write bp) ;!
  on_buf (brelse bp).

(** The bit of the free map at position [bi] of its block. *)
Definition bit_byte (bi : Z) : nat := Z.to_nat (bi / 8).
Definition bit_mask (bi : Z) : Z := Z.shiftl 1 (bi mod 8).
Definition bit_set (d : block) (bi : Z) : bool :=
  negb (Z.land (get8 d (bit_byte bi)) (bit_mask bi) =? 0).
Definition mark_bit (bi : Z) (d : block) : block :=
  put8 (bit_byte bi) (Z.lor (get8 d (bit_byte bi)) (bit_mask bi)) d.
Definition clear_bit (bi : Z) (d : block) : block :=
  put8 (bit_byte bi) (Z.land (get8 d (bit_byte bi)) (Z.lnot (bit_mask bi))) d.

(** [for(bi = ...; bi < BPB && b + bi < sb.size; bi++)] up to a clear bit *)
Fixpoint find_free (fuel : nat) (d : block) (b size bi : Z) : option Z :=
  match fuel with
  | O => None
  | S fuel =>
      if (bi <? BPB) && (b + bi <? size) then
        if bit_set d bi then find_free fuel d b size (bi + 1) else Some bi
      else None
  end.
Fixpoint balloc_loop (fuel : nat) (dev b : Z) : M fstate Z :=
  match fuel with
  | O => diverge
  | S fuel =>
      let! sb := the_sb in
      if b <? sb_size sb then
        let! bp := on_buf (bread dev (BBLOCK b sb)) in
        let! buf := on_buf (get_buf bp) in
        match find_free (Z.to_nat BPB) (b_data buf) b (sb_size sb) 0 with
        | Some bi =>
            on_buf (upd_data bp (mark_bit bi)) ;!
            on_log (log_write bp) ;!
            on_buf (brelse bp) ;!
            bzero dev (b + bi) ;!
            ret (b + bi)
        | None =>
            on_buf (brelse bp) ;!
            balloc_loop fuel dev (b + BPB)
        end
      else panic "balloc: out of blocks"
  end.
Definition balloc (dev : Z) : M fstate Z :=
  let! sb := the_sb in balloc_loop (S (S (Z.to_nat (sb_size sb / BPB)))) dev 0.

Definition bfree (dev b : Z) : M fstate unit :=
  let! sb := on_buf (readsb dev) in
  modify (set_sb sb) ;!
  let! bp := on_buf (bread dev (BBLOCK b sb)) in
  let! buf := on_buf (get_buf bp) in
  let bi := b mod BPB in
  if negb (bit_set (b_data buf) bi) then panic "freeing free block"
  else
    on_buf (upd_data bp (clear_bit bi)) ;!
    on_log (log_write bp) ;!
    on_buf (brelse bp).

(** ** Inodes *)
Definition iinit (dev : Z) : M fstate unit :=
  let! sb := on_buf (readsb dev) in modify (set_sb sb).

(** The fields of [struct dinode] at byte offset [o] of a block. *)
Definition dinode_off (inum : Z) : nat := Z.to_nat (u32 inum mod IPB * sizeof_dinode).
Definition dinode_type (d : block) (o : nat) : Z := i16 (get16 d o).
Fixpoint get_addrs (n : nat) (d : block) (o : nat) : list Z :=
  match n with O => [] | S n => get32 d o :: get_addrs n d (o + 4) end.
Fixpoint put_addrs (addrs : list Z) (o : nat) (d : block) : block :=
  match addrs with [] => d | a :: l => put_addrs l (o + 4) (put32 o a d) end.
(** The fields copied by [ilock] and by [iupdate]. *)
Definition load_dinode (d : block) (o : nat) (ip : inode) : inode :=
  mkInode (i_dev ip) (i_inum ip) (i_ref ip) (i_flags ip)
    (i16 (get16 d o)) (i16 (get16 d (o + 2))) (i16 (get16 d (o + 4))) (i16 (get16 d (o + 6)))
    (get32 d (o + 8)) (get_addrs (Z.to_nat (NDIRECT + 1)) d (o + 12)).
Definition store_dinode (ip : inode) (o : nat) (d : block) : block :=
  put_addrs (i_addrs ip) (o + 12)
    (put32 (o + 8) (i_size ip)
      (put16 (o + 6) (i_nlink ip)
        (put16 (o + 4) (i_minor ip)
          (put16 (o + 2) (i_major ip)
            (put16 o (i_type ip) d))))).

(** The scan of [iget]: the entry that holds the inode, or the first free one. *)
Fixpoint iget_scan (dev inum : Z) (ic : list inode) (i : nat) (empty : option nat) :
    nat + option nat :=
  match ic with
  | [] => inr empty
  | ip :: ic =>
      if (0 <? i_ref ip) && (i_dev ip =? dev) && (i_inum ip =? inum) then inl i
      else iget_scan dev inum ic (S i)
             (match empty with
              | None => if i_ref ip =? 0 then Some i else None
              | Some e => Some e
              end)
  end.
Definition iget (dev inum : Z) : M fstate nat :=
  let! ic := gets fs_ic in
  match iget_scan dev inum ic 0 None with
  | inl i =>
      upd_inode i (λ ip, set_i_ref (i_ref ip + 1) ip) ;! ret i
  | inr None => panic "iget: no inodes"
  | inr (Some i) =>
      upd_inode i (λ ip, mkInode dev inum 1 0 (i_type ip) (i_major ip) (i_minor ip)
                           (i_nlink ip) (i_size ip) (i_addrs ip)) ;!
      ret i
  end.

(** [for(inum = 1; inum < sb.ninodes; inum++)] *)
Fixpoint ialloc_loop (fuel : nat) (dev type inum : Z) : M fstate nat :=
  match fuel with
  | O => diverge
  | S fuel =>
      let! sb := the_sb in
      if inum <? sb_ninodes sb then
        let! bp := on_buf (bread dev (IBLOCK inum sb)) in
        let! buf := on_buf (get_buf bp) in
        if dinode_type (b_data buf) (dinode_off inum) =? 0 then
          on_buf (upd_data bp (λ d, put16 (dinode_off inum) type
            (put_bytes (dinode_off inum) (replicate (Z.to_nat sizeof_dinode) 0) d))) ;!
          on_log (log_write bp) ;!
          on_buf (brelse bp) ;!
          iget dev inum
        else
          on_buf (brelse bp) ;!
          ialloc_loop fuel dev type (inum + 1)
      else panic "ialloc: no inodes"
  end.
Definition ialloc (dev type : Z) : M fstate nat :=
  let! sb := the_sb in ialloc_loop (S (Z.to_nat (sb_ninodes sb))) dev type 1.

Definition iupdate (i : nat) : M fstate unit :=
  let! ip := get_inode i in
  let! sb := the_sb in
  let! bp := on_buf (bread (i_dev ip) (IBLOCK (i_inum ip) sb)) in
  on_buf (upd_data bp (store_dinode ip (dinode_off (i_inum ip)))) ;!
  on_log (log_write bp) ;!
  on_buf (brelse bp).

Definition idup (i : nat) : M fstate nat :=
  upd_inode i (λ ip, set_i_ref (i_ref ip + 1) ip) ;! ret i.

Definition ilock (i : nat) : M fstate unit :=
  let! ip := get_inode i in
  if i_ref ip <? 1 then panic "ilock"
  else if truth (Z.land (i_flags ip) I_BUSY) then diverge
  else
    upd_inode i (λ ip, set_i_flags (Z.lor (i_flags ip) I_BUSY) ip) ;!
    let! ip := get_inode i in
    if negb (truth (Z.land (i_flags ip) I_VALID)) then
      let! sb := the_sb in
      let! bp := on_buf (bread (i_dev ip) (IBLOCK (i_inum ip) sb)) in
      let! buf := on_buf (get_buf bp) in
      upd_inode i (load_dinode (b_data buf) (dinode_off (i_inum ip))) ;!
      on_buf (brelse bp) ;!
      upd_inode i (λ ip, set_i_flags (Z.lor (i_flags ip) I_VALID) ip) ;!
      let! ip := get_inode i in
      if i_type ip =? 0 then panic "ilock: no type" else skip
    else skip.

Definition iunlock (i : nat) : M fstate unit :=
  let! ip := get_inode i in
  if negb (truth (Z.land (i_flags ip) I_BUSY)) || (i_ref ip <? 1) then panic "iunlock"
  else upd_inode i (λ ip, set_i_flags (Z.land (i_flags ip) (Z.lnot I_BUSY)) ip).

(** ** Inode content *)
Definition get_addr (i : nat) (n : Z) : M fstate Z :=
  let! ip := get_inode i in
  match i_addrs ip !! Z.to_nat n with
  | Some a => ret a
  | None => undef "ip->addrs index"
  end.
Definition set_addr (i : nat) (n a : Z) : M fstate unit :=
  upd_inode i (λ ip, set_i_addrs (<[Z.to_nat n := a]> (i_addrs ip)) ip).
(** [if((addr = ip->addrs[n]) == 0) ip->addrs[n] = addr = balloc(ip->dev);] *)
Definition addr_or_alloc (i : nat) (n : Z) : M fstate Z :=
  let! addr := get_addr i n in
  if addr =? 0 then
    let! ip := get_inode i in
    let! addr := balloc (i_dev ip) in
    set_addr i n addr ;!
    ret addr
  else ret addr.

(** The entry [bn] of the indirect block [addr], allocated when it is 0. *)
Definition indirect_or_alloc (i : nat) (bn addr : Z) : M fstate Z :=
  let! ip := get_inode i in
  let! bp := on_buf (bread (i_dev ip) addr) in
  let! buf := on_buf (get_buf bp) in
  let a := get32 (b_data buf) (Z.to_nat (4 * bn)) in
  if a =? 0 then
    let! addr := balloc (i_dev ip) in
    on_buf (upd_data bp (put32 (Z.to_nat (4 * bn)) addr)) ;!
    on_log (log_write bp) ;!
    on_buf (brelse bp) ;!
    ret addr
  else
    on_buf (brelse bp) ;!
    ret a.
Definition bmap (i : nat) (bn : Z) : M fstate Z :=
  if bn <? NDIRECT then addr_or_alloc i bn
  else
    let bn := bn - NDIRECT in
    if bn <? NINDIRECT then
      let! addr := addr_or_alloc i NDIRECT in
      indirect_or_alloc i bn addr
    else panic "bmap: out of range".

Definition itrunc (i : nat) : M fstate unit :=
  for_each (seq 0 (Z.to_nat NDIRECT)) (λ n,
    let! a := get_addr i (Z.of_nat n) in
    if negb (a =? 0) then
      let! ip := get_inode i in
      bfree (i_dev ip) a ;!
      set_addr i (Z.of_nat n) 0
    else skip) ;!
  let! a := get_addr i NDIRECT in
  (if negb (a =? 0) then
     let! ip := get_inode i in
     let! bp := on_buf (bread (i_dev ip) a) in
     for_each (seq 0 (Z.to_nat NINDIRECT)) (λ j,
       let! buf := on_buf (get_buf bp) in
       let b := get32 (b_data buf) (4 * j) in
       if negb (b =? 0) then bfree (i_dev ip) b else skip) ;!
     on_buf (brelse bp) ;!
     bfree (i_dev ip) a ;!
     set_addr i NDIRECT 0
   else skip) ;!
  upd_inode i (set_i_size 0) ;!
  iupdate i.

Definition iput (i : nat) : M fstate unit :=
  let! ip := get_inode i in
  (if (i_ref ip =? 1) && truth (Z.land (i_flags ip) I_VALID) && (i_nlink ip =? 0) then
     if truth (Z.land (i_flags ip) I_BUSY) then panic "iput busy"
     else
       upd_inode i (λ ip, set_i_flags (Z.lor (i_flags ip) I_BUSY) ip) ;!
       itrunc i ;!
       upd_inode i (set_i_type 0) ;!
       iupdate i ;!
       upd_inode i (set_i_flags 0)
   else skip) ;!
  upd_inode i (λ ip, set_i_ref (i_ref ip - 1) ip).

Definition iunlockput (i : nat) : M fstate unit := iunlock i ;! iput i.

Definition stati (i : nat) : M fstate stat :=
  let! ip := get_inode i in
  ret (mkStat (i_type ip) (i_dev ip) (i_inum ip) (i_nlink ip) (i_size ip)).

(** The device table [devsw]: the functions of a device, where they are set. *)
Record devsw_entry := mkDevsw {
  dev_read : option (nat → Z → M fstate (Z * list Z));
  dev_write : option (nat → list Z → Z → M fstate Z) }.

Section Content.
Context (devsw : Z → devsw_entry).

(** The loop of [readi]: [n - tot] bytes are still to be read at [off]. *)
Fixpoint readi_loop (fuel : nat) (i : nat) (off left_ : Z) : M fstate (list Z) :=
  if left_ =? 0 then ret []
  else
    match fuel with
    | O => diverge
    | S fuel =>
        let! ip := get_inode i in
        let! addr := bmap i (off / BSIZE) in
        let! bp := on_buf (bread (i_dev ip) addr) in
        let m := Z.min left_ (BSIZE - off mod BSIZE) in
        let! buf := on_buf (get_buf bp) in
        let data := get_bytes (b_data buf) (Z.to_nat (off mod BSIZE)) (Z.to_nat m) in
        on_buf (brelse bp) ;!
        let! rest := readi_loop fuel i (off + m) (left_ - m) in
        ret (data ++ rest)
    end.
(** Iterations that are enough for [n] bytes. *)
Definition io_fuel (n : Z) : nat := Z.to_nat (n / BSIZE + 2).

Definition readi (i : nat) (off n : Z) : M fstate (Z * list Z) :=
  let! ip := get_inode i in
  if i_type ip =? T_DEV then
    if (i_major ip <? 0) || (NDEV <=? i_major ip) then ret (-1, [])
    else
      match dev_read (devsw (i_major ip)) with
      | None => ret (-1, [])
      | Some read => read i n
      end
  else if (i_size ip <? off) || (u32 (off + n) <? off) then ret (-1, [])
  else
    let n := if i_size ip <? u32 (off + n) then u32 (i_size ip - off) else n in
    let! data := readi_loop (io_fuel n) i off n in
    ret (i32 n, data).

(** The loop of [writei]; the result is the final [off]. *)
Fixpoint writei_loop (fuel : nat) (i : nat) (src : list Z) (off left_ : Z) : M fstate Z :=
  if left_ =? 0 then ret off
  else
    match fuel with
    | O => diverge
    | S fuel =>
        let! ip := get_inode i in
        let! addr := bmap i (off / BSIZE) in
        let! bp := on_buf (bread (i_dev ip) addr) in
        let m := Z.min left_ (BSIZE - off mod BSIZE) in
        on_buf (upd_data bp (put_bytes (Z.to_nat (off mod BSIZE)) (take (Z.to_nat m) src))) ;!
        on_log (log_write bp) ;!
        on_buf (brelse bp) ;!
        writei_loop fuel i (drop (Z.to_nat m) src) (off + m) (left_ - m)
    end.

Definition writei (i : nat) (src : list Z) (off n : Z) : M fstate Z :=
  let! ip := get_inode i in
  if i_type ip =? T_DEV then
    if (i_major ip <? 0) || (NDEV <=? i_major ip) then ret (-1)
    else
      match dev_write (devsw (i_major ip)) with
      | None => ret (-1)
      | Some write => write i src n
      end
  else if (i_size ip <? off) || (u32 (off + n) <? off) then ret (-1)
  else if MAXFILE * BSIZE <? u32 (off + n) then ret (-1)
  else
    let! off := writei_loop (io_fuel n) i src off n in
    let! ip := get_inode i in
    (if (0 <? n) && (i_size ip <? off) then
       upd_inode i (set_i_size off) ;! iupdate i
     else skip) ;!
    ret (i32 n).

(** ** Directories *)

(** [strncmp] on character arrays; reading past the end of a list reads 0. *)
Fixpoint chars_cmp (n : nat) (s t : list Z) : Z :=
  match n with
  | O => 0
  | S n =>
      let p := default 0 (head s) in
      let q := default 0 (head t) in
      if truth p && (p =? q) then chars_cmp n (tail s) (tail t) else p - q
  end.
Definition namecmp (s t : list Z) : Z := chars_cmp (Z.to_nat DIRSIZ) s t.

(** [struct dirent] as the bytes [readi] and [writei] move. *)
Definition de_inum (de : list Z) : Z := get16 de 0.
Definition de_name (de : list Z) : list Z := get_bytes de 2 (Z.to_nat DIRSIZ).
(** [strncpy(de.name, name, DIRSIZ); de.inum = inum] *)
Fixpoint chars_ncpy (n : nat) (t : list Z) : list Z :=
  match n with
  | O => []
  | S n =>
      match t with
      | [] => 0 :: chars_ncpy n []
      | c :: t => if c =? 0 then 0 :: replicate n 0 else c :: chars_ncpy n t
      end
  end.
Definition mk_dirent (inum : Z) (name : list Z) : list Z :=
  u8 inum :: u8 (Z.shiftr inum 8) :: chars_ncpy (Z.to_nat DIRSIZ) name.

Fixpoint dirlookup_loop (fuel : nat) (dp : nat) (name : list Z) (off : Z) :
    M fstate (option (nat * Z)) :=
  match fuel with
  | O => diverge
  | S fuel =>
      let! d := get_inode dp in
      if off <? i_size d then
        let! (r, de) := readi dp off sizeof_dirent in
        if negb (r =? sizeof_dirent) then panic "dirlink read"
        else if de_inum de =? 0 then dirlookup_loop fuel dp name (off + sizeof_dirent)
        else if namecmp name (de_name de) =? 0 then
          let! i := iget (i_dev d) (de_inum de) in ret (Some (i, off))
        else dirlookup_loop fuel dp name (off + sizeof_dirent)
      else ret None
  end.
Definition dir_fuel (size : Z) : nat := Z.to_nat (size / sizeof_dirent + 2).
Definition dirlookup (dp : nat) (name : list Z) : M fstate (option (nat * Z)) :=
  let! d := get_inode dp in
  if negb (i_type d =? T_DIR) then panic "dirlookup not DIR"
  else dirlookup_loop (dir_fuel (i_size d)) dp name 0.

(** The offset of the first empty entry, or the end of the directory. *)
Fixpoint dirlink_loop (fuel : nat) (dp : nat) (off : Z) : M fstate Z :=
  match fuel with
  | O => diverge
  | S fuel =>
      let! d := get_inode dp in
      if off <? i_size d then
        let! (r, de) := readi dp off sizeof_dirent in
        if negb (r =? sizeof_dirent) then panic "dirlink read"
        else if de_inum de =? 0 then ret off
        else dirlink_loop fuel dp (off + sizeof_dirent)
      else ret off
  end.
Definition dirlink (dp : nat) (name : list Z) (inum : Z) : M fstate Z :=
  let! found := dirlookup dp name in
  match found with
  | Some (ip, _) => iput ip ;! ret (-1)
  | None =>
      let! d := get_inode dp in
      let! off := dirlink_loop (dir_fuel (i_size d)) dp 0 in
      let! r := writei dp (mk_dirent inum name) off sizeof_dirent in
      if negb (r =? sizeof_dirent) then panic "dirlink" else ret 0
  end.
End Content.

(** ** Paths *)
Definition slash : Z := 47.
Fixpoint skip_slashes (path : list Z) : list Z :=
  match path with
  | c :: path' => if c =? slash then skip_slashes path' else path
  | [] => []
  end.
(** The bytes before the next slash or the end, and the rest. *)
Fixpoint span_elem (path : list Z) : list Z * list Z :=
  match path with
  | c :: path' =>
      if (c =? slash) || (c =? 0) then ([], path)
      else let (s, rest) := span_elem path' in (c :: s, rest)
  | [] => ([], [])
  end.
(** A path is a list of characters, ended by its end or by a NUL; [name] is an
    array of [DIRSIZ] characters. *)
Definition skipelem (path name : list Z) : option (list Z * list Z) :=
  let path := skip_slashes path in
  if default 0 (head path) =? 0 then None
  else
    let (s, path) := span_elem path in
    let len := length s in
    let name := if (Z.to_nat DIRSIZ <=? len)%nat then put_bytes 0 (take (Z.to_nat DIRSIZ) s) name
                else <[len := 0]> (put_bytes 0 s name) in
    Some (skip_slashes path, name).

Section Paths.
Context (devsw : Z → devsw_entry).
(** [proc->cwd] *)
Context (cwd : nat).

Fixpoint namex_loop (fuel : nat) (ip : nat) (path : list Z) (nameiparent : bool) (name : list Z) :
    M fstate (option nat * list Z) :=
  match fuel with
  | O => diverge
  | S fuel =>
      match skipelem path name with
      | None => if nameiparent then iput ip ;! ret (None, name) else ret (Some ip, name)
      | Some (path, name) =>
          ilock ip ;!
          let! d := get_inode ip in
          if negb (i_type d =? T_DIR) then iunlockput ip ;! ret (None, name)
          else if nameiparent && (default 0 (head path) =? 0) then
            iunlock ip ;! ret (Some ip, name)
          else
            let! next := dirlookup devsw ip name in
            match next with
            | None => iunlockput ip ;! ret (None, name)
            | Some (next, _) =>
                iunlockput ip ;!
                namex_loop fuel next path nameiparent name
            end
      end
  end.
Definition namex (path : list Z) (nameiparent : bool) (name : list Z) :
    M fstate (option nat * list Z) :=
  let! ip := (if default 0 (head path) =? slash then iget ROOTDEV ROOTINO else idup cwd) in
  namex_loop (S (length path)) ip path nameiparent name.
(** [name] is an uninitialised array of the caller's stack. *)
Definition namei (path name0 : list Z) : M fstate (option nat) :=
  let! r := namex path false name0 in ret r.1.
Definition nameiparent (path name : list Z) : M fstate (option nat * list Z) :=
  namex path true name.
End Paths.
