(* ===== verification/FsBits.v ===== *)
(** * The free map of the file system and path elements (fs.c)

    Facts about the pure parts of fs.c: the bits of the free map, the search for
    a free block, the fields of inodes on the disk, and the splitting of paths. *)
From S2P Require Import Prelude Machine Block Bio Log Fs.

Open Scope Z_scope.

(** ** Reference definitions for paths *)

(** The string in a character array: up to the first NUL or the end. *)
Fixpoint chars (l : list Z) : list Z :=
  match l with
  | [] => []
  | c :: l => if c =? 0 then [] else c :: chars l
  end.
(** The pieces of a string between slashes; [cur] is the piece so far. *)
Fixpoint split_slash (cur : list Z) (p : list Z) : list (list Z) :=
  match p with
  | [] => [cur]
  | c :: p => if c =? slash then cur :: split_slash [] p else split_slash (cur ++ [c]) p
  end.
Definition path_elems (path : list Z) : list (list Z) :=
  take (Z.to_nat DIRSIZ) <$> filter (λ e, e ≠ []) (split_slash [] (chars path)).

(** The names that the loop of [namex] looks up, by calls of [skipelem]. *)
Fixpoint walk_names (fuel : nat) (path name : list Z) : outcome (list (list Z)) :=
  match fuel with
  | O => Diverge
  | S fuel =>
      match skipelem path name with
      | None => Ret []
      | Some (path, name) =>
          let* names := walk_names fuel path name in
          Ret (chars name :: names)
      end
  end.

(** ** Bits of the free map *)
Lemma bit_set_testbit d bi : 0 ≤ bi → bit_set d bi = Z.testbit (get8 d (bit_byte bi)) (bi mod 8).
Proof.
  intros Hb. unfold bit_set, bit_mask. rewrite Z.shiftl_1_l.
  assert (0 ≤ bi mod 8 < 8) by (apply Z.mod_pos_bound; lia).
  rewrite land_pow2 by lia. destruct (Z.testbit _ _); [|done].
  assert (0 < 2 ^ (bi mod 8)) by (apply Z.pow_pos_nonneg; lia).
  rewrite (proj2 (Z.eqb_neq _ _)) by lia. done.
Qed.
Lemma bit_byte_bound bi : 0 ≤ bi < BPB → (bit_byte bi < Z.to_nat BSIZE)%nat.
Proof.
  intros H. unfold bit_byte, BPB in *. assert (0 ≤ bi / 8 < BSIZE); [|lia].
  split; [apply Z.div_pos; lia|apply Z.div_lt_upper_bound; lia].
Qed.
Lemma same_byte bi bj : 0 ≤ bi → 0 ≤ bj → bit_byte bi = bit_byte bj → bi mod 8 = bj mod 8 → bi = bj.
Proof.
  unfold bit_byte. intros H1 H2 E1 E2.
  assert (bi / 8 = bj / 8).
  { apply Z2Nat.inj; [apply Z.div_pos; lia|apply Z.div_pos; lia|done]. }
  rewrite (Z.div_mod bi 8), (Z.div_mod bj 8) by lia. congruence.
Qed.
Lemma testbit_byte b n : byte_ok b → 8 ≤ n → Z.testbit b n = false.
Proof.
  intros [H1 H2] Hn. destruct (decide (b = 0)) as [->|Hb]; [apply Z.bits_0|].
  apply Z.bits_above_log2; [lia|]. assert (Z.log2 b < 8) by (apply Z.log2_lt_pow2; lia). lia.
Qed.
Lemma testbit_u8 v n : 0 ≤ n < 8 → Z.testbit (u8 v) n = Z.testbit v n.
Proof. intros H. unfold u8. by rewrite Z.mod_pow2_bits_low by lia. Qed.

Section Bits.
Context (d : block) (bi bj : Z).
Hypothesis Hd : block_ok d.
Hypothesis Hi : 0 ≤ bi < BPB.
Hypothesis Hj : 0 ≤ bj < BPB.

Lemma bit_set_mark : bit_set (mark_bit bi d) bj = (bi =? bj) || bit_set d bj.
Proof.
  rewrite !bit_set_testbit by lia. unfold mark_bit.
  pose proof (bit_byte_bound bi Hi) as Hlt. destruct Hd as [Hl _].
  assert (0 ≤ bj mod 8 < 8) by (apply Z.mod_pos_bound; lia).
  assert (0 ≤ bi mod 8 < 8) by (apply Z.mod_pos_bound; lia).
  destruct (decide (bit_byte bi = bit_byte bj)) as [E|Hne].
  - rewrite <- E, get8_put8_eq by lia. rewrite testbit_u8, Z.lor_spec by lia.
    unfold bit_mask. rewrite Z.shiftl_1_l, Z.pow2_bits_eqb by lia. rewrite orb_comm. f_equal.
    destruct (Z.eqb_spec bi bj) as [->|Hn]; [by rewrite Z.eqb_refl|].
    apply Z.eqb_neq. intros Em. apply Hn. by apply same_byte; lia || done.
  - rewrite get8_put8_ne by done. destruct (Z.eqb_spec bi bj) as [->|Hn]; [done|done].
Qed.
Lemma bit_set_clear : bit_set (clear_bit bi d) bj = negb (bi =? bj) && bit_set d bj.
Proof.
  rewrite !bit_set_testbit by lia. unfold clear_bit.
  pose proof (bit_byte_bound bi Hi) as Hlt. destruct Hd as [Hl _].
  assert (0 ≤ bj mod 8 < 8) by (apply Z.mod_pos_bound; lia).
  assert (0 ≤ bi mod 8 < 8) by (apply Z.mod_pos_bound; lia).
  destruct (decide (bit_byte bi = bit_byte bj)) as [E|Hne].
  - rewrite <- E, get8_put8_eq by lia. rewrite testbit_u8, Z.land_spec, Z.lnot_spec by lia.
    unfold bit_mask. rewrite Z.shiftl_1_l, Z.pow2_bits_eqb by lia. rewrite andb_comm. f_equal. f_equal.
    destruct (Z.eqb_spec bi bj) as [->|Hn]; [by rewrite Z.eqb_refl|].
    apply Z.eqb_neq. intros Em. apply Hn. by apply same_byte; lia || done.
  - rewrite get8_put8_ne by done. destruct (Z.eqb_spec bi bj) as [->|Hn]; [done|done].
Qed.
Lemma mark_bit_ok : block_ok (mark_bit bi d).
Proof. by apply put8_ok. Qed.
Lemma clear_bit_ok : block_ok (clear_bit bi d).
Proof. by apply put8_ok. Qed.
End Bits.

(** The search returns the lowest clear bit of the block, if there is one. *)
Lemma find_free_spec fuel : ∀ d b size bi, 0 ≤ bi → BPB - bi ≤ Z.of_nat fuel →
  match find_free fuel d b size bi with
  | Some r => bi ≤ r < BPB ∧ b + r < size ∧ bit_set d r = false ∧
              ∀ j, bi ≤ j < r → bit_set d j = true
  | None => ∀ j, bi ≤ j < BPB → b + j < size → bit_set d j = true
  end.
Proof.
  induction fuel as [|fuel IH]; intros d b size bi Hb Hf; simpl; [intros j; lia|].
  destruct ((bi <? BPB) && (b + bi <? size)) eqn:E.
  - bool_to_prop. destruct (bit_set d bi) eqn:Hbit.
    + specialize (IH d b size (bi + 1) ltac:(lia) ltac:(lia)).
      destruct (find_free fuel d b size (bi + 1)) as [r|].
      * destruct IH as (H1 & H2 & H3 & H4). split; [lia|]. split; [done|]. split; [done|].
        intros j Hj. destruct (decide (j = bi)) as [->|]; [done|]. apply H4. lia.
      * intros j Hj Hs. destruct (decide (j = bi)) as [->|]; [done|]. apply IH; lia.
    + split; [lia|]. split; [lia|]. split; [done|]. intros j. lia.
  - apply andb_false_iff in E as [E|E]; bool_to_prop; intros j; lia.
Qed.

(** ** Paths *)
Definition plain (c : Z) : Prop := c ≠ slash ∧ c ≠ 0.

Lemma span_elem_spec p s rest :
  span_elem p = (s, rest) →
  p = s ++ rest ∧ Forall plain s ∧ (rest = [] ∨ ∃ c r, rest = c :: r ∧ (c = slash ∨ c = 0)).
Proof.
  revert s rest. induction p as [|c p IH]; intros s rest H; simpl in H; [simplify_eq; auto|].
  destruct ((c =? slash) || (c =? 0)) eqn:E.
  - simplify_eq. split_and!; [done|constructor|]. right. exists c, p. split; [done|].
    apply orb_true_iff in E as [E|E]; bool_to_prop; auto.
  - destruct (span_elem p) as [s' r'] eqn:Ep. simplify_eq. destruct (IH _ _ eq_refl) as (-> & Hs & Hr).
    bool_to_prop. split_and!; [done| |done]. constructor; [done|done].
Qed.
Lemma chars_app s rest : Forall plain s → chars (s ++ rest) = s ++ chars rest.
Proof.
  induction 1 as [|c s [_ Hc] _ IH]; [done|]. simpl. rewrite (proj2 (Z.eqb_neq _ _)) by done.
  by rewrite IH.
Qed.
Lemma split_app s : ∀ cur rest, Forall plain s →
  split_slash cur (s ++ rest) = split_slash (cur ++ s) rest.
Proof.
  induction s as [|c s IH]; intros cur rest H; [by rewrite app_nil_r|]. simpl.
  apply Forall_cons in H as [[Hc _] H]. rewrite (proj2 (Z.eqb_neq _ _)) by done.
  rewrite IH by done. by rewrite <- app_assoc.
Qed.
Lemma skip_slashes_elems p : path_elems (skip_slashes p) = path_elems p.
Proof.
  induction p as [|c p IH]; [done|]. simpl. destruct (Z.eqb_spec c slash) as [->|Hne]; [|done].
  rewrite IH. unfold path_elems. simpl. by rewrite filter_cons_False by (intros H; by apply H).
Qed.
Lemma skip_slashes_length p : (length (skip_slashes p) ≤ length p)%nat.
Proof. induction p as [|c p IH]; simpl; [lia|]. destruct (c =? slash); simpl; lia. Qed.
Lemma skip_slashes_head p c r : skip_slashes p = c :: r → c ≠ slash.
Proof.
  induction p as [|x p IH]; simpl; [done|]. destruct (Z.eqb_spec x slash); [by apply IH|].
  by intros [= <- <-].
Qed.

(** The first element and the rest of a path. *)
Lemma path_elems_span p s rest :
  span_elem p = (s, rest) → s ≠ [] →
  path_elems p = take (Z.to_nat DIRSIZ) s :: path_elems (skip_slashes rest).
Proof.
  intros Hsp Hs. destruct (span_elem_spec _ _ _ Hsp) as (-> & Hpl & Hr).
  rewrite skip_slashes_elems. unfold path_elems. rewrite chars_app, split_app by done. simpl app.
  destruct Hr as [->|(c & r & -> & [->| ->])]; simpl.
  - by rewrite filter_cons_True.
  - by rewrite filter_cons_True.
  - by rewrite filter_cons_True.
Qed.

Lemma chars_plain s : Forall plain s → chars s = s.
Proof. intros H. rewrite <- (app_nil_r s) at 1. rewrite chars_app by done. by rewrite app_nil_r. Qed.

(** What [skipelem] leaves in [name]. *)
Lemma skipelem_name s name :
  Forall plain s → length name = Z.to_nat DIRSIZ →
  let name' := if (Z.to_nat DIRSIZ <=? length s)%nat then put_bytes 0 (take (Z.to_nat DIRSIZ) s) name
               else <[length s := 0]> (put_bytes 0 s name) in
  length name' = Z.to_nat DIRSIZ ∧ chars name' = take (Z.to_nat DIRSIZ) s.
Proof.
  intros Hs Hn name'. subst name'. destruct (Z.to_nat DIRSIZ <=? length s)%nat eqn:E.
  - apply Nat.leb_le in E. rewrite length_put_bytes. split; [done|].
    assert (length (take (Z.to_nat DIRSIZ) s) = Z.to_nat DIRSIZ) as Hl by (rewrite length_take; lia).
    pose proof (get_put_bytes (take (Z.to_nat DIRSIZ) s) 0 name ltac:(lia)) as H.
    unfold get_bytes in H. rewrite drop_0 in H.
    rewrite (take_ge (put_bytes 0 _ name)) in H by (rewrite length_put_bytes; lia).
    rewrite H. apply chars_plain. by apply Forall_take.
  - apply Nat.leb_gt in E. rewrite length_insert, length_put_bytes. split; [done|].
    assert (<[length s := 0]> (put_bytes 0 s name) =
      s ++ 0 :: drop (S (length s)) (put_bytes 0 s name)) as ->.
    { pose proof (get_put_bytes s 0 name ltac:(lia)) as H. unfold get_bytes in H. rewrite drop_0 in H.
      rewrite insert_take_drop by (rewrite length_put_bytes; lia). by rewrite H. }
    rewrite chars_app by done. simpl. rewrite app_nil_r, take_ge by lia. done.
Qed.

Lemma walk_names_S fuel path name :
  walk_names (S fuel) path name =
  match skipelem path name with
  | None => Ret []
  | Some (path, name) => let* names := walk_names fuel path name in Ret (chars name :: names)
  end.
Proof. done. Qed.

(** Path names are split as documented.  Whatever bytes [name] held
    before, the repeated calls of [skipelem] by [namex] end, and the names they
    produce are exactly the non-empty pieces of the path between slashes, each
    cut to [DIRSIZ] characters. *)
Theorem skipelem_splits path name :
  length name = Z.to_nat DIRSIZ →
  walk_names (S (length path)) path name = Ret (path_elems path).
Proof.
  remember (length path) as n eqn:Hn. assert (length path ≤ n)%nat as Hle by lia. clear Hn.
  revert path name Hle. induction n as [|n IH]; intros path name Hle Hname.
  { destruct path; [|simpl in Hle; lia]. done. }
  rewrite walk_names_S. unfold skipelem. pose proof (skip_slashes_length path) as Hlen.
  rewrite <- (skip_slashes_elems path).
  destruct (skip_slashes path) as [|c p] eqn:Ep; [done|].
  change (default 0 (head (c :: p))) with c.
  pose proof (skip_slashes_head _ _ _ Ep) as Hc.
  destruct (Z.eqb_spec c 0) as [->|Hc0]; [done|].
  destruct (span_elem (c :: p)) as [s rest] eqn:Hsp.
  destruct (span_elem_spec _ _ _ Hsp) as (Hcp & Hpl & _).
  assert (s ≠ []) as Hs.
  { intros ->. simpl in Hsp. rewrite (proj2 (Z.eqb_neq _ _) Hc), (proj2 (Z.eqb_neq _ _) Hc0) in Hsp.
    simpl in Hsp. destruct (span_elem p). done. }
  destruct (skipelem_name s name Hpl Hname) as [Hl Hch].
  assert (length rest < length (c :: p))%nat as Hrest.
  { rewrite Hcp, length_app. destruct s; [done|]. simpl. lia. }
  cbv beta zeta iota. rewrite IH; [|pose proof (skip_slashes_length rest); lia|done].
  by rewrite Hch, (path_elems_span _ _ _ Hsp Hs).
Qed.
Lemma skipelem_splits_witness :
  walk_names 13 [47; 47; 97; 47; 98; 99; 0; 47; 100; 100; 100; 100] (replicate 14 7) =
  Ret [[97]; [98; 99]].
Proof.
  apply (skipelem_splits [47; 47; 97; 47; 98; 99; 0; 47; 100; 100; 100; 100] (replicate 14 7)).
  reflexivity.
Defined.

(** ** Inodes on the disk *)
Lemma get8_put16_out o v d o' : (o' < o ∨ o + 2 ≤ o')%nat → get8 (put16 o v d) o' = get8 d o'.
Proof. intros H. unfold put16. by rewrite !get8_put8_ne by lia. Qed.
Lemma get8_put32_out o v d o' : (o' < o ∨ o + 4 ≤ o')%nat → get8 (put32 o v d) o' = get8 d o'.
Proof. intros H. unfold put32. by rewrite !get8_put8_ne by lia. Qed.
Lemma get8_put_addrs_out l : ∀ o d o', (o' < o ∨ o + 4 * length l ≤ o')%nat →
  get8 (put_addrs l o d) o' = get8 d o'.
Proof.
  induction l as [|a l IH]; intros o d o' H; simpl; [done|]. cbn [length] in H.
  rewrite IH by lia. apply get8_put32_out. lia.
Qed.
Lemma length_put_addrs l : ∀ o d, length (put_addrs l o d) = length d.
Proof. induction l as [|a l IH]; intros o d; simpl; [done|]. by rewrite IH, length_put32. Qed.

(** Reads of fields of which no byte has changed. *)
Lemma get16_ext d d' o : get8 d o = get8 d' o → get8 d (o + 1) = get8 d' (o + 1) → get16 d o = get16 d' o.
Proof. unfold get16. congruence. Qed.
Lemma get32_ext d d' o : (∀ i, (o ≤ i < o + 4)%nat → get8 d i = get8 d' i) → get32 d o = get32 d' o.
Proof. intros H. unfold get32. by rewrite !H by lia. Qed.
Lemma get_addrs_ext n : ∀ d d' o, (∀ i, (o ≤ i < o + 4 * n)%nat → get8 d i = get8 d' i) →
  get_addrs n d o = get_addrs n d' o.
Proof.
  induction n as [|n IH]; intros d d' o H; simpl; [done|]. f_equal.
  - apply get32_ext. intros i Hi. apply H. lia.
  - apply IH. intros i Hi. apply H. lia.
Qed.
Lemma get_put_addrs l : ∀ o d, (o + 4 * length l ≤ length d)%nat → Forall word_ok l →
  get_addrs (length l) (put_addrs l o d) o = l.
Proof.
  induction l as [|a l IH]; intros o d Hl Hr; simpl; [done|]. apply Forall_cons in Hr as [Ha Hr].
  cbn [length] in Hl. f_equal.
  - rewrite (get32_ext _ (put32 o a d)) by (intros i Hi; apply get8_put_addrs_out; lia).
    rewrite get32_put32_eq by lia. by apply u32_small.
  - apply IH; [rewrite length_put32; lia|done].
Qed.

Lemma get32_put_addrs_out l o d o' : (o' + 4 ≤ o)%nat → get32 (put_addrs l o d) o' = get32 d o'.
Proof. intros H. apply get32_ext. intros i Hi. apply get8_put_addrs_out. lia. Qed.
Lemma get16_put_addrs_out l o d o' : (o' + 2 ≤ o)%nat → get16 (put_addrs l o d) o' = get16 d o'.
Proof. intros H. apply get16_ext; apply get8_put_addrs_out; lia. Qed.
Lemma get16_put32_out o v d o' : (o' + 2 ≤ o)%nat → get16 (put32 o v d) o' = get16 d o'.
Proof. intros H. apply get16_ext; apply get8_put32_out; lia. Qed.

Definition short_ok (v : Z) : Prop := - 2 ^ 15 ≤ v < 2 ^ 15.
(** The fields of an inode fit their types. *)
Definition inode_ok (ip : inode) : Prop :=
  short_ok (i_type ip) ∧ short_ok (i_major ip) ∧ short_ok (i_minor ip) ∧ short_ok (i_nlink ip) ∧
  word_ok (i_size ip) ∧ length (i_addrs ip) = Z.to_nat (NDIRECT + 1) ∧ Forall word_ok (i_addrs ip).
(** The fields that are kept on the disk. *)
Definition disk_fields (ip : inode) : Z * Z * Z * Z * Z * list Z :=
  (i_type ip, i_major ip, i_minor ip, i_nlink ip, i_size ip, i_addrs ip).

Lemma i16_u16 v : short_ok v → i16 (u16 v) = v.
Proof.
  unfold short_ok, i16, u16, sext. simpl (16 - 1). intros H.
  rewrite Zplus_mod_idemp_l. rewrite Z.mod_small; lia.
Qed.

Lemma store_dinode_out ip o d o' :
  length (i_addrs ip) = Z.to_nat (NDIRECT + 1) →
  (o' < o ∨ o + Z.to_nat sizeof_dinode ≤ o')%nat → get8 (store_dinode ip o d) o' = get8 d o'.
Proof.
  intros Hl H. assert (o' < o ∨ o + 64 ≤ o')%nat as H' by exact H.
  assert (length (i_addrs ip) = 13)%nat as Hl' by exact Hl.
  unfold store_dinode. rewrite get8_put_addrs_out by (rewrite Hl'; lia).
  rewrite get8_put32_out, !get8_put16_out by lia. done.
Qed.
Lemma put_addrs_ok l : ∀ o d, block_ok d → block_ok (put_addrs l o d).
Proof. induction l as [|a l IH]; intros o d H; simpl; [done|]. by apply IH, put32_ok. Qed.
Lemma store_dinode_ok ip o d : block_ok d → block_ok (store_dinode ip o d).
Proof. intros H. apply put_addrs_ok, put32_ok. by repeat apply put16_ok. Qed.
Lemma load_store_dinode ip ip0 o d :
  inode_ok ip → (o + Z.to_nat sizeof_dinode ≤ length d)%nat →
  disk_fields (load_dinode (store_dinode ip o d) o ip0) = disk_fields ip.
Proof.
  intros (Ht & Hma & Hmi & Hn & Hs & Hl & Ha) Hd. assert (o + 64 ≤ length d)%nat as Hd' by exact Hd.
  assert (length (i_addrs ip) = 13)%nat as Hl' by exact Hl.
  unfold load_dinode, disk_fields. cbn [i_type i_major i_minor i_nlink i_size i_addrs].
  unfold store_dinode. rewrite <- Hl.
  rewrite get_put_addrs; [|rewrite length_put32, !length_put16; lia|done].
  rewrite get32_put_addrs_out by lia. rewrite get32_put32_eq by (rewrite !length_put16; lia).
  rewrite (u32_small (i_size ip)) by done.
  rewrite !get16_put_addrs_out, !get16_put32_out by lia.
  rewrite !(get16_put16_ne (o + 6)), !(get16_put16_ne (o + 4) o), !(get16_put16_ne (o + 4) (o + 2)),
    !(get16_put16_ne (o + 2) o), !get16_put16_eq by (rewrite ?length_put16; lia).
  by rewrite !i16_u16.
Qed.
