(* ===== verification/FsThm.v ===== *)
(** * Files of the file system (fs.c): block allocation, [bmap], [readi], [writei]

    The operations of fs.c inside a transaction, specified on the logical disk
    [c]: the blocks as readers see them.  A file is what its inode maps: block
    [bn] of the file is disk block [faddr c ip bn].  The theorems say that the
    allocator hands out blocks nobody uses, that [writei] changes exactly the
    bytes it is given, in this file only, and that [readi] returns the bytes of
    the file. *)
From S2P Require Import Prelude Machine Block Bio Log LogThm Fs FsBits.

Open Scope Z_scope.

#[local] Opaque find_free.

Section Files.
(** The log of the file system and its device. *)
Context (start size_ dev : Z).
Hypothesis Hgeo : log_geometry start size_ dev.
(** The superblock, the disk at the start of the transaction and its trace. *)
Context (sb : superblock) (dv : disk) (tr : list (Z * Z * block)).
Abbreviation home := (home start size_).
Abbreviation bm := (sb_bmapstart sb).

(** Blocks that hold file contents. *)
Definition inode_blk (k : Z) : Prop :=
  ∃ inum, 0 ≤ inum < sb_ninodes sb ∧ k = inum / IPB + sb_inodestart sb.
Definition data_blk (k : Z) : Prop := home k ∧ k ≠ bm ∧ ¬ inode_blk k ∧ 0 < k < sb_size sb.
Record sb_ok : Prop := {
  so_size : 0 < sb_size sb ≤ FSSIZE;
  so_bm : home bm;
  so_inode : ∀ k, inode_blk k → home k ∧ k ≠ bm ∧ k < FSSIZE;
  so_istart : 0 ≤ sb_inodestart sb < FSSIZE }.
Hypothesis Hsb : sb_ok.

(** The most blocks a transaction can log. *)
Definition LIM : Z := Z.min (size_ - 1) 29.

Definition marked (c : disk) (k : Z) : bool := bit_set (c dev bm) k.
(** Blocks have their size, and the blocks that are not for files are marked. *)
Definition fs_ok (c : disk) : Prop :=
  (∀ k, block_ok (c dev k)) ∧ (∀ k, 0 ≤ k < sb_size sb → ¬ data_blk k → marked c k = true).
Definition nfree (c : disk) : nat :=
  length (filter (λ k, marked c (Z.of_nat k) = false) (seq 0 (Z.to_nat (sb_size sb)))).

Record ftx (s : fstate) (ic : list inode) (c : disk) (bl : list Z) (B : gmap (Z * Z) nat) : Prop := {
  ft_sb : fs_sb s = sb;
  ft_ic : fs_ic s = ic;
  ft_tx : in_tx start size_ dev (fs_ls s) c dv tr bl B }.

(** ** Files *)
Definition faddr (c : disk) (ip : inode) (bn : Z) : Z :=
  if bn <? NDIRECT then default 0 (i_addrs ip !! Z.to_nat bn)
  else
    let ind := default 0 (i_addrs ip !! Z.to_nat NDIRECT) in
    if ind =? 0 then 0 else get32 (c dev ind) (Z.to_nat (4 * (bn - NDIRECT))).
Definition find_ (ip : inode) : Z := default 0 (i_addrs ip !! Z.to_nat NDIRECT).
Definition fblock (c : disk) (ip : inode) (bn : Z) : block :=
  if faddr c ip bn =? 0 then zero_block else c dev (faddr c ip bn).
Definition in_file (bn : Z) : Prop := 0 ≤ bn < MAXFILE.
Definition fbyte (c : disk) (ip : inode) (o : Z) : Z :=
  get8 (fblock c ip (o / BSIZE)) (Z.to_nat (o mod BSIZE)).

(** The blocks of the file and its indirect block. *)
Definition owned (c : disk) (ip : inode) (k : Z) : Prop :=
  k ≠ 0 ∧ (find_ ip = k ∨ ∃ bn, in_file bn ∧ faddr c ip bn = k).
Record inode_wf (c : disk) (ip : inode) : Prop := {
  iw_dev : i_dev ip = dev;
  iw_len : length (i_addrs ip) = Z.to_nat (NDIRECT + 1);
  iw_word : Forall word_ok (i_addrs ip);
  iw_owned : ∀ k, owned c ip k → data_blk k ∧ marked c k = true;
  iw_inj : ∀ b1 b2, in_file b1 → in_file b2 → faddr c ip b1 = faddr c ip b2 →
             faddr c ip b1 ≠ 0 → b1 = b2;
  iw_ind : ∀ b, in_file b → faddr c ip b ≠ 0 → faddr c ip b ≠ find_ ip }.

(** Changes to the file [ip] only: other blocks in use keep their contents, and
    the file takes new blocks only from the free ones. *)
Record only_file (c : disk) (ip : inode) (c' : disk) (ip' : inode) : Prop := {
  of_other : ∀ k, 0 ≤ k < FSSIZE → (k < sb_size sb → marked c k = true) → k ≠ bm →
               ¬ owned c ip k → c' dev k = c dev k;
  of_marked : ∀ k, 0 ≤ k < sb_size sb → marked c k = true → marked c' k = true;
  of_owned : ∀ k, owned c' ip' k → owned c ip k ∨ marked c k = false;
  of_keeps : ∀ k, owned c ip k → owned c' ip' k }.

(** ** Rules for the cache and the log on the state of fs.c *)
Lemma wp_on_log {A} F (e : M lstate A) Q (s : fstate) :
  wp F e (λ a l, Q a (set_ls l s)) (fs_ls s) → wp F (on_log e) Q s.
Proof. apply wp_zoom. Qed.

Lemma Hdev' : 0 ≤ dev < NODEV.
Proof. apply Hgeo. Qed.
Lemma geo_start : 1 < start.
Proof. apply Hgeo. Qed.
Lemma geo_size : 0 < size_.
Proof. apply Hgeo. Qed.
Lemma geo_end : start + size_ ≤ FSSIZE.
Proof. apply Hgeo. Qed.

Lemma f_bread F s ic c bl B k Q :
  ftx s ic c bl B → 0 ≤ k < FSSIZE → B !! (dev, k) = None →
  (k ∈ bl ∨ (length bl + size B < 30)%nat) →
  (∀ i s', ftx s' ic c bl (<[(dev, k) := i]> B) → Q i s') →
  wp F (on_buf (bread dev k)) Q s.
Proof.
  intros [H1 H2 H3] Hk HB Hr HQ. apply wp_on_log.
  eapply (tx_bread start size_ dev Hdev' geo_start geo_size geo_end); [done..|]. intros i s' Hs'. by apply HQ.
Qed.
Lemma f_get_buf F s ic c bl B k i Q :
  ftx s ic c bl B → B !! (dev, k) = Some i → (∀ b, b_data b = c dev k → Q b s) →
  wp F (on_buf (get_buf i)) Q s.
Proof.
  intros [H1 H2 H3] HB HQ. apply wp_on_log. eapply (tx_get_buf start size_ dev); [done..|].
  intros b Hb. destruct s. by apply HQ.
Qed.
Lemma f_upd_data F s ic c bl B k i f Q :
  ftx s ic c bl B → B !! (dev, k) = Some i →
  (∀ s', ftx s' ic (disk_write c dev k (f (c dev k))) bl B → Q tt s') →
  wp F (on_buf (upd_data i f)) Q s.
Proof.
  intros [H1 H2 H3] HB HQ. apply wp_on_log. eapply (tx_upd_data start size_ dev); [done..|].
  intros s' Hs'. by apply HQ.
Qed.
Lemma f_brelse F s ic c bl B k i Q :
  ftx s ic c bl B → B !! (dev, k) = Some i → (k ∈ bl ∨ c dev k = dv dev k) →
  (∀ s', ftx s' ic c bl (delete (dev, k) B) → Q tt s') →
  wp F (on_buf (brelse i)) Q s.
Proof.
  intros [H1 H2 H3] HB Hk HQ. apply wp_on_log. eapply (tx_brelse start size_ dev); [done..|].
  intros s' Hs'. by apply HQ.
Qed.
Lemma f_log_write F s ic c bl B k i Q :
  ftx s ic c bl B → B !! (dev, k) = Some i → home k → Z.of_nat (length bl) < LIM →
  (∀ s', ftx s' ic c (absorb k bl) B → Q tt s') → wp F (on_log (log_write i)) Q s.
Proof.
  intros [H1 H2 H3] HB Hk Hl HQ. apply wp_on_log.
  eapply (tx_log_write start size_ dev Hdev'); [done..|].
  intros s' Hs'. by apply HQ.
Qed.
Lemma f_held s ic c bl B k :
  ftx s ic c bl B → B !! (dev, k) = None → k ∈ bl ∨ c dev k = dv dev k.
Proof. intros [_ _ H]. by apply (in_tx_held start size_ dev Hdev' _ _ _ _ _ _ _ H). Qed.
Lemma f_sb F s ic c bl B Q : ftx s ic c bl B → Q sb s → wp F the_sb Q s.
Proof. intros [<- _ _] HQ. done. Qed.
Lemma f_get_inode F s ic c bl B i ip Q :
  ftx s ic c bl B → ic !! i = Some ip → Q ip s → wp F (get_inode i) Q s.
Proof. intros [_ <- _] Hi HQ. unfold wp, get_inode, bind, gets. by rewrite Hi. Qed.
Lemma f_upd_inode F s ic c bl B i ip f Q :
  ftx s ic c bl B → ic !! i = Some ip →
  (∀ s', ftx s' (<[i := f ip]> ic) c bl B → Q tt s') → wp F (upd_inode i f) Q s.
Proof.
  intros Hs Hi HQ. unfold upd_inode. apply wp_bind. eapply f_get_inode; [done..|].
  apply wp_modify, HQ. destruct Hs as [H1 <- H3]. by split.
Qed.

(** ** Free blocks *)
Lemma bm_range : 0 ≤ bm < FSSIZE.
Proof. apply (so_bm Hsb). Qed.
Lemma BBLOCK_bm b : 0 ≤ b < BPB → BBLOCK b sb = bm.
Proof.
  intros H. unfold BBLOCK. rewrite Z.div_small by done. apply u32_small. pose proof bm_range.
  unfold FSSIZE in *. lia.
Qed.
Lemma sb_size_BPB : sb_size sb ≤ FSSIZE ∧ FSSIZE < BPB.
Proof. split; [apply (so_size Hsb)|]. unfold FSSIZE, BPB, BSIZE. lia. Qed.

Lemma BPB_fuel : BPB - 0 ≤ Z.of_nat (Z.to_nat BPB).
Proof. rewrite Z2Nat.id by done. done. Qed.
(** The block that [balloc] takes. *)
Definition free_blk (c : disk) : option Z := find_free (Z.to_nat BPB) (c dev bm) 0 (sb_size sb) 0.
Definition balloc_disk (c : disk) (b : Z) : disk :=
  disk_write (disk_write c dev bm (mark_bit b (c dev bm))) dev b zero_block.

Lemma free_blk_some c b :
  fs_ok c → free_blk c = Some b →
  data_blk b ∧ marked c b = false ∧ ∀ j, 0 ≤ j < b → marked c j = true.
Proof.
  intros [_ Hm] H. unfold free_blk in H.
  pose proof (find_free_spec _ (c dev bm) 0 (sb_size sb) 0 (Z.le_refl 0) BPB_fuel) as Hs.
  rewrite H in Hs. destruct Hs as (H1 & H2 & H3 & H4). split_and!; [|done|intros j Hj; apply H4; lia].
  destruct (decide (0 ≤ b < sb_size sb)) as [Hb|]; [|lia].
  assert (¬ ¬ data_blk b) as Hnn.
  { intros Hn. unfold marked in Hm. rewrite (Hm b Hb Hn) in H3. done. }
  assert (b ≠ 0).
  { intros ->. assert (¬ data_blk 0) as H0 by (unfold data_blk; lia).
    unfold marked in Hm. rewrite (Hm 0 Hb H0) in H3. done. }
  destruct (decide (home b ∧ b ≠ bm)) as [[Hh Hbm]|Hn].
  - unfold data_blk. split_and!; [done|done| |lia|lia]. intros Hi. apply Hnn. unfold data_blk. tauto.
  - destruct Hnn. unfold data_blk. tauto.
Qed.

Section Balloc.
Context (c : disk) (b : Z).
Hypothesis Hok : fs_ok c.
Hypothesis Hb : free_blk c = Some b.

Lemma balloc_data : data_blk b.
Proof. by apply free_blk_some with c. Qed.
Lemma balloc_range : 0 ≤ b < BPB.
Proof. destruct balloc_data as (_ & _ & _ & H). pose proof sb_size_BPB. lia. Qed.
Lemma balloc_other k : k ≠ bm → k ≠ b → balloc_disk c b dev k = c dev k.
Proof. intros H1 H2. unfold balloc_disk. by rewrite !disk_write_ne by congruence. Qed.
Lemma balloc_bm : balloc_disk c b dev bm = mark_bit b (c dev bm).
Proof.
  destruct balloc_data as (_ & Hne & _). unfold balloc_disk.
  by rewrite disk_write_ne, disk_write_eq by congruence.
Qed.
Lemma balloc_zero : balloc_disk c b dev b = zero_block.
Proof. apply disk_write_eq. Qed.
Lemma marked_balloc k : 0 ≤ k < BPB → marked (balloc_disk c b) k = (b =? k) || marked c k.
Proof.
  intros Hk. unfold marked. rewrite balloc_bm. apply bit_set_mark; [apply Hok|apply balloc_range|done].
Qed.
Lemma marked_balloc_mono k : 0 ≤ k < sb_size sb → marked c k = true → marked (balloc_disk c b) k = true.
Proof.
  intros Hk Hm. pose proof sb_size_BPB. rewrite marked_balloc by lia. rewrite Hm. apply orb_true_r.
Qed.
Lemma fs_ok_balloc : fs_ok (balloc_disk c b).
Proof.
  split.
  - intros k. unfold balloc_disk, disk_write. destruct (_ && _); [apply zero_block_ok|].
    destruct (_ && _); [apply mark_bit_ok, Hok|apply Hok].
  - intros k Hk Hn. apply marked_balloc_mono; [done|]. by apply Hok.
Qed.
Lemma nfree_balloc : nfree c = S (nfree (balloc_disk c b)).
Proof.
  destruct (free_blk_some c b Hok Hb) as ((_ & _ & _ & Hr) & Hm & _). pose proof sb_size_BPB.
  unfold nfree. apply (filter_count_change _ _ _ (Z.to_nat b)).
  - apply NoDup_seq.
  - apply elem_of_seq. lia.
  - by rewrite Z2Nat.id by lia.
  - rewrite Z2Nat.id, marked_balloc, Z.eqb_refl by lia. done.
  - intros k Hk%elem_of_seq Hne. rewrite marked_balloc by lia.
    by rewrite (proj2 (Z.eqb_neq b _)) by lia.
Qed.
End Balloc.

(** The logged blocks are all in [U]. *)
Definition cover (bl : list Z) (U : gset Z) : Prop := ∀ k, k ∈ bl → k ∈ U.
Lemma cover_length s ic c bl B U : ftx s ic c bl B → cover bl U → (length bl ≤ size U)%nat.
Proof.
  intros [_ _ H] Hc. pose proof (it_nodup _ _ _ _ _ _ _ _ _ _ H) as Hnd.
  rewrite <- (size_list_to_set (C := gset Z) bl) by done. apply subseteq_size.
  intros k Hk%elem_of_list_to_set. by apply Hc.
Qed.
Lemma cover_absorb k bl U : cover bl U → k ∈ U → cover (absorb k bl) U.
Proof.
  intros Hc Hk j Hj. unfold absorb in Hj. case_decide; [by apply Hc|].
  apply elem_of_app in Hj as [Hj|Hj%list_elem_of_singleton]; [by apply Hc|by subst].
Qed.
Lemma cover_mono bl U U' : cover bl U → U ⊆ U' → cover bl U'.
Proof. intros Hc HU k Hk. by apply HU, Hc. Qed.
Lemma cover_alloc b bl U : cover bl U → bm ∈ U → cover (absorb b (absorb bm bl)) ({[b]} ∪ U).
Proof.
  intros Hc Hb. apply cover_absorb; [|set_solver]. apply cover_absorb; [|set_solver].
  eapply cover_mono; [done|set_solver].
Qed.

Lemma wp_bzero F s ic c bl B U b Q :
  ftx s ic c bl B → cover bl U → Z.of_nat (size U) < LIM → (size B ≤ 1)%nat →
  B !! (dev, b) = None → home b →
  (∀ s', ftx s' ic (disk_write c dev b zero_block) (absorb b bl) B → Q tt s') →
  wp F (bzero dev b) Q s.
Proof.
  intros Hs Hc HU HB Hn Hh HQ. pose proof (cover_length _ _ _ _ _ _ Hs Hc) as Hl.
  unfold LIM in HU. unfold bzero. apply wp_bind.
  eapply f_bread; [done|apply Hh|done|right; lia|]. intros i s1 Hs1. apply wp_bind.
  eapply f_upd_data; [done|apply lookup_insert_eq|]. intros s2 Hs2. apply wp_bind.
  eapply f_log_write; [done|apply lookup_insert_eq|done|unfold LIM; lia|]. intros s3 Hs3.
  eapply f_brelse; [done|apply lookup_insert_eq|left; apply absorb_elem|].
  intros s4 Hs4. apply HQ. by rewrite delete_insert_id in Hs4.
Qed.

(** [balloc] takes the lowest free block, marks it and clears it. *)
Lemma wp_balloc F s ic c bl B U b Q :
  ftx s ic c bl B → fs_ok c → free_blk c = Some b → cover bl U → bm ∈ U →
  Z.of_nat (size U) < LIM → (size B ≤ 1)%nat → B !! (dev, bm) = None → B !! (dev, b) = None →
  (∀ s', ftx s' ic (balloc_disk c b) (absorb b (absorb bm bl)) B → Q b s') →
  wp F (balloc dev) Q s.
Proof.
  intros Hs Hok Hb Hc Hbm HU HB HnB Hnb HQ. pose proof (cover_length _ _ _ _ _ _ Hs Hc) as Hl.
  pose proof (balloc_data c b Hok Hb) as (Hh & Hne & _ & Hr). pose proof HU as HU'. unfold LIM in HU'.
  unfold balloc. apply wp_bind. eapply f_sb; [done|]. cbn [balloc_loop].
  apply wp_bind. eapply f_sb; [done|]. rewrite (proj2 (Z.ltb_lt 0 _)) by lia.
  rewrite BBLOCK_bm by (unfold BPB, BSIZE; lia). apply wp_bind.
  eapply f_bread; [done|apply bm_range|done|right; lia|]. intros i s1 Hs1. apply wp_bind.
  eapply f_get_buf; [done|apply lookup_insert_eq|]. intros bu ->.
  change (find_free (Z.to_nat BPB) (c dev bm) 0 (sb_size sb) 0) with (free_blk c). rewrite Hb.
  apply wp_bind. eapply f_upd_data; [done|apply lookup_insert_eq|]. intros s2 Hs2. apply wp_bind.
  eapply f_log_write; [done|apply lookup_insert_eq|apply (so_bm Hsb)|lia|]. intros s3 Hs3. apply wp_bind.
  eapply f_brelse; [done|apply lookup_insert_eq|left; apply absorb_elem|]. intros s4 Hs4.
  rewrite delete_insert_id in Hs4 by done. apply wp_bind.
  eapply wp_bzero; [done|by apply cover_absorb|done|done|done|done|].
  intros s5 Hs5. apply wp_ret. by apply HQ.
Qed.

(** With no free block left, [balloc] panics. *)
Lemma balloc_full s ic c bl U :
  ftx s ic c bl ∅ → free_blk c = None → cover bl U → Z.of_nat (size U) < LIM →
  balloc dev s = Panic "balloc: out of blocks".
Proof.
  intros Hs Hb Hc HU. pose proof (cover_length _ _ _ _ _ _ Hs Hc) as Hl. unfold LIM in HU.
  pose proof sb_size_BPB as [HS HB]. pose proof (so_size Hsb) as Hpos.
  assert (∃ i s1, on_buf (bread dev bm) s = Ret (i, s1) ∧ ftx s1 ic c bl (<[(dev, bm) := i]> ∅))
    as (i & s1 & E1 & Hs1).
  { apply wp_ok. eapply f_bread; [done|apply bm_range|apply lookup_empty|right; rewrite map_size_empty; lia|].
    intros i s1 Hs1. done. }
  assert (∃ b s2, on_buf (get_buf i) s1 = Ret (b, s2) ∧ (s2 = s1 ∧ b_data b = c dev bm))
    as (b & s2 & E2 & -> & Hdat).
  { apply wp_ok. eapply f_get_buf; [done|apply lookup_insert_eq|]. done. }
  assert (∃ u s2, on_buf (brelse i) s1 = Ret (u, s2) ∧ ftx s2 ic c bl ∅) as (u & s2 & E3 & Hs2).
  { apply wp_ok. eapply f_brelse; [done|apply lookup_insert_eq|by eapply f_held, lookup_empty|].
    intros s2 Hs2. by rewrite delete_insert_id in Hs2 by apply lookup_empty. }
  unfold balloc, bind at 1, the_sb at 1, gets. rewrite (ft_sb _ _ _ _ _ Hs). cbn [balloc_loop].
  unfold bind at 1, the_sb at 1, gets. rewrite (ft_sb _ _ _ _ _ Hs), (proj2 (Z.ltb_lt 0 _)) by lia.
  rewrite BBLOCK_bm by (unfold BPB, BSIZE; lia). unfold bind at 1. rewrite E1. unfold bind at 1. rewrite E2, Hdat.
  change (find_free (Z.to_nat BPB) (c dev bm) 0 (sb_size sb) 0) with (free_blk c). rewrite Hb.
  unfold bind at 1. rewrite E3. unfold bind, the_sb, gets. rewrite (ft_sb _ _ _ _ _ Hs2).
  by rewrite (proj2 (Z.ltb_ge (0 + BPB) _)) by lia.
Qed.

(** ** Adding a block to a file *)
Lemma get32_zero o : get32 zero_block o = 0.
Proof.
  assert (∀ o, get8 zero_block o = 0) as H8.
  { intros o'. unfold get8, zero_block. destruct (replicate _ _ !! o') eqn:E; [|done].
    by apply lookup_replicate in E as [-> _]. }
  unfold get32. by rewrite !H8.
Qed.
Lemma MAXFILE_eq : MAXFILE = 140.
Proof. done. Qed.
Lemma owned_faddr c ip bn : in_file bn → faddr c ip bn ≠ 0 → owned c ip (faddr c ip bn).
Proof. intros Hb H. split; [done|right]. eauto. Qed.
Lemma owned_ind c ip : find_ ip ≠ 0 → owned c ip (find_ ip).
Proof. intros H. split; [done|by left]. Qed.
Lemma owned_not_free c ip b k : inode_wf c ip → fs_ok c → free_blk c = Some b → owned c ip k →
  k ≠ b ∧ k ≠ bm.
Proof.
  intros Hw Hok Hb Hk. destruct (iw_owned _ _ Hw k Hk) as [(_ & Hne & _) Hm].
  split; [|done]. intros ->. destruct (free_blk_some _ _ Hok Hb) as (_ & Hm' & _). congruence.
Qed.

(** A change of the file that keeps all contents. *)
Record grows (c : disk) (ip : inode) (c' : disk) (ip' : inode) : Prop := {
  gr_ok : fs_ok c';
  gr_wf : inode_wf c' ip';
  gr_only : only_file c ip c' ip';
  gr_same : ∀ bn, in_file bn → fblock c' ip' bn = fblock c ip bn;
  gr_keep : ∀ bn, in_file bn → faddr c ip bn ≠ 0 → faddr c' ip' bn = faddr c ip bn;
  gr_fields : ip' = set_i_addrs (i_addrs ip') ip }.

Lemma grows_refl c ip : fs_ok c → inode_wf c ip → grows c ip c ip.
Proof. intros Hok Hw. split; try done; [split; auto|by destruct ip]. Qed.

Section Slot.
Context (c : disk) (ip : inode) (b : Z) (n : nat).
Hypothesis Hok : fs_ok c.
Hypothesis Hw : inode_wf c ip.
Hypothesis Hb : free_blk c = Some b.
Hypothesis Hn : (n ≤ 12)%nat.
Hypothesis Hz : i_addrs ip !! n = Some 0.
Let c' := balloc_disk c b.
Let ip' := set_i_addrs (<[n := b]> (i_addrs ip)) ip.

Lemma slot_len : (n < length (i_addrs ip))%nat.
Proof. by eapply lookup_lt_Some. Qed.
Lemma slot_find : find_ ip' = if (n =? 12)%nat then b else find_ ip.
Proof.
  pose proof slot_len as Hsl.
  unfold find_. simpl. change (Z.to_nat NDIRECT) with 12%nat. destruct (Nat.eqb_spec n 12) as [->|Hne].
  - rewrite list_lookup_insert_eq by done. done.
  - by rewrite list_lookup_insert_ne by done.
Qed.
Lemma slot_faddr bn : in_file bn →
  faddr c' ip' bn = if (n <? 12)%nat && (bn =? Z.of_nat n) then b else faddr c ip bn.
Proof.
  pose proof slot_len as Hsl. pose proof slot_find as Hsf.
  intros [Hb1 Hb2]. unfold faddr. change (default 0 (i_addrs ip' !! Z.to_nat NDIRECT)) with (find_ ip').
  change (default 0 (i_addrs ip !! Z.to_nat NDIRECT)) with (find_ ip).
  destruct (Z.ltb_spec bn NDIRECT) as [Hlt|Hge].
  - simpl. unfold NDIRECT in Hlt. destruct (decide (n = Z.to_nat bn)) as [->|Hne].
    + rewrite list_lookup_insert_eq by done.
      rewrite (proj2 (Nat.ltb_lt _ _)), Z2Nat.id, Z.eqb_refl by lia. done.
    + rewrite list_lookup_insert_ne by done.
      rewrite (proj2 (Z.eqb_neq bn _)) by lia. by rewrite andb_false_r.
  - unfold NDIRECT in Hge. replace ((n <? 12)%nat && (bn =? Z.of_nat n)) with false.
    2:{ symmetry. apply andb_false_iff. destruct (Nat.ltb_spec n 12); [right|by left].
        apply Z.eqb_neq. lia. }
    rewrite Hsf. destruct (Nat.eqb_spec n 12) as [E|Hne].
    + assert (find_ ip = 0) as E0.
      { unfold find_. change (Z.to_nat NDIRECT) with 12%nat. by rewrite <- E, Hz. }
      rewrite E0. destruct (b =? 0); [done|]. unfold c'. by rewrite balloc_zero, get32_zero.
    + destruct (Z.eqb_spec (find_ ip) 0) as [|Hf]; [done|].
      destruct (owned_not_free c ip b _ Hw Hok Hb (owned_ind c ip Hf)).
      unfold c'. by rewrite balloc_other.
Qed.

Lemma slot_owned k : owned c' ip' k ↔ owned c ip k ∨ k = b.
Proof.
  destruct (balloc_data c b Hok Hb) as (_ & _ & _ & Hr).
  unfold owned. rewrite slot_find. split.
  - intros [Hk [Hf|(bn & Hin & Hf)]].
    + destruct (n =? 12)%nat; [by right|]. auto.
    + rewrite slot_faddr in Hf by done. destruct (_ && _); [by right|]. left. eauto.
  - intros [[Hk [Hf|(bn & Hin & Hf)]]| ->].
    + split; [done|left]. destruct (Nat.eqb_spec n 12) as [->|]; [|done].
      unfold find_ in Hf. change (Z.to_nat NDIRECT) with 12%nat in Hf. rewrite Hz in Hf. simpl in Hf. lia.
    + split; [done|right]. exists bn. split; [done|]. rewrite slot_faddr by done.
      destruct (_ && _) eqn:E; [|done]. bool_to_prop. exfalso. apply Hk. rewrite <- Hf. unfold faddr.
      apply Nat.ltb_lt in H. unfold NDIRECT. rewrite (proj2 (Z.ltb_lt _ _)) by lia.
      rewrite H0, Nat2Z.id, Hz. done.
    + split; [lia|]. destruct (Nat.eqb_spec n 12) as [E|Hne]; [by left|right].
      exists (Z.of_nat n). split; [unfold in_file; rewrite MAXFILE_eq; lia|].
      rewrite slot_faddr by (unfold in_file; rewrite MAXFILE_eq; lia).
      rewrite (proj2 (Nat.ltb_lt n 12)), Z.eqb_refl by lia. done.
Qed.

Lemma slot_grows : grows c ip c' ip'.
Proof.
  destruct (free_blk_some c b Hok Hb) as ((Hh & Hbm & Hni & Hr) & Hm & _). pose proof sb_size_BPB as HS.
  assert (∀ bn, in_file bn → (n <? 12)%nat && (bn =? Z.of_nat n) = true → faddr c ip bn = 0) as Hz'.
  { intros bn Hin E. bool_to_prop. unfold faddr. apply Nat.ltb_lt in H. subst bn.
    unfold NDIRECT. rewrite (proj2 (Z.ltb_lt _ _)), Nat2Z.id, Hz by lia. done. }
  assert (∀ k, owned c ip k → k ≠ b) as Hob by (intros k Hk; by destruct (owned_not_free c ip b k)).
  split; [by apply fs_ok_balloc| | | | |done].
  - split; [apply Hw|simpl; rewrite length_insert; apply Hw| | | |].
    + simpl. apply Forall_insert; [apply Hw|]. unfold word_ok. unfold FSSIZE in HS. lia.
    + intros k [Hk| ->]%slot_owned.
      * destruct (iw_owned _ _ Hw k Hk) as [Hd Hmk]. split; [done|].
        apply marked_balloc_mono; [done|done|destruct Hd as (_&_&_&?); lia|done].
      * split; [done|]. unfold c'. rewrite marked_balloc, Z.eqb_refl by (done || lia). done.
    + intros b1 b2 H1 H2 E Hnz. rewrite !slot_faddr in * by done.
      destruct (_ && (b1 =? _)) eqn:E1, (_ && (b2 =? _)) eqn:E2.
      * bool_to_prop. congruence.
      * exfalso. eapply Hob; [apply (owned_faddr c ip b2); [done|congruence]|done].
      * exfalso. eapply Hob; [apply (owned_faddr c ip b1); [done|congruence]|done].
      * by apply (iw_inj _ _ Hw).
    + intros bn Hin Hnz. rewrite slot_faddr in * by done. rewrite slot_find.
      destruct (_ && _) eqn:E1; bool_to_prop.
      * apply Nat.ltb_lt in H. rewrite (proj2 (Nat.eqb_neq n 12)) by lia.
        intros E. destruct (decide (find_ ip = 0)); [lia|].
        by apply (Hob (find_ ip)); [apply owned_ind|].
      * destruct (n =? 12)%nat; [|by apply Hw]. apply Hob. by apply owned_faddr.
  - split.
    + intros k Hk Hmk Hkb Hno. apply balloc_other; [done|]. intros ->. rewrite Hmk in Hm by lia. done.
    + intros k Hk. by apply marked_balloc_mono.
    + intros k [Hk| ->]%slot_owned; auto.
    + intros k Hk. apply slot_owned. by left.
  - intros bn Hin. unfold fblock. rewrite slot_faddr by done.
    destruct (_ && _) eqn:E.
    + rewrite (Hz' bn Hin E). rewrite (proj2 (Z.eqb_neq b 0)) by lia. simpl. apply balloc_zero.
    + destruct (Z.eqb_spec (faddr c ip bn) 0) as [|Hf]; [done|].
      destruct (owned_not_free c ip b _ Hw Hok Hb (owned_faddr _ _ _ Hin Hf)). by apply balloc_other.
  - intros bn Hin Hnz. rewrite slot_faddr by done. destruct (_ && _) eqn:E; [|done].
    by rewrite (Hz' bn Hin E) in Hnz.
Qed.
End Slot.

(** A new entry in the indirect block. *)
Section Entry.
Context (c : disk) (ip : inode) (b bn : Z).
Hypothesis Hok : fs_ok c.
Hypothesis Hw : inode_wf c ip.
Hypothesis Hb : free_blk c = Some b.
Hypothesis Hbn : NDIRECT ≤ bn < MAXFILE.
Hypothesis Hind : find_ ip ≠ 0.
Hypothesis Hz : faddr c ip bn = 0.
Let o := Z.to_nat (4 * (bn - NDIRECT)).
Let c' := disk_write (balloc_disk c b) dev (find_ ip) (put32 o b (c dev (find_ ip))).

Lemma entry_ind : find_ ip ≠ b ∧ find_ ip ≠ bm.
Proof. by apply (owned_not_free c ip b), owned_ind. Qed.
Lemma entry_other k : k ≠ find_ ip → k ≠ b → k ≠ bm → c' dev k = c dev k.
Proof. intros H1 H2 H3. unfold c'. rewrite disk_write_ne by congruence. by apply balloc_other. Qed.
Lemma entry_marked k : marked c' k = marked (balloc_disk c b) k.
Proof. destruct entry_ind. unfold marked, c'. by rewrite disk_write_ne by congruence. Qed.
Lemma entry_faddr bn' : in_file bn' → faddr c' ip bn' = if bn' =? bn then b else faddr c ip bn'.
Proof.
  intros [H1 H2]. rewrite MAXFILE_eq in *. unfold NDIRECT in Hbn. unfold faddr. fold (find_ ip).
  destruct (Z.ltb_spec bn' NDIRECT) as [Hlt|Hge].
  - unfold NDIRECT in Hlt. by rewrite (proj2 (Z.eqb_neq bn' bn)) by lia.
  - unfold NDIRECT in Hge. rewrite (proj2 (Z.eqb_neq (find_ ip) 0)) by done.
    unfold c'. rewrite disk_write_eq. destruct Hok as [Hbo _]. destruct (Hbo (find_ ip)) as [Hl _].
    assert (length (c dev (find_ ip)) = 512)%nat as Hl' by exact Hl.
    destruct (balloc_data c b Hok Hb) as (_ & _ & _ & Hr). pose proof sb_size_BPB as HS.
    destruct (Z.eqb_spec bn' bn) as [->|Hne].
    + unfold o. rewrite get32_put32_eq by (unfold NDIRECT; lia). apply u32_small. unfold FSSIZE in HS. lia.
    + unfold o. by rewrite get32_put32_ne by (unfold NDIRECT; lia).
Qed.
Lemma entry_owned k : owned c' ip k ↔ owned c ip k ∨ k = b.
Proof.
  destruct (balloc_data c b Hok Hb) as (_ & _ & _ & Hr). unfold owned. split.
  - intros [Hk [Hf|(bn' & Hin & Hf)]]; [left; auto|]. rewrite entry_faddr in Hf by done.
    destruct (bn' =? bn); [by right|left; eauto].
  - intros [[Hk [Hf|(bn' & Hin & Hf)]]| ->].
    + auto.
    + split; [done|right]. exists bn'. split; [done|]. rewrite entry_faddr by done.
      destruct (Z.eqb_spec bn' bn) as [->|]; [congruence|done].
    + split; [lia|right]. exists bn. assert (in_file bn) by (unfold in_file, NDIRECT in *; lia).
      split; [done|]. by rewrite entry_faddr, Z.eqb_refl by done.
Qed.

Lemma entry_grows : grows c ip c' ip.
Proof.
  destruct (free_blk_some c b Hok Hb) as ((Hh & Hbm & Hni & Hr) & Hm & _). pose proof sb_size_BPB as HS.
  assert (∀ k, owned c ip k → k ≠ b) as Hob by (intros k Hk; by destruct (owned_not_free c ip b k)).
  destruct (fs_ok_balloc c b Hok Hb) as [Hbo Hmm]. destruct entry_ind as [Hib Hibm].
  split; [| | | | |by destruct ip].
  - split.
    + intros k. unfold c', disk_write at 1. destruct (_ && _); [apply put32_ok, Hok|apply Hbo].
    + intros k Hk Hn. rewrite entry_marked. by apply Hmm.
  - split; [apply Hw..| | |].
    + intros k [Hk| ->]%entry_owned; rewrite entry_marked.
      * destruct (iw_owned _ _ Hw k Hk) as [Hd Hmk]. split; [done|].
        apply marked_balloc_mono; [done|done|destruct Hd as (_&_&_&?); lia|done].
      * split; [done|]. rewrite marked_balloc, Z.eqb_refl by (done || lia). done.
    + intros b1 b2 H1 H2 E Hnz. rewrite !entry_faddr in * by done.
      destruct (Z.eqb_spec b1 bn) as [->|], (Z.eqb_spec b2 bn) as [->|]; [done| | |].
      * exfalso. eapply Hob; [apply (owned_faddr c ip b2); [done|congruence]|done].
      * exfalso. eapply Hob; [apply (owned_faddr c ip b1); [done|congruence]|done].
      * by apply (iw_inj _ _ Hw).
    + intros bn' Hin Hnz. rewrite entry_faddr in * by done.
      destruct (bn' =? bn); [congruence|by apply Hw].
  - split.
    + intros k Hk Hmk Hkb Hno. apply entry_other; [| |done].
      * intros ->. apply Hno. by apply owned_ind.
      * intros ->. rewrite Hmk in Hm by lia. done.
    + intros k Hk Hmk. rewrite entry_marked. by apply marked_balloc_mono.
    + intros k [Hk| ->]%entry_owned; auto.
    + intros k Hk. apply entry_owned. by left.
  - intros bn' Hin. unfold fblock. rewrite entry_faddr by done.
    destruct (Z.eqb_spec bn' bn) as [->|Hne].
    + rewrite Hz, (proj2 (Z.eqb_neq b 0)) by lia. simpl. unfold c'.
      rewrite disk_write_ne by congruence. apply balloc_zero.
    + destruct (Z.eqb_spec (faddr c ip bn') 0) as [|Hf]; [done|].
      destruct (owned_not_free c ip b _ Hw Hok Hb (owned_faddr _ _ _ Hin Hf)).
      apply entry_other; [by apply (iw_ind _ _ Hw)|done|done].
  - intros bn' Hin Hnz. rewrite entry_faddr by done. destruct (Z.eqb_spec bn' bn) as [->|]; [congruence|done].
Qed.
Lemma entry_nfree : nfree c = S (nfree c').
Proof.
  rewrite (nfree_balloc c b Hok Hb). unfold nfree. do 2 f_equal. apply filter_agree.
  intros k _. by rewrite entry_marked.
Qed.
End Entry.

(** What any change of the file keeps. *)
Record keeps (c : disk) (ip : inode) (c' : disk) (ip' : inode) : Prop := {
  kp_ok : fs_ok c';
  kp_wf : inode_wf c' ip';
  kp_only : only_file c ip c' ip';
  kp_keep : ∀ bn, in_file bn → faddr c ip bn ≠ 0 → faddr c' ip' bn = faddr c ip bn;
  kp_fields : ip' = set_i_addrs (i_addrs ip') ip }.
Lemma grows_keeps c ip c' ip' : grows c ip c' ip' → keeps c ip c' ip'.
Proof. by intros []. Qed.
Lemma keeps_trans c ip c1 ip1 c2 ip2 : keeps c ip c1 ip1 → keeps c1 ip1 c2 ip2 → keeps c ip c2 ip2.
Proof.
  intros [G1 W1 O1 K1 F1] [G2 W2 O2 K2 F2].
  assert (∀ k, owned c1 ip1 k → 0 ≤ k < sb_size sb) as R1.
  { intros k Hk. destruct (iw_owned _ _ W1 k Hk) as [(_&_&_&?) _]. lia. }
  assert (∀ k, owned c2 ip2 k → 0 ≤ k < sb_size sb) as R2.
  { intros k Hk. destruct (iw_owned _ _ W2 k Hk) as [(_&_&_&?) _]. lia. }
  split; [done|done| | |].
  - split.
    + intros k Hk Hm Hb Ho. rewrite (of_other _ _ _ _ O2), (of_other _ _ _ _ O1); [done..| |done|].
      * intros Hlt. apply (of_marked _ _ _ _ O1); [lia|by apply Hm].
      * intros Hk1. destruct (of_owned _ _ _ _ O1 k Hk1) as [|Hf]; [done|].
        rewrite Hm in Hf by (apply R1 in Hk1; lia). done.
    + intros k Hk Hm. apply (of_marked _ _ _ _ O2); [done|]. by apply (of_marked _ _ _ _ O1).
    + intros k Hk. destruct (of_owned _ _ _ _ O2 k Hk) as [Hk1|Hf]; [by apply (of_owned _ _ _ _ O1)|].
      right. destruct (marked c k) eqn:E; [|done].
      rewrite (of_marked _ _ _ _ O1 k (R2 k Hk) E) in Hf. done.
    + intros k Hk. by apply (of_keeps _ _ _ _ O2), (of_keeps _ _ _ _ O1).
  - intros bn Hb Hn. rewrite (K2 bn Hb) by (by rewrite K1). by apply K1.
  - rewrite F2 at 1. rewrite F1. done.
Qed.
Lemma grows_trans c ip c1 ip1 c2 ip2 : grows c ip c1 ip1 → grows c1 ip1 c2 ip2 → grows c ip c2 ip2.
Proof.
  intros H1 H2. pose proof (keeps_trans _ _ _ _ _ _ (grows_keeps _ _ _ _ H1) (grows_keeps _ _ _ _ H2)) as [].
  split; try done. intros bn Hb. by rewrite (gr_same _ _ _ _ H2), (gr_same _ _ _ _ H1).
Qed.

Lemma nfree_free c : (0 < nfree c)%nat → ∃ b, free_blk c = Some b.
Proof.
  intros H. destruct (free_blk c) as [b|] eqn:E; [eauto|]. exfalso. unfold free_blk in E.
  pose proof (find_free_spec _ (c dev bm) 0 (sb_size sb) 0 (Z.le_refl 0) BPB_fuel) as Hs.
  rewrite E in Hs. pose proof sb_size_BPB. unfold nfree in H.
  destruct (filter _ _) as [|k l] eqn:Ef; [simpl in H; lia|].
  assert (k ∈ filter (λ k, marked c (Z.of_nat k) = false) (seq 0 (Z.to_nat (sb_size sb)))) as Hk
    by (rewrite Ef; left).
  apply list_elem_of_filter in Hk as [Hm Hk%elem_of_seq]. unfold marked in Hm.
  rewrite Hs in Hm by lia. done.
Qed.

(** ** [bmap] *)
Lemma wp_addr_or_alloc F s ic c bl U i ip n a Q :
  ftx s ic c bl ∅ → ic !! i = Some ip → fs_ok c → i_dev ip = dev → cover bl U → bm ∈ U →
  i_addrs ip !! Z.to_nat n = Some a →
  (a = 0 → Z.of_nat (size U) < LIM ∧ (0 < nfree c)%nat) →
  (a ≠ 0 → Q a s) →
  (∀ b s', a = 0 → free_blk c = Some b →
     ftx s' (<[i := set_i_addrs (<[Z.to_nat n := b]> (i_addrs ip)) ip]> ic) (balloc_disk c b)
       (absorb b (absorb bm bl)) ∅ → Q b s') →
  wp F (addr_or_alloc i n) Q s.
Proof.
  intros Hs Hi Hok Hd Hc Hbm Ha H0 Q1 Q2. unfold addr_or_alloc. apply wp_bind.
  unfold get_addr. apply wp_bind. eapply f_get_inode; [done..|]. rewrite Ha. apply wp_ret.
  destruct (Z.eqb_spec a 0) as [->|Hn]; [|by apply wp_ret, Q1].
  destruct H0 as [HU Hf]; [done|]. destruct (nfree_free c Hf) as [b Hb].
  apply wp_bind. eapply f_get_inode; [done..|]. rewrite Hd. apply wp_bind.
  eapply wp_balloc; [done|done|done|done|done|done|by rewrite map_size_empty; lia|apply lookup_empty..|].
  intros s1 Hs1. apply wp_bind. eapply f_upd_inode; [done..|]. intros s2 Hs2.
  apply wp_ret. by apply Q2.
Qed.

Section Indirect.
Context (s : fstate) (ic : list inode) (c : disk) (bl : list Z) (i : nat) (ip : inode) (bn : Z).
Hypothesis Hs : ftx s ic c bl ∅.
Hypothesis Hi : ic !! i = Some ip.
Hypothesis Hok : fs_ok c.
Hypothesis Hw : inode_wf c ip.
Hypothesis Hbn : NDIRECT ≤ bn < MAXFILE.
Hypothesis Hind : find_ ip ≠ 0.

Lemma indirect_data : data_blk (find_ ip).
Proof. by apply (iw_owned _ _ Hw), owned_ind. Qed.
Lemma indirect_faddr : faddr c ip bn = get32 (c dev (find_ ip)) (Z.to_nat (4 * (bn - NDIRECT))).
Proof.
  unfold faddr. rewrite (proj2 (Z.ltb_ge _ _)) by lia. fold (find_ ip).
  by rewrite (proj2 (Z.eqb_neq _ _)).
Qed.

Lemma wp_indirect_present F Q :
  faddr c ip bn ≠ 0 → (length bl < 30)%nat → (∀ s', ftx s' ic c bl ∅ → Q (faddr c ip bn) s') →
  wp F (indirect_or_alloc i (bn - NDIRECT) (find_ ip)) Q s.
Proof.
  intros Hf Hl HQ. rewrite indirect_faddr in Hf, HQ. pose proof indirect_data as Hda. unfold indirect_or_alloc.
  apply wp_bind. eapply f_get_inode; [done..|]. rewrite (iw_dev _ _ Hw). apply wp_bind.
  eapply f_bread; [done|apply Hda|apply lookup_empty|right; rewrite map_size_empty; lia|].
  intros bp s1 Hs1. apply wp_bind. eapply f_get_buf; [done|apply lookup_insert_eq|]. intros bu ->.
  rewrite (proj2 (Z.eqb_neq _ 0)) by done. apply wp_bind.
  eapply f_brelse; [done|apply lookup_insert_eq|by eapply f_held, lookup_empty|]. intros s2 Hs2.
  rewrite delete_insert_id in Hs2 by apply lookup_empty. apply wp_ret. by apply HQ.
Qed.

Lemma wp_indirect_alloc F U Q :
  faddr c ip bn = 0 → cover bl U → bm ∈ U → find_ ip ∈ U → Z.of_nat (size U) + 1 < LIM →
  (0 < nfree c)%nat →
  (∀ b s' bl', free_blk c = Some b → cover bl' ({[b]} ∪ U) →
     ftx s' ic (disk_write (balloc_disk c b) dev (find_ ip)
       (put32 (Z.to_nat (4 * (bn - NDIRECT))) b (c dev (find_ ip)))) bl' ∅ → Q b s') →
  wp F (indirect_or_alloc i (bn - NDIRECT) (find_ ip)) Q s.
Proof.
  intros Hf Hc Hbm HfU HU Hfr HQ. rewrite indirect_faddr in Hf. pose proof indirect_data as Hda.
  destruct (nfree_free c Hfr) as [b Hb]. destruct (entry_ind c ip b Hok Hw Hb Hind) as [Hib Hibm].
  pose proof (cover_length _ _ _ _ _ _ Hs Hc) as Hl. pose proof HU as HU'. unfold LIM in HU'.
  unfold indirect_or_alloc. apply wp_bind. eapply f_get_inode; [done..|]. rewrite (iw_dev _ _ Hw).
  apply wp_bind.
  eapply f_bread; [done|apply Hda|apply lookup_empty|right; rewrite map_size_empty; lia|].
  intros bp s1 Hs1. apply wp_bind. eapply f_get_buf; [done|apply lookup_insert_eq|]. intros bu ->.
  rewrite Hf. change (0 =? 0) with true. cbv iota. apply wp_bind.
  eapply wp_balloc; [done|done|done|done|done|lia|by rewrite map_size_insert_None, map_size_empty by apply lookup_empty| | |].
  1,2: by rewrite lookup_insert_ne, lookup_empty by congruence.
  intros s2 Hs2. pose proof (cover_alloc b bl U Hc Hbm) as Hc2.
  apply wp_bind. eapply f_upd_data; [done|apply lookup_insert_eq|]. intros s3 Hs3.
  rewrite balloc_other in Hs3 by done. apply wp_bind.
  pose proof (cover_length _ _ _ _ _ _ Hs3 Hc2) as Hl3.
  pose proof (size_add b U).
  eapply f_log_write; [done|apply lookup_insert_eq|apply Hda|lia|]. intros s4 Hs4.
  apply wp_bind. eapply f_brelse; [done|apply lookup_insert_eq|left; apply absorb_elem|]. intros s5 Hs5.
  rewrite delete_insert_id in Hs5 by apply lookup_empty. apply wp_ret.
  eapply HQ; [done| |done]. apply cover_absorb; [done|set_solver].
Qed.
End Indirect.

Lemma wp_addr_present F s ic c bl i ip n a Q :
  ftx s ic c bl ∅ → ic !! i = Some ip → i_addrs ip !! Z.to_nat n = Some a → a ≠ 0 → Q a s →
  wp F (addr_or_alloc i n) Q s.
Proof.
  intros Hs Hi Ha Hn HQ. unfold addr_or_alloc, get_addr. apply wp_bind, wp_bind.
  eapply f_get_inode; [done..|]. rewrite Ha. apply wp_ret.
  rewrite (proj2 (Z.eqb_neq a 0)) by done. by apply wp_ret.
Qed.
Lemma addrs_lookup c ip n : inode_wf c ip → 0 ≤ n ≤ NDIRECT →
  i_addrs ip !! Z.to_nat n = Some (default 0 (i_addrs ip !! Z.to_nat n)).
Proof.
  intros Hw Hn. pose proof (iw_len _ _ Hw). destruct (lookup_lt_is_Some_2 (i_addrs ip) (Z.to_nat n)) as [a ->];
    [unfold NDIRECT in *; lia|done].
Qed.

(** [bmap] of a block that is there changes nothing. *)
Lemma wp_bmap_present F s ic c bl i ip bn Q :
  ftx s ic c bl ∅ → ic !! i = Some ip → fs_ok c → inode_wf c ip → in_file bn →
  faddr c ip bn ≠ 0 → (length bl < 30)%nat →
  (∀ s', ftx s' ic c bl ∅ → Q (faddr c ip bn) s') →
  wp F (bmap i bn) Q s.
Proof.
  intros Hs Hi Hok Hw [Hb1 Hb2] Hf Hl HQ. unfold bmap. rewrite MAXFILE_eq in Hb2.
  destruct (Z.ltb_spec bn NDIRECT) as [Hlt|Hge].
  - unfold faddr in Hf, HQ. rewrite (proj2 (Z.ltb_lt _ _)) in Hf, HQ by done.
    eapply wp_addr_present; [done|done|by eapply addrs_lookup; [|lia]|done|by apply HQ].
  - change NINDIRECT with 128. rewrite (proj2 (Z.ltb_lt _ 128)) by (unfold NDIRECT; lia). apply wp_bind.
    assert (find_ ip ≠ 0) as Hn.
    { intros E. apply Hf. unfold faddr. rewrite (proj2 (Z.ltb_ge _ _)) by done. fold (find_ ip). by rewrite E. }
    eapply wp_addr_present; [done|done|eapply addrs_lookup; [done|unfold NDIRECT; lia]|done|].
    fold (find_ ip). eapply wp_indirect_present; [done..| |done|done|done|done]. rewrite MAXFILE_eq. lia.
Qed.

(** An indirect block that is still to be allocated. *)
Definition ind_cost (ip : inode) : nat := if find_ ip =? 0 then 1 else 0.
Definition ind_in (ip : inode) (U : gset Z) : Prop := find_ ip = 0 ∨ find_ ip ∈ U.
(** What [bmap] leaves behind, with the blocks [U'] it may have logged. *)
Record mapped (c : disk) (ip : inode) (U : gset Z) (bn a : Z) (c' : disk) (ip' : inode) (U' : gset Z) : Prop := {
  mp_grows : grows c ip c' ip';
  mp_addr : faddr c' ip' bn = a;
  mp_nz : a ≠ 0;
  mp_sub : U ⊆ U';
  mp_in : a ∈ U';
  mp_ind : ind_in ip' U';
  mp_cost : (size U' + ind_cost ip' ≤ size U + ind_cost ip + 1)%nat;
  mp_free : (nfree c + ind_cost ip' ≤ nfree c' + ind_cost ip + 1)%nat;
  mp_same : faddr c ip bn ≠ 0 → ip' = ip }.

Lemma mapped_present c ip U bn : fs_ok c → inode_wf c ip → in_file bn → faddr c ip bn ≠ 0 → ind_in ip U →
  mapped c ip U bn (faddr c ip bn) c ip ({[faddr c ip bn]} ∪ U).
Proof.
  intros Hok Hw Hbn Hf Hi. pose proof (size_add (faddr c ip bn) U).
  split; [by apply grows_refl|done|done|set_solver|set_solver| |lia|lia|done].
  destruct Hi as [|]; [by left|right; set_solver].
Qed.
Lemma mapped_entry c ip U bn b : fs_ok c → inode_wf c ip → free_blk c = Some b → NDIRECT ≤ bn < MAXFILE →
  find_ ip ≠ 0 → faddr c ip bn = 0 → find_ ip ∈ U →
  mapped c ip U bn b (disk_write (balloc_disk c b) dev (find_ ip)
    (put32 (Z.to_nat (4 * (bn - NDIRECT))) b (c dev (find_ ip)))) ip ({[b]} ∪ U).
Proof.
  intros Hok Hw Hb Hbn Hind Hz HU. pose proof (size_add b U).
  pose proof (entry_nfree c ip b bn Hok Hw Hb Hind) as Hnf.
  destruct (balloc_data c b Hok Hb) as (_ & _ & _ & Hr).
  split; [by apply entry_grows| |lia|set_solver|set_solver|right; set_solver|lia|lia|done].
  rewrite entry_faddr, Z.eqb_refl; [done..|]. unfold in_file, NDIRECT in *. lia.
Qed.
Lemma mapped_direct c ip U bn b : fs_ok c → inode_wf c ip → free_blk c = Some b → 0 ≤ bn < NDIRECT →
  faddr c ip bn = 0 → ind_in ip U →
  mapped c ip U bn b (balloc_disk c b) (set_i_addrs (<[Z.to_nat bn := b]> (i_addrs ip)) ip) ({[b]} ∪ U).
Proof.
  intros Hok Hw Hb Hbn Hz HU. pose proof (size_add b U). pose proof Hbn as Hbn'. unfold NDIRECT in Hbn'.
  assert (i_addrs ip !! Z.to_nat bn = Some 0) as Hz'.
  { rewrite (addrs_lookup c ip) by (done || lia). unfold faddr in Hz.
    rewrite (proj2 (Z.ltb_lt _ _)) in Hz by lia. by rewrite Hz. }
  pose proof (nfree_balloc c b Hok Hb). destruct (balloc_data c b Hok Hb) as (_ & _ & _ & Hr).
  pose proof (slot_find ip b (Z.to_nat bn) ltac:(lia) Hz') as Hsf.
  rewrite (proj2 (Nat.eqb_neq (Z.to_nat bn) 12)) in Hsf by lia.
  split; [apply slot_grows; (done || lia)| |lia|set_solver|set_solver| | | |done].
  - rewrite slot_faddr; [|done|done|done|lia|done|unfold in_file; rewrite MAXFILE_eq; lia].
    rewrite (proj2 (Nat.ltb_lt _ _)), Z2Nat.id, Z.eqb_refl by lia. done.
  - unfold ind_in. rewrite Hsf. destruct HU; [by left|right; set_solver].
  - unfold ind_cost. rewrite Hsf. lia.
  - unfold ind_cost. rewrite Hsf. lia.
Qed.

(** The fresh indirect block, before its first entry. *)
Section Fresh.
Context (c : disk) (ip : inode) (b bn : Z).
Hypothesis Hok : fs_ok c.
Hypothesis Hw : inode_wf c ip.
Hypothesis Hb : free_blk c = Some b.
Hypothesis Hbn : NDIRECT ≤ bn < MAXFILE.
Hypothesis Hf0 : find_ ip = 0.
Let ip1 := set_i_addrs (<[Z.to_nat NDIRECT := b]> (i_addrs ip)) ip.

Lemma fresh_zero : i_addrs ip !! Z.to_nat NDIRECT = Some 0.
Proof. rewrite (addrs_lookup c ip) by (done || unfold NDIRECT; lia). fold (find_ ip). by rewrite Hf0. Qed.
Lemma fresh_find : find_ ip1 = b.
Proof. unfold ip1. by rewrite (slot_find ip b (Z.to_nat NDIRECT) (Nat.le_refl _) fresh_zero). Qed.
Lemma fresh_grows : grows c ip (balloc_disk c b) ip1.
Proof. apply slot_grows; [done..|exact fresh_zero]. Qed.
Lemma fresh_faddr : faddr (balloc_disk c b) ip1 bn = 0.
Proof.
  unfold ip1. rewrite slot_faddr; [|done|done|done|done|exact fresh_zero|].
  2:{ unfold in_file, NDIRECT in *. lia. }
  change ((Z.to_nat NDIRECT <? 12)%nat) with false. simpl. unfold faddr.
  rewrite (proj2 (Z.ltb_ge _ _)) by lia. fold (find_ ip). by rewrite Hf0.
Qed.

Lemma fresh_mapped U a c2 ip2 U2 :
  mapped (balloc_disk c b) ip1 ({[b]} ∪ U) bn a c2 ip2 U2 → mapped c ip U bn a c2 ip2 U2.
Proof.
  intros [H1 H2 H3 H4 H5 H6 H7 H8 H9]. pose proof (size_add b U). pose proof (nfree_balloc c b Hok Hb).
  destruct (balloc_data c b Hok Hb) as (_ & _ & _ & Hr).
  assert (ind_cost ip = 1%nat) as E by (unfold ind_cost; by rewrite Hf0).
  assert (ind_cost ip1 = 0%nat) as E1.
  { unfold ind_cost. rewrite fresh_find. by rewrite (proj2 (Z.eqb_neq b 0)) by lia. }
  split; [eapply grows_trans; [exact fresh_grows|done]|done|done|set_solver|done|done|lia|lia|].
  intros Hn. destruct Hn. unfold faddr. rewrite (proj2 (Z.ltb_ge _ _)) by lia. fold (find_ ip). by rewrite Hf0.
Qed.
End Fresh.

(** [bmap] returns the file's block, allocating it, and the indirect block,
    when they are missing. *)
Lemma wp_bmap F s ic c bl U i ip bn Q :
  ftx s ic c bl ∅ → ic !! i = Some ip → fs_ok c → inode_wf c ip → in_file bn →
  cover bl U → bm ∈ U → ind_in ip U →
  Z.of_nat (size U + ind_cost ip + 1) < LIM → (ind_cost ip + 1 ≤ nfree c)%nat →
  (∀ a s' c' ip' bl' U', ftx s' (<[i := ip']> ic) c' bl' ∅ → cover bl' U' →
     mapped c ip U bn a c' ip' U' → Q a s') →
  wp F (bmap i bn) Q s.
Proof.
  intros Hs Hi Hok Hw Hbn Hc Hbm HU Hl Hfr HQ. pose proof (cover_length _ _ _ _ _ _ Hs Hc) as Hle.
  pose proof Hl as Hl'. unfold LIM in Hl'.
  destruct (decide (faddr c ip bn = 0)) as [Hz|Hnz].
  2:{ eapply wp_bmap_present; [done..|lia|]. intros s' Hs'.
      eapply HQ; [by rewrite (list_insert_id ic i ip)| |by apply mapped_present].
      eapply cover_mono; [done|set_solver]. }
  pose proof (iw_dev _ _ Hw) as Hd. pose proof Hbn as [Hb1 Hb2]. rewrite MAXFILE_eq in Hb2.
  unfold bmap. destruct (Z.ltb_spec bn NDIRECT) as [Hlt|Hge].
  - eapply wp_addr_or_alloc; [done|done|done|done|done|done|by eapply addrs_lookup; [|lia]|lia| |].
    + intros Hn. destruct Hn. unfold faddr in Hz. by rewrite (proj2 (Z.ltb_lt _ _)) in Hz by lia.
    + intros b s' _ Hb Hs'. eapply HQ; [done|by apply cover_alloc|by apply mapped_direct].
  - change NINDIRECT with 128. rewrite (proj2 (Z.ltb_lt _ 128)) by (unfold NDIRECT; lia). apply wp_bind.
    assert (NDIRECT ≤ bn < MAXFILE) as Hbn' by (rewrite MAXFILE_eq; lia).
    eapply wp_addr_or_alloc; [done|done|done|done|done|done|eapply addrs_lookup; [done|unfold NDIRECT; lia]|lia| |];
      fold (find_ ip).
    + intros Hn. destruct HU as [|HU]; [done|].
      eapply wp_indirect_alloc; [done|done|done|done|done|done|done|done|done|done|lia|lia|].
      intros b s' bl' Hb Hc' Hs'. eapply HQ; [by rewrite (list_insert_id ic i ip)|done|].
      by apply mapped_entry.
    + intros b s1 Hf0 Hb Hs1. pose proof (fresh_find c ip b Hw Hf0) as Hff.
      destruct (balloc_data c b Hok Hb) as (_ & _ & _ & Hr). pose proof (nfree_balloc c b Hok Hb).
      assert (ind_cost ip = 1%nat) as E by (unfold ind_cost; by rewrite Hf0). pose proof (size_add b U).
      pose proof (fresh_grows c ip b Hok Hw Hb Hf0) as G. rewrite <- Hff at 1.
      assert (b ∈ {[b]} ∪ U) as HbU by (by apply elem_of_union_l, elem_of_singleton).
      unshelve eapply (wp_indirect_alloc _ _ _ _ i _ bn Hs1 _ (gr_ok _ _ _ _ G) (gr_wf _ _ _ _ G) Hbn' _ _ ({[b]} ∪ U)).
      * apply list_lookup_insert_eq. by eapply lookup_lt_Some.
      * lia.
      * by apply fresh_faddr.
      * by apply cover_alloc.
      * by apply elem_of_union_r.
      * by rewrite Hff.
      * lia.
      * lia.
      * intros b2 s2 bl2 Hb2' Hc2 Hs2. eapply HQ; [exact Hs2|exact Hc2|].
        apply (fresh_mapped c ip b bn Hok Hw Hb Hbn' Hf0), mapped_entry; [apply G|apply G|done|done|lia| |].
        -- by apply fresh_faddr.
        -- by rewrite Hff.
Qed.

(** ** Writing *)
Definition in_bytes (o : Z) : Prop := 0 ≤ o < MAXFILE * BSIZE.
(** Byte [o] after [src] has been written at [off]. *)
Definition over (f : Z → Z) (off : Z) (src : list Z) (o : Z) : Z :=
  if (off <=? o) && (o <? off + Z.of_nat (length src)) then default 0 (src !! Z.to_nat (o - off)) else f o.
Record wrote (c : disk) (ip : inode) (off : Z) (src : list Z) (c' : disk) (ip' : inode) : Prop := {
  wr_keeps : keeps c ip c' ip';
  wr_bytes : ∀ o, in_bytes o → fbyte c' ip' o = over (fbyte c ip) off src o;
  wr_mapped : ∀ o, in_bytes o → off ≤ o < off + Z.of_nat (length src) → faddr c' ip' (o / BSIZE) ≠ 0;
  wr_same : (∀ o, off ≤ o < off + Z.of_nat (length src) → faddr c ip (o / BSIZE) ≠ 0) → ip' = ip }.

Lemma over_ext f g off src o : f o = g o → over f off src o = over g off src o.
Proof. intros E. unfold over. by destruct (_ && _). Qed.
Lemma over_nil f off o : over f off [] o = f o.
Proof.
  unfold over. simpl (length []). destruct (Z.leb_spec off o), (Z.ltb_spec o (off + Z.of_nat 0)); simpl; (done || lia).
Qed.
Lemma over_app f off s1 s2 o : over (over f off s1) (off + Z.of_nat (length s1)) s2 o = over f off (s1 ++ s2) o.
Proof.
  unfold over. rewrite length_app, Nat2Z.inj_add.
  destruct (Z.leb_spec off o), (Z.leb_spec (off + Z.of_nat (length s1)) o),
    (Z.ltb_spec o (off + Z.of_nat (length s1))), (Z.ltb_spec o (off + Z.of_nat (length s1) + Z.of_nat (length s2))),
    (Z.ltb_spec o (off + (Z.of_nat (length s1) + Z.of_nat (length s2)))); simpl; try lia; try done.
  - rewrite lookup_app_r by lia. do 2 f_equal. lia.
  - by rewrite lookup_app_l by lia.
Qed.
Lemma in_bytes_blk o : in_bytes o → in_file (o / BSIZE).
Proof.
  intros [H1 H2]. rewrite MAXFILE_eq in H2. unfold BSIZE in *. unfold in_file. rewrite MAXFILE_eq.
  Z.div_mod_to_equations. lia.
Qed.
Lemma wrote_grows c ip c1 ip1 off src c2 ip2 :
  grows c ip c1 ip1 → wrote c1 ip1 off src c2 ip2 →
  ((∀ o, off ≤ o < off + Z.of_nat (length src) → faddr c ip (o / BSIZE) ≠ 0) → ip2 = ip) →
  wrote c ip off src c2 ip2.
Proof.
  intros G [K B M _] HE. split; [eapply keeps_trans; [by apply grows_keeps|done]| |done|done].
  intros o Ho. rewrite B by done. apply over_ext. unfold fbyte. by rewrite (gr_same _ _ _ _ G) by by apply in_bytes_blk.
Qed.
Lemma wrote_trans c ip off s1 c1 ip1 s2 c2 ip2 :
  0 ≤ off → off + Z.of_nat (length (s1 ++ s2)) ≤ MAXFILE * BSIZE →
  wrote c ip off s1 c1 ip1 → wrote c1 ip1 (off + Z.of_nat (length s1)) s2 c2 ip2 →
  wrote c ip off (s1 ++ s2) c2 ip2.
Proof.
  intros Hoff Hmax [K1 B1 M1 E1] [K2 B2 M2 E2]. rewrite length_app in Hmax.
  split; [by eapply keeps_trans| | |].
  - intros o Ho. rewrite B2, <- over_app by done. by apply over_ext, B1.
  - intros o Ho. rewrite length_app. intros Hr.
    destruct (decide (o < off + Z.of_nat (length s1))); [|apply M2; [done|lia]].
    assert (faddr c1 ip1 (o / BSIZE) ≠ 0) as Hn by (apply M1; [done|lia]).
    by rewrite (kp_keep _ _ _ _ K2) by (done || by apply in_bytes_blk).
  - rewrite length_app. intros Hp. rewrite <- E1 by (intros o Ho; apply Hp; lia). apply E2.
    intros o Ho. rewrite (kp_keep _ _ _ _ K1); [apply Hp; lia| |apply Hp; lia].
    apply in_bytes_blk. unfold in_bytes. lia.
Qed.

(** Writing into a block the file has. *)
Section Data.
Context (c : disk) (ip : inode) (bn : Z) (o : nat) (src : list Z).
Hypothesis Hok : fs_ok c.
Hypothesis Hw : inode_wf c ip.
Hypothesis Hbn : in_file bn.
Hypothesis Ha : faddr c ip bn ≠ 0.
Hypothesis Hsrc : Forall byte_ok src.
Hypothesis Hlen : (o + length src ≤ Z.to_nat BSIZE)%nat.
Let a := faddr c ip bn.
Let c' := disk_write c dev a (put_bytes o src (c dev a)).

Lemma data_owned : data_blk a ∧ marked c a = true.
Proof. by apply (iw_owned _ _ Hw), owned_faddr. Qed.
Lemma data_marked k : marked c' k = marked c k.
Proof. destruct data_owned as [(_ & Hne & _) _]. unfold marked, c'. by rewrite disk_write_ne by congruence. Qed.
Lemma data_faddr k : faddr c' ip k = faddr c ip k.
Proof.
  unfold faddr. destruct (k <? NDIRECT); [done|]. fold (find_ ip). destruct (Z.eqb_spec (find_ ip) 0); [done|].
  pose proof (iw_ind _ _ Hw bn Hbn Ha). unfold c', a. by rewrite disk_write_ne by congruence.
Qed.
Lemma data_ownedE k : owned c' ip k ↔ owned c ip k.
Proof. unfold owned. by setoid_rewrite data_faddr. Qed.
Lemma data_keeps : keeps c ip c' ip.
Proof.
  destruct data_owned as [Hda Hma]. split.
  - split; [|intros k; rewrite data_marked; apply Hok]. intros k. unfold c', disk_write.
    destruct (_ && _); [apply put_bytes_ok; [done|apply Hok]|apply Hok].
  - split; [apply Hw..| | |].
    + intros k Hk%data_ownedE. rewrite data_marked. by apply Hw.
    + intros b1 b2. rewrite !data_faddr. apply Hw.
    + intros b. rewrite data_faddr. apply Hw.
  - split; [|intros k _; by rewrite data_marked|intros k Hk%data_ownedE; by left|intros k; by rewrite data_ownedE].
    intros k _ _ _ Hk. unfold c'. rewrite disk_write_ne; [done|]. intros [=]; subst k. by apply Hk, owned_faddr.
  - intros k _ _. apply data_faddr.
  - by destruct ip.
Qed.
Lemma data_fblock k : in_file k →
  fblock c' ip k = if k =? bn then put_bytes o src (fblock c ip bn) else fblock c ip k.
Proof.
  intros Hk. unfold fblock. rewrite data_faddr. fold a. rewrite (proj2 (Z.eqb_neq a 0)) by done.
  destruct (Z.eqb_spec k bn) as [->|Hne].
  - fold a. rewrite (proj2 (Z.eqb_neq a 0)) by done. apply disk_write_eq.
  - destruct (Z.eqb_spec (faddr c ip k) 0) as [|Hk0]; [done|]. unfold c'. rewrite disk_write_ne; [done|].
    intros [= E]. apply Hne. by apply (iw_inj _ _ Hw).
Qed.
Lemma data_wrote : wrote c ip (bn * BSIZE + Z.of_nat o) src c' ip.
Proof.
  assert (o + length src ≤ 512)%nat as Hlen' by exact Hlen.
  split; [exact data_keeps| | |done].
  - intros x Hx. unfold fbyte, over. rewrite data_fblock by by apply in_bytes_blk.
    destruct Hok as [Hbo _]. assert (length (fblock c ip bn) = 512%nat) as Hlb.
    { unfold fblock. destruct (_ =? _); [done|apply Hbo]. }
    unfold BSIZE in *. destruct (Z.eqb_spec (x / 512) bn) as [Hd|Hd].
    + unfold get8. rewrite put_bytes_lookup by lia.
      destruct (decide _) as [D|D]; destruct (Z.leb_spec (bn * 512 + Z.of_nat o) x),
        (Z.ltb_spec x (bn * 512 + Z.of_nat o + Z.of_nat (length src))); simpl;
        try (Z.div_mod_to_equations; lia); [|by rewrite Hd..].
      do 2 f_equal. Z.div_mod_to_equations. lia.
    + destruct (Z.leb_spec (bn * 512 + Z.of_nat o) x),
        (Z.ltb_spec x (bn * 512 + Z.of_nat o + Z.of_nat (length src))); simpl; try done.
      exfalso. apply Hd. Z.div_mod_to_equations. lia.
  - intros x Hx Hr. rewrite data_faddr. replace (x / BSIZE) with bn; [done|].
    unfold BSIZE in *. Z.div_mod_to_equations. lia.
Qed.
Lemma data_nfree : nfree c' = nfree c.
Proof. unfold nfree. f_equal. apply filter_agree. intros k _. by rewrite data_marked. Qed.
End Data.

Lemma wrote_nil c ip off : fs_ok c → inode_wf c ip → wrote c ip off [] c ip.
Proof.
  intros Hok Hw. split; [by apply grows_keeps, grows_refl|intros o _; by rewrite over_nil| |done].
  intros o _. simpl (length []). lia.
Qed.

(** One block of the loop of [writei]. *)
Lemma wp_write_block {A} F s ic c bl U i ip bn o src (k : M fstate A) Q :
  ftx s ic c bl ∅ → ic !! i = Some ip → fs_ok c → inode_wf c ip → in_file bn →
  cover bl U → bm ∈ U → ind_in ip U →
  Z.of_nat (size U + ind_cost ip + 1) < LIM → (ind_cost ip + 1 ≤ nfree c)%nat →
  Forall byte_ok src → src ≠ [] → (o + length src ≤ Z.to_nat BSIZE)%nat →
  (∀ s' c' ip' bl' U', ftx s' (<[i := ip']> ic) c' bl' ∅ → cover bl' U' → U ⊆ U' → ind_in ip' U' →
     (size U' + ind_cost ip' ≤ size U + ind_cost ip + 1)%nat →
     (nfree c + ind_cost ip' ≤ nfree c' + ind_cost ip + 1)%nat →
     wrote c ip (bn * BSIZE + Z.of_nat o) src c' ip' → wp F k Q s') →
  wp F (let! addr := bmap i bn in
        let! bp := on_buf (bread dev addr) in
        on_buf (upd_data bp (put_bytes o src)) ;! on_log (log_write bp) ;! on_buf (brelse bp) ;! k) Q s.
Proof.
  intros Hs Hi Hok Hw Hbn Hc Hbm HU Hl Hfr Hsrc Hne Hlen HQ. apply wp_bind.
  eapply wp_bmap; [done..|]. intros a s1 c1 ip1 bl1 U1 Hs1 Hc1 [G Ea Hnz HU1 HaU Hi1 Hsz Hnf He].
  pose proof (gr_ok _ _ _ _ G) as Hok1. pose proof (gr_wf _ _ _ _ G) as Hw1. subst a.
  destruct (data_owned c1 ip1 bn Hw1 Hbn Hnz) as [Hda _].
  pose proof (cover_length _ _ _ _ _ _ Hs1 Hc1) as Hl1. pose proof Hl as Hl'. unfold LIM in Hl'.
  apply wp_bind. eapply f_bread; [done|apply Hda|apply lookup_empty|right; rewrite map_size_empty; lia|].
  intros bp s2 Hs2. apply wp_bind. eapply f_upd_data; [done|apply lookup_insert_eq|]. intros s3 Hs3.
  apply wp_bind. eapply f_log_write; [done|apply lookup_insert_eq|apply Hda|lia|]. intros s4 Hs4.
  apply wp_bind. eapply f_brelse; [done|apply lookup_insert_eq|left; apply absorb_elem|]. intros s5 Hs5.
  rewrite delete_insert_id in Hs5 by apply lookup_empty.
  eapply HQ; [exact Hs5|by apply cover_absorb|done|done|lia| |].
  - by rewrite data_nfree.
  - eapply wrote_grows; [done|by apply data_wrote|]. intros Hp. apply He.
    assert (0 < length src)%nat by (destruct src; [done|simpl; lia]).
    assert (o < 512)%nat by (assert (o + length src ≤ 512)%nat by exact Hlen; lia).
    replace bn with ((bn * BSIZE + Z.of_nat o) / BSIZE); [apply Hp; lia|].
    unfold BSIZE. Z.div_mod_to_equations. lia.
Qed.

(** The loop of [writei], in which [nb] blocks are touched. *)
Lemma wp_writei_loop F i : ∀ (nb fuel : nat) s ic c bl U ip src off left_ (Q : Z → fstate → Prop),
  (nb ≤ fuel)%nat → ftx s ic c bl ∅ → ic !! i = Some ip → fs_ok c → inode_wf c ip →
  cover bl U → bm ∈ U → ind_in ip U →
  Z.of_nat (size U + ind_cost ip + nb) < LIM → (ind_cost ip + nb ≤ nfree c)%nat →
  Forall byte_ok src → left_ = Z.of_nat (length src) → 0 ≤ off → off + left_ ≤ MAXFILE * BSIZE →
  (left_ = 0 ∨ off mod BSIZE + left_ ≤ BSIZE * Z.of_nat nb) →
  (∀ s' c' ip' bl' U', ftx s' (<[i := ip']> ic) c' bl' ∅ → cover bl' U' → U ⊆ U' →
     (size U' ≤ size U + ind_cost ip + nb)%nat → wrote c ip off src c' ip' → Q (off + left_) s') →
  wp F (writei_loop fuel i src off left_) Q s.
Proof.
  induction nb as [|nb IH]; intros fuel s ic c bl U ip src off left_ Q
    Hfu Hs Hi Hok Hw Hc Hbm HU Hl Hfr Hsrc Hle Hoff Hmax Hnb HQ.
  { assert (left_ = 0) as -> by (unfold BSIZE in *; Z.div_mod_to_equations; lia).
    destruct src; [|done]. destruct fuel; simpl; apply wp_ret; rewrite <- (Z.add_0_r off) at 1;
    (eapply HQ; [by rewrite (list_insert_id ic i ip)|done|done|lia|by apply wrote_nil]). }
  destruct (Z.eqb_spec left_ 0) as [->|Hnz].
  { destruct src; [|done]. destruct fuel; simpl; apply wp_ret; rewrite <- (Z.add_0_r off) at 1;
    (eapply HQ; [by rewrite (list_insert_id ic i ip)|done|done|lia|by apply wrote_nil]). }
  destruct fuel as [|fuel]; [lia|]. cbn [writei_loop]. rewrite (proj2 (Z.eqb_neq _ _)) by done.
  apply wp_bind. eapply f_get_inode; [done..|]. rewrite (iw_dev _ _ Hw). cbv zeta.
  set (m := left_ `min` (BSIZE - off mod BSIZE)) in *.
  assert (0 < m ≤ left_ ∧ off mod BSIZE + m ≤ BSIZE) as [Hm1 Hm2].
  { unfold m, BSIZE. Z.div_mod_to_equations. lia. }
  assert (length (take (Z.to_nat m) src) = Z.to_nat m) as Htk by (rewrite length_take; lia).
  assert (off / BSIZE * BSIZE + Z.of_nat (Z.to_nat (off mod BSIZE)) = off) as Eoff.
  { unfold BSIZE. Z.div_mod_to_equations. lia. }
  eapply wp_write_block; [done|done|done|done| |done|done|done|lia|lia|by apply Forall_take| | |].
  { apply in_bytes_blk. unfold in_bytes. lia. }
  { intros E. rewrite E in Htk. simpl in Htk. lia. }
  { rewrite Htk. unfold BSIZE in *. Z.div_mod_to_equations. lia. }
  rewrite Eoff. intros s1 c1 ip1 bl1 U1 Hs1 Hc1 HU1 Hi1 Hsz Hnf W.
  pose proof (kp_ok _ _ _ _ (wr_keeps _ _ _ _ _ _ W)) as Hok1.
  pose proof (kp_wf _ _ _ _ (wr_keeps _ _ _ _ _ _ W)) as Hw1.
  eapply IH; [lia|done| |done|done|done|by apply HU1|done|lia|lia|by apply Forall_drop|rewrite length_drop; lia|lia|lia| |].
  { apply list_lookup_insert_eq. by eapply lookup_lt_Some. }
  { unfold m, BSIZE in *. destruct (Z.le_gt_cases left_ (512 - off mod 512)); [left; lia|right].
    Z.div_mod_to_equations. lia. }
  intros s2 c2 ip2 bl2 U2 Hs2 Hc2 HU2 Hsz2 W2. rewrite list_insert_insert_eq in Hs2.
  replace (off + m + (left_ - m)) with (off + left_) by lia.
  eapply HQ; [done|done|set_solver|lia|]. rewrite <- (take_drop (Z.to_nat m) src).
  eapply wrote_trans; [done|rewrite take_drop; lia|done|]. rewrite Htk, Z2Nat.id by lia. done.
Qed.

(** ** Reading *)
Lemma get_bytes_fbyte c ip off m :
  fs_ok c → faddr c ip (off / BSIZE) ≠ 0 → 0 ≤ off → 0 ≤ m → off mod BSIZE + m ≤ BSIZE →
  get_bytes (c dev (faddr c ip (off / BSIZE))) (Z.to_nat (off mod BSIZE)) (Z.to_nat m) =
  fbyte c ip <$> seqZ off m.
Proof.
  intros [Hbo _] Hf Hoff Hm Hle. destruct (Hbo (faddr c ip (off / BSIZE))) as [Hl _].
  apply list_eq. intros j. rewrite list_lookup_fmap. unfold get_bytes.
  destruct (decide (j < Z.to_nat m)%nat) as [Hj|Hj].
  - rewrite lookup_take_lt, lookup_drop, lookup_seqZ_lt by lia. simpl. unfold fbyte.
    assert ((off + Z.of_nat j) / BSIZE = off / BSIZE ∧ (off + Z.of_nat j) mod BSIZE = off mod BSIZE + Z.of_nat j)
      as [-> ->] by (unfold BSIZE in *; Z.div_mod_to_equations; lia).
    unfold fblock. rewrite (proj2 (Z.eqb_neq _ _)) by done. unfold get8.
    replace (Z.to_nat (off mod BSIZE + Z.of_nat j)) with (Z.to_nat (off mod BSIZE) + j)%nat
      by (unfold BSIZE in *; Z.div_mod_to_equations; lia).
    destruct (lookup_lt_is_Some_2 (c dev (faddr c ip (off / BSIZE))) (Z.to_nat (off mod BSIZE) + j)) as [x ->]; [|done].
    rewrite Hl. unfold BSIZE in *. Z.div_mod_to_equations. lia.
  - rewrite lookup_take_ge, lookup_seqZ_ge by lia. done.
Qed.

Lemma wp_readi_loop F i : ∀ (fuel : nat) s ic c bl ip off left_ (Q : list Z → fstate → Prop),
  ftx s ic c bl ∅ → ic !! i = Some ip → fs_ok c → inode_wf c ip → (length bl < 30)%nat →
  0 ≤ off → 0 ≤ left_ → off + left_ ≤ MAXFILE * BSIZE →
  (∀ o, off ≤ o < off + left_ → faddr c ip (o / BSIZE) ≠ 0) →
  (left_ = 0 ∨ off mod BSIZE + left_ ≤ BSIZE * Z.of_nat fuel) →
  (∀ s', ftx s' ic c bl ∅ → Q (fbyte c ip <$> seqZ off left_) s') →
  wp F (readi_loop fuel i off left_) Q s.
Proof.
  induction fuel as [|fuel IH]; intros s ic c bl ip off left_ Q Hs Hi Hok Hw Hl Hoff Hlf Hmax Hp Hfu HQ;
    cbn [readi_loop]; (destruct (Z.eqb_spec left_ 0) as [->|Hnz]; [by apply wp_ret, HQ|]).
  { unfold BSIZE in *. Z.div_mod_to_equations. lia. }
  apply wp_bind. eapply f_get_inode; [done..|]. rewrite (iw_dev _ _ Hw). cbv zeta.
  set (m := left_ `min` (BSIZE - off mod BSIZE)) in *.
  assert (0 < m ≤ left_ ∧ off mod BSIZE + m ≤ BSIZE) as [Hm1 Hm2].
  { unfold m, BSIZE. Z.div_mod_to_equations. lia. }
  assert (faddr c ip (off / BSIZE) ≠ 0) as Hf by (apply Hp; lia).
  assert (in_file (off / BSIZE)) as Hin by (apply in_bytes_blk; unfold in_bytes; lia).
  destruct (iw_owned _ _ Hw _ (owned_faddr c ip _ Hin Hf)) as [Hda _].
  apply wp_bind. eapply wp_bmap_present; [done..|]. intros s1 Hs1. apply wp_bind.
  eapply f_bread; [done|apply Hda|apply lookup_empty|right; rewrite map_size_empty; lia|].
  intros bp s2 Hs2. apply wp_bind. eapply f_get_buf; [done|apply lookup_insert_eq|]. intros bu ->. apply wp_bind.
  eapply f_brelse; [done|apply lookup_insert_eq|by eapply f_held, lookup_empty|]. intros s3 Hs3.
  rewrite delete_insert_id in Hs3 by apply lookup_empty. apply wp_bind.
  eapply IH; [done|done|done|done|done|lia|lia|lia|intros o Ho; apply Hp; lia| |].
  { unfold m, BSIZE in *. destruct (Z.le_gt_cases left_ (512 - off mod 512)); [left; lia|right].
    Z.div_mod_to_equations. lia. }
  intros s4 Hs4. apply wp_ret. rewrite get_bytes_fbyte, <- fmap_app by (done || lia).
  rewrite <- seqZ_app by lia. replace (m + (left_ - m)) with left_ by lia. by apply HQ.
Qed.

(** ** Inodes in a transaction *)
Definition inum_ok (ip : inode) : Prop := 0 ≤ i_inum ip < sb_ninodes sb.
Definition iblk (ip : inode) : Z := i_inum ip / IPB + sb_inodestart sb.
Lemma iblk_blk ip : inum_ok ip → inode_blk (iblk ip).
Proof. intros H. by exists (i_inum ip). Qed.
Lemma iblk_home ip : inum_ok ip → home (iblk ip) ∧ iblk ip ≠ bm ∧ 0 ≤ iblk ip < FSSIZE.
Proof.
  intros H. destruct (so_inode Hsb _ (iblk_blk ip H)) as (H1 & H2 & H3). split_and!; [done|done| |done].
  unfold iblk. pose proof (so_istart Hsb). assert (0 ≤ i_inum ip / IPB); [|lia].
  apply Z.div_pos; [apply H|done].
Qed.
Lemma inum_u32 ip : inum_ok ip → u32 (i_inum ip) = i_inum ip.
Proof.
  intros H. destruct (iblk_home ip H) as (_ & _ & Hr). apply u32_small. pose proof (so_istart Hsb).
  unfold iblk in Hr. change IPB with 8 in Hr. unfold FSSIZE in *. destruct H. Z.div_mod_to_equations. lia.
Qed.
Lemma IBLOCK_iblk ip : inum_ok ip → IBLOCK (i_inum ip) sb = iblk ip.
Proof.
  intros H. unfold IBLOCK. rewrite inum_u32 by done. apply u32_small.
  destruct (iblk_home ip H) as (_ & _ & Hr). unfold iblk in *. unfold FSSIZE in *. lia.
Qed.
Lemma iblk_not_data ip : inum_ok ip → ¬ data_blk (iblk ip).
Proof. intros H (_ & _ & Hn & _). by apply Hn, iblk_blk. Qed.

Definition put_inode_disk (c : disk) (ip : inode) : disk :=
  disk_write c dev (iblk ip) (store_dinode ip (dinode_off (i_inum ip)) (c dev (iblk ip))).
Lemma wp_iupdate F s ic c bl i ip Q :
  ftx s ic c bl ∅ → ic !! i = Some ip → i_dev ip = dev → inum_ok ip → Z.of_nat (length bl) < LIM →
  (∀ s', ftx s' ic (put_inode_disk c ip) (absorb (iblk ip) bl) ∅ → Q tt s') →
  wp F (iupdate i) Q s.
Proof.
  intros Hs Hi Hd Hn Hl HQ. pose proof Hl as Hl'. unfold LIM in Hl'. unfold iupdate. apply wp_bind.
  eapply f_get_inode; [done..|]. apply wp_bind. eapply f_sb; [done|]. rewrite Hd, IBLOCK_iblk by done.
  destruct (iblk_home ip Hn) as (Hh & _ & Hr). apply wp_bind.
  eapply f_bread; [done|done|apply lookup_empty|right; rewrite map_size_empty; lia|].
  intros bp s1 Hs1. apply wp_bind. eapply f_upd_data; [done|apply lookup_insert_eq|]. intros s2 Hs2.
  apply wp_bind. eapply f_log_write; [done|apply lookup_insert_eq|done|done|]. intros s3 Hs3.
  eapply f_brelse; [done|apply lookup_insert_eq|left; apply absorb_elem|]. intros s4 Hs4. apply HQ.
  by rewrite delete_insert_id in Hs4 by apply lookup_empty.
Qed.

(** The inode on the disk has the fields of [ip]. *)
Definition synced (c : disk) (ip : inode) : Prop :=
  disk_fields (load_dinode (c dev (iblk ip)) (dinode_off (i_inum ip)) ip) = disk_fields ip.
Lemma dinode_off_range ip d : inum_ok ip → block_ok d →
  (dinode_off (i_inum ip) + Z.to_nat sizeof_dinode ≤ length d)%nat.
Proof.
  intros Hn [Hl _]. rewrite Hl. unfold dinode_off. rewrite inum_u32 by done.
  change IPB with 8. unfold sizeof_dinode, BSIZE. Z.div_mod_to_equations. lia.
Qed.
Lemma synced_put c ip : fs_ok c → inum_ok ip → inode_ok ip → synced (put_inode_disk c ip) ip.
Proof.
  intros [Hbo _] Hn Hok. unfold synced, put_inode_disk. rewrite disk_write_eq.
  apply load_store_dinode; [done|]. by apply dinode_off_range.
Qed.

(** Disks that agree on the bitmap and the data blocks have the same files. *)
Section Agree.
Context (c c' : disk) (ip ip' : inode).
Hypothesis Hag : ∀ k, data_blk k ∨ k = bm → c' dev k = c dev k.
Hypothesis Hbl : ∀ k, block_ok (c' dev k).
Hypothesis Hok : fs_ok c.
Hypothesis Hw : inode_wf c ip.
Hypothesis Had : i_addrs ip' = i_addrs ip.
Hypothesis Hde : i_dev ip' = i_dev ip.

Lemma agree_marked k : marked c' k = marked c k.
Proof. unfold marked. by rewrite Hag by by right. Qed.
Lemma agree_faddr bn : faddr c' ip' bn = faddr c ip bn.
Proof.
  unfold faddr. rewrite Had. destruct (_ <? _); [done|]. fold (find_ ip).
  destruct (Z.eqb_spec (find_ ip) 0); [done|]. rewrite Hag; [done|]. left.
  by apply (iw_owned _ _ Hw), owned_ind.
Qed.
Lemma agree_find : find_ ip' = find_ ip.
Proof. unfold find_. by rewrite Had. Qed.
Lemma agree_owned k : owned c' ip' k ↔ owned c ip k.
Proof. unfold owned. rewrite agree_find. by setoid_rewrite agree_faddr. Qed.
Lemma agree_fbyte o : in_bytes o → fbyte c' ip' o = fbyte c ip o.
Proof.
  intros Ho. unfold fbyte, fblock. rewrite agree_faddr. destruct (Z.eqb_spec (faddr c ip (o / BSIZE)) 0) as [|Hn]; [done|].
  rewrite Hag; [done|]. left. apply (iw_owned _ _ Hw), owned_faddr; [by apply in_bytes_blk|done].
Qed.
Lemma agree_ok : fs_ok c'.
Proof. split; [done|]. intros k. rewrite agree_marked. apply Hok. Qed.
Lemma agree_wf : inode_wf c' ip'.
Proof.
  split; [by rewrite Hde; apply Hw|by rewrite Had; apply Hw|by rewrite Had; apply Hw| | |].
  - intros k Hk%agree_owned. rewrite agree_marked. by apply Hw.
  - intros b1 b2. rewrite !agree_faddr. apply Hw.
  - intros b. rewrite agree_faddr, agree_find. apply Hw.
Qed.
End Agree.

(** A file and its inode on a consistent disk. *)
Record file_ok (c : disk) (ip : inode) : Prop := {
  fk_fs : fs_ok c;
  fk_wf : inode_wf c ip;
  fk_inum : inum_ok ip;
  fk_inode : inode_ok ip;
  fk_sync : synced c ip;
  fk_size : 0 ≤ i_size ip ≤ MAXFILE * BSIZE;
  fk_holes : ∀ o, 0 ≤ o < i_size ip → faddr c ip (o / BSIZE) ≠ 0 }.

(** [src] has been written to the file at [off], and nothing else changed. *)
Record written (c : disk) (ip : inode) (off : Z) (src : list Z) (c' : disk) (ip' : inode) : Prop := {
  wt_file : file_ok c' ip';
  wt_bytes : ∀ o, in_bytes o → fbyte c' ip' o = over (fbyte c ip) off src o;
  wt_size : i_size ip' = Z.max (i_size ip) (off + Z.of_nat (length src));
  wt_other : ∀ k, 0 ≤ k < FSSIZE → (k < sb_size sb → marked c k = true) → k ≠ bm → k ≠ iblk ip →
               ¬ owned c ip k → c' dev k = c dev k;
  wt_marked : ∀ k, 0 ≤ k < sb_size sb → marked c k = true → marked c' k = true;
  wt_fields : ip' = set_i_size (i_size ip') (set_i_addrs (i_addrs ip') ip) }.

Section Finish.
Context (c : disk) (ip : inode) (off : Z) (src : list Z) (c1 : disk) (ip1 : inode).
Hypothesis Hf : file_ok c ip.
Hypothesis Hoff : 0 ≤ off ≤ i_size ip.
Hypothesis Hmax : off + Z.of_nat (length src) ≤ MAXFILE * BSIZE.
Hypothesis W : wrote c ip off src c1 ip1.

Lemma finish_iblk : iblk ip1 = iblk ip ∧ i_inum ip1 = i_inum ip ∧ i_size ip1 = i_size ip.
Proof. rewrite (kp_fields _ _ _ _ (wr_keeps _ _ _ _ _ _ W)). done. Qed.
Lemma finish_inode n : word_ok n → inode_ok (set_i_size n ip1).
Proof.
  intros Hn. destruct (fk_inode _ _ Hf) as (H1 & H2 & H3 & H4 & H5 & _).
  pose proof (kp_wf _ _ _ _ (wr_keeps _ _ _ _ _ _ W)) as W1. pose proof (kp_fields _ _ _ _ (wr_keeps _ _ _ _ _ _ W)) as E.
  unfold inode_ok. simpl. split_and!; [rewrite E; done..|done|apply W1|apply W1].
Qed.
Lemma finish_iblk_same : inum_ok ip → c1 dev (iblk ip) = c dev (iblk ip).
Proof.
  intros Hn. destruct (iblk_home ip Hn) as (Hh & Hbm & Hr). destruct (fk_fs _ _ Hf) as [_ Hm].
  apply (of_other _ _ _ _ (kp_only _ _ _ _ (wr_keeps _ _ _ _ _ _ W))); [done| |done|].
  - intros Hlt. apply Hm; [lia|by apply iblk_not_data].
  - intros Ho. destruct (iw_owned _ _ (fk_wf _ _ Hf) _ Ho) as [Hd _]. by apply (iblk_not_data ip Hn).
Qed.
Lemma finish_same : off + Z.of_nat (length src) ≤ i_size ip → written c ip off src c1 ip1.
Proof.
  intros Hle. pose proof finish_iblk_same as Hib. pose proof W as [[K1 K2 K3 K4 K5] B M S].
  pose proof Hf as [F1 F2 F3 F4 F5 F6 F7].
  assert (ip1 = ip) as E by (apply S; intros o Ho; apply F7; lia). rewrite E in *.
  split; [|done|lia|intros; by apply (of_other _ _ _ _ K3)|apply K3|by destruct ip].
  split; [done|done|done|done| |done|].
  - unfold synced. rewrite Hib by done. done.
  - intros o Ho. rewrite K4; [by apply F7| |by apply F7]. apply in_bytes_blk. unfold in_bytes. lia.
Qed.
Lemma finish_grow (ip2 := set_i_size (off + Z.of_nat (length src)) ip1) :
  i_size ip < off + Z.of_nat (length src) → written c ip off src (put_inode_disk c1 ip2) ip2.
Proof.
  intros Hlt. pose proof W as [[K1 K2 K3 K4 K5] B M S]. destruct finish_iblk as (E1 & E2 & E3).
  pose proof Hf as [F1 F2 F3 F4 F5 F6 F7].
  assert (iblk ip2 = iblk ip) as Eb by done. assert (inum_ok ip2) as Hn2 by (unfold inum_ok; simpl; by rewrite E2).
  assert (inode_ok ip2) as Hi2.
  { apply finish_inode. unfold word_ok. rewrite MAXFILE_eq in Hmax. unfold BSIZE in Hmax. lia. }
  assert (∀ k, data_blk k ∨ k = bm → put_inode_disk c1 ip2 dev k = c1 dev k) as Hag.
  { intros k Hk. unfold put_inode_disk. rewrite disk_write_ne; [done|]. intros [= E]. subst k.
    destruct Hk as [Hk|Hk]; [by apply (iblk_not_data ip2 Hn2)|]. by destruct (iblk_home ip2 Hn2) as (_ & ? & _). }
  assert (∀ k, block_ok (put_inode_disk c1 ip2 dev k)) as Hbl.
  { intros k. unfold put_inode_disk, disk_write. destruct (_ && _); [|apply K1]. apply store_dinode_ok, K1. }
  split; [| |simpl; lia| | |unfold ip2; by rewrite K5 at 1].
  - split; [by eapply agree_ok|by eapply agree_wf|done|done|by apply synced_put|simpl; lia|].
    intros o Ho. simpl in Ho. rewrite (agree_faddr c1 _ ip1) by done.
    assert (in_bytes o) as Hin by (unfold in_bytes; lia).
    destruct (decide (o < i_size ip)); [|apply M; [done|lia]].
    rewrite K4; [apply F7; lia|by apply in_bytes_blk|apply F7; lia].
  - intros o Ho. rewrite (agree_fbyte c1 _ ip1), B by done. done.
  - intros k Hk Hm Hb Hib Ho. unfold put_inode_disk. rewrite disk_write_ne by congruence.
    by apply (of_other _ _ _ _ K3).
  - intros k Hk Hm. rewrite (agree_marked c1) by done. by apply K3.
Qed.
End Finish.

Section Writei.
Context (devsw : Z → devsw_entry).
Lemma io_fuel_enough off n (nb : nat) : 0 ≤ n → n = 0 ∨ off mod BSIZE + n ≤ BSIZE * Z.of_nat nb →
  ∃ nb', (nb' ≤ nb)%nat ∧ (nb' ≤ io_fuel n)%nat ∧ (n = 0 ∨ off mod BSIZE + n ≤ BSIZE * Z.of_nat nb').
Proof.
  intros Hn Hnb. destruct (decide (nb ≤ io_fuel n)%nat) as [|Hgt]; [by exists nb|].
  exists (io_fuel n). split_and!; [lia|lia|right]. unfold io_fuel, BSIZE in *. Z.div_mod_to_equations. lia.
Qed.

(** [writei] of [n] bytes that touch [nb] blocks. *)
Lemma wp_writei F s ic c bl U i ip src off n (nb : nat) (Q : Z → fstate → Prop) :
  ftx s ic c bl ∅ → ic !! i = Some ip → file_ok c ip → i_type ip ≠ T_DEV →
  cover bl U → bm ∈ U → iblk ip ∈ U → ind_in ip U →
  Z.of_nat (size U + ind_cost ip + nb) < LIM → (ind_cost ip + nb ≤ nfree c)%nat →
  Forall byte_ok src → n = Z.of_nat (length src) → 0 ≤ off ≤ i_size ip → off + n ≤ MAXFILE * BSIZE →
  (n = 0 ∨ off mod BSIZE + n ≤ BSIZE * Z.of_nat nb) →
  (∀ s' c' ip' bl' U', ftx s' (<[i := ip']> ic) c' bl' ∅ → cover bl' U' →
     (size U' ≤ size U + ind_cost ip + nb)%nat → written c ip off src c' ip' → Q n s') →
  wp F (writei devsw i src off n) Q s.
Proof.
  intros Hs Hi Hf Ht Hc Hbm Hib HU Hl Hfr Hsrc Hn Hoff Hmax Hnb HQ. unfold writei.
  apply wp_bind. eapply f_get_inode; [done..|]. rewrite (proj2 (Z.eqb_neq _ _)) by done.
  assert (n ≤ 71680 ∧ off + n ≤ 71680) as [Hn' Hmax'] by (rewrite MAXFILE_eq in Hmax; unfold BSIZE in Hmax; lia).
  rewrite (u32_small (off + n)) by (unfold word_ok; lia).
  rewrite (proj2 (Z.ltb_ge (i_size ip) off)), (proj2 (Z.ltb_ge (off + n) off)), (proj2 (Z.ltb_ge (MAXFILE * BSIZE) _)) by lia.
  destruct (io_fuel_enough off n nb) as (nb' & Hle & Hfu & Hnb'); [lia|done|].
  simpl orb. cbv iota. apply wp_bind.
  eapply (wp_writei_loop F i nb'); [done|done|done|apply Hf|apply Hf|done|done|done|lia|lia|done|done|lia|lia|done|].
  intros s1 c1 ip1 bl1 U1 Hs1 Hc1 HU1 Hsz W. destruct (finish_iblk _ _ _ _ _ _ W) as (E1 & E2 & E3).
  assert ((<[i:=ip1]> ic) !! i = Some ip1) as Hi1 by (apply list_lookup_insert_eq; by eapply lookup_lt_Some).
  pose proof (cover_length _ _ _ _ _ _ Hs1 Hc1) as Hl1.
  assert (i32 n = n) as Ei by (apply i32_small; lia).
  apply wp_bind. eapply f_get_inode; [done..|]. rewrite E3.
  destruct (Z.ltb_spec 0 n), (Z.ltb_spec (i_size ip) (off + n)); simpl andb; cbv iota; apply wp_bind.
  2,3,4: apply wp_skip, wp_ret; rewrite Ei; eapply HQ; [done|done|lia|]; apply finish_same; (done || lia).
  apply wp_bind. eapply f_upd_inode; [done..|]. intros s2 Hs2. rewrite list_insert_insert_eq in Hs2.
  pose proof (finish_grow c ip off src c1 ip1) as WT. rewrite <- Hn in WT. specialize (WT Hf Hoff Hmax W ltac:(lia)).
  eapply wp_iupdate; [done|apply list_lookup_insert_eq; by eapply lookup_lt_Some|apply WT|apply WT|lia|].
  intros s3 Hs3. apply wp_ret. rewrite Ei. eapply (HQ _ _ _ _ U1); [done| |lia|done].
  apply cover_absorb; [done|]. change (iblk (set_i_size (off + n) ip1)) with (iblk ip1). rewrite E1. by apply HU1.
Qed.

Lemma wp_readi F s ic c bl i ip off n (Q : Z * list Z → fstate → Prop) :
  ftx s ic c bl ∅ → ic !! i = Some ip → file_ok c ip → i_type ip ≠ T_DEV → (length bl < 30)%nat →
  0 ≤ off ≤ i_size ip → 0 ≤ n → word_ok (off + n) →
  (∀ s', ftx s' ic c bl ∅ →
     Q (Z.min n (i_size ip - off), fbyte c ip <$> seqZ off (Z.min n (i_size ip - off))) s') →
  wp F (readi devsw i off n) Q s.
Proof.
  intros Hs Hi Hf Ht Hl Hoff Hn Hno HQ. unfold readi. apply wp_bind.
  eapply f_get_inode; [done..|]. rewrite (proj2 (Z.eqb_neq _ _)) by done.
  rewrite (u32_small (off + n)) by done. pose proof (fk_size _ _ Hf) as Hsz.
  assert (i_size ip ≤ 71680) by (rewrite MAXFILE_eq in Hsz; unfold BSIZE in Hsz; lia).
  rewrite (proj2 (Z.ltb_ge (i_size ip) off)), (proj2 (Z.ltb_ge (off + n) off)) by lia.
  simpl orb. cbv iota zeta.
  replace (if i_size ip <? off + n then u32 (i_size ip - off) else n) with (Z.min n (i_size ip - off)).
  2:{ destruct (Z.ltb_spec (i_size ip) (off + n)); [rewrite u32_small by (unfold word_ok; lia)|]; lia. }
  set (m := Z.min n (i_size ip - off)) in *. apply wp_bind.
  eapply wp_readi_loop; [done|done|apply Hf|apply Hf|done|lia|lia|lia| | |].
  - intros o Ho. apply (fk_holes _ _ Hf). lia.
  - right. unfold io_fuel, BSIZE. Z.div_mod_to_equations. lia.
  - intros s1 Hs1. apply wp_ret. rewrite i32_small by lia. by apply HQ.
Qed.
End Writei.

(** ** The same file seen through another disk or copy of the inode *)
Definition same_inode (ip ip' : inode) : Prop :=
  disk_fields ip' = disk_fields ip ∧ i_dev ip' = i_dev ip ∧ i_inum ip' = i_inum ip.
Lemma file_ok_same c c' ip ip' :
  (∀ k, c' dev k = c dev k) → same_inode ip ip' → file_ok c ip → file_ok c' ip'.
Proof.
  intros Hag (Hd & Hde & Hin) [F1 F2 F3 F4 F5 F6 F7]. pose proof Hd as [= E1 E2 E3 E4 E5 E6].
  assert (∀ k, data_blk k ∨ k = bm → c' dev k = c dev k) as Hag' by auto.
  assert (∀ k, block_ok (c' dev k)) as Hbl by (intros k; rewrite Hag; apply F1).
  split; [by eapply agree_ok|by eapply (agree_wf c)|unfold inum_ok; by rewrite Hin| | |by rewrite E5|].
  - unfold inode_ok in *. by rewrite E1, E2, E3, E4, E5, E6.
  - unfold synced, iblk in *. rewrite Hin, Hag, Hd, <- F5. done.
  - intros o. rewrite E5, (agree_faddr c _ ip) by done. apply F7.
Qed.
Lemma same_iblk ip ip' : same_inode ip ip' → iblk ip' = iblk ip.
Proof. intros (_ & _ & E). unfold iblk. by rewrite E. Qed.
Lemma written_same c0 c ip0 ip off src c' ip' ip2 :
  file_ok c ip → (∀ k, c dev k = c0 dev k) → same_inode ip ip0 → same_inode ip' ip2 →
  written c ip off src c' ip' →
  ip2 = set_i_size (i_size ip2) (set_i_addrs (i_addrs ip2) ip0) →
  written c0 ip0 off src c' ip2.
Proof.
  intros Hf Hag HS HS' [W1 W2 W3 W4 W5 W6] HE.
  destruct HS as (Hd & Hde & Hin). pose proof Hd as [= E1 E2 E3 E4 E5 E6].
  destruct HS' as (Hd' & Hde' & Hin'). pose proof Hd' as [= D1 D2 D3 D4 D5 D6].
  assert (∀ k, data_blk k ∨ k = bm → c0 dev k = c dev k) as Hag' by auto.
  assert (∀ k, block_ok (c0 dev k)) as Hbl by (intros k; rewrite <- Hag; apply Hf).
  pose proof (fk_wf _ _ Hf) as Hw. pose proof (fk_wf _ _ W1) as Hw'.
  split; [by eapply file_ok_same| |by rewrite D5, E5| | |done].
  - intros o Ho. rewrite (agree_fbyte c' c' ip' ip2) by done. rewrite W2 by done. apply over_ext.
    by rewrite (agree_fbyte c c0 ip ip0).
  - intros k Hk Hm Hb Hi Ho. rewrite <- Hag. apply W4; [done| |done| |].
    + intros Hlt. rewrite <- (agree_marked c c0) by done. by apply Hm.
    + by rewrite <- (same_iblk ip ip0).
    + by rewrite <- (agree_owned c c0 ip ip0).
  - intros k Hk Hm. apply W5; [done|]. by rewrite <- (agree_marked c c0).
Qed.

(** Files that share no block with the written one are unchanged. *)
Lemma written_other_file c ip off src c' ip' jp o :
  file_ok c ip → written c ip off src c' ip' → inode_wf c jp →
  (∀ k, owned c jp k → ¬ owned c ip k) → in_bytes o → fbyte c' jp o = fbyte c jp o.
Proof.
  intros Hf W Hj Hdis Ho.
  assert (∀ k, owned c jp k → c' dev k = c dev k) as Hsame.
  { intros k Hk. destruct (iw_owned _ _ Hj k Hk) as [(Hh & Hbm & Hni & Hr) Hm].
    apply (wt_other _ _ _ _ _ _ W); [apply Hh|done|done| |by apply Hdis].
    intros ->. apply Hni, iblk_blk, Hf. }
  assert (faddr c' jp (o / BSIZE) = faddr c jp (o / BSIZE)) as Ef.
  { unfold faddr. destruct (_ <? _); [done|]. fold (find_ jp). destruct (Z.eqb_spec (find_ jp) 0); [done|].
    rewrite Hsame; [done|]. by apply owned_ind. }
  unfold fbyte, fblock. rewrite Ef. destruct (Z.eqb_spec (faddr c jp (o / BSIZE)) 0); [done|].
  rewrite Hsame; [done|]. apply owned_faddr; [by apply in_bytes_blk|done].
Qed.

(** ** Locking a valid inode *)
Lemma wp_ilock_valid F s ic c bl i ip Q :
  ftx s ic c bl ∅ → ic !! i = Some ip → 1 ≤ i_ref ip → Z.land (i_flags ip) I_BUSY = 0 →
  Z.land (i_flags ip) I_VALID ≠ 0 →
  (∀ s', ftx s' (<[i := set_i_flags (Z.lor (i_flags ip) I_BUSY) ip]> ic) c bl ∅ → Q tt s') →
  wp F (ilock i) Q s.
Proof.
  intros Hs Hi Hr Hb Hv HQ. unfold ilock. apply wp_bind. eapply f_get_inode; [done..|].
  rewrite (proj2 (Z.ltb_ge _ _)), Hb by lia. change (truth 0) with false. cbv iota.
  apply wp_bind. eapply f_upd_inode; [done..|]. intros s1 Hs1. apply wp_bind.
  eapply f_get_inode; [done|apply list_lookup_insert_eq; by eapply lookup_lt_Some|].
  cbn [i_flags set_i_flags]. rewrite Z.land_lor_distr_l. change (Z.land I_BUSY I_VALID) with 0.
  rewrite Z.lor_0_r. unfold truth. rewrite (proj2 (Z.eqb_neq _ _)) by done. simpl. by apply wp_skip, HQ.
Qed.
Lemma wp_iunlock F s ic c bl i ip Q :
  ftx s ic c bl ∅ → ic !! i = Some ip → 1 ≤ i_ref ip → Z.land (i_flags ip) I_BUSY ≠ 0 →
  (∀ s', ftx s' (<[i := set_i_flags (Z.land (i_flags ip) (Z.lnot I_BUSY)) ip]> ic) c bl ∅ → Q tt s') →
  wp F (iunlock i) Q s.
Proof.
  intros Hs Hi Hr Hb HQ. unfold iunlock. apply wp_bind. eapply f_get_inode; [done..|].
  unfold truth. rewrite (proj2 (Z.eqb_neq _ _)), (proj2 (Z.ltb_ge _ _)) by (done || lia). simpl.
  by eapply f_upd_inode.
Qed.
End Files.
