(* ===== verification/File.v ===== *)
(** * The file table (file.c) and pipe allocation (pipe.c)

    Open files are entries of [ftable.file]; a file is a pipe end or an inode.
    The state has the file system, the table, the pipes by the address of
    their page, and the page allocator.  A call that goes to sleep on a pipe
    has no result here ([Diverge]): what it does when other processes run is
    in Pipe.v.  Bytes a call reads are part of its result, and bytes it writes
    are an argument. *)
From S2P Require Import Prelude Machine Kalloc ProcOps Pipe Block Bio Log Fs.

Open Scope Z_scope.

Inductive ftype := FD_NONE | FD_PIPE | FD_INODE.
#[export] Instance ftype_eq_dec : EqDecision ftype.
Proof. solve_decision. Defined.

Record file := mkFile {
  f_type : ftype; f_ref : Z; f_readable : Z; f_writable : Z;
  f_pipe : Z; f_ip : nat; f_off : Z }.
Definition set_f_ref (v : Z) (f : file) : file :=
  mkFile (f_type f) v (f_readable f) (f_writable f) (f_pipe f) (f_ip f) (f_off f).
Definition set_f_type (v : ftype) (f : file) : file :=
  mkFile v (f_ref f) (f_readable f) (f_writable f) (f_pipe f) (f_ip f) (f_off f).
Definition set_f_off (v : Z) (f : file) : file :=
  mkFile (f_type f) (f_ref f) (f_readable f) (f_writable f) (f_pipe f) (f_ip f) v.

Record filest := mkFst {
  fl_fs : fstate; fl_files : list file; fl_pipes : gmap Z pipe; fl_kmem : kmem }.
Definition set_fl_fs (v : fstate) (s : filest) : filest := mkFst v (fl_files s) (fl_pipes s) (fl_kmem s).
Definition set_fl_files (v : list file) (s : filest) : filest := mkFst (fl_fs s) v (fl_pipes s) (fl_kmem s).
Definition set_fl_pipes (v : gmap Z pipe) (s : filest) : filest := mkFst (fl_fs s) (fl_files s) v (fl_kmem s).
Definition set_fl_kmem (v : kmem) (s : filest) : filest := mkFst (fl_fs s) (fl_files s) (fl_pipes s) v.

Definition on_fs {A} (e : M fstate A) : M filest A := zoom fl_fs set_fl_fs e.
Definition begin_op' : M filest unit := on_fs (on_log begin_op).
Definition end_op' : M filest unit := on_fs (on_log end_op).
Definition get_file (i : nat) : M filest file :=
  let! fs := gets fl_files in
  match fs !! i with Some f => ret f | None => undef "file index" end.
Definition upd_file (i : nat) (g : file → file) : M filest unit :=
  let! f := get_file i in
  modify (λ s, set_fl_files (<[i := g f]> (fl_files s)) s).
Definition get_pipe (p : Z) : M filest pipe :=
  let! ps := gets fl_pipes in
  match ps !! p with Some x => ret x | None => undef "pipe pointer" end.
Definition put_pipe (p : Z) (x : pipe) : M filest unit :=
  modify (λ s, set_fl_pipes (<[p := x]> (fl_pipes s)) s).

(** ** The critical sections of [ftable.lock] *)
(** [for(f = ftable.file; f < ftable.file + NFILE; f++) if(f->ref == 0) ...] *)
Fixpoint free_file (fs : list file) (i : nat) : option nat :=
  match fs with
  | [] => None
  | f :: fs' => if f_ref f =? 0 then Some i else free_file fs' (S i)
  end.
Definition ft_alloc (fs : list file) : option nat * list file :=
  match free_file fs 0 with
  | Some i => (Some i, alter (set_f_ref 1) i fs)
  | None => (None, fs)
  end.
Definition ft_dup (i : nat) (fs : list file) : outcome (list file) :=
  match fs !! i with
  | None => Undef "file index"
  | Some f => if f_ref f <? 1 then Panic "filedup" else Ret (<[i := set_f_ref (f_ref f + 1) f]> fs)
  end.
(** The file to tear down, when this was the last reference. *)
Definition ft_close (i : nat) (fs : list file) : outcome (option file * list file) :=
  match fs !! i with
  | None => Undef "file index"
  | Some f =>
      if f_ref f <? 1 then Panic "fileclose"
      else if 0 <? f_ref f - 1 then Ret (None, <[i := set_f_ref (f_ref f - 1) f]> fs)
      else Ret (Some (set_f_ref 0 f), <[i := set_f_type FD_NONE (set_f_ref 0 f)]> fs)
  end.

Definition on_table {A} (e : list file → outcome (A * list file)) : M filest A :=
  zoom fl_files set_fl_files e.
Definition filealloc : M filest (option nat) := on_table (λ fs, Ret (ft_alloc fs)).
Definition filedup (i : nat) : M filest nat :=
  on_table (λ fs, let* fs := ft_dup i fs in Ret (i, fs)).

Section File.
Context (kend : Z) (devsw : Z → devsw_entry).
(** [proc->killed] *)
Context (killed : bool).

(** [pipeclose] and the page it frees. *)
Definition pipeclose' (p writable : Z) : M filest unit :=
  let! x := get_pipe p in
  let '(freed, x, _) := pipeclose writable x in
  if (freed : bool) then
    let! k := gets fl_kmem in
    let! k := lift (kfree kend p k) in
    modify (set_fl_kmem k) ;!
    modify (λ s, set_fl_pipes (delete p (fl_pipes s)) s)
  else put_pipe p x.

Definition fileclose (i : nat) : M filest unit :=
  let! last := on_table (ft_close i) in
  match last with
  | None => skip
  | Some ff =>
      match f_type ff with
      | FD_PIPE => pipeclose' (f_pipe ff) (f_writable ff)
      | FD_INODE => begin_op' ;! on_fs (iput (f_ip ff)) ;! end_op'
      | FD_NONE => skip
      end
  end.

(** The result is what is stored in [*st], [None] for -1. *)
Definition filestat (i : nat) : M filest (option stat) :=
  let! f := get_file i in
  match f_type f with
  | FD_INODE =>
      on_fs (ilock (f_ip f)) ;!
      let! st := on_fs (stati (f_ip f)) in
      on_fs (iunlock (f_ip f)) ;!
      ret (Some st)
  | _ => ret None
  end.

Definition fileread (i : nat) (n : Z) : M filest (Z * list Z) :=
  let! f := get_file i in
  if f_readable f =? 0 then ret (-1, [])
  else
    match f_type f with
    | FD_PIPE =>
        let! x := get_pipe (f_pipe f) in
        let '(r, x, _) := piperead killed n x in
        put_pipe (f_pipe f) x ;!
        match r with
        | PRet (Some cs) => ret (Z.of_nat (length cs), cs)
        | PRet None => ret (-1, [])
        | PSleep _ => diverge
        end
    | FD_INODE =>
        on_fs (ilock (f_ip f)) ;!
        let! (r, data) := on_fs (readi devsw (f_ip f) (f_off f) (u32 n)) in
        (if 0 <? r then upd_file i (set_f_off (u32 (f_off f + r))) else skip) ;!
        on_fs (iunlock (f_ip f)) ;!
        ret (r, data)
    | FD_NONE => panic "fileread"
    end.

(** [((LOGSIZE-1-1-2) / 2) * 512] *)
Definition max_chunk : Z := (LOGSIZE - 1 - 1 - 2) / 2 * 512.
(** One transaction of [filewrite]. *)
Definition write_chunk (i : nat) (src : list Z) (n1 : Z) : M filest Z :=
  begin_op' ;!
  let! f := get_file i in
  on_fs (ilock (f_ip f)) ;!
  let! r := on_fs (writei devsw (f_ip f) src (f_off f) (u32 n1)) in
  (if 0 <? r then upd_file i (set_f_off (u32 (f_off f + r))) else skip) ;!
  on_fs (iunlock (f_ip f)) ;!
  end_op' ;!
  ret r.
(** [while(i < n)]: [done] is the source's [i]. *)
Fixpoint filewrite_loop (fuel : nat) (i : nat) (src : list Z) (done_ n : Z) : M filest Z :=
  if done_ <? n then
    match fuel with
    | O => diverge
    | S fuel =>
        let n1 := if max_chunk <? n - done_ then max_chunk else n - done_ in
        let! r := write_chunk i (take (Z.to_nat n1) src) n1 in
        if r <? 0 then ret done_
        else if negb (r =? n1) then panic "short filewrite"
        else filewrite_loop fuel i (drop (Z.to_nat r) src) (done_ + r) n
    end
  else ret done_.
Definition filewrite (i : nat) (src : list Z) (n : Z) : M filest Z :=
  let! f := get_file i in
  if f_writable f =? 0 then ret (-1)
  else
    match f_type f with
    | FD_PIPE =>
        let! x := get_pipe (f_pipe f) in
        let '(r, _, x, _) := pipewrite killed src n x in
        put_pipe (f_pipe f) x ;!
        match r with PRet r => ret r | PSleep _ => diverge end
    | FD_INODE =>
        let! w := filewrite_loop (Z.to_nat (n / max_chunk + 1)) i src 0 n in
        ret (if w =? n then n else -1)
    | FD_NONE => panic "filewrite"
    end.

(** The offset of [data] in [struct pipe]: the size of its spinlock. *)
Definition pipe_data_off : Z := 52.
(** [pipealloc]: the files of the read end and of the write end.  The page of
    the new pipe holds whatever it held. *)
Definition pipealloc : M filest (option (nat * nat)) :=
  let! f0 := filealloc in
  match f0 with
  | None => ret None
  | Some f0 =>
      let! f1 := filealloc in
      match f1 with
      | None => fileclose f0 ;! ret None
      | Some f1 =>
          let! k := gets fl_kmem in
          let (p, k) := kalloc k in
          modify (set_fl_kmem k) ;!
          if p =? 0 then fileclose f0 ;! fileclose f1 ;! ret None
          else
            put_pipe p (pipe_init (bytes_at (km_mem k) (p + pipe_data_off) (Z.to_nat PIPESIZE))) ;!
            upd_file f0 (λ f, mkFile FD_PIPE (f_ref f) 1 0 p (f_ip f) (f_off f)) ;!
            upd_file f1 (λ f, mkFile FD_PIPE (f_ref f) 0 1 p (f_ip f) (f_off f)) ;!
            ret (Some (f0, f1))
      end
  end.
End File.

(** What proc.c uses of files and inodes: pointers are indices plus one. *)
Definition ptr_of (i : nat) : Z := Z.of_nat i + 1.
Definition of_ptr (p : Z) : nat := Z.to_nat (p - 1).
Section Ops.
Context (kend : Z) (devsw : Z → devsw_entry).
Definition file_ops : FileOps filest := {|
  fo_filedup p := let! i := filedup (of_ptr p) in ret (ptr_of i);
  fo_fileclose p := fileclose kend (of_ptr p);
  fo_idup p := let! i := on_fs (idup (of_ptr p)) in ret (ptr_of i);
  fo_iput p := on_fs (iput (of_ptr p));
  fo_begin_op := begin_op';
  fo_end_op := end_op';
  fo_namei_root := let! r := on_fs (namei devsw 0 [slash; 0] (replicate (Z.to_nat DIRSIZ) 0)) in
                   ret (match r with Some i => ptr_of i | None => 0 end);
  fo_init := on_fs (iinit ROOTDEV ;! on_log (initlog ROOTDEV)) |}.
End Ops.
