(* ===== verification/FileThm.v ===== *)
(** * Theorems about files (file.c on fs.c and log.c)

    One transaction of [filewrite] on a consistent disk: it returns, the file
    has the new bytes, everything else is as it was, and a crash at any point
    of it leaves either all of the write or none of it. *)
From S2P Require Import Prelude Machine Kalloc Pipe Block Bio Log LogThm Fs FsBits FsThm File.

Open Scope Z_scope.

(** ** Rules *)
Lemma wp_on_fs {A} F (e : M fstate A) Q (s : filest) :
  wp F e (λ a t, Q a (set_fl_fs t s)) (fl_fs s) → wp F (on_fs e) Q s.
Proof. apply wp_zoom. Qed.
Lemma wp_get_file F i f Q s : fl_files s !! i = Some f → Q f s → wp F (get_file i) Q s.
Proof. intros Hi HQ. unfold wp, get_file, bind, gets. by rewrite Hi. Qed.
Lemma wp_upd_file F i g f Q s :
  fl_files s !! i = Some f → Q tt (set_fl_files (<[i := g f]> (fl_files s)) s) →
  wp F (upd_file i g) Q s.
Proof. intros Hi HQ. unfold upd_file. apply wp_bind. by eapply wp_get_file. Qed.

Lemma flags_unlock f : 0 ≤ f → Z.land f I_BUSY = 0 → Z.land (Z.lor f I_BUSY) (Z.lnot I_BUSY) = f.
Proof.
  intros Hf Hb. rewrite Z.land_lor_distr_l, Z.land_lnot_diag, Z.lor_0_r.
  apply Z.bits_inj'. intros n Hn. rewrite Z.land_spec, Z.lnot_spec by done.
  apply (f_equal (λ z, Z.testbit z n)) in Hb. rewrite Z.land_spec, Z.bits_0 in Hb.
  destruct (Z.testbit f n); simpl in *; [by rewrite Hb|done].
Qed.

Section FileWrite.
Context (start size_ dev : Z).
Hypothesis Hgeo : log_geometry start size_ dev.
Context (sb : superblock).
Hypothesis Hsb : sb_ok start size_ sb.
Context (devsw : Z → devsw_entry) (dv : disk) (tr : list (Z * Z * block)).

(** An open, writable file of the table and its inode, which is cached and
    not locked. *)
Record open_file (s : filest) (i : nat) (f : file) (ip : inode) : Prop := {
  of_file : fl_files s !! i = Some f;
  of_inode : fs_ic (fl_fs s) !! f_ip f = Some ip;
  of_sb : fs_sb (fl_fs s) = sb;
  of_ref : 1 ≤ i_ref ip;
  of_flags : i_flags ip = I_VALID;
  of_type : i_type ip ≠ T_DEV }.

(** The blocks that a write of [n] bytes at [off] touches. *)
Definition touched (off n : Z) : nat := Z.to_nat ((off mod BSIZE + n + BSIZE - 1) / BSIZE).
Lemma touched_enough off n : 0 ≤ n → off mod BSIZE + n ≤ BSIZE * Z.of_nat (touched off n).
Proof. intros Hn. unfold touched, BSIZE. Z.div_mod_to_equations. lia. Qed.
Lemma touched_chunk off n : 0 ≤ n ≤ max_chunk → (touched off n ≤ 14)%nat.
Proof. change max_chunk with 6656. intros Hn. unfold touched, BSIZE. Z.div_mod_to_equations. lia. Qed.

(** The blocks logged besides those of the data. *)
Definition meta (ip : inode) : gset Z :=
  {[sb_bmapstart sb; iblk sb ip]} ∪ (if find_ ip =? 0 then ∅ else {[find_ ip]}).
Lemma meta_cost ip : (size (meta ip) + ind_cost ip ≤ 3)%nat.
Proof.
  unfold meta, ind_cost. pose proof (size_add (sb_bmapstart sb) {[iblk sb ip]}) as H1.
  rewrite size_singleton in H1. destruct (find_ ip =? 0); [rewrite union_empty_r_L; lia|].
  pose proof (size_add (find_ ip) {[sb_bmapstart sb; iblk sb ip]}). rewrite (union_comm_L _ {[find_ ip]}). lia.
Qed.

Lemma meta_in ip : sb_bmapstart sb ∈ meta ip ∧ iblk sb ip ∈ meta ip ∧ ind_in ip (meta ip).
Proof.
  unfold meta, ind_in. destruct (Z.eqb_spec (find_ ip) 0); (split_and!; [set_solver|set_solver|]).
  - by left.
  - right. set_solver.
Qed.

(** The part of [write_chunk] inside the transaction. *)
Lemma wp_chunk_body {A} F s i f ip ic c src n (k : Z → M filest A) Q :
  ftx start size_ dev sb dv tr (fl_fs s) ic c [] ∅ → ic = fs_ic (fl_fs s) → open_file s i f ip →
  file_ok start size_ dev sb c ip → Forall byte_ok src → n = Z.of_nat (length src) → n ≤ max_chunk →
  0 ≤ f_off f ≤ i_size ip → f_off f + n ≤ MAXFILE * BSIZE → size_ = LOGSIZE →
  (ind_cost ip + touched (f_off f) n ≤ nfree dev sb c)%nat →
  (∀ s' c' ip' bl, written start size_ dev sb c ip (f_off f) src c' ip' →
     ftx start size_ dev sb dv tr (fl_fs s') (<[f_ip f := ip']> ic) c' bl ∅ → (length bl ≤ 28)%nat →
     fl_files s' = <[i := set_f_off (f_off f + n) f]> (fl_files s) → wp F (k n) Q s') →
  wp F (let! f := get_file i in
        on_fs (ilock (f_ip f)) ;!
        let! r := on_fs (writei devsw (f_ip f) src (f_off f) (u32 n)) in
        (if 0 <? r then upd_file i (set_f_off (u32 (f_off f + r))) else skip) ;!
        on_fs (iunlock (f_ip f)) ;!
        k r) Q s.
Proof.
  intros Hs Hic Ho Hf Hsrc Hn Hmx Hoff Hmax Hsz Hfr HQ. pose proof Ho as [Of Oi Os Or Ofl Ot].
  assert (max_chunk = 6656) as Emx by done. assert (MAXFILE * BSIZE = 71680) as EM by done.
  apply wp_bind. eapply (wp_get_file _ _ f); [done|]. apply wp_bind, wp_on_fs.
  eapply wp_ilock_valid; [done|by rewrite Hic|done|by rewrite Ofl|by rewrite Ofl|]. intros t2 Hs2.
  set (ip1 := set_i_flags (Z.lor (i_flags ip) I_BUSY) ip) in *.
  assert (same_inode ip ip1) as HSi by done.
  assert (file_ok start size_ dev sb c ip1) as Hf1 by (eapply file_ok_same; done).
  destruct (meta_in ip) as (M1 & M2 & M3). pose proof (meta_cost ip) as MC.
  pose proof (touched_chunk (f_off f) n ltac:(lia)) as Ht.
  rewrite u32_small by (unfold word_ok; lia). apply wp_bind, wp_on_fs.
  eapply (wp_writei start size_ dev Hgeo sb dv tr Hsb devsw _ _ _ c [] (meta ip) _ ip1 src (f_off f) n
    (touched (f_off f) n)); [done| |done|done|by intros k0 Hk0%not_elem_of_nil|done|done|done| |done|done|done|done|done| |].
  { apply list_lookup_insert_eq. rewrite Hic. by eapply lookup_lt_Some. }
  { unfold LIM. change (ind_cost ip1) with (ind_cost ip). rewrite Hsz. unfold LOGSIZE, MAXOPBLOCKS. lia. }
  { right. apply touched_enough. lia. }
  intros t3 c' ip2 bl U' Hs3 Hcv HU W. rewrite list_insert_insert_eq in Hs3.
  change (ind_cost ip1) with (ind_cost ip) in HU.
  pose proof (cover_length start size_ dev sb dv tr _ _ _ _ _ _ Hs3 Hcv) as Hbl.
  assert (i_flags ip2 = 3 ∧ i_ref ip2 = i_ref ip) as [Efl Eref].
  { rewrite (wt_fields _ _ _ _ _ _ _ _ _ _ W). simpl. by rewrite Ofl. }
  apply wp_bind.
  assert (∀ s4, fl_fs s4 = t3 → fl_files s4 = <[i := set_f_off (f_off f + n) f]> (fl_files s) →
    wp F (on_fs (iunlock (f_ip f)) ;! k n) Q s4) as Hfin.
  { intros s4 Et Efi. apply wp_bind, wp_on_fs. rewrite Et.
    eapply wp_iunlock; [done|apply list_lookup_insert_eq; rewrite Hic; by eapply lookup_lt_Some|lia|by rewrite Efl|].
    intros t4 Hs4. rewrite list_insert_insert_eq in Hs4. eapply HQ; [|exact Hs4|lia|done].
    eapply (written_same start size_ dev sb c c ip ip1 _ _ _ ip2); [done|done|done|done|done|].
    pose proof (wt_fields _ _ _ _ _ _ _ _ _ _ W) as E. rewrite Efl, E at 1.
    unfold ip1, set_i_size, set_i_addrs, set_i_flags. simpl. by rewrite Ofl. }
  destruct (Z.ltb_spec 0 n).
  - eapply (wp_upd_file _ _ _ f); [done|]. rewrite u32_small by (unfold word_ok; lia). by apply Hfin.
  - apply wp_skip, Hfin; [done|]. assert (n = 0) as -> by lia. rewrite Z.add_0_r. simpl.
    rewrite list_insert_id; [done|]. rewrite Of. by destruct f.
Qed.

Lemma wp_write_chunk F s i f ip src n Q :
  idle start size_ dev (fs_ls (fl_fs s)) dv tr → open_file s i f ip → file_ok start size_ dev sb dv ip →
  Forall byte_ok src → n = Z.of_nat (length src) → n ≤ max_chunk →
  0 ≤ f_off f ≤ i_size ip → f_off f + n ≤ MAXFILE * BSIZE → size_ = LOGSIZE →
  (ind_cost ip + touched (f_off f) n ≤ nfree dev sb dv)%nat →
  (∀ s' c' ip' bl, written start size_ dev sb dv ip (f_off f) src c' ip' →
     open_file s' i (set_f_off (f_off f + n) f) ip' →
     Forall (home start size_) bl → Z.of_nat (length bl) ≤ Z.min (size_ - 1) 29 →
     (∀ k, k ∉ bl → c' dev k = dv dev k) →
     idle start size_ dev (fs_ls (fl_fs s')) (writes dv (tx_trace start dev c' dv bl))
       (tr ++ tx_trace start dev c' dv bl) → Q n s') →
  wp F (write_chunk devsw i src n) Q s.
Proof.
  intros Hid Ho Hf Hsrc Hn Hmx Hoff Hmax Hsz Hfr HQ. pose proof Ho as [Of Oi Os Or Ofl Ot].
  pose proof Hgeo as (Hd & Hst & Hs0 & Hend).
  unfold write_chunk. apply wp_bind, wp_on_fs, wp_on_log.
  eapply wp_begin_idle; [done..|]. intros l1 c Hin Hc.
  set (s1 := set_fl_fs (set_ls l1 (fl_fs s)) s).
  assert (file_ok start size_ dev sb c ip) as Hfc by (by eapply (file_ok_same _ _ _ _ dv)).
  eapply (wp_chunk_body F s1 i f ip (fs_ic (fl_fs s)) c); [done|done|done|done|done|done|done|done|done|done| |].
  { unfold nfree, marked in *. by rewrite Hc. }
  intros s2 c' ip' bl W Hs2 Hbl Hfi. apply wp_bind, wp_on_fs, wp_on_log.
  assert (Z.of_nat (length bl) ≤ Z.min (size_ - 1) 29) as Hbl' by (rewrite Hsz; unfold LOGSIZE, MAXOPBLOCKS; lia).
  eapply wp_end_op; [done..|apply Hs2|done|apply Hid|apply Hid|]. intros l3 Hid3. apply wp_ret.
  pose proof (written_same start size_ dev sb dv c ip ip (f_off f) src c' ip' ip' Hfc Hc) as WS.
  pose proof (wt_fields _ _ _ _ _ _ _ _ _ _ W) as EW.
  eapply (HQ _ c' ip' bl); [by apply WS| |apply Hs2|done| |exact Hid3].
  - split; simpl.
    + rewrite Hfi. apply list_lookup_insert_eq. by eapply lookup_lt_Some.
    + rewrite (ft_ic _ _ _ _ _ _ _ _ _ _ _ Hs2). apply list_lookup_insert_eq. by eapply lookup_lt_Some.
    + apply Hs2.
    + rewrite EW. done.
    + rewrite EW. done.
    + rewrite EW. done.
  - intros k. eapply (in_tx_clean start size_ dev); [done..|apply Hs2].
Qed.
End FileWrite.

(** Claim C5: a write to a file is atomic.  On a consistent disk with an idle
    log of [LOGSIZE] blocks, one transaction of [filewrite], of up to
    [max_chunk] bytes at the offset of an open file, returns the number of
    bytes and advances the offset.  Afterwards the file has exactly the new
    bytes at that offset and its old ones elsewhere, its size is the larger of
    the two ends, its inode on the disk agrees with the cached one, and every
    other block in use, so every other file, is unchanged.  If the machine
    stops after any prefix of the block writes, the next boot's [initlog]
    returns, and the blocks outside the log are either all as before the write
    or all as after it. *)
Theorem file_write_atomic start size_ dev sb devsw dv tr s i f ip src n :
  log_geometry start size_ dev → on_disk start size_ dev dv → sb_ok start size_ sb →
  idle start size_ dev (fs_ls (fl_fs s)) dv tr → open_file sb s i f ip →
  file_ok start size_ dev sb dv ip → Forall byte_ok src → n = Z.of_nat (length src) → n ≤ max_chunk →
  0 ≤ f_off f ≤ i_size ip → f_off f + n ≤ MAXFILE * BSIZE → size_ = LOGSIZE →
  (ind_cost ip + touched (f_off f) n ≤ nfree dev sb dv)%nat →
  ∃ s' W c' ip', write_chunk devsw i src n s = Ret (n, s') ∧
    open_file sb s' i (set_f_off (f_off f + n) f) ip' ∧
    written start size_ dev sb dv ip (f_off f) src c' ip' ∧
    idle start size_ dev (fs_ls (fl_fs s')) (writes dv W) (tr ++ W) ∧
    (∀ k, ¬ in_log start size_ k → writes dv W dev k = c' dev k) ∧
    (∀ jp o, inode_wf start size_ dev sb dv jp → (∀ k, owned dev dv jp k → ¬ owned dev dv ip k) →
       in_bytes o → fbyte dev c' jp o = fbyte dev dv jp o) ∧
    ∀ P, P `prefix_of` W →
      ∃ s2, initlog dev (power_on (writes dv P)) = Ret (tt, s2) ∧
        ((∀ k, ¬ in_log start size_ k → disk_of s2 dev k = dv dev k) ∨
         (∀ k, ¬ in_log start size_ k → disk_of s2 dev k = c' dev k)).
Proof.
  intros Hgeo Hod Hsb Hid Ho Hf Hsrc Hn Hmx Hoff Hmax Hsz Hfr.
  destruct (wp_ok (write_chunk devsw i src n) (λ r s', r = n ∧ ∃ c' ip' bl,
    written start size_ dev sb dv ip (f_off f) src c' ip' ∧
    open_file sb s' i (set_f_off (f_off f + n) f) ip' ∧ Forall (home start size_) bl ∧
    Z.of_nat (length bl) ≤ Z.min (size_ - 1) 29 ∧ (∀ k, k ∉ bl → c' dev k = dv dev k) ∧
    idle start size_ dev (fs_ls (fl_fs s')) (writes dv (tx_trace start dev c' dv bl))
      (tr ++ tx_trace start dev c' dv bl)) s) as (r & s' & E & -> & c' & ip' & bl & W & Ho' & H1 & H2 & H3 & H4).
  { eapply (wp_write_chunk start size_ dev Hgeo sb Hsb devsw dv tr); [done..|]. intros. eauto 12. }
  destruct (tx_crash start size_ dev c' dv bl) as [C1 C2]; try done; [apply Hid..|].
  exists s', (tx_trace start dev c' dv bl), c', ip'. split_and!; try done.
  intros jp o Hj Hdis Hob. by eapply written_other_file.
Qed.

(** ** A disk with an empty file *)
(** The layout of mkfs, with inode 2 an empty file with one link. *)
Definition wsb : superblock := mkSb 1000 941 200 30 2 32 58.
Definition wdisk : disk := λ d k,
  if k =? 1 then put32 16 2 (put32 12 30 zero_block)
  else if k =? 32 then put16 134 1 (put16 128 2 zero_block)
  else if k =? 58 then replicate 7 255 ++ 7 :: replicate 504 0
  else zero_block.
Definition wip : inode := mkInode 1 2 1 I_VALID T_FILE 0 0 1 0 (replicate 13 0).
Definition wfile : file := mkFile FD_INODE 1 1 1 0 0 0.
Definition wst : filest :=
  mkFst (mkFs (mkLs (binit (mkBc [] [] 1 wdisk [])) (mkLog 2 30 0 0 1 0 (replicate (Z.to_nat LOGSIZE) 0)))
    wsb [wip]) [wfile] ∅ (mkKmem 0 0 (λ _, 0)).
Definition wdev : Z → devsw_entry := λ _, mkDevsw None None.

Lemma wst_idle : idle 2 30 1 (fs_ls (fl_fs wst)) wdisk [].
Proof. split; try done. exists wdisk. split; [done|]. by apply (cview_binit (mkBc [] [] 1 wdisk [])). Qed.
Lemma wst_open : open_file wsb wst 0 wfile wip.
Proof. by split. Qed.
Lemma wsb_ok : sb_ok 2 30 wsb.
Proof.
  split.
  - vm_compute. split; congruence.
  - apply wit_home. done.
  - intros k (inum & Hi & ->). assert (0 ≤ inum < 200) as Hi' by exact Hi.
    change (inum / IPB + sb_inodestart wsb) with (inum / 8 + 32).
    assert (0 ≤ inum / 8 < 25) as H by (Z.div_mod_to_equations; lia).
    generalize dependent (inum / 8). intros q Hq.
    split_and!; [apply wit_home; apply andb_true_intro; split; apply Z.ltb_lt; lia|change (sb_bmapstart wsb) with 58; lia|unfold FSSIZE; lia].
  - vm_compute. split; congruence.
Qed.
Lemma wdisk_blocks k : block_ok (wdisk 1 k).
Proof.
  unfold wdisk. repeat case_match; [apply put32_ok, put32_ok, zero_block_ok|apply put16_ok, put16_ok, zero_block_ok| |apply zero_block_ok].
  split; [done|]. apply Forall_app_2; [apply Forall_replicate|apply Forall_cons_2; [|apply Forall_replicate]];
    unfold byte_ok; lia.
Qed.
Lemma wdisk_data k : 59 ≤ k < 1000 → data_blk 2 30 wsb k.
Proof.
  intros Hk. unfold data_blk. change (sb_bmapstart wsb) with 58. change (sb_size wsb) with 1000. split_and!; [|lia| |lia|lia].
  - apply wit_home, andb_true_intro. split; apply Z.ltb_lt; lia.
  - intros (inum & Hi & ->). assert (0 ≤ inum < 200) as Hi' by exact Hi.
    change (inum / IPB + sb_inodestart wsb) with (inum / 8 + 32) in Hk. Z.div_mod_to_equations. lia.
Qed.
Lemma wfs_ok : fs_ok 2 30 1 wsb wdisk.
Proof.
  split; [exact wdisk_blocks|]. intros k Hk Hn. change (sb_size wsb) with 1000 in Hk.
  destruct (decide (59 ≤ k)) as [|Hlt]; [destruct Hn; apply wdisk_data; lia|].
  assert (forallb (λ k, marked 1 wsb wdisk (Z.of_nat k)) (seq 0 59) = true) as Hall by (by vm_compute).
  rewrite forallb_forall in Hall. replace k with (Z.of_nat (Z.to_nat k)) by lia. apply Hall, in_seq. lia.
Qed.
Lemma wip_faddr bn : faddr 1 wdisk wip bn = 0.
Proof.
  unfold faddr. destruct (bn <? NDIRECT); [|done].
  unfold wip. cbn [i_addrs]. destruct (replicate 13 0 !! Z.to_nat bn) eqn:E; [|done].
  by apply lookup_replicate in E as [-> _].
Qed.
Lemma wfile_ok : file_ok 2 30 1 wsb wdisk wip.
Proof.
  assert (∀ k, ¬ owned 1 wdisk wip k) as Hno.
  { intros k [Hk [Hf|(bn & _ & Hf)]]; [by vm_compute in Hf|]. rewrite wip_faddr in Hf. by subst. }
  split; [exact wfs_ok| |by vm_compute| |by vm_compute|by vm_compute|intros o; unfold wip; simpl; lia].
  - split; [done|done|by repeat constructor|by intros k Hk%Hno| |]; intros; by rewrite wip_faddr in *.
  - unfold inode_ok, short_ok, word_ok, wip. simpl. unfold T_FILE.
    split_and!; try lia. all: try done. repeat constructor; unfold word_ok; lia.
Qed.

Lemma file_write_atomic_witness :
  ∃ s' W c' ip', write_chunk wdev 0 [104; 105] 2 wst = Ret (2, s') ∧
    open_file wsb s' 0 (set_f_off 2 wfile) ip' ∧
    written 2 30 1 wsb wdisk wip 0 [104; 105] c' ip' ∧
    idle 2 30 1 (fs_ls (fl_fs s')) (writes wdisk W) ([] ++ W) ∧
    (∀ k, ¬ in_log 2 30 k → writes wdisk W 1 k = c' 1 k) ∧
    (∀ jp o, inode_wf 2 30 1 wsb wdisk jp → (∀ k, owned 1 wdisk jp k → ¬ owned 1 wdisk wip k) →
       in_bytes o → fbyte 1 c' jp o = fbyte 1 wdisk jp o) ∧
    ∀ P, P `prefix_of` W →
      ∃ s2, initlog 1 (power_on (writes wdisk P)) = Ret (tt, s2) ∧
        ((∀ k, ¬ in_log 2 30 k → disk_of s2 1 k = wdisk 1 k) ∨
         (∀ k, ¬ in_log 2 30 k → disk_of s2 1 k = c' 1 k)).
Proof.
  apply (file_write_atomic 2 30 1 wsb wdev wdisk [] wst 0 wfile wip [104; 105] 2).
  - exact wit_geometry.
  - vm_compute. done.
  - exact wsb_ok.
  - exact wst_idle.
  - exact wst_open.
  - exact wfile_ok.
  - repeat constructor; unfold byte_ok; lia.
  - reflexivity.
  - vm_compute. congruence.
  - vm_compute. split; congruence.
  - vm_compute. congruence.
  - reflexivity.
  - apply Nat.leb_le. vm_compute. reflexivity.
Defined.

(** Writing and reading back in one transaction. *)
Definition write_read (devsw : Z → devsw_entry) (i : nat) (src : list Z) (off n : Z) :
    M fstate (Z * (Z * list Z)) :=
  on_log begin_op ;!
  let! r := writei devsw i src off n in
  let! q := readi devsw i off n in
  on_log end_op ;!
  ret (r, q).

Lemma written_bytes start size_ dev sb c ip off src c' ip' :
  written start size_ dev sb c ip off src c' ip' → 0 ≤ off →
  off + Z.of_nat (length src) ≤ MAXFILE * BSIZE →
  fbyte dev c' ip' <$> seqZ off (Z.of_nat (length src)) = src.
Proof.
  intros W Hoff Hmax. apply list_eq. intros j. rewrite list_lookup_fmap.
  destruct (decide (j < length src)%nat) as [Hj|Hj].
  - rewrite lookup_seqZ_lt by lia. simpl. rewrite (wt_bytes _ _ _ _ _ _ _ _ _ _ W) by (unfold in_bytes; lia).
    unfold over. rewrite (proj2 (Z.leb_le _ _)), (proj2 (Z.ltb_lt _ _)) by lia. simpl.
    replace (Z.to_nat (off + Z.of_nat j - off)) with j by lia.
    by destruct (lookup_lt_is_Some_2 src j Hj) as [x ->].
  - rewrite lookup_seqZ_ge by lia. symmetry. apply lookup_ge_None. lia.
Qed.

(** Claim C15: what is written is read back.  On a consistent disk, [writei] of
    [n] bytes at an offset inside the file or at its end, followed by [readi]
    of [n] bytes at the same offset, returns [n] from both calls, and the
    bytes read are the bytes written, through any mixture of present and newly
    allocated, direct and indirect blocks. *)
Theorem write_read_roundtrip start size_ dev sb devsw dv tr s i ip src off n nb :
  log_geometry start size_ dev → sb_ok start size_ sb → idle start size_ dev (fs_ls s) dv tr →
  fs_sb s = sb → fs_ic s !! i = Some ip → file_ok start size_ dev sb dv ip → i_type ip ≠ T_DEV →
  Forall byte_ok src → n = Z.of_nat (length src) → 0 ≤ off ≤ i_size ip → off + n ≤ MAXFILE * BSIZE →
  off mod BSIZE + n ≤ BSIZE * Z.of_nat nb → (ind_cost ip + nb ≤ nfree dev sb dv)%nat →
  Z.of_nat nb + 3 < Z.min (size_ - 1) 29 →
  ∃ s', write_read devsw i src off n s = Ret ((n, (n, src)), s').
Proof.
  intros Hgeo Hsb Hid Hs Hi Hf Ht Hsrc Hn Hoff Hmax Hnb Hfr Hl. pose proof Hgeo as (Hd & Hst & Hs0 & Hend).
  destruct (wp_ok (write_read devsw i src off n) (λ r _, r = (n, (n, src))) s) as (r & s' & E & ->);
    [|by exists s'].
  destruct (meta_in start size_ dev Hgeo sb Hsb devsw ip) as (M1 & M2 & M3). pose proof (meta_cost sb ip) as MC.
  unfold write_read. apply wp_bind, wp_on_log. eapply wp_begin_idle; [done..|]. intros l1 c Hin Hc.
  assert (file_ok start size_ dev sb c ip) as Hfc by (by eapply (file_ok_same _ _ _ _ dv)).
  apply wp_bind. eapply (wp_writei start size_ dev Hgeo sb dv tr Hsb devsw _ _ _ c [] (meta sb ip) _ ip src off n nb);
    [done|done|done|done|by intros k0 Hk0%not_elem_of_nil|done|done|done|unfold LIM; lia| |done|done|done|done|by right|].
  { unfold nfree, marked in *. by rewrite Hc. }
  intros s2 c' ip' bl U' Hs2 Hcv HU W. pose proof (cover_length start size_ dev sb dv tr _ _ _ _ _ _ Hs2 Hcv) as Hbl.
  pose proof (wt_file _ _ _ _ _ _ _ _ _ _ W) as Hf'. pose proof (wt_fields _ _ _ _ _ _ _ _ _ _ W) as EW.
  pose proof (wt_size _ _ _ _ _ _ _ _ _ _ W) as ES. assert (MAXFILE * BSIZE = 71680) as EM by done.
  apply wp_bind. eapply (wp_readi start size_ dev Hgeo sb dv tr devsw _ _ _ c' bl i ip');
    [done|apply list_lookup_insert_eq; by eapply lookup_lt_Some|done|by rewrite EW|lia|lia|lia|unfold word_ok; lia|].
  intros s3 Hs3. replace (n `min` (i_size ip' - off)) with (Z.of_nat (length src)) by lia.
  rewrite (written_bytes _ _ _ _ _ _ _ _ _ _ W) by lia. apply wp_bind, wp_on_log.
  eapply wp_end_op; [done..|apply Hs3|lia|apply Hid|apply Hid|]. intros l4 _. apply wp_ret. by rewrite Hn.
Qed.
Lemma write_read_roundtrip_witness :
  ∃ s', write_read wdev 0 (replicate 700 33) 0 700 (fl_fs wst) = Ret ((700, (700, replicate 700 33)), s').
Proof.
  apply (write_read_roundtrip 2 30 1 wsb wdev wdisk [] (fl_fs wst) 0 wip (replicate 700 33) 0 700 2).
  - exact wit_geometry.
  - exact wsb_ok.
  - exact wst_idle.
  - reflexivity.
  - reflexivity.
  - exact wfile_ok.
  - vm_compute. congruence.
  - apply Forall_replicate. unfold byte_ok. lia.
  - reflexivity.
  - vm_compute. split; congruence.
  - vm_compute. congruence.
  - vm_compute. congruence.
  - apply Nat.leb_le. vm_compute. reflexivity.
  - vm_compute. reflexivity.
Defined.
