(* ===== verification/FileRefs.v ===== *)
(** * Reference counts of the file table (file.c)

    Open files are shared: file descriptors of several processes, and pointers
    held by system calls in progress, are references.  The table is used
    through the critical sections of [ftable.lock], in any order; [refs] is
    the list of references that are out. *)
From S2P Require Import Prelude Machine Block Fs File.

Open Scope Z_scope.

Abbreviation ftab := (list file * list nat)%type.
(** The references to file [i]. *)
Definition refs_to (i : nat) (refs : list nat) : nat := length (filter (eq i) refs).

(** One step of the users of the table: [filealloc] hands out a reference,
    [filedup] copies one, [fileclose] gives one up, and the owner of a
    reference sets the fields other than the count. *)
Inductive ftstep : ftab → ftab → Prop :=
| ft_step_alloc fs fs' i refs :
    ft_alloc fs = (Some i, fs') → ftstep (fs, refs) (fs', i :: refs)
| ft_step_dup fs fs' i refs :
    i ∈ refs → ft_dup i fs = Ret fs' → ftstep (fs, refs) (fs', i :: refs)
| ft_step_close fs fs' i last refs refs' :
    refs ≡ₚ i :: refs' → ft_close i fs = Ret (last, fs') → ftstep (fs, refs) (fs', refs')
| ft_step_set fs i f g refs :
    i ∈ refs → fs !! i = Some f → f_ref g = f_ref f → ftstep (fs, refs) (<[i := g]> fs, refs).

Definition file0 : file := mkFile FD_NONE 0 0 0 0 0 0.
Definition ftab0 : ftab := (replicate NFILE file0, []).

Record ft_inv (t : ftab) : Prop := {
  fi_len : length t.1 = NFILE;
  fi_ref : ∀ i f, t.1 !! i = Some f → f_ref f = Z.of_nat (refs_to i t.2);
  fi_none : ∀ i f, t.1 !! i = Some f → f_ref f = 0 → f_type f = FD_NONE;
  fi_range : ∀ i, i ∈ t.2 → (i < NFILE)%nat }.

Lemma refs_to_cons i j refs : refs_to i (j :: refs) = ((if decide (i = j) then 1 else 0) + refs_to i refs)%nat.
Proof. unfold refs_to. rewrite filter_cons. by destruct (decide (i = j)). Qed.
#[export] Instance refs_to_perm i : Proper ((≡ₚ) ==> (=)) (refs_to i).
Proof. intros l l' H. unfold refs_to. by rewrite H. Qed.
Lemma refs_to_elem i refs : i ∈ refs → (0 < refs_to i refs)%nat.
Proof.
  intros (l & Hl)%elem_of_Permutation. rewrite Hl, refs_to_cons, decide_True by done. lia.
Qed.
Lemma refs_to_none i refs : i ∉ refs → refs_to i refs = 0%nat.
Proof.
  induction refs as [|j refs IH]; intros Hi; [done|]. apply not_elem_of_cons in Hi as [H1 H2].
  rewrite refs_to_cons, decide_False by done. by apply IH.
Qed.

Lemma free_file_spec fs : ∀ k,
  match free_file fs k with
  | Some i => (k ≤ i)%nat ∧ ∃ f, fs !! (i - k)%nat = Some f ∧ f_ref f = 0
  | None => ∀ f, f ∈ fs → f_ref f ≠ 0
  end.
Proof.
  induction fs as [|f fs IH]; intros k; simpl; [by intros f Hf%not_elem_of_nil|].
  destruct (Z.eqb_spec (f_ref f) 0) as [E|E].
  - rewrite Nat.sub_diag. split; [done|]. by exists f.
  - specialize (IH (S k)). destruct (free_file fs (S k)) as [i|].
    + destruct IH as (Hk & g & Hg & E'). split; [lia|]. exists g.
      replace (i - k)%nat with (S (i - S k)) by lia. done.
    + intros g [->|Hg]%elem_of_cons; [done|by apply IH].
Qed.

Lemma ft_inv_insert fs refs i f g refs' :
  ft_inv (fs, refs) → fs !! i = Some f →
  f_ref g = Z.of_nat (refs_to i refs') → (f_ref g = 0 → f_type g = FD_NONE) →
  (∀ j, j ≠ i → refs_to j refs' = refs_to j refs) → (∀ j, j ∈ refs' → j = i ∨ j ∈ refs) →
  ft_inv (<[i := g]> fs, refs').
Proof.
  intros [H1 H2 H3 H4] Hi Hg Ht Ho Hin. simpl in *.
  assert (i < NFILE)%nat as Hlt by (rewrite <- H1; by eapply lookup_lt_Some). split; simpl.
  - by rewrite length_insert.
  - intros j h Hj. destruct (decide (j = i)) as [->|Hne].
    + rewrite list_lookup_insert_eq in Hj by (by rewrite H1). by simplify_eq.
    + rewrite list_lookup_insert_ne in Hj by done. rewrite Ho by done. by apply H2.
  - intros j h Hj. destruct (decide (j = i)) as [->|Hne].
    + rewrite list_lookup_insert_eq in Hj by (by rewrite H1). by simplify_eq.
    + rewrite list_lookup_insert_ne in Hj by done. by eapply H3.
  - intros j [->|Hj]%Hin; [done|by apply H4].
Qed.

Lemma ft_inv_init : ft_inv ftab0.
Proof.
  split; unfold ftab0; cbn [fst snd]; [apply length_replicate| | |by intros i Hi%not_elem_of_nil].
  all: intros i f [-> _]%lookup_replicate; done.
Qed.
Lemma ft_inv_step t t' : ftstep t t' → ft_inv t → ft_inv t'.
Proof.
  intros Hst Hinv. destruct Hst as [fs fs' i refs E|fs fs' i refs Hi E|fs fs' i last refs refs' Hp E|fs i f g refs Hi Hf Hr].
  - unfold ft_alloc in E. pose proof (free_file_spec fs 0) as Hs. destruct (free_file fs 0) as [j|]; simplify_eq.
    destruct Hs as (_ & f & Hf & E0). rewrite Nat.sub_0_r in Hf.
    rewrite (list_alter_insert _ fs i f Hf).
    pose proof (fi_ref _ Hinv i f Hf) as Hc. simpl in Hc.
    eapply ft_inv_insert; [done|done| |done| |]; simpl.
    + rewrite refs_to_cons, decide_True by done. lia.
    + intros j Hj. by rewrite refs_to_cons, decide_False.
    + intros j [->|Hj]%elem_of_cons; auto.
  - unfold ft_dup in E. destruct (fs !! i) as [f|] eqn:Hf; [|done]. destruct (Z.ltb_spec (f_ref f) 1); simplify_eq.
    pose proof (fi_ref _ Hinv i f Hf) as Hc. simpl in Hc. pose proof (refs_to_elem i refs Hi).
    eapply ft_inv_insert; [done|done| |simpl; lia| |]; simpl.
    + rewrite refs_to_cons, decide_True by done. lia.
    + intros j Hj. by rewrite refs_to_cons, decide_False.
    + intros j [->|Hj]%elem_of_cons; auto.
  - unfold ft_close in E. destruct (fs !! i) as [f|] eqn:Hf; [|done]. destruct (Z.ltb_spec (f_ref f) 1); [done|].
    pose proof (fi_ref _ Hinv i f Hf) as Hc. simpl in Hc.
    assert (refs_to i refs = S (refs_to i refs')) as Er.
    { rewrite Hp, refs_to_cons, decide_True by done. lia. }
    assert (∀ j, j ≠ i → refs_to j refs' = refs_to j refs) as Ho.
    { intros j Hj. by rewrite Hp, refs_to_cons, decide_False. }
    assert (∀ j, j ∈ refs' → j = i ∨ j ∈ refs) as Hin by (intros j Hj; right; rewrite Hp; by right).
    destruct (Z.ltb_spec 0 (f_ref f - 1)); simplify_eq;
      (eapply ft_inv_insert; [done|done|simpl; lia|simpl; (done || lia)|done|done]).
  - pose proof (fi_ref _ Hinv i f Hf) as Hc. simpl in Hc. pose proof (refs_to_elem i refs Hi).
    eapply ft_inv_insert; [done|done|by rewrite Hr|lia|done|by right].
Qed.

(** Reference counting of open files is exact.  However [filealloc],
    [filedup], [fileclose] and the owners of references interleave, starting
    from the empty table: a holder of a reference can duplicate and close it
    without panic, and the file is torn down exactly when the last reference
    is closed; [filealloc] hands out a file to which nobody has a reference
    and whose type is [FD_NONE], so that closing it before it is set up tears
    nothing down; and it fails only when all [NFILE] files are referenced. *)
Theorem file_references_exact fs refs :
  rtc ftstep ftab0 (fs, refs) →
  (∀ i, i ∈ refs →
     (∃ fs', ft_dup i fs = Ret fs') ∧
     (∃ last fs', ft_close i fs = Ret (last, fs') ∧ (is_Some last ↔ refs_to i refs = 1%nat))) ∧
  match ft_alloc fs with
  | (Some i, fs') => (i ∉ refs) ∧ ∃ f, fs' !! i = Some f ∧ f_ref f = 1 ∧ f_type f = FD_NONE
  | (None, _) => ∀ i, (i < NFILE)%nat → i ∈ refs
  end.
Proof.
  intros Hr. assert (ft_inv (fs, refs)) as Hinv.
  { assert (∀ t, rtc ftstep ftab0 t → ft_inv t) as H; [|by apply H].
    apply rtc_ind_r; [exact ft_inv_init|]. intros. by eapply ft_inv_step. }
  destruct Hinv as [H1 H2 H3 H4]. simpl in *. split.
  - intros i Hi. destruct (lookup_lt_is_Some_2 fs i) as [f Hf]; [rewrite H1; by apply H4|].
    pose proof (H2 i f Hf) as Hc. pose proof (refs_to_elem i refs Hi). unfold ft_dup, ft_close. rewrite Hf.
    rewrite (proj2 (Z.ltb_ge (f_ref f) 1)) by lia. split; [eauto|].
    destruct (Z.ltb_spec 0 (f_ref f - 1)); eexists _, _; (split; [done|]);
      (split; [intros [? [=]] || intros _; lia|intros; lia || done]).
  - pose proof (free_file_spec fs 0) as Hs. unfold ft_alloc. destruct (free_file fs 0) as [i|].
    + destruct Hs as (_ & f & Hf & E0). rewrite Nat.sub_0_r in Hf. pose proof (H2 i f Hf) as Hc. split.
      * intros Hi%refs_to_elem. lia.
      * exists (set_f_ref 1 f). rewrite list_lookup_alter_eq, Hf. split_and!; [done|done|simpl; eauto].
    + intros i Hi. destruct (lookup_lt_is_Some_2 fs i) as [f Hf]; [by rewrite H1|].
      pose proof (Hs f (list_elem_of_lookup_2 _ _ _ Hf)). pose proof (H2 i f Hf) as Hc.
      destruct (decide (i ∈ refs)) as [|Hn]; [done|]. exfalso.
      pose proof (refs_to_none i refs Hn). lia.
Qed.
(** After an open and a dup of the first file. *)
Definition ftab_dup : list file := <[0%nat := set_f_ref 2 file0]> (replicate NFILE file0).
Lemma file_references_exact_witness :
  (∀ i, i ∈ [0%nat; 0%nat] →
     (∃ fs', ft_dup i ftab_dup = Ret fs') ∧
     (∃ last fs', ft_close i ftab_dup = Ret (last, fs') ∧ (is_Some last ↔ refs_to i [0%nat; 0%nat] = 1%nat))) ∧
  match ft_alloc ftab_dup with
  | (Some i, fs') => (i ∉ [0%nat; 0%nat]) ∧ ∃ f, fs' !! i = Some f ∧ f_ref f = 1 ∧ f_type f = FD_NONE
  | (None, _) => ∀ i, (i < NFILE)%nat → i ∈ [0%nat; 0%nat]
  end.
Proof.
  apply (file_references_exact ftab_dup [0%nat; 0%nat]).
  eapply rtc_l; [by apply (ft_step_alloc _ (<[0%nat := set_f_ref 1 file0]> (replicate NFILE file0)) 0)|].
  apply rtc_once, ft_step_dup; [by left|reflexivity].
Defined.
