(* ===== verification/Lapic.v ===== *)
(** * The real-time clock (lapic.c: cmos_read, fill_rtcdate, cmostime; date.h)

    The clock chip is an argument: [cmos n reg] is the byte that the [n]-th
    read of the kernel gets from register [reg].  The state of the reading
    code is the number of reads it has made.  The registers of the clock
    change while the kernel reads them one by one; the theorem is that the
    date the kernel ends with is one the clock really showed. *)
From S2P Require Import Prelude Machine.

Open Scope Z_scope.

(** [struct rtcdate] *)
Record rtcdate := mkDate {
  second : Z; minute : Z; hour : Z; day : Z; month : Z; year : Z }.
#[export] Instance rtcdate_eq_dec : EqDecision rtcdate.
Proof. solve_decision. Defined.
Definition sizeof_rtcdate : Z := 24.

Definition CMOS_STATA : Z := 0x0a.
Definition CMOS_STATB : Z := 0x0b.
Definition CMOS_UIP : Z := Z.shiftl 1 7.
Definition SECS : Z := 0x00.
Definition MINS : Z := 0x02.
Definition HOURS : Z := 0x04.
Definition DAY : Z := 0x07.
Definition MONTH : Z := 0x08.
Definition YEAR : Z := 0x09.

Section Cmos.
Context (cmos : nat → Z → Z).

Definition cmos_read (reg : Z) : M nat Z := λ n, Ret (cmos n reg, S n).

Definition fill_rtcdate : M nat rtcdate :=
  let! second := cmos_read SECS in
  let! minute := cmos_read MINS in
  let! hour := cmos_read HOURS in
  let! day := cmos_read DAY in
  let! month := cmos_read MONTH in
  let! year := cmos_read YEAR in
  ret (mkDate second minute hour day month year).

(** [for (;;)]: read the date until two readings agree.  [memcmp] of two
    structures of words without padding is their equality. *)
Fixpoint cmos_loop (fuel : nat) : M nat rtcdate :=
  match fuel with
  | O => λ _, Diverge
  | S fuel =>
      let! t1 := fill_rtcdate in
      let! sa := cmos_read CMOS_STATA in
      if truth (Z.land sa CMOS_UIP) then cmos_loop fuel
      else
        let! t2 := fill_rtcdate in
        if bool_decide (t1 = t2) then ret t1 else cmos_loop fuel
  end.

(** [CONV(x)] *)
Definition CONV (x : Z) : Z := u32 (Z.shiftr x 4 * 10 + Z.land x 0xf).
Definition CONV_all (t : rtcdate) : rtcdate :=
  mkDate (CONV (second t)) (CONV (minute t)) (CONV (hour t))
    (CONV (day t)) (CONV (month t)) (CONV (year t)).
Definition add_2000 (t : rtcdate) : rtcdate :=
  mkDate (second t) (minute t) (hour t) (day t) (month t) (u32 (year t + 2000)).

Definition cmostime (fuel : nat) : M nat rtcdate :=
  let! sb := cmos_read CMOS_STATB in
  let bcd := Z.land sb (Z.shiftl 1 2) =? 0 in
  let! t1 := cmos_loop fuel in
  let t1 := if bcd then CONV_all t1 else t1 in
  ret (add_2000 t1).
End Cmos.

(** ** The clock *)

(** Two decimal digits in a byte, as a chip in BCD mode shows them. *)
Definition enc (bcd : bool) (v : Z) : Z := if bcd then v / 10 * 16 + v mod 10 else v.
Definition two_digits (d : rtcdate) : Prop :=
  0 ≤ second d < 100 ∧ 0 ≤ minute d < 100 ∧ 0 ≤ hour d < 100 ∧
  0 ≤ day d < 100 ∧ 0 ≤ month d < 100 ∧ 0 ≤ year d < 100.
(** The chip shows [time n] at the [n]-th read, in the mode its status
    register B says. *)
Definition clock (cmos : nat → Z → Z) (bcd : bool) (time : nat → rtcdate) : Prop :=
  ∀ n, two_digits (time n) ∧
    (Z.land (cmos n CMOS_STATB) (Z.shiftl 1 2) =? 0) = bcd ∧
    cmos n SECS = enc bcd (second (time n)) ∧ cmos n MINS = enc bcd (minute (time n)) ∧
    cmos n HOURS = enc bcd (hour (time n)) ∧ cmos n DAY = enc bcd (day (time n)) ∧
    cmos n MONTH = enc bcd (month (time n)) ∧ cmos n YEAR = enc bcd (year (time n)).
(** The thirteen reads from the [n]-th on see at most one change of the time. *)
Definition one_change (time : nat → rtcdate) (n : nat) : Prop :=
  ∃ c, (∀ i, n ≤ i < c → time i = time n)%nat ∧ (∀ i, c ≤ i < n + 13 → time i = time (n + 12))%nat.
(** They see none, and no update is announced. *)
Definition quiet (cmos : nat → Z → Z) (time : nat → rtcdate) (n : nat) : Prop :=
  truth (Z.land (cmos (n + 6)%nat CMOS_STATA) CMOS_UIP) = false ∧
  ∀ i, (n ≤ i < n + 13)%nat → time i = time n.

(** The date as [struct rtcdate] has it. *)
Definition full_date (d : rtcdate) : rtcdate :=
  mkDate (second d) (minute d) (hour d) (day d) (month d) (2000 + year d).

(** ** Proofs *)
Lemma enc_conv v : 0 ≤ v < 100 → CONV (enc true v) = v.
Proof.
  intros H. unfold CONV, enc. rewrite Z.shiftr_div_pow2 by lia. change 0xf with (Z.ones 4).
  rewrite Z.land_ones by lia. change (2 ^ 4) with 16.
  assert ((v / 10 * 16 + v mod 10) / 16 * 10 + (v / 10 * 16 + v mod 10) mod 16 = v) as ->
    by (Z.div_mod_to_equations; lia).
  apply u32_small. unfold word_ok. lia.
Qed.
Lemma enc_inj bcd v w : 0 ≤ v < 100 → 0 ≤ w < 100 → enc bcd v = enc bcd w → v = w.
Proof.
  intros Hv Hw E. destruct bcd; [|exact E]. by rewrite <- (enc_conv v), <- (enc_conv w), E.
Qed.

(** The registers at time [d]. *)
Definition enc_date (bcd : bool) (d : rtcdate) : rtcdate :=
  mkDate (enc bcd (second d)) (enc bcd (minute d)) (enc bcd (hour d))
    (enc bcd (day d)) (enc bcd (month d)) (enc bcd (year d)).
Lemma decode_date (bcd : bool) d : two_digits d →
  add_2000 (if bcd then CONV_all (enc_date bcd d) else enc_date bcd d) = full_date d.
Proof.
  intros (H1 & H2 & H3 & H4 & H5 & H6).
  assert (u32 (year d + 2000) = 2000 + year d) as E by (rewrite u32_small; [lia|unfold word_ok; lia]).
  destruct bcd; unfold full_date, add_2000, CONV_all, enc_date; cbn [second minute hour day month year].
  - by rewrite !enc_conv, E.
  - unfold enc. by rewrite E.
Qed.

Section Clock.
Context (cmos : nat → Z → Z) (bcd : bool) (time : nat → rtcdate).
Hypothesis Hclock : clock cmos bcd time.

(** The six registers, read at six moments. *)
Definition torn (n : nat) : rtcdate :=
  mkDate (enc bcd (second (time n))) (enc bcd (minute (time (n + 1)%nat)))
    (enc bcd (hour (time (n + 2)%nat))) (enc bcd (day (time (n + 3)%nat)))
    (enc bcd (month (time (n + 4)%nat))) (enc bcd (year (time (n + 5)%nat))).
Lemma fill_torn n : fill_rtcdate cmos n = Ret (torn n, (n + 6)%nat).
Proof using Hclock.
  unfold fill_rtcdate, cmos_read, bind, ret, torn.
  destruct (Hclock n) as (_ & _ & -> & _). destruct (Hclock (S n)) as (_ & _ & _ & -> & _).
  destruct (Hclock (S (S n))) as (_ & _ & _ & _ & -> & _).
  destruct (Hclock (S (S (S n)))) as (_ & _ & _ & _ & _ & -> & _).
  destruct (Hclock (S (S (S (S n))))) as (_ & _ & _ & _ & _ & _ & -> & _).
  destruct (Hclock (S (S (S (S (S n)))))) as (_ & _ & _ & _ & _ & _ & _ & ->).
  by rewrite !(Nat.add_comm n).
Qed.

Lemma torn_const n d : (∀ i, n ≤ i < n + 6 → time i = d)%nat → torn n = enc_date bcd d.
Proof. intros H. unfold torn, enc_date. by rewrite !H by lia. Qed.

(** Two equal readings with at most one change are a reading of one moment. *)
Lemma torn_snapshot n : one_change time n → torn n = torn (n + 7) →
  ∃ i, (n ≤ i < n + 13)%nat ∧ torn n = enc_date bcd (time i).
Proof.
  intros (c & H1 & H2) E. destruct (le_lt_dec (n + 6) c) as [Hc|Hc].
  - exists n. split; [lia|]. apply torn_const. intros i Hi. apply H1. lia.
  - exists (n + 12)%nat. split; [lia|]. rewrite E. apply torn_const. intros i Hi. apply H2. lia.
Qed.

Lemma cmos_loop_S fuel n :
  cmos_loop cmos (S fuel) n =
    if truth (Z.land (cmos (n + 6)%nat CMOS_STATA) CMOS_UIP) then cmos_loop cmos fuel (n + 7)%nat
    else if bool_decide (torn n = torn (n + 7)) then Ret (torn n, (n + 13)%nat)
    else cmos_loop cmos fuel (n + 13)%nat.
Proof using Hclock.
  cbn [cmos_loop]. unfold bind at 1. rewrite fill_torn. unfold bind at 1. unfold cmos_read at 1.
  replace (S (n + 6)) with (n + 7)%nat by lia. destruct (truth _); [done|].
  unfold bind. rewrite fill_torn. replace (n + 7 + 6)%nat with (n + 13)%nat by lia.
  by destruct (bool_decide _).
Qed.

Lemma cmos_loop_snapshot fuel : ∀ n t n',
  (∀ m, (n ≤ m < n')%nat → one_change time m) → cmos_loop cmos fuel n = Ret (t, n') →
  ∃ i, (n ≤ i < n')%nat ∧ t = enc_date bcd (time i).
Proof using Hclock.
  induction fuel as [|fuel IH]; intros n t n' Hc; [done|]. rewrite cmos_loop_S.
  assert (∀ k, cmos_loop cmos fuel (n + k)%nat = Ret (t, n') →
    ∃ i, (n ≤ i < n')%nat ∧ t = enc_date bcd (time i)) as Hrec.
  { intros k E. destruct (IH (n + k)%nat t n') as (i & Hi & ->); [intros m Hm; apply Hc; lia|done|].
    exists i. split; [lia|done]. }
  destruct (truth _); [apply Hrec|]. destruct (bool_decide_reflect (torn n = torn (n + 7))) as [E|_]; [|apply Hrec].
  intros [= <- <-]. apply torn_snapshot; [apply Hc; lia|done].
Qed.

Lemma cmos_loop_quiet a fuel : ∀ n,
  (∀ m, (a ≤ m < a + 13)%nat → quiet cmos time m) → (n < a + 13)%nat → (a - n < fuel)%nat →
  ∃ t n', cmos_loop cmos fuel n = Ret (t, n').
Proof using Hclock.
  induction fuel as [|fuel IH]; intros n Hq Hn Hf.
  - exfalso. lia.
  - rewrite cmos_loop_S. destruct (le_lt_dec a n) as [Han|Han].
    + destruct (Hq n ltac:(lia)) as [-> Ht]. rewrite bool_decide_eq_true_2; [by eexists _, _|].
      rewrite (torn_const n (time n)), (torn_const (n + 7) (time n)); [done|intros i Hi; apply Ht; lia..].
    + destruct (truth _); [apply IH; [done|lia..]|]. destruct (bool_decide _); [by eexists _, _|].
      apply IH; [done|lia..].
Qed.
End Clock.

(** [cmostime] reads a date that the clock showed.  For a clock in
    either mode whose time changes at most once within thirteen reads, every
    result of [cmostime] is, decoded and with the full year, the time of one
    moment between the first and the last read, never a mixture of two; and
    the loop ends: when the clock is quiet at the reads from the [a]-th on,
    [a] rounds are enough. *)
Theorem cmostime_snapshot cmos bcd time n :
  clock cmos bcd time → (∀ m, one_change time m) →
  (∀ fuel d n', cmostime cmos fuel n = Ret (d, n') →
     ∃ i, (n < i < n')%nat ∧ d = full_date (time i)) ∧
  (∀ a fuel, (n < a)%nat → (∀ m, a ≤ m < a + 13 → quiet cmos time m)%nat → (a ≤ n + fuel)%nat →
     returns (cmostime cmos fuel n)).
Proof.
  intros Hc Hone. unfold cmostime, bind, cmos_read. destruct (Hc n) as (_ & -> & _). split.
  - intros fuel d n' E. destruct (cmos_loop cmos fuel (S n)) as [[t k]| | |] eqn:El; try done.
    destruct (cmos_loop_snapshot cmos bcd time Hc fuel (S n) t k) as (i & Hi & ->); [done|done|].
    injection E as <- <-. exists i. split; [lia|]. apply decode_date. by destruct (Hc i).
  - intros a fuel Ha Hq Hf.
    destruct (cmos_loop_quiet cmos bcd time Hc a fuel (S n) Hq) as (t & k & ->); [lia..|].
    by eexists.
Qed.
(** A clock in BCD mode that moves from one second to the next at the fifth
    read, in the middle of the first reading. *)
Definition wtime (n : nat) : rtcdate :=
  if (n <=? 4)%nat then mkDate 59 59 23 31 12 19 else mkDate 0 0 0 1 1 20.
Definition wcmos (n : nat) (reg : Z) : Z :=
  let d := enc_date true (wtime n) in
  if reg =? SECS then second d else if reg =? MINS then minute d
  else if reg =? HOURS then hour d else if reg =? DAY then day d
  else if reg =? MONTH then month d else if reg =? YEAR then year d
  else if reg =? CMOS_STATB then 2 else 0.
Lemma wclock : clock wcmos true wtime.
Proof.
  intros n. unfold wcmos, wtime, two_digits. destruct (n <=? 4)%nat; vm_compute; intuition congruence.
Qed.
Lemma wone_change m : one_change wtime m.
Proof.
  unfold wtime. destruct (le_lt_dec m 4) as [H|H].
  - exists 5%nat. split; intros i Hi.
    + by rewrite !(proj2 (Nat.leb_le _ _)) by lia.
    + by rewrite !(proj2 (Nat.leb_gt _ _)) by lia.
  - exists m. split; intros i Hi; by rewrite !(proj2 (Nat.leb_gt _ _)) by lia.
Qed.
Lemma cmostime_snapshot_witness :
  cmostime wcmos 2 0%nat = Ret (mkDate 0 0 0 1 1 2020, 27%nat) ∧
  (∃ i, (0 < i < 27)%nat ∧ mkDate 0 0 0 1 1 2020 = full_date (wtime i)) ∧
  returns (cmostime wcmos 5 0%nat).
Proof.
  destruct (cmostime_snapshot wcmos true wtime 0%nat wclock wone_change) as [H1 H2]. split_and!.
  - reflexivity.
  - apply (H1 2%nat). reflexivity.
  - apply (H2 5%nat); [lia| |lia]. intros m Hm. split; [reflexivity|]. intros i Hi. unfold wtime.
    by rewrite !(proj2 (Nat.leb_gt _ _)) by lia.
Defined.
(** The first reading of that run is neither of the two dates. *)
Example torn_reading : fill_rtcdate wcmos 1%nat = Ret (mkDate 0x59 0x59 0x23 0x31 0x01 0x20, 7%nat).
Proof. reflexivity. Qed.
