(* ===== verification/Mmu.v ===== *)
(** * Segment and gate descriptors (mmu.h; seginit of vm.c, tvinit of trap.c)

    The descriptors as the macros of mmu.h build them, the two tables the
    kernel fills with them, and how the processor reads them back: base and
    limit of a segment, entry point of a gate, and who may use it. *)
From S2P Require Import Prelude Machine Spinlock.

Open Scope Z_scope.

Definition SEG_KCODE : Z := 1.
Definition SEG_KCPU : Z := 3.
Definition SEG_TSS : Z := 6.
Definition NSEGS : nat := 7.
Definition STA_X : Z := 0x8.
Definition STA_W : Z := 0x2.
Definition STA_R : Z := 0x2.
Definition STS_T32A : Z := 0x9.
Definition STS_IG32 : Z := 0xE.
Definition STS_TG32 : Z := 0xF.
Definition T_SYSCALL : Z := 64.
Definition T_IRQ0 : Z := 32.
Definition IRQ_TIMER : Z := 0.
Definition IRQ_KBD : Z := 1.
Definition IRQ_COM1 : Z := 4.
Definition IRQ_IDE : Z := 14.
Definition IRQ_ERROR : Z := 19.
Definition IRQ_SPURIOUS : Z := 31.

(** [struct segdesc] *)
Record segdesc := mkSeg {
  lim_15_0 : Z; base_15_0 : Z; base_23_16 : Z; sd_type : Z; sd_s : Z; sd_dpl : Z; sd_p : Z;
  lim_19_16 : Z; sd_avl : Z; sd_rsv1 : Z; sd_db : Z; sd_g : Z; base_31_24 : Z }.
Definition SEG (type base lim dpl : Z) : segdesc :=
  mkSeg (Z.land (Z.shiftr lim 12) 0xffff) (Z.land (u32 base) 0xffff)
    (Z.land (Z.shiftr (u32 base) 16) 0xff) type 1 dpl 1
    (Z.shiftr (u32 lim) 28) 0 0 1 1 (Z.shiftr (u32 base) 24).
Definition SEG16 (type base lim dpl : Z) : segdesc :=
  mkSeg (Z.land lim 0xffff) (Z.land (u32 base) 0xffff)
    (Z.land (Z.shiftr (u32 base) 16) 0xff) type 1 dpl 1
    (Z.shiftr (u32 lim) 16) 0 0 1 0 (Z.shiftr (u32 base) 24).
Definition set_sd_s (v : Z) (d : segdesc) : segdesc :=
  mkSeg (lim_15_0 d) (base_15_0 d) (base_23_16 d) (sd_type d) v (sd_dpl d) (sd_p d)
    (lim_19_16 d) (sd_avl d) (sd_rsv1 d) (sd_db d) (sd_g d) (base_31_24 d).

(** [seginit]: the table it leaves; [cpu_addr] is [&c->cpu]. *)
Definition seginit (cpu_addr : Z) (gdt : list segdesc) : list segdesc :=
  let gdt := <[Z.to_nat SEG_KCODE := SEG (Z.lor STA_X STA_R) 0 0xffffffff 0]> gdt in
  let gdt := <[Z.to_nat SEG_KDATA := SEG STA_W 0 0xffffffff 0]> gdt in
  let gdt := <[Z.to_nat SEG_UCODE := SEG (Z.lor STA_X STA_R) 0 0xffffffff DPL_USER]> gdt in
  let gdt := <[Z.to_nat SEG_UDATA := SEG STA_W 0 0xffffffff DPL_USER]> gdt in
  <[Z.to_nat SEG_KCPU := SEG STA_W cpu_addr 8 0]> gdt.
(** The task state segment of [switchuvm]; [ts_addr] is [&cpu->ts], of 104 bytes. *)
Definition sizeof_taskstate : Z := 104.
Definition switchuvm_tss (ts_addr : Z) (gdt : list segdesc) : list segdesc :=
  <[Z.to_nat SEG_TSS := set_sd_s 0 (SEG16 STS_T32A ts_addr (sizeof_taskstate - 1) 0)]> gdt.

(** [struct gatedesc] *)
Record gatedesc := mkGate {
  off_15_0 : Z; gd_cs : Z; gd_args : Z; gd_rsv1 : Z; gd_type : Z; gd_s : Z; gd_dpl : Z; gd_p : Z;
  off_31_16 : Z }.
Definition SETGATE (istrap : bool) (sel off d : Z) : gatedesc :=
  mkGate (Z.land (u32 off) 0xffff) sel 0 0 (if istrap then STS_TG32 else STS_IG32) 0 d 1
    (Z.shiftr (u32 off) 16).

(** [tvinit]: the table and [tickslock]; [vectors] is the array of entry points. *)
Definition idt_loop (vectors : list Z) : list gatedesc :=
  (λ i, SETGATE false (Z.shiftl SEG_KCODE 3) (default 0 (vectors !! i)) 0) <$> seq 0 256.
Definition tvinit (vectors : list Z) : list gatedesc * spinlock :=
  (<[Z.to_nat T_SYSCALL :=
       SETGATE true (Z.shiftl SEG_KCODE 3) (default 0 (vectors !! Z.to_nat T_SYSCALL)) DPL_USER]>
     (idt_loop vectors),
   initlock).

(** ** What the processor makes of them *)
Definition seg_base (d : segdesc) : Z :=
  base_15_0 d + 2 ^ 16 * base_23_16 d + 2 ^ 24 * base_31_24 d.
(** The last valid offset; with the granularity bit, limits count pages. *)
Definition seg_limit (d : segdesc) : Z :=
  let l := lim_15_0 d + 2 ^ 16 * lim_19_16 d in
  if sd_g d =? 1 then l * PGSIZE + (PGSIZE - 1) else l.
Definition gate_offset (g : gatedesc) : Z := off_15_0 g + 2 ^ 16 * off_31_16 g.
(** [int n] in ring [cpl] is allowed. *)
Definition may_int (cpl : Z) (g : gatedesc) : bool := (gd_p g =? 1) && (cpl <=? gd_dpl g).

(** Splitting a word into its low [n] bits and the rest. *)
Lemma low_high x n : 0 ≤ n → Z.land x (Z.ones n) + 2 ^ n * Z.shiftr x n = x.
Proof.
  intros Hn. rewrite Z.land_ones, Z.shiftr_div_pow2 by lia.
  pose proof (Z.div_mod x (2 ^ n) ltac:(lia)). lia.
Qed.
Lemma base_split b : 0 ≤ b < 2 ^ 32 →
  Z.land b 0xffff + 2 ^ 16 * Z.land (Z.shiftr b 16) 0xff + 2 ^ 24 * Z.shiftr b 24 = b.
Proof.
  intros Hb. pose proof (low_high b 16 ltac:(lia)) as H1. pose proof (low_high (Z.shiftr b 16) 8 ltac:(lia)) as H2.
  rewrite Z.shiftr_shiftr in H2 by lia. change (Z.ones 16) with 0xffff in H1. change (Z.ones 8) with 0xff in H2.
  change (16 + 8) with 24 in H2. lia.
Qed.
Lemma SEG_base t b l d : seg_base (SEG t b l d) = u32 b.
Proof. apply base_split, u32_range. Qed.
Lemma SEG16_base t b l d : seg_base (SEG16 t b l d) = u32 b.
Proof. apply base_split, u32_range. Qed.
Lemma SEG_limit t b l d : 0 ≤ l < 2 ^ 32 → seg_limit (SEG t b l d) = l / PGSIZE * PGSIZE + (PGSIZE - 1).
Proof.
  intros Hl. unfold seg_limit, SEG. cbn [sd_g lim_15_0 lim_19_16]. change (1 =? 1) with true. cbv iota.
  rewrite u32_small by done. pose proof (low_high (Z.shiftr l 12) 16 ltac:(lia)) as H.
  rewrite Z.shiftr_shiftr in H by lia. change (Z.ones 16) with 0xffff in H. change (12 + 16) with 28 in H.
  rewrite H, Z.shiftr_div_pow2 by lia. done.
Qed.
Lemma SEG16_limit t b l d : 0 ≤ l < 2 ^ 20 → seg_limit (SEG16 t b l d) = l.
Proof.
  intros Hl. unfold seg_limit, SEG16. cbn [sd_g lim_15_0 lim_19_16]. change (0 =? 1) with false. cbv iota.
  rewrite u32_small by (unfold word_ok; lia). apply (low_high l 16). lia.
Qed.
Lemma SETGATE_offset t s o d : gate_offset (SETGATE t s o d) = u32 o.
Proof. apply (low_high (u32 o) 16). lia. Qed.

(** The gate of vector [i]. *)
Lemma tvinit_lookup vectors i : (i < 256)%nat →
  (tvinit vectors).1 !! i =
    Some (if (i =? Z.to_nat T_SYSCALL)%nat
          then SETGATE true (Z.shiftl SEG_KCODE 3) (default 0 (vectors !! i)) DPL_USER
          else SETGATE false (Z.shiftl SEG_KCODE 3) (default 0 (vectors !! i)) 0).
Proof.
  intros Hi. unfold tvinit, idt_loop. cbn [fst]. destruct (Nat.eqb_spec i (Z.to_nat T_SYSCALL)) as [->|Hne].
  - apply list_lookup_insert_eq. rewrite length_fmap, length_seq. exact Hi.
  - rewrite list_lookup_insert_ne by done. rewrite list_lookup_fmap, lookup_seq_lt by done. done.
Qed.

(** The protection tables say what they should.  The fields that
    [SEG], [SEG16] and [SETGATE] spread over a descriptor are read back by the
    processor as the base, the limit (rounded up to a page, or exact below a
    megabyte) and the entry point they were given.  After [seginit] code and
    data segments of kernel and user cover the whole address space, with
    privilege 0 and 3.  After [tvinit] every vector below 256 enters its own
    entry point in the kernel's code segment; user code may raise the vector
    of system calls and no other; and only that gate leaves interrupts on. *)
Theorem protection_tables vectors cpu_addr gdt i e :
  length gdt = NSEGS → vectors !! i = Some e → word_ok e → (i < 256)%nat →
  (∀ t b l d, word_ok b → word_ok l →
     seg_base (SEG t b l d) = b ∧ seg_limit (SEG t b l d) = l / PGSIZE * PGSIZE + (PGSIZE - 1) ∧
     seg_base (SEG16 t b l d) = b ∧ (l < 2 ^ 20 → seg_limit (SEG16 t b l d) = l)) ∧
  (∀ s dpl, (s, dpl) ∈ [(SEG_KCODE, 0); (SEG_KDATA, 0); (SEG_UCODE, DPL_USER); (SEG_UDATA, DPL_USER)] →
     ∃ d, seginit cpu_addr gdt !! Z.to_nat s = Some d ∧
       seg_base d = 0 ∧ seg_limit d = 2 ^ 32 - 1 ∧ sd_p d = 1 ∧ sd_dpl d = dpl) ∧
  ∃ g, (tvinit vectors).1 !! i = Some g ∧ gate_offset g = e ∧ gd_cs g = Z.shiftl SEG_KCODE 3 ∧
    (may_int DPL_USER g = true ↔ Z.of_nat i = T_SYSCALL) ∧
    (gd_type g = STS_TG32 ↔ Z.of_nat i = T_SYSCALL).
Proof.
  intros Hg Hv He Hi. split_and!.
  - intros t b l d Hb Hl. rewrite SEG_base, SEG16_base, (u32_small b), SEG_limit by done.
    split_and!; [done..|]. intros Hl'. apply SEG16_limit. unfold word_ok in Hl. lia.
  - intros s dpl Hs. do 7 (destruct gdt as [|? gdt]; [done|]). destruct gdt; [|done].
    rewrite !elem_of_cons, elem_of_nil in Hs.
    destruct Hs as [[= -> ->]|[[= -> ->]|[[= -> ->]|[[= -> ->]|[]]]]]; eexists; (split; [reflexivity|]); by vm_compute.
  - eexists. split; [by apply tvinit_lookup|]. rewrite Hv. cbn [default from_option].
    destruct (Nat.eqb_spec i (Z.to_nat T_SYSCALL)) as [->|Hne]; rewrite SETGATE_offset, u32_small by done.
    + by split_and!.
    + assert (Z.of_nat i ≠ T_SYSCALL) as Hni by (intros E; apply Hne; rewrite <- E; by rewrite Nat2Z.id).
      split_and!; [done|done|..]; (split; [intros E; by vm_compute in E|done]).
Qed.
(** Entry points a hundred bytes apart, and the breakpoint vector. *)
Definition wvectors : list Z := (λ i, 0x80105000 + 100 * Z.of_nat i) <$> seq 0 256.
Definition wgdt : list segdesc := replicate NSEGS (mkSeg 0 0 0 0 0 0 0 0 0 0 0 0 0).
Lemma protection_tables_witness :
  seg_limit (SEG16 STS_T32A 0x80112780 103 0) = 103 ∧
  ∃ g, (tvinit wvectors).1 !! 3%nat = Some g ∧ gate_offset g = 0x8010512c ∧ may_int DPL_USER g = false.
Proof.
  destruct (protection_tables wvectors 0x80112700 wgdt 3 0x8010512c) as (H1 & _ & g & Hg & Ho & _ & Hm & _);
    [reflexivity|reflexivity|by vm_compute|lia|]. split.
  - apply (H1 STS_T32A 0x80112780 103 0); by vm_compute.
  - exists g. split_and!; [exact Hg|exact Ho|]. destruct (may_int DPL_USER g); [|done]. pose proof (proj1 Hm eq_refl) as E. by vm_compute in E.
Defined.
