(* ===== verification/Syscall.v ===== *)
(** * System call arguments and dispatch (syscall.c, syscall.h)

    A system call reads its arguments from the stack of the process.  The
    process is given by its size, its saved stack pointer and its memory as
    its page table shows it.  Pointers are 32-bit values; the results of the
    functions that return a status and store a value are options, [None] for
    the status -1. *)
From S2P Require Import Prelude Machine.

Open Scope Z_scope.

Section Args.
(** [proc->sz], [proc->tf->esp] and user memory *)
Context (sz esp : Z) (um : mem).

Definition fetchint (addr : Z) : option Z :=
  if (sz <=? addr) || (sz <? u32 (addr + 4)) then None
  else Some (i32 (load32 um addr)).

(** The loop of [fetchstr] from [s] to [ep], for the first zero byte. *)
Fixpoint strscan (fuel : nat) (s ep : Z) : option Z :=
  match fuel with
  | O => None
  | S fuel =>
      if s <? ep then
        if um s =? 0 then Some s else strscan fuel (s + 1) ep
      else None
  end.
(** The pointer and the length of the string. *)
Definition fetchstr (addr : Z) : option (Z * Z) :=
  if sz <=? addr then None
  else
    match strscan (S (Z.to_nat (sz - addr))) addr sz with
    | Some s => Some (addr, s - addr)
    | None => None
    end.

Definition argint (n : Z) : option Z := fetchint (u32 (esp + 4 + 4 * n)).
Definition argptr (n size : Z) : option Z :=
  match argint n with
  | None => None
  | Some i => if (sz <=? u32 i) || (sz <? u32 (u32 i + size)) then None else Some (u32 i)
  end.
Definition argstr (n : Z) : option (Z * Z) :=
  match argint n with
  | None => None
  | Some addr => fetchstr (u32 addr)
  end.
End Args.

(** ** The table of system calls *)
Inductive sysno :=
  SYS_fork | SYS_exit | SYS_wait | SYS_pipe | SYS_read | SYS_kill | SYS_exec | SYS_fstat |
  SYS_chdir | SYS_dup | SYS_getpid | SYS_sbrk | SYS_sleep | SYS_uptime | SYS_open | SYS_write |
  SYS_mknod | SYS_unlink | SYS_link | SYS_mkdir | SYS_close | SYS_date | SYS_timem | SYS_getuid |
  SYS_getgid | SYS_getppid | SYS_setuid | SYS_setgid | SYS_getprocs | SYS_setpriority.
#[export] Instance sysno_eq_dec : EqDecision sysno.
Proof. solve_decision. Defined.
(** The numbers of syscall.h. *)
Definition sysnum (h : sysno) : Z :=
  match h with
  | SYS_fork => 1 | SYS_exit => 2 | SYS_wait => 3 | SYS_pipe => 4 | SYS_read => 5
  | SYS_kill => 6 | SYS_exec => 7 | SYS_fstat => 8 | SYS_chdir => 9 | SYS_dup => 10
  | SYS_getpid => 11 | SYS_sbrk => 12 | SYS_sleep => 13 | SYS_uptime => 14 | SYS_open => 15
  | SYS_write => 16 | SYS_mknod => 17 | SYS_unlink => 18 | SYS_link => 19 | SYS_mkdir => 20
  | SYS_close => 21 | SYS_date => 22 | SYS_timem => 23 | SYS_getuid => 24 | SYS_getgid => 25
  | SYS_getppid => 26 | SYS_setuid => 27 | SYS_setgid => 28 | SYS_getprocs => 29
  | SYS_setpriority => 30
  end.
(** [syscalls[]]: an initializer with designators leaves the rest 0. *)
Definition syscalls_init : list sysno :=
  [SYS_fork; SYS_exit; SYS_wait; SYS_pipe; SYS_read; SYS_kill; SYS_exec; SYS_fstat; SYS_chdir;
   SYS_dup; SYS_getpid; SYS_sbrk; SYS_sleep; SYS_uptime; SYS_date; SYS_open; SYS_timem; SYS_write;
   SYS_mknod; SYS_unlink; SYS_link; SYS_mkdir; SYS_close; SYS_getuid; SYS_getgid; SYS_getppid;
   SYS_setuid; SYS_setgid; SYS_getprocs; SYS_setpriority].
Definition NELEM_syscalls : Z := 31.
Definition syscalls : list (option sysno) :=
  fold_left (λ t h, <[Z.to_nat (sysnum h) := Some h]> t) syscalls_init
    (replicate (Z.to_nat NELEM_syscalls) None).

Section Dispatch.
Context {S : Type} (handler : sysno → M S Z).
(** [syscall]: the value it leaves in [proc->tf->eax]. *)
Definition syscall (eax : Z) : M S Z :=
  let num := i32 eax in
  if (0 <? num) && (num <? NELEM_syscalls) then
    match syscalls !! Z.to_nat num with
    | Some (Some h) => let! r := handler h in ret (u32 r)
    | _ => ret (u32 (-1))
    end
  else ret (u32 (-1)).
End Dispatch.

(** ** Theorems *)
Lemma strscan_spec um fuel : ∀ s ep, ep - s < Z.of_nat fuel →
  match strscan um fuel s ep with
  | Some e => s ≤ e < ep ∧ um e = 0 ∧ ∀ a, s ≤ a < e → um a ≠ 0
  | None => ∀ a, s ≤ a < ep → um a ≠ 0
  end.
Proof.
  induction fuel as [|fuel IH]; intros s ep Hf; simpl; [intros a; lia|].
  destruct (Z.ltb_spec s ep) as [Hlt|]; [|intros a; lia].
  destruct (Z.eqb_spec (um s) 0) as [E|E]; [split_and!; [lia|lia|done|intros a; lia]|].
  specialize (IH (s + 1) ep ltac:(lia)). destruct (strscan um fuel (s + 1) ep) as [e|].
  - destruct IH as (H1 & H2 & H3). split_and!; [lia|lia|done|].
    intros a Ha. destruct (decide (a = s)) as [->|]; [done|apply H3; lia].
  - intros a Ha. destruct (decide (a = s)) as [->|]; [done|apply IH; lia].
Qed.

(** The word of argument [n]. *)
Definition arg_at (esp n : Z) : Z := u32 (esp + 4 + 4 * n).
Lemma argint_iff sz esp um n v : sz ≤ KERNBASE →
  argint sz esp um n = Some v ↔ arg_at esp n + 4 ≤ sz ∧ v = i32 (load32 um (arg_at esp n)).
Proof.
  intros Hsz. unfold argint, fetchint. fold (arg_at esp n). set (a := arg_at esp n).
  assert (0 ≤ a < 2 ^ 32) as Ha by (unfold a, arg_at, u32; apply Z.mod_pos_bound; lia).
  unfold KERNBASE in Hsz. destruct (Z.leb_spec sz a) as [H|H]; simpl; [split; [done|lia]|].
  rewrite (u32_small (a + 4)) by (unfold word_ok; lia).
  destruct (Z.ltb_spec sz (a + 4)); split; intros; simplify_eq; try lia; try done.
  destruct H1 as [_ ->]. done.
Qed.

(** Claim C24: the kernel only follows checked user pointers.  For every stack
    pointer and user memory of a process of at most [KERNBASE] bytes: an
    integer argument is fetched exactly when its four bytes are inside the
    process, and is the word there; a pointer argument for a block of
    [size >= 0] bytes is accepted exactly when the whole block, and its first
    byte, are inside; a string argument is accepted exactly when it starts
    inside and ends inside, and the length is that of the string. *)
Theorem arguments_checked sz esp um n size :
  0 ≤ sz ≤ KERNBASE → 0 ≤ size < 2 ^ 31 →
  (∀ v, argint sz esp um n = Some v ↔
     arg_at esp n + 4 ≤ sz ∧ v = i32 (load32 um (arg_at esp n))) ∧
  (∀ p, argptr sz esp um n size = Some p ↔
     arg_at esp n + 4 ≤ sz ∧ p = u32 (load32 um (arg_at esp n)) ∧ p < sz ∧ p + size ≤ sz) ∧
  (∀ p len, argstr sz esp um n = Some (p, len) ↔
     arg_at esp n + 4 ≤ sz ∧ p = u32 (load32 um (arg_at esp n)) ∧ 0 ≤ len ∧ p + len < sz ∧
     um (p + len) = 0 ∧ ∀ a, p ≤ a < p + len → um a ≠ 0).
Proof.
  intros Hsz Hsize. assert (∀ v, u32 (i32 v) = u32 v) as Hui by apply u32_i32.
  assert (∀ v, 0 ≤ u32 v < 2 ^ 32) as Hu by (intros v; apply Z.mod_pos_bound; lia).
  split; [intros v; apply argint_iff; lia|]. split.
  - intros p. unfold argptr. destruct (argint sz esp um n) as [v|] eqn:E.
    + apply argint_iff in E as [E1 ->]; [|lia]. rewrite Hui. set (q := u32 (load32 um (arg_at esp n))).
      assert (0 ≤ q < 2 ^ 32) as Hq by apply Hu. unfold KERNBASE in Hsz.
      destruct (Z.leb_spec sz q); simpl; [split; [done|lia]|]. rewrite (u32_small (q + size)) by (unfold word_ok; lia).
      destruct (Z.ltb_spec sz (q + size)); (split; [intros; simplify_eq; split_and!; (done || lia)|]);
        intros (? & -> & ?); (done || lia).
    + split; [done|]. intros (H & _). exfalso.
      assert (argint sz esp um n = Some (i32 (load32 um (arg_at esp n)))) as E' by (apply argint_iff; [lia|done]).
      congruence.
  - intros p len. unfold argstr, fetchstr. destruct (argint sz esp um n) as [v|] eqn:E.
    + apply argint_iff in E as [E1 ->]; [|lia]. rewrite Hui. set (q := u32 (load32 um (arg_at esp n))).
      destruct (Z.leb_spec sz q); [split; [done|lia]|].
      pose proof (strscan_spec um (S (Z.to_nat (sz - q))) q sz ltac:(lia)) as Hs.
      destruct (strscan um _ q sz) as [e|].
      * destruct Hs as (H1 & H2 & H3). split.
        -- intros [= <- <-]. replace (q + (e - q)) with e by lia. split_and!; (done || lia).
        -- intros (_ & -> & Hl & Hin & H0 & Hn). assert (q + len = e) as <-; [|do 2 f_equal; lia].
           destruct (Z.lt_trichotomy (q + len) e) as [Hlt|[|Hgt]]; [|done|].
           ++ destruct (H3 (q + len)); [lia|done].
           ++ destruct (Hn e); [lia|done].
      * split; [done|]. intros (_ & -> & Hl & Hin & H0 & Hn). destruct (Hs (q + len)); [lia|done].
    + split; [done|]. intros (H & _). exfalso.
      assert (argint sz esp um n = Some (i32 (load32 um (arg_at esp n)))) as E' by (apply argint_iff; [lia|done]).
      congruence.
Qed.
(** A process of 64 bytes whose argument word, at 12, is a pointer to the
    string at 20. *)
Definition wum : mem := λ a, if a =? 12 then 20 else if a =? 20 then 104 else if a =? 21 then 105 else 0.
Lemma arguments_checked_witness :
  (∀ v, argint 64 8 wum 0 = Some v ↔ arg_at 8 0 + 4 ≤ 64 ∧ v = i32 (load32 wum (arg_at 8 0))) ∧
  (∀ p, argptr 64 8 wum 0 16 = Some p ↔
     arg_at 8 0 + 4 ≤ 64 ∧ p = u32 (load32 wum (arg_at 8 0)) ∧ p < 64 ∧ p + 16 ≤ 64) ∧
  (∀ p len, argstr 64 8 wum 0 = Some (p, len) ↔
     arg_at 8 0 + 4 ≤ 64 ∧ p = u32 (load32 wum (arg_at 8 0)) ∧ 0 ≤ len ∧ p + len < 64 ∧
     wum (p + len) = 0 ∧ ∀ a, p ≤ a < p + len → wum a ≠ 0).
Proof.
  apply (arguments_checked 64 8 wum 0 16); [unfold KERNBASE|]; lia.
Defined.
(** The three fetches on it. *)
Example arguments_run :
  argint 64 8 wum 0 = Some 20 ∧ argptr 64 8 wum 0 44 = Some 20 ∧ argptr 64 8 wum 0 45 = None ∧
  argstr 64 8 wum 0 = Some (20, 2) ∧ argint 64 60 wum 0 = None.
Proof. by vm_compute. Qed.
(** A negative size passes the check of [argptr]. *)
Example argptr_negative_size : argptr 64 8 wum 0 (-1) = Some 20.
Proof. by vm_compute. Qed.

Lemma syscalls_lookup (k : nat) h : syscalls !! k = Some (Some h) ↔ Z.of_nat k = sysnum h.
Proof.
  split.
  - intros E. assert (k < 31)%nat as Hk by (apply lookup_lt_Some in E; exact E).
    do 31 (destruct k as [|k]; [vm_compute in E; by simplify_eq|]). lia.
  - intros E. assert (k = Z.to_nat (sysnum h)) as -> by lia. by destruct h.
Qed.

(** System calls are dispatched by their number.  For every value of
    [eax]: when it is the number of a system call, that call's handler runs
    and its result is what the user gets in [eax]; for every other value, in
    range or not, nothing runs and the user gets -1. *)
Theorem syscall_dispatch {S} (handler : sysno → M S Z) eax (s : S) :
  (∃ h, i32 eax = sysnum h ∧ syscall handler eax s = (let* (r, s') := handler h s in Ret (u32 r, s'))) ∨
  ((∀ h, i32 eax ≠ sysnum h) ∧ syscall handler eax s = Ret (u32 (-1), s)).
Proof.
  unfold syscall. set (num := i32 eax). destruct (Z.ltb_spec 0 num) as [H1|H1]; simpl.
  2:{ right. split; [|done]. intros h. pose proof H1. destruct h; simpl; lia. }
  destruct (Z.ltb_spec num NELEM_syscalls) as [H2|H2]; unfold NELEM_syscalls in H2.
  2:{ right. split; [|done]. intros h. destruct h; simpl; lia. }
  destruct (syscalls !! Z.to_nat num) as [[h|]|] eqn:E.
  - left. exists h. apply syscalls_lookup in E. split; [lia|done].
  - right. split; [|done]. intros h Hh.
    assert (syscalls !! Z.to_nat num = Some (Some h)) as E' by (apply syscalls_lookup; lia). congruence.
  - right. split; [|done]. intros h Hh.
    assert (syscalls !! Z.to_nat num = Some (Some h)) as E' by (apply syscalls_lookup; lia). congruence.
Qed.
