(* ===== verification/Entry.v ===== *)
(** * Entering and leaving the kernel (vectors.S, trapasm.S, swtch.S, usys.S, initcode.S)

    The assembly of the kernel and of the system call stubs on a processor of
    its own: general and segment registers, flags, instruction pointer and the
    bytes of the address space.  Instructions are fetched from [code]; how
    long each is encoded is left open.  Interrupts go through the gates
    [tvinit] has filled in.  The C functions called are not executed here: a
    theorem runs up to the call and on from the return. *)
From S2P Require Import Prelude Machine ProcOps Mmu Syscall.
From stdpp Require Import relations.

Open Scope Z_scope.

(** ** The processor *)
Inductive reg := EAX | ECX | EDX | EBX | ESP | EBP | ESI | EDI.
Inductive seg := DS | ES | FS | GS | CS | SS.
Definition reg_no (r : reg) : nat :=
  match r with EAX => 0 | ECX => 1 | EDX => 2 | EBX => 3 | ESP => 4 | EBP => 5 | ESI => 6 | EDI => 7 end.
Definition seg_no (s : seg) : nat := match s with ES => 0 | CS => 1 | SS => 2 | DS => 3 | FS => 4 | GS => 5 end.
Definition is_reg (a b : reg) : bool := (reg_no a =? reg_no b)%nat.
Definition is_seg (a b : seg) : bool := (seg_no a =? seg_no b)%nat.

Record core := mkCore { rg : reg → Z; sg : seg → Z; eip : Z; eflags : Z; me : mem }.
Definition set_rg (r : reg) (v : Z) (c : core) : core :=
  let '(mkCore g s i f m) := c in mkCore (λ x, if is_reg x r then v else g x) s i f m.
Definition set_sg (s : seg) (v : Z) (c : core) : core :=
  let '(mkCore g s' i f m) := c in mkCore g (λ x, if is_seg x s then v else s' x) i f m.
Definition set_eip (v : Z) (c : core) : core := let '(mkCore g s _ f m) := c in mkCore g s v f m.
Definition set_eflags (v : Z) (c : core) : core := let '(mkCore g s i _ m) := c in mkCore g s i v m.
Definition set_me (v : mem) (c : core) : core := let '(mkCore g s i f _) := c in mkCore g s i f v.
Definition cpl (c : core) : Z := Z.land (sg c CS) 3.

Inductive operand := Imm (v : Z) | Reg (r : reg) | Seg (s : seg).
Inductive instr :=
  | Pushl (o : operand) | Pushal | Popal | PoplReg (r : reg) | PoplSeg (s : seg)
  | MovwAx (v : Z) | MovwSeg (s : seg)        (* movw $v, %ax and movw %ax, %s *)
  | Movl (o : operand) (r : reg)
  | MovlLoad (d : Z) (b r : reg)              (* movl d(b), r *)
  | MovlStore (r b : reg)                     (* movl r, (b) *)
  | AddlEsp (v : Z)
  | Jmp (a : Z) | Call (a : Z) | Ret_ | Int (n : Z) | Iret.

Definition value (o : operand) (c : core) : Z :=
  match o with Imm v => u32 v | Reg r => rg c r | Seg s => sg c s end.
Fixpoint store_down (m : mem) (sp : Z) (vs : list Z) : mem :=
  match vs with
  | [] => m
  | v :: vs => store_down (store32 m (u32 (sp - 4)) v) (u32 (sp - 4)) vs
  end.
Fixpoint sp_down (sp : Z) (n : nat) : Z :=
  match n with O => sp | S n => sp_down (u32 (sp - 4)) n end.
Definition pushes (vs : list Z) (c : core) : core :=
  set_rg ESP (sp_down (rg c ESP) (length vs)) (set_me (store_down (me c) (rg c ESP) vs) c).
Definition push (v : Z) (c : core) : core := pushes [v] c.
Definition top (c : core) : Z := load32 (me c) (rg c ESP).
Definition drop_words (n : Z) (c : core) : core := set_rg ESP (u32 (rg c ESP + 4 * n)) c.
Definition pop (r : reg) (c : core) : core :=
  let v := top c in set_rg r v (drop_words 1 c).

(** An instruction that only goes on to the next one; the others are in
    [step].  [pushal] pushes the value [%esp] had before and [popal] leaves
    that word out. *)
Definition effect (i : instr) (c : core) : option core :=
  match i with
  | Pushl o => Some (push (value o c) c)
  | Pushal =>
      Some (pushes [rg c EAX; rg c ECX; rg c EDX; rg c EBX; rg c ESP; rg c EBP; rg c ESI; rg c EDI] c)
  | Popal =>
      let w k := load32 (me c) (u32 (rg c ESP + 4 * k)) in
      let g r := match r with
        | EDI => w 0 | ESI => w 1 | EBP => w 2 | EBX => w 4 | EDX => w 5 | ECX => w 6 | EAX => w 7
        | ESP => u32 (rg c ESP + 32)
        end in
      Some (mkCore g (sg c) (eip c) (eflags c) (me c))
  | PoplReg r => Some (pop r c)
  | PoplSeg s => let v := u16 (top c) in Some (set_sg s v (drop_words 1 c))
  | MovwAx v => Some (set_rg EAX (2 ^ 16 * (rg c EAX / 2 ^ 16) + u16 v) c)
  | MovwSeg s => Some (set_sg s (u16 (rg c EAX)) c)
  | Movl o r => Some (set_rg r (value o c) c)
  | MovlLoad d b r => Some (set_rg r (load32 (me c) (u32 (rg c b + d))) c)
  | MovlStore r b => Some (set_me (store32 (me c) (rg c b) (rg c r)) c)
  | AddlEsp v => Some (set_rg ESP (u32 (rg c ESP + v)) c)
  | Jmp _ | Call _ | Ret_ | Int _ | Iret => None
  end.

Fixpoint run (l : list instr) (c : core) : option core :=
  match l with
  | [] => Some c
  | i :: l => c ← effect i c; run l c
  end.
(** Evaluates everything but words and addresses. *)
Ltac core_eval :=
  cbv [run effect app mbind option_bind value push pushes top drop_words pop set_rg set_me set_eip set_sg set_eflags
       sp_down store_down length rg me eip sg eflags is_reg is_seg reg_no seg_no Nat.eqb cpl
       Nat.add default from_option id].

Lemma low_word q v : u16 (2 ^ 16 * q + u16 v) = u16 v.
Proof. unfold u16. Z.div_mod_to_equations; lia. Qed.

Section Processor.
(** The instruction at each address and its length; the address of [vectors];
    the segment descriptors; [ts.esp0] and [ts.ss0] of the running process. *)
Context (code : Z → option instr) (ilen : instr → Z).
Context (vectors : list Z) (gdt : list segdesc) (esp0 ss0 : Z).

(** The flags every gate clears (TF, NT, RF, VM) and the ones of an interrupt gate. *)
Definition gate_flags (g : gatedesc) (f : Z) : Z :=
  let f := Z.land f (Z.lnot 0x34100) in
  if gd_type g =? STS_IG32 then Z.land f (Z.lnot FL_IF) else f.
(** What the processor does for vector [n]: from user mode it changes to the
    stack of the task state segment; some exceptions push an error code. *)
Definition deliver (n : nat) (err : option Z) (c : core) : option core :=
  match (tvinit vectors).1 !! n with
  | Some g =>
      let c' := if cpl c =? 0 then c
                else pushes [sg c SS; rg c ESP] (set_sg SS ss0 (set_rg ESP esp0 c)) in
      let c' := pushes ([eflags c; sg c CS; eip c] ++ match err with Some e => [e] | None => [] end) c' in
      Some (set_eip (gate_offset g) (set_sg CS (gd_cs g) (set_eflags (gate_flags g (eflags c)) c')))
  | None => None
  end.
(** A data segment a return to user mode leaves loaded. *)
Definition user_may (sel : Z) : bool :=
  (sel / 8 =? 0) || match gdt !! Z.to_nat (sel / 8) with Some d => DPL_USER <=? sd_dpl d | None => false end.
Definition clear_seg (c : core) (s : seg) : core := if user_may (sg c s) then c else set_sg s 0 c.
Definition iret (c : core) : core :=
  let w k := load32 (me c) (u32 (rg c ESP + 4 * k)) in
  let cs := u16 (w 1) in
  let c' := set_eip (w 0) (set_sg CS cs (set_eflags (w 2) (drop_words 3 c))) in
  if Z.land cs 3 =? cpl c then c'
  else foldl clear_seg (set_sg SS (u16 (w 4)) (set_rg ESP (w 3) c')) [DS; ES; FS; GS].

Definition step (c : core) : option core :=
  match code (eip c) with
  | None => None
  | Some i =>
      let next := u32 (eip c + ilen i) in
      match i with
      | Jmp a => Some (set_eip a c)
      | Call a => Some (set_eip a (push next c))
      | Ret_ => Some (set_eip (top c) (drop_words 1 c))
      | Int n =>
          match (tvinit vectors).1 !! Z.to_nat n with
          | Some g => if may_int (cpl c) g then deliver (Z.to_nat n) None (set_eip next c) else None
          | None => None
          end
      | Iret => Some (iret c)
      | _ => set_eip next <$> effect i c
      end
  end.
Definition steps : core → core → Prop := rtc (λ c c', step c = Some c').

(** ** vectors.S: one entry point per vector *)
Definition pushes_zero (i : Z) : bool := negb ((i =? 8) || ((10 <=? i) && (i <=? 14)) || (i =? 17)).
Definition vector (i alltraps : Z) : list instr :=
  (if pushes_zero i then [Pushl (Imm 0)] else []) ++ [Pushl (Imm i); Jmp alltraps].

(** ** trapasm.S *)
Definition build_frame : list instr :=
  [Pushl (Seg DS); Pushl (Seg ES); Pushl (Seg FS); Pushl (Seg GS); Pushal].
Definition kernel_segs : list instr :=
  [MovwAx (Z.shiftl SEG_KDATA 3); MovwSeg DS; MovwSeg ES; MovwAx (Z.shiftl SEG_KCPU 3); MovwSeg FS; MovwSeg GS].
Definition trapret : list instr :=
  [Popal; PoplSeg GS; PoplSeg FS; PoplSeg ES; PoplSeg DS; AddlEsp 8; Iret].
Definition alltraps (trap : Z) : list instr :=
  build_frame ++ kernel_segs ++ [Pushl (Reg ESP); Call trap; AddlEsp 4] ++ trapret.

(** ** swtch.S *)
Definition swtch : list instr :=
  [MovlLoad 4 ESP EAX; MovlLoad 8 ESP EDX;
   Pushl (Reg EBP); Pushl (Reg EBX); Pushl (Reg ESI); Pushl (Reg EDI);
   MovlStore ESP EAX; Movl (Reg EDX) ESP;
   PoplReg EDI; PoplReg ESI; PoplReg EBX; PoplReg EBP; Ret_].

(** ** usys.S and initcode.S *)
Definition SYSCALL (name : sysno) : list instr := [Movl (Imm (sysnum name)) EAX; Int T_SYSCALL; Ret_].
Definition initcode (argv init exit : Z) : list instr :=
  [Pushl (Imm argv); Pushl (Imm init); Pushl (Imm 0); Movl (Imm (sysnum SYS_exec)) EAX; Int T_SYSCALL] ++
  [Movl (Imm (sysnum SYS_exit)) EAX; Int T_SYSCALL; Jmp exit].

(** ** [struct trapframe] *)
Record trapframe := mkTf {
  f_edi : Z; f_esi : Z; f_ebp : Z; f_oesp : Z; f_ebx : Z; f_edx : Z; f_ecx : Z; f_eax : Z;
  f_gs : Z; f_fs : Z; f_es : Z; f_ds : Z; f_trapno : Z;
  f_err : Z; f_eip : Z; f_cs : Z; f_eflags : Z; f_esp : Z; f_ss : Z }.
Definition get_trapframe (m : mem) (tf : Z) : trapframe :=
  let w k := load32 m (tf + 4 * k) in
  mkTf (w 0) (w 1) (w 2) (w 3) (w 4) (w 5) (w 6) (w 7)
    (u16 (w 8)) (u16 (w 9)) (u16 (w 10)) (u16 (w 11)) (w 12)
    (w 13) (w 14) (u16 (w 15)) (w 16) (w 17) (u16 (w 18)).

(** ** Running a piece of code *)
Lemma steps_trans c1 c2 c3 : steps c1 c2 → steps c2 c3 → steps c1 c3.
Proof. apply transitivity. Qed.
Fixpoint placed (a : Z) (l : list instr) : Prop :=
  match l with
  | [] => True
  | i :: l => code a = Some i ∧ placed (u32 (a + ilen i)) l
  end.
Definition end_of (a : Z) (l : list instr) : Z := foldl (λ a i, u32 (a + ilen i)) a l.

Lemma placed_app l l' : ∀ a, placed a (l ++ l') ↔ placed a l ∧ placed (end_of a l) l'.
Proof. induction l as [|i l IH]; intros a; simpl; [tauto|]. rewrite IH. simpl. tauto. Qed.
Lemma effect_eip i v c c' : effect i c = Some c' → effect i (set_eip v c) = Some (set_eip v c').
Proof.
  destruct c, i as [[]| | | | | | |[]| | | | | | | |]; cbn [effect]; intros E; (discriminate E || (injection E as <-; reflexivity)).
Qed.
Lemma run_eip l v : ∀ c c', run l c = Some c' → run l (set_eip v c) = Some (set_eip v c').
Proof.
  induction l as [|i l IH]; intros c c'; simpl; [by intros [= ->]|].
  intros (c1 & E1 & E2)%bind_Some. rewrite (effect_eip i v c c1 E1). exact (IH c1 c' E2).
Qed.
Lemma run_app l l' c : run (l ++ l') c = run l c ≫= run l'.
Proof. revert c. induction l as [|i l IH]; intros c; simpl; [done|]. by destruct (effect i c); simpl. Qed.
Lemma step_effect i c c' : code (eip c) = Some i → effect i c = Some c' →
  step c = Some (set_eip (u32 (eip c + ilen i)) c').
Proof. intros Hc He. unfold step. rewrite Hc, He. by destruct i. Qed.
Lemma run_steps l : ∀ c c', placed (eip c) l → run l c = Some c' → steps c (set_eip (end_of (eip c) l) c').
Proof.
  induction l as [|i l IH]; intros c c'; simpl.
  - intros _ [= ->]. by destruct c'.
  - intros [Hi Hl] (c1 & E1 & E2)%bind_Some.
    eapply rtc_l; [by apply step_effect|].
    apply (run_eip _ (u32 (eip c + ilen i))) in E2. destruct c1, c'. by apply IH in E2.
Qed.

(** Words pushed on the stack can be read there, and nothing else changes. *)
Lemma store_down_spec vs : ∀ m sp, 4 * Z.of_nat (length vs) ≤ sp < 2 ^ 32 →
  (∀ k v, vs !! k = Some v → load32 (store_down m sp vs) (sp - 4 * Z.of_nat k - 4) = u32 v) ∧
  (∀ a, a < sp - 4 * Z.of_nat (length vs) ∨ sp ≤ a → store_down m sp vs a = m a).
Proof.
  induction vs as [|v vs IH]; intros m sp Hc; cbn [length store_down] in *; [done|].
  rewrite (u32_small (sp - 4)) by lia.
  destruct (IH (store32 m (sp - 4) v) (sp - 4)) as (H2 & H3); [lia|]. split.
  - intros [|k] w Hk; cbn in Hk; simplify_eq.
    + rewrite (load32_ext _ (store32 m (sp - 4) w)); [|intros b Hb; apply H3; lia].
      replace (sp - 4 * Z.of_nat 0 - 4) with (sp - 4) by lia. apply load32_store32_eq.
    + rewrite <- (H2 k w Hk). f_equal. lia.
  - intros a Ha. rewrite H3 by lia. apply store32_other. lia.
Qed.
Lemma sp_down_spec n : ∀ sp, 4 * Z.of_nat n ≤ sp < 2 ^ 32 → sp_down sp n = sp - 4 * Z.of_nat n.
Proof.
  induction n as [|n IH]; intros sp Hs; cbn [sp_down]; [lia|]. rewrite u32_small by lia. rewrite IH by lia. lia.
Qed.
Lemma store_down_app vs vs' : ∀ m sp, 4 * Z.of_nat (length vs) ≤ sp < 2 ^ 32 →
  store_down m sp (vs ++ vs') = store_down (store_down m sp vs) (sp - 4 * Z.of_nat (length vs)) vs'.
Proof.
  induction vs as [|v vs IH]; intros m sp Hs; cbn [length store_down app] in *; [f_equal; lia|].
  rewrite (u32_small (sp - 4)), IH by lia. f_equal. lia.
Qed.

(** ** Into [trap] *)
Context (alltraps_addr trap_addr : Z).
Hypothesis vectors_placed : ∀ i, (i < 256)%nat →
  ∃ a, vectors !! i = Some a ∧ word_ok a ∧ placed a (vector (Z.of_nat i) alltraps_addr).
Hypothesis alltraps_placed : placed alltraps_addr (alltraps trap_addr).

(** The exceptions for which the processor pushes an error code. *)
Definition error_code (i : nat) : bool := bool_decide (i ∈ [8; 10; 11; 12; 13; 14; 17]%nat).
(** Where [trap] returns to. *)
Definition after_trap : Z := end_of alltraps_addr (build_frame ++ kernel_segs ++ [Pushl (Reg ESP); Call trap_addr]).

Lemma pushes_zero_error i : pushes_zero (Z.of_nat i) = negb (error_code i).
Proof.
  unfold pushes_zero, error_code. f_equal. apply eq_bool_prop_intro. rewrite bool_decide_spec, !elem_of_cons, elem_of_nil.
  rewrite !Is_true_true, !orb_true_iff, andb_true_iff, !Z.eqb_eq, !Z.leb_le. lia.
Qed.
(** What lies on the stack when [trap] is called, from the top. *)
Definition saved (i : nat) (err : Z) (c : core) (pc sp : Z) : list Z :=
  [eflags c; sg c CS; pc; err; u32 (Z.of_nat i); sg c DS; sg c ES; sg c FS; sg c GS;
   rg c EAX; rg c ECX; rg c EDX; rg c EBX; sp; rg c EBP; rg c ESI; rg c EDI].
Definition outer (c : core) : list Z := if cpl c =? 0 then [] else [sg c SS; rg c ESP].
Definition base (c : core) : Z := if cpl c =? 0 then rg c ESP else esp0.

Lemma steps_jmp l t c c' : placed (eip c) (l ++ [Jmp t]) → run l c = Some c' → steps c (set_eip t c').
Proof using.
  intros [Hl [Hj _]]%placed_app Hr. eapply steps_trans; [by apply run_steps|].
  apply rtc_once. unfold step. destruct c'. cbn [set_eip eip]. by rewrite Hj.
Qed.
Lemma steps_call l t rest c c' : placed (eip c) (l ++ Call t :: rest) → run l c = Some c' →
  steps c (set_eip t (push (end_of (eip c) (l ++ [Call t])) c')).
Proof using.
  intros [Hl [Hj _]]%placed_app Hr. eapply steps_trans; [by apply run_steps|].
  apply rtc_once. unfold step. destruct c'. cbn [set_eip eip]. rewrite Hj. unfold end_of. by rewrite foldl_app.
Qed.
(** From the gate to the call of [trap]. *)
Lemma through_alltraps i c l c1 c2 : placed (eip c) (vector (Z.of_nat i) alltraps_addr) →
  l = (if error_code i then [] else [Pushl (Imm 0)]) ++ [Pushl (Imm (Z.of_nat i))] →
  run l c = Some c1 → run (build_frame ++ kernel_segs ++ [Pushl (Reg ESP)]) (set_eip alltraps_addr c1) = Some c2 →
  steps c (set_eip trap_addr (push after_trap c2)).
Proof using Type*.
  intros Hp -> H1 H2. eapply steps_trans.
  - apply (steps_jmp _ alltraps_addr) in H1; [exact H1|]. unfold vector in Hp. rewrite pushes_zero_error in Hp.
    rewrite <- app_assoc. by destruct (error_code i).
  - assert (eip (set_eip alltraps_addr c1) = alltraps_addr) as He by by destruct c1.
    apply (steps_call _ trap_addr (AddlEsp 4 :: trapret)) in H2; rewrite He in *; [|exact alltraps_placed]. exact H2.
Qed.
Lemma enters_trap_raw i err c : (i < 256)%nat → (is_Some err ↔ error_code i = true) →
  ∃ c0 c1, deliver i err c = Some c0 ∧ steps c0 c1 ∧ eip c1 = trap_addr ∧
    let sp n := sp_down (base c) (length (outer c) + n) in
    let frame := outer c ++ saved i (default 0 err) c (eip c) (sp 9%nat) in
    me c1 = store_down (me c) (base c) (frame ++ [sp 17%nat; after_trap]) ∧
    rg c1 ESP = sp 19%nat ∧ sg c1 CS = Z.shiftl SEG_KCODE 3 ∧
    sg c1 DS = Z.shiftl SEG_KDATA 3 ∧ sg c1 ES = Z.shiftl SEG_KDATA 3 ∧
    sg c1 FS = Z.shiftl SEG_KCPU 3 ∧ sg c1 GS = Z.shiftl SEG_KCPU 3 ∧
    sg c1 SS = (if cpl c =? 0 then sg c SS else ss0).
Proof using Type*.
  intros Hi Herr. destruct (vectors_placed i Hi) as (a & Ha & Hw & Hp). unfold deliver. rewrite tvinit_lookup by done.
  set (g := if (i =? _)%nat then _ else _).
  assert (gate_offset g = a ∧ gd_cs g = Z.shiftl SEG_KCODE 3) as [Ho Hcs].
  { unfold g. rewrite Ha. cbn [default from_option id].
    destruct (i =? _)%nat; rewrite SETGATE_offset, u32_small by exact Hw; done. }
  rewrite Ho, Hcs. clearbody g. destruct c as [r s ip fl m]. unfold base, outer.
  assert (error_code i = match err with Some _ => true | None => false end) as He.
  { destruct err; [by apply Herr|]. apply not_true_is_false. by intros [? [=]]%Herr. }
  destruct (cpl _ =? 0), err as [e|]; (eexists _, _; split; [reflexivity|]; split;
    [eapply (through_alltraps i);
      [exact Hp|by rewrite He|core_eval; reflexivity|unfold build_frame, kernel_segs; core_eval; reflexivity]|]).
  all: unfold saved; core_eval.
  all: split; [reflexivity|].
  all: split; [reflexivity|].
  all: split; [reflexivity|].
  all: rewrite !low_word; by split_and!.
Qed.

Definition core_ok (c : core) : Prop :=
  (∀ r, word_ok (rg c r)) ∧ (∀ s, 0 ≤ sg c s < 2 ^ 16) ∧ word_ok (eip c) ∧ word_ok (eflags c).
(** The frame [trap] is given, at [tf]; the last two words are there only when
    the processor came from user mode. *)
Definition frame_at (c : core) : Z := base c - 4 * (Z.of_nat (length (outer c)) + 17).
Definition entry_frame (i : nat) (err : Z) (c : core) : trapframe :=
  let tf := frame_at c in
  mkTf (rg c EDI) (rg c ESI) (rg c EBP) (tf + 32) (rg c EBX) (rg c EDX) (rg c ECX) (rg c EAX)
    (sg c GS) (sg c FS) (sg c ES) (sg c DS) (Z.of_nat i) err (eip c) (sg c CS) (eflags c)
    (if cpl c =? 0 then load32 (me c) (tf + 68) else rg c ESP)
    (if cpl c =? 0 then u16 (load32 (me c) (tf + 72)) else sg c SS).
Definition stack_ok (c : core) : Prop := 4 * (Z.of_nat (length (outer c)) + 19) ≤ base c < 2 ^ 32.

Lemma u16_small z : 0 ≤ z < 2 ^ 16 → u16 z = z.
Proof using. intros H. apply Z.mod_small, H. Qed.
Lemma word_ok_u16 z : 0 ≤ z < 2 ^ 16 → u32 z = z.
Proof using. intros H. apply u32_small. lia. Qed.
Lemma after_trap_ok : u32 after_trap = after_trap.
Proof using. exact (u32_u32 _). Qed.

Ltac frame_word HH :=
  match goal with |- context [load32 _ ?a] =>
    first [rewrite (HH 0%nat _ a eq_refl) by lia | rewrite (HH 1%nat _ a eq_refl) by lia
          |rewrite (HH 2%nat _ a eq_refl) by lia | rewrite (HH 3%nat _ a eq_refl) by lia
          |rewrite (HH 4%nat _ a eq_refl) by lia | rewrite (HH 5%nat _ a eq_refl) by lia
          |rewrite (HH 6%nat _ a eq_refl) by lia | rewrite (HH 7%nat _ a eq_refl) by lia
          |rewrite (HH 8%nat _ a eq_refl) by lia | rewrite (HH 9%nat _ a eq_refl) by lia
          |rewrite (HH 10%nat _ a eq_refl) by lia | rewrite (HH 11%nat _ a eq_refl) by lia
          |rewrite (HH 12%nat _ a eq_refl) by lia | rewrite (HH 13%nat _ a eq_refl) by lia
          |rewrite (HH 14%nat _ a eq_refl) by lia | rewrite (HH 15%nat _ a eq_refl) by lia
          |rewrite (HH 16%nat _ a eq_refl) by lia | rewrite (HH 17%nat _ a eq_refl) by lia
          |rewrite (HH 18%nat _ a eq_refl) by lia]
  end.
(** The words of the frame, wherever they are. *)
Lemma frame_words i err c m : (i < 256)%nat → word_ok err → core_ok c → stack_ok c →
  let l := outer c ++ saved i err c (eip c) (frame_at c + 32) ++ [frame_at c; after_trap] in
  (∀ n v, l !! n = Some v → load32 m (base c - 4 * Z.of_nat n - 4) = u32 v) →
  (∀ a, base c ≤ a → m a = me c a) →
  get_trapframe m (frame_at c) = entry_frame i err c.
Proof using.
  intros Hi He (Hr & Hs & Hip & Hf) Hst l Hl Hm.
  assert (∀ n v a, l !! n = Some v → a = base c - 4 * Z.of_nat n - 4 → load32 m a = u32 v) as HH by (intros n v a H ->; by apply Hl).
  assert (∀ r, u32 (rg c r) = rg c r) as Hr' by (intros; apply u32_small, Hr).
  assert (∀ s, u32 (sg c s) = sg c s) as Hs' by (intros; apply word_ok_u16, Hs).
  assert (∀ s, u16 (sg c s) = sg c s) as Hs'' by (intros; apply u16_small, Hs).
  unfold word_ok in *. unfold get_trapframe, entry_frame.
  unfold stack_ok, frame_at, outer, base in *. destruct (cpl c =? 0); cbn [length app] in *.
  - assert (∀ k, 0 ≤ k → load32 m (rg c ESP + k) = load32 (me c) (rg c ESP + k)) as Hk
      by (intros k Hk; apply load32_ext; intros; apply Hm; lia).
    f_equal.
    all: first [frame_word HH; rewrite ?Hs', ?u32_u32; first [apply Hr' | apply Hs'' | apply u32_small; lia] | idtac].
    + replace (_ + 4 * 17) with (rg c ESP + 0) by lia. rewrite Hk by lia. f_equal. lia.
    + replace (_ + 4 * 18) with (rg c ESP + 4) by lia. rewrite Hk by lia. do 2 f_equal. lia.
  - f_equal.
    all: frame_word HH; rewrite ?Hs', ?u32_u32; first [apply Hr' | apply Hs'' | apply u32_small; lia].
Qed.

(** Every vector leads to [trap], with the state of the processor in the frame
    it is given. *)
Lemma enters_trap i err c : (i < 256)%nat → (is_Some err ↔ error_code i = true) → word_ok (default 0 err) →
  core_ok c → stack_ok c →
  let tf := frame_at c in
  ∃ c0 c1, deliver i err c = Some c0 ∧ steps c0 c1 ∧ eip c1 = trap_addr ∧
    rg c1 ESP = tf - 8 ∧ load32 (me c1) (tf - 8) = after_trap ∧ load32 (me c1) (tf - 4) = tf ∧
    get_trapframe (me c1) tf = entry_frame i (default 0 err) c ∧
    (∀ a, a < tf - 8 ∨ base c ≤ a → me c1 a = me c a) ∧
    sg c1 CS = Z.shiftl SEG_KCODE 3 ∧ sg c1 DS = Z.shiftl SEG_KDATA 3 ∧ sg c1 ES = Z.shiftl SEG_KDATA 3 ∧
    sg c1 FS = Z.shiftl SEG_KCPU 3 ∧ sg c1 GS = Z.shiftl SEG_KCPU 3 ∧
    sg c1 SS = (if cpl c =? 0 then sg c SS else ss0).
Proof using Type*.
  intros Hi Herr He Hc Hst tf.
  destruct (enters_trap_raw i err c Hi Herr) as (c0 & c1 & H1 & H2 & H3 & H4 & H5 & Hsg).
  cbv beta zeta in H4, H5. rewrite (sp_down_spec (_ + 9)), (sp_down_spec (_ + 17)) in H4 by (unfold stack_ok in Hst; lia).
  rewrite sp_down_spec in H5 by (unfold stack_ok in Hst; lia).
  replace (base c - 4 * Z.of_nat (length (outer c) + 9)) with (tf + 32) in H4 by (unfold tf, frame_at; lia).
  replace (base c - 4 * Z.of_nat (length (outer c) + 17)) with tf in H4 by (unfold tf, frame_at; lia).
  rewrite <- app_assoc in H4. set (l := outer c ++ _) in H4.
  assert (Z.of_nat (length l) = Z.of_nat (length (outer c)) + 19) as Hlen.
  { unfold l. rewrite length_app. cbn [length app saved]. lia. }
  destruct (store_down_spec l (me c) (base c)) as [Hl Hm]; [unfold stack_ok in Hst; lia|].
  rewrite <- H4 in Hl, Hm.
  assert (∀ n, Z.of_nat n = 17 ∨ Z.of_nat n = 18 → l !! (length (outer c) + n)%nat = [tf; after_trap] !! (n - 17)%nat) as Hlast.
  { intros n Hn. unfold l. rewrite lookup_app_r by lia. rewrite lookup_app_r by (cbn [length saved]; lia).
    match goal with |- _ !! ?a = _ !! ?b => by replace a with b by (cbn [length saved]; lia) end. }
  assert (word_ok tf) as Htf by (unfold word_ok, tf, frame_at, stack_ok in *; lia).
  exists c0, c1. do 3 (split; [done|]). split; [rewrite H5; unfold tf, frame_at; lia|].
  split; [|split; [|split; [by apply frame_words; [..|intros a Ha; apply Hm; right]|split; [|exact Hsg]]]].
  - rewrite <- after_trap_ok, <- (Hl _ after_trap (Hlast 18%nat (or_intror eq_refl))). f_equal. unfold tf, frame_at. lia.
  - rewrite <- (u32_small tf Htf) at 2. rewrite <- (Hl _ tf (Hlast 17%nat (or_introl eq_refl))). f_equal. unfold tf, frame_at. lia.
  - intros a Ha. apply Hm. unfold tf, frame_at in Ha. lia.
Qed.

(** ** Out of [trap] *)
Definition leave : list instr :=
  [Popal; PoplSeg GS; PoplSeg FS; PoplSeg ES; PoplSeg DS; AddlEsp 8].
(** [c] has the registers of the frame [f] at [tf]; the stack segment of the kernel is [ss]. *)
Definition restored (tf ss : Z) (f : trapframe) (c : core) : Prop :=
  let user := negb (Z.land (f_cs f) 3 =? 0) in
  let loaded sel := if user && negb (user_may sel) then 0 else sel in
  rg c EDI = f_edi f ∧ rg c ESI = f_esi f ∧ rg c EBP = f_ebp f ∧ rg c EBX = f_ebx f ∧
  rg c EDX = f_edx f ∧ rg c ECX = f_ecx f ∧ rg c EAX = f_eax f ∧
  eip c = f_eip f ∧ sg c CS = f_cs f ∧ eflags c = f_eflags f ∧
  sg c DS = loaded (f_ds f) ∧ sg c ES = loaded (f_es f) ∧ sg c FS = loaded (f_fs f) ∧ sg c GS = loaded (f_gs f) ∧
  rg c ESP = (if user then f_esp f else tf + 68) ∧ sg c SS = (if user then f_ss f else ss).

Lemma clear_all g s ip fl m :
  let c := foldl clear_seg (mkCore g s ip fl m) [DS; ES; FS; GS] in
  let loaded sel := if user_may sel then sel else 0 in
  rg c = g ∧ eip c = ip ∧ eflags c = fl ∧ me c = m ∧ sg c CS = s CS ∧ sg c SS = s SS ∧
  sg c DS = loaded (s DS) ∧ sg c ES = loaded (s ES) ∧ sg c FS = loaded (s FS) ∧ sg c GS = loaded (s GS).
Proof using.
  cbn [foldl]. unfold clear_seg.
  destruct (user_may (s DS)) eqn:E1, (user_may (s ES)) eqn:E2, (user_may (s FS)) eqn:E3, (user_may (s GS)) eqn:E4;
    core_eval; rewrite ?E1; core_eval; rewrite ?E2; core_eval; rewrite ?E3; core_eval; rewrite ?E4; by split_and!.
Qed.
Lemma iret_fields g s ip fl m : Z.land (s CS) 3 = 0 →
  let c := iret (mkCore g s ip fl m) in
  let w k := load32 m (u32 (g ESP + 4 * k)) in
  let user := negb (Z.land (u16 (w 1)) 3 =? 0) in
  let loaded sel := if user && negb (user_may sel) then 0 else sel in
  (∀ r, r ≠ ESP → rg c r = g r) ∧ eip c = w 0 ∧ sg c CS = u16 (w 1) ∧ eflags c = w 2 ∧ me c = m ∧
  sg c DS = loaded (s DS) ∧ sg c ES = loaded (s ES) ∧ sg c FS = loaded (s FS) ∧ sg c GS = loaded (s GS) ∧
  rg c ESP = (if user then w 3 else u32 (g ESP + 12)) ∧ sg c SS = (if user then u16 (w 4) else s SS).
Proof using.
  intros Hcs c w user loaded. unfold c, iret, drop_words, cpl. cbn [rg sg me eip eflags set_rg set_sg set_eip set_eflags is_reg reg_no Nat.eqb].
  fold (w 0) (w 1) (w 2) (w 3) (w 4). rewrite Hcs. unfold loaded, user. destruct (Z.land (u16 (w 1)) 3 =? 0); cbn [negb andb].
  { split_and!; try reflexivity. by intros []. }
  match goal with |- context [foldl clear_seg (mkCore ?a ?b ?d ?e ?h)] =>
    destruct (clear_all a b d e h) as (-> & -> & -> & -> & -> & -> & -> & -> & -> & ->) end.
  split_and!; try reflexivity; [by intros []|..]; cbn; by destruct (user_may _).
Qed.

(** Removes the wrap-around of words that are in range. *)
Ltac small_words :=
  repeat match goal with |- context [u32 ?z] =>
    lazymatch z with context [u32 _] => fail | _ => rewrite (u32_small z) by lia end
  end.
Lemma run_leave g s ip fl m tf : g ESP = tf → 0 ≤ tf → tf + 68 < 2 ^ 32 →
  let w k := load32 m (tf + 4 * k) in
  ∃ g' s', run leave (mkCore g s ip fl m) = Some (mkCore g' s' ip fl m) ∧
    g' EDI = w 0 ∧ g' ESI = w 1 ∧ g' EBP = w 2 ∧ g' EBX = w 4 ∧ g' EDX = w 5 ∧ g' ECX = w 6 ∧ g' EAX = w 7 ∧
    s' GS = u16 (w 8) ∧ s' FS = u16 (w 9) ∧ s' ES = u16 (w 10) ∧ s' DS = u16 (w 11) ∧
    s' CS = s CS ∧ s' SS = s SS ∧ g' ESP = tf + 56.
Proof using.
  intros Hsp Ht1 Ht2 w. eexists _, _. split; [unfold leave; core_eval; reflexivity|]. core_eval.
  rewrite Hsp. unfold w.
  split_and!; try reflexivity; small_words; try lia;
    try apply (f_equal u16); apply (f_equal (load32 m)); lia.
Qed.
(** The address [trapret]. *)
Definition trapret_addr : Z := u32 (after_trap + ilen (AddlEsp 4)).
Lemma trap_returns_placed :
  code after_trap = Some (AddlEsp 4) ∧ placed trapret_addr (leave ++ [Iret]).
Proof using alltraps_placed.
  pose proof alltraps_placed as H.
  change (alltraps trap_addr) with
    ((build_frame ++ kernel_segs ++ [Pushl (Reg ESP); Call trap_addr]) ++ AddlEsp 4 :: leave ++ [Iret]) in H.
  by apply placed_app in H as [_ H].
Qed.
(** [trapret], which a new process comes to without having called [trap]. *)
Lemma trapret_restores c tf : eip c = trapret_addr → rg c ESP = tf → 0 ≤ tf → tf + 68 < 2 ^ 32 →
  (Z.land (f_cs (get_trapframe (me c) tf)) 3 = 0 ∨ tf + 76 < 2 ^ 32) →
  sg c CS = Z.shiftl SEG_KCODE 3 →
  ∃ c', steps c c' ∧ me c' = me c ∧ restored tf (sg c SS) (get_trapframe (me c) tf) c'.
Proof using alltraps_placed.
  intros Hip Hsp Ht1 Ht2 Ht3 Hcs. destruct c as [g s ip fl m]. cbn [rg sg eip me] in *. subst ip.
  destruct trap_returns_placed as [_ [Hl [Hr _]]%placed_app].
  destruct (run_leave g s trapret_addr fl m tf Hsp Ht1 Ht2) as (g' & s' & Hrun & F1 & F2 & F3 & F4 & F5 & F6 & F7 & F8 & F9 & F10 & F11 & F12 & F13 & F14).
  destruct (iret_fields g' s' (end_of trapret_addr leave) fl m) as (I1 & I2 & I3 & I4 & I5 & I6 & I7 & I8 & I9 & I10 & I11).
  { rewrite F12, Hcs. done. }
  rewrite F14 in *. exists (iret (mkCore g' s' (end_of trapret_addr leave) fl m)). split.
  { eapply steps_trans; [eapply run_steps; [exact Hl|exact Hrun]|].
    apply rtc_once. unfold step. cbn [set_eip eip]. cbn [eip] in Hr. by rewrite Hr. }
  split; [exact I5|].
  assert (∀ k, 0 ≤ k → tf + 56 + 4 * k < 2 ^ 32 → load32 m (u32 (tf + 56 + 4 * k)) = load32 m (tf + 4 * (k + 14))) as Hw.
  { intros k Hk1 Hk2. rewrite u32_small by lia. f_equal. lia. }
  rewrite !(Hw 0), !(Hw 1), !(Hw 2) in * by lia.
  change (0 + 14) with 14 in *. change (1 + 14) with 15 in *. change (2 + 14) with 16 in *.
  set (c' := iret _) in *. clearbody c'.
  unfold restored, get_trapframe in *. cbn beta iota delta [f_edi f_esi f_ebp f_ebx f_edx f_ecx f_eax f_gs f_fs f_es f_ds f_eip f_cs f_eflags f_esp f_ss] in *.
  rewrite F8, F9, F10, F11, F13 in *. rewrite !I1, F1, F2, F3, F4, F5, F6, F7 by done.
  split_and!; try done; destruct (Z.eqb_spec (Z.land (u16 (load32 m (tf + 4 * 15))) 3) 0); cbn [negb] in *.
  - rewrite I10. small_words. lia.
  - rewrite I10. apply (Hw 3); lia.
  - done.
  - rewrite I11. f_equal. apply (Hw 4); lia.
Qed.

Lemma leaves_trap c tf : eip c = after_trap → rg c ESP = tf - 4 → 4 ≤ tf → tf + 68 < 2 ^ 32 →
  (Z.land (f_cs (get_trapframe (me c) tf)) 3 = 0 ∨ tf + 76 < 2 ^ 32) →
  sg c CS = Z.shiftl SEG_KCODE 3 →
  ∃ c', steps c c' ∧ me c' = me c ∧ restored tf (sg c SS) (get_trapframe (me c) tf) c'.
Proof using alltraps_placed.
  intros Hip Hsp Ht1 Ht2 Ht3 Hcs. destruct c as [g s ip fl m]. cbn [rg sg eip me] in *. subst ip.
  destruct trap_returns_placed as [Ha _].
  destruct (trapret_restores (set_eip trapret_addr (set_rg ESP (u32 (g ESP + 4)) (mkCore g s after_trap fl m))) tf)
    as (c' & H1 & H2 & H3); [done| |lia|done|done|done|].
  { cbn. rewrite u32_small; lia. }
  exists c'. split; [|done]. eapply rtc_l; [|exact H1]. unfold trapret_addr, step. cbn [eip]. by rewrite Ha.
Qed.

(** ** The three ways in and out *)
Definition same_core (c c' : core) : Prop :=
  (∀ r, rg c' r = rg c r) ∧ (∀ s, sg c' s = sg c s) ∧ eip c' = eip c ∧ eflags c' = eflags c.
(** User mode has only segments loaded that it may have. *)
Definition segs_ok (c : core) : Prop := cpl c = 0 ∨ ∀ s, s ∈ [DS; ES; FS; GS] → user_may (sg c s) = true.
(** [c2] is how the C function called in [c1] comes back: the caller's stack
    pointer, no argument popped, the segments as they were. *)
Definition returns (c1 c2 : core) : Prop :=
  eip c2 = load32 (me c1) (rg c1 ESP) ∧ rg c2 ESP = rg c1 ESP + 4 ∧ sg c2 CS = sg c1 CS ∧ sg c2 SS = sg c1 SS.
Definition set_f_eax (v : Z) (f : trapframe) : trapframe :=
  mkTf (f_edi f) (f_esi f) (f_ebp f) (f_oesp f) (f_ebx f) (f_edx f) (f_ecx f) v
    (f_gs f) (f_fs f) (f_es f) (f_ds f) (f_trapno f)
    (f_err f) (f_eip f) (f_cs f) (f_eflags f) (f_esp f) (f_ss f).

Lemma frame_bounds c : stack_ok c →
  8 ≤ frame_at c ∧ frame_at c + 68 < 2 ^ 32 ∧
  (cpl c = 0 → frame_at c + 68 = rg c ESP) ∧ (cpl c ≠ 0 → frame_at c + 76 = esp0 ∧ frame_at c + 76 < 2 ^ 32).
Proof using.
  unfold stack_ok, frame_at, outer, base. destruct (Z.eqb_spec (cpl c) 0); cbn [length]; lia.
Qed.
(** Back from [trap] with at most [eax] of the frame changed. *)
Lemma resumes i err c c1 c2 v : core_ok c → stack_ok c → segs_ok c →
  load32 (me c1) (rg c1 ESP) = after_trap → rg c1 ESP = frame_at c - 8 → sg c1 CS = Z.shiftl SEG_KCODE 3 →
  sg c1 SS = (if cpl c =? 0 then sg c SS else ss0) → returns c1 c2 →
  get_trapframe (me c2) (frame_at c) = set_f_eax v (entry_frame i err c) →
  ∃ c3, steps c2 c3 ∧ me c3 = me c2 ∧ same_core (set_rg EAX v c) c3.
Proof using Type*.
  intros (Hr & Hs & Hip & Hf) Hst Hseg Ha Hsp Hcs Hss (R1 & R2 & R3 & R4) HF.
  pose proof (frame_bounds c Hst) as (B1 & B2 & B3 & B4).
  destruct (leaves_trap c2 (frame_at c)) as (c3 & H1 & H2 & H3); [congruence|lia|lia|lia| |congruence|].
  { rewrite HF. cbn. fold (cpl c). destruct (Z.eq_dec (cpl c) 0); [by left|right; by apply B4]. }
  exists c3. split; [done|]. split; [done|]. rewrite HF in H3. unfold restored, set_f_eax, entry_frame in H3.
  cbn beta iota delta [f_edi f_esi f_ebp f_ebx f_edx f_ecx f_eax f_gs f_fs f_es f_ds f_eip f_cs f_eflags f_esp f_ss] in H3.
  fold (cpl c) in H3. destruct H3 as (F1 & F2 & F3 & F4 & F5 & F6 & F7 & F8 & F9 & F10 & F11 & F12 & F13 & F14 & F15 & F16).
  rewrite R4, Hss in F16. destruct c as [g s ip fl m]. cbn [rg sg eip eflags me set_rg] in *.
  split; [|split; [|done]].
  - intros []; cbn; try done. rewrite F15. destruct (Z.eqb_spec (cpl (mkCore g s ip fl m)) 0); cbn [negb]; [by apply B3|done].
  - destruct Hseg as [Hk|Hu].
    + rewrite Hk in *. cbn in F11, F12, F13, F14, F16. by intros [].
    + cbn [sg] in Hu. rewrite !Hu, !andb_false_r in * by set_solver. intros []; try done.
      rewrite F16. by destruct (cpl _ =? 0).
Qed.
Lemma same_eax c c' : same_core (set_rg EAX (rg c EAX) c) c' → same_core c c'.
Proof using. destruct c. intros (H1 & H2 & H3 & H4). split; [|done]. intros r. rewrite H1. by destruct r. Qed.
Lemma set_same_eax i err c : set_f_eax (rg c EAX) (entry_frame i err c) = entry_frame i err c.
Proof using. done. Qed.

(** Claim C9: interrupts are transparent.  An interrupt or exception [i] taken in any state calls [trap] with the
    whole state in its frame, in user mode on the process's kernel stack; when
    [trap] returns and has left the frame alone, the interrupted code goes on
    with every register as it was. *)
Theorem interrupts_transparent i err c :
  (i < 256)%nat → (is_Some err ↔ error_code i = true) → word_ok (default 0 err) →
  core_ok c → stack_ok c → segs_ok c →
  let tf := frame_at c in
  ∃ c0 c1, deliver i err c = Some c0 ∧ steps c0 c1 ∧ eip c1 = trap_addr ∧
    load32 (me c1) (rg c1 ESP + 4) = tf ∧ get_trapframe (me c1) tf = entry_frame i (default 0 err) c ∧
    (∀ a, a < tf - 8 ∨ base c ≤ a → me c1 a = me c a) ∧
    ∀ c2, returns c1 c2 → get_trapframe (me c2) tf = get_trapframe (me c1) tf →
      ∃ c3, steps c2 c3 ∧ me c3 = me c2 ∧ same_core c c3.
Proof using Type*.
  intros Hi Herr He Hc Hst Hseg tf.
  destruct (enters_trap i err c Hi Herr He Hc Hst) as (c0 & c1 & H1 & H2 & H3 & H4 & H5 & H6 & H7 & H8 & H9 & _ & _ & _ & _ & H10).
  fold tf in H4, H5, H6, H7, H8.
  exists c0, c1. do 3 (split; [done|]). split; [by replace (rg c1 ESP + 4) with (tf - 4) by lia|]. do 2 (split; [done|]).
  intros c2 Hret HF. destruct (resumes i (default 0 err) c c1 c2 (rg c EAX)) as (c3 & ? & ? & ?%same_eax); try done.
  - by rewrite H4.
  - rewrite set_same_eax, <- H7. exact HF.
  - eauto.
Qed.

(** A system call from user mode, from the stub to its return. *)
Lemma syscall_steps h c : placed (eip c) [Movl (Imm (sysnum h)) EAX; Int T_SYSCALL] → core_ok c → stack_ok c → segs_ok c → cpl c = DPL_USER →
  let d := set_eip (end_of (eip c) [Movl (Imm (sysnum h)) EAX; Int T_SYSCALL]) (set_rg EAX (sysnum h) c) in
  ∃ c1, steps c c1 ∧ eip c1 = trap_addr ∧
    load32 (me c1) (rg c1 ESP + 4) = frame_at c ∧ get_trapframe (me c1) (frame_at c) = entry_frame 64 0 d ∧
    (∀ a, a < frame_at c - 8 ∨ esp0 ≤ a → me c1 a = me c a) ∧
    ∀ c2 v, returns c1 c2 → get_trapframe (me c2) (frame_at c) = set_f_eax v (get_trapframe (me c1) (frame_at c)) →
      ∃ c3, steps c2 c3 ∧ me c3 = me c2 ∧ same_core (set_rg EAX v d) c3.
Proof using Type*.
  intros (P1 & P2 & _) Hc Hst Hseg Hu d. destruct c as [g s ip fl m].
  assert (core_ok d) as Hd.
  { destruct Hc as (Hr & Hs & _ & Hf). split; [|split; [done|split; [exact (u32_range _)|done]]].
    intros []; try apply Hr. cbn. unfold word_ok. destruct h; cbn; lia. }
  destruct (enters_trap 64 None d) as (c0 & c1 & H1 & H2 & H3 & H4 & H5 & H6 & H7 & H8 & H9 & _ & _ & _ & _ & H10);
    [lia|split; [by intros [? [=]]|done]|done|done|done|].
  exists c1. split; [|split; [done|split; [|split; [done|split]]]].
  - assert (u32 (sysnum h) = sysnum h) as Hn by by destruct h.
    eapply rtc_l; [eapply step_effect; [exact P1|cbn [effect value]; by rewrite Hn]|].
    eapply rtc_l; [|exact H2]. unfold step. cbn [eip set_eip set_rg] in P2 |- *. rewrite P2, tvinit_lookup by (vm_compute; lia).
    change (Z.to_nat T_SYSCALL) with 64%nat. change (64 =? 64)%nat with true. cbv iota.
    unfold may_int. cbn [gd_p gd_dpl SETGATE]. change (cpl _) with (cpl (mkCore g s ip fl m)). rewrite Hu.
    change ((1 =? 1) && (DPL_USER <=? DPL_USER)) with true. cbv iota. rewrite <- H1. done.
  - change (frame_at (mkCore g s ip fl m)) with (frame_at d). by replace (rg c1 ESP + 4) with (frame_at d - 4) by lia.
  - intros a Ha. apply H8. unfold base. change (cpl d) with (cpl (mkCore g s ip fl m)). rewrite Hu. exact Ha.
  - intros c2 v Hret HF. apply (resumes 64 0 d c1 c2 v); try done; [by rewrite H4|].
    cbn [default from_option] in H7. rewrite <- H7. exact HF.
Qed.

(** The field the kernel writes its result to, and those it reads. *)
Lemma frame_offsets m tf :
  f_eax (get_trapframe m tf) = load32 m (tf + tf_eax) ∧ f_eip (get_trapframe m tf) = load32 m (tf + tf_eip) ∧
  f_cs (get_trapframe m tf) = u16 (load32 m (tf + tf_cs)) ∧ f_esp (get_trapframe m tf) = load32 m (tf + tf_esp) ∧
  f_eflags (get_trapframe m tf) = load32 m (tf + tf_eflags) ∧ f_ss (get_trapframe m tf) = u16 (load32 m (tf + tf_ss)).
Proof using. done. Qed.
Lemma store_eax m tf v : get_trapframe (store32 m (tf + tf_eax) v) tf = set_f_eax (u32 v) (get_trapframe m tf).
Proof using.
  unfold get_trapframe, set_f_eax, tf_eax. cbn [f_edi f_esi f_ebp f_oesp f_ebx f_edx f_ecx f_eax f_gs f_fs f_es f_ds f_trapno f_err f_eip f_cs f_eflags f_esp f_ss].
  replace (tf + 28) with (tf + 4 * 7) by lia. rewrite load32_store32_eq, !load32_store32_other by lia. done.
Qed.

(** The words above the return address are the arguments. *)
Lemma argint_reads m sp sz n : word_ok sp → sz ≤ KERNBASE → 0 ≤ n → sp + 4 + 4 * n + 4 ≤ sz →
  argint sz sp m n = Some (i32 (load32 m (sp + 4 + 4 * n))).
Proof using.
  intros Hw Hsz Hn Hle. unfold argint, fetchint, word_ok, KERNBASE in *.
  rewrite (u32_small (sp + 4 + 4 * n)), (u32_small (sp + 4 + 4 * n + 4)) by lia.
  destruct (Z.leb_spec sz (sp + 4 + 4 * n)), (Z.ltb_spec sz (sp + 4 + 4 * n + 4)); try lia. done.
Qed.
Lemma user_stack c : cpl c = DPL_USER → KERNBASE + 84 ≤ esp0 < 2 ^ 32 →
  stack_ok c ∧ frame_at c = esp0 - sizeof_trapframe.
Proof using.
  intros Hu He. unfold stack_ok, frame_at, outer, base, sizeof_trapframe, KERNBASE in *. rewrite Hu.
  change (DPL_USER =? 0) with false. cbn [length]. lia.
Qed.

(** Claim C8: a system call is a function call.  The stub enters [trap] with the number
    in the frame's [eax] and with the caller's arguments where [argint] looks
    for them, on the kernel stack of the process and with user memory
    unchanged; when [trap] returns, having put a value into the frame's [eax],
    the stub returns to its caller with that value, the stack pointer past the
    return address, and everything else as it was. *)
Theorem system_call_is_a_call h c :
  placed (eip c) (SYSCALL h) → core_ok c → segs_ok c → cpl c = DPL_USER →
  KERNBASE + 84 ≤ esp0 < 2 ^ 32 → rg c ESP + 4 ≤ KERNBASE →
  ∃ c1, steps c c1 ∧ eip c1 = trap_addr ∧
    let tf := load32 (me c1) (rg c1 ESP + 4) in
    let f := get_trapframe (me c1) tf in
    tf = esp0 - sizeof_trapframe ∧ f_trapno f = T_SYSCALL ∧ f_eax f = sysnum h ∧ Z.land (f_cs f) 3 = DPL_USER ∧
    (∀ sz n, sz ≤ KERNBASE → 0 ≤ n → rg c ESP + 4 + 4 * n + 4 ≤ sz →
       argint sz (f_esp f) (me c1) n = Some (i32 (load32 (me c) (rg c ESP + 4 + 4 * n)))) ∧
    (∀ a, a < KERNBASE → me c1 a = me c a) ∧
    ∀ c2 v, returns c1 c2 → get_trapframe (me c2) tf = set_f_eax v f →
      (∀ a, a < KERNBASE → me c2 a = me c1 a) →
      ∃ c3, steps c2 c3 ∧ me c3 = me c2 ∧
        same_core (set_eip (load32 (me c) (rg c ESP)) (set_rg ESP (rg c ESP + 4) (set_rg EAX v c))) c3.
Proof using Type*.
  intros Hp Hc Hseg Hu He Hsp. assert (word_ok (rg c ESP)) as Hw by apply Hc.
  destruct (user_stack c Hu He) as [Hst Htf].
  destruct (syscall_steps h c (proj1 (proj1 (placed_app [_; _] [Ret_] _) Hp)) Hc Hst Hseg Hu) as (c1 & H1 & H2 & H3 & H4 & H5 & H6).
  unfold word_ok, KERNBASE, sizeof_trapframe in *.
  assert (∀ a, a < 0x80000000 → me c1 a = me c a) as Hm by (intros a Ha; apply H5; lia).
  exists c1. do 2 (split; [done|]). cbv zeta. rewrite H3.
  split; [done|]. assert (cpl (set_eip (end_of (eip c) [Movl (Imm (sysnum h)) EAX; Int T_SYSCALL]) (set_rg EAX (sysnum h) c)) = DPL_USER) as Hud by (by destruct c).
  split; [by rewrite H4|]. split; [by rewrite H4; destruct c|]. split; [rewrite H4; exact Hud|]. split; [|split; [done|]].
  - intros sz n Hsz Hn Hle. rewrite H4. unfold entry_frame. cbn [f_esp]. rewrite Hud. cbn.
    replace (rg _ ESP) with (rg c ESP) at 1 by (by destruct c).
    rewrite argint_reads by (unfold KERNBASE; done || lia). do 2 f_equal. apply load32_ext. intros b Hb. apply Hm. lia.
  - intros c2 v Hret HF Hm2. destruct (H6 c2 v Hret HF) as (c3 & S1 & S2 & S3).
    destruct Hp as (_ & _ & Hr & _). destruct c as [g s ip fl m], c3 as [g3 s3 ip3 fl3 m3]. destruct S3 as (R1 & R2 & R3 & R4).
    cbn [rg sg eip eflags me set_rg set_eip] in *. subst ip3 m3.
    change (code (end_of ip [Movl (Imm (sysnum h)) EAX; Int T_SYSCALL]) = Some Ret_) in Hr.
    exists (set_eip (load32 (me c2) (g3 ESP)) (drop_words 1 (mkCore g3 s3 (end_of ip [Movl (Imm (sysnum h)) EAX; Int T_SYSCALL]) fl3 (me c2)))).
    split; [eapply rtc_r; [exact S1|]; unfold step; cbn [eip]; by rewrite Hr|]. split; [done|].
    assert (g3 ESP = g ESP) as Hg by apply R1.
    split; [|split; [done|split; [|done]]].
    + intros []; cbn; first [rewrite Hg, u32_small by lia; lia | by rewrite R1].
    + cbn. rewrite Hg. apply load32_ext. intros b Hb. rewrite Hm2, Hm by lia. done.
Qed.

(** The first process: initcode asks for [exec(init, argv)]. *)
Lemma initcode_execs argv init exit sz c :
  placed (eip c) (initcode argv init exit) → core_ok c → segs_ok c → cpl c = DPL_USER →
  KERNBASE + 84 ≤ esp0 < 2 ^ 32 → 12 ≤ rg c ESP ≤ sz → sz ≤ KERNBASE → word_ok init → word_ok argv →
  ∃ c1, steps c c1 ∧ eip c1 = trap_addr ∧
    let f := get_trapframe (me c1) (load32 (me c1) (rg c1 ESP + 4)) in
    f_trapno f = T_SYSCALL ∧ f_eax f = sysnum SYS_exec ∧
    argint sz (f_esp f) (me c1) 0 = Some (i32 init) ∧ argint sz (f_esp f) (me c1) 1 = Some (i32 argv) ∧
    (∀ a, a < rg c ESP - 12 ∨ rg c ESP ≤ a < KERNBASE → me c1 a = me c a).
Proof using Type*.
  intros Hp Hc Hseg Hu He Hsp Hsz Hi Ha. destruct c as [g s ip fl m]. cbn [rg me eip] in *.
  apply (placed_app [_; _; _]) in Hp as [Hp1 Hp2]. apply (placed_app [_; _]) in Hp2 as [Hp2 _].
  assert (∃ g', run [Pushl (Imm argv); Pushl (Imm init); Pushl (Imm 0)] (mkCore g s ip fl m) =
      Some (mkCore g' s ip fl (store_down m (g ESP) [u32 argv; u32 init; u32 0])) ∧
      g' ESP = g ESP - 12 ∧ ∀ r, word_ok (g' r)) as (g' & Hrun & Hg & Hok).
  { eexists. split; [core_eval; reflexivity|]. core_eval. unfold KERNBASE, word_ok in *. small_words.
    split; [lia|]. destruct Hc as [Hr _]. intros []; cbn; first [exact (Hr _)|lia]. }
  destruct (store_down_spec [u32 argv; u32 init; u32 0] m (g ESP)) as [Hw Hm]; [cbn [length]; unfold KERNBASE in *; lia|].
  set (m' := store_down _ _ _) in *. set (d := mkCore g' s (end_of ip [Pushl (Imm argv); Pushl (Imm init); Pushl (Imm 0)]) fl m').
  destruct (user_stack d Hu He) as [Hst Htf].
  destruct (syscall_steps SYS_exec d) as (c1 & H1 & H2 & H3 & H4 & H5 & _); [exact Hp2| |exact Hst|exact Hseg|exact Hu|].
  { destruct Hc as (_ & Hs & _ & Hf). split_and!; [done|done|exact (u32_range _)|done]. }
  assert (∀ a, a < 0x80000000 → me c1 a = m' a) as Hm1.
  { intros a Ha'. apply H5. unfold sizeof_trapframe, KERNBASE in *. lia. }
  exists c1. split; [eapply steps_trans; [exact (run_steps _ (mkCore g s ip fl m) _ Hp1 Hrun)|exact H1]|]. split; [done|].
  cbv zeta. rewrite H3, H4. do 2 (split; [done|]). unfold entry_frame. cbn [f_esp].
  change (cpl _ =? 0) with (cpl (mkCore g s ip fl m) =? 0). rewrite Hu. cbn -[argint i32].
  unfold KERNBASE, word_ok in *. rewrite Hg, !argint_reads by (unfold KERNBASE, word_ok; lia).
  split; [|split].
  - rewrite (load32_ext _ m') by (intros; apply Hm1; lia). replace (g ESP - 12 + 4 + 4 * 0) with (g ESP - 4 * Z.of_nat 1 - 4) by lia.
    rewrite (Hw 1%nat (u32 init) eq_refl), u32_u32, u32_small by lia. done.
  - rewrite (load32_ext _ m') by (intros; apply Hm1; lia). replace (g ESP - 12 + 4 + 4 * 1) with (g ESP - 4 * Z.of_nat 0 - 4) by lia.
    rewrite (Hw 0%nat (u32 argv) eq_refl), u32_u32, u32_small by lia. done.
  - intros a Ha'. rewrite Hm1 by lia. apply Hm. cbn [length]. lia.
Qed.

(** ** The context switch *)
(** [struct context] *)
Record context := mkContext { x_edi : Z; x_esi : Z; x_ebx : Z; x_ebp : Z; x_eip : Z }.
Definition get_context (m : mem) (a : Z) : context :=
  mkContext (load32 m a) (load32 m (a + 4)) (load32 m (a + 8)) (load32 m (a + 12)) (load32 m (a + 16)).
Context (swtch_addr : Z).
Hypothesis swtch_placed : placed swtch_addr swtch.

(** [swtch(old, new)] called in [c], with the words it writes apart from the
    context it loads. *)
Definition calls_swtch (c : core) (old new : Z) : Prop :=
  core_ok c ∧ eip c = swtch_addr ∧ load32 (me c) (rg c ESP + 4) = old ∧ load32 (me c) (rg c ESP + 8) = new ∧
  16 ≤ rg c ESP ∧ rg c ESP + 12 < 2 ^ 32 ∧ 0 ≤ old < 2 ^ 32 - 4 ∧ 0 ≤ new < 2 ^ 32 - 20 ∧
  (old + 4 ≤ rg c ESP - 16 ∨ rg c ESP + 4 ≤ old) ∧
  (new + 20 ≤ rg c ESP - 16 ∨ rg c ESP ≤ new) ∧ (old + 4 ≤ new ∨ new + 20 ≤ old).

Ltac stack_loads :=
  repeat first [rewrite load32_store32_other by lia
    | match goal with |- context [load32 (store32 ?m ?a ?v) ?b] => replace b with a by lia; rewrite load32_store32_eq end].
Lemma run_swtch c old new : calls_swtch c old new →
  ∃ c', steps c c' ∧
    (* the old context *)
    load32 (me c') old = rg c ESP - 16 ∧
    get_context (me c') (rg c ESP - 16) =
      mkContext (rg c EDI) (rg c ESI) (rg c EBX) (rg c EBP) (load32 (me c) (rg c ESP)) ∧
    (∀ a, (a < rg c ESP - 16 ∨ rg c ESP ≤ a) → (a < old ∨ old + 4 ≤ a) → me c' a = me c a) ∧
    (* the new one *)
    mkContext (rg c' EDI) (rg c' ESI) (rg c' EBX) (rg c' EBP) (eip c') = get_context (me c) new ∧
    rg c' ESP = new + 20 ∧ sg c' = sg c ∧ eflags c' = eflags c.
Proof using swtch_placed.
  intros (Hok & Hip & Ho & Hn & B1 & B2 & B3 & B4 & D1 & D2 & D3). destruct Hok as (Hr & _).
  destruct c as [g s ip fl m]. cbn [rg sg eip me eflags] in *. subst ip.
  assert (placed swtch_addr (removelast swtch ++ [Ret_])) as [Hl [Hret _]]%placed_app by exact swtch_placed.
  eexists. split.
  - eapply rtc_r; [eapply run_steps; [exact Hl|unfold swtch; cbn [removelast]; core_eval; reflexivity]|].
    cbn beta. unfold step. cbn [eip set_eip] in Hret |- *. rewrite Hret. reflexivity.
  - core_eval. rewrite (u32_small (g ESP + 4)), (u32_small (g ESP + 8)), Ho, Hn by lia.
    assert (∀ r, u32 (g r) = g r) as Hu by (intros r; apply u32_small, Hr).
    small_words. unfold get_context.
    split_and!; try done; try lia; [| |intros a Ha1 Ha2; by rewrite !store32_other by lia|].
    + rewrite load32_store32_eq. small_words. lia.
    + f_equal; stack_loads; rewrite ?Hu; try done; f_equal; lia.
    + f_equal; stack_loads; f_equal; lia.
Qed.

(** A new process: [allocproc] leaves a context whose [eip] is [forkret] and
    above it the address of [trapret], then the frame [fork] or [userinit]
    fills in.  The first switch to it is at [forkret] with that address as its
    return address; when it returns, the process is in the state of the frame. *)
Lemma first_switch c old new tf forkret_addr : calls_swtch c old new →
  x_eip (get_context (me c) new) = forkret_addr → load32 (me c) (new + sizeof_context) = trapret_addr →
  tf = new + sizeof_context + 4 → tf + 76 < 2 ^ 32 → sg c CS = Z.shiftl SEG_KCODE 3 →
  (new + 100 ≤ rg c ESP - 16 ∨ rg c ESP ≤ new) → (old + 4 ≤ new ∨ new + 100 ≤ old) →
  ∃ c', steps c c' ∧ eip c' = forkret_addr ∧ rg c' ESP = tf - 4 ∧
    get_trapframe (me c') tf = get_trapframe (me c) tf ∧
    ∀ d, eip d = load32 (me c') (rg c' ESP) → rg d ESP = rg c' ESP + 4 → sg d CS = sg c' CS →
      get_trapframe (me d) tf = get_trapframe (me c') tf →
      ∃ d', steps d d' ∧ restored tf (sg d SS) (get_trapframe (me c) tf) d'.
Proof using Type*.
  intros Hc Hf Ht -> B Hcs D1 D2. assert (0 ≤ new) as Hn by apply Hc. unfold sizeof_context in *.
  destruct (run_swtch c old new Hc) as (c' & S1 & _ & _ & S4 & S5 & S6 & S7 & _).
  rewrite <- S5 in Hf. cbn in Hf.
  assert (∀ k, 0 ≤ k ≤ 96 → load32 (me c') (new + k) = load32 (me c) (new + k)) as Hk.
  { intros k Hk. apply load32_ext. intros a Ha. apply S4; lia. }
  assert (get_trapframe (me c') (new + 20 + 4) = get_trapframe (me c) (new + 20 + 4)) as Hfr.
  { unfold get_trapframe. replace (new + 20 + 4) with (new + 24) by lia. rewrite <- !Z.add_assoc, !Hk by lia. done. }
  exists c'. do 2 (split; [done|]). split; [lia|]. split; [done|]. intros d Hd1 Hd2 Hd3 Hd4.
  rewrite S6, Hk, Ht in Hd1 by lia.
  destruct (trapret_restores d (new + 20 + 4)) as (d' & T1 & _ & T2); [done|lia|lia|lia|by right; lia|by rewrite Hd3, S7|].
  exists d'. split; [done|]. by rewrite Hd4, Hfr in T2.
Qed.

(** Claim C10: switching away and back is returning from a call.  When [c] has called
    [swtch] and later some [d] calls it with the context it saved, which has
    not been written to meanwhile, control is at the return address of the
    first call, with its stack pointer and callee-saved registers. *)
Theorem swtch_returns c old new : calls_swtch c old new →
  ∃ c', steps c c' ∧
    mkContext (rg c' EDI) (rg c' ESI) (rg c' EBX) (rg c' EBP) (eip c') = get_context (me c) new ∧
    rg c' ESP = new + 20 ∧ load32 (me c') old = rg c ESP - 16 ∧
    ∀ d old', calls_swtch d old' (load32 (me c') old) →
      (∀ a, rg c ESP - 16 ≤ a < rg c ESP + 4 → me d a = me c' a) →
      ∃ d', steps d d' ∧ eip d' = load32 (me c) (rg c ESP) ∧ rg d' ESP = rg c ESP + 4 ∧
        (∀ r, r ∈ [EBX; EBP; ESI; EDI] → rg d' r = rg c r).
Proof using swtch_placed.
  intros Hc. destruct (run_swtch c old new Hc) as (c' & S1 & S2 & S3 & _ & S5 & S6 & _).
  exists c'. do 4 (split; [done|]). intros d old' Hd Hm.
  rewrite S2 in Hd. destruct (run_swtch d old' _ Hd) as (d' & T1 & _ & _ & _ & T5 & T6 & _).
  exists d'. split; [done|].
  assert (get_context (me d) (rg c ESP - 16) = get_context (me c') (rg c ESP - 16)) as E.
  { unfold get_context. f_equal; apply load32_ext; intros b Hb; apply Hm; lia. }
  rewrite E, S3 in T5. injection T5 as E1 E2 E3 E4 E5. split; [done|]. split; [lia|].
  intros r Hr. rewrite !elem_of_cons, elem_of_nil in Hr. by destruct Hr as [->|[->|[->|[->|[]]]]].
Qed.
End Processor.

(** ** A layout of the code, and processors in user and in kernel mode *)
Definition wcode (a : Z) : option instr :=
  if a <? 768 then vector (a / 3) 0x1000 !! Z.to_nat (a mod 3)
  else if a <? 0x2000 then alltraps 0x4000 !! Z.to_nat (a - 0x1000)
  else if a <? 0x3000 then swtch !! Z.to_nat (a - 0x2000)
  else SYSCALL SYS_write !! Z.to_nat (a - 0x3000).
Definition wlen (_ : instr) : Z := 1.
Definition wvecs : list Z := (λ i, 3 * Z.of_nat i) <$> seq 0 256.
Definition wsegs : list segdesc := seginit 0x80112700 wgdt.
Definition wtop : Z := 0x8dfff000.
Lemma wvecs_placed i : (i < 256)%nat →
  ∃ a, wvecs !! i = Some a ∧ word_ok a ∧ placed wcode wlen a (vector (Z.of_nat i) 0x1000).
Proof.
  intros Hi. exists (3 * Z.of_nat i). split; [|split; [unfold word_ok; lia|]].
  { unfold wvecs. rewrite list_lookup_fmap, lookup_seq_lt by done. done. }
  assert (∀ k, 0 ≤ k < 3 → wcode (u32 (3 * Z.of_nat i + k)) = vector (Z.of_nat i) 0x1000 !! Z.to_nat k) as Hk.
  { intros k Hk. rewrite u32_small by lia. unfold wcode. destruct (Z.ltb_spec (3 * Z.of_nat i + k) 768); [|lia].
    replace ((3 * Z.of_nat i + k) / 3) with (Z.of_nat i) by (Z.div_mod_to_equations; lia).
    replace ((3 * Z.of_nat i + k) mod 3) with k by (Z.div_mod_to_equations; lia). done. }
  assert (3 * Z.of_nat i = u32 (3 * Z.of_nat i + 0)) as -> by (rewrite u32_small; lia).
  unfold wlen. pose proof (Hk 0) as H0. pose proof (Hk 1) as H1. pose proof (Hk 2) as H2. unfold vector in *.
  destruct (pushes_zero (Z.of_nat i)); cbn [app placed]; rewrite ?u32_add_l, <- ?Z.add_assoc;
    change (0 + (1 + 1)) with 2; change (0 + 1) with 1.
  all: rewrite ?H0, ?H1, ?H2 by lia; done.
Qed.
Definition wuser : core :=
  mkCore (λ r, match r with ESP => 0x2fc0 | EBX => 77 | _ => 0 end)
    (λ s, match s with CS => 35 | FS | GS => 0 | _ => 43 end) 0x3000 FL_IF (λ _, 0).
Lemma wuser_ok : core_ok wuser.
Proof. split_and!; [by intros []|by intros []|done|done]. Qed.
Lemma wuser_segs : segs_ok wsegs wuser.
Proof. right. intros s Hs. by destruct s. Qed.

Lemma system_call_is_a_call_witness :
  ∃ c1 c2 c3, steps wcode wlen wvecs wsegs wtop 16 wuser c1 ∧ eip c1 = 0x4000 ∧
    f_eax (get_trapframe (me c1) (load32 (me c1) (rg c1 ESP + 4))) = 16 ∧
    steps wcode wlen wvecs wsegs wtop 16 c2 c3 ∧ rg c3 EAX = 5 ∧ rg c3 EBX = 77 ∧ rg c3 ESP = 0x2fc4.
Proof.
  destruct (system_call_is_a_call wcode wlen wvecs wsegs wtop 16 0x1000 0x4000 wvecs_placed ltac:(by vm_compute)
              SYS_write wuser) as (c1 & H1 & H2 & H3 & H4 & H5 & _ & _ & _ & H6);
    [by vm_compute|exact wuser_ok|exact wuser_segs|done|by vm_compute|by vm_compute|].
  set (tf := load32 (me c1) (rg c1 ESP + 4)) in *.
  set (c2 := mkCore (λ r, match r with ESP => rg c1 ESP + 4 | _ => rg c1 r end) (sg c1) (load32 (me c1) (rg c1 ESP))
    (eflags c1) (store32 (me c1) (tf + tf_eax) 5)).
  destruct (H6 c2 5) as (c3 & S1 & _ & S2 & _); [done|exact (store_eax _ _ _)| |].
  { intros a Ha. apply store32_other. rewrite H3. left. unfold wtop, sizeof_trapframe, tf_eax, KERNBASE in *. lia. }
  exists c1, c2, c3. split_and!; [done|done|exact H5|done|by rewrite S2..].
Defined.

(** The timer, in the kernel. *)
Definition wkernel : core :=
  mkCore (λ r, match r with ESP => 0x8dffe800 | EBX => 77 | _ => 0 end)
    (λ s, match s with CS => 8 | FS | GS => 24 | _ => 16 end) 0x80101234 FL_IF (λ _, 0).
Lemma interrupts_transparent_witness :
  ∃ c0 c1 c2 c3, deliver wvecs wtop 16 32 None wkernel = Some c0 ∧ steps wcode wlen wvecs wsegs wtop 16 c0 c1 ∧
    f_trapno (get_trapframe (me c1) (frame_at wtop wkernel)) = 32 ∧
    steps wcode wlen wvecs wsegs wtop 16 c2 c3 ∧ eip c3 = 0x80101234 ∧ rg c3 EBX = 77 ∧ rg c3 ESP = 0x8dffe800.
Proof.
  destruct (interrupts_transparent wcode wlen wvecs wsegs wtop 16 0x1000 0x4000 wvecs_placed ltac:(by vm_compute)
              32 None wkernel) as (c0 & c1 & H1 & H2 & _ & _ & H3 & _ & H4);
    [lia|split; [by intros [? [=]]|done]|done| |by vm_compute|by left|].
  { split_and!; [by intros []|by intros []|done|done]. }
  destruct (H4 (mkCore (λ r, match r with ESP => rg c1 ESP + 4 | _ => rg c1 r end) (sg c1)
    (load32 (me c1) (rg c1 ESP)) (eflags c1) (me c1))) as (c3 & S1 & _ & S2 & _ & S3 & _); [done|done|].
  eexists c0, c1, _, c3. split_and!; [exact H1|exact H2|by rewrite H3|exact S1|exact S3|by rewrite S2..].
Defined.

(** Two stacks; the context at [0x8dffd000] was saved by an earlier call. *)
Definition wmem : mem := store32 (store32 (λ _, 0) 0x8dffe804 0x80112780) 0x8dffe808 0x8dffd000.
Definition wcaller : core :=
  mkCore (λ r, match r with ESP => 0x8dffe800 | EBX => 77 | _ => 0 end) (sg wkernel) 0x2000 0 wmem.
Lemma swtch_returns_witness :
  ∃ c' d d', steps wcode wlen wvecs wsegs wtop 16 wcaller c' ∧ rg c' ESP = 0x8dffd014 ∧
    steps wcode wlen wvecs wsegs wtop 16 d d' ∧ rg d' ESP = 0x8dffe804 ∧ rg d' EBX = 77.
Proof.
  destruct (swtch_returns wcode wlen wvecs wsegs wtop 16 0x2000 ltac:(by vm_compute) wcaller 0x80112780 0x8dffd000)
    as (c' & H1 & _ & H2 & H3 & H4).
  { unfold calls_swtch, wcaller. cbn [rg eip me].
    split; [split_and!; [by intros []|by intros []|done|done]|]. do 3 (split; [by vm_compute|]). lia. }
  change (rg wcaller ESP) with 0x8dffe800 in *. change (me wcaller) with wmem in *.
  set (d := mkCore (λ r, match r with ESP => 0x8dffd800 | _ => 0 end) (sg wkernel) 0x2000 0
    (store32 (store32 (me c') 0x8dffd804 0x80112784) 0x8dffd808 0x8dffe7f0)).
  destruct (H4 d 0x80112784) as (d' & S1 & _ & S2 & S3).
  - rewrite H3. unfold calls_swtch, d. cbn [rg eip me].
    split; [split_and!; [by intros []|by intros []|done|done]|]. split; [done|]. split.
    { rewrite load32_store32_other by lia. apply load32_store32_eq. }
    split; [apply load32_store32_eq|]. lia.
  - intros a Ha. unfold d. cbn [me]. rewrite !store32_other by lia. done.
  - exists c', d, d'. split_and!; [exact H1|exact H2|exact S1|exact S2|]. apply S3. set_solver.
Defined.
