(* ===== verification/Mp.v ===== *)
(** * The multiprocessor tables (mp.c, mp.h)

    The firmware's description of the processors, read from memory: the
    search for the floating pointer, the checks of the configuration table,
    and the walk over its entries.  Memory is the kernel's view of it, as in
    Machine.v. *)
From S2P Require Import Prelude Machine.
From stdpp Require Import list_numbers.

Open Scope Z_scope.

(** ** Data *)
Definition sizeof_mp : Z := 16.
Definition sizeof_mpconf : Z := 44.
Definition sizeof_mpproc : Z := 20.
Definition sizeof_mpioapic : Z := 8.
Definition MPBOOT : Z := 2.
Definition MPPROC : Z := 0.
Definition MPBUS : Z := 1.
Definition MPIOAPIC : Z := 2.
Definition MPIOINTR : Z := 3.
Definition MPLINTR : Z := 4.

(** [struct mp] and [struct mpconf], at an address *)
Record mp := mkMp { physaddr : Z; imcrp : Z }.
Definition get_mp (m : mem) (p : Z) : mp := mkMp (load32 m (p + 4)) (m (p + 12)).
Record mpconf := mkConf { mc_length : Z; mc_version : Z; mc_lapicaddr : Z }.
Definition get_mpconf (m : mem) (p : Z) : mpconf :=
  mkConf (m (p + 4) + 2 ^ 8 * m (p + 5)) (m (p + 6)) (load32 m (p + 36)).
(** [struct mpproc] and [struct mpioapic] *)
Record mpproc := mkProc { apicid : Z; mp_flags : Z }.
Definition get_mpproc (m : mem) (p : Z) : mpproc := mkProc (m (p + 1)) (m (p + 3)).
Definition get_apicno (m : mem) (p : Z) : Z := m (p + 1).

(** The globals of mp.c and [lapic]; [bcpu] is an index into [cpus], of which
    [cpu_ids] are the fields [id]. *)
Record mpst := mkMpst { ismp : Z; ncpu : Z; ioapicid : Z; lapic : Z; bcpu : Z; cpu_ids : list Z }.
Definition set_ismp (v : Z) (s : mpst) : mpst := mkMpst v (ncpu s) (ioapicid s) (lapic s) (bcpu s) (cpu_ids s).
Definition set_ioapicid (v : Z) (s : mpst) : mpst := mkMpst (ismp s) (ncpu s) v (lapic s) (bcpu s) (cpu_ids s).
Definition set_lapic (v : Z) (s : mpst) : mpst := mkMpst (ismp s) (ncpu s) (ioapicid s) v (bcpu s) (cpu_ids s).
Definition set_bcpu (v : Z) (s : mpst) : mpst := mkMpst (ismp s) (ncpu s) (ioapicid s) (lapic s) v (cpu_ids s).
Definition set_ncpu (v : Z) (s : mpst) : mpst := mkMpst (ismp s) v (ioapicid s) (lapic s) (bcpu s) (cpu_ids s).
Definition mp0 : mpst := mkMpst 0 0 0 0 0 (replicate NCPU 0).

(** ** Operations *)
Definition mpbcpu (s : mpst) : Z := bcpu s.
Fixpoint sum_loop (m : mem) (addr : Z) (len : nat) (s : Z) : Z :=
  match len with O => s | S n => sum_loop m (addr + 1) n (i32 (s + m addr)) end.
Definition sum (m : mem) (addr len : Z) : Z := u8 (sum_loop m addr (Z.to_nat len) 0).
(** [memcmp] with a literal *)
Fixpoint memcmp_lit (m : mem) (s : Z) (l : list Z) : Z :=
  match l with
  | [] => 0
  | c :: l => if m s =? c then memcmp_lit m (s + 1) l else m s - c
  end.
Definition sig_mp : list Z := [95; 77; 80; 95].   (* "_MP_" *)
Definition sig_pcmp : list Z := [80; 67; 77; 80]. (* "PCMP" *)

Fixpoint mpsearch1_loop (m : mem) (n : nat) (p : Z) : Z :=
  match n with
  | O => 0
  | S n =>
      if (memcmp_lit m p sig_mp =? 0) && (sum m p sizeof_mp =? 0) then p
      else mpsearch1_loop m n (u32 (p + sizeof_mp))
  end.
(** The loop of [mpsearch1] runs once per 16 bytes, rounded up. *)
Definition mpsearch1 (m : mem) (a len : Z) : Z :=
  mpsearch1_loop m (Z.to_nat ((len + 15) / 16)) (p2v a).
Definition mpsearch (m : mem) : Z :=
  let bda := p2v 0x400 in
  let p := Z.shiftl (Z.lor (Z.shiftl (m (bda + 0x0F)) 8) (m (bda + 0x0E))) 4 in
  let mp :=
    if truth p then mpsearch1 m p 1024
    else
      let p := Z.lor (Z.shiftl (m (bda + 0x14)) 8) (m (bda + 0x13)) * 1024 in
      mpsearch1 m (u32 (p - 1024)) 1024 in
  if truth mp then mp else mpsearch1 m 0xF0000 0x10000.
(** [mpconfig]: the two structures, when it accepts them. *)
Definition mpconfig (m : mem) : option (Z * Z) :=
  let mp := mpsearch m in
  if (mp =? 0) || (physaddr (get_mp m mp) =? 0) then None
  else
    let conf := p2v (physaddr (get_mp m mp)) in
    if negb (memcmp_lit m conf sig_pcmp =? 0) then None
    else if negb (mc_version (get_mpconf m conf) =? 1) && negb (mc_version (get_mpconf m conf) =? 4) then None
    else if negb (sum m conf (mc_length (get_mpconf m conf)) =? 0) then None
    else Some (mp, conf).

(** One entry: a processor ... *)
Definition mp_proc (m : mem) (p : Z) (s : mpst) : outcome mpst :=
  let proc := get_mpproc m p in
  let s := if ncpu s =? apicid proc then s else set_ismp 0 s in
  let s := if truth (Z.land (mp_flags proc) MPBOOT) then set_bcpu (ncpu s) s else s in
  if ncpu s <? Z.of_nat NCPU then
    Ret (set_ncpu (ncpu s + 1)
      (mkMpst (ismp s) (ncpu s) (ioapicid s) (lapic s) (bcpu s) (<[Z.to_nat (ncpu s) := ncpu s]> (cpu_ids s))))
  else Undef "write past cpus".
(** ... and the loop over all; an entry of an unknown type is not skipped. *)
Fixpoint mp_loop (fuel : nat) (m : mem) (p e : Z) (s : mpst) : outcome mpst :=
  match fuel with
  | O => Diverge
  | S fuel =>
      if p <? e then
        if m p =? MPPROC then
          let* s := mp_proc m p s in
          mp_loop fuel m (u32 (p + sizeof_mpproc)) e s
        else if m p =? MPIOAPIC then
          mp_loop fuel m (u32 (p + sizeof_mpioapic)) e (set_ioapicid (get_apicno m p) s)
        else if (m p =? MPBUS) || (m p =? MPIOINTR) || (m p =? MPLINTR) then
          mp_loop fuel m (u32 (p + 8)) e s
        else mp_loop fuel m p e (set_ismp 0 s)
      else Ret s
  end.
(** [mpinit]: the globals and the bytes written to ports; [imcr] is what port
    0x23 reads. *)
Definition mpinit (fuel : nat) (m : mem) (imcr : Z) : outcome (mpst * list (Z * Z)) :=
  match mpconfig m with
  | None => Ret (mp0, [])
  | Some (mp, conf) =>
      let s := set_lapic (mc_lapicaddr (get_mpconf m conf)) (set_ismp 1 mp0) in
      let* s := mp_loop fuel m (u32 (conf + sizeof_mpconf)) (u32 (conf + mc_length (get_mpconf m conf))) s in
      if negb (truth (ismp s)) then Ret (set_ioapicid 0 (set_lapic 0 (set_ncpu 1 s)), [])
      else if truth (imcrp (get_mp m mp)) then Ret (s, [(0x22, 0x70); (0x23, Z.lor imcr 1)])
      else Ret (s, [])
  end.

(** ** What a table describes *)
Inductive entry := EProc (p : mpproc) | EIoapic (apicno : Z) | EOther (type : Z).
Definition entry_size (e : entry) : Z := match e with EProc _ => 20 | _ => 8 end.
Definition entries_size (es : list entry) : Z := foldr (λ e n, entry_size e + n) 0 es.
Definition entry_at (m : mem) (p : Z) (e : entry) : Prop :=
  match e with
  | EProc q => m p = MPPROC ∧ get_mpproc m p = q
  | EIoapic n => m p = MPIOAPIC ∧ get_apicno m p = n
  | EOther t => m p = t ∧ t ∈ [MPBUS; MPIOINTR; MPLINTR]
  end.
Fixpoint entries_at (m : mem) (p : Z) (es : list entry) : Prop :=
  match es with [] => True | e :: es => entry_at m p e ∧ entries_at m (p + entry_size e) es end.
Definition processors (es : list entry) : list mpproc := omap (λ e, match e with EProc q => Some q | _ => None end) es.
Definition ioapics (es : list entry) : list Z := omap (λ e, match e with EIoapic n => Some n | _ => None end) es.

(** The kernel's numbering is the firmware's: processor [i] has APIC id [k + i]. *)
Definition numbered (k : Z) (qs : list mpproc) : bool := bool_decide (map apicid qs = seqZ k (Z.of_nat (length qs))).
(** The last processor marked as the one that boots, counted from [k]. *)
Fixpoint boots (k : Z) (qs : list mpproc) (d : Z) : Z :=
  match qs with
  | [] => d
  | q :: qs => boots (k + 1) qs (if truth (Z.land (mp_flags q) MPBOOT) then k else d)
  end.
Definition last_or (d : Z) (l : list Z) : Z := foldl (λ _ n, n) d l.

(** The floating pointer structure at [p]: signature, and the bytes add up to 0. *)
Definition mp_here (m : mem) (p : Z) : Prop :=
  (∀ i c, sig_mp !! i = Some c → m (p + Z.of_nat i) = c) ∧
  (foldr Z.add 0 (map (λ i, m (p + Z.of_nat i)) (seq 0 16))) mod 256 = 0.
(** It is the first one in the [len] bytes at [a]; there is none. *)
Definition first_in (m : mem) (a len p : Z) : Prop :=
  ∃ k, p = a + 16 * Z.of_nat k ∧ 16 * Z.of_nat k < len ∧ mp_here m p ∧ ∀ j, (j < k)%nat → ¬ mp_here m (a + 16 * Z.of_nat j).
Definition none_in (m : mem) (a len : Z) : Prop := ∀ j, 16 * Z.of_nat j < len → ¬ mp_here m (a + 16 * Z.of_nat j).

(** ** The search *)
Lemma i32_add_mod x y : (i32 x + y) mod 256 = (x + y) mod 256.
Proof.
  unfold i32, sext. change (2 ^ 32) with 4294967296. change (2 ^ (32 - 1)) with 2147483648. Z.div_mod_to_equations; lia.
Qed.
Lemma sum_loop_spec m n : ∀ a s, u8 (sum_loop m a n s) = (s + foldr Z.add 0 (map (λ i, m (a + Z.of_nat i)) (seq 0 n))) mod 256.
Proof.
  induction n as [|n IH]; intros a s; [cbn; unfold u8; f_equal; lia|].
  cbn [sum_loop seq map foldr]. rewrite IH, <- seq_shift, map_map.
  rewrite (map_ext (λ x, m (a + Z.of_nat (S x))) (λ i, m (a + 1 + Z.of_nat i))) by (intros; f_equal; lia).
  replace (a + Z.of_nat 0) with a by lia. rewrite Z.add_assoc. apply i32_add_mod.
Qed.
Lemma sum_spec m a len : sum m a len = (foldr Z.add 0 (map (λ i, m (a + Z.of_nat i)) (seq 0 (Z.to_nat len)))) mod 256.
Proof. unfold sum. by rewrite sum_loop_spec. Qed.
Lemma memcmp_lit_spec m l : ∀ s, memcmp_lit m s l = 0 ↔ ∀ i c, l !! i = Some c → m (s + Z.of_nat i) = c.
Proof.
  induction l as [|c l IH]; intros s; cbn [memcmp_lit]; [done|].
  destruct (Z.eqb_spec (m s) c) as [Hc|Hc].
  - rewrite IH. split; intros H.
    + intros [|i] d Hi; cbn in Hi; simplify_eq; [by replace (s + Z.of_nat 0) with s by lia|].
      rewrite <- (H i d Hi). f_equal. lia.
    + intros i d Hi. rewrite <- (H (S i) d Hi). f_equal. lia.
  - split; [lia|]. intros H. destruct Hc. rewrite <- (H 0%nat c eq_refl). f_equal. lia.
Qed.
Lemma mp_here_spec m p : (memcmp_lit m p sig_mp =? 0) && (sum m p sizeof_mp =? 0) = true ↔ mp_here m p.
Proof. rewrite andb_true_iff, !Z.eqb_eq, memcmp_lit_spec, sum_spec. done. Qed.
Lemma mpsearch1_loop_spec m n : ∀ a, 0 < a → a + 16 * Z.of_nat n < 2 ^ 32 →
  (mpsearch1_loop m n a = 0 ∧ none_in m a (16 * Z.of_nat n)) ∨ first_in m a (16 * Z.of_nat n) (mpsearch1_loop m n a).
Proof.
  induction n as [|n IH]; intros a Ha Hw; cbn [mpsearch1_loop].
  { left. split; [done|]. intros j Hj. lia. }
  destruct ((memcmp_lit m a sig_mp =? 0) && _) eqn:E.
  - right. exists 0%nat. split_and!; [lia|lia|by apply mp_here_spec|lia].
  - assert (¬ mp_here m a) as Hn by (intros H%mp_here_spec; congruence).
    unfold sizeof_mp. rewrite u32_small by lia.
    assert (∀ j, a + 16 + 16 * Z.of_nat j = a + 16 * Z.of_nat (S j)) as Hj by lia.
    destruct (IH (a + 16)) as [[-> H]|(k & H1 & H2 & H3 & H4)]; [lia|lia| |].
    + left. split; [done|]. intros [|j] Hl; [by replace (a + _) with a by lia|]. rewrite <- Hj. apply H. lia.
    + right. exists (S k). rewrite <- Hj. split_and!; [done|lia|done|].
      intros [|j] Hl; [by replace (a + _) with a by lia|]. rewrite <- Hj. apply H4. lia.
Qed.

(** The area the BIOS data area points to: the extended BIOS data area, or
    else the last kilobyte of base memory. *)
Definition ebda (m : mem) : Z := 16 * (2 ^ 8 * m (p2v 0x400 + 0x0F) + m (p2v 0x400 + 0x0E)).
Definition base_kb (m : mem) : Z := 2 ^ 8 * m (p2v 0x400 + 0x14) + m (p2v 0x400 + 0x13).
Definition area (m : mem) : Z :=
  p2v (if ebda m =? 0 then u32 (1024 * base_kb m - 1024) else ebda m).
Definition first_mp (m : mem) (p : Z) : Prop :=
  first_in m (area m) 1024 p ∨ (none_in m (area m) 1024 ∧ first_in m (p2v 0xF0000) 0x10000 p).
Definition no_mp (m : mem) : Prop := none_in m (area m) 1024 ∧ none_in m (p2v 0xF0000) 0x10000.

Lemma first_in_fun m a len p q : first_in m a len p → first_in m a len q → p = q.
Proof.
  intros (k & -> & _ & H1 & H2) (j & -> & _ & H3 & H4). destruct (Nat.lt_trichotomy k j) as [H|[->|H]]; [|done|].
  - by destruct (H4 k H).
  - by destruct (H2 j H).
Qed.
Lemma first_none m a len p : first_in m a len p → none_in m a len → False.
Proof. intros (k & -> & Hk & H1 & _) Hn. by apply (Hn k). Qed.
Lemma mpsearch1_spec m a len n : len = 16 * Z.of_nat n → 0 < p2v a → p2v a + len < 2 ^ 32 →
  (mpsearch1 m a len = 0 ∧ none_in m (p2v a) len) ∨ (mpsearch1 m a len ≠ 0 ∧ first_in m (p2v a) len (mpsearch1 m a len)).
Proof.
  intros -> Ha Hl. unfold mpsearch1. replace ((16 * Z.of_nat n + 15) / 16) with (Z.of_nat n) by (Z.div_mod_to_equations; lia).
  rewrite Nat2Z.id. destruct (mpsearch1_loop_spec m n (p2v a) Ha Hl) as [H|H]; [by left|right].
  split; [|done]. destruct H as (k & -> & _). lia.
Qed.
Lemma area_bounds m : mem_ok m → 0 < area m ∧ area m + 1024 < 2 ^ 32.
Proof.
  intros Hm. unfold area, p2v, KERNBASE. pose proof (Hm (p2v 0x400 + 0x0F)). pose proof (Hm (p2v 0x400 + 0x0E)).
  pose proof (Hm (p2v 0x400 + 0x14)). pose proof (Hm (p2v 0x400 + 0x13)). unfold byte_ok, ebda, base_kb in *.
  set (x := m _) in *. set (y := m _) in *. set (z := m (_ + 0x14)) in *. set (w := m (_ + 0x13)) in *.
  unfold u32. destruct (16 * _ =? 0); Z.div_mod_to_equations; lia.
Qed.
Lemma mpsearch_spec m : mem_ok m →
  (mpsearch m = 0 ∧ no_mp m) ∨ (mpsearch m ≠ 0 ∧ first_mp m (mpsearch m)).
Proof.
  intros Hm. destruct (area_bounds m Hm) as [A1 A2].
  assert (mpsearch m = let mp := mpsearch1 m (if ebda m =? 0 then u32 (1024 * base_kb m - 1024) else ebda m) 1024 in
    if truth mp then mp else mpsearch1 m 0xF0000 0x10000) as ->.
  { unfold mpsearch. cbv zeta. rewrite !lor_shiftl_add by (apply Hm || lia).
    replace (Z.shiftl _ 4) with (ebda m) by (rewrite Z.shiftl_mul_pow2 by lia; unfold ebda; lia).
    replace (_ * 1024) with (1024 * base_kb m) by (unfold base_kb; lia).
    unfold truth. by destruct (ebda m =? 0). }
  cbv zeta. destruct (mpsearch1_spec m (if ebda m =? 0 then u32 (1024 * base_kb m - 1024) else ebda m) 1024 64) as [[H1 H2]|[H1 H2]];
    [done|exact A1|exact A2| |].
  - rewrite H1. change (truth 0) with false. cbv iota.
    destruct (mpsearch1_spec m 0xF0000 0x10000 4096) as [[H3 H4]|[H3 H4]]; [done|by vm_compute|by vm_compute| |].
    + left. exact (conj H3 (conj H2 H4)).
    + right. exact (conj H3 (or_intror (conj H2 H4))).
  - rewrite (proj2 (truth_true _) H1). right. exact (conj H1 (or_introl H2)).
Qed.
Lemma mpsearch_first m p : mem_ok m → first_mp m p → mpsearch m = p ∧ p ≠ 0.
Proof.
  intros Hm Hp. destruct (mpsearch_spec m Hm) as [[_ [H1 H2]]|[H0 H]].
  - destruct Hp as [Hp|[_ Hp]]; by destruct (first_none _ _ _ _ Hp).
  - enough (mpsearch m = p) by (split; congruence).
    destruct H as [H|[H1 H]], Hp as [Hp|[H2 Hp]].
    1, 4: by eapply first_in_fun.
    all: by destruct (first_none m (area m) 1024 _ ltac:(eassumption)).
Qed.

(** ** The entries *)
Lemma mp_proc_spec m p s q : get_mpproc m p = q → 0 ≤ ncpu s < Z.of_nat NCPU →
  mp_proc m p s = Ret (mkMpst (if ncpu s =? apicid q then ismp s else 0) (ncpu s + 1) (ioapicid s) (lapic s)
    (if truth (Z.land (mp_flags q) MPBOOT) then ncpu s else bcpu s) (<[Z.to_nat (ncpu s) := ncpu s]> (cpu_ids s))).
Proof.
  intros Hq Hn. unfold mp_proc. rewrite Hq. destruct s as [a n b c d l]. cbn [ncpu] in Hn |- *.
  destruct (n =? apicid q), (truth _); cbn [ncpu set_ismp set_bcpu ismp ioapicid lapic bcpu cpu_ids];
    by rewrite (proj2 (Z.ltb_lt n (Z.of_nat NCPU)) (proj2 Hn)).
Qed.
Lemma numbered_cons k q qs : numbered k (q :: qs) = (k =? apicid q) && numbered (k + 1) qs.
Proof.
  unfold numbered. cbn [map length]. rewrite Nat2Z.inj_succ, seqZ_cons by lia.
  replace (Z.pred (Z.succ (Z.of_nat (length qs)))) with (Z.of_nat (length qs)) by lia.
  replace (Z.succ k) with (k + 1) by lia. destruct (Z.eqb_spec k (apicid q)) as [->|Hne]; cbn [andb].
  - apply bool_decide_ext. split; [by intros [= ?]|by intros ->].
  - apply bool_decide_eq_false. intros [= ? ?]. congruence.
Qed.
Lemma entries_size_nonneg es : 0 ≤ entries_size es.
Proof. unfold entries_size. induction es as [|[] es IH]; cbn [foldr entry_size]; lia. Qed.
Lemma mp_loop_spec m es : ∀ fuel p s, entries_at m p es → (length es < fuel)%nat → 0 ≤ p → p + entries_size es < 2 ^ 32 →
  0 ≤ ncpu s → ncpu s + Z.of_nat (length (processors es)) ≤ Z.of_nat NCPU → length (cpu_ids s) = NCPU →
  ∃ ids, mp_loop fuel m p (p + entries_size es) s =
    Ret (mkMpst (if numbered (ncpu s) (processors es) then ismp s else 0)
      (ncpu s + Z.of_nat (length (processors es))) (last_or (ioapicid s) (ioapics es)) (lapic s)
      (boots (ncpu s) (processors es) (bcpu s)) ids) ∧
    length ids = NCPU ∧
    ∀ i : nat, Z.of_nat i < ncpu s + Z.of_nat (length (processors es)) →
      ids !! i = if Z.of_nat i <? ncpu s then cpu_ids s !! i else Some (Z.of_nat i).
Proof.
  induction es as [|e es IH]; intros [|fuel] p s He Hf Hp Hw Hn Hc Hl; cbn [length] in Hf; try lia.
  { cbn [entries_size foldr processors omap list_omap ioapics last_or foldl boots length mp_loop].
    rewrite (proj2 (Z.ltb_ge p (p + 0))) by lia. exists (cpu_ids s). split_and!; [|done|].
    - f_equal. destruct s. cbn. f_equal. lia.
    - intros i Hi. rewrite (proj2 (Z.ltb_lt _ _)) by lia. done. }
  destruct He as [He Hes]. cbn [mp_loop]. change (entries_size (e :: es)) with (entry_size e + entries_size es) in *.
  assert (0 ≤ entries_size es) as Hz by apply entries_size_nonneg.
  assert (0 < entry_size e) as Hz' by (destruct e; cbn; lia).
  rewrite (proj2 (Z.ltb_lt p (p + (entry_size e + entries_size es)))) by lia.
  replace (p + (entry_size e + entries_size es)) with (p + entry_size e + entries_size es) by lia.
  destruct e as [q|n|t]; cbn [entry_at entry_size] in *.
  - destruct He as [-> Hq]. change (MPPROC =? MPPROC) with true. cbv iota.
    cbn [processors omap list_omap length] in Hc. fold (processors es) in Hc.
    rewrite (mp_proc_spec m p s q Hq) by lia. cbn [obind]. unfold sizeof_mpproc. rewrite u32_small by lia.
    set (s1 := mkMpst _ _ _ _ _ _).
    destruct (IH fuel (p + 20) s1) as (ids & -> & H1 & H2);
      [done|lia|lia|lia|cbn [s1 ncpu]; lia|cbn [s1 ncpu]; lia|cbn [s1 cpu_ids]; by rewrite length_insert|].
    exists ids. cbn [s1 ncpu ismp ioapicid lapic bcpu cpu_ids] in *. clear s1.
    change (processors (EProc q :: es)) with (q :: processors es). change (ioapics (EProc q :: es)) with (ioapics es).
    rewrite numbered_cons. cbn [boots length]. split_and!; [|done|].
    + f_equal. f_equal; [|lia]. by destruct (_ =? _), (numbered _ _).
    + intros i Hi. rewrite H2 by lia. destruct (Z.ltb_spec (Z.of_nat i) (ncpu s + 1)), (Z.ltb_spec (Z.of_nat i) (ncpu s)); try lia.
      * by rewrite list_lookup_insert_ne by lia.
      * replace (Z.to_nat (ncpu s)) with i by lia. rewrite list_lookup_insert_eq by (unfold NCPU in *; lia). f_equal. lia.
      * done.
  - destruct He as [-> Hq]. change (MPIOAPIC =? MPPROC) with false. change (MPIOAPIC =? MPIOAPIC) with true. cbv iota.
    unfold sizeof_mpioapic. rewrite u32_small, Hq by lia. apply (IH fuel (p + 8) (set_ioapicid _ s)); try done; lia.
  - destruct He as [Ht Hin]. assert (t = 1 ∨ t = 3 ∨ t = 4) as Hin' by (rewrite !elem_of_cons, elem_of_nil in Hin; unfold MPBUS, MPIOINTR, MPLINTR in Hin; tauto).
    assert ((m p =? MPPROC) = false ∧ (m p =? MPIOAPIC) = false ∧
      (m p =? MPBUS) || (m p =? MPIOINTR) || (m p =? MPLINTR) = true) as (-> & -> & ->).
    { rewrite Ht. by destruct Hin' as [->|[->| ->]]. }
    rewrite u32_small by lia. apply (IH fuel (p + 8) s); try done; lia.
Qed.

(** An entry of an unknown type is met again and again. *)
Lemma mp_unknown_diverges m p e fuel : p < e → m p ∉ [MPPROC; MPBUS; MPIOAPIC; MPIOINTR; MPLINTR] →
  ∀ s, mp_loop fuel m p e s = Diverge.
Proof.
  intros Hp Hm. induction fuel as [|fuel IH]; intros s; cbn [mp_loop]; [done|].
  rewrite (proj2 (Z.ltb_lt p e) Hp). rewrite !not_elem_of_cons in Hm. destruct Hm as (H1 & H2 & H3 & H4 & H5 & _).
  rewrite !(proj2 (Z.eqb_neq _ _)) by done. cbn [orb]. apply IH.
Qed.
Lemma mp_stuck m e es : ∀ fuel p s, entries_at m p es → 0 ≤ p → p + entries_size es < e < 2 ^ 32 →
  m (p + entries_size es) ∉ [MPPROC; MPBUS; MPIOAPIC; MPIOINTR; MPLINTR] →
  0 ≤ ncpu s → ncpu s + Z.of_nat (length (processors es)) ≤ Z.of_nat NCPU → mp_loop fuel m p e s = Diverge.
Proof.
  induction es as [|x es IH]; intros fuel p s He Hp Hw Hm Hn Hc.
  { cbn [entries_size foldr] in Hw, Hm. rewrite Z.add_0_r in Hw, Hm. apply mp_unknown_diverges; [lia|done]. }
  destruct fuel as [|fuel]; [done|].
  destruct He as [He Hes]. cbn [mp_loop]. change (entries_size (x :: es)) with (entry_size x + entries_size es) in *.
  assert (0 ≤ entries_size es) as Hz by apply entries_size_nonneg.
  assert (0 < entry_size x ≤ 20) as Hz' by (destruct x; cbn; lia).
  rewrite (proj2 (Z.ltb_lt p e)) by lia. rewrite Z.add_assoc in Hw, Hm.
  destruct x as [q|n|t]; cbn [entry_at entry_size] in *.
  - destruct He as [-> Hq]. change (MPPROC =? MPPROC) with true. cbv iota.
    cbn [processors omap list_omap length] in Hc. fold (processors es) in Hc.
    rewrite (mp_proc_spec m p s q Hq) by lia. cbn [obind]. unfold sizeof_mpproc. rewrite u32_small by lia.
    apply IH; [done|lia|lia|done|cbn [ncpu]; lia..].
  - destruct He as [-> Hq]. change (MPIOAPIC =? MPPROC) with false. change (MPIOAPIC =? MPIOAPIC) with true. cbv iota.
    unfold sizeof_mpioapic. rewrite u32_small by lia. apply IH; [done|lia|lia|done|exact Hn|exact Hc].
  - destruct He as [Ht Hin]. assert (t = 1 ∨ t = 3 ∨ t = 4) as Hin' by (rewrite !elem_of_cons, elem_of_nil in Hin; unfold MPBUS, MPIOINTR, MPLINTR in Hin; tauto).
    assert ((m p =? MPPROC) = false ∧ (m p =? MPIOAPIC) = false ∧
      (m p =? MPBUS) || (m p =? MPIOINTR) || (m p =? MPLINTR) = true) as (-> & -> & ->).
    { rewrite Ht. by destruct Hin' as [->|[->| ->]]. }
    rewrite u32_small by lia. apply IH; [done|lia|lia|done|exact Hn|exact Hc].
Qed.

(** ** The whole *)
(** The length of the configuration table at [a], and that it is one: its
    signature, version and checksum. *)
Definition conf_length (m : mem) (a : Z) : Z := m (a + 4) + 2 ^ 8 * m (a + 5).
Definition table_ok (m : mem) (a : Z) : Prop :=
  (∀ i c, sig_pcmp !! i = Some c → m (a + Z.of_nat i) = c) ∧ m (a + 6) ∈ [1; 4] ∧
  (foldr Z.add 0 (map (λ i, m (a + Z.of_nat i)) (seq 0 (Z.to_nat (conf_length m a))))) mod 256 = 0.
(** [mpconfig] finds it, if it is one. *)
Lemma mpconfig_spec m p : mem_ok m → first_mp m p → let a := p2v (load32 m (p + 4)) in
  (load32 m (p + 4) ≠ 0 ∧ table_ok m a → mpconfig m = Some (p, a)) ∧
  (load32 m (p + 4) = 0 ∨ ¬ table_ok m a → mpconfig m = None).
Proof.
  intros Hm Hf a. destruct (mpsearch_first m p Hm Hf) as [Hs Hp].
  unfold mpconfig, get_mp, get_mpconf. rewrite Hs. cbn [physaddr mc_version mc_length].
  rewrite (proj2 (Z.eqb_neq p 0) Hp). cbn [orb]. fold a. change (m (a + 4) + 2 ^ 8 * m (a + 5)) with (conf_length m a).
  rewrite sum_spec. unfold table_ok. rewrite <- memcmp_lit_spec, !elem_of_cons, elem_of_nil.
  destruct (Z.eqb_spec (load32 m (p + 4)) 0); [tauto|]. destruct (Z.eqb_spec (memcmp_lit m a sig_pcmp) 0); cbn [negb]; [|tauto].
  destruct (Z.eqb_spec (m (a + 6)) 1), (Z.eqb_spec (m (a + 6)) 4); cbn [negb andb]; try tauto;
    destruct (Z.eqb_spec (foldr Z.add 0 (map (λ i, m (a + Z.of_nat i)) (seq 0 (Z.to_nat (conf_length m a)))) mod 256) 0); tauto.
Qed.

(** Claim C33: [mpinit] learns what the tables say.  When no floating pointer
    structure is where the kernel looks, or the first one found points to
    nothing that is a table (its signature, version or checksum is wrong),
    nothing is found.  Otherwise let its entries of the types the kernel knows,
    up to the end of the table or to the first entry of another type, hold at
    most [NCPU] processors.  If they are all the entries, [mpinit] ends: when
    the processors are numbered from 0 in their order, it has their number, the
    one that boots (the last marked one), the address of the local APIC and the
    id of the last I/O APIC, every processor has its number, and the interrupt
    mode register is set when there is one; when they are not, it has one
    processor and no APIC.  If an entry of another type follows, [mpinit] never
    ends. *)
Theorem mpinit_reads_tables m : mem_ok m →
  (no_mp m → ∀ fuel imcr, mpinit fuel m imcr = Ret (mp0, [])) ∧
  ∀ p, first_mp m p →
    let a := p2v (load32 m (p + 4)) in
    (load32 m (p + 4) = 0 ∨ ¬ table_ok m a → ∀ fuel imcr, mpinit fuel m imcr = Ret (mp0, [])) ∧
    ∀ es imcr, load32 m (p + 4) ≠ 0 → table_ok m a → a + 2 ^ 16 < 2 ^ 32 → entries_at m (a + 44) es →
      let qs := processors es in
      let n := Z.of_nat (length qs) in
      let rest := a + 44 + entries_size es in
      n ≤ Z.of_nat NCPU →
      (conf_length m a = 44 + entries_size es → ∀ fuel, (length es < fuel)%nat →
         ∃ ids, (∀ i : nat, Z.of_nat i < n → ids !! i = Some (Z.of_nat i)) ∧
           mpinit fuel m imcr = Ret
             (if numbered 0 qs then
                (mkMpst 1 n (last_or 0 (ioapics es)) (load32 m (a + 36)) (boots 0 qs 0) ids,
                 if truth (m (p + 12)) then [(0x22, 0x70); (0x23, Z.lor imcr 1)] else [])
              else (mkMpst 0 1 0 0 (boots 0 qs 0) ids, []))) ∧
      (44 + entries_size es < conf_length m a → m rest ∉ [MPPROC; MPBUS; MPIOAPIC; MPIOINTR; MPLINTR] →
         ∀ fuel, mpinit fuel m imcr = Diverge).
Proof.
  intros Hm. split.
  { intros Hno fuel imcr. unfold mpinit, mpconfig.
    destruct (mpsearch_spec m Hm) as [[-> _]|[_ [H|[_ H]]]]; [done|..]; by destruct (first_none _ _ _ _ H); destruct Hno. }
  intros p Hf a. destruct (mpconfig_spec m p Hm Hf) as [Hyes Hno]. fold a in Hyes, Hno. split.
  { intros Hbad fuel imcr. unfold mpinit. by rewrite Hno. }
  intros es imcr Hph Ht Ha He qs n rest Hn. unfold mpinit. rewrite Hyes by done. unfold get_mpconf, get_mp. cbn [mc_length mc_lapicaddr imcrp].
  change (m (a + 4) + 2 ^ 8 * m (a + 5)) with (conf_length m a).
  pose proof (entries_size_nonneg es) as Hz.
  assert (0 ≤ conf_length m a < 2 ^ 16) as Hc by (pose proof (Hm (a + 4)); pose proof (Hm (a + 5)); unfold conf_length, byte_ok in *; lia).
  assert (0 ≤ a) as Ha0 by apply u32_range. unfold sizeof_mpconf. rewrite !u32_small by lia. split.
  - intros Hlen fuel Hfu. rewrite Hlen. replace (a + (44 + entries_size es)) with (a + 44 + entries_size es) by lia.
    destruct (mp_loop_spec m es fuel (a + 44) (set_lapic (load32 m (a + 36)) (set_ismp 1 mp0))) as (ids & -> & _ & Hids);
      [done|lia|lia|lia|done|exact Hn|done|].
    cbn [ncpu ismp ioapicid lapic bcpu cpu_ids set_lapic set_ismp mp0] in *. fold qs in Hids |- *.
    exists ids. split.
    + intros i Hi. rewrite Hids by exact Hi. by rewrite (proj2 (Z.ltb_ge (Z.of_nat i) 0)) by lia.
    + destruct (numbered 0 qs); cbn; [|done]. by destruct (truth (m (p + 12))).
  - intros Hlen Hun fuel. by rewrite (mp_stuck m (a + conf_length m a) es) by (done || lia).
Qed.
(** Two processors, a bus and an I/O APIC; the floating pointer is at the end
    of 639 kilobytes of base memory. *)
Definition wpart (a : Z) (l : list Z) (b : Z) : option Z := if (a <=? b) && (b <? a + Z.of_nat (length l)) then l !! Z.to_nat (b - a) else None.
Definition wtable : list Z :=
  sig_pcmp ++ [100; 0; 4; 136] ++ replicate 28 0 ++ [0; 0; 0xE0; 0xFE; 0; 0; 0; 0] ++
  [0; 0; 20; 3] ++ replicate 16 0 ++ [0; 1; 20; 1] ++ replicate 16 0 ++ [1; 0; 0; 0; 0; 0; 0; 0] ++
  [2; 2; 17; 1; 0; 0; 0xC0; 0xFE].
Definition wmem : mem := λ b,
  default 0 (match wpart 0x80000413 [0x7F; 0x02] b with Some c => Some c | None =>
             match wpart 0x8009F800 (sig_mp ++ [0x00; 0x10; 0x0F; 0x00; 1; 4; 1; 0; 0x80; 0; 0; 0]) b with Some c => Some c | None =>
             wpart 0x800F1000 wtable b end end).
Definition wentries : list entry := [EProc (mkProc 0 3); EProc (mkProc 1 1); EOther 1; EIoapic 2].
Lemma wmem_ok : mem_ok wmem.
Proof.
  assert (∀ a l, Forall byte_ok l → ∀ b c, wpart a l b = Some c → byte_ok c) as H.
  { intros a l Hl b c. unfold wpart. destruct ((a <=? b) && _); [|done]. intros Hc. by eapply Forall_lookup_1. }
  intros b. unfold wmem. repeat case_match; simplify_eq; cbn [default from_option id]; try (eapply H; [|eassumption]).
  all: try (repeat constructor; unfold byte_ok; lia). destruct (wpart 0x800F1000 wtable b) eqn:E; [|by vm_compute].
  eapply H; [|exact E]. unfold wtable. repeat constructor; unfold byte_ok; lia.
Qed.
Lemma wtable_ok : table_ok wmem 0x800F1000.
Proof.
  split; [intros [|[|[|[|i]]]] c Hc; (discriminate Hc || (injection Hc as <-; by vm_compute))|].
  split; [rewrite !elem_of_cons; right; left; by vm_compute|]. by vm_compute.
Qed.
Lemma wentries_at : entries_at wmem (0x800F1000 + 44) wentries.
Proof.
  split; [by vm_compute|]. split; [by vm_compute|]. split; [split; [by vm_compute|rewrite !elem_of_cons; by left]|]. by vm_compute.
Qed.
Lemma mpinit_reads_tables_witness :
  ∃ ids, mpinit 10 wmem 0 = Ret (mkMpst 1 2 2 0xFEE00000 0 ids, [(0x22, 0x70); (0x23, 1)]).
Proof.
  destruct (mpinit_reads_tables wmem wmem_ok) as [_ H]. destruct (H 0x8009F800) as [_ H1].
  { destruct (mpsearch_spec wmem wmem_ok) as [[E _]|[_ E]]; [by vm_compute in E|].
    replace 0x8009F800 with (mpsearch wmem) by (by vm_compute). exact E. }
  change (p2v _) with 0x800F1000 in H1.
  destruct (H1 wentries 0) as [H2 _]; [by vm_compute|exact wtable_ok|by vm_compute|exact wentries_at|by vm_compute|].
  destruct (H2 ltac:(by vm_compute) 10%nat) as (ids & _ & Hi); [cbn; lia|]. exists ids. rewrite Hi. reflexivity.
Defined.

(** A ninth processor is written past [cpus]. *)
Lemma mp_ninth_processor m p s : ncpu s = Z.of_nat NCPU → mp_proc m p s = Undef "write past cpus".
Proof.
  intros Hn. destruct s. unfold mp_proc. cbn [ncpu] in *. subst. by destruct (_ =? _), (truth _).
Qed.
