(* ===== verification/Intr.v ===== *)
(** * Interrupt controllers, timer and serial port (picirq.c, ioapic.c, lapic.c, timer.c, uart.c)

    The drivers run against the devices they program: the two 8259A
    controllers, which take their initialization words one after the other,
    the interval timer, the serial port, and the registers of the I/O APIC and
    of the local APIC.  [devs] holds the state of all of them and the
    variables of the drivers. *)
From S2P Require Import Prelude Machine Mmu Mp.

Open Scope Z_scope.

(** ** The devices *)
(** An 8259A: [p_stage] is the number of the initialization word its data port
    expects, 0 when that port is the mask. *)
Record pic := mkPic { p_stage : nat; p_base : Z; p_slaves : Z; p_icw4 : Z; p_mask : Z }.
Definition pic_command (v : Z) (p : pic) : pic :=
  if Z.testbit v 4 then mkPic 2 (p_base p) (p_slaves p) (p_icw4 p) 0 else p.
Definition pic_data (v : Z) (p : pic) : pic :=
  match p_stage p with
  | 2%nat => mkPic 3 (Z.land v 0xf8) (p_slaves p) (p_icw4 p) (p_mask p)
  | 3%nat => mkPic 4 (p_base p) v (p_icw4 p) (p_mask p)
  | 4%nat => mkPic 0 (p_base p) (p_slaves p) v (p_mask p)
  | _ => mkPic (p_stage p) (p_base p) (p_slaves p) (p_icw4 p) v
  end.
(** The interval timer: its mode, and the bytes written to its counter since. *)
Record pit := mkPit { t_mode : Z; t_bytes : list Z }.
(** The serial port: [u_wait] reads of the status before the next byte can be
    sent, and [u_slow] of them after each byte; a byte written before is lost;
    the bytes that have come in. *)
Record uartd := mkUart { u_there : bool; u_lcr : Z; u_div : Z; u_ier : Z; u_wait : nat; u_slow : nat; u_sent : list Z; u_in : list Z }.
Definition uart_out (r v : Z) (u : uartd) : uartd :=
  let '(mkUart p lcr d ier w sl out i) := u in
  if r =? 3 then mkUart p v d ier w sl out i
  else if (r =? 0) && Z.testbit lcr 7 then mkUart p lcr (2 ^ 8 * (d / 2 ^ 8) + v) ier w sl out i
  else if (r =? 1) && Z.testbit lcr 7 then mkUart p lcr (2 ^ 8 * v + d mod 2 ^ 8) ier w sl out i
  else if r =? 1 then mkUart p lcr d v w sl out i
  else if r =? 0 then match w with O => mkUart p lcr d ier sl sl (out ++ [v]) i | S _ => u end
  else u.
Definition uart_in (r : Z) (u : uartd) : Z * uartd :=
  let '(mkUart p lcr d ier w sl out i) := u in
  if negb p then (0xFF, u)
  else if r =? 5 then
    (Z.lor (match w with O => 0x20 | _ => 0 end) (match i with [] => 0 | _ => 1 end), mkUart p lcr d ier (pred w) sl out i)
  else if r =? 0 then (match i with c :: _ => c | [] => 0 end, mkUart p lcr d ier w sl out (tail i))
  else (0, u).
(** The I/O APIC: the selected register, and all of them. *)
Record ioapicd := mkIoapic { io_reg : Z; io_regs : Z → Z }.
(** A local APIC: after a command the delivery status is set for some reads;
    the commands that were sent, with their destinations. *)
Record lapicd := mkLapic { l_regs : Z → Z; l_wait : nat; l_slow : nat; l_sent : list (Z * Z) }.

(** All devices and the variables of the drivers; [d_mp] are the globals of mp.c. *)
Record devs := mkDevs {
  d_pic1 : pic; d_pic2 : pic; d_pit : pit; d_uart : uartd; d_io : ioapicd; d_la : lapicd; d_cmos : list (Z * Z); d_wrv : Z * Z;
  d_mp : mpst; d_irqmask : Z; d_hasuart : Z }.
Abbreviation D := (M devs).
Definition upd (f : devs → devs) : D unit := modify f.
Definition set_pic1 (x : pic) (s : devs) : devs :=
  let '(mkDevs a b c u i l o w k m h) := s in mkDevs x b c u i l o w k m h.
Definition set_pic2 (x : pic) (s : devs) : devs :=
  let '(mkDevs a b c u i l o w k m h) := s in mkDevs a x c u i l o w k m h.
Definition set_pit (x : pit) (s : devs) : devs :=
  let '(mkDevs a b c u i l o w k m h) := s in mkDevs a b x u i l o w k m h.
Definition set_uart (x : uartd) (s : devs) : devs :=
  let '(mkDevs a b c u i l o w k m h) := s in mkDevs a b c x i l o w k m h.
Definition set_io (x : ioapicd) (s : devs) : devs :=
  let '(mkDevs a b c u i l o w k m h) := s in mkDevs a b c u x l o w k m h.
Definition set_la (x : lapicd) (s : devs) : devs :=
  let '(mkDevs a b c u i l o w k m h) := s in mkDevs a b c u i x o w k m h.
Definition set_cmos (x : list (Z * Z)) (s : devs) : devs :=
  let '(mkDevs a b c u i l o w k m h) := s in mkDevs a b c u i l x w k m h.
Definition set_wrv (x : Z * Z) (s : devs) : devs :=
  let '(mkDevs a b c u i l o w k m h) := s in mkDevs a b c u i l o x k m h.
Definition set_irqmask (x : Z) (s : devs) : devs :=
  let '(mkDevs a b c u i l o w k m h) := s in mkDevs a b c u i l o w k x h.
Definition set_hasuart (x : Z) (s : devs) : devs :=
  let '(mkDevs a b c u i l o w k m h) := s in mkDevs a b c u i l o w k m x.

(** ** Ports *)
Definition IO_PIC1 : Z := 0x20.
Definition IO_PIC2 : Z := 0xA0.
Definition IO_TIMER1 : Z := 0x40.
Definition COM1 : Z := 0x3f8.
Definition CMOS_PORT : Z := 0x70.
Definition outb (port v : Z) : D unit :=
  let v := u8 v in
  if port =? IO_PIC1 then upd (λ s, set_pic1 (pic_command v (d_pic1 s)) s)
  else if port =? IO_PIC1 + 1 then upd (λ s, set_pic1 (pic_data v (d_pic1 s)) s)
  else if port =? IO_PIC2 then upd (λ s, set_pic2 (pic_command v (d_pic2 s)) s)
  else if port =? IO_PIC2 + 1 then upd (λ s, set_pic2 (pic_data v (d_pic2 s)) s)
  else if port =? IO_TIMER1 + 3 then upd (set_pit (mkPit v []))
  else if port =? IO_TIMER1 then upd (λ s, set_pit (mkPit (t_mode (d_pit s)) (t_bytes (d_pit s) ++ [v])) s)
  else if (COM1 <=? port) && (port <? COM1 + 8) then upd (λ s, set_uart (uart_out (port - COM1) v (d_uart s)) s)
  else if (CMOS_PORT <=? port) && (port <=? CMOS_PORT + 1) then upd (λ s, set_cmos (d_cmos s ++ [(port, v)]) s)
  else skip.
Definition inb (port : Z) : D Z :=
  if (COM1 <=? port) && (port <? COM1 + 8) then
    λ s, let '(v, u) := uart_in (port - COM1) (d_uart s) in Ret (v, set_uart u s)
  else ret 0.

(** ** picirq.c *)
Definition IRQ_SLAVE : Z := 2.
Definition irqmask0 : Z := Z.land 0xFFFF (Z.lnot (Z.shiftl 1 IRQ_SLAVE)).
Definition picsetmask (mask : Z) : D unit :=
  upd (set_irqmask mask) ;!
  outb (IO_PIC1 + 1) mask ;!
  outb (IO_PIC2 + 1) (Z.shiftr mask 8).
Definition picenable (irq : Z) : D unit :=
  let! m := gets d_irqmask in
  picsetmask (u16 (Z.land m (Z.lnot (Z.shiftl 1 irq)))).
Definition picinit : D unit :=
  outb (IO_PIC1 + 1) 0xFF ;!
  outb (IO_PIC2 + 1) 0xFF ;!
  outb IO_PIC1 0x11 ;!
  outb (IO_PIC1 + 1) T_IRQ0 ;!
  outb (IO_PIC1 + 1) (Z.shiftl 1 IRQ_SLAVE) ;!
  outb (IO_PIC1 + 1) 0x3 ;!
  outb IO_PIC2 0x11 ;!
  outb (IO_PIC2 + 1) (T_IRQ0 + 8) ;!
  outb (IO_PIC2 + 1) IRQ_SLAVE ;!
  outb (IO_PIC2 + 1) 0x3 ;!
  outb IO_PIC1 0x68 ;!
  outb IO_PIC1 0x0a ;!
  outb IO_PIC2 0x68 ;!
  outb IO_PIC2 0x0a ;!
  let! m := gets d_irqmask in
  if negb (m =? 0xFFFF) then picsetmask m else skip.

(** ** ioapic.c *)
Definition REG_ID : Z := 0x00.
Definition REG_VER : Z := 0x01.
Definition REG_TABLE : Z := 0x10.
Definition INT_DISABLED : Z := 0x00010000.
Definition ioapicread (reg : Z) : D Z :=
  upd (λ s, set_io (mkIoapic reg (io_regs (d_io s))) s) ;!
  gets (λ s, io_regs (d_io s) (io_reg (d_io s))).
Definition ioapicwrite (reg data : Z) : D unit :=
  upd (λ s, set_io (mkIoapic reg (io_regs (d_io s))) s) ;!
  upd (λ s, set_io (mkIoapic (io_reg (d_io s))
    (λ r, if r =? io_reg (d_io s) then u32 data else io_regs (d_io s) r)) s).
Definition ioapicinit : D unit :=
  let! k := gets d_mp in
  if negb (truth (ismp k)) then skip
  else
    let! v := ioapicread REG_VER in
    let maxintr := Z.land (Z.shiftr v 16) 0xFF in
    ioapicread REG_ID ;!
    for_each (seq 0 (Z.to_nat (maxintr + 1))) (λ i,
      ioapicwrite (REG_TABLE + 2 * Z.of_nat i) (Z.lor INT_DISABLED (T_IRQ0 + Z.of_nat i)) ;!
      ioapicwrite (REG_TABLE + 2 * Z.of_nat i + 1) 0).
Definition ioapicenable (irq cpunum : Z) : D unit :=
  let! k := gets d_mp in
  if negb (truth (ismp k)) then skip
  else
    ioapicwrite (REG_TABLE + 2 * irq) (T_IRQ0 + irq) ;!
    ioapicwrite (REG_TABLE + 2 * irq + 1) (Z.shiftl cpunum 24).

(** ** timer.c *)
Definition TIMER_FREQ : Z := 1193182.
Definition TIMER_DIV (x : Z) : Z := (TIMER_FREQ + x / 2) / x.
Definition TIMER_MODE : Z := IO_TIMER1 + 3.
Definition timerinit : D unit :=
  outb TIMER_MODE (Z.lor (Z.lor 0x00 0x04) 0x30) ;!
  outb IO_TIMER1 (TIMER_DIV 100 mod 256) ;!
  outb IO_TIMER1 (TIMER_DIV 100 / 256) ;!
  picenable IRQ_TIMER.

(** ** uart.c *)
Fixpoint uart_poll (n : nat) : D unit :=
  match n with
  | O => skip
  | S n => let! r := inb (COM1 + 5) in if negb (truth (Z.land r 0x20)) then uart_poll n else skip
  end.
Definition uartputc (c : Z) : D unit :=
  let! u := gets d_hasuart in
  if negb (truth u) then skip
  else uart_poll 128 ;! outb (COM1 + 0) c.
Definition uartgetc : D Z :=
  let! u := gets d_hasuart in
  if negb (truth u) then ret (-1)
  else
    let! r := inb (COM1 + 5) in
    if negb (truth (Z.land r 0x01)) then ret (-1) else inb (COM1 + 0).
Definition banner : list Z := [120; 118; 54; 46; 46; 46; 10]. (* "xv6...\n" *)
(** FIFO off; 9600 baud, 8 data bits, 1 stop bit, parity off; receive interrupts. *)
Definition uart_setup : D unit :=
  outb (COM1 + 2) 0 ;!
  outb (COM1 + 3) 0x80 ;!
  outb (COM1 + 0) (115200 / 9600) ;!
  outb (COM1 + 1) 0 ;!
  outb (COM1 + 3) 0x03 ;!
  outb (COM1 + 4) 0 ;!
  outb (COM1 + 1) 0x01.
Definition uartinit : D unit :=
  uart_setup ;!
  let! r := inb (COM1 + 5) in
  if r =? 0xFF then skip
  else
    upd (set_hasuart 1) ;!
    inb (COM1 + 2) ;!
    inb (COM1 + 0) ;!
    picenable IRQ_COM1 ;!
    ioapicenable IRQ_COM1 0 ;!
    for_each banner uartputc.

(** ** lapic.c *)
Definition ID : Z := 0x0020 / 4.
Definition VER : Z := 0x0030 / 4.
Definition TPR : Z := 0x0080 / 4.
Definition EOI : Z := 0x00B0 / 4.
Definition SVR : Z := 0x00F0 / 4.
Definition ENABLE : Z := 0x00000100.
Definition ESR : Z := 0x0280 / 4.
Definition ICRLO : Z := 0x0300 / 4.
Definition INIT : Z := 0x00000500.
Definition STARTUP : Z := 0x00000600.
Definition DELIVS : Z := 0x00001000.
Definition ASSERT : Z := 0x00004000.
Definition LEVEL : Z := 0x00008000.
Definition BCAST : Z := 0x00080000.
Definition ICRHI : Z := 0x0310 / 4.
Definition TIMER : Z := 0x0320 / 4.
Definition X1 : Z := 0x0000000B.
Definition PERIODIC : Z := 0x00020000.
Definition PCINT : Z := 0x0340 / 4.
Definition LINT0 : Z := 0x0350 / 4.
Definition LINT1 : Z := 0x0360 / 4.
Definition ERROR : Z := 0x0370 / 4.
Definition MASKED : Z := 0x00010000.
Definition TICR : Z := 0x0380 / 4.
Definition TDCR : Z := 0x03E0 / 4.

(** The registers: a write to [ICRLO] sends a command. *)
Definition lapic_store (index value : Z) (l : lapicd) : lapicd :=
  let '(mkLapic regs w slow sent) := l in
  let regs' r := if r =? index then u32 value else regs r in
  if index =? ICRLO then mkLapic regs' slow slow (sent ++ [(regs ICRHI, u32 value)])
  else mkLapic regs' w slow sent.
Definition lapic_load (index : Z) : D Z :=
  let! l := gets d_la in
  if index =? ICRLO then
    upd (set_la (mkLapic (l_regs l) (pred (l_wait l)) (l_slow l) (l_sent l))) ;!
    ret (match l_wait l with
         | O => Z.land (l_regs l ICRLO) (Z.lnot DELIVS)
         | _ => Z.lor (l_regs l ICRLO) DELIVS
         end)
  else ret (l_regs l index).
Definition lapicw (index value : Z) : D unit :=
  upd (λ s, set_la (lapic_store index value (d_la s)) s) ;!
  lapic_load ID ;!
  skip.
Fixpoint lapic_settle (fuel : nat) : D unit :=
  match fuel with
  | O => diverge
  | S fuel => let! v := lapic_load ICRLO in if truth (Z.land v DELIVS) then lapic_settle fuel else skip
  end.
Definition lapicinit (fuel : nat) : D unit :=
  let! k := gets d_mp in
  if negb (truth (lapic k)) then skip
  else
    lapicw SVR (Z.lor ENABLE (T_IRQ0 + IRQ_SPURIOUS)) ;!
    lapicw TDCR X1 ;!
    lapicw TIMER (Z.lor PERIODIC (T_IRQ0 + IRQ_TIMER)) ;!
    lapicw TICR 10000000 ;!
    lapicw LINT0 MASKED ;!
    lapicw LINT1 MASKED ;!
    let! ver := lapic_load VER in
    (if 4 <=? Z.land (Z.shiftr ver 16) 0xFF then lapicw PCINT MASKED else skip) ;!
    lapicw ERROR (T_IRQ0 + IRQ_ERROR) ;!
    lapicw ESR 0 ;!
    lapicw ESR 0 ;!
    lapicw EOI 0 ;!
    lapicw ICRHI 0 ;!
    lapicw ICRLO (Z.lor (Z.lor BCAST INIT) LEVEL) ;!
    lapic_settle fuel ;!
    lapicw TPR 0.
(** [cpunum] with interrupts off *)
Definition cpunum : D Z :=
  let! k := gets d_mp in
  if truth (lapic k) then let! v := lapic_load ID in ret (Z.shiftr v 24) else ret 0.
Definition lapiceoi : D unit :=
  let! k := gets d_mp in
  if truth (lapic k) then lapicw EOI 0 else skip.
Definition microdelay (us : Z) : D unit := skip.
(** The two halves of the warm reset vector are [d_wrv]. *)
Definition lapicstartap (apicid addr : Z) : D unit :=
  outb CMOS_PORT 0xF ;!
  outb (CMOS_PORT + 1) 0x0A ;!
  upd (set_wrv (0, u16 (Z.shiftr addr 4))) ;!
  lapicw ICRHI (Z.shiftl apicid 24) ;!
  lapicw ICRLO (Z.lor (Z.lor INIT LEVEL) ASSERT) ;!
  microdelay 200 ;!
  lapicw ICRLO (Z.lor INIT LEVEL) ;!
  microdelay 100 ;!
  for_each [0; 1] (λ _,
    lapicw ICRHI (Z.shiftl apicid 24) ;!
    lapicw ICRLO (Z.lor STARTUP (Z.shiftr addr 12)) ;!
    microdelay 200).

(** ** The devices at boot

    [consoleinit] and [ideinit] ask for their interrupts ... *)
Definition console_enable : D unit := picenable IRQ_KBD ;! ioapicenable IRQ_KBD 0.
Definition ide_enable : D unit :=
  let! k := gets d_mp in
  picenable IRQ_IDE ;!
  ioapicenable IRQ_IDE (ncpu k - 1).
(** ... and [main] starts the devices in this order, after [mpinit]. *)
Definition main_devices (fuel : nat) : D unit :=
  lapicinit fuel ;!
  picinit ;!
  ioapicinit ;!
  console_enable ;!
  uartinit ;!
  ide_enable ;!
  let! k := gets d_mp in
  if negb (truth (ismp k)) then timerinit else skip.

(** ** What the drivers do *)
Lemma picinit_spec s : d_irqmask s = irqmask0 →
  picinit s = Ret (tt, set_irqmask irqmask0 (set_pic2 (mkPic 0 40 2 3 0xFF) (set_pic1 (mkPic 0 32 4 3 0xFB) s))).
Proof. intros H. destruct s. cbn in H. subst. reflexivity. Qed.
(** [irq] is let through. *)
Definition pic_on (irq : Z) (s : devs) : devs :=
  let '(mkDevs (mkPic a b c d _) (mkPic a' b' c' d' _) pt u io l o w k m h) := s in
  let m := u16 (Z.land m (Z.lnot (Z.shiftl 1 irq))) in
  mkDevs (mkPic a b c d (u8 m)) (mkPic a' b' c' d' (u8 (Z.shiftr m 8))) pt u io l o w k m h.
Lemma picenable_spec irq s : p_stage (d_pic1 s) = O → p_stage (d_pic2 s) = O → picenable irq s = Ret (tt, pic_on irq s).
Proof. destruct s as [[] [] ? ? ? ? ? ? ? ? ?]. cbn. by intros -> ->. Qed.
Lemma io_set_io l s : d_io (set_io l s) = l.
Proof. by destruct s. Qed.
Lemma uart_set_uart l s : d_uart (set_uart l s) = l.
Proof. by destruct s. Qed.
Lemma set_uart_uart l l' s : set_uart l (set_uart l' s) = set_uart l s.
Proof. by destruct s. Qed.
Lemma la_set_la l s : d_la (set_la l s) = l.
Proof. by destruct s. Qed.
Lemma set_la_la l l' s : set_la l (set_la l' s) = set_la l s.
Proof. by destruct s. Qed.
Lemma ioapicread_spec reg s :
  ioapicread reg s = Ret (io_regs (d_io s) reg, set_io (mkIoapic reg (io_regs (d_io s))) s).
Proof. by destruct s. Qed.
Lemma ioapicwrite_spec reg v s : ioapicwrite reg v s =
  Ret (tt, set_io (mkIoapic reg (λ r, if r =? reg then u32 v else io_regs (d_io s) r)) s).
Proof. by destruct s. Qed.
(** The table after the loop over the first [n] interrupts. *)
Lemma ioapic_loop n : ∀ k s, ∃ reg regs,
  for_each (seq k n) (λ i,
    ioapicwrite (REG_TABLE + 2 * Z.of_nat i) (Z.lor INT_DISABLED (T_IRQ0 + Z.of_nat i)) ;!
    ioapicwrite (REG_TABLE + 2 * Z.of_nat i + 1) 0) s = Ret (tt, set_io (mkIoapic reg regs) s) ∧
  (∀ i, (k ≤ i < k + n)%nat → regs (REG_TABLE + 2 * Z.of_nat i) = u32 (Z.lor INT_DISABLED (T_IRQ0 + Z.of_nat i)) ∧
    regs (REG_TABLE + 2 * Z.of_nat i + 1) = 0) ∧
  (∀ r, r < REG_TABLE + 2 * Z.of_nat k ∨ REG_TABLE + 2 * Z.of_nat (k + n) ≤ r → regs r = io_regs (d_io s) r).
Proof.
  induction n as [|n IH]; intros k s; cbn [seq for_each].
  { exists (io_reg (d_io s)), (io_regs (d_io s)). split; [by destruct s as [? ? ? ? [] ? ? ? ? ? ?]|]. split; [lia|done]. }
  erewrite bind_Ret. 2: { erewrite bind_Ret by apply ioapicwrite_spec. apply ioapicwrite_spec. }
  set (s1 := set_io _ _). destruct (IH (S k) s1) as (reg & regs & E & H1 & H2).
  exists reg, regs. split; [rewrite E; by destruct s|]. split.
  - intros i Hi. destruct (decide (i = k)) as [->|Hne]; [|apply H1; lia].
    rewrite !H2 by lia. unfold s1. rewrite !io_set_io. cbn [io_regs].
    rewrite (proj2 (Z.eqb_neq (REG_TABLE + 2 * Z.of_nat k) _)), !Z.eqb_refl by lia. done.
  - intros r Hr. rewrite H2 by lia. unfold s1. rewrite !io_set_io. cbn [io_regs].
    rewrite !(proj2 (Z.eqb_neq r _)) by lia. done.
Qed.
Definition maxintr (s : devs) : Z := Z.land (Z.shiftr (io_regs (d_io s) REG_VER) 16) 0xFF.
Lemma ioapicinit_spec s : ismp (d_mp s) ≠ 0 → ∃ reg regs,
  ioapicinit s = Ret (tt, set_io (mkIoapic reg regs) s) ∧
  ∀ i : nat, Z.of_nat i ≤ maxintr s → regs (REG_TABLE + 2 * Z.of_nat i) = u32 (Z.lor INT_DISABLED (T_IRQ0 + Z.of_nat i)) ∧
    regs (REG_TABLE + 2 * Z.of_nat i + 1) = 0.
Proof.
  intros Hs. unfold ioapicinit. erewrite bind_Ret by reflexivity. rewrite (proj2 (truth_true _) Hs). cbn [negb].
  erewrite bind_Ret by apply ioapicread_spec. erewrite bind_Ret by apply ioapicread_spec.
  fold (maxintr s). set (s1 := set_io (mkIoapic REG_ID _) _). set (n := Z.to_nat _).
  destruct (ioapic_loop n 0 s1) as (reg & regs & E & H1 & _). exists reg, regs. split; [rewrite E; by destruct s|].
  intros i Hi. apply H1. unfold n. lia.
Qed.
Lemma ioapicenable_spec irq cpu s : ismp (d_mp s) ≠ 0 → ∃ reg,
  ioapicenable irq cpu s = Ret (tt, set_io (mkIoapic reg (λ r,
    if r =? REG_TABLE + 2 * irq + 1 then u32 (Z.shiftl cpu 24)
    else if r =? REG_TABLE + 2 * irq then u32 (T_IRQ0 + irq) else io_regs (d_io s) r)) s).
Proof.
  intros Hs. unfold ioapicenable. erewrite bind_Ret by reflexivity. rewrite (proj2 (truth_true _) Hs). cbn [negb].
  erewrite bind_Ret by apply ioapicwrite_spec. rewrite ioapicwrite_spec. eexists. by destruct s.
Qed.
Lemma ioapicenable_off irq cpu s : ismp (d_mp s) = 0 → ioapicenable irq cpu s = Ret (tt, s).
Proof. intros Hs. unfold ioapicenable. erewrite bind_Ret by reflexivity. by rewrite Hs. Qed.
(** The serial port: at most 128 reads of the status, then the byte goes out. *)
Definition set_u_wait (w : nat) (u : uartd) : uartd :=
  mkUart (u_there u) (u_lcr u) (u_div u) (u_ier u) w (u_slow u) (u_sent u) (u_in u).
Lemma uart_poll_spec n : ∀ s, u_there (d_uart s) = true →
  uart_poll n s = Ret (tt, set_uart (set_u_wait (u_wait (d_uart s) - n) (d_uart s)) s).
Proof.
  induction n as [|n IH]; intros s Hp; cbn [uart_poll].
  { rewrite Nat.sub_0_r. by destruct s as [? ? ? [] ? ? ? ? ? ? ?]. }
  destruct s as [a b c u d e f g h i j], u as [p lcr dv ier w sl out inp]. cbn in Hp. subst p.
  erewrite bind_Ret by reflexivity. destruct w as [|w].
  - assert (truth (Z.land (Z.lor 0x20 (match inp with [] => 0 | _ => 1 end)) 0x20) = true) as -> by by destruct inp.
    done.
  - assert (truth (Z.land (Z.lor 0 (match inp with [] => 0 | _ => 1 end)) 0x20) = false) as -> by by destruct inp.
    cbn [negb]. rewrite IH by done. done.
Qed.
(** The transmitter is ready in time. *)
Definition uart_quick (u : uartd) : Prop := (u_wait u ≤ 128)%nat ∧ (u_slow u ≤ 128)%nat.
Definition uart_wrote (u : uartd) (l : list Z) (u' : uartd) : Prop :=
  ∃ w out, u' = mkUart true (u_lcr u) (u_div u) (u_ier u) w (u_slow u) out (u_in u) ∧
    (uart_quick u → out = u_sent u ++ l ∧ (w ≤ 128)%nat).
Lemma uartputc_spec c s : d_hasuart s ≠ 0 → u_there (d_uart s) = true → Z.testbit (u_lcr (d_uart s)) 7 = false →
  ∃ u, uartputc c s = Ret (tt, set_uart u s) ∧ uart_wrote (d_uart s) [u8 c] u.
Proof.
  intros Hu Hp Hl. unfold uartputc. erewrite bind_Ret by reflexivity. rewrite (proj2 (truth_true _) Hu). cbn [negb].
  erewrite bind_Ret by by apply uart_poll_spec.
  destruct s as [a b c0 u d e f g h i j], u as [p lcr dv ier w sl out inp]. cbn [d_uart u_there u_lcr] in Hp, Hl. subst p.
  match goal with |- context [outb _ _ ?s] => exists (uart_out 0 (u8 c) (d_uart s)) end. split; [reflexivity|].
  cbn [d_uart set_uart set_u_wait u_there u_lcr u_div u_ier u_slow u_sent u_in u_wait uart_out Z.eqb andb]. rewrite Hl.
  unfold uart_quick. cbn [u_wait u_slow].
  destruct (w - 128)%nat eqn:Ew; eexists _, _; (split; [reflexivity|]); [by intros [_ ?]|intros [Hw _]; cbn [u_wait] in Hw; lia].
Qed.
Lemma uart_banner l : ∀ s, d_hasuart s ≠ 0 → u_there (d_uart s) = true → Z.testbit (u_lcr (d_uart s)) 7 = false →
  ∃ u, for_each l uartputc s = Ret (tt, set_uart u s) ∧ uart_wrote (d_uart s) (map u8 l) u.
Proof.
  induction l as [|c l IH]; intros s Hu Hp Hl; cbn [for_each map].
  { exists (d_uart s). split; [by destruct s|]. destruct (d_uart s) as [p lcr dv ier w sl out inp]. cbn in Hp. subst p.
    exists w, out. split; [done|]. intros [? _]. by rewrite app_nil_r. }
  destruct (uartputc_spec c s Hu Hp Hl) as (u & E & w & out & Eu & Hq). erewrite bind_Ret by exact E.
  destruct (IH (set_uart u s)) as (u' & E' & w' & out' & Eu' & Hq'); [by destruct s|by rewrite uart_set_uart, Eu..|].
  exists u'. rewrite E', set_uart_uart. split; [done|]. rewrite uart_set_uart, Eu in Eu', Hq'. exists w', out'. split; [exact Eu'|].
  intros H. destruct (Hq H) as [-> Hw]. destruct Hq' as [-> Hw']; [split; [exact Hw|apply H]|]. cbn [u_sent]. by rewrite <- app_assoc.
Qed.

(** The local APIC *)
Lemma lapicw_spec index v s : lapicw index v s = Ret (tt, set_la (lapic_store index v (d_la s)) s).
Proof. by destruct s. Qed.
Lemma store_regs i v l r : l_regs (lapic_store i v l) r = if r =? i then u32 v else l_regs l r.
Proof. destruct l. unfold lapic_store. by destruct (i =? ICRLO). Qed.
Lemma load_other i s : (i =? ICRLO) = false → lapic_load i s = Ret (l_regs (d_la s) i, s).
Proof. intros H. unfold lapic_load. erewrite bind_Ret by reflexivity. by rewrite H. Qed.
Lemma load_icr s : lapic_load ICRLO s =
  Ret (match l_wait (d_la s) with
       | O => Z.land (l_regs (d_la s) ICRLO) (Z.lnot DELIVS)
       | _ => Z.lor (l_regs (d_la s) ICRLO) DELIVS
       end, set_la (mkLapic (l_regs (d_la s)) (pred (l_wait (d_la s))) (l_slow (d_la s)) (l_sent (d_la s))) s).
Proof. by destruct s. Qed.
Lemma settle_spec : ∀ fuel s, (l_wait (d_la s) < fuel)%nat →
  lapic_settle fuel s = Ret (tt, set_la (mkLapic (l_regs (d_la s)) 0 (l_slow (d_la s)) (l_sent (d_la s))) s).
Proof.
  induction fuel as [|fuel IH]; intros s Hf; [lia|]. cbn [lapic_settle].
  destruct s as [a b c u d l f g h i j], l as [regs w sl sent]. cbn [d_la l_wait l_regs l_slow l_sent] in *.
  erewrite bind_Ret by apply load_icr. cbn [d_la l_wait l_regs l_slow l_sent]. destruct w as [|w].
  - assert (truth (Z.land (Z.land (regs ICRLO) (Z.lnot DELIVS)) DELIVS) = false) as ->; [|done].
    apply truth_false. rewrite <- Z.land_assoc. change (Z.land (Z.lnot DELIVS) DELIVS) with 0. apply Z.land_0_r.
  - assert (truth (Z.land (Z.lor (regs ICRLO) DELIVS) DELIVS) = true) as ->.
    { apply truth_true. rewrite Z.land_lor_distr_l, Z.land_diag. intros E%Z.lor_eq_0_iff. by destruct E. }
    cbn [pred]. rewrite IH by (cbn; lia). done.
Qed.
(** What [lapicinit] leaves in the registers. *)
Definition lapic_ready (v0 : Z) (l : lapicd) : Prop :=
  l_regs l SVR = ENABLE + (T_IRQ0 + IRQ_SPURIOUS) ∧ l_regs l TIMER = PERIODIC + (T_IRQ0 + IRQ_TIMER) ∧
  l_regs l TICR = 10000000 ∧ l_regs l TDCR = X1 ∧ l_regs l LINT0 = MASKED ∧ l_regs l LINT1 = MASKED ∧
  (4 ≤ Z.land (Z.shiftr v0 16) 0xFF → l_regs l PCINT = MASKED) ∧
  l_regs l ERROR = T_IRQ0 + IRQ_ERROR ∧ l_regs l TPR = 0 ∧ l_wait l = O.
Lemma lapicinit_spec fuel s : lapic (d_mp s) ≠ 0 → (l_slow (d_la s) < fuel)%nat → ∃ l,
  lapicinit fuel s = Ret (tt, set_la l s) ∧ lapic_ready (l_regs (d_la s) VER) l ∧
  l_sent l = l_sent (d_la s) ++ [(0, BCAST + INIT + LEVEL)].
Proof.
  intros Hl Hf. unfold lapicinit. erewrite bind_Ret by reflexivity. rewrite (proj2 (truth_true _) Hl). cbn [negb].
  do 6 (erewrite bind_Ret by apply lapicw_spec; rewrite ?la_set_la, ?set_la_la).
  erewrite bind_Ret by (apply load_other; done). rewrite la_set_la.
  assert (∀ v1 v2 v3 v4 v5 v6, l_regs (lapic_store LINT1 v6 (lapic_store LINT0 v5 (lapic_store TICR v4 (lapic_store TIMER v3
    (lapic_store TDCR v2 (lapic_store SVR v1 (d_la s))))))) VER = l_regs (d_la s) VER) as -> by (intros; by rewrite !store_regs).
  destruct (4 <=? Z.land (Z.shiftr (l_regs (d_la s) VER) 16) 0xFF) eqn:E4;
    [erewrite bind_Ret by apply lapicw_spec; rewrite la_set_la, set_la_la|erewrite (bind_Ret skip) by reflexivity].
  all: do 6 (erewrite bind_Ret by apply lapicw_spec; rewrite la_set_la, set_la_la).
  all: erewrite bind_Ret by (apply settle_spec; rewrite la_set_la; destruct s as [? ? ? ? ? [] ? ? ? ? ?]; exact Hf).
  all: rewrite lapicw_spec, !la_set_la, !set_la_la; eexists; split; [reflexivity|].
  all: split; [|by destruct s as [? ? ? ? ? [] ? ? ? ? ?]]; unfold lapic_ready; split_and!.
  all: try (rewrite ?store_regs; cbn [l_regs]; rewrite ?store_regs; reflexivity).
  all: try (intros H; rewrite ?store_regs; cbn [l_regs]; rewrite ?store_regs; reflexivity).
  all: try (by destruct s as [? ? ? ? ? [] ? ? ? ? ?]).
  intros H. apply Z.leb_gt in E4. lia.
Qed.
Lemma lapic_part fuel s : (l_slow (d_la s) < fuel)%nat → ∃ l, lapicinit fuel s = Ret (tt, set_la l s) ∧
  (lapic (d_mp s) ≠ 0 → lapic_ready (l_regs (d_la s) VER) l).
Proof.
  intros Hf. destruct (Z.eq_dec (lapic (d_mp s)) 0) as [E|E].
  - exists (d_la s). split; [|done]. unfold lapicinit. erewrite bind_Ret by reflexivity. rewrite E. by destruct s.
  - destruct (lapicinit_spec fuel s E Hf) as (l & H1 & H2 & _). eauto.
Qed.
(** The I/O APIC with [irq] sent to [cpu], when there is one. *)
Definition io_on (irq cpu : Z) (k : mpst) (io io' : ioapicd) : Prop :=
  if ismp k =? 0 then io' = io
  else io_regs io' = λ r, if r =? REG_TABLE + 2 * irq + 1 then u32 (Z.shiftl cpu 24)
    else if r =? REG_TABLE + 2 * irq then u32 (T_IRQ0 + irq) else io_regs io r.
Lemma ioapicenable_on irq cpu s : ∃ io, ioapicenable irq cpu s = Ret (tt, set_io io s) ∧ io_on irq cpu (d_mp s) (d_io s) io.
Proof.
  unfold io_on. destruct (Z.eqb_spec (ismp (d_mp s)) 0) as [E|E].
  - exists (d_io s). rewrite ioapicenable_off by done. by destruct s.
  - destruct (ioapicenable_spec irq cpu s E) as [reg ->]. eexists. by split.
Qed.
Lemma enable_spec irq cpu s : p_stage (d_pic1 s) = O → p_stage (d_pic2 s) = O → ∃ io,
  (picenable irq ;! ioapicenable irq cpu) s = Ret (tt, set_io io (pic_on irq s)) ∧ io_on irq cpu (d_mp s) (d_io s) io.
Proof.
  intros H1 H2. erewrite bind_Ret by by apply picenable_spec.
  destruct (ioapicenable_on irq cpu (pic_on irq s)) as (io & E & Hio). exists io. split; [done|].
  by destruct s as [[] [] ? ? ? ? ? ? ? ? ?].
Qed.
(** The serial port, when there is one: 9600 baud, receive interrupts, the
    greeting sent if the port is ready in time for each byte. *)
Definition uart_started (u u' : uartd) : Prop :=
  u_there u' = true ∧ u_div u' = 12 ∧ u_ier u' = 1 ∧ u_lcr u' = 3 ∧ (uart_quick u → u_sent u' = u_sent u ++ banner).
Lemma uart_setup_spec s : let u := d_uart s in
  uart_setup s = Ret (tt, set_uart (mkUart (u_there u) 3 12 1 (u_wait u) (u_slow u) (u_sent u) (u_in u)) s).
Proof.
  destruct s as [p1 p2 pt u io l o w k m h], u as [th lcr dv ier wt sl out inp].
  transitivity (Ret (tt, mkDevs p1 p2 pt (mkUart th 3 (2 ^ 8 * 0 + (2 ^ 8 * (dv / 2 ^ 8) + 12) mod 2 ^ 8) 1 wt sl out inp) io l o w k m h));
    [reflexivity|].
  cbn [d_uart u_there u_wait u_slow u_sent u_in set_uart]. do 4 f_equal. Z.div_mod_to_equations. lia.
Qed.
Lemma uartinit_spec s : p_stage (d_pic1 s) = O → p_stage (d_pic2 s) = O →
  if u_there (d_uart s) then
    ∃ io u, uartinit s = Ret (tt, set_hasuart 1 (set_uart u (set_io io (pic_on IRQ_COM1 s)))) ∧
      uart_started (d_uart s) u ∧ io_on IRQ_COM1 0 (d_mp s) (d_io s) io
  else ∃ u, uartinit s = Ret (tt, set_uart u s).
Proof.
  intros H1 H2. unfold uartinit. erewrite bind_Ret by apply uart_setup_spec.
  destruct s as [p1 p2 pt u io l o w k m h], u as [th lcr dv ier wt sl out inp], p1 as [st1 b1 s1 i1 m1], p2 as [st2 b2 s2 i2 m2].
  cbn [d_pic1 d_pic2 p_stage] in H1, H2. subst. cbn [d_uart u_there u_wait u_slow u_sent u_in set_uart]. destruct th.
  2: { erewrite bind_Ret by reflexivity. eexists. reflexivity. }
  erewrite bind_Ret by reflexivity.
  assert ((Z.lor (match wt with O => 0x20 | _ => 0 end) (match inp with [] => 0 | _ => 1 end) =? 0xFF) = false) as ->
    by (by destruct wt, inp).
  do 3 (erewrite bind_Ret by reflexivity). erewrite bind_Ret by (apply picenable_spec; reflexivity).
  match goal with |- context [bind (ioapicenable IRQ_COM1 0) _ ?s] => destruct (ioapicenable_on IRQ_COM1 0 s) as (io' & E & Hio) end.
  erewrite bind_Ret by exact E.
  match goal with |- context [for_each banner uartputc ?s] => destruct (uart_banner banner s) as (u' & E' & w' & out' & Eu & Hq); [done|done|done|] end.
  eexists io', u'. split; [rewrite E'; reflexivity|]. split; [|exact Hio]. rewrite Eu. split_and!; try done.
  intros [Hw Hs]. apply Hq. split; cbn in *; [lia|done].
Qed.

(** ** Where the interrupts go *)
(** The interrupts the kernel wants: the slave controller's line, keyboard and
    disk, the serial port when there is one, the timer on a uniprocessor. *)
Definition wanted (com1 up : bool) : list Z :=
  [IRQ_SLAVE; IRQ_KBD; IRQ_IDE] ++ (if com1 then [IRQ_COM1] else []) ++ (if up then [IRQ_TIMER] else []).
(** Entry [i] of the I/O APIC's table: vector and disable bit, and the CPU. *)
Definition route (com1 : bool) (k : mpst) (i : Z) : Z * Z :=
  if (i =? IRQ_KBD) || (com1 && (i =? IRQ_COM1)) then (T_IRQ0 + i, 0)
  else if i =? IRQ_IDE then (T_IRQ0 + i, u32 (Z.shiftl (ncpu k - 1) 24))
  else (INT_DISABLED + T_IRQ0 + i, 0).
Definition pics_ready (com1 up : bool) (s : devs) : Prop :=
  ∃ m1 m2, d_pic1 s = mkPic 0 T_IRQ0 (2 ^ IRQ_SLAVE) 3 m1 ∧ d_pic2 s = mkPic 0 (T_IRQ0 + 8) IRQ_SLAVE 3 m2 ∧
    d_irqmask s = m1 + 2 ^ 8 * m2 ∧
    ∀ i, 0 ≤ i < 16 → Z.testbit (m1 + 2 ^ 8 * m2) i = negb (existsb (Z.eqb i) (wanted com1 up)).

Lemma bits16 (m : Z) (com1 up : bool) :
  forallb (λ n, Bool.eqb (Z.testbit m (Z.of_nat n)) (negb (existsb (Z.eqb (Z.of_nat n)) (wanted com1 up)))) (seq 0 16) = true →
  ∀ i, 0 ≤ i < 16 → Z.testbit m i = negb (existsb (Z.eqb i) (wanted com1 up)).
Proof.
  intros H i Hi. rewrite forallb_forall in H. specialize (H (Z.to_nat i)).
  rewrite Z2Nat.id in H by lia. apply eqb_prop, H, in_seq. lia.
Qed.
Lemma table_route (com1 : bool) k io1 io2 io3 io4 (n : Z) : ismp k ≠ 0 →
  (∀ i : nat, Z.of_nat i ≤ n → io_regs io1 (REG_TABLE + 2 * Z.of_nat i) = u32 (Z.lor INT_DISABLED (T_IRQ0 + Z.of_nat i)) ∧
    io_regs io1 (REG_TABLE + 2 * Z.of_nat i + 1) = 0) → n < 256 →
  io_on IRQ_KBD 0 k io1 io2 → (if com1 then io_on IRQ_COM1 0 k io2 io3 else io3 = io2) → io_on IRQ_IDE (ncpu k - 1) k io3 io4 →
  ∀ i, 0 ≤ i ≤ n → (io_regs io4 (REG_TABLE + 2 * i), io_regs io4 (REG_TABLE + 2 * i + 1)) = route com1 k i.
Proof.
  intros Hk H1 Hn H2 H3 H4 i Hi. unfold io_on in *. rewrite (proj2 (Z.eqb_neq _ 0) Hk) in *.
  destruct (H1 (Z.to_nat i)) as [L1 L2]; [lia|]. rewrite Z2Nat.id in L1, L2 by lia.
  rewrite H4. unfold route, IRQ_KBD, IRQ_COM1, IRQ_IDE in *.
  assert (Z.lor INT_DISABLED (T_IRQ0 + i) = INT_DISABLED + T_IRQ0 + i) as Hor.
  { unfold INT_DISABLED, T_IRQ0. change 0x10000 with (Z.shiftl 1 16) at 1. rewrite lor_shiftl_add by lia. change (1 * 2 ^ 16) with 0x10000. lia. }
  rewrite Hor, u32_small in L1 by (unfold INT_DISABLED, T_IRQ0; lia). unfold REG_TABLE, T_IRQ0 in *.
  destruct (Z.eqb_spec i 1) as [->|]; [|destruct (Z.eqb_spec i 4) as [->|]; [|destruct (Z.eqb_spec i 14) as [->|]]]; cbn [andb orb].
  - destruct com1; [rewrite H3|subst io3]; by rewrite H2.
  - destruct com1; [by rewrite H3|subst io3]. rewrite H2. cbn. by rewrite <- L1, <- L2.
  - by rewrite andb_false_r.
  - rewrite andb_false_r. rewrite !(proj2 (Z.eqb_neq _ _)) by lia.
    destruct com1; [rewrite H3|subst io3]; rewrite ?(proj2 (Z.eqb_neq _ _)) by lia.
    all: rewrite H2, !(proj2 (Z.eqb_neq _ _)) by lia; by rewrite L1, L2.
Qed.

(** Claim C32: every interrupt the kernel asks for arrives at its vector, and no
    other.  From any state of the devices [main]'s calls end and leave them as
    follows.  The two 8259A controllers are initialized for vectors 32 to 47,
    the slave on line 2, and their masks agree with [irqmask] and let through
    exactly the wanted lines.  On a multiprocessor the I/O APIC sends keyboard
    and serial port to CPU 0 and the disk to the last CPU, each to its vector,
    and every other entry is disabled; on a uniprocessor the interval timer
    counts 11932, a hundredth of a second.  The local APIC is enabled with a
    periodic timer on vector 32.  The serial port runs at 9600 baud, when there
    is one, and has sent its greeting if it is ready for each byte within the
    128 reads of its status that [uartputc] makes. *)
Theorem interrupts_routed fuel s :
  d_irqmask s = irqmask0 → d_hasuart s = 0 → (l_slow (d_la s) < fuel)%nat →
  let k := d_mp s in
  let com1 := u_there (d_uart s) in
  let up := ismp k =? 0 in
  ∃ s', main_devices fuel s = Ret (tt, s') ∧ pics_ready com1 up s' ∧
    (up = false → ∀ i, 0 ≤ i ≤ maxintr s →
       (io_regs (d_io s') (REG_TABLE + 2 * i), io_regs (d_io s') (REG_TABLE + 2 * i + 1)) = route com1 k i) ∧
    (up = true → d_pit s' = mkPit 0x34 [11932 mod 2 ^ 8; 11932 / 2 ^ 8]) ∧
    (lapic k ≠ 0 → lapic_ready (l_regs (d_la s) VER) (d_la s')) ∧
    d_hasuart s' = (if com1 then 1 else 0) ∧ (com1 = true → uart_started (d_uart s) (d_uart s')).
Proof.
  intros Hm Hh Hf k com1 up. destruct (lapic_part fuel s Hf) as (l & El & Hl). unfold main_devices.
  erewrite bind_Ret by exact El. erewrite bind_Ret by (apply picinit_spec; by destruct s).
  destruct s as [p1 p2 pt u io la o w k0 m h]. cbn [d_irqmask d_hasuart d_mp d_uart] in *. subst m h k com1 up.
  cbn [set_la set_pic1 set_pic2 set_irqmask].
  set (s1 := mkDevs _ _ _ _ _ _ _ _ _ _ _).
  assert (∃ io1, ioapicinit s1 = Ret (tt, set_io io1 s1) ∧ (ismp k0 ≠ 0 → ∀ i : nat, Z.of_nat i ≤ maxintr s1 →
    io_regs io1 (REG_TABLE + 2 * Z.of_nat i) = u32 (Z.lor INT_DISABLED (T_IRQ0 + Z.of_nat i)) ∧
    io_regs io1 (REG_TABLE + 2 * Z.of_nat i + 1) = 0)) as (io1 & E1 & H1).
  { destruct (Z.eq_dec (ismp k0) 0) as [E|E].
    - exists io. split; [|done]. unfold ioapicinit. erewrite bind_Ret by reflexivity. cbn [d_mp s1]. by rewrite E.
    - destruct (ioapicinit_spec s1 E) as (reg & regs & E1 & H1). exists (mkIoapic reg regs). by split. }
  erewrite bind_Ret by exact E1. subst s1. cbn [set_io].
  set (s2 := mkDevs _ _ _ _ _ _ _ _ _ _ _).
  destruct (enable_spec IRQ_KBD 0 s2) as (io2 & E2 & H2); [done|done|]. erewrite bind_Ret by exact E2.
  change (set_io io2 (pic_on IRQ_KBD s2)) with
    (mkDevs (mkPic 0 32 4 3 0xF9) (mkPic 0 40 2 3 0xFF) pt u io2 l o w k0 0xFFF9 0). subst s2. cbn [d_mp d_io] in H2.
  set (s3 := mkDevs _ _ _ _ _ _ _ _ _ _ _).
  assert (∃ io3 u' m1, uartinit s3 = Ret (tt, mkDevs (mkPic 0 32 4 3 m1) (mkPic 0 40 2 3 0xFF) pt u' io3 l o w k0 (m1 + 0xFF00) (if u_there u then 1 else 0)) ∧
    m1 = (if u_there u then 0xE9 else 0xF9) ∧
    (u_there u = true → uart_started u u') ∧ (if u_there u then io_on IRQ_COM1 0 k0 io2 io3 else io3 = io2)) as (io3 & u' & m1 & E3 & Hm1 & Hu & H3).
  { pose proof (uartinit_spec s3 eq_refl eq_refl) as H. cbn [d_uart s3 d_mp d_io] in H. destruct (u_there u).
    - destruct H as (io3 & u' & E & Hu & Hi). exists io3, u', 0xE9. by split_and!.
    - destruct H as (u' & E). exists io2, u', 0xF9. by split_and!. }
  erewrite bind_Ret by exact E3. subst s3.
  set (s4 := mkDevs _ _ _ _ _ _ _ _ _ _ _). unfold ide_enable.
  destruct (enable_spec IRQ_IDE (ncpu k0 - 1) s4) as (io4 & E4 & H4); [done|done|]. cbn [s4 d_mp d_io] in H4.
  erewrite bind_Ret. 2: { erewrite bind_Ret by reflexivity. exact E4. }
  assert (set_io io4 (pic_on IRQ_IDE s4) =
    mkDevs (mkPic 0 32 4 3 m1) (mkPic 0 40 2 3 0xBF) pt u' io4 l o w k0 (m1 + 0xBF00) (if u_there u then 1 else 0)) as ->.
  { subst s4 m1. by destruct (u_there u). }
  clear s4 E4. erewrite bind_Ret by reflexivity. cbn [d_mp].
  assert (∀ i, 0 ≤ i ≤ maxintr (mkDevs p1 p2 pt u io la o w k0 irqmask0 0) → ismp k0 ≠ 0 →
    (io_regs io4 (REG_TABLE + 2 * i), io_regs io4 (REG_TABLE + 2 * i + 1)) = route (u_there u) k0 i) as Hio.
  { intros i Hi Hk. eapply table_route; [exact Hk|exact (H1 Hk)| |exact H2|exact H3|exact H4|exact Hi].
    change (Z.land (Z.shiftr (io_regs io REG_VER) 16) (Z.ones 8) < 2 ^ 8). rewrite Z.land_ones by lia. apply Z.mod_pos_bound. lia. }
  destruct (Z.eqb_spec (ismp k0) 0) as [E|E].
  - rewrite E. change (negb (truth 0)) with true. cbv iota.
    eexists. split; [reflexivity|]. split; [|done].
    exists (m1 - 1), 0xBF. subst m1. destruct (u_there u); (split_and!; try reflexivity; by apply bits16).
  - rewrite (proj2 (truth_true _) E). cbn [negb]. eexists. split; [reflexivity|].
    split; [|split; [intros _ i Hi; by apply Hio|done]].
    exists m1, 0xBF. subst m1. destruct (u_there u); (split_and!; try reflexivity; by apply bits16).
Qed.
(** A dual-processor machine with a serial port, its controllers in any state. *)
Definition wdevs : devs :=
  mkDevs (mkPic 3 0 0 0 0) (mkPic 0 1 2 3 4) (mkPit 0 []) (mkUart true 0 999 0 1 1 [] [65]) (mkIoapic 0 (λ r, if r =? 1 then 0x170011 else 7))
    (mkLapic (λ r, if r =? VER then 0x50014 else 0) 0 3 []) [] (0, 0) (mkMpst 1 2 0 0xFEE00000 0 [0; 1]) irqmask0 0.
Lemma interrupts_routed_witness :
  ∃ s', main_devices 4 wdevs = Ret (tt, s') ∧ io_regs (d_io s') 0x2C = 46 ∧ io_regs (d_io s') 0x2D = 2 ^ 24 ∧
    u_sent (d_uart s') = banner ∧ l_regs (d_la s') PCINT = MASKED.
Proof.
  destruct (interrupts_routed 4 wdevs) as (s' & E & _ & H1 & _ & H2 & _ & H3); [done|done|cbn; lia|].
  assert ((io_regs (d_io s') (REG_TABLE + 2 * 14), io_regs (d_io s') (REG_TABLE + 2 * 14 + 1)) = (46, 2 ^ 24)) as H.
  { rewrite (H1 eq_refl 14); [reflexivity|]. change (maxintr wdevs) with 23. lia. }
  apply pair_equal_spec in H as [H H']. exists s'. split; [exact E|]. split; [exact H|]. split; [exact H'|]. split; [apply H3; [done|split; cbn; lia]|].
  assert (lapic (d_mp wdevs) ≠ 0) as Hl by (cbn; lia). destruct (H2 Hl) as (_ & _ & _ & _ & _ & _ & H4 & _).
  apply H4. change (l_regs (d_la wdevs) VER) with 0x50014. change (Z.land _ 0xFF) with 5. lia.
Defined.

Lemma sent_lo v l : l_sent (lapic_store ICRLO v l) = l_sent l ++ [(l_regs l ICRHI, u32 v)].
Proof. by destruct l. Qed.
Lemma sent_hi v l : l_sent (lapic_store ICRHI v l) = l_sent l.
Proof. by destruct l. Qed.
(** [lapicstartap]: the other processor is told its entry point twice over,
    in the warm reset vector and in the two start-up commands that follow the
    INIT commands. *)
Lemma startap_spec apicid addr s : 0 ≤ apicid < 2 ^ 8 → 0 ≤ addr < 2 ^ 20 → addr mod 2 ^ 12 = 0 →
  ∃ l, lapicstartap apicid addr s =
      Ret (tt, set_la l (set_wrv (0, addr / 2 ^ 4) (set_cmos (d_cmos s ++ [(0x70, 0xF); (0x71, 0xA)]) s))) ∧
    let dst := apicid * 2 ^ 24 in
    l_sent l = l_sent (d_la s) ++ [(dst, INIT + LEVEL + ASSERT); (dst, INIT + LEVEL);
      (dst, STARTUP + addr / 2 ^ 12); (dst, STARTUP + addr / 2 ^ 12)] ∧
    16 * (addr / 2 ^ 4) = addr ∧ 2 ^ 12 * Z.land (STARTUP + addr / 2 ^ 12) 0xff = addr.
Proof.
  intros Ha Haddr Hal.
  assert (Z.shiftl apicid 24 = apicid * 2 ^ 24) as Hd by (apply Z.shiftl_mul_pow2; lia).
  assert (0 ≤ addr / 2 ^ 12 < 2 ^ 8) as Hp by (Z.div_mod_to_equations; lia).
  assert (Z.lor STARTUP (Z.shiftr addr 12) = STARTUP + addr / 2 ^ 12) as Hs.
  { rewrite Z.shiftr_div_pow2 by lia. change STARTUP with (Z.shiftl 6 8). rewrite lor_shiftl_add by lia. done. }
  assert (∀ s, (lapicw ICRHI (Z.shiftl apicid 24) ;! lapicw ICRLO (Z.lor STARTUP (Z.shiftr addr 12)) ;! microdelay 200) s =
    Ret (tt, set_la (lapic_store ICRLO (Z.lor STARTUP (Z.shiftr addr 12)) (lapic_store ICRHI (Z.shiftl apicid 24) (d_la s))) s)) as Hbody.
  { intros s1. do 2 (erewrite bind_Ret by apply lapicw_spec; rewrite ?la_set_la, ?set_la_la). done. }
  assert (u16 (Z.shiftr addr 4) = addr / 2 ^ 4) as Hw.
  { rewrite Z.shiftr_div_pow2 by lia. apply Z.mod_small. Z.div_mod_to_equations; lia. }
  assert (set_cmos (d_cmos (set_cmos (d_cmos s ++ [(0x70, 0xF)]) s) ++ [(0x71, 0xA)]) (set_cmos (d_cmos s ++ [(0x70, 0xF)]) s) =
    set_cmos (d_cmos s ++ [(0x70, 0xF); (0x71, 0xA)]) s) as Hc by (destruct s; cbn; by rewrite <- app_assoc).
  unfold lapicstartap.
  erewrite (bind_Ret (outb _ _)) by reflexivity. erewrite (bind_Ret (outb _ _)) by reflexivity.
  change (CMOS_PORT + 1) with 0x71. change CMOS_PORT with 0x70. change (u8 0xF) with 0xF. change (u8 0xA) with 0xA.
  rewrite Hc, Hw. erewrite bind_Ret by reflexivity.
  do 2 (erewrite bind_Ret by apply lapicw_spec; rewrite ?la_set_la, ?set_la_la).
  erewrite (bind_Ret (microdelay 200)) by reflexivity.
  erewrite bind_Ret by apply lapicw_spec. rewrite ?la_set_la, ?set_la_la.
  erewrite (bind_Ret (microdelay 100)) by reflexivity.
  cbn [for_each]. do 2 (erewrite bind_Ret by apply Hbody; rewrite ?la_set_la, ?set_la_la).
  eexists. split; [reflexivity|]. cbv zeta. split_and!.
  - assert (d_la (set_wrv (0, addr / 2 ^ 4) (set_cmos (d_cmos s ++ [(0x70, 0xF); (0x71, 0xA)]) s)) = d_la s) as -> by (by destruct s).
    rewrite Hs, Hd. repeat (rewrite sent_lo || rewrite sent_hi). rewrite !store_regs.
    change (ICRHI =? ICRHI) with true. change (ICRHI =? ICRLO) with false. cbv iota.
    rewrite (u32_small (apicid * 2 ^ 24)), (u32_small (STARTUP + addr / 2 ^ 12)) by (unfold STARTUP; lia).
    by rewrite <- !app_assoc.
  - Z.div_mod_to_equations; lia.
  - change 0xff with (Z.ones 8). rewrite Z.land_ones by lia. unfold STARTUP.
    replace ((0x600 + addr / 2 ^ 12) mod 2 ^ 8) with (addr / 2 ^ 12) by (Z.div_mod_to_equations; lia). Z.div_mod_to_equations; lia.
Qed.
