(* ===== verification/Sysproc.v ===== *)
(** * System calls on processes (sysproc.c, MMps.h)

    Every function of sysproc.c, run by CPU [me], on the state of the kernel
    together with the tick counter of trap.c and the real-time clock.  The
    arguments of a call are fetched with Syscall.v from the user memory of the
    process, which is physical memory seen through its page table.

    [sys_wait], [sys_exit] and [sys_sleep] switch away from the process; like
    the functions of ProcOps.v they are cut at the switch, and Trap.v puts the
    parts together. *)
From S2P Require Import Prelude Machine Spinlock Kalloc Vm Proc ProcOps Syscall Lapic.

Open Scope Z_scope.

(** [tickslock] comes after [ptable.lock]. *)
Definition TICKS_LOCK : nat := 1.

(** The kernel, [ticks], and the number of reads of the clock chip. *)
Record tstate (W : Type) := mkT { t_k : kstate W; t_ticks : Z; t_cmos : nat }.
Arguments mkT {W}.
Arguments t_k {W}.
Arguments t_ticks {W}.
Arguments t_cmos {W}.
Definition with_k {W} (k : kstate W) (s : tstate W) : tstate W := mkT k (t_ticks s) (t_cmos s).
Definition with_ticks {W} (n : Z) (s : tstate W) : tstate W := mkT (t_k s) n (t_cmos s).
Definition with_cmos {W} (n : nat) (s : tstate W) : tstate W := mkT (t_k s) (t_ticks s) n.

(** ** User memory *)

(** The kernel address of user address [va], and the memory of a process as
    its page table shows it. *)
Definition kaddr (k : kmem) (pgdir va : Z) : Z :=
  let pte := (walkpgdir pgdir va false k).1 in
  p2v (PTE_ADDR (load32 (km_mem k) pte)) + Z.land va 0xFFF.
Definition umem (k : kmem) (pgdir : Z) : mem := λ va, km_mem k (kaddr k pgdir va).
(** The kernel stores bytes through a user pointer. *)
Fixpoint put_user (pgdir va : Z) (bs : list Z) (k : kmem) : kmem :=
  match bs with
  | [] => k
  | b :: bs' =>
      put_user pgdir (va + 1) bs' (set_km_mem (store8 (km_mem k) (kaddr k pgdir va) b) k)
  end.

(** [struct uproc] in memory. *)
Definition sizeof_uproc : Z := 56.
Definition get_uproc (m : mem) (a : Z) : uproc :=
  mkU (i32 (load32 m a)) (i32 (load32 m (a + 4))) (i32 (load32 m (a + 8))) (i32 (load32 m (a + 12)))
    (i32 (load32 m (a + 16))) (bytes_at m (a + 20) 16) (load32 m (a + 36)) (bytes_at m (a + 40) 16).
Definition uproc_bytes (u : uproc) : list Z :=
  concat (word_bytes <$> [u_pid u; u_uid u; u_gid u; u_ppid u; u_priority u]) ++
  u_state u ++ word_bytes (u_size u) ++ u_name u.
Definition rtcdate_bytes (d : rtcdate) : list Z :=
  concat (word_bytes <$> [second d; minute d; hour d; day d; month d; year d]).

Section Calls.
Context {W : Type} `{FileOps W}.
Context (kend data forkret_addr trapret_addr : Z).
Context (me : nat).
(** [&ticks], and the clock chip. *)
Context (ticks_addr : Z) (cmos : nat → Z → Z).

Abbreviation T := (M (tstate W)).

Definition on_k {A} (e : M (kstate W) A) : T A := zoom t_k with_k e.
Definition on_cmos {A} (e : M nat A) : T A := zoom t_cmos with_cmos e.
Definition TICKS_CHAN : chan := ChanAddr ticks_addr.

(** [proc->field] *)
Definition proc_field {A} (f : proc → A) : T A :=
  on_k (let! cur := myproc me in let! p := read_proc cur in ret (f p)).
(** [proc->field = v;] *)
Definition set_proc_field (f : proc → proc) : T unit :=
  on_k (let! cur := myproc me in write_proc cur f).

(** ** Arguments *)
Definition with_args {A} (f : Z → Z → mem → A) : T A :=
  on_k (
    let! cur := myproc me in
    let! p := read_proc cur in
    let! k := gets k_km in
    ret (f (p_sz p) (load32 (km_mem k) (p_tf p + tf_esp)) (umem k (p_pgdir p)))).
Definition arg_int (n : Z) : T (option Z) := with_args (λ sz esp um, argint sz esp um n).
Definition arg_ptr (n size : Z) : T (option Z) := with_args (λ sz esp um, argptr sz esp um n size).
Definition store_user (va : Z) (bs : list Z) : T unit :=
  on_k (
    let! cur := myproc me in
    let! p := read_proc cur in
    on_km (modify (put_user (p_pgdir p) va bs))).

(** ** The calls *)

(** [fork] in the three parts between which other CPUs may run. *)
Definition sys_fork_slot : T (option nat) := on_k (alloc_slot me).
Definition sys_fork_stack (np : nat) : T (option nat) := on_k (alloc_stack forkret_addr trapret_addr np).
Definition sys_fork_child (np : nat) : T Z := on_k (fork_child kend data me np).

Definition sys_exit : T unit := on_k (exit me).
(** [None] when the process went to sleep in [wait]. *)
Definition sys_wait : T (option Z) := on_k (wait kend me).

Definition sys_kill : T Z :=
  let! pid := arg_int 0 in
  match pid with
  | None => ret (-1)
  | Some pid => on_k (kill me pid)
  end.

Definition sys_getpid : T Z := proc_field p_pid.

Definition sys_sbrk : T Z :=
  let! n := arg_int 0 in
  match n with
  | None => ret (-1)
  | Some n =>
      let! addr := proc_field (λ p, i32 (p_sz p)) in
      let! r := on_k (growproc kend me n) in
      if r <? 0 then ret (-1) else ret addr
  end.

(** [sys_sleep] up to its loop: [n] and [ticks0]. *)
Definition sys_sleep : T (option (Z * Z)) :=
  let! n := arg_int 0 in
  match n with
  | None => ret None
  | Some n =>
      on_k (acquire_lock me TICKS_LOCK) ;!
      let! ticks0 := gets t_ticks in
      ret (Some (n, ticks0))
  end.
(** One round of its loop, with [tickslock] held: the result, or [None] when
    the process went to sleep.  The comparison is unsigned. *)
Definition sys_sleep_round (n ticks0 : Z) : T (option Z) :=
  let! ticks := gets t_ticks in
  if u32 (ticks - ticks0) <? u32 n then
    let! killed := proc_field p_killed in
    if truth killed then
      on_k (release_lock me TICKS_LOCK) ;! ret (Some (-1))
    else
      on_k (sleep me TICKS_CHAN (Some TICKS_LOCK)) ;! ret None
  else
    on_k (release_lock me TICKS_LOCK) ;! ret (Some 0).

Definition sys_uptime : T Z :=
  on_k (acquire_lock me TICKS_LOCK) ;!
  let! xticks := gets t_ticks in
  on_k (release_lock me TICKS_LOCK) ;!
  ret (i32 xticks).

(** The result of [argptr] is not looked at: when it fails, [d] has no value. *)
Definition sys_date (fuel : nat) : T Z :=
  let! d := arg_ptr 0 sizeof_rtcdate in
  match d with
  | None => undef "uninitialised pointer"
  | Some d =>
      let! r := on_cmos (cmostime cmos fuel) in
      store_user d (rtcdate_bytes r) ;! ret 0
  end.

Definition sys_timem : T Z := ret 0.

Definition sys_getuid : T Z := proc_field p_uid.
Definition sys_getgid : T Z := proc_field p_gid.
Definition sys_getppid : T Z :=
  let! parent := proc_field p_parent in
  on_k (
    let! pp := lift (deref parent) in
    let! q := read_proc pp in
    ret (p_pid q)).

Definition sys_setuid : T Z :=
  let! fuid := arg_int 0 in
  match fuid with
  | None => ret (-1)
  | Some fuid => set_proc_field (set_uid fuid) ;! ret 0
  end.
Definition sys_setgid : T Z :=
  let! fgid := arg_int 0 in
  match fgid with
  | None => ret (-1)
  | Some fgid => set_proc_field (set_gid fgid) ;! ret 0
  end.

(** Only room for one entry is checked.  The table is what fits between the
    pointer and the end of the process; [getProcInfo] is undefined when it
    writes past it. *)
Definition user_table (table : Z) : T (list uproc) :=
  on_k (
    let! cur := myproc me in
    let! p := read_proc cur in
    let! k := gets k_km in
    ret ((λ i, get_uproc (umem k (p_pgdir p)) (table + sizeof_uproc * Z.of_nat i)) <$>
         seq 0 (Z.to_nat ((p_sz p - table) / sizeof_uproc)))).
Definition sys_getprocs : T Z :=
  let! max := arg_int 0 in
  match max with
  | None => ret (-1)
  | Some max =>
      let! table := arg_ptr 1 sizeof_uproc in
      match table with
      | None => ret (-1)
      | Some table =>
          let! us := user_table table in
          let! pt := on_k (gets k_pt) in
          let! (r, us) := lift (getProcInfo max us pt) in
          store_user table (concat (uproc_bytes <$> us)) ;!
          ret r
      end
  end.

Definition sys_setpriority : T Z :=
  let! pid := arg_int 0 in
  match pid with
  | None => ret (-1)
  | Some pid =>
      let! priority := arg_int 1 in
      match priority with
      | None => ret (-1)
      | Some priority => on_k (set_proc_priority pid priority)
      end
  end.
End Calls.
