(* ===== verification/Trap.v ===== *)
(** * Traps (trap.c, traps.h, syscall() of syscall.c)

    [trap] and the system calls it runs, as a machine: a [point] is where a
    CPU is in [trap], [trap_step] runs from one point to the next without
    letting go of the CPU, and [trap_resume] goes on after the scheduler has
    come back to a process that switched away.  Between two points other CPUs
    may do anything.

    [lapiceoi] only writes a device register and the messages of [cprintf]
    go to the console; both are left out. *)
From S2P Require Import Prelude Machine Spinlock Kalloc Vm Proc ProcOps Mmu Syscall Lapic Sysproc.

Open Scope Z_scope.

(** ** Constants *)
Definition tf_trapno : Z := 48.

(** What [trap] uses of the parts of the kernel with a state of their own:
    the interrupt handlers of ide.c, kbd.c and uart.c, and the system calls
    of sysfile.c. *)
Class TrapOps (W : Type) := {
  to_ideintr : nat → M (tstate W) unit;
  to_kbdintr : nat → M (tstate W) unit;
  to_uartintr : nat → M (tstate W) unit;
  to_file : nat → sysno → M (tstate W) Z }.

(** Where a CPU is in [trap]. *)
Inductive point :=
| AtEntry                       (* trap is called *)
| AtSyscall                     (* calls syscall() *)
| AtStack (np : nat)            (* in fork(): slot np is allocated *)
| AtChild (np : nat)            (* in fork(): slot np has a stack *)
| AtTicks (n ticks0 : Z)        (* at the loop of sys_sleep, with tickslock *)
| AtWoken (n ticks0 : Z)        (* in sleep(&ticks, &tickslock), about to take tickslock *)
| AtResult (r : Z)              (* the system call has returned r *)
| AtSysDone                     (* after syscall() *)
| AtIntr                        (* at the switch on tf->trapno *)
| AtKilled                      (* after the switch *)
| AtYield                       (* before the check for a clock tick *)
| AtLast                        (* at the last check *)
| Returned                      (* trap has returned *)
(** Switched away: *)
| InSleep (n ticks0 : Z)        (* in sleep(), called by sys_sleep *)
| InWait                        (* in sleep(), called by wait *)
| InYield                       (* in yield() *)
| InExit.                       (* in exit() *)
#[export] Instance point_eq_dec : EqDecision point.
Proof. solve_decision. Defined.

Section Trap.
Context {W : Type} `{FileOps W} `{TrapOps W}.
Context (kend data forkret_addr trapret_addr : Z).
Context (me : nat).
Context (ticks_addr : Z) (cmos : nat → Z → Z) (date_fuel : nat).
(** The argument of [trap]. *)
Context (tf : Z).

Abbreviation T := (M (tstate W)).

Definition tf_load (f : mem → Z → Z) (off : Z) : T Z :=
  on_k (let! k := gets k_km in ret (f (km_mem k) (tf + off))).
Definition trapno : T Z := tf_load load32 tf_trapno.
(** [(tf->cs&3) == DPL_USER] *)
Definition user_mode : T bool :=
  let! cs := tf_load load16 tf_cs in ret (Z.land cs 3 =? DPL_USER).
(** [proc], which may be null. *)
Definition cur_proc : T (option nat) := on_k (let! c := mycpu me in ret (c_proc c)).

(** ** syscall *)

(** [proc->tf->eax = r] *)
Definition set_eax (r : Z) : T unit :=
  on_k (
    let! cur := myproc me in
    let! p := read_proc cur in
    upd_mem (λ m, store32 m (p_tf p + tf_eax) r)).

(** A system call that returns without switching. *)
Definition plain (e : T Z) : T point := let! r := e in ret (AtResult r).
(** [syscalls[num]()] *)
Definition sys_call (h : sysno) : T point :=
  match h with
  | SYS_fork =>
      let! o := sys_fork_slot me in
      ret match o with None => AtResult (-1) | Some np => AtStack np end
  | SYS_exit => sys_exit me ;! ret InExit
  | SYS_wait =>
      let! o := sys_wait kend me in
      ret match o with None => InWait | Some r => AtResult r end
  | SYS_kill => plain (sys_kill me)
  | SYS_getpid => plain (sys_getpid me)
  | SYS_sbrk => plain (sys_sbrk kend me)
  | SYS_sleep =>
      let! o := sys_sleep me in
      ret match o with None => AtResult (-1) | Some (n, ticks0) => AtTicks n ticks0 end
  | SYS_uptime => plain (sys_uptime me)
  | SYS_date => plain (sys_date me cmos date_fuel)
  | SYS_timem => plain sys_timem
  | SYS_getuid => plain (sys_getuid me)
  | SYS_getgid => plain (sys_getgid me)
  | SYS_getppid => plain (sys_getppid me)
  | SYS_setuid => plain (sys_setuid me)
  | SYS_setgid => plain (sys_setgid me)
  | SYS_getprocs => plain (sys_getprocs me)
  | SYS_setpriority => plain (sys_setpriority me)
  | _ => plain (to_file me h)
  end.
(** [syscall] up to the return of the call. *)
Definition trap_syscall : T point :=
  let! eax := on_k (
    let! cur := myproc me in
    let! p := read_proc cur in
    let! k := gets k_km in
    ret (load32 (km_mem k) (p_tf p + tf_eax))) in
  let num := i32 eax in
  if (0 <? num) && (num <? NELEM_syscalls) then
    match syscalls !! Z.to_nat num with
    | Some (Some h) => sys_call h
    | _ => ret (AtResult (-1))
    end
  else ret (AtResult (-1)).

(** ** trap *)

(** [if(proc->killed) exit();], going on at [next] *)
Definition exit_if_killed (next : point) : T point :=
  let! killed := proc_field me p_killed in
  if truth killed then sys_exit me ;! ret InExit else ret next.
(** [if(proc && proc->killed && (tf->cs&3) == DPL_USER) exit();] *)
Definition exit_if_killed_user (next : point) : T point :=
  let! cur := cur_proc in
  match cur with
  | None => ret next
  | Some _ =>
      let! killed := proc_field me p_killed in
      if truth killed then
        let! user := user_mode in
        if (user : bool) then sys_exit me ;! ret InExit else ret next
      else ret next
  end.

(** The system call branch before [syscall()]. *)
Definition trap_entry : T point :=
  let! no := trapno in
  if no =? T_SYSCALL then
    let! p := exit_if_killed AtSyscall in
    match p with
    | AtSyscall => set_proc_field me (set_tf tf) ;! ret AtSyscall
    | _ => ret p
    end
  else ret AtIntr.

(** The clock interrupt. *)
Definition tick : T unit :=
  if (me =? 0)%nat then
    on_k (acquire_lock me TICKS_LOCK) ;!
    modify (λ s, with_ticks (u32 (t_ticks s + 1)) s) ;!
    on_k (wakeup me (TICKS_CHAN ticks_addr)) ;!
    on_k (release_lock me TICKS_LOCK)
  else skip.
(** The default case. *)
Definition trap_fault : T unit :=
  let! cur := cur_proc in
  let! cs := tf_load load16 tf_cs in
  match cur with
  | None => panic "trap"
  | Some _ =>
      if Z.land cs 3 =? 0 then panic "trap"
      else set_proc_field me (set_killed 1)
  end.
(** [switch(tf->trapno)] *)
Definition trap_switch : T unit :=
  let! no := trapno in
  if no =? T_IRQ0 + IRQ_TIMER then tick
  else if no =? T_IRQ0 + IRQ_IDE then to_ideintr me
  else if no =? T_IRQ0 + IRQ_IDE + 1 then skip
  else if no =? T_IRQ0 + IRQ_KBD then to_kbdintr me
  else if no =? T_IRQ0 + IRQ_COM1 then to_uartintr me
  else if (no =? T_IRQ0 + 7) || (no =? T_IRQ0 + IRQ_SPURIOUS) then skip
  else trap_fault.

(** [if(proc && proc->state == RUNNING && tf->trapno == T_IRQ0+IRQ_TIMER) yield();] *)
Definition trap_yield : T point :=
  let! cur := cur_proc in
  match cur with
  | None => ret AtLast
  | Some _ =>
      let! st := proc_field me p_state in
      if bool_decide (st = RUNNING) then
        let! no := trapno in
        if no =? T_IRQ0 + IRQ_TIMER then on_k (yield me) ;! ret InYield
        else ret AtLast
      else ret AtLast
  end.

(** From one point to the next.  At a point where the CPU has switched away
    [trap] takes no step until the scheduler has come back ([trap_resume]). *)
Definition trap_step (c : point) : T point :=
  match c with
  | AtEntry => trap_entry
  | AtSyscall => trap_syscall
  | AtStack np =>
      let! o := sys_fork_stack forkret_addr trapret_addr np in
      ret match o with None => AtResult (-1) | Some np => AtChild np end
  | AtChild np => plain (sys_fork_child kend data me np)
  | AtTicks n ticks0 =>
      let! o := sys_sleep_round me ticks_addr n ticks0 in
      ret match o with None => InSleep n ticks0 | Some r => AtResult r end
  | AtWoken n ticks0 => on_k (sleep_reacquire me TICKS_LOCK) ;! ret (AtTicks n ticks0)
  | AtResult r => set_eax (u32 r) ;! ret AtSysDone
  | AtSysDone => exit_if_killed Returned
  | AtIntr => trap_switch ;! ret AtKilled
  | AtKilled => exit_if_killed_user AtYield
  | AtYield => trap_yield
  | AtLast => exit_if_killed_user Returned
  | Returned | InSleep _ _ | InWait | InYield | InExit => undef "not running in trap"
  end.

(** The scheduler has switched back to the process.  If its stack is inside
    [exit], [resume] is the panic after [sched] there. *)
Definition trap_resume (c : point) : T point :=
  let! r := on_k (resume kend me) in
  match c, r with
  | InSleep n ticks0, RSleep l =>
      if (l =? TICKS_LOCK)%nat then ret (AtWoken n ticks0) else undef "wrong lock"
  | InWait, RWait r => ret (AtResult r)
  | InWait, RSwitch => ret InWait
  | InYield, RCaller => ret AtLast
  | _, _ => undef "wrong stack"
  end.

(** One activation of [trap], while the other CPUs do what they like. *)
Inductive tstep : point * tstate W → point * tstate W → Prop :=
| t_run c s c' s' : trap_step c s = Ret (c', s') → tstep (c, s) (c', s')
| t_resume c s c' s' : trap_resume c s = Ret (c', s') → tstep (c, s) (c', s')
| t_others c s s' : tstep (c, s) (c, s').
End Trap.
