(* ===== verification/TrapThm.v ===== *)
(** * Theorems about traps and process system calls

    [trap] only makes steps of the machine of Sched.v; a killed process does
    not get back to user mode; [sys_sleep] waits; [sys_sbrk] keeps the promise
    that malloc relies on. *)
From S2P Require Import Prelude Machine Spinlock Kalloc Vm Proc ProcOps Sched SchedThm.
From S2P Require Import Mmu Syscall Lapic Sysproc Trap.

Open Scope Z_scope.

(** ** Partial correctness *)
Lemma wp_intro {S A} (e : M S A) Q s : (∀ a s', e s = Ret (a, s') → Q a s') → wp True e Q s.
Proof. unfold wp. destruct (e s) as [[a s']| | |]; auto. Qed.

(** The current process of CPU [me]. *)
Definition current {W} (me : nat) (s : kstate W) (cur : nat) (p : proc) : Prop :=
  ∃ c, k_cpus s !! me = Some c ∧ c_proc c = Some cur ∧ procs (k_pt s) !! cur = Some p.

Lemma get_proc_ret i t p : get_proc i t = Ret p → procs t !! i = Some p.
Proof. unfold get_proc. destruct (procs t !! i) as [q|]; [by intros [= ->]|done]. Qed.

Section Rules.
Context {W : Type} (me : nat).
Implicit Types s : kstate W.

(** [proc->...]: the process and its slot. *)
Lemma wp_cur {A} (f : nat → proc → M (kstate W) A) Q s :
  (∀ cur p, current me s cur p → wp True (f cur p) Q s) →
  wp True (let! cur := myproc me in let! p := read_proc cur in f cur p) Q s.
Proof.
  intros HQ. apply wp_bind. unfold myproc. apply wp_bind. apply wp_intro. intros c s1. unfold mycpu, bind, gets.
  destruct (k_cpus s !! me) as [c'|] eqn:Ec; [|done]. intros [= <- <-]. apply wp_intro.
  intros cur s1. unfold lift. destruct (c_proc c') as [cur'|] eqn:Ep; [|done]. intros [= <- <-].
  apply wp_bind, wp_intro. intros p s1. unfold read_proc, bind, gets, lift.
  destruct (get_proc cur' (k_pt s)) as [q| | |] eqn:Eq; try done. intros [= <- <-].
  apply HQ. exists c'. split_and!; [done|done|by apply get_proc_ret].
Qed.
Lemma wp_set_cur (f : proc → proc) (Q : unit → kstate W → Prop) s :
  (∀ cur p t, current me s cur p → upd_proc cur f (k_pt s) = Ret t → Q tt (with_pt t s)) →
  wp True (let! cur := myproc me in write_proc cur f) Q s.
Proof.
  intros HQ. apply wp_bind, wp_intro. intros cur s1. unfold myproc, mycpu, bind, gets, lift.
  destruct (k_cpus s !! me) as [c|] eqn:Ec; [|done]. cbn. destruct (c_proc c) as [i|] eqn:Ei; [|done].
  intros [= <- <-]. apply wp_intro. intros [] s1. unfold write_proc, on_pt, zoom.
  destruct (upd_proc i f (k_pt s)) as [t| | |] eqn:Et; try done. intros [= <-].
  unfold upd_proc in Et. destruct (get_proc i (k_pt s)) as [p| | |] eqn:Ep; try done.
  apply (HQ i p); [|unfold upd_proc; by rewrite Ep]. exists c. split_and!; [done|done|by apply get_proc_ret].
Qed.

(** The same on the state of [trap]. *)
Implicit Types ts : tstate W.
Lemma with_k_id ts : with_k (t_k ts) ts = ts.
Proof. by destruct ts. Qed.
Lemma wp_on_k {A} (e : M (kstate W) A) Q ts :
  wp True e (λ a s, Q a (with_k s ts)) (t_k ts) → wp True (on_k e) Q ts.
Proof. apply wp_zoom. Qed.
Lemma wp_proc_field {A} (f : proc → A) Q ts :
  (∀ cur p, current me (t_k ts) cur p → Q (f p) ts) → wp True (proc_field me f) Q ts.
Proof.
  intros HQ. apply wp_on_k, wp_cur. intros cur p Hc. apply wp_ret. rewrite with_k_id. by eapply HQ.
Qed.
Lemma wp_with_args {A} (f : Z → Z → mem → A) Q ts :
  (∀ a, Q a ts) → wp True (with_args me f) Q ts.
Proof.
  intros HQ. apply wp_on_k, wp_cur. intros cur p Hc. apply wp_bind, wp_gets, wp_ret. rewrite with_k_id. apply HQ.
Qed.
Lemma wp_tf_load tf f off Q ts : (∀ v, Q v ts) → wp True (tf_load tf f off) Q ts.
Proof. intros HQ. apply wp_on_k, wp_bind, wp_gets, wp_ret. rewrite with_k_id. apply HQ. Qed.
Lemma wp_cur_proc Q ts :
  (∀ c, k_cpus (t_k ts) !! me = Some c → Q (c_proc c) ts) → wp True (cur_proc me) Q ts.
Proof.
  intros HQ. apply wp_on_k, wp_bind, wp_intro. intros c s1. unfold mycpu, bind, gets.
  destruct (k_cpus (t_k ts) !! me) as [c'|] eqn:Ec; [|done]. intros [= <- <-].
  apply wp_ret. rewrite with_k_id. by apply HQ.
Qed.
End Rules.

(** ** [trap] refines the scheduler's machine *)

(** Where the machine of Sched.v is when [trap] is at a point. *)
Definition phase_of (c : point) : phase :=
  match c with
  | AtStack np => (false, Forking np)
  | AtChild np => (false, ForkStack np)
  | AtWoken _ _ => (false, Reacquire TICKS_LOCK)
  | InSleep _ _ | InWait | InYield | InExit => (true, Left)
  | _ => (false, Run)
  end.

(** A computation of a running process that is made of steps of that machine. *)
Definition by_steps {W A} `{FileOps W} (kend data fr tr : Z) (may : kstate W → Z → Z → Prop) (me : nat)
    (e : M (tstate W) A) : Prop :=
  ∀ s a s' phs, phs !! me = Some (false, Run) → e s = Ret (a, s') →
    rtc (step kend data fr tr may) (mkG (t_k s) phs) (mkG (t_k s') phs).
(** What the handlers and the system calls of the other parts promise. *)
Class TrapLaws (W : Type) `{FileOps W} `{TrapOps W} (kend data fr tr : Z) (may : kstate W → Z → Z → Prop)
    (me : nat) : Prop := {
  tl_ideintr : by_steps kend data fr tr may me (to_ideintr me);
  tl_kbdintr : by_steps kend data fr tr may me (to_kbdintr me);
  tl_uartintr : by_steps kend data fr tr may me (to_uartintr me);
  tl_file h : by_steps kend data fr tr may me (to_file me h) }.

(** [allocproc] returns the slot it was given. *)
Lemma alloc_stack_same {W} fr tr np (s : kstate W) o s' :
  alloc_stack fr tr np s = Ret (o, s') → ∀ j, o = Some j → j = np.
Proof.
  intros E. refine (wp_ret_inv _ (λ o _, ∀ j, o = Some j → j = np) _ _ _ _ E).
  unfold alloc_stack. apply wp_bind, wp_intro. intros k s1 _. apply wp_bind, wp_intro. intros [] s2 _.
  destruct (k =? 0); repeat (apply wp_bind, wp_intro; intros ? ? _); apply wp_ret; by intros j [=].
Qed.

Section Refine.
Context {W : Type} `{FileOps W} `{TrapOps W}.
Context (kend data fr tr : Z) (may : kstate W → Z → Z → Prop) (me : nat).
Context (g0 : config W) (phs : list phase) (Hme : (me < length phs)%nat).

(** The machine can get from [g0] to [s] with CPU [me] in phase [ph]. *)
Definition at_phase (ph : phase) (s : kstate W) : Prop :=
  rtc (step kend data fr tr may) g0 (mkG s (<[me := ph]> phs)).

Lemma at_mstep l ph ph' s s' :
  at_phase ph s → mstep kend data fr tr me l ph s ph' s' → allowed may l s → at_phase ph' s'.
Proof using Hme.
  intros Hs Hm Hl. eapply rtc_r; [exact Hs|].
  rewrite <- (list_insert_insert_eq phs me ph' ph). apply step_cpu with (ph := ph) (l := l); [|done|done].
  by apply list_lookup_insert_eq.
Qed.
(** An operation whose results are steps. *)
Lemma wp_at {A} (e : M (kstate W) A) ph (Q : A → kstate W → Prop) s :
  at_phase ph s →
  (∀ a s', e s = Ret (a, s') → ∃ l ph', mstep kend data fr tr me l ph s ph' s' ∧ allowed may l s ∧ (at_phase ph' s' → Q a s')) →
  wp True e Q s.
Proof using Hme.
  intros Hs He. apply wp_intro. intros a s' E. destruct (He _ _ E) as (l & ph' & Hm & Hl & HQ).
  apply HQ. by eapply at_mstep.
Qed.

(** The process changes its own fields, memory and files. *)
Lemma at_own s cur p f t km w :
  at_phase (false, Run) s → current me s cur p →
  (∀ p, p_state (f p) = p_state p ∧ p_priority (f p) = p_priority p ∧
        p_next (f p) = p_next p ∧ (p_pgdir p ≠ 0 → p_pgdir (f p) ≠ 0)) →
  upd_proc cur f (k_pt s) = Ret t →
  at_phase (false, Run) (with_w w (with_km km (with_pt t s))).
Proof using Hme. intros Hs (c & Hc & Hp & _) Hf Ht. eapply at_mstep; [done|by eapply m_own|done]. Qed.
Lemma at_km s cur p km : at_phase (false, Run) s → current me s cur p → at_phase (false, Run) (with_km km s).
Proof using Hme.
  intros Hs Hcur. replace (with_km km s) with (with_w (k_w s) (with_km km (with_pt (k_pt s) s))) by (by destruct s).
  apply at_own with (cur := cur) (p := p) (f := λ p, p); [done|done|done|].
  destruct Hcur as (c & _ & _ & Hp). unfold upd_proc, get_proc. rewrite Hp. simpl.
  f_equal. unfold set_procs. destruct (k_pt s) as [ps rl fl ttr]. simpl in *. by rewrite list_insert_id.
Qed.

(** On the state of [trap]. *)
Definition in_phase (ph : phase) (ts : tstate W) : Prop := at_phase ph (t_k ts).
Abbreviation running := (in_phase (false, Run)).

Lemma wp_steps {A} (e : M (tstate W) A) ts :
  by_steps kend data fr tr may me e → running ts → wp True e (λ _, running) ts.
Proof using Hme.
  intros He Hts. apply wp_intro. intros a ts' E. unfold in_phase, at_phase in *.
  etrans; [exact Hts|]. eapply He; [|exact E]. by apply list_lookup_insert_eq.
Qed.
Lemma wp_op {A} (e : M (kstate W) A) ph ph' ts :
  (∀ s a s', e s = Ret (a, s') → mstep kend data fr tr me None ph s (ph' a) s') →
  in_phase ph ts → wp True (on_k e) (λ a ts', in_phase (ph' a) ts') ts.
Proof using Hme.
  intros He Hts. apply wp_on_k. eapply wp_at; [exact Hts|]. intros a s' E. exists None, (ph' a).
  split_and!; [by apply He|done|done].
Qed.
Lemma wp_tacquire ts : running ts → wp True (on_k (acquire_lock me TICKS_LOCK)) (λ _, running) ts.
Proof using Hme. apply (wp_op _ _ (λ _, (false, Run))). intros s [] s' E. by eapply m_acquire; [right|..]. Qed.
Lemma wp_trelease ts : running ts → wp True (on_k (release_lock me TICKS_LOCK)) (λ _, running) ts.
Proof using Hme. apply (wp_op _ _ (λ _, (false, Run))). intros s [] s' E. by eapply m_release; [right|..]. Qed.
Lemma wp_exit_steps ts : running ts → wp True (sys_exit me) (λ _, in_phase (true, Left)) ts.
Proof using Hme. apply (wp_op _ _ (λ _, (true, Left))). intros s [] s' E. by apply m_exit. Qed.

Lemma wp_set_field f ts :
  (∀ p, p_state (f p) = p_state p ∧ p_priority (f p) = p_priority p ∧
        p_next (f p) = p_next p ∧ (p_pgdir p ≠ 0 → p_pgdir (f p) ≠ 0)) →
  running ts → wp True (set_proc_field me f) (λ _, running) ts.
Proof using Hme.
  intros Hf Hts. apply wp_on_k, wp_set_cur. intros cur p t Hcur Ht.
  unfold in_phase. cbn [t_k with_k].
  replace (with_pt t (t_k ts)) with (with_w (k_w (t_k ts)) (with_km (k_km (t_k ts)) (with_pt t (t_k ts)))) by done.
  by eapply at_own.
Qed.
Lemma wp_km (f : nat → proc → kmem → kmem) ts :
  running ts →
  wp True (on_k (let! cur := myproc me in let! p := read_proc cur in on_km (modify (f cur p)))) (λ _, running) ts.
Proof using Hme.
  intros Hts. apply wp_on_k, wp_cur. intros cur p Hcur. apply wp_on_km. intros _ k. by eapply at_km.
Qed.
Lemma wp_store_user va bs ts : running ts → wp True (store_user me va bs) (λ _, running) ts.
Proof using Hme. apply (wp_km (λ _ p, put_user (p_pgdir p) va bs)). Qed.
Lemma wp_set_eax r ts : running ts → wp True (set_eax me r) (λ _, running) ts.
Proof using Hme.
  apply (wp_km (λ _ p k, set_km_mem ((λ m, store32 m (p_tf p + tf_eax) r) (km_mem k)) k)).
Qed.

(** Every system call of sysproc.c that returns without switching. *)
Lemma wp_then {A B} (e : M (tstate W) A) (k : A → M (tstate W) B) (P : A → tstate W → Prop) Q ts :
  wp True e P ts → (∀ a ts', P a ts' → wp True (k a) Q ts') → wp True (bind e k) Q ts.
Proof. intros He Hk. apply wp_bind. eapply wp_mono; [exact He|exact Hk]. Qed.
Ltac with_arg a := apply wp_bind, wp_with_args; intros [a|]; [|by apply wp_ret].

Lemma steps_kill ts : running ts → wp True (sys_kill me) (λ _, running) ts.
Proof using Hme.
  intros Hts. unfold sys_kill, arg_int. with_arg pid.
  apply (wp_op _ (false, Run) (λ _, (false, Run))); [|done]. intros s a s' E. by eapply m_kill.
Qed.
Lemma steps_sbrk ts : running ts → wp True (sys_sbrk kend me) (λ _, running) ts.
Proof using Hme.
  intros Hts. unfold sys_sbrk, arg_int. with_arg n. apply wp_bind, wp_proc_field. intros cur p _.
  eapply wp_then.
  - apply (wp_op _ (false, Run) (λ _, (false, Run))); [|done]. intros s a s' E. by eapply m_grow.
  - intros r ts' Hts'. by destruct (r <? 0); apply wp_ret.
Qed.
Lemma steps_uptime ts : running ts → wp True (sys_uptime me) (λ _, running) ts.
Proof using Hme.
  intros Hts. unfold sys_uptime. eapply wp_then; [by apply wp_tacquire|]. intros [] ts1 H1.
  apply wp_bind, wp_gets. eapply wp_then; [by apply wp_trelease|]. intros [] ts2 H2. by apply wp_ret.
Qed.
Lemma steps_date cmos fuel ts : running ts → wp True (sys_date me cmos fuel) (λ _, running) ts.
Proof using Hme.
  intros Hts. unfold sys_date, arg_ptr. apply wp_bind, wp_with_args. intros [d|]; [|done].
  apply wp_bind. apply wp_zoom, wp_intro. intros r n _.
  eapply wp_then; [by apply wp_store_user|]. intros [] ts1 H1. by apply wp_ret.
Qed.
Lemma steps_getppid ts : running ts → wp True (sys_getppid me) (λ _, running) ts.
Proof using Hme.
  intros Hts. unfold sys_getppid. apply wp_bind, wp_proc_field. intros cur p _. apply wp_on_k, wp_intro.
  intros a s'. unfold bind, lift, read_proc, gets, ret. destruct (deref (p_parent p)) as [q| | |]; try done.
  cbn. destruct (get_proc q (k_pt (t_k ts))); try done. intros [= <- <-]. by rewrite with_k_id.
Qed.
Lemma steps_setuid ts : running ts → wp True (sys_setuid me) (λ _, running) ts.
Proof using Hme.
  intros Hts. unfold sys_setuid, arg_int. with_arg u.
  eapply wp_then; [by apply wp_set_field|]. intros [] ts1 H1. by apply wp_ret.
Qed.
Lemma steps_setgid ts : running ts → wp True (sys_setgid me) (λ _, running) ts.
Proof using Hme.
  intros Hts. unfold sys_setgid, arg_int. with_arg u.
  eapply wp_then; [by apply wp_set_field|]. intros [] ts1 H1. by apply wp_ret.
Qed.
Lemma steps_getprocs ts : running ts → wp True (sys_getprocs me) (λ _, running) ts.
Proof using Hme.
  intros Hts. unfold sys_getprocs, arg_int, arg_ptr. with_arg mx. with_arg tbl.
  apply wp_bind. unfold user_table. apply wp_on_k, wp_cur. intros cur p _. apply wp_bind, wp_gets, wp_ret.
  rewrite with_k_id. apply wp_bind, wp_on_k, wp_gets. rewrite with_k_id.
  apply wp_bind, wp_intro. intros [r us] ts1 E. unfold lift in E. destruct (getProcInfo _ _ _); [|done..].
  injection E as -> <-.
  eapply wp_then; [by apply wp_store_user|]. intros [] ts1 H1. by apply wp_ret.
Qed.
(** When the system call of the process is [setpriority], its arguments are ones
    that [may] allows. *)
Definition prio_allowed (ts : tstate W) : Prop :=
  ∀ cur p pid pr, current me (t_k ts) cur p →
    i32 (load32 (km_mem (k_km (t_k ts))) (p_tf p + tf_eax)) = sysnum SYS_setpriority →
    arg_int me 0 ts = Ret (Some pid, ts) → arg_int me 1 ts = Ret (Some pr, ts) → may (t_k ts) pid pr.
Lemma arg_int_same n (ts : tstate W) o ts' : arg_int me n ts = Ret (o, ts') → ts' = ts.
Proof. intros E. refine (wp_ret_inv _ (λ _ ts', ts' = ts) _ _ _ _ E). by apply wp_with_args. Qed.
Lemma steps_setpriority ts :
  (∀ pid pr, arg_int me 0 ts = Ret (Some pid, ts) → arg_int me 1 ts = Ret (Some pr, ts) → may (t_k ts) pid pr) → running ts → wp True (sys_setpriority me) (λ _, running) ts.
Proof using Hme.
  intros Hok Hts. unfold sys_setpriority. apply wp_bind, wp_intro. intros o ts1 E1.
  pose proof (arg_int_same _ _ _ _ E1) as ->. destruct o as [pid|]; [|done].
  apply wp_bind, wp_intro. intros o ts1 E2. pose proof (arg_int_same _ _ _ _ E2) as ->. destruct o as [pr|]; [|done].
  apply wp_on_k. eapply (wp_at _ (false, Run)); [exact Hts|]. intros a s' E. exists (Some (pid, pr)), (false, Run).
  split_and!; [by eapply m_setpriority|exact (Hok _ _ E1 E2)|done].
Qed.

(** The parts of [trap]. *)
Context (ticks_addr : Z) (cmos : nat → Z → Z) (date_fuel : nat) (tf : Z).
Definition follows (e : M (tstate W) point) : Prop :=
  ∀ ts, running ts → wp True e (λ c ts', in_phase (phase_of c) ts') ts.

Lemma follows_plain (e : M (tstate W) Z) :
  (∀ ts, running ts → wp True e (λ _, running) ts) → follows (plain e).
Proof. intros He ts Hts. eapply wp_then; [by apply He|]. intros r ts1 H1. by apply wp_ret. Qed.
Lemma follows_field (f : proc → Z) : follows (plain (proc_field me f)).
Proof. apply follows_plain. intros ts Hts. by apply wp_proc_field. Qed.
Lemma follows_exit c : phase_of c = (true, Left) → follows (sys_exit me ;! ret c).
Proof using Hme.
  intros Hc ts Hts. eapply wp_then; [by apply wp_exit_steps|]. intros [] ts1 H1. apply wp_ret. by rewrite Hc.
Qed.

Lemma follows_fork : follows (sys_call kend me cmos date_fuel SYS_fork).
Proof using Hme.
  intros ts Hts. eapply wp_then.
  - apply (wp_op _ (false, Run) (λ o, match o with None => (false, Run) | Some np => (false, Forking np) end)); [|done].
    intros s [np|] s' E; [by apply m_slot|by apply m_noslot].
  - intros [np|] ts1 H1; by apply wp_ret.
Qed.
Lemma follows_wait : follows (sys_call kend me cmos date_fuel SYS_wait).
Proof using Hme.
  intros ts Hts. eapply wp_then.
  - apply (wp_op _ (false, Run) (λ o, match o with None => (true, Left) | Some _ => (false, Run) end)); [|done].
    intros s [r|] s' E; [by eapply m_wait|by apply m_wait_switch].
  - intros [r|] ts1 H1; by apply wp_ret.
Qed.
Lemma follows_sleep : follows (sys_call kend me cmos date_fuel SYS_sleep).
Proof using Hme.
  intros ts Hts. unfold sys_call, sys_sleep. apply wp_bind. unfold arg_int. with_arg n.
  eapply wp_then; [by apply wp_tacquire|]. intros [] ts1 H1. apply wp_bind, wp_gets, wp_ret. by apply wp_ret.
Qed.
Lemma follows_call `{!TrapLaws W kend data fr tr may me} h ts :
  (h = SYS_setpriority →
    ∀ pid pr, arg_int me 0 ts = Ret (Some pid, ts) → arg_int me 1 ts = Ret (Some pr, ts) → may (t_k ts) pid pr) →
  running ts → wp True (sys_call kend me cmos date_fuel h) (λ c ts', in_phase (phase_of c) ts') ts.
Proof using Hme.
  intros Hok Hts.
  destruct (decide (h = SYS_setpriority)) as [->|Hne].
  { eapply wp_then; [apply steps_setpriority; [by apply Hok|done]|]. intros r ts1 H1. by apply wp_ret. }
  clear Hok. revert ts Hts. change (follows (sys_call kend me cmos date_fuel h)). destruct h; try done; first
    [ exact follows_fork | exact follows_wait | exact follows_sleep
    | by apply follows_exit | apply follows_field
    | apply follows_plain; first [exact steps_kill | exact steps_sbrk | exact steps_uptime
        | exact (steps_date cmos date_fuel) | exact steps_getppid | exact steps_setuid | exact steps_setgid
        | exact steps_getprocs
        | by intros ts Hts; apply wp_ret
        | intros ts Hts; apply wp_steps; [apply tl_file|done] ] ].
Qed.

Lemma follows_ret c : phase_of c = (false, Run) → follows (ret c).
Proof. intros Hc ts Hts. apply wp_ret. by rewrite Hc. Qed.
Lemma follows_syscall `{!TrapLaws W kend data fr tr may me} ts :
  prio_allowed ts → running ts →
  wp True (trap_syscall kend me cmos date_fuel) (λ c ts', in_phase (phase_of c) ts') ts.
Proof using Hme.
  intros Hok Hts. unfold trap_syscall. apply wp_bind, wp_on_k, wp_cur. intros cur p Hcur.
  apply wp_bind, wp_gets, wp_ret. rewrite with_k_id. set (num := i32 _).
  destruct ((0 <? num) && (num <? NELEM_syscalls)) eqn:Hn; [|by apply follows_ret].
  destruct (syscalls !! _) as [[h|]|] eqn:Hh; [|by apply follows_ret..].
  apply follows_call; [|done]. intros -> pid pr. apply (Hok cur p pid pr Hcur).
  apply andb_true_iff in Hn as [Hn _]. apply Z.ltb_lt in Hn. apply syscalls_lookup in Hh. rewrite Z2Nat.id in Hh by lia. exact Hh.
Qed.
Lemma follows_killed c : phase_of c = (false, Run) → follows (exit_if_killed me c).
Proof using Hme.
  intros Hc ts Hts. apply wp_bind, wp_proc_field. intros cur p _.
  destruct (truth _); [by apply follows_exit|by apply follows_ret].
Qed.
Lemma follows_killed_user c : phase_of c = (false, Run) → follows (exit_if_killed_user me tf c).
Proof using Hme.
  intros Hc ts Hts. apply wp_bind, wp_cur_proc. intros cp _. destruct (c_proc cp); [|by apply follows_ret].
  apply wp_bind, wp_proc_field. intros cur p _. destruct (truth _); [|by apply follows_ret].
  apply wp_bind. unfold user_mode. apply wp_bind, wp_tf_load. intros cs. apply wp_ret.
  destruct (_ =? _); [by apply follows_exit|by apply follows_ret].
Qed.
Lemma follows_entry : follows (trap_entry me tf).
Proof using Hme.
  intros ts Hts. apply wp_bind, wp_tf_load. intros no. destruct (no =? T_SYSCALL); [|by apply follows_ret].
  eapply wp_then; [by apply follows_killed|]. intros c ts1 H1.
  destruct c; try (by apply wp_ret). eapply wp_then; [by apply wp_set_field|]. intros [] ts2 H2. by apply wp_ret.
Qed.
Lemma steps_tick ts : running ts → wp True (tick me ticks_addr) (λ _, running) ts.
Proof using Hme.
  intros Hts. unfold tick. destruct (me =? 0)%nat; [|by apply wp_skip].
  eapply wp_then; [by apply wp_tacquire|]. intros [] ts1 H1. apply wp_bind, wp_modify.
  eapply (wp_then _ _ (λ _, running)); [|intros [] ts2 H2; by apply wp_trelease].
  apply (wp_op _ (false, Run) (λ _, (false, Run))); [|done]. intros s [] s' E. eapply m_wakeup; [by right|done].
Qed.
Lemma steps_switch `{!TrapLaws W kend data fr tr may me} ts :
  running ts → wp True (trap_switch me ticks_addr tf) (λ _, running) ts.
Proof using Hme.
  intros Hts. apply wp_bind, wp_tf_load. intros no.
  repeat (destruct (no =? _); [first [by apply steps_tick | by apply wp_skip
    | apply wp_steps; [first [apply tl_ideintr | apply tl_kbdintr | apply tl_uartintr]|done]]|]).
  destruct (_ || _); [by apply wp_skip|]. apply wp_bind, wp_cur_proc. intros cp _.
  apply wp_bind, wp_tf_load. intros cs. destruct (c_proc cp); [|done].
  destruct (_ =? 0); [done|]. by apply wp_set_field.
Qed.
Lemma follows_yield : follows (trap_yield me tf).
Proof using Hme.
  intros ts Hts. apply wp_bind, wp_cur_proc. intros cp _. destruct (c_proc cp); [|by apply follows_ret].
  apply wp_bind, wp_proc_field. intros cur p _. destruct (bool_decide _); [|by apply follows_ret].
  apply wp_bind, wp_tf_load. intros no. destruct (no =? _); [|by apply follows_ret].
  eapply (wp_then _ _ (λ _, in_phase (true, Left))); [|intros [] ts1 H1; by apply wp_ret].
  apply (wp_op _ (false, Run) (λ _, (true, Left))); [|done]. intros s [] s' E. by apply m_yield.
Qed.
Lemma follows_round n ticks0 :
  follows (let! o := sys_sleep_round me ticks_addr n ticks0 in
           ret match o with None => InSleep n ticks0 | Some r => AtResult r end).
Proof using Hme.
  intros ts Hts. eapply (wp_then _ _ (λ o, in_phase match o with None => (true, Left) | Some _ => (false, Run) end));
    [|intros [r|] ts1 H1; by apply wp_ret].
  unfold sys_sleep_round. apply wp_bind, wp_gets. destruct (_ <? _).
  - apply wp_bind, wp_proc_field. intros cur p _. destruct (truth _).
    + eapply wp_then; [by apply wp_trelease|]. intros [] ts1 H1. by apply wp_ret.
    + eapply (wp_then _ _ (λ _, in_phase (true, Left))); [|intros [] ts1 H1; by apply wp_ret].
      apply (wp_op _ (false, Run) (λ _, (true, Left))); [|done]. intros s [] s' E. by eapply m_sleep.
  - eapply wp_then; [by apply wp_trelease|]. intros [] ts1 H1. by apply wp_ret.
Qed.

Lemma follows_step `{!TrapLaws W kend data fr tr may me} c ts :
  (c = AtSyscall → prio_allowed ts) → in_phase (phase_of c) ts →
  wp True (trap_step kend data fr tr me ticks_addr cmos date_fuel tf c)
    (λ c' ts', in_phase (phase_of c') ts') ts.
Proof using Hme.
  intros Hok Hts. destruct c; simpl trap_step; try done.
  - by apply follows_entry.
  - apply follows_syscall; [by apply Hok|done].
  - eapply (wp_then _ _ (λ o, in_phase (phase_of match o with None => AtResult (-1) | Some j => AtChild j end)));
      [|intros [j|] ts1 H1; by apply wp_ret].
    apply (wp_op _ (false, Forking np) (λ o, phase_of match o with None => AtResult (-1) | Some j => AtChild j end)); [|done].
    intros s o s' E. pose proof (alloc_stack_same _ _ _ _ _ _ E) as Ho. destruct o as [j|]; simpl.
    + rewrite (Ho j eq_refl) in *. by apply m_stack.
    + by eapply m_nostack.
  - eapply (wp_then _ _ (λ _, running)); [|intros r ts1 H1; by apply wp_ret].
    apply (wp_op _ (false, ForkStack np) (λ _, (false, Run))); [|done]. intros s r s' E. by eapply m_fork.
  - by apply follows_round.
  - eapply (wp_then _ _ (λ _, running)); [|intros [] ts1 H1; by apply wp_ret].
    apply (wp_op _ (false, Reacquire TICKS_LOCK) (λ _, (false, Run))); [|done]. intros s [] s' E. by eapply m_reacquire.
  - eapply wp_then; [by apply wp_set_eax|]. intros [] ts1 H1. by apply wp_ret.
  - by apply follows_killed.
  - eapply wp_then; [by apply steps_switch|]. intros [] ts1 H1. by apply wp_ret.
  - by apply follows_killed_user.
  - by apply follows_yield.
  - by apply follows_killed_user.
Qed.
Lemma follows_resume c ts :
  in_phase (true, Resuming) ts →
  wp True (trap_resume kend me c) (λ c' ts', in_phase (phase_of c') ts') ts.
Proof using Hme.
  intros Hts. unfold trap_resume.
  eapply (wp_then _ _ (λ r, in_phase match r with
    | RCaller | RWait _ => (false, Run) | RSleep l => (false, Reacquire l) | RSwitch => (true, Left) end)).
  - eapply (wp_op _ _ (λ r, match r with
      | RCaller | RWait _ => (false, Run) | RSleep l => (false, Reacquire l) | RSwitch => (true, Left) end)); [|done].
    intros s [] s' E; [by apply m_resume|by apply m_resume_sleep|by eapply m_resume_wait|by apply m_resume_switch].
  - intros r ts1 H1. destruct c, r; try done; try (by apply wp_ret).
    destruct (Nat.eqb_spec l TICKS_LOCK) as [->|]; [by apply wp_ret|done].
Qed.
End Refine.

(** Traps are steps of the scheduler's machine, for handlers and system calls
    of the other parts that are made of such steps; TrapFs.v has those. *)
Lemma trap_steps {W} `{FileOps W} `{TrapOps W} kend data fr tr me ticks_addr cmos fuel tf
    `{!TrapLaws W kend data fr tr may_set_ok me} c s c' s' phs :
  (c = AtSyscall → prio_allowed may_set_ok me s) →
  (phs !! me = Some (phase_of c) ∧ trap_step kend data fr tr me ticks_addr cmos fuel tf c s = Ret (c', s')) ∨
  (phs !! me = Some (true, Resuming) ∧ trap_resume kend me c s = Ret (c', s')) →
  rtc (step kend data fr tr may_set_ok) (mkG (t_k s) phs) (mkG (t_k s') (<[me := phase_of c']> phs)) ∧
  (Inv (mkG (t_k s) phs) → Inv (mkG (t_k s') (<[me := phase_of c']> phs))).
Proof.
  intros Hok Hstep.
  assert (rtc (step kend data fr tr may_set_ok) (mkG (t_k s) phs) (mkG (t_k s') (<[me := phase_of c']> phs))) as Hr.
  { destruct Hstep as [[Hph E]|[Hph E]]; pose proof (lookup_lt_Some _ _ _ Hph) as Hlt.
    - refine (wp_ret_inv _ _ _ _ _ (follows_step kend data fr tr may_set_ok me (mkG (t_k s) phs) phs Hlt
        ticks_addr cmos fuel tf c s Hok _) E). unfold in_phase, at_phase. rewrite list_insert_id by done. apply rtc_refl.
    - refine (wp_ret_inv _ _ _ _ _ (follows_resume kend data fr tr may_set_ok me (mkG (t_k s) phs) phs Hlt
        c s _) E). unfold in_phase, at_phase. rewrite list_insert_id by done. apply rtc_refl. }
  split; [exact Hr|]. by apply (Inv_steps kend data fr tr).
Qed.
(** Other parts that do nothing. *)
#[export] Instance no_traps : TrapOps unit := {
  to_ideintr _ := skip; to_kbdintr _ := skip; to_uartintr _ := skip; to_file _ _ := ret (-1) }.
#[export] Instance no_traps_laws may me : TrapLaws unit 0 0 0 0 may me.
Proof. by split; intros; intros s a s' phs _ [= <- <-]. Qed.
(** The machine of [two_config], at the entry of a clock interrupt in user
    mode; the trap frame is at 4096. *)
Definition wframe : mem := λ a, if a =? 4096 + tf_trapno then 32 else if a =? 4096 + tf_cs then 0x23 else 0.
Definition wtrap : tstate unit :=
  mkT (with_km (mkKmem 0 0 wframe) (g_k two_config)) 7 0.
Abbreviation wstep := (trap_step 0 0 0 0 0 4 (λ _ _, 0) 1 4096).
Abbreviation wnext c s := match wstep c s with Ret (_, s') => s' | _ => s end.
(** ** A killed process *)

(** The current process is not killed. *)
Definition not_killed {W} (me : nat) (s : kstate W) : Prop :=
  ∃ cur p, current me s cur p ∧ p_killed p = 0.

Section Killed.
Context {W : Type} `{FileOps W} `{TrapOps W}.
Context (kend data fr tr : Z) (me : nat) (ticks_addr : Z) (cmos : nat → Z → Z) (date_fuel : nat) (tf : Z).

Lemma killed_check next c ts ts' :
  exit_if_killed me next ts = Ret (c, ts') →
  (c = InExit ∧ ¬ not_killed me (t_k ts) ∧ sys_exit me ts = Ret (tt, ts')) ∨ (c = next ∧ ts' = ts ∧ not_killed me (t_k ts)).
Proof.
  intros E. refine (wp_ret_inv _ (λ c ts', (c = InExit ∧ _ ∧ sys_exit me ts = Ret (tt, ts')) ∨ (c = next ∧ ts' = ts ∧ _)) _ _ _ _ E).
  apply wp_bind, wp_proc_field. intros cur p Hcur. destruct (truth (p_killed p)) eqn:Ek.
  - apply wp_bind, wp_intro. intros [] ts1 Ex. apply wp_ret. left. split_and!; [done| |done]. intros (cur' & p' & Hcur' & Hk).
    apply truth_true in Ek. destruct Hcur as (c1 & ? & ? & ?), Hcur' as (c2 & ? & ? & ?). by simplify_eq.
  - apply wp_ret. right. split_and!; [done|done|]. exists cur, p. split; [done|]. by apply truth_false.
Qed.

(** The interrupted code is user code; CPU [me] runs no process. *)
Definition from_user (ts : tstate W) : Prop :=
  Z.land (load16 (km_mem (k_km (t_k ts))) (tf + tf_cs)) 3 = DPL_USER.
Definition no_process (ts : tstate W) : Prop := ∃ c, k_cpus (t_k ts) !! me = Some c ∧ c_proc c = None.

Lemma killed_check_user next c ts ts' :
  exit_if_killed_user me tf next ts = Ret (c, ts') →
  (c = InExit ∧ sys_exit me ts = Ret (tt, ts')) ∨ (c = next ∧ ts' = ts ∧ (from_user ts → no_process ts ∨ not_killed me (t_k ts))).
Proof.
  intros E. refine (wp_ret_inv _ (λ c ts', (c = InExit ∧ sys_exit me ts = Ret (tt, ts')) ∨ (c = next ∧ ts' = ts ∧ _)) _ _ _ _ E).
  apply wp_bind, wp_cur_proc. intros cp Hcp. destruct (c_proc cp) as [i|] eqn:Ei.
  2:{ apply wp_ret. right. split_and!; [done|done|]. intros _. left. by exists cp. }
  apply wp_bind, wp_proc_field. intros cur p Hcur. destruct (truth (p_killed p)) eqn:Ek.
  - apply wp_bind. unfold user_mode. apply wp_bind, wp_on_k, wp_bind, wp_gets, wp_ret. rewrite with_k_id.
    apply wp_ret. destruct (Z.eqb_spec (Z.land (load16 (km_mem (k_km (t_k ts))) (tf + tf_cs)) 3) DPL_USER) as [|Hu].
    + apply wp_bind, wp_intro. intros [] ts1 Ex. apply wp_ret. by left.
    + apply wp_ret. right. split_and!; [done|done|]. intros Hf. by destruct Hu.
  - apply wp_ret. right. split_and!; [done|done|]. intros _. right. exists cur, p. split; [done|]. by apply truth_false.
Qed.

Lemma trapno_eq (ts : tstate W) : trapno tf ts = Ret (load32 (km_mem (k_km (t_k ts))) (tf + tf_trapno), ts).
Proof. by destruct ts. Qed.
(** [trap] returns at its two last checks only. *)
Ltac walk := repeat first
  [ by (apply wp_ret; repeat case_match) | done
  | apply wp_bind, wp_intro; intros ? ? _
  | match goal with |- wp _ (match ?x with _ => _ end) _ _ => destruct x end ].
Lemma return_points c s s' :
  trap_step kend data fr tr me ticks_addr cmos date_fuel tf c s = Ret (Returned, s') → c = AtSysDone ∨ c = AtLast.
Proof.
  intros E. destruct (decide (c = AtSysDone ∨ c = AtLast)) as [|Hc]; [done|].
  assert (wp True (trap_step kend data fr tr me ticks_addr cmos date_fuel tf c) (λ c' _, c' ≠ Returned) s) as Hwp;
    [|by destruct (wp_ret_inv _ _ _ _ _ Hwp E)].
  destruct c; try (destruct Hc; by auto); cbn [trap_step].
  { apply wp_bind, wp_intro. intros no s1 _. destruct (no =? T_SYSCALL); [|by apply wp_ret].
    apply wp_bind, wp_intro. intros c1 s2 E1. destruct (killed_check _ _ _ _ E1) as [(-> & _)|(-> & _)]; walk. }
  all: unfold trap_syscall, trap_yield, exit_if_killed_user, plain; walk.
  all: match goal with h : sysno |- _ => destruct h end; unfold sys_call, plain; walk.
Qed.
(** [trap] gets into [exit] by calling it on the state it has. *)
Lemma syscall_exit s s' : trap_syscall kend me cmos date_fuel s = Ret (InExit, s') → sys_exit me s = Ret (tt, s').
Proof.
  intros E. refine (wp_ret_inv _ (λ c s', c = InExit → sys_exit me s = Ret (tt, s')) _ _ _ _ E eq_refl).
  unfold trap_syscall. apply wp_bind, wp_on_k, wp_cur. intros cur p _. apply wp_bind, wp_gets, wp_ret. rewrite with_k_id.
  destruct (_ && _); [|by apply wp_ret]. destruct (syscalls !! _) as [[h|]|]; [|by apply wp_ret..].
  destruct (decide (h = SYS_exit)) as [->|Hh]; [apply wp_bind, wp_intro; intros [] s1 Ex; by apply wp_ret|].
  destruct h; try done; unfold sys_call, plain; walk.
Qed.
Lemma exit_points c s s' : trap_step kend data fr tr me ticks_addr cmos date_fuel tf c s = Ret (InExit, s') →
  phase_of c = (false, Run) ∧ sys_exit me s = Ret (tt, s').
Proof.
  intros E. destruct c; try done; cbn [trap_step] in E.
  - split; [done|]. unfold trap_entry, bind in E. rewrite trapno_eq in E. destruct (_ =? T_SYSCALL); [|done].
    destruct (exit_if_killed me AtSyscall s) as [[c1 s1]| | |] eqn:E1; try done.
    destruct (killed_check _ _ _ _ E1) as [(-> & _ & Ex)|(-> & _)]; [by injection E as ->|].
    by destruct (set_proc_field me (set_tf tf) s1) as [[]| | |].
  - split; [done|]. by apply syscall_exit.
  - exfalso. refine (wp_ret_inv _ (λ c _, c ≠ InExit) _ _ _ _ E eq_refl). walk.
  - exfalso. refine (wp_ret_inv _ (λ c _, c ≠ InExit) _ _ _ _ E eq_refl). unfold plain. walk.
  - exfalso. refine (wp_ret_inv _ (λ c _, c ≠ InExit) _ _ _ _ E eq_refl). walk.
  - exfalso. refine (wp_ret_inv _ (λ c _, c ≠ InExit) _ _ _ _ E eq_refl). walk.
  - exfalso. refine (wp_ret_inv _ (λ c _, c ≠ InExit) _ _ _ _ E eq_refl). walk.
  - split; [done|]. destruct (killed_check _ _ _ _ E) as [(_ & _ & Ex)|(? & _)]; done.
  - exfalso. refine (wp_ret_inv _ (λ c _, c ≠ InExit) _ _ _ _ E eq_refl). walk.
  - split; [done|]. destruct (killed_check_user _ _ _ _ E) as [(_ & Ex)|(? & _)]; done.
  - exfalso. refine (wp_ret_inv _ (λ c _, c ≠ InExit) _ _ _ _ E eq_refl). unfold trap_yield. walk.
  - split; [done|]. destruct (killed_check_user _ _ _ _ E) as [(_ & Ex)|(? & _)]; done.
Qed.
End Killed.

(** The scheduler does not go back into [exit]: whenever it has switched to a
    process, that process's kernel stack is not one inside [exit]. *)
Lemma resumed_stack {W} (g : config W) c cp i :
  Inv g → g_phs g !! c = Some (true, Resuming) → k_cpus (g_k g) !! c = Some cp → c_proc cp = Some i →
  ∃ k, k_konts (g_k g) !! i = Some k ∧ returns_to k = true.
Proof.
  intros [HT _] Hph Hc Hi. assert ((c_proc <$> k_cpus (g_k g)) !! c = Some (Some i)) as Hcp
    by (by rewrite list_lookup_fmap, Hc, <- Hi).
  destruct (ti_act _ _ _ _ HT _ _ _ _ Hph Hcp) as [(j & [= <-] & Hst) _]. by eapply (ti_kont _ _ _ _ HT).
Qed.
(** Claim C7: a killed process does not get back to user code.  When [trap]
    returns from a system call, or to user code from an interrupt or a fault,
    the process of the CPU is not killed at that moment, whatever other CPUs
    did while it ran.  A killed process that makes a system call exits without
    running it.  And [exit] does not return: in a state that satisfies the
    invariant of the scheduler, it leaves the process a zombie with its kernel
    stack inside [exit]; and in no later state, as long as [setpriority] is
    called as [may_set_ok] says, does the scheduler switch to a process whose
    stack is inside [exit]. *)
Theorem killed_never_returns {W} `{FileOps W} `{TrapOps W} kend data fr tr me ticks_addr cmos fuel tf c s c' s' :
  trap_step kend data fr tr me ticks_addr cmos fuel tf c s = Ret (c', s') →
  (c' = Returned → c = AtSysDone ∨ from_user tf s' → no_process me s' ∨ not_killed me (t_k s')) ∧
  (c = AtEntry → load32 (km_mem (k_km (t_k s))) (tf + tf_trapno) = T_SYSCALL →
     ¬ not_killed me (t_k s) → c' = InExit) ∧
  (c' = InExit → ∀ phs, phs !! me = Some (phase_of c) → Inv (mkG (t_k s) phs) →
     in_exit me (t_k s') ∧
     ∀ g cpu cp i, rtc (step kend data fr tr may_set_ok) (mkG (t_k s') (<[me := (true, Left)]> phs)) g →
       g_phs g !! cpu = Some (true, Resuming) → k_cpus (g_k g) !! cpu = Some cp → c_proc cp = Some i →
       ∀ n, k_konts (g_k g) !! i ≠ Some (KExit n)).
Proof.
  intros E. split_and!.
  - intros -> Hc. destruct (return_points _ _ _ _ _ _ _ _ _ _ _ _ E) as [-> | ->].
    + destruct (killed_check _ _ _ _ _ E) as [(? & _)|(_ & -> & Hk)]; [done|by right].
    + destruct (killed_check_user _ _ _ _ _ _ E) as [[? _]|(_ & -> & Hk)]; [done|]. apply Hk. by destruct Hc.
  - intros -> Hno Hk. cbn [trap_step] in E. unfold trap_entry, bind in E.
    rewrite trapno_eq, Hno in E. change (T_SYSCALL =? T_SYSCALL) with true in E. cbv beta iota in E.
    destruct (exit_if_killed me AtSyscall s) as [[c1 s1]| | |] eqn:E1; try done.
    destruct (killed_check _ _ _ _ _ E1) as [(-> & _)|(_ & _ & Hk')]; [|by destruct Hk].
    injection E as <- _. done.
  - intros -> phs Hph HI. destruct (exit_points _ _ _ _ _ _ _ _ _ _ _ _ E) as [Hc Ex]. rewrite Hc in Hph.
    assert (wp True (sys_exit me) (λ _ ts, Inv (mkG (t_k ts) (<[me := (true, Left)]> phs)) ∧ in_exit me (t_k ts)) s) as Hwp
      by (apply wp_on_k; exact (wp_exit me (t_k s) phs HI Hph)).
    destruct (wp_ret_inv _ _ _ _ _ Hwp Ex) as [HI' Hz]. split; [done|].
    intros g cpu cp i Hr Hg Hcp Hi n Hk. pose proof (Inv_steps kend data fr tr _ _ Hr HI') as HIg.
    destruct (resumed_stack _ _ _ _ HIg Hg Hcp Hi) as (k & Hk' & Hrt). rewrite Hk in Hk'. by injection Hk' as <-.
Qed.
(** Slot 1 has been killed and makes a system call. *)
Definition wkilled : tstate unit :=
  mkT (with_initproc (Some 2%nat)
        (with_km (mkKmem 0 0 (λ a, if a =? 4096 + tf_trapno then 64 else wframe a))
          (with_pt (set_procs (alter (set_killed 1) 1%nat (procs two_pt)) two_pt) (g_k two_config)))) 7 0.
Lemma killed_never_returns_witness :
  ¬ not_killed 0 (t_k wkilled) ∧
  match wstep AtEntry wkilled with Ret (c, _) => c = InExit | _ => False end ∧
  match wstep AtLast wtrap with Ret (c, s) => c = Returned ∧ (no_process 0 s ∨ not_killed 0 (t_k s)) | _ => False end.
Proof.
  assert (¬ not_killed 0 (t_k wkilled)) as Hk.
  { intros (cur & p & (c & Hc & Hcur & Hp) & Hk). vm_compute in Hc. injection Hc as <-.
    vm_compute in Hcur. injection Hcur as <-. vm_compute in Hp. injection Hp as <-. done. }
  split_and!; [exact Hk|..].
  - destruct (wstep AtEntry wkilled) as [[c s]| | |] eqn:E; [|by vm_compute in E..].
    refine (proj1 (proj2 (killed_never_returns 0 0 0 0 0 4 (λ _ _, 0) 1 4096 AtEntry wkilled c s E)) eq_refl _ Hk).
    by vm_compute.
  - destruct (wstep AtLast wtrap) as [[c s]| | |] eqn:E; [|by vm_compute in E..].
    assert (c = Returned ∧ s = wtrap) as [-> ->] by (split; vm_compute in E; by injection E).
    split; [done|]. refine (proj1 (killed_never_returns 0 0 0 0 0 4 (λ _ _, 0) 1 4096 AtLast wtrap Returned wtrap E) eq_refl _).
    right. by vm_compute.
Defined.
