(* ===== verification/TickThm.v ===== *)
(** * The clock: [sys_sleep] and the timer interrupt

    [sys_sleep] returns when enough ticks have passed and not before, whatever
    other CPUs do meanwhile; and every timer interrupt counts one tick and
    makes every process that sleeps on [ticks] runnable. *)
From S2P Require Import Prelude Machine Spinlock Kalloc Vm Proc ProcOps Sched SchedThm.
From S2P Require Import Mmu Syscall Lapic Sysproc Trap TrapThm.

Open Scope Z_scope.

(** ** What locks leave alone *)
Section Frames.
Context {W : Type} (me : nat).
Implicit Types s : kstate W.

Lemma wp_mycpu_any Q s : (∀ c, k_cpus s !! me = Some c → Q c s) → wp True (mycpu me) Q s.
Proof.
  intros HQ. apply wp_intro. intros c s'. unfold mycpu, bind, gets.
  destruct (k_cpus s !! me) as [c'|]; [|done]. intros [= <- <-]. by apply HQ.
Qed.
Lemma wp_get_lock_any l Q s : (∀ lk, k_locks s !! l = Some lk → Q lk s) → wp True (get_lock l) Q s.
Proof.
  intros HQ. apply wp_intro. intros c s'. unfold get_lock, bind, gets.
  destruct (k_locks s !! l) as [c'|]; [|done]. intros [= <- <-]. by apply HQ.
Qed.

(** The other CPUs and everything outside the process table and the locks:
    saved stacks, memory, files. *)
Definition outside s := (k_konts s, k_initproc s, k_nextpid s, k_first s, k_kpgdir s, k_km s, k_w s).
Definition same_outside s s' : Prop :=
  outside s' = outside s ∧ ∀ c, c ≠ me → k_cpus s' !! c = k_cpus s !! c.
Lemma same_outside_trans s1 s2 s3 : same_outside s1 s2 → same_outside s2 s3 → same_outside s1 s3.
Proof. intros [H1 H2] [H3 H4]. split; [by rewrite H3|]. intros c Hc. by rewrite H4, H2. Qed.

(** Only lock [l] and the interrupt state of this CPU change. *)
Definition lock_frame (l : nat) (v : spinlock) s s' : Prop :=
  k_pt s' = k_pt s ∧ c_proc <$> k_cpus s' = c_proc <$> k_cpus s ∧ k_locks s' = <[l := v]> (k_locks s) ∧
  (l < length (k_locks s))%nat ∧ same_outside s s'.

Lemma wp_acquire_frame l s : wp True (acquire_lock me l) (λ _, lock_frame l (mkLock 1 (Some me)) s) s.
Proof.
  apply wp_bind, wp_mycpu_any. intros c Hc. apply wp_bind, wp_get_lock_any. intros lk Hlk.
  apply wp_bind, wp_intro. intros [c' lk'] s'. unfold lift, acquire.
  destruct (holding me lk); [done|]. destruct (truth _); [done|]. intros [= <- <- <-].
  apply wp_bind, wp_modify, wp_modify. split_and!;
    [done| |done|by eapply lookup_lt_Some|split; [done|]; intros d Hd; by apply list_lookup_insert_ne].
  apply (fmap_insert_cproc _ _ c); [done|apply pushcli_proc].
Qed.
Lemma popcli_proc_same c c' : popcli c = Ret c' → c_proc c' = c_proc c.
Proof. unfold popcli. repeat case_match; by intros [= <-]. Qed.
Lemma wp_release_frame l s : wp True (release_lock me l) (λ _, lock_frame l (mkLock 0 None) s) s.
Proof.
  apply wp_bind, wp_mycpu_any. intros c Hc. apply wp_bind, wp_get_lock_any. intros lk Hlk.
  apply wp_bind, wp_intro. intros [c' lk'] s'. unfold lift, release.
  destruct (negb _); [done|]. destruct (popcli c) as [c2| | |] eqn:Ep; [|done..]. intros [= <- <- <-].
  apply wp_bind, wp_modify, wp_modify. split_and!;
    [done| |done|by eapply lookup_lt_Some|split; [done|]; intros d Hd; by apply list_lookup_insert_ne].
  apply (fmap_insert_cproc _ _ c); [done|by apply popcli_proc_same].
Qed.

Lemma current_iff s cur p :
  current me s cur p ↔ (c_proc <$> k_cpus s) !! me = Some (Some cur) ∧ procs (k_pt s) !! cur = Some p.
Proof.
  unfold current. rewrite list_lookup_fmap. split.
  - intros (c & -> & Hc & ->). simpl. by rewrite Hc.
  - intros [Hc Hp]. destruct (k_cpus s !! me) as [c|]; [|done]. injection Hc as Hc. eauto.
Qed.

(** [sched] changes nothing but the saved stack. *)
Lemma wp_sched_frame k s : wp True (sched me k) (λ _ s', k_pt s' = k_pt s ∧ k_cpus s' = k_cpus s) s.
Proof.
  apply wp_bind, wp_get_lock_any. intros lk _. destruct (negb _); [done|].
  apply wp_bind, wp_mycpu_any. intros c _. destruct (negb _); [done|].
  apply wp_cur. intros cur p _. destruct (bool_decide _); [done|]. destruct (truth _); [done|]. by apply wp_modify.
Qed.
Lemma wp_write_any i f Q s :
  (∀ p t, procs (k_pt s) !! i = Some p → t = set_procs (<[i := f p]> (procs (k_pt s))) (k_pt s) → Q tt (with_pt t s)) →
  wp True (write_proc i f) Q s.
Proof.
  intros HQ. apply wp_intro. intros [] s'. unfold write_proc, on_pt, zoom, upd_proc.
  destruct (get_proc i (k_pt s)) as [p| | |] eqn:Ep; [|done..]. intros [= <-]. eapply HQ; [by apply get_proc_ret|done].
Qed.

(** A process that has called [sleep] sleeps on its channel. *)
Lemma wp_sleep_state ch l s :
  wp True (sleep me ch (Some l))
    (λ _ s', ∃ cur p, current me s' cur p ∧ p_state p = SLEEPING ∧ p_chan p = ch) s.
Proof.
  apply wp_bind, wp_mycpu_any. intros c Hc. destruct (c_proc c) as [cur|] eqn:Ecur; [|done].
  apply wp_bind. eapply (wp_mono _ _ (λ _ s', c_proc <$> k_cpus s' = c_proc <$> k_cpus s)).
  { destruct (_ =? _)%nat; [by apply wp_skip|]. apply wp_bind.
    eapply wp_mono; [apply wp_acquire_frame|]. intros [] s1 (_ & H1 & _).
    eapply wp_mono; [apply wp_release_frame|]. intros [] s2 (_ & H2 & _). by rewrite H2. }
  intros [] s1 H1. apply wp_bind, wp_write_any. intros p t Hp ->. apply wp_bind, wp_write_any.
  intros q t Hq ->. eapply wp_mono; [apply wp_sched_frame|]. intros [] s2 [H2 H3]. cbn in H2, H3, Hq.
  rewrite list_lookup_insert_eq in Hq by (by eapply lookup_lt_Some). injection Hq as <-.
  exists cur, (set_state SLEEPING (set_chan ch p)). split; [|done]. apply current_iff. rewrite H3, H2. cbn.
  split; [|apply list_lookup_insert_eq; rewrite length_insert; by eapply lookup_lt_Some].
  rewrite H1, list_lookup_fmap, Hc. simpl. by rewrite Ecur.
Qed.
End Frames.

(** ** Sleeping *)
Section Sleep.
Context {W : Type} `{FileOps W} `{TrapOps W}.
Context (kend data fr tr : Z) (me : nat) (ticks_addr : Z) (cmos : nat → Z → Z) (fuel : nat) (tf : Z).
Abbreviation tstep' := (tstep kend data fr tr me ticks_addr cmos fuel tf).

(** Where [trap] can be after the start of [sys_sleep]. *)
Definition sleep_point (n ticks0 : Z) (c : point) : Prop :=
  c = AtTicks n ticks0 ∨ c = InSleep n ticks0 ∨ c = AtWoken n ticks0 ∨
  (∃ r, c = AtResult r) ∨ c = AtSysDone ∨ c = Returned ∨ c = InExit.

Lemma sleep_step n ticks0 c s c' s' :
  tstep' (c, s) (c', s') → sleep_point n ticks0 c → sleep_point n ticks0 c'.
Proof.
  unfold sleep_point. intros Hs. inversion Hs as [c1 s1 c2 s2 E|c1 s1 c2 s2 E|c1 s1 s2]; subst; [..|done].
  - intros Hc. refine (wp_ret_inv _ (λ c' _, sleep_point n ticks0 c') _ _ _ _ E). unfold sleep_point.
    destruct Hc as [-> | [-> | [-> | [[r ->] | [-> | [-> | ->]]]]]]; try done; cbn [trap_step];
      unfold exit_if_killed; repeat (apply wp_bind, wp_intro; intros ? ? _);
      repeat case_match; repeat (apply wp_bind, wp_intro; intros ? ? _); apply wp_ret; eauto 10.
  - intros [-> | [-> | [-> | [[r ->] | [-> | [-> | ->]]]]]]; unfold trap_resume, bind in E;
      destruct (on_k _ s) as [[[] t]| | |]; try done.
    destruct (Nat.eqb l TICKS_LOCK); [|done]. injection E as <- _. auto.
Qed.
Lemma sleep_steps n ticks0 c s c' s' :
  rtc tstep' (c, s) (c', s') → sleep_point n ticks0 c → sleep_point n ticks0 c'.
Proof.
  intros Hr. remember (c, s) as x eqn:Ex. remember (c', s') as y eqn:Ey. revert c s Ex.
  induction Hr as [x|x [c1 s1] z Hxy _ IH]; intros c s Ex Hc; subst; [by simplify_eq|].
  eapply (IH eq_refl); [done|]. by eapply sleep_step.
Qed.

(** What one round of [sys_sleep] leaves behind. *)
Definition round_ok (n ticks0 : Z) (s : tstate W) (c : point) (s' : tstate W) : Prop :=
  t_ticks s' = t_ticks s ∧
  match c with
  | AtResult r =>
      (r = 0 ∧ u32 n ≤ u32 (t_ticks s' - ticks0)) ∨
      (r = -1 ∧ u32 (t_ticks s' - ticks0) < u32 n ∧ ¬ not_killed me (t_k s))
  | InSleep _ _ =>
      u32 (t_ticks s' - ticks0) < u32 n ∧
      ∃ cur p, current me (t_k s') cur p ∧ p_state p = SLEEPING ∧ p_chan p = TICKS_CHAN ticks_addr
  | _ => False
  end.

Lemma wp_round n ticks0 s :
  wp True (trap_step kend data fr tr me ticks_addr cmos fuel tf (AtTicks n ticks0)) (round_ok n ticks0 s) s.
Proof.
  cbn [trap_step]. apply wp_bind. unfold sys_sleep_round. apply wp_bind, wp_gets.
  destruct (Z.ltb_spec (u32 (t_ticks s - ticks0)) (u32 n)) as [Hlt|Hge].
  - apply wp_bind, wp_proc_field. intros cur p Hcur. destruct (truth (p_killed p)) eqn:Ek.
    + apply wp_bind, wp_on_k, wp_intro. intros [] s1 _. apply wp_ret, wp_ret. split; [done|]. right.
      split_and!; [done|done|]. intros (cur' & p' & Hcur' & Hk). apply truth_true in Ek.
      destruct Hcur as (c1 & ? & ? & ?), Hcur' as (c2 & ? & ? & ?). by simplify_eq.
    + apply wp_bind, wp_on_k. eapply wp_mono; [apply wp_sleep_state|]. intros [] s1 Hs1.
      apply wp_ret, wp_ret. by split_and!.
  - apply wp_bind, wp_on_k, wp_intro. intros [] s1 _. apply wp_ret, wp_ret. split; [done|]. by left.
Qed.
Lemma round_or_other n ticks0 c s c' s' :
  sleep_point n ticks0 c → trap_step kend data fr tr me ticks_addr cmos fuel tf c s = Ret (c', s') →
  round_ok n ticks0 s c' s' ∨ (c' ≠ InSleep n ticks0 ∧ ∀ r, c' ≠ AtResult r).
Proof.
  intros [-> | Hc] E; [left; exact (wp_ret_inv _ _ _ _ _ (wp_round n ticks0 s) E)|right].
  refine (wp_ret_inv _ (λ c' _, c' ≠ InSleep n ticks0 ∧ ∀ r, c' ≠ AtResult r) _ _ _ _ E).
  destruct Hc as [-> | [-> | [[r ->] | [-> | [-> | ->]]]]]; try done; cbn [trap_step];
    unfold exit_if_killed; repeat (apply wp_bind, wp_intro; intros ? ? _);
    repeat case_match; repeat (apply wp_bind, wp_intro; intros ? ? _); by apply wp_ret.
Qed.
End Sleep.

(** ** Waking up *)

(** The processes without their list pointers. *)
Definition bare (t : ptable) : list proc := set_next None <$> procs t.
(** What [wakeup(chan)] does to a process. *)
Definition wake (ch : chan) (p : proc) : proc :=
  if bool_decide (p_state p = SLEEPING) && bool_decide (p_chan p = ch) then set_state RUNNABLE p else p.
Lemma wake_twice ch p : wake ch (wake ch p) = wake ch p.
Proof.
  unfold wake. destruct (bool_decide (p_state p = SLEEPING) && bool_decide (p_chan p = ch)) eqn:E;
    [done|by rewrite E].
Qed.

Lemma bare_upd i f t t' : upd_proc i f t = Ret t' →
  ∃ p, procs t !! i = Some p ∧ bare t' = <[i := set_next None (f p)]> (bare t).
Proof.
  unfold upd_proc. destruct (get_proc i t) as [p| | |] eqn:Ep; [|done..]. intros [= <-].
  exists p. split; [by apply get_proc_ret|]. unfold bare. simpl. by rewrite list_fmap_insert.
Qed.
Lemma bare_set_next i v t t' : upd_proc i (set_next v) t = Ret t' → bare t' = bare t.
Proof.
  intros (p & Hp & ->)%bare_upd. apply list_insert_id. unfold bare. by rewrite list_lookup_fmap, Hp.
Qed.
Lemma bare_add i t r t' : AddReadyList i t = Ret (r, t') → bare t' = bare t.
Proof.
  unfold AddReadyList. destruct (get_proc i t); [|done..]. destruct (negb _); [by intros [= _ <-]|].
  destruct (ready_index _) as [k| | |]; [|done..]. destruct (ready_head k t) as [temp|].
  - destruct (list_last NPROC temp t) as [last| | |]; [|done..].
    destruct (upd_proc i _ t) as [t1| | |] eqn:E1; [|done..].
    destruct (upd_proc last _ t1) as [t2| | |] eqn:E2; [|done..]. intros [= _ <-].
    by rewrite (bare_set_next _ _ _ _ E2), (bare_set_next _ _ _ _ E1).
  - destruct (upd_proc i _ _) as [t1| | |] eqn:E1; [|done..]. intros [= _ <-]. exact (bare_set_next _ _ _ _ E1).
Qed.

Section Wake.
Context {W : Type} (me : nat).
Implicit Types s : kstate W.

(** The processes of [l] have been looked at. *)
Definition woken (ch : chan) (l : list nat) s s' : Prop :=
  k_locks s' = k_locks s ∧ k_cpus s' = k_cpus s ∧ same_outside me s s' ∧
  ∀ j, bare (k_pt s') !! j = (if nat_mem j l then wake ch else id) <$> bare (k_pt s) !! j.

Lemma wp_wake_one ch i s :
  wp True (let! p := read_proc i in
    if bool_decide (p_state p = SLEEPING) && bool_decide (p_chan p = ch) then
      write_proc i (set_state RUNNABLE) ;! on_pt (AddReadyList i) ;! skip
    else skip) (λ _, woken ch [i] s) s.
Proof.
  apply wp_bind, wp_intro. intros p s1. unfold read_proc, bind, gets, lift.
  destruct (get_proc i (k_pt s)) as [q| | |] eqn:Eq; [|done..]. intros [= <- <-]. apply get_proc_ret in Eq.
  assert (∀ t, bare t = <[i := wake ch (set_next None q)]> (bare (k_pt s)) →
    ∀ j, bare t !! j = (if nat_mem j [i] then wake ch else id) <$> bare (k_pt s) !! j) as Hins.
  { intros t -> j. unfold nat_mem. simpl. destruct (Nat.eqb_spec j i) as [->|Hne]; simpl.
    - unfold bare. rewrite list_lookup_insert_eq by (rewrite length_fmap; by eapply lookup_lt_Some).
      by rewrite list_lookup_fmap, Eq.
    - rewrite list_lookup_insert_ne by done. by destruct (bare (k_pt s) !! j). }
  pose proof (eq_refl (wake ch (set_next None q))) as Hw. unfold wake in Hw at 2. cbn [p_state p_chan set_next] in Hw.
  destruct (_ && _).
  - apply wp_bind, wp_write_any. intros p t Hp ->. simplify_eq. apply wp_bind, wp_intro. intros r s1.
    unfold on_pt, zoom. destruct (AddReadyList i _) as [[r' t']| | |] eqn:Ea; [|done..]. intros [= <- <-].
    apply wp_skip. split_and!; [done|done|done|]. apply Hins. cbn. rewrite (bare_add _ _ _ _ Ea).
    cbn. unfold bare at 1. cbn [procs set_procs]. rewrite list_fmap_insert. by rewrite Hw.
  - apply wp_skip. split_and!; [done|done|done|]. apply Hins. rewrite Hw. symmetry. apply list_insert_id.
    unfold bare. by rewrite list_lookup_fmap, Eq.
Qed.
Lemma woken_trans ch l1 l2 s1 s2 s3 : woken ch l1 s1 s2 → woken ch l2 s2 s3 → woken ch (l1 ++ l2) s1 s3.
Proof.
  intros (H1 & H2 & Ho & H3) (H4 & H5 & Ho' & H6).
  split_and!; [by rewrite H4|by rewrite H5|by eapply same_outside_trans|].
  intros j. rewrite H6, H3. unfold nat_mem. rewrite existsb_app.
  destruct (bare (k_pt s1) !! j) as [p|]; [|done]. destruct (existsb _ l1), (existsb _ l2); simpl; f_equal.
  apply wake_twice.
Qed.
Lemma wp_woken ch l s :
  wp True (for_each l (λ i, let! p := read_proc i in
    if bool_decide (p_state p = SLEEPING) && bool_decide (p_chan p = ch) then
      write_proc i (set_state RUNNABLE) ;! on_pt (AddReadyList i) ;! skip
    else skip)) (λ _, woken ch l s) s.
Proof.
  revert s. induction l as [|i l IH]; intros s.
  - apply wp_skip. split_and!; [done|done|done|]. intros j. by destruct (bare (k_pt s) !! j).
  - cbn [for_each]. apply wp_bind. eapply wp_mono; [apply wp_wake_one|]. intros [] s1 H1.
    eapply wp_mono; [apply IH|]. intros [] s2 H2. by eapply (woken_trans _ [i]).
Qed.
Lemma wp_wakeup_effect ch s : length (procs (k_pt s)) = NPROC →
  wp True (wakeup me ch) (λ _ s', bare (k_pt s') = wake ch <$> bare (k_pt s) ∧
    k_locks s' = <[PTABLE_LOCK := mkLock 0 None]> (k_locks s) ∧ same_outside me s s') s.
Proof.
  intros Hlen. unfold wakeup. apply wp_bind. eapply wp_mono; [apply wp_acquire_frame|].
  intros [] s1 (Hp1 & _ & Hl1 & _ & Ho1). apply wp_bind. eapply wp_mono; [apply wp_woken|].
  intros [] s2 (Hl2 & _ & Ho2 & Hw). eapply wp_mono; [apply wp_release_frame|].
  intros [] s3 (Hp3 & _ & Hl3 & _ & Ho3). split_and!.
  - rewrite Hp3. apply list_eq. intros j. rewrite Hw, Hp1, list_lookup_fmap.
    destruct (bare (k_pt s) !! j) as [p|] eqn:Ej; [|done]. rewrite (proj2 (nat_mem_spec j all_procs)); [done|].
    unfold all_procs. apply elem_of_seq. apply lookup_lt_Some in Ej. unfold bare in Ej.
    rewrite length_fmap, Hlen in Ej. lia.
  - by rewrite Hl3, Hl2, Hl1, list_insert_insert_eq.
  - by eapply same_outside_trans, same_outside_trans.
Qed.

End Wake.

(** The timer interrupt on CPU 0, when the two locks it takes are free. *)
Lemma wp_tick {W} (ts : tstate W) phs a ticks_addr :
  Inv (mkG (t_k ts) phs) → phs !! 0%nat = Some (false, a) → a = Run ∨ a = Intr →
  ptable_free (t_k ts) → k_locks (t_k ts) !! TICKS_LOCK = Some (mkLock 0 None) →
  wp False (tick 0 ticks_addr) (λ _ ts',
    Inv (mkG (t_k ts') phs) ∧ t_ticks ts' = u32 (t_ticks ts + 1) ∧
    bare (k_pt (t_k ts')) = wake (TICKS_CHAN ticks_addr) <$> bare (k_pt (t_k ts)) ∧
    k_locks (t_k ts') = k_locks (t_k ts) ∧ same_outside 0 (t_k ts) (t_k ts')) ts.
Proof.
  intros HI Hph Ha Hfree Htl. unfold tick. change ((0 =? 0)%nat) with true. cbv iota.
  apply wp_bind, wp_zoom. eapply wp_mono; [eapply wp_and; [|apply wp_acquire_frame]|].
  { eapply wp_acquire_other with (Q := λ _ s', Inv (mkG s' phs)); [done|done|done|by destruct Ha as [-> | ->]..|by right|].
    by intros s' HI' _. }
  intros [] s1 [HI1 (Hp1 & _ & Hl1 & Hlt & Ho1)]. apply wp_bind, wp_modify, wp_bind, wp_zoom. cbn [t_k with_k with_ticks].
  eapply wp_mono; [eapply wp_and; [eapply wp_wakeup; [exact HI1|exact Hph|by destruct Ha as [-> | ->]|right]|apply wp_wakeup_effect]|].
  { unfold ptable_free. rewrite Hl1. by rewrite list_lookup_insert_ne. }
  { destruct HI1 as [HT _]. destruct (ti_tbl _ _ _ _ HT) as (fl & rl & (_ & _ & _ & _ & Hlen) & _). exact Hlen. }
  intros [] s2 [HI2 (Hb2 & Hl2 & Ho2)]. apply wp_zoom. cbn [t_k with_k].
  eapply wp_mono; [eapply wp_and; [|apply wp_release_frame]|].
  { eapply wp_release_other with (Q := λ _ s', Inv (mkG s' phs)); [exact HI2|exact Hph|done|right|].
    - rewrite Hl2, list_lookup_insert_ne, Hl1 by done. by apply list_lookup_insert_eq.
    - by intros s' HI' _ _ _. }
  intros [] s3 [HI3 (Hp3 & _ & Hl3 & _ & Ho3)]. cbn. split_and!; [done|done| | |].
  - rewrite Hp3, Hb2. by rewrite Hp1.
  - rewrite Hl3, Hl2, Hl1, list_insert_insert_ne, list_insert_insert_eq by done.
    rewrite (list_insert_id _ TICKS_LOCK) by done. by apply list_insert_id.
  - by eapply same_outside_trans, same_outside_trans.
Qed.
Lemma tick_when_idle {W} (ts : tstate W) phs ticks_addr :
  Inv (mkG (t_k ts) phs) → phs !! 0%nat = Some (false, Idle) →
  ptable_free (t_k ts) → k_locks (t_k ts) !! TICKS_LOCK = Some (mkLock 0 None) →
  wp False (tick 0 ticks_addr) (λ _ ts',
    Inv (mkG (t_k ts') phs) ∧ t_ticks ts' = u32 (t_ticks ts + 1) ∧
    bare (k_pt (t_k ts')) = wake (TICKS_CHAN ticks_addr) <$> bare (k_pt (t_k ts)) ∧
    k_locks (t_k ts') = k_locks (t_k ts) ∧ same_outside 0 (t_k ts) (t_k ts')) ts.
Proof.
  intros HI Hph Hfree Htl. pose proof (lookup_lt_Some _ _ _ Hph) as Hlt.
  assert (Inv (mkG (t_k ts) (<[0%nat := (false, Intr)]> phs))) as HI1 by (by eapply Inv_relabel_cpu).
  eapply wp_mono; [eapply wp_tick; [exact HI1|by apply list_lookup_insert_eq|by right|done|done]|].
  intros [] ts' (HI' & Ht & Hb & Hl & Ho). split_and!; [|done..].
  rewrite <- (insert_phase phs 0 (false, Idle)), <- (list_insert_twice phs 0 (false, Idle) (false, Intr)) by done.
  eapply Inv_relabel_cpu; [exact HI'|by apply list_lookup_insert_eq|done|done|]. intros _. rewrite Hl.
  destruct HI as [_ HL]. exact (li_only _ _ _ HL _ _ _ Hph (or_introl eq_refl)).
Qed.

(** No process is left asleep on a channel that has been woken up. *)
Lemma no_sleeper_left ch t t' i p :
  bare t' = wake ch <$> bare t → procs t' !! i = Some p → p_state p = SLEEPING → p_chan p = ch → False.
Proof.
  intros Hb Hp Hs Hc.
  assert (bare t' !! i = Some (set_next None p)) as Hi by (unfold bare; by rewrite list_lookup_fmap, Hp).
  rewrite Hb, list_lookup_fmap in Hi. destruct (bare t !! i) as [q|]; [|done]. injection Hi as Hq.
  assert (wake ch (set_next None p) = set_next None p) as Hw by (rewrite <- Hq; apply wake_twice).
  unfold wake in Hw. cbn [p_state p_chan set_next] in Hw.
  rewrite !bool_decide_eq_true_2 in Hw by done. simpl in Hw. injection Hw as Hw. by rewrite Hs in Hw.
Qed.

(** ** Theorems *)

(** Claim C21: [sys_sleep] sleeps for the given number of ticks.  From the
    moment the call has read the tick counter, whatever the other CPUs do to
    the rest of the state: [ticks0] is the counter at that moment and [n] the
    argument; when the call gives 0, [n] ticks have passed since then (counted
    modulo 2^32); when it gives -1, they have not and the process is killed;
    and when it leaves the CPU, they have not and the process sleeps on
    [ticks]. *)
Theorem sys_sleep_waits {W} `{FileOps W} `{TrapOps W} kend data fr tr me ticks_addr cmos fuel tf n ticks0
    (sc s0 s s' : tstate W) c c' :
  sys_call kend me cmos fuel SYS_sleep sc = Ret (AtTicks n ticks0, s0) →
  rtc (tstep kend data fr tr me ticks_addr cmos fuel tf) (AtTicks n ticks0, s0) (c, s) →
  trap_step kend data fr tr me ticks_addr cmos fuel tf c s = Ret (c', s') →
  arg_int me 0 sc = Ret (Some n, sc) ∧ ticks0 = t_ticks s0 ∧
  (∀ r, c' = AtResult r →
     (r = 0 ∧ u32 n ≤ u32 (t_ticks s' - ticks0)) ∨
     (r = -1 ∧ u32 (t_ticks s' - ticks0) < u32 n ∧ ¬ not_killed me (t_k s))) ∧
  (c' = InSleep n ticks0 →
     u32 (t_ticks s' - ticks0) < u32 n ∧
     ∃ cur p, current me (t_k s') cur p ∧ p_state p = SLEEPING ∧ p_chan p = TICKS_CHAN ticks_addr).
Proof.
  intros E0 Hr E.
  assert (arg_int me 0 sc = Ret (Some n, sc) ∧ ticks0 = t_ticks s0) as [Ha Ht].
  { unfold sys_call, sys_sleep, bind at 1 2 in E0. destruct (arg_int me 0 sc) as [[o s1]| | |] eqn:Ea; [|done..].
    pose proof (arg_int_same _ _ _ _ _ Ea) as ->. destruct o as [m|]; [|done]. unfold bind, gets, ret in E0.
    destruct (on_k _ sc) as [[[] s2]| | |]; [|done..]. injection E0 as <- <- <-. done. }
  split_and!; [done|done|..].
  all: pose proof (sleep_steps _ _ _ _ _ _ _ _ _ n ticks0 _ _ _ _ Hr (or_introl eq_refl)) as Hc.
  all: destruct (round_or_other _ _ _ _ _ _ _ _ _ _ _ _ _ _ _ Hc E) as [[_ Hro]|[Hn1 Hn2]].
  - by intros r ->.
  - intros r ->. by destruct (Hn2 r).
  - by intros ->.
  - intros ->. by destruct Hn1.
Qed.
(** Slot 1 of [two_config] calls sleep(3): its page at 0 is the frame 0x402000,
    where the argument is, and the trap frame is at 0x80403000. *)
Definition wsleep_mem : mem :=
  foldr (λ '(a, v) m, store32 m a v) (λ _, 0)
    [(0x80400000, 0x401007); (0x80401000, 0x402007); (0x80402004, 3);
     (0x80403000 + tf_trapno, 64); (0x80403000 + tf_eax, 13); (0x80403000 + tf_cs, 0x23)].
Definition wsleeper : tstate unit :=
  mkT (with_km (mkKmem 0 0 wsleep_mem)
        (with_pt (set_procs (alter (λ p, set_tf 0x80403000 (set_sz 4096 p)) 1%nat (procs two_pt)) two_pt)
          (g_k two_config))) 7 0.
Abbreviation wsys := (sys_call 0 0 (λ _ _, 0) 1 SYS_sleep).
Abbreviation wstep' := (trap_step 0 0 0 0 0 4 (λ _ _, 0) 1 0x80403000).
Definition after {A} (e : outcome (A * tstate unit)) : tstate unit :=
  match e with Ret (_, s) => s | _ => wsleeper end.
Definition point_of (e : outcome (point * tstate unit)) : option point :=
  match e with Ret (c, _) => Some c | _ => None end.
Lemma point_after e c : point_of e = Some c → e = Ret (c, after e).
Proof. destruct e as [[c' s]| | |]; [by intros [= <-]|done..]. Qed.
Definition wasleep : tstate unit := after (wsys wsleeper).
(** Three ticks have passed. *)
Definition wlater : tstate unit := with_ticks 10 wasleep.
Lemma sys_sleep_waits_witness :
  wsys wsleeper = Ret (AtTicks 3 7, wasleep) ∧
  (∃ s', wstep' (AtTicks 3 7) wasleep = Ret (InSleep 3 7, s') ∧
     ∃ cur p, current 0 (t_k s') cur p ∧ p_state p = SLEEPING ∧ p_chan p = TICKS_CHAN 4) ∧
  (∃ s', wstep' (AtTicks 3 7) wlater = Ret (AtResult 0, s') ∧ u32 3 ≤ u32 (t_ticks s' - 7)).
Proof.
  assert (wsys wsleeper = Ret (AtTicks 3 7, wasleep)) as E0 by (apply point_after; vm_compute; reflexivity).
  assert (wstep' (AtTicks 3 7) wasleep = Ret (InSleep 3 7, after (wstep' (AtTicks 3 7) wasleep))) as E1
    by (apply point_after; vm_compute; reflexivity).
  assert (wstep' (AtTicks 3 7) wlater = Ret (AtResult 0, after (wstep' (AtTicks 3 7) wlater))) as E2
    by (apply point_after; vm_compute; reflexivity).
  split_and!; [exact E0|..].
  - eexists. split; [exact E1|].
    exact (proj2 (proj2 (proj2 (proj2 (sys_sleep_waits 0 0 0 0 0 4 (λ _ _, 0) 1 0x80403000 3 7 wsleeper wasleep
      wasleep _ (AtTicks 3 7) _ E0 (rtc_refl _ _) E1))) eq_refl)).
  - eexists. split; [exact E2|].
    destruct (proj1 (proj2 (proj2 (sys_sleep_waits 0 0 0 0 0 4 (λ _ _, 0) 1 0x80403000 3 7 wsleeper wasleep
      wlater _ (AtTicks 3 7) _ E0 (rtc_once _ _ (t_others _ _ _ _ _ _ _ _ _ _ _ _)) E2))) 0 eq_refl) as [[_ H]|[H _]];
      [exact H|discriminate H].
Defined.

(** Claim C22: the timer interrupt wakes the sleepers.  On CPU 0, whether it
    runs a process or is idle in the scheduler, from a state that satisfies the
    scheduler's invariant and in which [tickslock] and [ptable.lock] are free,
    the handler does not fault: the tick counter goes up by one (modulo 2^32);
    every process that sleeps on [ticks] becomes runnable and no other process
    changes but for its place in the ready lists; the locks are as before, and
    so are the other CPUs, the saved stacks, memory and the files; and the
    invariant holds again. *)
Theorem tick_wakes_sleepers {W} `{FileOps W} `{TrapOps W} kend data fr tr ticks_addr cmos fuel tf (s : tstate W) phs a :
  Inv (mkG (t_k s) phs) → phs !! 0%nat = Some (false, a) → a = Run ∨ a = Idle →
  ptable_free (t_k s) → k_locks (t_k s) !! TICKS_LOCK = Some (mkLock 0 None) →
  load32 (km_mem (k_km (t_k s))) (tf + tf_trapno) = T_IRQ0 + IRQ_TIMER →
  ∃ s', trap_step kend data fr tr 0 ticks_addr cmos fuel tf AtIntr s = Ret (AtKilled, s') ∧
    t_ticks s' = u32 (t_ticks s + 1) ∧
    bare (k_pt (t_k s')) = wake (TICKS_CHAN ticks_addr) <$> bare (k_pt (t_k s)) ∧
    (∀ i p, procs (k_pt (t_k s')) !! i = Some p →
       ¬ (p_state p = SLEEPING ∧ p_chan p = TICKS_CHAN ticks_addr)) ∧
    k_locks (t_k s') = k_locks (t_k s) ∧ same_outside 0 (t_k s) (t_k s') ∧
    Inv (mkG (t_k s') phs).
Proof.
  intros HI Hph Ha Hfree Htl Hno. cbn [trap_step].
  assert (wp False (tick 0 ticks_addr) (λ _ ts',
    Inv (mkG (t_k ts') phs) ∧ t_ticks ts' = u32 (t_ticks s + 1) ∧
    bare (k_pt (t_k ts')) = wake (TICKS_CHAN ticks_addr) <$> bare (k_pt (t_k s)) ∧
    k_locks (t_k ts') = k_locks (t_k s) ∧ same_outside 0 (t_k s) (t_k ts')) s) as Hw
    by (destruct Ha as [-> | ->]; [eapply wp_tick; eauto|eapply tick_when_idle; eauto]).
  destruct (wp_ok _ _ _ Hw) as ([] & s' & E & HI' & Ht & Hb & Hl & Ho).
  exists s'. unfold bind, trap_switch. unfold bind at 1. rewrite trapno_eq, Hno, Z.eqb_refl, E.
  split_and!; [done|done|done| |done|done|done]. intros i p Hp [Hs Hc]. by eapply no_sleeper_left.
Qed.
(** Process 2 runs on CPU 1, sleeps on [ticks], and CPU 1 becomes idle. *)
Lemma dozing_run :
  ∃ k : kstate unit, Inv (mkG k [(false, Run); (false, Idle)]) ∧ ptable_free k ∧
    k_locks k !! TICKS_LOCK = Some (mkLock 0 None) ∧ km_mem (k_km k) = wframe ∧
    p_state <$> procs (k_pt k) !! 2%nat = Some SLEEPING ∧ p_chan <$> procs (k_pt k) !! 2%nat = Some (TICKS_CHAN 4).
Proof.
  assert (∃ k, rtc (step 0 0 0 0 may_set_ok) (mkG (t_k wtrap) [(false, Run); (false, Idle)])
    (mkG k [(false, Run); (false, Idle)]) ∧ ptable_free k ∧
    k_locks k !! TICKS_LOCK = Some (mkLock 0 None) ∧ km_mem (k_km k) = wframe ∧
    p_state <$> procs (k_pt k) !! 2%nat = Some SLEEPING ∧
    p_chan <$> procs (k_pt k) !! 2%nat = Some (TICKS_CHAN 4)) as (k & Hr & Hk).
  { eexists. split.
    - eapply rtc_l. { eapply (step_cpu _ _ _ _ _ 1 None); [done|done|]. apply m_top. vm_compute. reflexivity. }
      eapply rtc_l. { eapply (step_cpu _ _ _ _ _ 1 None); [done|done|]. apply m_dispatch. vm_compute. reflexivity. }
      eapply rtc_l. { eapply (step_cpu _ _ _ _ _ 1 None); [done|done|]. apply m_resume. vm_compute. reflexivity. }
      eapply rtc_l. { eapply (step_cpu _ _ _ _ _ 1 None); [done|done|].
        apply (m_acquire _ _ _ _ _ _ TICKS_LOCK); [by right|done|]. vm_compute. reflexivity. }
      eapply rtc_l. { eapply (step_cpu _ _ _ _ _ 1 None); [done|done|].
        apply (m_sleep _ _ _ _ _ _ (TICKS_CHAN 4) TICKS_LOCK); [done|]. vm_compute. reflexivity. }
      eapply rtc_l. { eapply (step_cpu _ _ _ _ _ 1 None); [done|done|]. apply m_back. vm_compute. reflexivity. }
      eapply rtc_l. { eapply (step_cpu _ _ _ _ _ 1 None); [done|done|]. apply m_none. vm_compute. reflexivity. }
      apply rtc_refl.
    - by split_and!; vm_compute. }
  exists k. split; [|exact Hk]. eapply Inv_steps; [exact Hr|]. exact two_config_inv.
Qed.
Lemma tick_wakes_sleepers_witness :
  ∃ s s', wstep AtIntr s = Ret (AtKilled, s') ∧ t_ticks s = 7 ∧ t_ticks s' = 8 ∧
    p_state <$> procs (k_pt (t_k s)) !! 2%nat = Some SLEEPING ∧
    p_state <$> bare (k_pt (t_k s')) !! 2%nat = Some RUNNABLE.
Proof.
  destruct dozing_run as (k & HI & Hf & Hl & Hm & Hs & Hc). exists (mkT k 7 0).
  destruct (tick_wakes_sleepers 0 0 0 0 4 (λ _ _, 0) 1 4096 (mkT k 7 0) [(false, Run); (false, Idle)] Run) as (s' & E & Ht & Hb & _);
    [exact HI|reflexivity|by left|exact Hf|exact Hl|cbn [t_k]; rewrite Hm; by vm_compute|].
  exists s'. split_and!; [exact E|done|exact Ht|exact Hs|]. rewrite Hb, list_lookup_fmap. unfold bare. rewrite list_lookup_fmap.
  cbn [t_k]. destruct (procs (k_pt k) !! 2%nat) as [p|]; [|done]. injection Hs as Hs. injection Hc as Hc. cbn.
  unfold wake. cbn [p_state p_chan set_next]. by rewrite Hs, Hc.
Defined.
