(* ===== verification/SbrkThm.v ===== *)
(** * [sys_sbrk]

    The memory that malloc (Umalloc.v) gets: [sys_sbrk] of a positive number
    adds that many bytes, zeroed, at the end of the process, or changes
    nothing.  And what goes wrong at the other end: giving back the whole
    process unmaps it and reports failure. *)
From S2P Require Import Prelude Machine Spinlock Kalloc Vm VmThm Proc ProcOps Sched SchedThm.
From S2P Require Import Syscall Sysproc Trap TrapThm.

Open Scope Z_scope.

(** The end of [growproc]. *)
Lemma wp_grow_finish {W} F me (s : kstate W) phs cur p km sz :
  Inv (mkG s phs) → phs !! me = Some (false, Run) → current me s cur p →
  wp F (write_proc cur (set_sz sz) ;! switchuvm me cur ;! ret 0)
    (λ r s', r = 0 ∧ current me s' cur (set_sz sz p) ∧ k_km s' = km) (with_km km s).
Proof.
  intros HI Hph (c & Hc & Hcur & Hp).
  assert (p_state p = RUNNING) as Hst.
  { destruct (Inv_running _ _ _ _ _ HI Hph (or_introl eq_refl)) as (c1 & i & q & ? & ? & ? & ?). by simplify_eq. }
  pose proof HI as [HT HL]. destruct (LInv_ncli _ _ _ _ _ HL Hc) as (d & Hn & Hb).
  destruct (ti_tbl _ _ _ _ HT) as (fl & rl & _ & Hslot).
  destruct (Hslot _ _ (views_lookup _ _ _ Hp)) as (_ & _ & Hlive). rewrite Hst in Hlive.
  apply wp_bind. eapply (wp_write_same F (with_km km s) phs); [exact HI|exact Hp|done|done|]. intros s1 Hs1 _.
  assert (procs (k_pt s1) !! cur = Some (set_sz sz p)) as Hp1
    by (subst s1; cbn; apply list_lookup_insert_eq; by eapply lookup_lt_Some).
  assert (k_cpus s1 = k_cpus s) as Hc1 by (by subst s1). assert (k_km s1 = km) as Hk1 by (by subst s1). clear Hs1.
  apply wp_bind. eapply wp_switchuvm; [by rewrite Hc1|done|done|done|by apply Hlive|done|done|].
  intros c' _ Hp' _ _. apply wp_ret. split_and!; [done| |done].
  exists c'. split_and!; [|by rewrite Hp'|done]. cbn. apply list_lookup_insert_eq. rewrite Hc1. by eapply lookup_lt_Some.
Qed.

(** The results of [allocuvm]. *)
Lemma allocuvm_loop_results kend fuel pgdir oldsz newsz : ∀ a k r k',
  allocuvm_loop kend fuel pgdir a oldsz newsz k = Ret (r, k') → r = 0 ∨ r = newsz.
Proof.
  induction fuel as [|fuel IH]; intros a k r k'; cbn [allocuvm_loop]; [done|].
  destruct (a <? newsz); [|intros [= <- <-]; by right]. destruct (kalloc k) as [mm k1]. destruct (mm =? 0).
  - destruct (deallocuvm _ _ _ _ _) as [[x k2]| | |]; [|done..]. intros [= <- <-]. by left.
  - destruct (mappages _ _ _ _ _ _) as [[x k2]| | |]; [|done..]. apply IH.
Qed.
Lemma allocuvm_results kend pgdir oldsz newsz k r k' : oldsz ≤ newsz →
  allocuvm kend pgdir oldsz newsz k = Ret (r, k') → r = 0 ∨ r = newsz ∧ newsz < KERNBASE.
Proof.
  intros Hle. unfold allocuvm. destruct (Z.leb_spec KERNBASE newsz); [intros [= <- <-]; by left|].
  rewrite (proj2 (Z.ltb_ge _ _)) by done. intros [->| ->]%allocuvm_loop_results; auto.
Qed.

(** The argument of the current process. *)
Lemma arg_int_eq {W} me (s : tstate W) cur p i : current me (t_k s) cur p →
  arg_int me i s =
    Ret (argint (p_sz p) (load32 (km_mem (k_km (t_k s))) (p_tf p + tf_esp)) (umem (k_km (t_k s)) (p_pgdir p)) i, s).
Proof.
  intros (c & Hc & Hp & Hl). unfold arg_int, with_args, on_k, zoom, myproc, mycpu, bind, gets. rewrite Hc. cbn.
  rewrite Hp. cbn. unfold read_proc, bind, gets, lift, get_proc. rewrite Hl. cbn. by rewrite with_k_id.
Qed.

Section Sbrk.
Context {W : Type} (kend : Z) (me : nat).
Context (s : tstate W) (phs : list phase) (cur : nat) (p : proc) (n : Z).
Context (HI : Inv (mkG (t_k s) phs)) (Hph : phs !! me = Some (false, Run)) (Hcur : current me (t_k s) cur p).
Context (Hsz : 0 ≤ p_sz p < KERNBASE) (Harg : arg_int me 0 s = Ret (Some n, s)).

(** [sys_sbrk] is [growproc] of its argument. *)
Lemma wp_sbrk F (Q : Z → tstate W → Prop) :
  wp F (growproc kend me n) (λ r k', Q (if r <? 0 then -1 else p_sz p) (with_k k' s)) (t_k s) →
  wp F (sys_sbrk kend me) Q s.
Proof using Harg Hcur Hsz.
  intros Hg. unfold sys_sbrk. apply wp_bind. unfold wp at 1. rewrite Harg. apply wp_bind.
  destruct Hcur as (c & Hc & Hp & Hl).
  apply wp_zoom, wp_bind. eapply wp_myproc; [done..|]. apply wp_bind. eapply wp_read_proc; [done|]. apply wp_ret.
  rewrite with_k_id. rewrite i32_small by (unfold KERNBASE in *; lia).
  apply wp_bind, wp_zoom. eapply wp_mono; [exact Hg|]. intros r k'. cbv beta. destruct (r <? 0); intros HQ; by apply wp_ret.
Qed.
(** [growproc] up to the change of memory. *)
Lemma wp_growproc_start F Q :
  (if 0 <? n then
     wp F (let! sz := on_km (allocuvm kend (p_pgdir p) (p_sz p) (u32 (p_sz p + n))) in
           if sz =? 0 then ret (-1) else write_proc cur (set_sz sz) ;! switchuvm me cur ;! ret 0) Q (t_k s)
   else if n <? 0 then
     wp F (let! sz := on_km (deallocuvm kend (p_pgdir p) (p_sz p) (u32 (p_sz p + n))) in
           if sz =? 0 then ret (-1) else write_proc cur (set_sz sz) ;! switchuvm me cur ;! ret 0) Q (t_k s)
   else wp F (write_proc cur (set_sz (p_sz p)) ;! switchuvm me cur ;! ret 0) Q (t_k s)) →
  wp F (growproc kend me n) Q (t_k s).
Proof using Hcur.
  intros HQ. destruct Hcur as (c & Hc & Hp & Hl). unfold growproc. apply wp_bind. eapply wp_myproc; [done..|].
  apply wp_bind. eapply wp_read_proc; [done|]. by repeat destruct (_ <? _).
Qed.

(** Growing: with memory at hand ... *)
Lemma sbrk_grow_total l T U : KERNBASE < kend → uinv kend (k_km (t_k s)) l (p_pgdir p) T U → 0 < n →
  p_sz p + n < KERNBASE →
  (∀ i, in_range (PGROUNDUP (p_sz p)) (p_sz p + n) i = true → U !! i = None) →
  (2 * (Z.to_nat ((p_sz p + n - PGROUNDUP (p_sz p)) / PGSIZE) + 1) ≤ length l)%nat →
  ∃ s', sys_sbrk kend me s = Ret (p_sz p, s') ∧ current me (t_k s') cur (set_sz (p_sz p + n) p) ∧
    ∃ l' T' U', uinv kend (k_km (t_k s')) l' (p_pgdir p) T' U' ∧
      grown (PGROUNDUP (p_sz p)) (p_sz p + n) l (km_mem (k_km (t_k s))) T U (km_mem (k_km (t_k s'))) T' U'.
Proof using Harg Hcur Hsz HI Hph.
  intros Hk Hu Hn Hlt Hno Hlen.
  destruct (allocuvm_grows kend (k_km (t_k s)) l (p_pgdir p) T U (p_sz p) (p_sz p + n)) as (k' & l' & T' & U' & E & Hu' & _ & _ & Hg);
    [done|done|lia|done|done|done|].
  edestruct (wp_ok (sys_sbrk kend me) (λ r s', r = p_sz p ∧ current me (t_k s') cur (set_sz (p_sz p + n) p) ∧ k_km (t_k s') = k') s)
    as (r & s' & E' & -> & Hc' & Hk').
  - apply wp_sbrk, wp_growproc_start. rewrite (proj2 (Z.ltb_lt 0 n)) by done.
    rewrite u32_small by (unfold word_ok, KERNBASE in *; lia).
    apply wp_bind. unfold on_km. apply wp_zoom. unfold wp at 1. rewrite E.
    rewrite (proj2 (Z.eqb_neq _ _)) by lia. eapply wp_mono; [by eapply wp_grow_finish|]. by intros r s' (-> & ? & ?).
  - exists s'. split_and!; [done|done|]. exists l', T', U'. by rewrite Hk'.
Qed.
(** ... and in any case. *)
Lemma sbrk_grow_results : 0 < n < 2 ^ 31 → ∀ r s', sys_sbrk kend me s = Ret (r, s') →
  (r = -1 ∧ ∃ km, s' = with_k (with_km km (t_k s)) s ∧ (KERNBASE ≤ p_sz p + n → km = k_km (t_k s))) ∨
  (r = p_sz p ∧ current me (t_k s') cur (set_sz (p_sz p + n) p) ∧ p_sz p + n < KERNBASE).
Proof using Harg Hcur Hsz HI Hph.
  intros Hn r s' E.
  refine (wp_ret_inv _ (λ r s', (r = -1 ∧ ∃ km, s' = with_k (with_km km (t_k s)) s ∧
    (KERNBASE ≤ p_sz p + n → km = k_km (t_k s))) ∨ (r = p_sz p ∧
    current me (t_k s') cur (set_sz (p_sz p + n) p) ∧ p_sz p + n < KERNBASE)) _ _ _ _ E).
  apply wp_sbrk, wp_growproc_start. rewrite (proj2 (Z.ltb_lt 0 n)) by lia.
  rewrite u32_small by (unfold word_ok, KERNBASE in *; lia).
  apply wp_bind. unfold on_km. apply wp_zoom, wp_intro. intros sz k' Ea.
  assert (KERNBASE ≤ p_sz p + n → k' = k_km (t_k s)) as Hbig
    by (intros Hb; unfold allocuvm in Ea; rewrite (proj2 (Z.leb_le _ _) Hb) in Ea; by injection Ea).
  apply allocuvm_results in Ea as [-> | [-> Hlt]]; [..|lia].
  - apply wp_ret. left. split; [done|]. by exists k'.
  - rewrite (proj2 (Z.eqb_neq _ _)) by lia. eapply wp_mono; [by eapply wp_grow_finish|].
    intros r' s2 (-> & ? & _). by right.
Qed.
(** Shrinking to nothing. *)
Lemma sbrk_to_zero l T U : KERNBASE < kend → uinv kend (k_km (t_k s)) l (p_pgdir p) T U →
  0 < p_sz p → n = - p_sz p →
  ∃ s', sys_sbrk kend me s = Ret (-1, s') ∧ current me (t_k s') cur p ∧
    ∃ l' U', uinv kend (k_km (t_k s')) l' (p_pgdir p) T U' ∧
      ∀ i, 0 ≤ i → i * PGSIZE < p_sz p → U' !! i = None.
Proof using Harg Hcur Hsz HI Hph.
  intros Hk Hu Hpos Hn.
  destruct (deallocuvm_loop_spec kend Hk (p_pgdir p) (p_sz p) T (S (Z.to_nat (p_sz p / PGSIZE))) ltac:(lia) 0
    (k_km (t_k s)) l U Hu) as (k' & l' & U' & E & Hu' & Hun & _ & _); [done|done| |by left|].
  { rewrite Nat2Z.inj_succ, Z2Nat.id by (apply Z.div_pos; [lia|done]). unfold PGSIZE. Z.div_mod_to_equations; lia. }
  edestruct (wp_ok (sys_sbrk kend me) (λ r s', r = -1 ∧ current me (t_k s') cur p ∧ k_km (t_k s') = k') s)
    as (r & s' & E' & -> & Hc' & Hk').
  - apply wp_sbrk, wp_growproc_start. rewrite (proj2 (Z.ltb_ge 0 _)), (proj2 (Z.ltb_lt _ 0)) by lia.
    replace (p_sz p + n) with 0 by lia. apply wp_bind. unfold on_km. apply wp_zoom. unfold wp at 1, deallocuvm.
    change (u32 0) with 0. rewrite (proj2 (Z.leb_gt _ _)) by done. change (PGROUNDUP 0) with 0. rewrite Z.sub_0_r, E. done.
  - exists s'. split_and!; [done|done|]. exists l', U'. rewrite Hk'. split; [done|]. intros i Hi Hlt. rewrite Hun.
    unfold in_range. change (0 / PGSIZE) with 0. by rewrite (proj2 (Z.leb_le _ _)), (proj2 (Z.ltb_lt _ _)).
Qed.
End Sbrk.

(** Claim C20: [sys_sbrk] of a positive number keeps the promise malloc relies
    on.  For a running process of [sz] bytes, below [KERNBASE], whose argument
    is [n]: every result is either -1, with nothing but memory and its
    allocator changed (the process keeps its size and its page directory), and
    not even these when the size asked for reaches [KERNBASE]; or the old size,
    with the process grown by exactly [n] bytes and still below [KERNBASE].
    And with two free pages for every page of growth it succeeds,
    the new pages being zeroed pages of the free list that the user may write,
    and no page being used twice. *)
Theorem sys_sbrk_grows {W} kend me (s : tstate W) phs cur p n l T U :
  KERNBASE < kend → Inv (mkG (t_k s) phs) → phs !! me = Some (false, Run) → current me (t_k s) cur p →
  0 ≤ p_sz p < KERNBASE → arg_int me 0 s = Ret (Some n, s) → 0 < n < 2 ^ 31 →
  uinv kend (k_km (t_k s)) l (p_pgdir p) T U →
  (∀ r s', sys_sbrk kend me s = Ret (r, s') →
     (r = -1 ∧ ∃ km, s' = with_k (with_km km (t_k s)) s ∧ (KERNBASE ≤ p_sz p + n → km = k_km (t_k s))) ∨
     (r = p_sz p ∧ current me (t_k s') cur (set_sz (p_sz p + n) p) ∧ p_sz p + n < KERNBASE)) ∧
  (p_sz p + n < KERNBASE →
   (∀ i, in_range (PGROUNDUP (p_sz p)) (p_sz p + n) i = true → U !! i = None) →
   (2 * (Z.to_nat ((p_sz p + n - PGROUNDUP (p_sz p)) / PGSIZE) + 1) ≤ length l)%nat →
   ∃ s', sys_sbrk kend me s = Ret (p_sz p, s') ∧ current me (t_k s') cur (set_sz (p_sz p + n) p) ∧
     ∃ l' T' U', uinv kend (k_km (t_k s')) l' (p_pgdir p) T' U' ∧
       grown (PGROUNDUP (p_sz p)) (p_sz p + n) l (km_mem (k_km (t_k s))) T U (km_mem (k_km (t_k s'))) T' U').
Proof.
  intros Hk HI Hph Hcur Hsz Harg Hn Hu. split.
  - by eapply sbrk_grow_results.
  - intros Hlt Hno Hlen. apply (sbrk_grow_total kend me s phs cur p n HI Hph Hcur Hsz Harg l T U); (done || lia).
Qed.
(** Slot 1 of [two_config] with the small space of VmThm.v; the word at 4, its
    argument, is 904. *)
Definition wproc : proc := set_sz 4096 (set_pgdir 0x80500000 (set_pid 1 (set_state RUNNING init_proc))).
Definition wsbrk : tstate unit :=
  mkT (with_km wk (with_pt (set_procs (<[1%nat := wproc]> (procs two_pt)) two_pt) (g_k two_config))) 7 0.
Lemma wsbrk_inv : Inv (mkG (t_k wsbrk) [(false, Run); (false, Idle)]).
Proof.
  refine (Inv_own (g_k two_config) [(false, Run); (false, Idle)] 0 _ 1
    (λ p, set_sz 4096 (set_pgdir 0x80500000 p)) _ wk tt two_config_inv eq_refl eq_refl eq_refl _ eq_refl).
  by intros p.
Qed.
Lemma wsbrk_current : current 0 (t_k wsbrk) 1 wproc.
Proof. eexists. split_and!; [reflexivity|reflexivity|]. reflexivity. Qed.
Lemma sys_sbrk_grows_witness :
  ∃ s', sys_sbrk 0x80400000 0 wsbrk = Ret (4096, s') ∧ current 0 (t_k s') 1 (set_sz 5000 wproc).
Proof.
  destruct (sys_sbrk_grows 0x80400000 0 wsbrk [(false, Run); (false, Idle)] 1 wproc 904 wfree wT wU) as [_ H].
  - done.
  - exact wsbrk_inv.
  - reflexivity.
  - exact wsbrk_current.
  - unfold KERNBASE. cbn. lia.
  - rewrite (arg_int_eq _ _ _ _ _ wsbrk_current). reflexivity.
  - lia.
  - exact wspace.
  - destruct H as (s' & E & Hc & _).
    + unfold KERNBASE. cbn. lia.
    + intros i Hi. unfold in_range in Hi. apply andb_true_iff in Hi as [Hi _]. apply Z.leb_le in Hi.
      change (PGROUNDUP (p_sz wproc) / PGSIZE) with 1 in Hi. unfold wU. apply lookup_singleton_ne. lia.
    + vm_compute. lia.
    + exists s'. split; [exact E|exact Hc].
Defined.

(** A fault of [growproc]: giving back the whole process.
    [sbrk(-sz)] takes all pages of a process of [sz > 0] bytes away, so that
    none of its addresses is mapped any more, and yet returns -1 and leaves the
    size as it was. *)
Theorem sbrk_unmaps_and_fails {W} kend me (s : tstate W) phs cur p l T U :
  KERNBASE < kend → Inv (mkG (t_k s) phs) → phs !! me = Some (false, Run) → current me (t_k s) cur p →
  0 < p_sz p < KERNBASE → arg_int me 0 s = Ret (Some (- p_sz p), s) →
  uinv kend (k_km (t_k s)) l (p_pgdir p) T U →
  ∃ s', sys_sbrk kend me s = Ret (-1, s') ∧ current me (t_k s') cur p ∧
    ∃ l' U', uinv kend (k_km (t_k s')) l' (p_pgdir p) T U' ∧
      ∀ i, 0 ≤ i → i * PGSIZE < p_sz p → U' !! i = None.
Proof.
  intros Hk HI Hph Hcur Hsz Harg Hu. eapply (sbrk_to_zero kend me s phs cur p (- p_sz p)); (done || lia).
Qed.
(** The same process with a trap frame whose stack pointer, 904, is the word at
    4; its argument, at 908, is -4096. *)
Definition wproc0 : proc := set_tf (0x80502004 - tf_esp) wproc.
Definition wsbrk0 : tstate unit :=
  mkT (with_km wk (with_pt (set_procs (<[1%nat := wproc0]> (procs two_pt)) two_pt) (g_k two_config))) 7 0.
Lemma wsbrk0_inv : Inv (mkG (t_k wsbrk0) [(false, Run); (false, Idle)]).
Proof.
  refine (Inv_own (g_k two_config) [(false, Run); (false, Idle)] 0 _ 1
    (λ p, set_tf (0x80502004 - tf_esp) (set_sz 4096 (set_pgdir 0x80500000 p))) _ wk tt two_config_inv eq_refl eq_refl eq_refl _ eq_refl).
  by intros p.
Qed.
Lemma wsbrk0_current : current 0 (t_k wsbrk0) 1 wproc0.
Proof. eexists. split_and!; [reflexivity|reflexivity|]. reflexivity. Qed.
Lemma sbrk_unmaps_and_fails_witness :
  ∃ s', sys_sbrk 0x80400000 0 wsbrk0 = Ret (-1, s') ∧ current 0 (t_k s') 1 wproc0 ∧ p_sz wproc0 = 4096.
Proof.
  destruct (sbrk_unmaps_and_fails 0x80400000 0 wsbrk0 [(false, Run); (false, Idle)] 1 wproc0 wfree wT wU) as (s' & E & Hc & _).
  - done.
  - exact wsbrk0_inv.
  - reflexivity.
  - exact wsbrk0_current.
  - unfold KERNBASE. cbn. lia.
  - rewrite (arg_int_eq _ _ _ _ _ wsbrk0_current). reflexivity.
  - exact wspace.
  - exists s'. split_and!; [exact E|exact Hc|reflexivity].
Defined.
