(* ===== verification/Sysfile.v ===== *)
(** * File system calls (sysfile.c)

    Each call fetches its arguments with syscall.c and calls file.c and fs.c.
    The state has the files, and of the current process its descriptor table,
    its directory and its memory.  A path is the list of its characters. *)
From S2P Require Import Prelude Machine Kalloc ProcOps Pipe Block Bio Log Fs File Syscall.

Open Scope Z_scope.

Definition O_RDONLY : Z := 0x000.
Definition O_WRONLY : Z := 0x001.
Definition O_RDWR : Z := 0x002.
Definition O_CREATE : Z := 0x200.

Record sysst := mkSys {
  ss_files : filest; ss_ofile : list (option nat); ss_cwd : nat; ss_um : mem }.
Definition set_ss_files (v : filest) (s : sysst) : sysst := mkSys v (ss_ofile s) (ss_cwd s) (ss_um s).
Definition set_ss_ofile (v : list (option nat)) (s : sysst) : sysst := mkSys (ss_files s) v (ss_cwd s) (ss_um s).
Definition set_ss_cwd (v : nat) (s : sysst) : sysst := mkSys (ss_files s) (ss_ofile s) v (ss_um s).
Definition set_ss_um (v : mem) (s : sysst) : sysst := mkSys (ss_files s) (ss_ofile s) (ss_cwd s) v.

Definition on_files {A} (e : M filest A) : M sysst A := zoom ss_files set_ss_files e.
Definition on_inodes {A} (e : M fstate A) : M sysst A := on_files (on_fs e).
Definition sys_begin_op : M sysst unit := on_files begin_op'.
Definition sys_end_op : M sysst unit := on_files end_op'.
(** The bytes [data] stored at [p]. *)
Definition put_mem (p : Z) (data : list Z) (m : mem) : mem :=
  λ a, if (p <=? a) && (a <? p + Z.of_nat (length data)) then default 0 (data !! Z.to_nat (a - p)) else m a.
Definition upd_um (f : mem → mem) : M sysst unit := modify (λ s, set_ss_um (f (ss_um s)) s).
(** [struct stat] in memory, with the layout of i386. *)
Definition put_stat (p : Z) (st : stat) (m : mem) : mem :=
  store32 (store16 (store32 (store32 (store16 m p (st_type st)) (p + 4) (st_dev st)) (p + 8) (st_ino st))
    (p + 12) (st_nlink st)) (p + 16) (st_size st).
Definition sizeof_stat : Z := 20.

(** [proc->ofile[fd] = f] *)
Definition set_fd (fd : nat) (f : option nat) : M sysst unit :=
  modify (λ s, set_ss_ofile (<[fd := f]> (ss_ofile s)) s).
(** [for(fd = 0; fd < NOFILE; fd++) if(proc->ofile[fd] == 0) ...] *)
Fixpoint free_fd (fds : list (option nat)) (fd : nat) : option nat :=
  match fds with
  | [] => None
  | None :: _ => Some fd
  | Some _ :: fds' => free_fd fds' (S fd)
  end.
Definition fdalloc (f : nat) : M sysst Z :=
  let! fds := gets ss_ofile in
  match free_fd fds 0 with
  | Some fd => set_fd fd (Some f) ;! ret (Z.of_nat fd)
  | None => ret (-1)
  end.

Section Sysfile.
Context (kend : Z) (devsw : Z → devsw_entry) (killed : bool).
(** [proc->sz] and [proc->tf->esp] *)
Context (sz esp : Z).
(** The uninitialised [name] arrays of the calls. *)
Context (name0 : list Z).
(** [exec], on the path and the arguments. *)
Context (exec : list Z → list (list Z) → M sysst Z).

Definition arg_int (n : Z) : M sysst (option Z) := gets (λ s, argint sz esp (ss_um s) n).
Definition arg_ptr (n size : Z) : M sysst (option Z) := gets (λ s, argptr sz esp (ss_um s) n size).
(** The characters of a string argument. *)
Definition arg_str (n : Z) : M sysst (option (list Z)) :=
  gets (λ s, match argstr sz esp (ss_um s) n with
             | Some (p, len) => Some (bytes_at (ss_um s) p (Z.to_nat len))
             | None => None
             end).

Definition argfd (n : Z) : M sysst (option (nat * nat)) :=
  let! a := arg_int n in
  match a with
  | None => ret None
  | Some fd =>
      if (fd <? 0) || (Z.of_nat NOFILE <=? fd) then ret None
      else
        let! fds := gets ss_ofile in
        match fds !! Z.to_nat fd with
        | Some (Some f) => ret (Some (Z.to_nat fd, f))
        | _ => ret None
        end
  end.

Definition sys_dup : M sysst Z :=
  let! a := argfd 0 in
  match a with
  | None => ret (-1)
  | Some (_, f) =>
      let! fd := fdalloc f in
      if fd <? 0 then ret (-1)
      else on_files (filedup f) ;! ret fd
  end.

Definition sys_read : M sysst Z :=
  let! a := argfd 0 in
  match a with
  | None => ret (-1)
  | Some (_, f) =>
      let! n := arg_int 2 in
      match n with
      | None => ret (-1)
      | Some n =>
          let! p := arg_ptr 1 n in
          match p with
          | None => ret (-1)
          | Some p =>
              let! (r, data) := on_files (fileread devsw killed f n) in
              upd_um (put_mem p data) ;! ret r
          end
      end
  end.

Definition sys_write : M sysst Z :=
  let! a := argfd 0 in
  match a with
  | None => ret (-1)
  | Some (_, f) =>
      let! n := arg_int 2 in
      match n with
      | None => ret (-1)
      | Some n =>
          let! p := arg_ptr 1 n in
          match p with
          | None => ret (-1)
          | Some p =>
              let! um := gets ss_um in
              on_files (filewrite devsw killed f (bytes_at um p (Z.to_nat n)) n)
          end
      end
  end.

Definition sys_close : M sysst Z :=
  let! a := argfd 0 in
  match a with
  | None => ret (-1)
  | Some (fd, f) => set_fd fd None ;! on_files (fileclose kend f) ;! ret 0
  end.

Definition sys_fstat : M sysst Z :=
  let! a := argfd 0 in
  match a with
  | None => ret (-1)
  | Some (_, f) =>
      let! p := arg_ptr 1 sizeof_stat in
      match p with
      | None => ret (-1)
      | Some p =>
          let! st := on_files (filestat f) in
          match st with
          | Some st => upd_um (put_stat p st) ;! ret 0
          | None => ret (-1)
          end
      end
  end.

(** The path lookups use the directory of the process. *)
Definition sys_namei (path : list Z) : M sysst (option nat) :=
  let! cwd := gets ss_cwd in on_inodes (namei devsw cwd path name0).
Definition sys_nameiparent (path : list Z) : M sysst (option nat * list Z) :=
  let! cwd := gets ss_cwd in on_inodes (nameiparent devsw cwd path name0).
Definition read_inode (i : nat) : M sysst inode := on_inodes (get_inode i).
Definition change_nlink (i : nat) (d : Z) : M sysst unit :=
  on_inodes (upd_inode i (λ ip, set_i_nlink (i16 (i_nlink ip + d)) ip)).

(** The label [bad] of [sys_link]. *)
Definition sys_link_bad (ip : nat) : M sysst Z :=
  on_inodes (ilock ip) ;!
  change_nlink ip (-1) ;!
  on_inodes (iupdate ip) ;!
  on_inodes (iunlockput ip) ;!
  sys_end_op ;!
  ret (-1).
Definition sys_link : M sysst Z :=
  let! old := arg_str 0 in
  match old with
  | None => ret (-1)
  | Some old =>
      let! new := arg_str 1 in
      match new with
      | None => ret (-1)
      | Some new =>
          sys_begin_op ;!
          let! ip := sys_namei old in
          match ip with
          | None => sys_end_op ;! ret (-1)
          | Some ip =>
              on_inodes (ilock ip) ;!
              let! i := read_inode ip in
              if i_type i =? T_DIR then
                on_inodes (iunlockput ip) ;! sys_end_op ;! ret (-1)
              else
                change_nlink ip 1 ;!
                on_inodes (iupdate ip) ;!
                on_inodes (iunlock ip) ;!
                let! (dp, name) := sys_nameiparent new in
                match dp with
                | None => sys_link_bad ip
                | Some dp =>
                    on_inodes (ilock dp) ;!
                    let! d := read_inode dp in
                    let! i := read_inode ip in
                    let! r := (if negb (i_dev d =? i_dev i) then ret (-1)
                               else on_inodes (dirlink devsw dp name (i_inum i))) in
                    if r <? 0 then on_inodes (iunlockput dp) ;! sys_link_bad ip
                    else
                      on_inodes (iunlockput dp) ;!
                      on_inodes (iput ip) ;!
                      sys_end_op ;!
                      ret 0
                end
          end
      end
  end.

Fixpoint isdirempty_loop (fuel : nat) (dp : nat) (off : Z) : M sysst bool :=
  match fuel with
  | O => diverge
  | S fuel =>
      let! d := read_inode dp in
      if off <? i_size d then
        let! (r, de) := on_inodes (readi devsw dp off sizeof_dirent) in
        if negb (r =? sizeof_dirent) then panic "isdirempty: readi"
        else if negb (de_inum de =? 0) then ret false
        else isdirempty_loop fuel dp (off + sizeof_dirent)
      else ret true
  end.
Definition isdirempty (dp : nat) : M sysst bool :=
  let! d := read_inode dp in
  isdirempty_loop (dir_fuel (i_size d)) dp (2 * sizeof_dirent).

(** The names [.] and [..] *)
Definition dot : list Z := [46].
Definition dotdot : list Z := [46; 46].
(** The label [bad] of [sys_unlink]. *)
Definition sys_unlink_bad (dp : nat) : M sysst Z :=
  on_inodes (iunlockput dp) ;! sys_end_op ;! ret (-1).
Definition sys_unlink : M sysst Z :=
  let! path := arg_str 0 in
  match path with
  | None => ret (-1)
  | Some path =>
      sys_begin_op ;!
      let! (dp, name) := sys_nameiparent path in
      match dp with
      | None => sys_end_op ;! ret (-1)
      | Some dp =>
          on_inodes (ilock dp) ;!
          if (namecmp name dot =? 0) || (namecmp name dotdot =? 0) then sys_unlink_bad dp
          else
            let! found := on_inodes (dirlookup devsw dp name) in
            match found with
            | None => sys_unlink_bad dp
            | Some (ip, off) =>
                on_inodes (ilock ip) ;!
                let! i := read_inode ip in
                if i_nlink i <? 1 then panic "unlink: nlink < 1"
                else
                  let! empty := (if i_type i =? T_DIR then isdirempty ip else ret true) in
                  if negb empty then on_inodes (iunlockput ip) ;! sys_unlink_bad dp
                  else
                    let! r := on_inodes (writei devsw dp (replicate (Z.to_nat sizeof_dirent) 0) off sizeof_dirent) in
                    if negb (r =? sizeof_dirent) then panic "unlink: writei"
                    else
                      (if i_type i =? T_DIR then
                         change_nlink dp (-1) ;! on_inodes (iupdate dp)
                       else skip) ;!
                      on_inodes (iunlockput dp) ;!
                      change_nlink ip (-1) ;!
                      on_inodes (iupdate ip) ;!
                      on_inodes (iunlockput ip) ;!
                      sys_end_op ;!
                      ret 0
            end
      end
  end.

Definition create (path : list Z) (type major minor : Z) : M sysst (option nat) :=
  let! (dp, name) := sys_nameiparent path in
  match dp with
  | None => ret None
  | Some dp =>
      on_inodes (ilock dp) ;!
      let! found := on_inodes (dirlookup devsw dp name) in
      match found with
      | Some (ip, _) =>
          on_inodes (iunlockput dp) ;!
          on_inodes (ilock ip) ;!
          let! i := read_inode ip in
          if (type =? T_FILE) && (i_type i =? T_FILE) then ret (Some ip)
          else on_inodes (iunlockput ip) ;! ret None
      | None =>
          let! d := read_inode dp in
          let! ip := on_inodes (ialloc (i_dev d) type) in
          on_inodes (ilock ip) ;!
          on_inodes (upd_inode ip (λ i, set_i_nlink 1 (set_i_minor minor (set_i_major major i)))) ;!
          on_inodes (iupdate ip) ;!
          let! i := read_inode ip in
          (if type =? T_DIR then
             change_nlink dp 1 ;!
             on_inodes (iupdate dp) ;!
             let! r := on_inodes (dirlink devsw ip dot (i_inum i)) in
             if r <? 0 then panic "create dots"
             else
               let! r := on_inodes (dirlink devsw ip dotdot (i_inum d)) in
               if r <? 0 then panic "create dots" else skip
           else skip) ;!
          let! r := on_inodes (dirlink devsw dp name (i_inum i)) in
          if r <? 0 then panic "create: dirlink"
          else on_inodes (iunlockput dp) ;! ret (Some ip)
      end
  end.

(** The inode of [sys_open], locked; [None] after an error. *)
Definition open_inode (path : list Z) (omode : Z) : M sysst (option nat) :=
  if truth (Z.land omode O_CREATE) then create path T_FILE 0 0
  else
    let! ip := sys_namei path in
    match ip with
    | None => ret None
    | Some ip =>
        on_inodes (ilock ip) ;!
        let! i := read_inode ip in
        if (i_type i =? T_DIR) && negb (omode =? O_RDONLY) then
          on_inodes (iunlockput ip) ;! ret None
        else ret (Some ip)
    end.
Definition b2z (b : bool) : Z := if b then 1 else 0.
Definition sys_open : M sysst Z :=
  let! path := arg_str 0 in
  match path with
  | None => ret (-1)
  | Some path =>
      let! omode := arg_int 1 in
      match omode with
      | None => ret (-1)
      | Some omode =>
          sys_begin_op ;!
          let! ip := open_inode path omode in
          match ip with
          | None => sys_end_op ;! ret (-1)
          | Some ip =>
              let! f := on_files filealloc in
              match f with
              | None => on_inodes (iunlockput ip) ;! sys_end_op ;! ret (-1)
              | Some f =>
                  let! fd := fdalloc f in
                  if fd <? 0 then
                    on_files (fileclose kend f) ;! on_inodes (iunlockput ip) ;! sys_end_op ;! ret (-1)
                  else
                    on_inodes (iunlock ip) ;!
                    sys_end_op ;!
                    on_files (upd_file f (λ g, mkFile FD_INODE (f_ref g)
                      (b2z (negb (truth (Z.land omode O_WRONLY))))
                      (b2z (truth (Z.land omode O_WRONLY) || truth (Z.land omode O_RDWR)))
                      (f_pipe g) ip 0)) ;!
                    ret fd
              end
          end
      end
  end.

Definition sys_mkdir : M sysst Z :=
  sys_begin_op ;!
  let! path := arg_str 0 in
  let! ip := (match path with None => ret None | Some path => create path T_DIR 0 0 end) in
  match ip with
  | None => sys_end_op ;! ret (-1)
  | Some ip => on_inodes (iunlockput ip) ;! sys_end_op ;! ret 0
  end.

Definition sys_mknod : M sysst Z :=
  sys_begin_op ;!
  let! path := arg_str 0 in
  let! major := arg_int 1 in
  let! minor := arg_int 2 in
  let! ip := (match path, major, minor with
              | Some path, Some major, Some minor => create path T_DEV (i16 major) (i16 minor)
              | _, _, _ => ret None
              end) in
  match ip with
  | None => sys_end_op ;! ret (-1)
  | Some ip => on_inodes (iunlockput ip) ;! sys_end_op ;! ret 0
  end.

Definition sys_chdir : M sysst Z :=
  sys_begin_op ;!
  let! path := arg_str 0 in
  let! ip := (match path with None => ret None | Some path => sys_namei path end) in
  match ip with
  | None => sys_end_op ;! ret (-1)
  | Some ip =>
      on_inodes (ilock ip) ;!
      let! i := read_inode ip in
      if negb (i_type i =? T_DIR) then
        on_inodes (iunlockput ip) ;! sys_end_op ;! ret (-1)
      else
        on_inodes (iunlock ip) ;!
        let! cwd := gets ss_cwd in
        on_inodes (iput cwd) ;!
        sys_end_op ;!
        modify (set_ss_cwd ip) ;!
        ret 0
  end.

(** The argument vector of [sys_exec]: up to [MAXARG - 1] strings; [fuel] is
    what is left of [argv]. *)
Fixpoint fetch_argv (fuel : nat) (i : Z) (uargv : Z) (um : mem) : option (list (list Z)) :=
  match fuel with
  | O => None
  | S fuel =>
      match fetchint sz um (u32 (uargv + 4 * i)) with
      | None => None
      | Some uarg =>
          if uarg =? 0 then Some []
          else
            match fetchstr sz um (u32 uarg) with
            | None => None
            | Some (p, len) =>
                match fetch_argv fuel (i + 1) uargv um with
                | None => None
                | Some rest => Some (bytes_at um p (Z.to_nat len) :: rest)
                end
            end
      end
  end.
Definition sys_exec : M sysst Z :=
  let! path := arg_str 0 in
  match path with
  | None => ret (-1)
  | Some path =>
      let! uargv := arg_int 1 in
      match uargv with
      | None => ret (-1)
      | Some uargv =>
          let! um := gets ss_um in
          match fetch_argv (Z.to_nat MAXARG) 0 (u32 uargv) um with
          | None => ret (-1)
          | Some argv => exec path argv
          end
      end
  end.

Definition sys_pipe : M sysst Z :=
  let! fd := arg_ptr 0 8 in
  match fd with
  | None => ret (-1)
  | Some fd =>
      let! r := on_files (pipealloc kend) in
      match r with
      | None => ret (-1)
      | Some (rf, wf) =>
          let! fd0 := fdalloc rf in
          if fd0 <? 0 then
            on_files (fileclose kend rf) ;! on_files (fileclose kend wf) ;! ret (-1)
          else
            let! fd1 := fdalloc wf in
            if fd1 <? 0 then
              set_fd (Z.to_nat fd0) None ;!
              on_files (fileclose kend rf) ;! on_files (fileclose kend wf) ;! ret (-1)
            else
              upd_um (λ m, store32 (store32 m fd fd0) (fd + 4) fd1) ;!
              ret 0
      end
  end.
End Sysfile.
