(* ===== verification/SysfileThm.v ===== *)
(** * File references of the system calls (sysfile.c)

    Every descriptor of a process is one reference to a file.  The system
    calls move references between the file table and the descriptor table;
    [excess] counts the references to a file that no descriptor of this process
    accounts for, and no call changes it. *)
From S2P Require Import Prelude Machine Kalloc ProcOps Pipe Block Bio Log LogThm Fs FsThm File FileThm Syscall Sysfile.

Open Scope Z_scope.

(** The reference count of file [i], and the descriptors that refer to it. *)
Definition fref (t : filest) (i : nat) : Z :=
  match fl_files t !! i with Some f => f_ref f | None => 0 end.
Definition fd_refs (i : nat) (fds : list (option nat)) : nat := length (filter (eq (Some i)) fds).
Definition excess (s : sysst) (i : nat) : Z := fref (ss_files s) i - Z.of_nat (fd_refs i (ss_ofile s)).

(** One reference to [f]. *)
Definition one (f i : nat) : Z := if decide (f = i) then 1 else 0.
(** From [t0] to [t] the counts have changed by [d]. *)
Definition fbal (t0 : filest) (d : nat → Z) (t : filest) : Prop := ∀ i, fref t i = fref t0 i + d i.
Definition bal (s0 : sysst) (d : nat → Z) (s : sysst) : Prop := ∀ i, excess s i = excess s0 i + d i.
(** [e] changes the counts by [d] of its result, whenever it returns. *)
Definition fmoves {A} (e : M filest A) (d : A → nat → Z) : Prop :=
  ∀ t a t', e t = Ret (a, t') → fbal t (d a) t'.
Definition moves {A} (e : M sysst A) (d : A → nat → Z) : Prop :=
  ∀ s a s', e s = Ret (a, s') → bal s (d a) s'.
Definition nothing {A} (_ : A) (_ : nat) : Z := 0.

(** ** Composition *)
Lemma moves_bind {A B} (e : M sysst A) (k : A → M sysst B) d1 d2 d :
  moves e d1 → (∀ a, moves (k a) (d2 a)) → (∀ a b i, d b i = d1 a i + d2 a b i) → moves (let! a := e in k a) d.
Proof.
  intros H1 H2 Hd s b s' E. unfold bind in E. destruct (e s) as [[a s1]| | |] eqn:E1; try done.
  intros i. rewrite (H2 a _ _ _ E i), (H1 _ _ _ E1 i), (Hd a). lia.
Qed.
Lemma fmoves_bind {A B} (e : M filest A) (k : A → M filest B) d1 d2 d :
  fmoves e d1 → (∀ a, fmoves (k a) (d2 a)) → (∀ a b i, d b i = d1 a i + d2 a b i) → fmoves (let! a := e in k a) d.
Proof.
  intros H1 H2 Hd s b s' E. unfold bind in E. destruct (e s) as [[a s1]| | |] eqn:E1; try done.
  intros i. rewrite (H2 a _ _ _ E i), (H1 _ _ _ E1 i), (Hd a). lia.
Qed.
(** Parts that move nothing. *)
Abbreviation still e := (moves e nothing).
Abbreviation fstill e := (fmoves e nothing).
Lemma still_then {A B} (e : M sysst A) (k : A → M sysst B) d :
  still e → (∀ a, moves (k a) d) → moves (let! a := e in k a) d.
Proof. intros H1 H2. by eapply moves_bind; [exact H1|exact H2|]. Qed.
Lemma fstill_then {A B} (e : M filest A) (k : A → M filest B) d :
  fstill e → (∀ a, fmoves (k a) d) → fmoves (let! a := e in k a) d.
Proof. intros H1 H2. by eapply fmoves_bind; [exact H1|exact H2|]. Qed.

Lemma moves_ret {A} (a : A) d : (∀ i, d a i = 0) → moves (ret a) d.
Proof. intros H s b s' [= <- <-] i. rewrite H. lia. Qed.
Lemma fmoves_ret {A} (a : A) d : (∀ i, d a i = 0) → fmoves (ret a) d.
Proof. intros H s b s' [= <- <-] i. rewrite H. lia. Qed.
Lemma fstill_id {A} (e : M filest A) : (∀ t a t', e t = Ret (a, t') → fl_files t' = fl_files t) → fstill e.
Proof. intros H t a t' E i. unfold fref, nothing. rewrite (H _ _ _ E). lia. Qed.
Lemma still_id {A} (e : M sysst A) :
  (∀ s a s', e s = Ret (a, s') → fl_files (ss_files s') = fl_files (ss_files s) ∧ ss_ofile s' = ss_ofile s) → still e.
Proof. intros H s a s' E i. unfold excess, fref, nothing. destruct (H _ _ _ E) as [-> ->]. lia. Qed.

Lemma moves_on_files {A} (e : M filest A) d : fmoves e d → moves (on_files e) d.
Proof.
  intros H s a s' E i. unfold on_files, zoom in E. destruct (e (ss_files s)) as [[b t]| | |] eqn:Ee; try done.
  simplify_eq. unfold excess. simpl. rewrite (H _ _ _ Ee i). lia.
Qed.
Lemma fstill_on_fs {A} (e : M fstate A) : fstill (on_fs e).
Proof.
  apply fstill_id. intros t a t' E. unfold on_fs, zoom in E.
  destruct (e (fl_fs t)) as [[b u]| | |]; try done. by simplify_eq.
Qed.
Lemma still_on_inodes {A} (e : M fstate A) : still (on_inodes e).
Proof. apply moves_on_files, fstill_on_fs. Qed.
Lemma still_gets {A} (f : sysst → A) : still (gets f).
Proof. apply still_id. intros s a s' [= <- <-]. done. Qed.
Lemma fstill_gets {A} (f : filest → A) : fstill (gets f).
Proof. apply fstill_id. intros s a s' [= <- <-]. done. Qed.
Lemma still_panic {A} msg d : moves (panic msg : M sysst A) d.
Proof. intros s a s' [=]. Qed.
Lemma fstill_fail {A} (e : M filest A) d : (∀ t a, e t ≠ Ret a) → fmoves e d.
Proof. intros H s a s' E. by destruct (H s (a, s')). Qed.
Lemma still_ret {A} (a : A) : still (ret a).
Proof. by apply moves_ret. Qed.
Lemma fstill_ret {A} (a : A) : fstill (ret a).
Proof. by apply fmoves_ret. Qed.
Lemma still_um f : still (upd_um f).
Proof. apply still_id. intros s a s' [= <- <-]. done. Qed.

Create HintDb still.
#[local] Hint Resolve still_on_inodes still_gets still_panic still_ret still_um fstill_on_fs fstill_gets
  fstill_ret : still.
(** Run through a call, part by part. *)
Ltac go_still :=
  repeat first
    [ progress (intros; cbv beta zeta)
    | solve [auto with still]
    | apply still_then | apply fstill_then
    | match goal with
      | |- moves (match ?x with _ => _ end) _ => destruct x
      | |- fmoves (match ?x with _ => _ end) _ => destruct x
      end ].

(** ** file.c *)
Lemma fref_insert t i f : fl_files t !! i = Some f → ∀ g j,
  fref (set_fl_files (<[i := g]> (fl_files t)) t) j = fref t j + (f_ref g - f_ref f) * one i j.
Proof.
  intros Hi g j. unfold fref, one. simpl. case_decide as Hij.
  - subst j. rewrite list_lookup_insert_eq, Hi by (by eapply lookup_lt_Some). lia.
  - rewrite list_lookup_insert_ne by done. lia.
Qed.
Lemma free_file_ref fs : ∀ k i, free_file fs k = Some i → ∃ f, fs !! (i - k)%nat = Some f ∧ f_ref f = 0 ∧ (k ≤ i)%nat.
Proof.
  induction fs as [|f fs IH]; intros k i E; simpl in E; [done|]. destruct (Z.eqb_spec (f_ref f) 0).
  - simplify_eq. rewrite Nat.sub_diag. by exists f.
  - destruct (IH _ _ E) as (g & Hg & H0 & Hk). exists g. split_and!; [|done|lia].
    by replace (i - k)%nat with (S (i - S k)) by lia.
Qed.
Lemma moves_filealloc : fmoves filealloc (λ r j, match r with Some i => one i j | None => 0 end).
Proof.
  intros t r t' E j. unfold filealloc, on_table, zoom, ft_alloc in E.
  destruct (free_file (fl_files t) 0) as [i|] eqn:Ef; simplify_eq; [|by destruct t; rewrite Z.add_0_r].
  destruct (free_file_ref _ _ _ Ef) as (f & Hf & H0 & _). rewrite Nat.sub_0_r in Hf.
  rewrite (list_alter_insert _ _ _ _ Hf), (fref_insert t i f Hf). simpl. lia.
Qed.
Lemma moves_filedup i : fmoves (filedup i) (λ _, one i).
Proof.
  intros t r t' E j. unfold filedup, on_table, zoom, ft_dup in E.
  destruct (fl_files t !! i) as [f|] eqn:Hf; [|done]. destruct (_ <? _); simplify_eq.
  rewrite (fref_insert t _ f Hf). simpl. lia.
Qed.
Lemma moves_ft_close i : fmoves (on_table (ft_close i)) (λ _ j, - one i j).
Proof.
  intros t r t' E j. unfold on_table, zoom, ft_close in E.
  destruct (fl_files t !! i) as [f|] eqn:Hf; [|done]. destruct (Z.ltb_spec (f_ref f) 1); [done|].
  destruct (Z.ltb_spec 0 (f_ref f - 1)); simplify_eq; rewrite (fref_insert t _ f Hf); unfold one; simpl;
    case_decide; lia.
Qed.
Lemma fstill_modify f : (∀ t, fl_files (f t) = fl_files t) → fstill (modify f).
Proof. intros H. apply fstill_id. intros t a t' [= <- <-]. apply H. Qed.
Lemma fstill_lift {A} (e : outcome A) : fstill (lift e).
Proof. apply fstill_id. intros t a t' E. unfold lift in E. destruct e; try done. by simplify_eq. Qed.
Lemma fstill_diverge {A} d : fmoves (diverge : M filest A) d.
Proof. by apply fstill_fail. Qed.
Lemma fstill_panic {A} msg d : fmoves (panic msg : M filest A) d.
Proof. by apply fstill_fail. Qed.
Lemma fstill_undef {A} msg d : fmoves (undef msg : M filest A) d.
Proof. by apply fstill_fail. Qed.
#[local] Hint Resolve fstill_diverge fstill_panic fstill_undef fstill_lift : still.
#[local] Hint Extern 1 (fmoves (modify _) _) => by apply fstill_modify : still.
#[local] Hint Extern 1 (fmoves skip _) => apply fstill_ret : still.
#[local] Hint Extern 1 (moves skip _) => apply still_ret : still.

Lemma fstill_get_file i : fstill (get_file i).
Proof. unfold get_file. go_still. Qed.
Lemma fstill_get_pipe p : fstill (get_pipe p).
Proof. unfold get_pipe. go_still. Qed.
Lemma fstill_put_pipe p x : fstill (put_pipe p x).
Proof. unfold put_pipe. go_still. Qed.
Lemma fstill_upd_file i g : (∀ f, f_ref (g f) = f_ref f) → fstill (upd_file i g).
Proof.
  intros Hg t a t' E j. unfold upd_file, get_file, bind, gets, modify in E.
  destruct (fl_files t !! i) as [f|] eqn:Hf; [|done]. injection E as <- <-.
  rewrite (fref_insert t i f Hf), Hg. unfold nothing. lia.
Qed.
#[local] Hint Resolve fstill_get_file fstill_get_pipe fstill_put_pipe : still.
#[local] Hint Extern 1 (fmoves (upd_file _ _) _) => by apply fstill_upd_file : still.
Lemma fstill_pipeclose kend p w : fstill (pipeclose' kend p w).
Proof. unfold pipeclose'. go_still. Qed.
Lemma moves_fileclose kend i : fmoves (fileclose kend i) (λ _ j, - one i j).
Proof.
  unfold fileclose. eapply (fmoves_bind _ _ _ (λ _, nothing)); [apply moves_ft_close| |intros; unfold nothing; lia].
  pose proof fstill_pipeclose. unfold begin_op', end_op'. go_still.
Qed.
Lemma fstill_filestat i : fstill (filestat i).
Proof. unfold filestat. go_still. Qed.
Lemma fstill_fileread devsw killed i n : fstill (fileread devsw killed i n).
Proof. unfold fileread. go_still. Qed.
Lemma fstill_write_chunk devsw i src n : fstill (write_chunk devsw i src n).
Proof. unfold write_chunk, begin_op', end_op'. go_still. Qed.
#[local] Hint Resolve fstill_write_chunk fstill_pipeclose fstill_filestat fstill_fileread : still.
Lemma fstill_filewrite_loop devsw i fuel : ∀ src w n, fstill (filewrite_loop devsw fuel i src w n).
Proof. induction fuel as [|fuel IH]; intros src w n; simpl; go_still. Qed.
#[local] Hint Resolve fstill_filewrite_loop : still.
Lemma fstill_filewrite devsw killed i src n : fstill (filewrite devsw killed i src n).
Proof. unfold filewrite. go_still. Qed.
#[local] Hint Resolve fstill_filewrite : still.

Definition pipe_refs (r : option (nat * nat)) (j : nat) : Z :=
  match r with Some (f0, f1) => one f0 j + one f1 j | None => 0 end.
Lemma moves_pipealloc kend : fmoves (pipealloc kend) pipe_refs.
Proof.
  unfold pipealloc.
  eapply (fmoves_bind _ _ _ (λ r0 r j, pipe_refs r j - match r0 with Some f0 => one f0 j | None => 0 end));
    [apply moves_filealloc| |intros; simpl; lia].
  intros [f0|]; [|by apply fmoves_ret; intros j; simpl].
  eapply (fmoves_bind _ _ _ (λ r1 r j, pipe_refs r j - one f0 j - match r1 with Some f1 => one f1 j | None => 0 end));
    [apply moves_filealloc| |intros; simpl; lia].
  intros [f1|].
  2:{ eapply (fmoves_bind _ _ _ (λ _ r j, pipe_refs r j)); [apply moves_fileclose| |intros; simpl; lia].
      intros _. by apply fmoves_ret. }
  apply fstill_then; [auto with still|]. intros k. destruct (kalloc k) as [p k'].
  apply fstill_then; [auto with still|]. intros _. destruct (p =? 0).
  - eapply (fmoves_bind _ _ _ (λ _ r j, pipe_refs r j - one f1 j)); [apply moves_fileclose| |intros; simpl; lia].
    intros _. eapply (fmoves_bind _ _ _ (λ _ r j, pipe_refs r j)); [apply moves_fileclose| |intros; simpl; lia].
    intros _. by apply fmoves_ret.
  - do 3 (apply fstill_then; [auto with still|intros _]). apply fmoves_ret. intros j. simpl. lia.
Qed.

(** ** Descriptors *)
Lemma fd_refs_insert i fds k x y : fds !! k = Some x →
  Z.of_nat (fd_refs i (<[k := y]> fds)) =
  Z.of_nat (fd_refs i fds) - (if decide (Some i = x) then 1 else 0) + (if decide (Some i = y) then 1 else 0).
Proof.
  revert k. induction fds as [|z fds IH]; intros k Hk; [done|]. destruct k as [|k]; simpl in *.
  - simplify_eq. unfold fd_refs. rewrite !filter_cons. repeat case_decide; simpl; lia.
  - specialize (IH k Hk). unfold fd_refs in *. rewrite !filter_cons. repeat case_decide; simpl; lia.
Qed.
Lemma bal_set_fd s fd x y :
  ss_ofile s !! fd = Some x →
  bal s (λ i, (if decide (Some i = x) then 1 else 0) - (if decide (Some i = y) then 1 else 0))
    (set_ss_ofile (<[fd := y]> (ss_ofile s)) s).
Proof. intros Hx i. unfold excess. simpl. rewrite (fd_refs_insert i _ _ _ y Hx). lia. Qed.
Lemma one_some f i : (if decide (Some i = Some f) then 1 else 0) = one f i.
Proof. unfold one. repeat case_decide; congruence. Qed.
Lemma free_fd_spec fds : ∀ k i, free_fd fds k = Some i → (k ≤ i)%nat ∧ fds !! (i - k)%nat = Some None.
Proof.
  induction fds as [|[f|] fds IH]; intros k i E; simpl in E; [done| |].
  - destruct (IH _ _ E) as [Hk Hf]. split; [lia|]. by replace (i - k)%nat with (S (i - S k)) by lia.
  - simplify_eq. by rewrite Nat.sub_diag.
Qed.
(** [fdalloc]: a descriptor that was free now refers to the file. *)
Lemma fdalloc_run f s fd s' : fdalloc f s = Ret (fd, s') →
  (fd = -1 ∧ s' = s) ∨
  (0 ≤ fd ∧ ss_ofile s !! Z.to_nat fd = Some None ∧
   s' = set_ss_ofile (<[Z.to_nat fd := Some f]> (ss_ofile s)) s).
Proof.
  unfold fdalloc, bind, gets. destruct (free_fd (ss_ofile s) 0) as [k|] eqn:Ef; intros [= <- <-]; [|by left].
  destruct (free_fd_spec _ _ _ Ef) as [_ Hk]. rewrite Nat.sub_0_r in Hk. right.
  rewrite Nat2Z.id. split_and!; [lia|done|done].
Qed.
Lemma moves_fdalloc f : moves (fdalloc f) (λ fd i, if fd <? 0 then 0 else - one f i).
Proof.
  intros s fd s' E i. destruct (fdalloc_run _ _ _ _ E) as [[-> ->]|(H0 & Hk & ->)]; [simpl; lia|].
  rewrite (bal_set_fd s _ _ (Some f) Hk i), one_some, (proj2 (Z.ltb_ge _ _)) by done. case_decide; [done|lia].
Qed.

(** ** The calls *)
Section Calls.
Context (kend : Z) (devsw : Z → devsw_entry) (killed : bool) (sz esp : Z) (name0 : list Z).

Lemma still_arg_int n : still (arg_int sz esp n).
Proof. apply still_gets. Qed.
Lemma still_arg_ptr n size : still (arg_ptr sz esp n size).
Proof. apply still_gets. Qed.
Lemma still_arg_str n : still (arg_str sz esp n).
Proof. apply still_gets. Qed.
#[local] Hint Resolve still_arg_int still_arg_ptr still_arg_str : still.
#[local] Hint Extern 1 (moves (on_files _) nothing) => apply moves_on_files : still.
Lemma argfd_run n s a s' : argfd sz esp n s = Ret (a, s') →
  s' = s ∧ ∀ fd f, a = Some (fd, f) → ss_ofile s !! fd = Some (Some f).
Proof.
  unfold argfd, bind, arg_int, gets. destruct (argint sz esp (ss_um s) n) as [fd|]; [|by intros [= <- <-]].
  destruct (_ || _); [by intros [= <- <-]|].
  destruct (ss_ofile s !! Z.to_nat fd) as [[f|]|] eqn:E; intros [= <- <-]; (split; [done|]); intros; by simplify_eq.
Qed.
Lemma still_argfd n : still (argfd sz esp n).
Proof. apply still_id. intros s a s' E. by destruct (argfd_run _ _ _ _ E) as [-> _]. Qed.
Lemma still_sys_namei path : still (sys_namei devsw name0 path).
Proof. unfold sys_namei. go_still. Qed.
Lemma still_sys_nameiparent path : still (sys_nameiparent devsw name0 path).
Proof. unfold sys_nameiparent. go_still. Qed.
Lemma still_read_inode i : still (read_inode i).
Proof. apply still_on_inodes. Qed.
Lemma still_change_nlink i d : still (change_nlink i d).
Proof. apply still_on_inodes. Qed.
Lemma still_begin_op : still sys_begin_op.
Proof. apply moves_on_files, fstill_on_fs. Qed.
Lemma still_end_op : still sys_end_op.
Proof. apply moves_on_files, fstill_on_fs. Qed.
#[local] Hint Resolve still_argfd still_sys_namei still_sys_nameiparent still_read_inode still_change_nlink
  still_begin_op still_end_op : still.

Lemma still_sys_read : still (sys_read devsw killed sz esp).
Proof. unfold sys_read. go_still. Qed.
Lemma still_sys_write : still (sys_write devsw killed sz esp).
Proof. unfold sys_write. go_still. Qed.
Lemma still_sys_fstat : still (sys_fstat sz esp).
Proof. unfold sys_fstat. go_still. Qed.
Lemma still_link_bad i : still (sys_link_bad i).
Proof. unfold sys_link_bad. go_still. Qed.
#[local] Hint Resolve still_link_bad : still.
Lemma still_sys_link : still (sys_link devsw sz esp name0).
Proof. unfold sys_link. go_still. Qed.
Lemma still_isdirempty i : still (isdirempty devsw i).
Proof.
  unfold isdirempty. apply still_then; [auto with still|]. intros d. generalize (2 * sizeof_dirent).
  induction (dir_fuel (i_size d)) as [|fuel IH]; intros off; simpl; go_still. intros ? ? ? [=].
Qed.
Lemma still_unlink_bad i : still (sys_unlink_bad i).
Proof. unfold sys_unlink_bad. go_still. Qed.
#[local] Hint Resolve still_isdirempty still_unlink_bad : still.
Lemma still_sys_unlink : still (sys_unlink devsw sz esp name0).
Proof. unfold sys_unlink. go_still. Qed.
Lemma still_create path t ma mi : still (create devsw name0 path t ma mi).
Proof. unfold create. go_still. Qed.
#[local] Hint Resolve still_create : still.
Lemma still_open_inode path omode : still (open_inode devsw name0 path omode).
Proof. unfold open_inode. go_still. Qed.
#[local] Hint Resolve still_open_inode : still.
Lemma still_sys_mkdir : still (sys_mkdir devsw sz esp name0).
Proof. unfold sys_mkdir. go_still. Qed.
Lemma still_sys_mknod : still (sys_mknod devsw sz esp name0).
Proof. unfold sys_mknod. go_still. Qed.
Lemma still_set_cwd i : still (modify (set_ss_cwd i)).
Proof. apply still_id. by intros s a s' [= <- <-]. Qed.
#[local] Hint Resolve still_set_cwd : still.
Lemma still_sys_chdir : still (sys_chdir devsw sz esp name0).
Proof. unfold sys_chdir. go_still. Qed.

Lemma still_sys_dup : still (sys_dup sz esp).
Proof.
  unfold sys_dup. apply still_then; [auto with still|]. intros [[fd0 f]|]; [|go_still].
  eapply (moves_bind _ _ _ (λ fd _ i, if fd <? 0 then 0 else one f i)); [apply moves_fdalloc| |].
  - intros fd. destruct (fd <? 0); [by apply moves_ret|].
    eapply (moves_bind _ _ _ (λ _, nothing)); [apply moves_on_files, moves_filedup| |intros; unfold nothing; lia].
    go_still.
  - intros a b i. unfold nothing. destruct (a <? 0); lia.
Qed.
Lemma still_sys_open : still (sys_open kend devsw sz esp name0).
Proof.
  unfold sys_open. apply still_then; [auto with still|]. intros [path|]; [|go_still].
  apply still_then; [auto with still|]. intros [omode|]; [|go_still].
  apply still_then; [auto with still|]. intros _.
  apply still_then; [auto with still|]. intros [ip|]; [|go_still].
  eapply (moves_bind _ _ _ (λ r _ j, match r with Some f => - one f j | None => 0 end));
    [apply moves_on_files, moves_filealloc| |intros [f|] ? ?; unfold nothing; lia].
  intros [f|]; [|go_still].
  eapply (moves_bind _ _ _ (λ fd _ j, if fd <? 0 then - one f j else 0)); [apply moves_fdalloc| |].
  2:{ intros fd ? j. simpl. destruct (fd <? 0); lia. }
  intros fd. destruct (fd <? 0); [|go_still].
  eapply (moves_bind _ _ _ (λ _, nothing)); [apply moves_on_files, moves_fileclose| |intros; unfold nothing; lia].
  go_still.
Qed.
Lemma still_sys_close : still (sys_close kend sz esp).
Proof.
  intros s a s' E i. unfold sys_close, bind in E. destruct (argfd sz esp 0 s) as [[r s1]| | |] eqn:Ea; try done.
  destruct (argfd_run _ _ _ _ Ea) as [-> Hr]. destruct r as [[fd f]|]; [|injection E as <- <-; unfold nothing; lia].
  specialize (Hr fd f eq_refl). unfold set_fd, modify in E.
  destruct (on_files (fileclose kend f) _) as [[u s2]| | |] eqn:Ec; try done. injection E as <- <-.
  rewrite (moves_on_files _ _ (moves_fileclose kend f) _ _ _ Ec i), (bal_set_fd s _ _ None Hr i), one_some.
  unfold nothing. case_decide; [done|lia].
Qed.
Lemma still_sys_pipe : still (sys_pipe kend sz esp).
Proof.
  unfold sys_pipe. apply still_then; [auto with still|]. intros [fd|]; [|go_still].
  eapply (moves_bind _ _ _ (λ r _ j, - pipe_refs r j));
    [apply moves_on_files, moves_pipealloc| |intros; unfold nothing; lia].
  intros [[rf wf]|]; [|go_still]. simpl.
  assert (moves (on_files (fileclose kend rf) ;! on_files (fileclose kend wf) ;! ret (-1))
            (λ _ j, - one rf j - one wf j)) as Hclose.
  { eapply (moves_bind _ _ _ (λ _ _ j, - one wf j)); [apply moves_on_files, moves_fileclose| |intros; simpl; lia].
    intros _. eapply (moves_bind _ _ _ (λ _, nothing)); [apply moves_on_files, moves_fileclose| |].
    - intros _. auto with still.
    - intros. unfold nothing. lia. }
  intros s r s' E i. unfold bind at 1 in E. destruct (fdalloc rf s) as [[fd0 s1]| | |] eqn:E0; try done.
  pose proof (moves_fdalloc _ _ _ _ E0 i) as B0. simpl in B0. destruct (Z.ltb_spec fd0 0) as [Hneg|Hpos].
  { rewrite (Hclose _ _ _ E i), B0. lia. }
  unfold bind at 1 in E. destruct (fdalloc wf s1) as [[fd1 s2]| | |] eqn:E1; try done.
  pose proof (moves_fdalloc _ _ _ _ E1 i) as B1. simpl in B1. destruct (Z.ltb_spec fd1 0) as [Hneg1|Hpos1].
  - destruct (fdalloc_run _ _ _ _ E1) as [[_ ->]|]; [|lia].
    destruct (fdalloc_run _ _ _ _ E0) as [[? _]|(_ & Hk & Es1)]; [lia|].
    assert (ss_ofile s1 !! Z.to_nat fd0 = Some (Some rf)) as Hs1.
    { rewrite Es1. simpl. apply list_lookup_insert_eq. by eapply lookup_lt_Some. }
    unfold bind at 1 in E. unfold set_fd, modify in E.
    rewrite (Hclose _ _ _ E i), (bal_set_fd s1 _ _ None Hs1 i), one_some, B0. case_decide; [done|lia].
  - assert (still (upd_um (λ m, store32 (store32 m fd fd0) (fd + 4) fd1) ;! ret 0)) as Hst.
    { apply still_then; [auto with still|]. intros _. auto with still. }
    rewrite (Hst _ _ _ E i), B1, B0. unfold nothing. lia.
Qed.
End Calls.

(** The file system calls, without [exec]. *)
Definition file_calls (kend : Z) (devsw : Z → devsw_entry) (killed : bool) (sz esp : Z) (name0 : list Z)
    : list (M sysst Z) :=
  [sys_dup sz esp; sys_read devsw killed sz esp; sys_write devsw killed sz esp; sys_close kend sz esp;
   sys_fstat sz esp; sys_link devsw sz esp name0; sys_unlink devsw sz esp name0;
   sys_open kend devsw sz esp name0; sys_mkdir devsw sz esp name0; sys_mknod devsw sz esp name0;
   sys_chdir devsw sz esp name0; sys_pipe kend sz esp].

(** Claim C17: system calls neither leak nor lose file references.  Whatever
    the arguments, the user memory and the state, when one of the file system
    calls returns, with success or with an error, every file has the same
    number of references beyond those of the process's descriptors as before:
    each new descriptor came with one reference, and each closed one gave its
    reference up. *)
Theorem calls_keep_references kend devsw killed sz esp name0 call s r s' :
  call ∈ file_calls kend devsw killed sz esp name0 → call s = Ret (r, s') →
  ∀ i, excess s' i = excess s i.
Proof.
  intros Hc E i. assert (still call) as Hst; [|rewrite (Hst _ _ _ E i); unfold nothing; lia].
  clear E. unfold file_calls in Hc. repeat (apply elem_of_cons in Hc as [->|Hc]).
  1: apply still_sys_dup. 1: apply still_sys_read. 1: apply still_sys_write. 1: apply still_sys_close.
  1: apply still_sys_fstat. 1: apply still_sys_link. 1: apply still_sys_unlink. 1: apply still_sys_open.
  1: apply still_sys_mkdir. 1: apply still_sys_mknod. 1: apply still_sys_chdir. 1: apply still_sys_pipe.
  by apply not_elem_of_nil in Hc.
Qed.
(** A process with one open file, and the stack of a call on descriptor 0. *)
Definition wsys (ofile : list (option nat)) (files : list file) : sysst :=
  mkSys (set_fl_files files wst) ofile 0 (λ _, 0).
Lemma calls_keep_references_witness :
  sys_dup 64 0 (wsys [Some 0%nat; None; None] [wfile]) =
    Ret (1, wsys [Some 0%nat; Some 0%nat; None] [set_f_ref 2 wfile]) ∧
  excess (wsys [Some 0%nat; Some 0%nat; None] [set_f_ref 2 wfile]) 0 =
    excess (wsys [Some 0%nat; None; None] [wfile]) 0.
Proof.
  split; [reflexivity|].
  apply (calls_keep_references 0 wdev false 64 0 [] (sys_dup 64 0) _ 1); [by left|reflexivity].
Defined.
