(* ===== verification/Mkfs.v ===== *)
(** * The program that makes the file system image (mkfs.c)

    The image file is a list of blocks.  A failed host call or assertion ends
    the program and is a panic here.  A file to put into the image is its name
    as given on the command line and the results of the successive [read]
    calls on it. *)
From S2P Require Import Prelude Machine Block Bio Log Fs.

Open Scope Z_scope.

Definition NINODES : Z := 200.
Definition nbitmap : Z := FSSIZE / (BSIZE * 8) + 1.
Definition ninodeblocks : Z := NINODES / IPB + 1.
Definition nlog : Z := LOGSIZE.
Definition nmeta : Z := 2 + nlog + ninodeblocks + nbitmap.
Definition nblocks : Z := FSSIZE - nmeta.
(** [sb] *)
Definition mkfs_sb : superblock :=
  mkSb FSSIZE nblocks NINODES nlog 2 (2 + nlog) (2 + nlog + ninodeblocks).

Record mkst := mkMk { mk_img : list block; mk_freeinode : Z; mk_freeblock : Z }.
Definition set_img (v : list block) (s : mkst) : mkst := mkMk v (mk_freeinode s) (mk_freeblock s).
Definition set_freeinode (v : Z) (s : mkst) : mkst := mkMk (mk_img s) v (mk_freeblock s).
Definition set_freeblock (v : Z) (s : mkst) : mkst := mkMk (mk_img s) (mk_freeinode s) v.
Abbreviation MK := (M mkst).

(** A write at or past the end makes the file longer. *)
Definition wsect (sec : Z) (buf : block) : MK unit :=
  modify (λ s,
    let l := mk_img s in
    let k := Z.to_nat sec in
    set_img (if (k <? length l)%nat then <[k := buf]> l
             else l ++ replicate (k - length l) zero_block ++ [buf]) s).
(** A read past the end gives fewer bytes. *)
Definition rsect (sec : Z) : MK block :=
  let! l := gets mk_img in
  match l !! Z.to_nat sec with
  | Some b => ret b
  | None => panic "read"
  end.

(** [struct dinode] as the fields of an inode. *)
Definition mk_inode (inum : Z) : inode := mkInode ROOTDEV inum 0 0 0 0 0 0 0 (replicate 13 0).
Definition winode (inum : Z) (ip : inode) : MK unit :=
  let bn := IBLOCK inum mkfs_sb in
  let! buf := rsect bn in
  wsect bn (store_dinode ip (dinode_off inum) buf).
Definition rinode (inum : Z) : MK inode :=
  let! buf := rsect (IBLOCK inum mkfs_sb) in
  ret (load_dinode buf (dinode_off inum) (mk_inode inum)).

Definition mkfs_ialloc (type : Z) : MK Z :=
  let! inum := gets mk_freeinode in
  modify (set_freeinode (u32 (inum + 1))) ;!
  winode inum (set_i_size 0 (set_i_nlink 1 (set_i_type type (mk_inode inum)))) ;!
  ret inum.

(** The bits of the first [used] blocks. *)
Definition bitmap_block (used : Z) : block :=
  foldl (λ buf i, mark_bit (Z.of_nat i) buf) zero_block (seq 0 (Z.to_nat used)).
Definition mkfs_balloc (used : Z) : MK unit :=
  if used <? BSIZE * 8 then wsect (sb_bmapstart mkfs_sb) (bitmap_block used)
  else panic "assert".

(** [freeblock++] *)
Definition new_block : MK Z :=
  let! b := gets mk_freeblock in
  modify (set_freeblock (u32 (b + 1))) ;!
  ret b.
(** The block of the file that holds byte [fbn * BSIZE], and [din] with it. *)
Definition iappend_block (fbn : Z) (din : inode) : MK (Z * inode) :=
  let addr := λ n, default 0 (i_addrs din !! Z.to_nat n) in
  if fbn <? NDIRECT then
    if addr fbn =? 0 then
      let! b := new_block in
      ret (b, set_i_addrs (<[Z.to_nat fbn := b]> (i_addrs din)) din)
    else ret (addr fbn, din)
  else
    let! din :=
      (if addr NDIRECT =? 0 then
         let! b := new_block in
         ret (set_i_addrs (<[Z.to_nat NDIRECT := b]> (i_addrs din)) din)
       else ret din) in
    let ind := default 0 (i_addrs din !! Z.to_nat NDIRECT) in
    let! indirect := rsect ind in
    let o := Z.to_nat (4 * (fbn - NDIRECT)) in
    if get32 indirect o =? 0 then
      let! b := new_block in
      wsect ind (put32 o b indirect) ;!
      ret (b, din)
    else ret (get32 indirect o, din).
Fixpoint iappend_loop (fuel : nat) (din : inode) (off : Z) (p : list Z) : MK (inode * Z) :=
  match fuel with
  | O => λ _, Diverge
  | S fuel =>
      if 0 <? Z.of_nat (length p) then
        let fbn := off / BSIZE in
        if negb (fbn <? MAXFILE) then panic "assert"
        else
          let! (x, din) := iappend_block fbn din in
          let n1 := Z.to_nat (Z.min (Z.of_nat (length p)) ((fbn + 1) * BSIZE - off)) in
          let! buf := rsect x in
          wsect x (put_bytes (Z.to_nat (off - fbn * BSIZE)) (take n1 p) buf) ;!
          iappend_loop fuel din (off + Z.of_nat n1) (drop n1 p)
      else ret (din, off)
  end.
Definition iappend (inum : Z) (p : list Z) : MK unit :=
  let! din := rinode inum in
  let! (din, off) := iappend_loop (S (length p)) din (i_size din) p in
  winode inum (set_i_size (u32 off) din).

Definition underscore : Z := 95.
Definition dot : Z := 46.
(** A file of the command line. *)
Record host_file := mkHf { hf_name : list Z; hf_reads : list (list Z) }.
Definition image_name (argv : list Z) : list Z :=
  if default 0 (head argv) =? underscore then tail argv else argv.
Definition add_file (rootino : Z) (f : host_file) : MK unit :=
  if existsb (Z.eqb slash) (hf_name f) then panic "assert"
  else
    let! inum := mkfs_ialloc T_FILE in
    iappend rootino (mk_dirent inum (image_name (hf_name f))) ;!
    for_each (hf_reads f) (iappend inum).

Definition sb_block : block :=
  put32 24 (sb_bmapstart mkfs_sb) (put32 20 (sb_inodestart mkfs_sb) (put32 16 (sb_logstart mkfs_sb)
    (put32 12 (sb_nlog mkfs_sb) (put32 8 (sb_ninodes mkfs_sb) (put32 4 (sb_nblocks mkfs_sb)
      (put32 0 (sb_size mkfs_sb) zero_block)))))).
Definition main (files : list host_file) : MK unit :=
  modify (set_freeblock nmeta) ;!
  for_each (seq 0 (Z.to_nat FSSIZE)) (λ i, wsect (Z.of_nat i) zero_block) ;!
  wsect 1 sb_block ;!
  let! rootino := mkfs_ialloc T_DIR in
  if negb (rootino =? ROOTINO) then panic "assert"
  else
    iappend rootino (mk_dirent rootino [dot]) ;!
    iappend rootino (mk_dirent rootino [dot; dot]) ;!
    for_each files (add_file rootino) ;!
    let! din := rinode rootino in
    let off := (i_size din / BSIZE + 1) * BSIZE in
    winode rootino (set_i_size (u32 off) din) ;!
    let! used := gets mk_freeblock in
    mkfs_balloc used.
(** The image of a run: an empty file to start with, [freeinode] is 1. *)
Definition image_of (r : outcome (unit * mkst)) : outcome (list block) :=
  let* (_, s) := r in Ret (mk_img s).
Definition mkfs (files : list host_file) : outcome (list block) :=
  image_of (main files (mkMk [] 1 0)).

(** The image as the disk of the kernel. *)
Definition disk_of (img : list block) : disk := λ _ k, default zero_block (img !! Z.to_nat k).
