(* ===== verification/MkfsThm.v ===== *)
(** * The image that mkfs makes is the file system the kernel expects

    The files of the image, while mkfs builds it, are described by the
    definitions of FsThm.v ([faddr], [fbyte], [owned]) together with a map from
    blocks to the file and place that use them, from which disjointness
    follows.  The theorem is that the finished image has the layout and the
    consistency that the theorems about the kernel's log and file system start
    from, with the given files in it. *)
From S2P Require Import Prelude Machine Block Bio Log LogThm Fs FsBits FsThm FileThm Mkfs.

Open Scope Z_scope.

(** ** Files of the image *)

(** File [j] has [nb] blocks and the contents [bs]; [own] says which place of
    which file a block is for, the place -1 being the indirect block. *)
Record file_rep (c : disk) (own : gmap Z (Z * Z)) (j : Z) (ip : inode) (nb : Z) (has : bool) (bs : list Z) : Prop := {
  fr_len : length (i_addrs ip) = Z.to_nat (NDIRECT + 1);
  fr_nb : 0 ≤ nb ≤ MAXFILE;
  fr_map : ∀ bn, in_file bn →
    if bn <? nb then own !! faddr 1 c ip bn = Some (j, bn) else faddr 1 c ip bn = 0;
  fr_ind : if has then own !! find_ ip = Some (j, -1) else find_ ip = 0;
  fr_has : NDIRECT < nb → has = true;
  fr_bytes : ∀ o, in_bytes o → fbyte 1 c ip o = default 0 (bs !! Z.to_nat o);
  fr_fit : Z.of_nat (length bs) ≤ nb * BSIZE }.
(** Block 0 belongs to no file. *)
Definition own_pos (own : gmap Z (Z * Z)) : Prop := map_Forall (λ k _, 0 < k < FSSIZE) own.

Section Rep.
Context (c : disk) (own : gmap Z (Z * Z)) (Hpos : own_pos own).

Lemma own_nonzero k v : own !! k = Some v → k ≠ 0.
Proof using Hpos. intros H. apply Hpos in H. lia. Qed.
Lemma rep_faddr j ip nb has bs bn : file_rep c own j ip nb has bs → in_file bn →
  faddr 1 c ip bn ≠ 0 ↔ bn < nb.
Proof using Hpos.
  intros Hr Hb. pose proof (fr_map _ _ _ _ _ _ _ Hr bn Hb) as H. destruct (Z.ltb_spec bn nb).
  - apply own_nonzero in H. tauto.
  - rewrite H. split; [done|lia].
Qed.
Lemma rep_find j ip nb has bs : file_rep c own j ip nb has bs → find_ ip ≠ 0 ↔ has = true.
Proof using Hpos.
  intros Hr. pose proof (fr_ind _ _ _ _ _ _ _ Hr) as H. destruct has.
  - apply own_nonzero in H. tauto.
  - rewrite H. by split.
Qed.

(** A file depends on its own blocks only. *)
Lemma rep_faddr_eq c' j ip nb has bs bn : file_rep c own j ip nb has bs → in_file bn →
  (∀ k v, own !! k = Some (j, v) → c' 1 k = c 1 k) → faddr 1 c' ip bn = faddr 1 c ip bn.
Proof using Hpos.
  intros Hr Hb Hc. unfold faddr. destruct (bn <? NDIRECT); [done|]. fold (find_ ip).
  pose proof (fr_ind _ _ _ _ _ _ _ Hr) as Hi. destruct (Z.eqb_spec (find_ ip) 0) as [E|Hn]; [done|].
  destruct has; [|done]. by rewrite (Hc _ _ Hi).
Qed.
Lemma rep_frame c' own' j ip nb has bs : file_rep c own j ip nb has bs → own ⊆ own' →
  (∀ k v, own !! k = Some (j, v) → c' 1 k = c 1 k) → file_rep c' own' j ip nb has bs.
Proof using Hpos.
  intros Hr Ho Hc. pose proof (λ bn Hb, rep_faddr_eq c' j ip nb has bs bn Hr Hb Hc) as Hf.
  destruct Hr as [H1 H2 H3 H4 H5 H6 H7] eqn:Er. clear Er. split; try done.
  - intros bn Hb. rewrite Hf by done. specialize (H3 bn Hb). destruct (bn <? nb); [|done]. by eapply lookup_weaken.
  - destruct has; [|done]. by eapply lookup_weaken.
  - intros o Hob. rewrite <- H6 by done. pose proof (in_bytes_blk _ Hob) as Hb. unfold fbyte, fblock.
    rewrite Hf by done. specialize (H3 _ Hb). destruct (o / BSIZE <? nb).
    + rewrite (proj2 (Z.eqb_neq _ _)) by (by eapply own_nonzero). by rewrite (Hc _ _ H3).
    + by rewrite H3.
Qed.

(** A fresh block for the next place of the file, named in the inode ... *)
Context (b : Z) (Hb : 0 < b < FSSIZE) (Hfree : own !! b = None) (Hzero : c 1 b = zero_block).

Lemma rep_direct j ip nb has bs : file_rep c own j ip nb has bs → nb < NDIRECT →
  file_rep c (<[b := (j, nb)]> own) j (set_i_addrs (<[Z.to_nat nb := b]> (i_addrs ip)) ip) (nb + 1) has bs.
Proof using Hpos Hb Hfree Hzero.
  intros Hr Hnb. pose proof (fr_nb _ _ _ _ _ _ _ Hr) as Hn0. pose proof (fr_len _ _ _ _ _ _ _ Hr) as Hl.
  assert (length (i_addrs ip) = 13%nat) as Hl' by exact Hl. unfold NDIRECT in Hnb.
  set (ip' := set_i_addrs (<[Z.to_nat nb := b]> (i_addrs ip)) ip).
  assert (find_ ip' = find_ ip) as Hfind.
  { unfold find_, ip'. cbn [i_addrs set_i_addrs]. rewrite list_lookup_insert_ne; [done|]. unfold NDIRECT. lia. }
  assert (∀ bn, in_file bn → faddr 1 c ip' bn = if bn =? nb then b else faddr 1 c ip bn) as Hf.
  { intros bn [Hbn _]. unfold faddr. fold (find_ ip'). fold (find_ ip). rewrite Hfind. unfold NDIRECT, ip'.
    cbn [i_addrs set_i_addrs]. destruct (Z.eqb_spec bn nb) as [->|Hne].
    - rewrite (proj2 (Z.ltb_lt nb 12)) by lia. by rewrite list_lookup_insert_eq by lia.
    - destruct (bn <? 12); [|done]. by rewrite list_lookup_insert_ne by lia. }
  split; try done.
  - unfold ip'. cbn [i_addrs set_i_addrs]. by rewrite length_insert.
  - rewrite MAXFILE_eq. lia.
  - intros bn Hbn. rewrite Hf by done. pose proof (fr_map _ _ _ _ _ _ _ Hr bn Hbn) as Hm.
    destruct (Z.eqb_spec bn nb) as [->|Hne].
    + rewrite (proj2 (Z.ltb_lt _ _)) by lia. apply lookup_insert_eq.
    + destruct (Z.ltb_spec bn nb), (Z.ltb_spec bn (nb + 1)); try lia; try done.
      rewrite lookup_insert_ne; [done|]. intros E. rewrite <- E in Hm. congruence.
  - rewrite Hfind. pose proof (fr_ind _ _ _ _ _ _ _ Hr) as Hi. destruct has; [|done].
    rewrite lookup_insert_ne; [done|]. intros E. rewrite <- E in Hi. congruence.
  - intros H12. apply (fr_has _ _ _ _ _ _ _ Hr). unfold NDIRECT in *. lia.
  - intros o Ho. rewrite <- (fr_bytes _ _ _ _ _ _ _ Hr) by done. pose proof (in_bytes_blk _ Ho) as Hbn.
    unfold fbyte, fblock. rewrite Hf by done. destruct (Z.eqb_spec (o / BSIZE) nb) as [E|Hne]; [|done].
    pose proof (fr_map _ _ _ _ _ _ _ Hr _ Hbn) as Hm. rewrite (proj2 (Z.ltb_ge _ _)) in Hm by lia.
    rewrite Hm, (proj2 (Z.eqb_neq b 0)) by lia. by rewrite Hzero.
  - pose proof (fr_fit _ _ _ _ _ _ _ Hr). unfold BSIZE in *. lia.
Qed.
(** ... as its indirect block ... *)
Lemma rep_indirect j ip nb bs : file_rep c own j ip nb false bs →
  file_rep c (<[b := (j, -1)]> own) j (set_i_addrs (<[Z.to_nat NDIRECT := b]> (i_addrs ip)) ip) nb true bs.
Proof using Hpos Hb Hfree Hzero.
  intros Hr. pose proof (fr_len _ _ _ _ _ _ _ Hr) as Hl. assert (length (i_addrs ip) = 13%nat) as Hl' by exact Hl.
  pose proof (fr_ind _ _ _ _ _ _ _ Hr) as Hi. simpl in Hi.
  set (ip' := set_i_addrs (<[Z.to_nat NDIRECT := b]> (i_addrs ip)) ip).
  assert (find_ ip' = b) as Hfind.
  { unfold find_, ip'. cbn [i_addrs set_i_addrs]. by rewrite list_lookup_insert_eq by (rewrite Hl'; unfold NDIRECT; lia). }
  assert (∀ bn, in_file bn → faddr 1 c ip' bn = faddr 1 c ip bn) as Hf.
  { intros bn [Hbn _]. unfold faddr. fold (find_ ip'). fold (find_ ip). rewrite Hfind, Hi.
    destruct (Z.ltb_spec bn NDIRECT).
    - unfold ip'. cbn [i_addrs set_i_addrs]. by rewrite list_lookup_insert_ne by lia.
    - rewrite (proj2 (Z.eqb_neq b 0)), Z.eqb_refl by lia. by rewrite Hzero, get32_zero. }
  split.
  - unfold ip'. cbn [i_addrs set_i_addrs]. by rewrite length_insert.
  - apply Hr.
  - intros bn Hbn. rewrite Hf by done. pose proof (fr_map _ _ _ _ _ _ _ Hr bn Hbn) as Hm.
    destruct (bn <? nb); [|done]. rewrite lookup_insert_ne; [done|]. intros E. rewrite <- E in Hm. congruence.
  - rewrite Hfind. apply lookup_insert_eq.
  - done.
  - intros o Ho. rewrite <- (fr_bytes _ _ _ _ _ _ _ Hr) by done. unfold fbyte, fblock.
    by rewrite Hf by by apply in_bytes_blk.
  - apply Hr.
Qed.
(** ... or in its indirect block. *)
Definition with_entry (ip : inode) (nb : Z) : disk :=
  disk_write c 1 (find_ ip) (put32 (Z.to_nat (4 * (nb - NDIRECT))) b (c 1 (find_ ip))).
Lemma rep_entry j ip nb bs : file_rep c own j ip nb true bs → NDIRECT ≤ nb < MAXFILE →
  length (c 1 (find_ ip)) = Z.to_nat BSIZE →
  file_rep (with_entry ip nb) (<[b := (j, nb)]> own) j ip (nb + 1) true bs ∧ faddr 1 (with_entry ip nb) ip nb = b.
Proof using Hpos Hb Hfree Hzero.
  intros Hr Hnb Hlen. pose proof (fr_ind _ _ _ _ _ _ _ Hr) as Hi. simpl in Hi.
  pose proof (own_nonzero _ _ Hi) as Hi0. set (c' := with_entry ip nb). rewrite MAXFILE_eq in *. unfold NDIRECT in *.
  assert (b ≠ find_ ip) as Hbi by (intros E; rewrite E in Hfree; congruence).
  assert (∀ k, k ≠ find_ ip → c' 1 k = c 1 k) as Hc by (intros k Hk; apply disk_write_ne; congruence).
  assert (∀ bn, in_file bn → faddr 1 c' ip bn = if bn =? nb then b else faddr 1 c ip bn) as Hf.
  { intros bn [Hbn Hbm]. rewrite MAXFILE_eq in Hbm. unfold faddr. fold (find_ ip). unfold NDIRECT.
    destruct (Z.ltb_spec bn 12); [by rewrite (proj2 (Z.eqb_neq bn nb)) by lia|].
    rewrite (proj2 (Z.eqb_neq _ 0)) by done. unfold c', with_entry. rewrite disk_write_eq. unfold NDIRECT.
    unfold BSIZE in Hlen. destruct (Z.eqb_spec bn nb) as [->|Hne].
    - rewrite get32_put32_eq by (rewrite Hlen; lia). apply u32_small. unfold word_ok, FSSIZE in *. lia.
    - apply get32_put32_ne. lia. }
  assert (in_file nb) as Hin by (unfold in_file; rewrite MAXFILE_eq; lia).
  split; [|by rewrite Hf, Z.eqb_refl]. split.
  - apply Hr.
  - rewrite MAXFILE_eq. lia.
  - intros bn Hbn. rewrite Hf by done. pose proof (fr_map _ _ _ _ _ _ _ Hr bn Hbn) as Hm.
    destruct (Z.eqb_spec bn nb) as [->|Hne].
    + rewrite (proj2 (Z.ltb_lt _ _)) by lia. apply lookup_insert_eq.
    + destruct (Z.ltb_spec bn nb), (Z.ltb_spec bn (nb + 1)); try lia; try done.
      rewrite lookup_insert_ne; [done|]. intros E. rewrite <- E in Hm. congruence.
  - rewrite lookup_insert_ne by done. exact Hi.
  - done.
  - intros o Ho. rewrite <- (fr_bytes _ _ _ _ _ _ _ Hr) by done. pose proof (in_bytes_blk _ Ho) as Hbn.
    unfold fbyte, fblock. rewrite Hf by done. pose proof (fr_map _ _ _ _ _ _ _ Hr _ Hbn) as Hm.
    destruct (Z.eqb_spec (o / BSIZE) nb) as [E|Hne].
    + rewrite (proj2 (Z.ltb_ge _ _)) in Hm by lia. rewrite Hm, (proj2 (Z.eqb_neq b 0)), Hc by (done || lia).
      by rewrite Hzero.
    + destruct (Z.eqb_spec (faddr 1 c ip (o / BSIZE)) 0) as [|Hn]; [done|]. rewrite Hc; [done|]. intros E.
      destruct (_ <? _); [|done]. rewrite E, Hi in Hm. injection Hm as Hm. destruct Hbn. lia.
  - pose proof (fr_fit _ _ _ _ _ _ _ Hr). unfold BSIZE in *. lia.
Qed.
End Rep.

(** Bytes put at the end of the contents, in a block of the file. *)
Lemma rep_write c own j ip nb has bs p :
  own_pos own → file_rep c own j ip nb has bs →
  let off := Z.of_nat (length bs) in
  let bn := off / BSIZE in
  let x := faddr 1 c ip bn in
  bn < nb → off mod BSIZE + Z.of_nat (length p) ≤ BSIZE → length (c 1 x) = Z.to_nat BSIZE →
  file_rep (disk_write c 1 x (put_bytes (Z.to_nat (off mod BSIZE)) p (c 1 x))) own j ip nb has (bs ++ p).
Proof.
  intros Hpos Hr off bn x Hbn Hp Hlen. pose proof (fr_nb _ _ _ _ _ _ _ Hr) as Hnb.
  assert (in_file bn) as Hin by (unfold in_file; split; [apply Z.div_pos; [lia|done]|lia]).
  pose proof (fr_map _ _ _ _ _ _ _ Hr bn Hin) as Hx. rewrite (proj2 (Z.ltb_lt _ _)) in Hx by done. fold x in Hx.
  set (c' := disk_write c 1 x _).
  assert (∀ k, k ≠ x → c' 1 k = c 1 k) as Hc by (intros k Hk; apply disk_write_ne; congruence).
  assert (∀ b, in_file b → faddr 1 c' ip b = faddr 1 c ip b) as Hf.
  { intros b [Hb0 _]. unfold faddr. destruct (b <? NDIRECT); [done|]. fold (find_ ip).
    destruct (Z.eqb_spec (find_ ip) 0) as [|Hn]; [done|]. rewrite Hc; [done|]. intros E.
    pose proof (proj1 (rep_find _ _ Hpos _ _ _ _ _ Hr) Hn) as ->. pose proof (fr_ind _ _ _ _ _ _ _ Hr) as Hi. simpl in Hi.
    rewrite E, Hx in Hi. injection Hi as Hi. destruct Hin. lia. }
  pose proof (Z.div_mod off BSIZE ltac:(done)) as Hdm. fold bn in Hdm.
  pose proof (Z.mod_pos_bound off BSIZE ltac:(done)) as Hmo.
  split; try apply Hr.
  - intros b Hb. rewrite Hf by done. by apply Hr.
  - intros o Ho. pose proof (in_bytes_blk _ Ho) as Hb. unfold fbyte, fblock. rewrite Hf by done.
    destruct (Z.eqb_spec (o / BSIZE) bn) as [E|Hne].
    + rewrite E. fold x. rewrite (proj2 (Z.eqb_neq x 0)) by (by eapply own_nonzero). unfold c'. rewrite disk_write_eq.
      pose proof (fr_bytes _ _ _ _ _ _ _ Hr o Ho) as Hold. unfold fbyte, fblock in Hold. rewrite E in Hold. fold x in Hold.
      rewrite (proj2 (Z.eqb_neq x 0)) in Hold by (by eapply own_nonzero).
      unfold get8 in *. rewrite put_bytes_lookup by (rewrite Hlen; unfold BSIZE in *; lia).
      pose proof (Z.div_mod o BSIZE ltac:(done)) as Hdo. rewrite E in Hdo. pose proof (Z.mod_pos_bound o BSIZE ltac:(done)).
      unfold in_bytes in Ho.
      unfold BSIZE in *. case_decide.
      * rewrite lookup_app_r by lia. f_equal. f_equal. lia.
      * rewrite Hold. destruct (decide (o < off)).
        -- by rewrite lookup_app_l by lia.
        -- rewrite lookup_app_r by lia. rewrite (lookup_ge_None_2 p) by lia. by rewrite lookup_ge_None_2 by lia.
    + pose proof (fr_bytes _ _ _ _ _ _ _ Hr o Ho) as Hold. unfold fbyte, fblock in Hold.
      pose proof (fr_map _ _ _ _ _ _ _ Hr _ Hb) as Hm.
      assert (default 0 ((bs ++ p) !! Z.to_nat o) = default 0 (bs !! Z.to_nat o)) as Happ.
      { destruct (decide (o < off)) as [Hlt|Hge]; [by rewrite lookup_app_l by (unfold in_bytes in Ho; lia)|].
        rewrite lookup_app_r by lia. rewrite (lookup_ge_None_2 bs) by lia. rewrite lookup_ge_None_2; [done|].
        assert (bn ≤ o / BSIZE) as Hgt by (apply Z.div_le_mono; [done|lia]).
        pose proof (Z.div_mod o BSIZE ltac:(done)). pose proof (Z.mod_pos_bound o BSIZE ltac:(done)). unfold BSIZE in *. lia. }
      rewrite Happ, <- Hold. destruct (Z.eqb_spec (faddr 1 c ip (o / BSIZE)) 0) as [|Hn]; [done|].
      rewrite Hc; [done|]. intros Ex. destruct (_ <? _); [|done]. rewrite Ex, Hx in Hm. by injection Hm as Hm.
  - rewrite length_app. unfold BSIZE in *. nia.
Qed.

(** ** The image while it is being made *)
Record img_ok (s : mkst) (own : gmap Z (Z * Z)) : Prop := {
  io_len : length (mk_img s) = Z.to_nat FSSIZE;
  io_blocks : Forall block_ok (mk_img s);
  io_fb : nmeta ≤ mk_freeblock s ≤ FSSIZE;
  io_own : map_Forall (λ k _, nmeta ≤ k < mk_freeblock s) own;
  io_zero : ∀ k, mk_freeblock s ≤ k < FSSIZE → disk_of (mk_img s) 1 k = zero_block }.
Abbreviation dk s := (disk_of (mk_img s)).
Abbreviation len bs := (Z.of_nat (length bs)).

Lemma img_pos s own : img_ok s own → own_pos own.
Proof.
  intros Hi k v Hk. pose proof (io_own _ _ Hi k v Hk) as H. pose proof (io_fb _ _ Hi). unfold nmeta, nlog, LOGSIZE in *.
  assert (0 < 2 + MAXOPBLOCKS * 3 + ninodeblocks + nbitmap) by done. simpl in H. lia.
Qed.
Lemma img_block s own k : img_ok s own → block_ok (dk s 1 k).
Proof.
  intros Hi. unfold disk_of. destruct (mk_img s !! Z.to_nat k) as [b|] eqn:E; [|apply zero_block_ok].
  by eapply Forall_lookup_1; [apply (io_blocks _ _ Hi)|].
Qed.
Lemma disk_of_insert img k b k' : 0 ≤ k → (Z.to_nat k < length img)%nat → 0 ≤ k' →
  disk_of (<[Z.to_nat k := b]> img) 1 k' = disk_write (disk_of img) 1 k b 1 k'.
Proof.
  intros Hk Hl Hk'. unfold disk_of. destruct (decide (k' = k)) as [->|Hne].
  - by rewrite disk_write_eq, list_lookup_insert_eq by done.
  - rewrite disk_write_ne by congruence. by rewrite list_lookup_insert_ne by lia.
Qed.

Lemma wp_rsect F s own k Q : img_ok s own → 0 ≤ k < FSSIZE → Q (dk s 1 k) s → wp F (rsect k) Q s.
Proof.
  intros Hi Hk HQ. unfold rsect. apply wp_bind, wp_gets. unfold disk_of in HQ.
  destruct (mk_img s !! Z.to_nat k) eqn:E; [by apply wp_ret|].
  apply lookup_ge_None in E. rewrite (io_len _ _ Hi) in E. unfold FSSIZE in *. lia.
Qed.
Definition put_block (k : Z) (b : block) (s : mkst) : mkst := set_img (<[Z.to_nat k := b]> (mk_img s)) s.
Lemma wp_wsect F s own k b Q : img_ok s own → 0 ≤ k < FSSIZE → Q tt (put_block k b s) → wp F (wsect k b) Q s.
Proof.
  intros Hi Hk HQ. unfold wsect. apply wp_modify. cbv zeta.
  rewrite (proj2 (Nat.ltb_lt _ _)); [done|]. rewrite (io_len _ _ Hi). unfold FSSIZE in *. lia.
Qed.
Lemma dk_put_block s own k b k' : img_ok s own → 0 ≤ k < FSSIZE → 0 ≤ k' →
  dk (put_block k b s) 1 k' = disk_write (dk s) 1 k b 1 k'.
Proof.
  intros Hi Hk Hk'. apply disk_of_insert; [lia| |done]. rewrite (io_len _ _ Hi). unfold FSSIZE in *. lia.
Qed.
Lemma put_block_ok s own k b : img_ok s own → 0 ≤ k < mk_freeblock s → block_ok b → img_ok (put_block k b s) own.
Proof.
  intros Hi Hk Hb. pose proof (io_fb _ _ Hi) as Hf. pose proof Hi as [H1 H2 H3 H4 H5]. split; try done.
  - cbn. by rewrite length_insert.
  - cbn. by apply Forall_insert.
  - intros k' Hk'. cbn in Hk'. rewrite (dk_put_block s own) by (done || lia). rewrite disk_write_ne by (intros [=]; lia). by apply H5.
Qed.

(** Changes on behalf of file [j]. *)
Record extends (j : Z) (s : mkst) (own : gmap Z (Z * Z)) (s' : mkst) (own' : gmap Z (Z * Z)) : Prop := {
  ex_own : own ⊆ own';
  ex_new : ∀ k v, own' !! k = Some v → own !! k = Some v ∨ own !! k = None ∧ v.1 = j;
  ex_blocks : ∀ k, 0 ≤ k → (∀ v, own' !! k ≠ Some (j, v)) → dk s' 1 k = dk s 1 k;
  ex_fi : mk_freeinode s' = mk_freeinode s }.
Lemma extends_refl j s own : extends j s own s own.
Proof. split; auto. Qed.
Lemma extends_trans j s1 o1 s2 o2 s3 o3 : extends j s1 o1 s2 o2 → extends j s2 o2 s3 o3 → extends j s1 o1 s3 o3.
Proof.
  intros [A1 A2 A3 A4] [B1 B2 B3 B4]. split.
  - by etrans.
  - intros k v Hk. destruct (B2 _ _ Hk) as [H|[H Hv]]; [by apply A2|]. right. split; [|done].
    destruct (o1 !! k) eqn:E; [|done]. by rewrite (lookup_weaken _ _ _ _ E A1) in H.
  - intros k Hk Hn. rewrite B3 by done. apply A3; [done|]. intros v Hv. apply (Hn v). by eapply lookup_weaken.
  - by rewrite B4.
Qed.
(** Other files do not notice. *)
Lemma extends_rep j s own s' own' i ip nb has bs : img_ok s own → extends j s own s' own' → i ≠ j →
  file_rep (dk s) own i ip nb has bs → file_rep (dk s') own' i ip nb has bs.
Proof.
  intros Hi He Hij Hr. eapply rep_frame; [by eapply img_pos|exact Hr|apply He|]. intros k v Hk.
  apply (ex_blocks _ _ _ _ _ He); [apply (img_pos _ _ Hi) in Hk; lia|]. intros w Hw.
  rewrite (lookup_weaken _ _ _ _ Hk (ex_own _ _ _ _ _ He)) in Hw. by injection Hw as [=].
Qed.
(** Blocks before the data blocks stay as they are. *)
Lemma extends_meta j s own s' own' k : img_ok s' own' → extends j s own s' own' → 0 ≤ k < nmeta → dk s' 1 k = dk s 1 k.
Proof.
  intros Hi He Hk. apply (ex_blocks _ _ _ _ _ He); [lia|]. intros v Hv. apply (io_own _ _ Hi) in Hv. simpl in Hv. lia.
Qed.

(** ** Appending *)
Definition took (s : mkst) : mkst := set_freeblock (mk_freeblock s + 1) s.
Lemma nmeta_eq : nmeta = 59.
Proof. done. Qed.
Lemma wp_new_block F s own Q : img_ok s own → mk_freeblock s < FSSIZE → Q (mk_freeblock s) (took s) → wp F new_block Q s.
Proof.
  intros Hi Hlt HQ. unfold new_block. apply wp_bind, wp_gets, wp_bind, wp_modify, wp_ret.
  pose proof (io_fb _ _ Hi) as Hf. rewrite nmeta_eq in Hf. rewrite u32_small by (unfold word_ok, FSSIZE in *; lia). done.
Qed.
Section Took.
Context (s : mkst) (own : gmap Z (Z * Z)) (Hi : img_ok s own) (Hlt : mk_freeblock s < FSSIZE).
Lemma fresh_pos : 0 < mk_freeblock s < FSSIZE.
Proof using Hi Hlt. pose proof (io_fb _ _ Hi) as Hf. rewrite nmeta_eq in Hf. lia. Qed.
Lemma fresh_own : own !! mk_freeblock s = None.
Proof using Hi. destruct (own !! mk_freeblock s) eqn:E; [|done]. apply (io_own _ _ Hi) in E. simpl in E. lia. Qed.
Lemma fresh_block_zero : dk s 1 (mk_freeblock s) = zero_block.
Proof using Hi Hlt. apply (io_zero _ _ Hi). lia. Qed.
Lemma took_ok v : img_ok (took s) (<[mk_freeblock s := v]> own).
Proof using Hi Hlt.
  pose proof Hi as [H1 H2 H3 H4 H5]. split; [done|done|cbn; lia| |].
  - intros k w. rewrite lookup_insert_Some. cbn. intros [[<- _]|[_ Hk]]; [lia|]. specialize (H4 _ _ Hk). simpl in H4. lia.
  - intros k Hk. cbn in Hk. apply H5. lia.
Qed.
Lemma took_extends j p : extends j s own (took s) (<[mk_freeblock s := (j, p)]> own).
Proof using Hi.
  split; [|..|done|done].
  - apply insert_subseteq, fresh_own.
  - intros k v. rewrite lookup_insert_Some. intros [[<- <-]|[_ Hk]]; [right|by left]. split; [apply fresh_own|done].
Qed.
End Took.

(** The blocks a file of [nb] blocks takes, its indirect block included. *)
Definition cost (nb : Z) : Z := nb + if NDIRECT <? nb then 1 else 0.
(** What one call of [iappend_block] makes of a file. *)
Record appended (j : Z) (s : mkst) (own : gmap Z (Z * Z)) (din : inode) (nb nb' : Z) (bs bs' : list Z)
    (s' : mkst) (own' : gmap Z (Z * Z)) (din' : inode) : Prop := {
  ap_ok : img_ok s' own';
  ap_rep : file_rep (dk s') own' j din' nb' (NDIRECT <? nb') bs';
  ap_ext : extends j s own s' own';
  ap_fb : mk_freeblock s' = mk_freeblock s + (cost nb' - cost nb);
  ap_din : din' = set_i_addrs (i_addrs din') din }.

Section Append.
Context (F : Prop) (j : Z).

(** The file needs a new block, named in the inode ... *)
Lemma wp_append_direct s own din nb bs Q :
  img_ok s own → file_rep (dk s) own j din nb false bs → 0 ≤ nb < NDIRECT → mk_freeblock s < FSSIZE →
  (∀ x s' own' din', appended j s own din nb (nb + 1) bs bs s' own' din' → x = faddr 1 (dk s') din' nb → Q (x, din') s') →
  wp F (iappend_block nb din) Q s.
Proof.
  intros Hi Hr Hnb Hlt HQ. unfold iappend_block. rewrite (proj2 (Z.ltb_lt nb NDIRECT)) by lia.
  assert (in_file nb) as Hin by (unfold in_file; rewrite MAXFILE_eq; unfold NDIRECT in *; lia).
  assert (default 0 (i_addrs din !! Z.to_nat nb) = 0) as ->.
  { pose proof (fr_map _ _ _ _ _ _ _ Hr nb Hin) as Hm. rewrite Z.ltb_irrefl in Hm. unfold faddr in Hm.
    by rewrite (proj2 (Z.ltb_lt nb NDIRECT)) in Hm by lia. }
  rewrite Z.eqb_refl. apply wp_bind. eapply wp_new_block; [done..|]. apply wp_ret.
  pose proof (rep_direct (dk s) own (img_pos _ _ Hi) (mk_freeblock s) (fresh_pos s own Hi Hlt) (fresh_own s own Hi)
    (fresh_block_zero s own Hi Hlt) j din nb false bs Hr ltac:(lia)) as Hr'.
  eapply (HQ _ _ (<[mk_freeblock s := (j, nb)]> own)).
  - split; [by apply took_ok| |by apply took_extends| |done].
    + rewrite (proj2 (Z.ltb_ge _ _)) by lia. exact Hr'.
    + unfold cost. rewrite !(proj2 (Z.ltb_ge NDIRECT _)) by lia. cbn. lia.
  - unfold faddr. rewrite (proj2 (Z.ltb_lt nb NDIRECT)) by lia. cbn [i_addrs set_i_addrs].
    rewrite list_lookup_insert_eq; [done|]. rewrite (fr_len _ _ _ _ _ _ _ Hr). unfold NDIRECT in *. lia.
Qed.

Lemma put_extends s own k v b : img_ok s own → own !! k = Some (j, v) → extends j s own (put_block k b s) own.
Proof.
  intros Hi Hk. pose proof (img_pos _ _ Hi k _ Hk) as Hp. simpl in Hp. split; [done|by left| |done].
  intros k' Hk' Hn. rewrite (dk_put_block s own) by (done || lia). apply disk_write_ne. intros [= ->]. by apply (Hn v).
Qed.
(** ... or in the indirect block. *)
Lemma wp_append_entry s own din nb bs Q :
  img_ok s own → file_rep (dk s) own j din nb true bs → NDIRECT ≤ nb < MAXFILE → mk_freeblock s < FSSIZE →
  (∀ s' own', img_ok s' own' → file_rep (dk s') own' j din (nb + 1) true bs → extends j s own s' own' →
     mk_freeblock s' = mk_freeblock s + 1 → Q (faddr 1 (dk s') din nb, din) s') →
  wp F (let! indirect := rsect (find_ din) in
        let o := Z.to_nat (4 * (nb - NDIRECT)) in
        if get32 indirect o =? 0 then
          let! b := new_block in wsect (find_ din) (put32 o b indirect) ;! ret (b, din)
        else ret (get32 indirect o, din)) Q s.
Proof.
  intros Hi Hr Hnb Hlt HQ. pose proof (fr_ind _ _ _ _ _ _ _ Hr) as Hind. simpl in Hind.
  pose proof (img_pos _ _ Hi) as Hpos. pose proof (Hpos _ _ Hind) as Hip. simpl in Hip.
  pose proof (io_own _ _ Hi _ _ Hind) as Hif. simpl in Hif. rewrite nmeta_eq in Hif.
  assert (in_file nb) as Hin by (unfold in_file; unfold NDIRECT in *; lia).
  apply wp_bind. eapply wp_rsect; [done|lia|]. cbv zeta.
  assert (get32 (dk s 1 (find_ din)) (Z.to_nat (4 * (nb - NDIRECT))) = 0) as ->.
  { pose proof (fr_map _ _ _ _ _ _ _ Hr nb Hin) as Hm. rewrite Z.ltb_irrefl in Hm. unfold faddr in Hm. fold (find_ din) in Hm.
    rewrite (proj2 (Z.ltb_ge nb NDIRECT)), (proj2 (Z.eqb_neq _ 0)) in Hm by lia. exact Hm. }
  rewrite Z.eqb_refl. apply wp_bind. eapply wp_new_block; [done..|].
  pose proof (took_ok s own Hi Hlt (j, nb)) as Hi1. pose proof (fresh_own s own Hi) as Hfo.
  apply wp_bind. eapply (wp_wsect _ _ _ _ _ _ Hi1); [lia|]. apply wp_ret.
  destruct (img_block s own (find_ din) Hi) as [Hlen Hby].
  destruct (rep_entry (dk s) own Hpos (mk_freeblock s) (fresh_pos s own Hi Hlt) Hfo (fresh_block_zero s own Hi Hlt) j din nb bs Hr Hnb Hlen)
    as [Hr' Hx].
  set (own' := <[mk_freeblock s := (j, nb)]> own) in *. set (blk := put32 _ _ _).
  assert (own' !! find_ din = Some (j, -1)) as Hind' by (unfold own'; rewrite lookup_insert_ne; [done|congruence]).
  assert (∀ k, 0 ≤ k → dk (put_block (find_ din) blk (took s)) 1 k = with_entry (dk s) (mk_freeblock s) din nb 1 k) as Hdk.
  { intros k Hk. rewrite (dk_put_block (took s) own') by (done || lia). done. }
  assert (file_rep (dk (put_block (find_ din) blk (took s))) own' j din (nb + 1) true bs) as Hr2.
  { eapply rep_frame; [by eapply img_pos|exact Hr'|done|]. intros k v Hk. apply Hdk.
    apply (img_pos _ _ Hi1) in Hk. simpl in Hk. lia. }
  assert (faddr 1 (dk (put_block (find_ din) blk (took s))) din nb = mk_freeblock s) as Hx2.
  { rewrite <- Hx. eapply rep_faddr_eq; [by eapply img_pos|exact Hr'|done|]. intros k v Hk. apply Hdk.
    apply (img_pos _ _ Hi1) in Hk. simpl in Hk. lia. }
  rewrite <- Hx2. eapply (HQ _ own'); [|exact Hr2| |done].
  - apply put_block_ok; [done|cbn; lia|]. by apply put32_ok.
  - eapply extends_trans; [by apply took_extends|]. by eapply put_extends.
Qed.

(** The block is there. *)
Lemma wp_append_found s own din nb bs fbn Q :
  img_ok s own → file_rep (dk s) own j din nb (NDIRECT <? nb) bs → 0 ≤ fbn < nb →
  Q (faddr 1 (dk s) din fbn, din) s → wp F (iappend_block fbn din) Q s.
Proof.
  intros Hi Hr Hb HQ. pose proof (fr_nb _ _ _ _ _ _ _ Hr) as Hnb. pose proof (img_pos _ _ Hi) as Hpos.
  assert (in_file fbn) as Hin by (unfold in_file; lia).
  pose proof (proj2 (rep_faddr _ _ Hpos _ _ _ _ _ _ Hr Hin) ltac:(lia)) as Hn.
  unfold iappend_block, faddr in *. fold (find_ din) in *. destruct (Z.ltb_spec fbn NDIRECT) as [Hlt|Hge].
  - rewrite (proj2 (Z.eqb_neq _ 0)) by done. by apply wp_ret.
  - assert (find_ din ≠ 0) as Hf by (eapply (rep_find _ _ Hpos); [exact Hr|]; apply Z.ltb_lt; lia).
    rewrite (proj2 (Z.eqb_neq (find_ din) 0)) in * by done. apply wp_bind, wp_ret. fold (find_ din).
    apply wp_bind. eapply wp_rsect; [done| |].
    { pose proof (fr_ind _ _ _ _ _ _ _ Hr) as H. rewrite (proj2 (Z.ltb_lt _ _)) in H by lia. apply Hpos in H. simpl in H. lia. }
    cbv zeta. rewrite (proj2 (Z.eqb_neq _ 0)) by done. by apply wp_ret.
Qed.

Lemma wp_iappend_block s own din nb bs fbn Q :
  img_ok s own → file_rep (dk s) own j din nb (NDIRECT <? nb) bs → 0 ≤ fbn < MAXFILE → fbn ≤ nb ≤ fbn + 1 →
  mk_freeblock s + (cost (fbn + 1) - cost nb) ≤ FSSIZE →
  (∀ s' own' din', appended j s own din nb (fbn + 1) bs bs s' own' din' → Q (faddr 1 (dk s') din' fbn, din') s') →
  wp F (iappend_block fbn din) Q s.
Proof.
  intros Hi Hr Hb Hnb Hroom HQ. destruct (decide (nb = fbn)) as [->|Hne].
  2:{ assert (nb = fbn + 1) as -> by lia. eapply wp_append_found; [done..|lia|].
      apply (HQ s own din). split; [done..|apply extends_refl|lia|by destruct din]. }
  unfold cost in Hroom. destruct (Z.ltb_spec NDIRECT (fbn + 1)) as [H1|H1].
  2:{ rewrite (proj2 (Z.ltb_ge NDIRECT fbn)) in * by lia. eapply wp_append_direct; [done..|lia|lia|].
      intros x s' own' din' Ha ->. by apply (HQ s' own'). }
  unfold iappend_block. rewrite (proj2 (Z.ltb_ge fbn NDIRECT)) by lia. fold (find_ din).
  pose proof (img_pos _ _ Hi) as Hpos. destruct (Z.ltb_spec NDIRECT fbn) as [H2|H2].
  - assert (find_ din ≠ 0) as Hf by (eapply (rep_find _ _ Hpos); [exact Hr|done]).
    rewrite (proj2 (Z.eqb_neq (find_ din) 0)) by done. apply wp_bind, wp_ret. fold (find_ din).
    eapply wp_append_entry; [done..|lia|lia|]. intros s' own' Hi' Hr' He Hfb. apply (HQ s' own').
    split; [done| |done| |by destruct din].
    + by rewrite (proj2 (Z.ltb_lt _ _)) by lia.
    + unfold cost. rewrite !(proj2 (Z.ltb_lt NDIRECT _)) by lia. lia.
  - assert (find_ din = 0) as -> by (pose proof (fr_ind _ _ _ _ _ _ _ Hr) as H; exact H). rewrite Z.eqb_refl.
    assert (mk_freeblock s < FSSIZE) as Hlt by lia.
    apply wp_bind, wp_bind. eapply wp_new_block; [done..|]. apply wp_ret.
    set (din1 := set_i_addrs _ din). set (own1 := <[mk_freeblock s := (j, -1)]> own).
    pose proof (rep_indirect (dk s) own Hpos (mk_freeblock s) (fresh_pos s own Hi Hlt) (fresh_own s own Hi)
      (fresh_block_zero s own Hi Hlt) j din fbn bs Hr) as Hr1.
    eapply (wp_append_entry (took s) own1 din1); [by apply took_ok|exact Hr1|lia|cbn; lia|].
    intros s' own' Hi' Hr' He Hfb. apply (HQ s' own').
    split; [done| |eapply extends_trans; [by apply took_extends|done]| |done].
    + by rewrite (proj2 (Z.ltb_lt _ _)) by lia.
    + unfold cost. rewrite (proj2 (Z.ltb_lt NDIRECT _)), (proj2 (Z.ltb_ge NDIRECT _)) by lia. cbn in Hfb. lia.
Qed.

Lemma appended_trans s1 o1 d1 n1 b1 s2 o2 d2 n2 b2 s3 o3 d3 n3 b3 :
  appended j s1 o1 d1 n1 n2 b1 b2 s2 o2 d2 → appended j s2 o2 d2 n2 n3 b2 b3 s3 o3 d3 →
  appended j s1 o1 d1 n1 n3 b1 b3 s3 o3 d3.
Proof.
  intros [A1 A2 A3 A4 A5] [B1 B2 B3 B4 B5]. split; [done|done|by eapply extends_trans|lia|].
  rewrite B5, A5. by destruct d1.
Qed.
(** The bytes go to the block. *)
Lemma append_bytes s own din bs p nb :
  img_ok s own → file_rep (dk s) own j din nb (NDIRECT <? nb) bs → Forall byte_ok p →
  let off := Z.of_nat (length bs) in
  let x := faddr 1 (dk s) din (off / BSIZE) in
  off / BSIZE < nb → off mod BSIZE + Z.of_nat (length p) ≤ BSIZE →
  0 ≤ x < FSSIZE ∧
  appended j s own din nb nb bs (bs ++ p)
    (put_block x (put_bytes (Z.to_nat (off mod BSIZE)) p (dk s 1 x)) s) own din.
Proof.
  intros Hi Hr Hby off x Hb Hp. pose proof (img_pos _ _ Hi) as Hpos. pose proof (fr_nb _ _ _ _ _ _ _ Hr) as Hnb.
  assert (in_file (off / BSIZE)) as Hin by (unfold in_file; split; [apply Z.div_pos; [lia|done]|lia]).
  pose proof (fr_map _ _ _ _ _ _ _ Hr _ Hin) as Hx. rewrite (proj2 (Z.ltb_lt _ _)) in Hx by done. fold x in Hx.
  pose proof (Hpos _ _ Hx) as Hxp. simpl in Hxp. pose proof (io_own _ _ Hi _ _ Hx) as Hxf. simpl in Hxf.
  pose proof (img_block s own x Hi) as Hbo.
  split; [lia|]. split; [| |by eapply put_extends|unfold put_block, set_img; cbn [mk_freeblock]; lia|by destruct din].
  - apply put_block_ok; [done|lia|by apply put_bytes_ok].
  - eapply rep_frame; [exact Hpos|eapply rep_write; [done|exact Hr|done|done|apply Hbo]|done|].
    intros k v Hk. apply Hpos in Hk. simpl in Hk.
    apply (dk_put_block s own); [done|fold off; fold x; lia|lia].
Qed.

Definition nbk (n : Z) : Z := (n + BSIZE - 1) / BSIZE.
Lemma nbk_bounds n : 0 ≤ n → n / BSIZE ≤ nbk n ≤ n / BSIZE + 1.
Proof. intros Hn. unfold nbk, BSIZE. Z.div_mod_to_equations. lia. Qed.
Lemma nbk_in n m : 0 ≤ n → n / BSIZE * BSIZE < m ≤ (n / BSIZE + 1) * BSIZE → nbk m = n / BSIZE + 1.
Proof. intros Hn Hm. unfold nbk, BSIZE in *. Z.div_mod_to_equations. lia. Qed.
Lemma nbk_mono n m : n ≤ m → nbk n ≤ nbk m.
Proof. intros H. unfold nbk. apply Z.div_le_mono; [done|lia]. Qed.
Lemma cost_mono n m : n ≤ m → cost n ≤ cost m.
Proof. intros H. unfold cost. destruct (Z.ltb_spec NDIRECT n), (Z.ltb_spec NDIRECT m); lia. Qed.

Lemma wp_iappend_loop fuel : ∀ s own din bs p Q, (length p < fuel)%nat →
  img_ok s own → file_rep (dk s) own j din (nbk (len bs)) (NDIRECT <? nbk (len bs)) bs → Forall byte_ok p →
  len bs + len p ≤ MAXFILE * BSIZE →
  mk_freeblock s + (cost (nbk (len bs + len p)) - cost (nbk (len bs))) ≤ FSSIZE →
  (∀ s' own' din', appended j s own din (nbk (len bs)) (nbk (len bs + len p)) bs (bs ++ p) s' own' din' →
     Q (din', len bs + len p) s') →
  wp F (iappend_loop fuel din (len bs) p) Q s.
Proof.
  induction fuel as [|fuel IH]; intros s own din bs p Q Hf Hi Hr Hby Hmax Hroom HQ; [lia|].
  cbn [iappend_loop]. destruct (Z.ltb_spec 0 (len p)) as [Hp|Hp].
  2:{ destruct p; [|cbn in Hp; lia]. apply wp_ret. rewrite <- (Z.add_0_r (len bs)). apply (HQ s own din).
      change (len []) with 0. rewrite Z.add_0_r, app_nil_r. split; [done..|apply extends_refl|lia|by destruct din]. }
  set (off := len bs) in *. set (fbn := off / BSIZE). assert (0 ≤ off) as Hoff by lia.
  pose proof (Z.div_mod off BSIZE ltac:(done)) as Hdm. fold fbn in Hdm. pose proof (Z.mod_pos_bound off BSIZE ltac:(done)) as Hmod.
  assert (0 ≤ fbn < MAXFILE) as Hfbn.
  { split; [apply Z.div_pos; [done|done]|]. apply Z.div_lt_upper_bound; [done|]. rewrite Z.mul_comm. lia. }
  rewrite (proj2 (Z.ltb_lt fbn MAXFILE)) by lia. cbn [negb]. cbv iota.
  set (n1 := Z.to_nat (Z.min (len p) ((fbn + 1) * BSIZE - off))).
  assert (Z.of_nat n1 = Z.min (len p) ((fbn + 1) * BSIZE - off)) as Hn1 by (unfold n1, BSIZE in *; lia).
  assert (nbk (off + Z.of_nat n1) = fbn + 1) as Hnb1 by (apply nbk_in; unfold BSIZE in *; lia).
  assert (len (take n1 p) = Z.of_nat n1) as Hlt by (rewrite length_take; lia).
  assert (len (drop n1 p) = len p - Z.of_nat n1) as Hld by (rewrite length_drop; lia).
  pose proof (cost_mono _ _ (nbk_mono (off + Z.of_nat n1) (off + len p) ltac:(lia))) as Hcost. rewrite Hnb1 in Hcost.
  apply wp_bind. eapply wp_iappend_block; [exact Hi|exact Hr|exact Hfbn|by apply nbk_bounds|lia|].
  intros s1 own1 din1 Ha1.
  destruct (append_bytes s1 own1 din1 bs (take n1 p) (fbn + 1) (ap_ok _ _ _ _ _ _ _ _ _ _ _ Ha1) (ap_rep _ _ _ _ _ _ _ _ _ _ _ Ha1))
    as [Hx Ha2]; [by apply Forall_take|fold off; fold fbn; lia|fold off; unfold BSIZE in *; lia|].
  fold off in Hx, Ha2. fold fbn in Hx, Ha2.
  apply wp_bind. eapply wp_rsect; [apply Ha1|exact Hx|]. apply wp_bind. eapply wp_wsect; [apply Ha1|exact Hx|].
  pose proof (appended_trans _ _ _ _ _ _ _ _ _ _ _ _ _ _ _ Ha1 Ha2) as Ha. clear Ha1 Ha2.
  replace (off - fbn * BSIZE) with (off mod BSIZE) by lia.
  assert (off + Z.of_nat n1 = len (bs ++ take n1 p)) as Eoff by (rewrite length_app; unfold off; lia).
  rewrite <- Hnb1 in Ha. rewrite Eoff in *. destruct Ha as [B1 B2 B3 B4 B5] eqn:EHa. clear EHa.
  eapply IH; [rewrite length_drop; lia|exact B1|exact B2|by apply Forall_drop|rewrite Hld; unfold off in *; lia| |].
  - rewrite Hld, B4. replace (len (bs ++ take n1 p) + (len p - Z.of_nat n1)) with (off + len p) by lia. lia.
  - intros s2 own2 din2 Ha2. rewrite Hld in *. replace (len (bs ++ take n1 p) + (len p - Z.of_nat n1)) with (off + len p) in * by lia.
    apply (HQ s2 own2). rewrite <- app_assoc, take_drop in Ha2. eapply appended_trans; [|exact Ha2]. by split.
Qed.
End Append.

(** ** The inode table *)
Definition ip_at (s : mkst) (j : Z) : inode :=
  load_dinode (dk s 1 (IBLOCK j mkfs_sb)) (dinode_off j) (mk_inode j).
(** An inode as [rinode] gives it. *)
Definition on_disk (j : Z) (ip : inode) : Prop :=
  inode_ok ip ∧ i_dev ip = ROOTDEV ∧ i_inum ip = j ∧ i_ref ip = 0 ∧ i_flags ip = 0.

Lemma inode_place j : 0 ≤ j < NINODES →
  IBLOCK j mkfs_sb = j / 8 + 32 ∧ 32 ≤ j / 8 + 32 < 57 ∧ dinode_off j = Z.to_nat (j mod 8 * 64) ∧
  (dinode_off j + 64 ≤ 512)%nat.
Proof.
  intros Hj. unfold NINODES in Hj. unfold IBLOCK, dinode_off. rewrite (u32_small j) by (unfold word_ok; lia).
  change IPB with 8. change (sb_inodestart mkfs_sb) with 32. unfold sizeof_dinode.
  rewrite u32_small by (unfold word_ok; Z.div_mod_to_equations; lia).
  split_and!; [done|Z.div_mod_to_equations; lia..|done|Z.div_mod_to_equations; lia].
Qed.
Lemma load_dinode_ext d d' o ip : (∀ i, (o ≤ i < o + 64)%nat → get8 d' i = get8 d i) →
  load_dinode d' o ip = load_dinode d o ip.
Proof.
  intros H. unfold load_dinode.
  rewrite (get16_ext d' d o), (get16_ext d' d (o + 2)), (get16_ext d' d (o + 4)), (get16_ext d' d (o + 6)) by (apply H; lia).
  rewrite (get32_ext d' d (o + 8)) by (intros i Hi; apply H; lia).
  rewrite (get_addrs_ext _ d' d (o + 12)); [done|]. intros i Hi. apply H.
  change (4 * Z.to_nat (NDIRECT + 1))%nat with 52%nat in Hi. lia.
Qed.
Lemma inode_ext ip ip' : i_dev ip = i_dev ip' → i_inum ip = i_inum ip' → i_ref ip = i_ref ip' →
  i_flags ip = i_flags ip' → disk_fields ip = disk_fields ip' → ip = ip'.
Proof. destruct ip, ip'. unfold disk_fields. simpl. intros -> -> -> -> [= -> -> -> -> -> ->]. done. Qed.
Lemma load_store_id j ip d : on_disk j ip → (dinode_off j + 64 ≤ length d)%nat →
  load_dinode (store_dinode ip (dinode_off j) d) (dinode_off j) (mk_inode j) = ip.
Proof.
  intros (Hok & H1 & H2 & H3 & H4) Hd. apply inode_ext; [by rewrite ?H1, ?H2, ?H3, ?H4..|].
  by apply load_store_dinode.
Qed.

(** After [winode(j, ip)]. *)
Record inode_put (j : Z) (ip : inode) (s s' : mkst) : Prop := {
  ip_this : ip_at s' j = ip;
  ip_other : ∀ i, 0 ≤ i < NINODES → i ≠ j → ip_at s' i = ip_at s i;
  ip_blocks : ∀ k, 0 ≤ k → ¬ (32 ≤ k < 57) → dk s' 1 k = dk s 1 k;
  ip_fi : mk_freeinode s' = mk_freeinode s;
  ip_fb : mk_freeblock s' = mk_freeblock s }.
Lemma wp_winode F s own j ip Q : img_ok s own → 0 ≤ j < NINODES → on_disk j ip →
  (∀ s', img_ok s' own → inode_put j ip s s' → Q tt s') → wp F (winode j ip) Q s.
Proof.
  intros Hi Hj Hip HQ. destruct (inode_place j Hj) as (EB & HB & Eo & Ho). unfold winode.
  pose proof (io_fb _ _ Hi) as Hfb. rewrite nmeta_eq in Hfb. apply wp_bind. cbv zeta. rewrite EB.
  eapply wp_rsect; [done|unfold FSSIZE; lia|]. eapply wp_wsect; [done|unfold FSSIZE; lia|].
  destruct (img_block s own (j / 8 + 32) Hi) as [Hlen Hby]. set (blk := store_dinode _ _ _).
  assert (∀ k, 0 ≤ k → dk (put_block (j / 8 + 32) blk s) 1 k = disk_write (dk s) 1 (j / 8 + 32) blk 1 k) as Hdk
    by (intros k Hk; apply (dk_put_block s own); [done|unfold FSSIZE; lia|done]).
  apply HQ; [apply put_block_ok; [done|lia|by apply store_dinode_ok]|]. split; [| | |done|done].
  - unfold ip_at. rewrite EB, Hdk, disk_write_eq by lia. apply load_store_id; [done|]. rewrite Hlen. exact Ho.
  - intros i Hii Hne. destruct (inode_place i Hii) as (EB' & HB' & Eo' & Ho'). unfold ip_at. rewrite EB', Hdk by lia.
    destruct (decide (i / 8 = j / 8)) as [E|Hd]; [|by rewrite disk_write_ne by (intros [=]; lia)].
    rewrite E, disk_write_eq. apply load_dinode_ext. intros o Hoo. apply store_dinode_out; [apply Hip|].
    change (Z.to_nat sizeof_dinode) with 64%nat. rewrite Eo, Eo' in *. Z.div_mod_to_equations. lia.
  - intros k Hk Hn. rewrite Hdk by done. apply disk_write_ne. intros [=]. lia.
Qed.
Lemma wp_rinode F s own j Q : img_ok s own → 0 ≤ j < NINODES → Q (ip_at s j) s → wp F (rinode j) Q s.
Proof.
  intros Hi Hj HQ. destruct (inode_place j Hj) as (EB & HB & _). unfold rinode. apply wp_bind.
  eapply wp_rsect; [done|rewrite EB; unfold FSSIZE; lia|]. by apply wp_ret.
Qed.

(** ** All files of the image: inode [i + 1] has the [i]-th type and contents *)
Abbreviation flist := (list (Z * list Z)).
Definition total (F : flist) : Z := foldr (λ f n, cost (nbk (len f.2)) + n) 0 F.
Lemma total_app F G : total (F ++ G) = total F + total G.
Proof. unfold total. induction F as [|f F IH]; cbn [foldr app]; [lia|]. rewrite IH. lia. Qed.
Lemma total_insert F i ty bs ty' bs' : F !! i = Some (ty, bs) →
  total (<[i := (ty', bs')]> F) = total F + (cost (nbk (len bs')) - cost (nbk (len bs))).
Proof.
  unfold total. revert i. induction F as [|f F IH]; intros [|i] H; try done.
  - injection H as ->. cbn [insert list_insert foldr snd]. lia.
  - cbn [insert list_insert foldr snd]. change (list_insert i (ty', bs') F) with (<[i := (ty', bs')]> F).
    rewrite IH by done. lia.
Qed.

Record file_at (s : mkst) (own : gmap Z (Z * Z)) (j ty : Z) (bs : list Z) : Prop := {
  fa_rep : file_rep (dk s) own j (ip_at s j) (nbk (len bs)) (NDIRECT <? nbk (len bs)) bs;
  fa_fields : ip_at s j = mkInode ROOTDEV j 0 0 ty 0 0 1 (len bs) (i_addrs (ip_at s j));
  fa_type : short_ok ty }.
Record mk_inv (s : mkst) (own : gmap Z (Z * Z)) (F : flist) : Prop := {
  mi_img : img_ok s own;
  mi_files : ∀ i ty bs, F !! i = Some (ty, bs) → file_at s own (Z.of_nat i + 1) ty bs;
  mi_free : ∀ j, Z.of_nat (length F) < j < NINODES → ip_at s j = mk_inode j;
  mi_fi : mk_freeinode s = Z.of_nat (length F) + 1;
  mi_fb : mk_freeblock s = nmeta + total F;
  mi_count : Z.of_nat (length F) < NINODES;
  mi_sb : dk s 1 1 = sb_block;
  mi_meta : ∀ k, 0 ≤ k < nmeta → k ≠ 1 → ¬ (32 ≤ k < 57) → dk s 1 k = zero_block }.

(** An address of a file is a block number. *)
Lemma rep_words s own j ip nb has bs : img_ok s own → file_rep (dk s) own j ip nb has bs → Forall word_ok (i_addrs ip).
Proof.
  intros Hi Hr. pose proof (img_pos _ _ Hi) as Hpos. apply Forall_lookup_2. intros i a Ha.
  pose proof (lookup_lt_Some _ _ _ Ha) as Hlt. rewrite (fr_len _ _ _ _ _ _ _ Hr) in Hlt.
  change (Z.to_nat (NDIRECT + 1)) with 13%nat in Hlt.
  assert (a = 0 ∨ 0 < a < FSSIZE) as H; [|unfold word_ok, FSSIZE in *; lia].
  destruct (decide (i = 12)%nat) as [->|Hne].
  - pose proof (fr_ind _ _ _ _ _ _ _ Hr) as H. unfold find_ in H. change (Z.to_nat NDIRECT) with 12%nat in H.
    rewrite Ha in H. simpl in H. destruct has; [right; exact (Hpos _ _ H)|by left].
  - assert (in_file (Z.of_nat i)) as Hin by (unfold in_file; rewrite MAXFILE_eq; lia).
    pose proof (fr_map _ _ _ _ _ _ _ Hr _ Hin) as H. unfold faddr in H.
    rewrite (proj2 (Z.ltb_lt (Z.of_nat i) NDIRECT)) in H by (unfold NDIRECT; lia). rewrite Nat2Z.id, Ha in H.
    simpl in H. destruct (_ <? nb); [right; exact (Hpos _ _ H)|by left].
Qed.
Lemma file_on_disk s own j ty bs din : img_ok s own → short_ok ty → len bs ≤ MAXFILE * BSIZE →
  file_rep (dk s) own j din (nbk (len bs)) (NDIRECT <? nbk (len bs)) bs →
  on_disk j (mkInode ROOTDEV j 0 0 ty 0 0 1 (len bs) (i_addrs din)).
Proof.
  intros Hi Ht Hl Hr. split; [|done]. unfold inode_ok. cbn [i_type i_major i_minor i_nlink i_size i_addrs].
  split_and!; [done|by vm_compute; split..| |apply Hr|by eapply rep_words].
  unfold word_ok. rewrite MAXFILE_eq in Hl. unfold BSIZE in Hl. lia.
Qed.

(** A file depends on its inode and its blocks. *)
Lemma file_at_put j ip s s' own i ty bs : img_ok s own → inode_put j ip s s' → 0 ≤ i < NINODES → i ≠ j →
  file_at s own i ty bs → file_at s' own i ty bs.
Proof.
  intros Hi Hp Hr Hne [H1 H2 H3]. pose proof (ip_other _ _ _ _ Hp i Hr Hne) as E. split; [|by rewrite E|done]. rewrite E.
  eapply rep_frame; [by eapply img_pos|exact H1|done|]. intros k v Hk. apply (io_own _ _ Hi) in Hk. simpl in Hk.
  rewrite nmeta_eq in Hk. apply (ip_blocks _ _ _ _ Hp); lia.
Qed.
Lemma ip_at_extends j s own s' own' i : img_ok s' own' → extends j s own s' own' → 0 ≤ i < NINODES → ip_at s' i = ip_at s i.
Proof.
  intros Hi He Hr. destruct (inode_place i Hr) as (EB & HB & _). unfold ip_at. rewrite EB.
  by rewrite (extends_meta _ _ _ _ _ _ Hi He) by (rewrite nmeta_eq; lia).
Qed.
Lemma file_at_extends j s own s' own' i ty bs : img_ok s own → img_ok s' own' → extends j s own s' own' →
  0 ≤ i < NINODES → i ≠ j → file_at s own i ty bs → file_at s' own' i ty bs.
Proof.
  intros Hi Hi' He Hr Hne [H1 H2 H3]. pose proof (ip_at_extends _ _ _ _ _ _ Hi' He Hr) as E.
  split; [|by rewrite E|done]. rewrite E. by apply (extends_rep j s own).
Qed.

Lemma rep_addrs c own j ip ip' nb has bs : i_addrs ip' = i_addrs ip → file_rep c own j ip nb has bs →
  file_rep c own j ip' nb has bs.
Proof.
  intros E [H1 H2 H3 H4 H5 H6 H7].
  assert (∀ bn, faddr 1 c ip' bn = faddr 1 c ip bn) as Hf by (intros bn; unfold faddr; by rewrite E).
  split; [by rewrite E|done| |unfold find_; by rewrite E|done| |done].
  - intros bn Hb. rewrite Hf. by apply H3.
  - intros o Ho. rewrite <- H6 by done. unfold fbyte, fblock. by rewrite Hf.
Qed.
Lemma u32_size n : 0 ≤ n ≤ MAXFILE * BSIZE → u32 n = n.
Proof. intros H. apply u32_small. rewrite MAXFILE_eq in H. unfold word_ok, BSIZE in *. lia. Qed.

Lemma wp_iappend F0 s own F i ty bs p Q : mk_inv s own F → F !! i = Some (ty, bs) → Forall byte_ok p →
  len bs + len p ≤ MAXFILE * BSIZE → nmeta + total (<[i := (ty, bs ++ p)]> F) ≤ FSSIZE →
  (∀ s' own', mk_inv s' own' (<[i := (ty, bs ++ p)]> F) → Q tt s') →
  wp F0 (iappend (Z.of_nat i + 1) p) Q s.
Proof.
  intros Hinv HF Hp Hmax Hroom HQ. pose proof Hinv as [Hi Hfiles Hfree Hfi Hfb Hcnt Hsb Hmeta].
  set (j := Z.of_nat i + 1) in *. pose proof (lookup_lt_Some _ _ _ HF) as Hil.
  assert (0 ≤ j < NINODES) as Hj by (unfold j; lia). pose proof (Hfiles _ _ _ HF) as [Hr Hfld Hty]. fold j in Hr, Hfld.
  assert (len (bs ++ p) = len bs + len p) as Elen by (rewrite length_app; lia).
  rewrite (total_insert _ _ _ _ _ _ HF), Elen in Hroom.
  unfold iappend. apply wp_bind. eapply wp_rinode; [done..|].
  assert (i_size (ip_at s j) = len bs) as -> by (by rewrite Hfld).
  apply wp_bind. eapply (wp_iappend_loop F0 j); [lia|exact Hi|exact Hr|done|lia|lia|].
  intros s1 own1 din1 [Hi1 Hr1 He1 Hfb1 Hdin].
  assert (set_i_size (u32 (len bs + len p)) din1 = mkInode ROOTDEV j 0 0 ty 0 0 1 (len (bs ++ p)) (i_addrs din1)) as ->.
  { rewrite Hdin, Hfld, u32_size, Elen by lia. done. }
  rewrite <- Elen in Hr1, Hfb1. eapply wp_winode; [exact Hi1|done|by eapply file_on_disk; [..|lia|]|].
  intros s2 Hi2 Hp2. apply (HQ s2 own1). split; [done|..].
  - intros i' ty' bs' Hi'. apply list_lookup_insert_Some in Hi' as [(<- & [= <- <-] & _)|[Hne Hi']].
    + fold j. split; rewrite ?(ip_this _ _ _ _ Hp2); [|done|done].
      eapply rep_addrs; [|eapply rep_frame; [by eapply (img_pos s1)|exact Hr1|done|]]; [done|].
      intros k v Hk. apply (io_own _ _ Hi1) in Hk. simpl in Hk. rewrite nmeta_eq in Hk. apply (ip_blocks _ _ _ _ Hp2); lia.
    + pose proof (lookup_lt_Some _ _ _ Hi') as Hl'. eapply (file_at_put j); [exact Hi1|exact Hp2|lia|unfold j; lia|].
      eapply (file_at_extends j); [exact Hi|exact Hi1|done|lia|unfold j; lia|]. by apply Hfiles.
  - intros k Hk. rewrite length_insert in Hk. rewrite (ip_other _ _ _ _ Hp2) by (unfold j; lia).
    rewrite (ip_at_extends _ _ _ _ _ _ Hi1 He1) by lia. by apply Hfree.
  - rewrite length_insert, (ip_fi _ _ _ _ Hp2), (ex_fi _ _ _ _ _ He1). done.
  - rewrite (ip_fb _ _ _ _ Hp2), Hfb1, (total_insert _ _ _ _ _ _ HF). lia.
  - by rewrite length_insert.
  - rewrite (ip_blocks _ _ _ _ Hp2), (extends_meta _ _ _ _ _ _ Hi1 He1) by (rewrite ?nmeta_eq; lia). done.
  - intros k Hk H1 H2. rewrite (ip_blocks _ _ _ _ Hp2), (extends_meta _ _ _ _ _ _ Hi1 He1) by (done || lia). by apply Hmeta.
Qed.

(** A new inode. *)
Lemma empty_rep c own j ip : i_addrs ip = replicate 13 0 → file_rep c own j ip 0 false [].
Proof.
  intros E. assert (∀ bn, faddr 1 c ip bn = 0) as Hf.
  { intros bn. unfold faddr. rewrite E. change (default 0 (replicate 13 0 !! Z.to_nat NDIRECT)) with 0. rewrite Z.eqb_refl.
    destruct (_ <? _); [|done]. destruct (_ !! _) as [a|] eqn:Ea; [|done]. by apply lookup_replicate in Ea as [-> _]. }
  split; [by rewrite E|by rewrite MAXFILE_eq| |unfold find_; by rewrite E|done| |done].
  - intros bn [Hb _]. rewrite (proj2 (Z.ltb_ge _ _)) by lia. apply Hf.
  - intros o Ho. unfold fbyte, fblock. rewrite Hf. change (0 =? 0) with true. cbv iota. unfold get8, zero_block.
    destruct (_ !! _) as [a|] eqn:Ea; [|done]. by apply lookup_replicate in Ea as [-> _].
Qed.
Lemma wp_ialloc F0 s own F type Q : mk_inv s own F → Z.of_nat (length F) + 1 < NINODES → short_ok type →
  (∀ s', mk_inv s' own (F ++ [(type, [])]) → Q (Z.of_nat (length F) + 1) s') →
  wp F0 (mkfs_ialloc type) Q s.
Proof.
  intros [Hi Hfiles Hfree Hfi Hfb Hcnt Hsb Hmeta] Hlt Hty HQ. unfold mkfs_ialloc. apply wp_bind, wp_gets. rewrite Hfi.
  set (j := Z.of_nat (length F) + 1) in *. assert (0 ≤ j < NINODES) as Hj by (unfold j; lia).
  rewrite u32_small by (unfold word_ok, NINODES in *; lia). apply wp_bind, wp_modify. apply wp_bind.
  set (s0 := set_freeinode (j + 1) s). assert (img_ok s0 own) as Hi0 by (by destruct Hi).
  eapply wp_winode; [exact Hi0|done| |].
  { split; [|done]. repeat split; cbn; try done; try (unfold short_ok in *; lia). apply Forall_lookup_2. intros i a Ha. by apply (lookup_replicate_1 13) in Ha as [-> _]. }
  intros s1 Hi1 Hp1. apply wp_ret. apply HQ. split; [done|..].
  - intros i ty bs Hl. apply lookup_app_Some in Hl as [Hl|[Hge Hl]].
    + pose proof (lookup_lt_Some _ _ _ Hl). eapply (file_at_put j); [exact Hi0|exact Hp1|lia|unfold j; lia|].
      destruct (Hfiles _ _ _ Hl) as [A1 A2 A3]. by split.
    + assert (i = length F ∧ (ty, bs) = (type, [])) as [-> [= -> ->]].
      { destruct (i - length F)%nat as [|n] eqn:En; [|by destruct n]. injection Hl as <- <-. split; [lia|done]. }
      fold j. split; rewrite ?(ip_this _ _ _ _ Hp1); [|done|done]. by apply empty_rep.
  - intros k Hk. rewrite length_app in Hk. cbn in Hk. rewrite (ip_other _ _ _ _ Hp1) by (unfold j; lia). apply Hfree. lia.
  - rewrite (ip_fi _ _ _ _ Hp1), length_app. cbn. unfold j. lia.
  - rewrite (ip_fb _ _ _ _ Hp1), total_app. cbn [mk_freeblock s0 set_freeinode]. rewrite Hfb. change (total [(type, [])]) with 0. lia.
  - rewrite length_app. cbn. unfold j in *. lia.
  - rewrite (ip_blocks _ _ _ _ Hp1) by lia. done.
  - intros k Hk H1 H2. rewrite (ip_blocks _ _ _ _ Hp1) by (done || lia). by apply Hmeta.
Qed.
