(* ===== verification/MkfsImage.v ===== *)
(** * The finished image

    The runs of mkfs from the empty file to the bitmap, on the description of
    the image of MkfsThm.v, and the theorem about the image: it is a file
    system from which the theorems about the kernel's log and file system
    start, with the given files in it and with no block lost. *)
From S2P Require Import Prelude Machine Block Bio Log LogThm Fs FsBits FsThm FileThm Mkfs MkfsThm.

Open Scope Z_scope.

(** What mkfs puts into the image: the root directory and the files. *)
Fixpoint entries (inum : Z) (files : list host_file) : list Z :=
  match files with
  | [] => []
  | f :: files => mk_dirent inum (image_name (hf_name f)) ++ entries (inum + 1) files
  end.
Definition root_entries (files : list host_file) : list Z :=
  mk_dirent ROOTINO [dot] ++ mk_dirent ROOTINO [dot; dot] ++ entries 2 files.
Definition contents (files : list host_file) : flist := (λ f, (T_FILE, concat (hf_reads f))) <$> files.
(** The entries are followed by zeros up to the end of the block. *)
Definition root_bytes (files : list host_file) : list Z :=
  let es := root_entries files in
  es ++ replicate (Z.to_nat ((len es / BSIZE + 1) * BSIZE - len es)) 0.
Definition image_files (files : list host_file) : flist := (T_DIR, root_bytes files) :: contents files.

(** ** The steps of [main] *)

(** The image is zeroed block by block. *)
Lemma wp_zero F n : ∀ k fi fb Q, Q tt (mkMk (replicate (k + n) zero_block) fi fb) →
  wp F (for_each (seq k n) (λ i, wsect (Z.of_nat i) zero_block)) Q (mkMk (replicate k zero_block) fi fb).
Proof.
  induction n as [|n IH]; intros k fi fb Q HQ; cbn [seq for_each].
  { apply wp_ret. by rewrite Nat.add_0_r in HQ. }
  apply wp_bind. unfold wsect. apply wp_modify. cbv zeta. cbn [mk_img mk_freeinode mk_freeblock set_img].
  rewrite Nat2Z.id, length_replicate, Nat.ltb_irrefl, Nat.sub_diag. unfold set_img. cbn [mk_freeinode mk_freeblock].
  change (replicate k zero_block ++ replicate 0 zero_block ++ [zero_block])
    with (replicate k zero_block ++ replicate 1 zero_block).
  rewrite <- replicate_add, Nat.add_1_r. apply IH. by rewrite Nat.add_succ_r in HQ.
Qed.
Definition blank : mkst := mkMk (replicate (Z.to_nat FSSIZE) zero_block) 1 nmeta.
Lemma dk_blank k : dk blank 1 k = zero_block.
Proof.
  unfold disk_of. cbn [mk_img blank]. destruct (_ !! _) eqn:E; [|done]. by apply lookup_replicate in E as [-> _].
Qed.
Lemma blank_ok : img_ok blank ∅.
Proof.
  split.
  - apply length_replicate.
  - apply Forall_lookup_2. intros i b Hb. apply lookup_replicate in Hb as [-> _]. apply zero_block_ok.
  - by vm_compute.
  - by apply map_Forall_empty.
  - intros k _. apply dk_blank.
Qed.
Lemma load_zero j : 0 ≤ j < NINODES → load_dinode zero_block (dinode_off j) (mk_inode j) = mk_inode j.
Proof.
  intros Hj. destruct (inode_place j Hj) as (_ & _ & -> & _). pose proof (Z.mod_pos_bound j 8 ltac:(lia)) as H.
  assert (∃ n, (n < 8)%nat ∧ j mod 8 = Z.of_nat n) as (n & Hn & ->) by (exists (Z.to_nat (j mod 8)); lia).
  do 8 (destruct n as [|n]; [by vm_compute|]). lia.
Qed.
Lemma sb_block_ok : block_ok sb_block.
Proof. unfold sb_block. repeat apply put32_ok. apply zero_block_ok. Qed.
(** An image without files. *)
Lemma start_inv : mk_inv (put_block 1 sb_block blank) ∅ [].
Proof.
  pose proof blank_ok as Hb. assert (0 ≤ 1 < FSSIZE) as H1 by done.
  assert (∀ k, 0 ≤ k → k ≠ 1 → dk (put_block 1 sb_block blank) 1 k = zero_block) as Hz.
  { intros k Hk Hn. rewrite (dk_put_block _ ∅), disk_write_ne by (done || congruence). apply dk_blank. }
  split; try done.
  - apply put_block_ok; [done|by vm_compute|apply sb_block_ok].
  - intros j Hj. cbn [length] in Hj. destruct (inode_place j ltac:(lia)) as (EB & HB & _). unfold ip_at.
    rewrite EB, Hz by lia. apply load_zero. lia.
  - intros k Hk Hn _. apply Hz; [lia|done].
Qed.

(** The reads of one file. *)
Lemma cost_le n m : n ≤ m → cost (nbk n) ≤ cost (nbk m).
Proof. intros H. by apply cost_mono, nbk_mono. Qed.
Lemma wp_reads F0 reads : ∀ s own F i ty bs Q, mk_inv s own F → F !! i = Some (ty, bs) → Forall (Forall byte_ok) reads →
  len (bs ++ concat reads) ≤ MAXFILE * BSIZE → nmeta + total (<[i := (ty, bs ++ concat reads)]> F) ≤ FSSIZE →
  (∀ s' own', mk_inv s' own' (<[i := (ty, bs ++ concat reads)]> F) → Q tt s') →
  wp F0 (for_each reads (iappend (Z.of_nat i + 1))) Q s.
Proof.
  induction reads as [|p reads IH]; intros s own F i ty bs Q Hinv HF Hb Hmax Hroom HQ; cbn [for_each concat] in *.
  { apply wp_ret. apply (HQ s own). rewrite app_nil_r, list_insert_id by done. done. }
  apply Forall_cons in Hb as [Hp Hb]. rewrite app_assoc in *. rewrite !length_app in Hmax.
  rewrite (total_insert _ _ _ _ _ _ HF), !length_app in Hroom.
  pose proof (cost_le (Z.of_nat (length bs + length p)) (Z.of_nat (length bs + length p + length (concat reads)))) as Hc.
  apply wp_bind. eapply wp_iappend; [done..|lia| |].
  { rewrite (total_insert _ _ _ _ _ _ HF), length_app. lia. }
  intros s1 own1 H1. pose proof (lookup_lt_Some _ _ _ HF) as Hl.
  eapply (IH s1 own1 _ i ty (bs ++ p)); [done|by rewrite list_lookup_insert_eq|done|rewrite !length_app; lia| |].
  - rewrite list_insert_insert_eq, (total_insert _ _ _ _ _ _ HF), !length_app. lia.
  - intros s' own'. rewrite list_insert_insert_eq. apply HQ.
Qed.

(** A file of the command line that fits into the image. *)
Record host_ok (f : host_file) : Prop := {
  ho_slash : slash ∉ hf_name f;
  ho_name : Forall byte_ok (hf_name f);
  ho_reads : Forall (Forall byte_ok) (hf_reads f);
  ho_size : len (concat (hf_reads f)) ≤ MAXFILE * BSIZE }.

Lemma chars_ncpy_ok n : ∀ t, Forall byte_ok t → Forall byte_ok (chars_ncpy n t) ∧ length (chars_ncpy n t) = n.
Proof.
  induction n as [|n IH]; intros t Ht; [done|]. cbn [chars_ncpy]. destruct t as [|a t].
  { destruct (IH [] Ht) as [A1 A2]. split; [by constructor|by cbn; rewrite A2]. }
  apply Forall_cons in Ht as [Ha Ht]. destruct (a =? 0).
  - split; [|by cbn; rewrite length_replicate]. constructor; [done|]. apply Forall_lookup_2. intros i b Hb.
    by apply lookup_replicate in Hb as [-> _].
  - destruct (IH t Ht) as [A1 A2]. split; [by constructor|by cbn; rewrite A2].
Qed.
Lemma mk_dirent_ok inum name : Forall byte_ok name → Forall byte_ok (mk_dirent inum name) ∧ length (mk_dirent inum name) = 16%nat.
Proof.
  intros Hn. destruct (chars_ncpy_ok (Z.to_nat DIRSIZ) name Hn) as [A1 A2]. unfold mk_dirent. split.
  - repeat constructor; (apply Z.mod_pos_bound; lia) || done.
  - cbn [length]. by rewrite A2.
Qed.
Lemma image_name_ok name : Forall byte_ok name → Forall byte_ok (image_name name).
Proof. intros H. unfold image_name. destruct (_ =? _); [|done]. destruct H; by simpl. Qed.

Lemma total_cons f F : total (f :: F) = cost (nbk (len f.2)) + total F.
Proof. done. Qed.
Lemma cost_pos n : 0 ≤ n → 0 ≤ cost (nbk n).
Proof. intros H. by apply (cost_le 0). Qed.
Lemma total_pos F : 0 ≤ total F.
Proof. induction F as [|f F IH]; [done|]. rewrite total_cons. pose proof (cost_pos (len f.2)). lia. Qed.

Lemma insert_last (r x y : Z * list Z) F : <[S (length F) := x]> (r :: F ++ [y]) = r :: F ++ [x].
Proof. rewrite <- (Nat.add_0_r (S (length F))). exact (insert_app_r (r :: F) [y] 0 x). Qed.

Lemma wp_add_file F0 s own d F f Q : mk_inv s own ((T_DIR, d) :: F) → host_ok f →
  let e := mk_dirent (Z.of_nat (length F) + 2) (image_name (hf_name f)) in
  let G := (T_DIR, d ++ e) :: F ++ [(T_FILE, concat (hf_reads f))] in
  len (d ++ e) ≤ MAXFILE * BSIZE → Z.of_nat (length F) + 2 < NINODES → nmeta + total G ≤ FSSIZE →
  (∀ s' own', mk_inv s' own' G → Q tt s') → wp F0 (add_file ROOTINO f) Q s.
Proof.
  intros Hinv [Hs Hn Hr Hz] e G Hmax Hcnt Hroom HQ. subst G. rewrite total_cons, total_app in Hroom. cbn [snd total foldr] in Hroom.
  assert (existsb (Z.eqb slash) (hf_name f) = false) as E.
  { apply not_true_iff_false. intros (x & Hx & E)%existsb_exists. apply Z.eqb_eq in E as <-. by apply Hs, list_elem_of_In. }
  unfold add_file. rewrite E. clear E.
  apply wp_bind. eapply wp_ialloc; [done|cbn [length]; lia|done|]. intros s1 H1.
  assert (Z.of_nat (length ((T_DIR, d) :: F)) + 1 = Z.of_nat (length F) + 2) as -> by (cbn [length]; lia). fold e.
  destruct (mk_dirent_ok (Z.of_nat (length F) + 2) (image_name (hf_name f)) (image_name_ok _ Hn)) as [He _]. fold e in He.
  pose proof (cost_pos (len (concat (hf_reads f)))) as Hc.
  apply wp_bind. change ROOTINO with (Z.of_nat 0 + 1).
  eapply (wp_iappend F0 s1 _ _ 0 T_DIR d e); [exact H1|done|done|rewrite length_app in Hmax; lia| |].
  { cbn [insert list_insert app]. rewrite total_cons, total_app. change (total [(T_FILE, [])]) with 0. cbn [snd]. lia. }
  cbn [insert list_insert app]. intros s2 own2 H2.
  assert (Z.of_nat (length F) + 2 = Z.of_nat (S (length F)) + 1) as -> by lia.
  eapply (wp_reads F0 _ s2 own2 _ (S (length F)) T_FILE []); [exact H2|by apply list_lookup_middle|done|done| |].
  - rewrite insert_last, total_cons, total_app. cbn [app snd total foldr]. lia.
  - intros s' own'. rewrite insert_last. apply HQ.
Qed.

Lemma entries_length files : ∀ n, Forall host_ok files → length (entries n files) = (16 * length files)%nat.
Proof.
  induction files as [|f files IH]; intros n H; [done|]. apply Forall_cons in H as [Hf H]. cbn [entries length].
  rewrite length_app, IH by done. rewrite (proj2 (mk_dirent_ok n _ (image_name_ok _ (ho_name _ Hf)))). lia.
Qed.
Lemma root_entries_length files : Forall host_ok files → length (root_entries files) = (16 * (2 + length files))%nat.
Proof. intros H. unfold root_entries. rewrite !length_app, entries_length by done. change (length (mk_dirent _ _)) with 16%nat. lia. Qed.

Lemma wp_files F0 files : ∀ s own d F Q, mk_inv s own ((T_DIR, d) :: F) → Forall host_ok files →
  let G := (T_DIR, d ++ entries (Z.of_nat (length F) + 2) files) :: F ++ contents files in
  len (d ++ entries (Z.of_nat (length F) + 2) files) ≤ MAXFILE * BSIZE →
  Z.of_nat (length F + length files) + 1 < NINODES → nmeta + total G ≤ FSSIZE →
  (∀ s' own', mk_inv s' own' G → Q tt s') → wp F0 (for_each files (add_file ROOTINO)) Q s.
Proof.
  induction files as [|f files IH]; intros s own d F Q Hinv Hok G Hmax Hcnt Hroom HQ; subst G; cbn [for_each entries contents fmap list_fmap] in *.
  { apply wp_ret. rewrite !app_nil_r in HQ. by apply (HQ s own). }
  apply Forall_cons in Hok as [Hf Hok]. fold (contents files) in *. cbn [length] in Hcnt.
  set (e := mk_dirent _ _) in *. set (g := (T_FILE, _)) in *. rewrite app_assoc in Hmax, Hroom, HQ.
  assert (F ++ g :: contents files = (F ++ [g]) ++ contents files) as EF by (by rewrite <- app_assoc). rewrite EF in *.
  assert (Z.of_nat (length F) + 2 + 1 = Z.of_nat (length (F ++ [g])) + 2) as En by (rewrite length_app; cbn; lia). rewrite En in *.
  apply wp_bind. eapply (wp_add_file F0 s own d F f); fold e; fold g; [done|done| |lia| |].
  - rewrite length_app in Hmax. lia.
  - pose proof (total_pos (contents files)). rewrite !total_cons, !total_app in *. cbn [snd] in *.
    rewrite (length_app (d ++ e)) in Hroom. pose proof (cost_le (len (d ++ e)) (Z.of_nat (length (d ++ e) + length (entries (Z.of_nat (length (F ++ [g])) + 2) files)))) as Hc.
    lia.
  - intros s1 own1 H1. eapply (IH s1 own1 (d ++ e) (F ++ [g])); [done|done|done| |done|done].
    rewrite length_app. cbn [length]. lia.
Qed.

(** The size of the root directory is set to whole blocks. *)
Lemma pad_same (bs : list Z) n : 0 < len bs mod BSIZE → n = (len bs / BSIZE + 1) * BSIZE → len bs ≤ n ∧ nbk n = nbk (len bs).
Proof. intros H ->. unfold nbk, BSIZE in *. Z.div_mod_to_equations. lia. Qed.
Lemma wp_pad F0 s own es F Q : mk_inv s own ((T_DIR, es) :: F) → 0 < len es mod BSIZE → len es < MAXFILE * BSIZE →
  (∀ s', mk_inv s' own ((T_DIR, es ++ replicate (Z.to_nat ((len es / BSIZE + 1) * BSIZE - len es)) 0) :: F) → Q tt s') →
  wp F0 (rinode ROOTINO)
    (λ din, wp F0 (winode ROOTINO (set_i_size (u32 ((i_size din / BSIZE + 1) * BSIZE)) din)) Q) s.
Proof.
  intros [Hi Hfiles Hfree Hfi Hfb Hcnt Hsb Hmeta] Hmod Hmax HQ. destruct (Hfiles 0%nat _ _ eq_refl) as [Hr Hfld Hty].
  change (Z.of_nat 0 + 1) with ROOTINO in *. destruct (pad_same es _ Hmod eq_refl) as [Hle Hnb]. set (n := (len es / BSIZE + 1) * BSIZE) in *.
  set (bs := es ++ _) in *. assert (len bs = n) as El by (unfold bs; rewrite length_app, length_replicate; lia).
  assert (n ≤ MAXFILE * BSIZE) as Hn by (unfold n; rewrite MAXFILE_eq in *; unfold BSIZE in *; Z.div_mod_to_equations; lia).
  eapply wp_rinode; [done..|]. assert (i_size (ip_at s ROOTINO) = len es) as -> by (by rewrite Hfld). fold n.
  assert (set_i_size (u32 n) (ip_at s ROOTINO) = mkInode ROOTDEV ROOTINO 0 0 T_DIR 0 0 1 (len bs) (i_addrs (ip_at s ROOTINO))) as ->.
  { rewrite u32_size, El by lia. by rewrite Hfld at 1. }
  assert (file_rep (dk s) own ROOTINO (ip_at s ROOTINO) (nbk (len bs)) (NDIRECT <? nbk (len bs)) bs) as Hr'.
  { rewrite El, Hnb. destruct Hr as [R1 R2 R3 R4 R5 R6 R7]. split; try done.
    - intros o Ho. rewrite R6 by done. unfold bs. destruct (es !! Z.to_nat o) as [b|] eqn:E; [by rewrite (lookup_app_l_Some _ _ _ _ E)|].
      rewrite lookup_app_r by (by apply lookup_ge_None). destruct (replicate _ _ !! _) eqn:E2; [|done]. by apply lookup_replicate in E2 as [-> _].
    - rewrite El, <- Hnb. unfold nbk, BSIZE. Z.div_mod_to_equations. lia. }
  eapply wp_winode; [exact Hi|done|by eapply file_on_disk; [..|rewrite El|]|]. intros s' Hi' Hp. apply HQ. split; try done.
  - intros [|i] ty b Hl; cbn in Hl.
    + injection Hl as <- <-. change (Z.of_nat 0 + 1) with ROOTINO. split; rewrite ?(ip_this _ _ _ _ Hp); [|done|done].
      eapply rep_addrs; [|eapply rep_frame; [by eapply (img_pos s)|exact Hr'|done|]]; [done|].
      intros k v Hk. apply (io_own _ _ Hi) in Hk. simpl in Hk. rewrite nmeta_eq in Hk. apply (ip_blocks _ _ _ _ Hp); lia.
    + pose proof (lookup_lt_Some _ _ _ Hl). cbn [length] in *. unfold ROOTINO in *.
      eapply (file_at_put 1); [exact Hi|exact Hp|lia|lia|]. by apply Hfiles.
  - intros k Hk. cbn [length] in *. rewrite (ip_other _ _ _ _ Hp) by (unfold ROOTINO; lia). by apply Hfree.
  - by rewrite (ip_fi _ _ _ _ Hp).
  - rewrite (ip_fb _ _ _ _ Hp), Hfb, !total_cons. cbn [snd]. rewrite El, Hnb. done.
  - rewrite (ip_blocks _ _ _ _ Hp) by lia. done.
  - intros k Hk H1 H2. rewrite (ip_blocks _ _ _ _ Hp) by (done || lia). by apply Hmeta.
Qed.

(** The files of the command line fit into the image, and the entries of the
    root directory do not fill its last block. *)
Record fits (files : list host_file) : Prop := {
  ft_files : Forall host_ok files;
  ft_inodes : Z.of_nat (length files) + 1 < NINODES;
  ft_room : nmeta + total (image_files files) ≤ FSSIZE;
  ft_root : (2 + Z.of_nat (length files)) * 16 mod BSIZE ≠ 0 }.

Lemma root_len files : Forall host_ok files → len (root_entries files) = (2 + Z.of_nat (length files)) * 16.
Proof. intros H. rewrite root_entries_length by done. lia. Qed.
Lemma wp_main F0 files Q : fits files →
  (∀ s own, mk_inv s own (image_files files) →
    Q tt (put_block (sb_bmapstart mkfs_sb) (bitmap_block (mk_freeblock s)) s)) →
  wp F0 (main files) Q (mkMk [] 1 0).
Proof.
  intros [Hok Hcnt Hroom Hroot] HQ. pose proof (root_len files Hok) as Hlen. rewrite <- Hlen in Hroot.
  assert (0 < len (root_entries files) mod BSIZE) as Hmod by (pose proof (Z.mod_pos_bound (len (root_entries files)) BSIZE); unfold BSIZE in *; lia).
  assert (len (root_entries files) ≤ 3200) as Hsmall by (unfold NINODES in *; lia).
  assert (total (image_files files) = total ((T_DIR, root_entries files) :: contents files)) as Ht.
  { unfold image_files, root_bytes. rewrite !total_cons. cbn [snd]. destruct (pad_same _ _ Hmod eq_refl) as [Hle Hn].
    rewrite length_app, length_replicate, Nat2Z.inj_add, Z2Nat.id by lia. rewrite <- Hn. do 3 f_equal. lia. }
  unfold main. apply wp_bind, wp_modify. apply wp_bind, (wp_zero _ _ 0). change (0 + Z.to_nat FSSIZE)%nat with (Z.to_nat FSSIZE). fold blank.
  apply wp_bind. eapply wp_wsect; [apply blank_ok|done|].
  apply wp_bind. eapply wp_ialloc; [apply start_inv|done|done|]. intros s1 H1. cbn [length app] in H1 |- *.
  change (Z.of_nat 0 + 1) with 1. change (negb (1 =? ROOTINO)) with false. cbv iota.
  assert (∀ bs : list Z, len bs ≤ 512 → nmeta + total [(T_DIR, bs)] ≤ FSSIZE) as Hfew.
  { intros bs Hb. rewrite total_cons. cbn [snd]. pose proof (cost_le _ _ Hb). change (cost (nbk 512)) with 1 in *. rewrite nmeta_eq.
    change (total []) with 0. unfold FSSIZE. lia. }
  apply wp_bind. eapply (wp_iappend _ _ _ _ 0 _ _ (mk_dirent 1 [dot])); [exact H1|done|by vm_compute; repeat constructor|done|by apply Hfew|]. intros s2 own2 H2.
  apply wp_bind. eapply (wp_iappend _ _ _ _ 0 _ _ (mk_dirent 1 [dot; dot])); [exact H2|done|by vm_compute; repeat constructor|done|by apply Hfew|]. intros s3 own3 H3.
  set (d := ([] ++ mk_dirent 1 [dot]) ++ mk_dirent 1 [dot; dot]) in *.
  assert (d ++ entries (Z.of_nat (length (@nil (Z * list Z))) + 2) files = root_entries files) as Ed by (symmetry; apply app_assoc).
  apply wp_bind. eapply (wp_files _ _ s3 own3 d []); [exact H3|done|..]; rewrite ?Ed; cbn [app].
  { rewrite MAXFILE_eq. unfold BSIZE. lia. }
  { cbn [length]. lia. }
  { by rewrite <- Ht. }
  intros s4 own4 H4. apply wp_bind. eapply wp_mono; [eapply wp_pad; [exact H4|done|rewrite MAXFILE_eq; unfold BSIZE; lia|]|].
  2: { intros din s5 H5. apply wp_bind. exact H5. }
  intros s5 H5. apply wp_bind, wp_gets. unfold mkfs_balloc. pose proof (io_fb _ _ (mi_img _ _ _ H5)) as Hfb.
  rewrite (proj2 (Z.ltb_lt _ _)) by (unfold FSSIZE, BSIZE in *; lia).
  eapply wp_wsect; [apply H5|done|]. by apply (HQ _ own4).
Qed.

(** ** The bitmap *)
Lemma bitmap_bits n : (n <= Z.to_nat BPB)%nat →
  block_ok (bitmap_block (Z.of_nat n)) ∧ ∀ k, 0 ≤ k < BPB → bit_set (bitmap_block (Z.of_nat n)) k = (k <? Z.of_nat n).
Proof.
  unfold bitmap_block. rewrite Nat2Z.id. change (Z.to_nat BPB) with 4096%nat. change BPB with 4096.
  induction n as [|n IH]; intros Hn.
  { split; [apply zero_block_ok|]. intros k Hk. rewrite bit_set_testbit, (proj2 (Z.ltb_ge _ _)) by lia. cbn [seq foldl].
    unfold get8, zero_block. destruct (_ !! _) eqn:E; [apply lookup_replicate in E as [-> _]|]; by apply Z.bits_0. }
  destruct IH as [IH1 IH2]; [lia|]. rewrite seq_S, foldl_app. cbn [foldl]. rewrite Nat.add_0_l.
  split; [by apply mark_bit_ok|]. intros k Hk.
  rewrite bit_set_mark, IH2 by (done || (change BPB with 4096; lia)).
  destruct (Z.eqb_spec (Z.of_nat n) k), (Z.ltb_spec k (Z.of_nat n)), (Z.ltb_spec k (Z.of_nat (S n))); done || lia.
Qed.

(** ** No block is lost *)

(** The places of a file with [nb] blocks, and those of all files, with the
    inode number first. *)
Definition places (nb : Z) : list Z := (if NDIRECT <? nb then [-1] else []) ++ seqZ 0 nb.
Fixpoint uses (j : Z) (F : flist) : list (Z * Z) :=
  match F with
  | [] => []
  | f :: F => ((j,.) <$> places (nbk (len f.2))) ++ uses (j + 1) F
  end.

Lemma nbk_pos (bs : list Z) : 0 ≤ nbk (len bs).
Proof. unfold nbk. apply Z.div_pos; unfold BSIZE; lia. Qed.
Lemma uses_length F : ∀ j, Z.of_nat (length (uses j F)) = total F.
Proof.
  induction F as [|f F IH]; intros j; [done|]. cbn [uses]. rewrite total_cons, length_app, Nat2Z.inj_add, IH, length_fmap.
  f_equal. unfold places, cost. rewrite length_app, length_seqZ. pose proof (nbk_pos f.2). destruct (_ <? _); cbn [length]; lia.
Qed.
Lemma elem_of_uses F : ∀ j u, u ∈ uses j F ↔
  ∃ i f, F !! i = Some f ∧ u.1 = Z.of_nat i + j ∧ u.2 ∈ places (nbk (len f.2)).
Proof.
  induction F as [|f F IH]; intros j u; cbn [uses].
  { split; [by intros ?%not_elem_of_nil|]. by intros (i & f & H & _). }
  rewrite elem_of_app, IH, list_elem_of_fmap. split.
  - intros [(p & -> & Hp)|(i & g & H1 & H2 & H3)]; [by exists 0%nat, f|]. exists (S i), g. split_and!; [done|lia|done].
  - intros ([|i] & g & H1 & H2 & H3); cbn in H1.
    + injection H1 as ->. left. exists u.2. split; [|done]. destruct u. cbn in *. f_equal. lia.
    + right. exists i, g. split_and!; [done|lia|done].
Qed.
Lemma NoDup_uses F : ∀ j, NoDup (uses j F).
Proof.
  induction F as [|f F IH]; intros j; cbn [uses]; [constructor|]. apply NoDup_app. split_and!; [|..|apply IH].
  - apply NoDup_fmap_2; [by intros a b [= ->]|]. unfold places. apply NoDup_app. split_and!; [|..|apply NoDup_seqZ].
    + destruct (_ <? _); repeat constructor. by intros ?%not_elem_of_nil.
    + intros p Hp Hq%elem_of_seqZ. destruct (_ <? _); [apply list_elem_of_singleton in Hp; lia|by apply not_elem_of_nil in Hp].
  - intros u (p & -> & _)%list_elem_of_fmap (i & g & _ & H & _)%elem_of_uses. cbn in H. lia.
Qed.

(** As many blocks as there are places, each for one place, are all blocks. *)
Lemma places_cover (R : Z → Z * Z → Prop) (us : list (Z * Z)) lo hi :
  (∀ k u, R k u → lo ≤ k < hi) → (∀ k u u', R k u → R k u' → u = u') →
  NoDup us → hi - lo ≤ Z.of_nat (length us) → (∀ u, u ∈ us → ∃ k, R k u) →
  ∀ k, lo ≤ k < hi → ∃ u, u ∈ us ∧ R k u.
Proof.
  intros Hin Hfun Hnd Hlen Hex k Hk.
  assert (∃ ks, Forall2 R ks us) as [ks Hks].
  { clear Hnd Hlen. induction us as [|u us IH]; [by exists []|].
    destruct (Hex u) as [a Ha]; [left|]. destruct IH as [ks IH]; [intros v Hv; apply Hex; by right|]. exists (a :: ks). by constructor. }
  assert (NoDup ks) as Hnk.
  { apply NoDup_alt. intros i i' a Hi Hi'. destruct (Forall2_lookup_l _ _ _ _ _ Hks Hi) as (u & Hu & E).
    destruct (Forall2_lookup_l _ _ _ _ _ Hks Hi') as (u' & Hu' & E'). rewrite (Hfun _ _ _ E' E) in Hu'. by eapply NoDup_lookup. }
  assert (ks ⊆ seqZ lo (hi - lo)) as Hsub.
  { intros a (i & Hi)%list_elem_of_lookup. destruct (Forall2_lookup_l _ _ _ _ _ Hks Hi) as (u & _ & E). apply Hin in E. apply elem_of_seqZ. lia. }
  assert (k ∈ ks) as (i & Hi)%list_elem_of_lookup.
  { apply list_elem_of_In, (NoDup_length_incl (l' := seqZ lo (hi - lo))); [by apply NoDup_ListNoDup| |..].
    - rewrite length_seqZ, (Forall2_length _ _ _ Hks). lia.
    - intros a Ha. apply list_elem_of_In, Hsub. by apply list_elem_of_In.
    - apply list_elem_of_In, elem_of_seqZ. lia. }
  destruct (Forall2_lookup_l _ _ _ _ _ Hks Hi) as (u & Hu & E). exists u. split; [by eapply list_elem_of_lookup_2|done].
Qed.

(** ** The image *)
Definition inode_of (c : disk) (j : Z) : inode :=
  load_dinode (c 1 (IBLOCK j mkfs_sb)) (dinode_off j) (mk_inode j).
(** A disk with an empty log and the files [F], as the kernel starts from. *)
Record image_ok (c : disk) (F : flist) : Prop := {
  im_sb : decode_sb (c 1 1) = mkfs_sb;
  im_log : log_ok 2 30 1 c ∧ c 1 2 = zero_block;
  im_file : ∀ i ty bs, F !! i = Some (ty, bs) → let ip := inode_of c (Z.of_nat i + 1) in
    file_ok 2 30 1 mkfs_sb c ip ∧ i_type ip = ty ∧ i_nlink ip = 1 ∧ i_size ip = len bs ∧
    ∀ o, (o < length bs)%nat → bs !! o = Some (fbyte 1 c ip (Z.of_nat o));
  im_free : ∀ j, Z.of_nat (length F) < j < NINODES → i_type (inode_of c j) = 0;
  im_disjoint : ∀ i i' k, (i < length F)%nat → (i' < length F)%nat →
    owned 1 c (inode_of c (Z.of_nat i + 1)) k → owned 1 c (inode_of c (Z.of_nat i' + 1)) k → i = i';
  im_marked : ∀ k, 0 ≤ k < FSSIZE → marked 1 mkfs_sb c k = true ↔
    k < nmeta ∨ ∃ i, (i < length F)%nat ∧ owned 1 c (inode_of c (Z.of_nat i + 1)) k }.

Section Image.
Context (s : mkst) (own : gmap Z (Z * Z)) (F : flist).
Hypothesis Hinv : mk_inv s own F.
Abbreviation fb := (mk_freeblock s).
Definition final : mkst := put_block (sb_bmapstart mkfs_sb) (bitmap_block fb) s.

Lemma final_fb : nmeta ≤ fb ≤ FSSIZE.
Proof using Hinv. apply (io_fb _ _ (mi_img _ _ _ Hinv)). Qed.
Lemma final_bitmap : block_ok (bitmap_block fb) ∧ ∀ k, 0 ≤ k < BPB → bit_set (bitmap_block fb) k = (k <? fb).
Proof using Hinv.
  pose proof final_fb. rewrite nmeta_eq in *. rewrite <- (Z2Nat.id fb) by lia. apply bitmap_bits.
  change BPB with 4096. unfold FSSIZE in *. lia.
Qed.
Lemma final_ok : img_ok final own.
Proof using Hinv.
  pose proof final_fb. rewrite nmeta_eq in *. apply put_block_ok; [apply Hinv|change (sb_bmapstart mkfs_sb) with 58; lia|apply final_bitmap].
Qed.
Lemma final_block k : 0 ≤ k → k ≠ 58 → dk final 1 k = dk s 1 k.
Proof using Hinv.
  intros Hk Hn. unfold final. rewrite (dk_put_block _ own) by (done || apply Hinv). apply disk_write_ne. intros [= E]. by apply Hn.
Qed.
Lemma final_inode j : 0 ≤ j < NINODES → inode_of (dk final) j = ip_at s j.
Proof using Hinv.
  intros Hj. destruct (inode_place j Hj) as (EB & HB & _). unfold inode_of, ip_at. by rewrite EB, final_block by lia.
Qed.
Lemma final_marked k : 0 ≤ k < FSSIZE → marked 1 mkfs_sb (dk final) k = (k <? fb).
Proof using Hinv.
  intros Hk. unfold marked. rewrite <- (proj2 final_bitmap k) by (change BPB with 4096; unfold FSSIZE in *; lia).
  unfold final. rewrite (dk_put_block _ own) by (done || apply Hinv). by rewrite disk_write_eq.
Qed.
Lemma final_rep i ty bs : F !! i = Some (ty, bs) → let ip := inode_of (dk final) (Z.of_nat i + 1) in
  file_rep (dk final) own (Z.of_nat i + 1) ip (nbk (len bs)) (NDIRECT <? nbk (len bs)) bs ∧
  ip = mkInode ROOTDEV (Z.of_nat i + 1) 0 0 ty 0 0 1 (len bs) (i_addrs ip) ∧ short_ok ty.
Proof using Hinv.
  intros Hi. cbv zeta. pose proof (lookup_lt_Some _ _ _ Hi). pose proof (mi_count _ _ _ Hinv).
  rewrite final_inode by lia. destruct (mi_files _ _ _ Hinv _ _ _ Hi) as [Hr Hf Ht]. split_and!; [|done|done].
  eapply rep_frame; [eapply img_pos, Hinv|exact Hr|done|]. intros k v Hk.
  apply (io_own _ _ (mi_img _ _ _ Hinv)) in Hk. cbn in Hk. rewrite nmeta_eq in Hk. apply final_block; lia.
Qed.
(** The blocks of a file are those for its places. *)
Lemma owned_own c j ip nb has bs k : file_rep c own j ip nb has bs → owned 1 c ip k → ∃ p, own !! k = Some (j, p).
Proof.
  intros Hr [Hk [<-|(bn & Hb & <-)]].
  - pose proof (fr_ind _ _ _ _ _ _ _ Hr) as H. destruct has; [by eexists|done].
  - pose proof (fr_map _ _ _ _ _ _ _ Hr bn Hb) as H. destruct (bn <? nb); [by eexists|done].
Qed.
Lemma place_owned c j ip nb bs p : own_pos own → file_rep c own j ip nb (NDIRECT <? nb) bs → p ∈ places nb →
  ∃ k, own !! k = Some (j, p) ∧ owned 1 c ip k.
Proof.
  intros Hpos Hr [Hp|Hp%elem_of_seqZ]%elem_of_app.
  - pose proof (fr_ind _ _ _ _ _ _ _ Hr) as H. destruct (_ <? _); [|by apply not_elem_of_nil in Hp].
    apply list_elem_of_singleton in Hp as ->. exists (find_ ip). split; [done|]. split; [by eapply own_nonzero|by left].
  - pose proof (fr_nb _ _ _ _ _ _ _ Hr). assert (in_file p) as Hin by (unfold in_file; lia).
    pose proof (fr_map _ _ _ _ _ _ _ Hr p Hin) as H'. rewrite (proj2 (Z.ltb_lt _ _)) in H' by lia.
    exists (faddr 1 c ip p). split; [done|]. split; [by eapply own_nonzero|]. right. by exists p.
Qed.
Lemma data_above k : nmeta ≤ k < FSSIZE → data_blk 2 30 mkfs_sb k.
Proof.
  rewrite nmeta_eq. intros Hk. unfold data_blk. change (sb_bmapstart mkfs_sb) with 58. change (sb_size mkfs_sb) with FSSIZE. unfold FSSIZE in *.
  split_and!; [|lia| |lia|lia].
  - unfold home, in_log, FSSIZE. lia.
  - intros (inum & Hi & E). change (sb_ninodes mkfs_sb) with 200 in Hi. change (sb_inodestart mkfs_sb) with 32 in E. change IPB with 8 in E.
    Z.div_mod_to_equations. lia.
Qed.
Lemma final_fs_ok : fs_ok 2 30 1 mkfs_sb (dk final).
Proof using Hinv.
  split; [intros k; eapply img_block, final_ok|]. intros k Hk Hn. change (sb_size mkfs_sb) with FSSIZE in Hk.
  rewrite final_marked by done. pose proof final_fb. destruct (decide (nmeta ≤ k)) as [Hge|]; [|apply Z.ltb_lt; lia].
  destruct Hn. apply data_above; lia.
Qed.
Lemma final_wf i ty bs : F !! i = Some (ty, bs) → inode_wf 2 30 1 mkfs_sb (dk final) (inode_of (dk final) (Z.of_nat i + 1)).
Proof using Hinv.
  intros Hi. destruct (final_rep i ty bs Hi) as (Hr & Hf & _). pose proof (img_pos _ _ final_ok) as Hpos. split.
  - by rewrite Hf.
  - apply Hr.
  - eapply rep_words; [apply final_ok|exact Hr].
  - intros k Hk. destruct (owned_own _ _ _ _ _ _ _ Hr Hk) as [p Hp]. apply (io_own _ _ (mi_img _ _ _ Hinv)) in Hp. cbn in Hp.
    pose proof final_fb. split; [apply data_above; lia|]. rewrite final_marked by (rewrite nmeta_eq in *; lia). apply Z.ltb_lt. lia.
  - intros b1 b2 H1 H2 E Hn. pose proof (fr_map _ _ _ _ _ _ _ Hr b1 H1) as M1. pose proof (fr_map _ _ _ _ _ _ _ Hr b2 H2) as M2.
    rewrite <- E in M2. destruct (b1 <? _), (b2 <? _); congruence.
  - intros b Hb Hn E. pose proof (fr_map _ _ _ _ _ _ _ Hr b Hb) as M. pose proof (fr_ind _ _ _ _ _ _ _ Hr) as M2.
    rewrite <- E in M2. unfold in_file in Hb. destruct (b <? _), (NDIRECT <? _); try congruence. rewrite M in M2. injection M2. lia.
Qed.
Lemma final_file i ty bs : F !! i = Some (ty, bs) → len bs ≤ MAXFILE * BSIZE →
  file_ok 2 30 1 mkfs_sb (dk final) (inode_of (dk final) (Z.of_nat i + 1)).
Proof using Hinv.
  intros Hi Hmax. destruct (final_rep i ty bs Hi) as (Hr & Hf & Ht). pose proof (img_pos _ _ final_ok) as Hpos.
  pose proof (lookup_lt_Some _ _ _ Hi). pose proof (mi_count _ _ _ Hinv).
  pose proof (file_on_disk _ _ _ _ _ _ final_ok Ht Hmax Hr) as (Hino & _). rewrite <- Hf in Hino.
  split; [apply final_fs_ok|by eapply final_wf| |done| |..].
  - unfold inum_ok. rewrite Hf. cbn [i_inum]. change (sb_ninodes mkfs_sb) with NINODES. lia.
  - unfold synced, iblk. set (ip := inode_of _ _) in *. assert (i_inum ip = Z.of_nat i + 1) as -> by (by rewrite Hf).
    destruct (inode_place (Z.of_nat i + 1) ltac:(lia)) as (EB & _). unfold ip, inode_of. by rewrite EB.
  - rewrite Hf. cbn [i_size]. lia.
  - intros o Ho. rewrite Hf in Ho. cbn [i_size] in Ho.
    assert (o / BSIZE < nbk (len bs)) as Hb by (unfold nbk, BSIZE; Z.div_mod_to_equations; lia).
    assert (in_file (o / BSIZE)) as Hin by (unfold in_file; pose proof (fr_nb _ _ _ _ _ _ _ Hr); split; [apply Z.div_pos; unfold BSIZE; lia|lia]).
    by apply (rep_faddr _ _ Hpos _ _ _ _ _ _ Hr Hin).
Qed.
(** Every block below [freeblock] is in use. *)
Lemma final_cover k : nmeta ≤ k < fb → ∃ i, (i < length F)%nat ∧ owned 1 (dk final) (inode_of (dk final) (Z.of_nat i + 1)) k.
Proof using Hinv.
  intros Hk. destruct (places_cover (λ k u, own !! k = Some u ∧ owned 1 (dk final) (inode_of (dk final) u.1) k)
    (uses 1 F) nmeta fb) with (k := k) as (u & Hu & _ & Ho); try done.
  - intros a u [Ha _]. by apply (io_own _ _ (mi_img _ _ _ Hinv)) in Ha.
  - intros a u u' [E _] [E' _]. congruence.
  - apply NoDup_uses.
  - rewrite uses_length, (mi_fb _ _ _ Hinv). lia.
  - intros [j p] (i & [ty bs] & Hi & E & Hp)%elem_of_uses. cbn [fst snd] in *. subst j. destruct (final_rep i ty bs Hi) as (Hr & _).
    apply (place_owned _ _ _ _ _ _ (img_pos _ _ final_ok) Hr Hp).
  - apply elem_of_uses in Hu as (i & f & Hi & E & _). rewrite E in Ho. exists i. split; [by eapply lookup_lt_Some|done].
Qed.
Lemma final_image : Forall (λ f, len f.2 ≤ MAXFILE * BSIZE) F → image_ok (dk final) F.
Proof using Hinv.
  intros Hsz. pose proof (mi_count _ _ _ Hinv) as Hcnt. pose proof final_fb as Hfb. assert (nmeta = 59) as E59 by apply nmeta_eq.
  assert (∀ i k, (i < length F)%nat → owned 1 (dk final) (inode_of (dk final) (Z.of_nat i + 1)) k →
    ∃ p, own !! k = Some (Z.of_nat i + 1, p)) as Hown.
  { intros i k Hl Ho. apply lookup_lt_is_Some in Hl as [[ty bs] Hi]. destruct (final_rep i ty bs Hi) as (Hr & _). by eapply owned_own. }
  assert (dk final 1 2 = zero_block) as Ez by (rewrite final_block by lia; apply (mi_meta _ _ _ Hinv); lia).
  split.
  - rewrite final_block, (mi_sb _ _ _ Hinv) by lia. by vm_compute.
  - unfold log_ok. rewrite Ez. by vm_compute.
  - intros i ty bs Hi. cbv zeta. destruct (final_rep i ty bs Hi) as (Hr & Hf & _). pose proof (Forall_lookup_1 _ _ _ _ Hsz Hi) as Hm. cbn in Hm.
    split; [by eapply final_file|]. rewrite Hf at 1 2 3. split_and!; [done..|]. intros o Ho. rewrite (fr_bytes _ _ _ _ _ _ _ Hr) by (unfold in_bytes; lia).
    rewrite Nat2Z.id. apply lookup_lt_is_Some in Ho as [b Hb]. by rewrite Hb.
  - intros j Hj. rewrite final_inode by lia. by rewrite (mi_free _ _ _ Hinv) by done.
  - intros i i' k Hi Hi' H1 H2. destruct (Hown _ _ Hi H1) as [p Hp], (Hown _ _ Hi' H2) as [p' Hp']. rewrite Hp in Hp'. injection Hp'. lia.
  - intros k Hk. rewrite final_marked, Z.ltb_lt by done. split.
    + intros Hlt. destruct (decide (k < nmeta)); [by left|]. right. apply final_cover. lia.
    + intros [H|(i & Hi & Ho)]; [lia|]. destruct (Hown _ _ Hi Ho) as [p Hp]. apply (io_own _ _ (mi_img _ _ _ Hinv)) in Hp. cbn in Hp. lia.
Qed.
End Image.

(** Starting the log on such a disk finds nothing to install. *)
Lemma boot_image c F : image_ok c F → ∃ ls, initlog 1 (power_on c) = Ret (tt, ls) ∧
  idle 2 30 1 ls (LogThm.disk_of ls) (bc_trace (ls_bc ls)) ∧ ∀ k, LogThm.disk_of ls 1 k = c 1 k.
Proof.
  intros [Hsb [Hlog Hz] _ _ _ _]. destruct (initlog_ok 2 30 1 c) as (ls & E & Hd & Ht & Hi); [by vm_compute| |done|].
  { unfold LogThm.on_disk. by rewrite Hsb. }
  exists ls. split_and!; [done|done|]. intros k. rewrite Hd. unfold recovery_writes. rewrite Hz.
  change (writes c ([] ++ [(1, 2, zero_block)]) 1 k = c 1 k). cbn [app writes foldl].
  destruct (decide (k = 2)) as [->|Hn]; [by rewrite disk_write_eq|]. apply disk_write_ne. by intros [=].
Qed.

(** Claim C16: mkfs makes a consistent image.  For every list of files that
    fits (byte contents, names without a slash, at most the largest file size,
    enough inodes and blocks, and a root directory whose entries do not end
    exactly at the end of a block), it finishes, and the image it leaves is a
    disk the kernel can start from: the superblock is the one the kernel's
    geometry conditions hold of, the log is empty, the root directory with the
    entries and each file with its bytes are well-formed files of type
    directory and file, no block is used twice, and the bitmap marks exactly
    the blocks before the data blocks and the blocks some file uses.  A kernel
    that starts its log on the image finds nothing to install and leaves every
    block as it is. *)
Theorem mkfs_makes_file_system files : fits files →
  ∃ img, mkfs files = Ret img ∧ length img = Z.to_nat FSSIZE ∧ sb_ok 2 30 mkfs_sb ∧
    image_ok (disk_of img) (image_files files) ∧
    ∃ ls, initlog 1 (power_on (disk_of img)) = Ret (tt, ls) ∧
      idle 2 30 1 ls (LogThm.disk_of ls) (bc_trace (ls_bc ls)) ∧ ∀ k, LogThm.disk_of ls 1 k = disk_of img 1 k.
Proof.
  intros Hf. assert (wp False (main files) (λ _ s, length (mk_img s) = Z.to_nat FSSIZE ∧ image_ok (dk s) (image_files files)) (mkMk [] 1 0)) as H.
  { apply wp_main; [done|]. intros s own Hinv. split; [apply (final_ok s own _ Hinv)|]. apply (final_image s own _ Hinv).
    destruct Hf as [Hok Hcnt _ _]. constructor; [|apply Forall_fmap; eapply Forall_impl; [exact Hok|]; by intros f []].
    cbn [snd]. unfold root_bytes. rewrite length_app, length_replicate, (root_len files Hok), MAXFILE_eq.
    pose proof (root_len files Hok). unfold NINODES, BSIZE in *. Z.div_mod_to_equations. lia. }
  destruct (wp_ok _ _ _ H) as (r & s & E & Hl & Hi). exists (mk_img s). split_and!; [|exact Hl|exact wsb_ok|exact Hi|by eapply boot_image].
  exact (f_equal image_of E).
Qed.

(** _cat and README, the first read in two pieces. *)
Definition two_files : list host_file :=
  [mkHf [95; 99; 97; 116] [replicate 512 1; [2; 3]]; mkHf [82; 69; 65; 68; 77; 69] [[72; 105]]].
Definition host_okb (f : host_file) : bool :=
  let bytes := forallb (λ b, (0 <=? b) && (b <? 256)) in
  negb (existsb (Z.eqb slash) (hf_name f)) && bytes (hf_name f) && forallb bytes (hf_reads f) &&
  (len (concat (hf_reads f)) <=? MAXFILE * BSIZE).
Lemma host_okb_ok f : host_okb f = true → host_ok f.
Proof.
  assert (∀ l, forallb (λ b, (0 <=? b) && (b <? 256)) l = true → Forall byte_ok l) as Hb.
  { intros l H. apply Forall_forall. intros x Hx%list_elem_of_In. rewrite forallb_forall in H. apply H in Hx. bool_to_prop. unfold byte_ok. lia. }
  unfold host_okb. cbv zeta. rewrite !andb_true_iff, negb_true_iff, Z.leb_le. intros [[[H1 H2] H3] H4]. split; [|by apply Hb| |done].
  - intros Hx%list_elem_of_In. apply not_true_iff_false in H1. apply H1, existsb_exists. exists slash. by split; [|apply Z.eqb_refl].
  - apply Forall_forall. intros l Hl%list_elem_of_In. rewrite forallb_forall in H3. by apply Hb, H3.
Qed.
Lemma mkfs_makes_file_system_witness :
  ∃ img, mkfs two_files = Ret img ∧ length img = Z.to_nat FSSIZE ∧ sb_ok 2 30 mkfs_sb ∧
    image_ok (disk_of img) (image_files two_files) ∧
    ∃ ls, initlog 1 (power_on (disk_of img)) = Ret (tt, ls) ∧
      idle 2 30 1 ls (LogThm.disk_of ls) (bc_trace (ls_bc ls)) ∧ ∀ k, LogThm.disk_of ls 1 k = disk_of img 1 k.
Proof.
  apply (mkfs_makes_file_system two_files). split.
  - apply Forall_cons. split; [by apply host_okb_ok; vm_compute|]. apply Forall_singleton. by apply host_okb_ok; vm_compute.
  - done.
  - by vm_compute.
  - by vm_compute.
Defined.

(** With thirty files the entries end at the end of a block, and the size of
    the root directory counts a block it does not have. *)
Definition thirty_files : list host_file := replicate 30 (mkHf [97] []).
Definition root_of (r : outcome (list block)) : option (Z * Z * Z) :=
  match r with
  | Ret img => let c := disk_of img in let ip := inode_of c 1 in
      Some (i_size ip, faddr 1 c ip 0, faddr 1 c ip 1)
  | _ => None
  end.
Example root_directory_hole : root_of (mkfs thirty_files) = Some (1024, 59, 0).
Proof. by vm_compute. Qed.
