(* ===== verification/Grep.v ===== *)
(** * grep (grep.c)

    The matcher of grep, with the operators [^], [.], [*] and [$], against what
    patterns mean, and the loop that reads a file through a 1024-byte buffer,
    against the lines of the file.  Strings are lists of characters; reading
    past the end of one reads its terminating 0. *)
From S2P Require Import Prelude.

Open Scope Z_scope.

Definition ch (l : list Z) : Z := default 0 (head l).
Definition c_nl : Z := 10.
Definition c_caret : Z := 94.
Definition c_dot : Z := 46.
Definition c_star : Z := 42.
Definition c_dollar : Z := 36.

(** ** The matcher *)
(** [matchstar], on the [matchhere] of the rest of the pattern. *)
Fixpoint matchstar (c : Z) (matchhere_re : list Z → bool) (text : list Z) : bool :=
  if matchhere_re text then true
  else
    match text with
    | [] => false
    | t :: text' =>
        if negb (t =? 0) && ((t =? c) || (c =? c_dot)) then matchstar c matchhere_re text' else false
    end.
Fixpoint matchhere (re text : list Z) : bool :=
  match re with
  | [] => true
  | r0 :: re1 =>
      let one :=
        if (r0 =? c_dollar) && (ch re1 =? 0) then ch text =? 0
        else if negb (ch text =? 0) && ((r0 =? c_dot) || (r0 =? ch text)) then matchhere re1 (tail text)
        else false in
      if r0 =? 0 then true
      else
        match re1 with
        | r1 :: re2 => if r1 =? c_star then matchstar r0 (matchhere re2) text else one
        | [] => one
        end
  end.
(** [do if(matchhere(re, text)) return 1; while( *text++ != 0);] *)
Fixpoint match_any (re text : list Z) : bool :=
  if matchhere re text then true
  else
    match text with
    | [] => false
    | t :: text' => if t =? 0 then false else match_any re text'
    end.
Definition match_ (re text : list Z) : bool :=
  if ch re =? c_caret then matchhere (tail re) text else match_any re text.

(** ** The loop *)
Section Grep.
(** [read(fd, ., n)] on the state of a descriptor *)
Context {S : Type} (read : S → nat → list Z * S).
Context (pattern : list Z).

(** [strchr(p, '\n')]: the line, and what follows the newline. *)
Fixpoint cut_line (p : list Z) : option (list Z * list Z) :=
  match p with
  | [] => None
  | c :: p' =>
      if c =? 0 then None
      else if c =? c_nl then Some ([], p')
      else match cut_line p' with Some (l, rest) => Some (c :: l, rest) | None => None end
  end.
(** The inner loop: the output, and the bytes from the last [p] on. *)
Fixpoint grep_lines (fuel : nat) (p : list Z) : list Z * list Z :=
  match fuel with
  | O => ([], p)
  | Datatypes.S fuel =>
      match cut_line p with
      | None => ([], p)
      | Some (line, rest) =>
          let (out, last) := grep_lines fuel rest in
          ((if match_ pattern line then line ++ [c_nl] else []) ++ out, last)
      end
  end.
Definition BUF : nat := 1024.
(** The outer loop, with [m] bytes in the buffer. *)
Fixpoint grep_loop (fuel : nat) (m : list Z) (s : S) : outcome (list Z) :=
  match fuel with
  | O => Diverge
  | Datatypes.S fuel =>
      let (data, s) := read s (BUF - length m - 1) in
      match data with
      | [] => Ret []
      | _ =>
          let buf := m ++ data in
          let (out, p) := grep_lines (length buf) buf in
          let m := if (length p =? length buf)%nat then [] else p in
          let* rest := grep_loop fuel m s in
          Ret (out ++ rest)
      end
  end.
Definition grep (fuel : nat) (s : S) : outcome (list Z) := grep_loop fuel [] s.
End Grep.
(** Reads from a file: as many bytes as asked for, up to the end. *)
Definition file_read (s : list Z) (n : nat) : list Z * list Z := (take n s, drop n s).
(** Reads from a pipe whose writer writes a chunk at a time. *)
Definition pipe_read (s : list (list Z)) (n : nat) : list Z * list (list Z) :=
  match s with
  | [] => ([], [])
  | c :: s' => if (length c <=? n)%nat then (c, s') else (take n c, drop n c :: s')
  end.

(** ** What patterns mean *)
Inductive item := One (r : Z) | Star (r : Z).
(** The items of a pattern and whether it ends in [$]. *)
Fixpoint items (re : list Z) : list item * bool :=
  match re with
  | [] => ([], false)
  | r0 :: re1 =>
      let one := if (r0 =? c_dollar) && bool_decide (re1 = []) then ([], true)
                 else let (its, d) := items re1 in (One r0 :: its, d) in
      match re1 with
      | r1 :: re2 => if r1 =? c_star then let (its, d) := items re2 in (Star r0 :: its, d) else one
      | [] => one
      end
  end.
(** One character of a pattern matches a character. *)
Definition char_ok (r t : Z) : Prop := r = c_dot ∨ r = t.
(** The strings an item list denotes. *)
Fixpoint denotes (its : list item) (u : list Z) : Prop :=
  match its with
  | [] => u = []
  | One r :: its => ∃ t v, u = t :: v ∧ char_ok r t ∧ denotes its v
  | Star r :: its => ∃ a v, u = a ++ v ∧ Forall (char_ok r) a ∧ denotes its v
  end.
(** The pattern matches [text] from its beginning on. *)
Definition matches_here (re text : list Z) : Prop :=
  ∃ u v, text = u ++ v ∧ denotes (items re).1 u ∧ ((items re).2 = true → v = []).
(** The pattern matches somewhere in [text]. *)
Definition matches (re text : list Z) : Prop :=
  match re with
  | c :: re' => if c =? c_caret then matches_here re' text
                else ∃ x y, text = x ++ y ∧ matches_here re y
  | [] => True
  end.

(** ** Lemmas *)
Definition plain (l : list Z) : Prop := Forall (λ c, c ≠ 0) l.

Lemma matchstar_spec c m text : plain text →
  matchstar c m text = true ↔ ∃ a v, text = a ++ v ∧ Forall (char_ok c) a ∧ m v = true.
Proof.
  induction text as [|t text IH]; intros Hp; simpl.
  - destruct (m []) eqn:E; (split; [intros H|intros (a & v & Ha & _ & Hm)]); try done.
    + by exists [], [].
    + symmetry in Ha. apply app_nil in Ha as [-> ->]. congruence.
  - apply Forall_cons in Hp as [Ht Hp]. specialize (IH Hp). rewrite (proj2 (Z.eqb_neq t 0)) by done. simpl.
    destruct (m (t :: text)) eqn:E.
    { split; [|done]. intros _. by exists [], (t :: text). }
    assert ((t =? c) || (c =? c_dot) = true ↔ char_ok c t) as Hok.
    { unfold char_ok. rewrite orb_true_iff, !Z.eqb_eq. intuition congruence. }
    split.
    + intros H. destruct ((t =? c) || (c =? c_dot)); [|done]. apply IH in H as (a & v & -> & Ha & Hm).
      exists (t :: a), v. split_and!; [done|constructor; [by apply Hok|done]|done].
    + intros (a & v & Ha & Hf & Hm). destruct a as [|a0 a]; [simplify_eq/=; congruence|].
      simplify_eq/=. apply Forall_cons in Hf as [H0 Hf]. rewrite (proj2 Hok H0). apply IH. eauto.
Qed.

Lemma matches_here_nil text : matches_here [] text.
Proof. by exists [], text. Qed.
Lemma matches_here_star r re text :
  matches_here (r :: c_star :: re) text ↔ ∃ a v, text = a ++ v ∧ Forall (char_ok r) a ∧ matches_here re v.
Proof.
  unfold matches_here. simpl. destruct (items re) as [its d]. simpl. split.
  - intros (u & v & -> & (a & w & -> & Ha & Hd) & Hv). exists a, (w ++ v). rewrite app_assoc. eauto 10.
  - intros (a & v & -> & Ha & u & w & -> & Hd & Hv). exists (a ++ u), w. rewrite app_assoc. eauto 10.
Qed.
Lemma items_one r re : ch re ≠ c_star → ¬ (r = c_dollar ∧ re = []) →
  items (r :: re) = (One r :: (items re).1, (items re).2).
Proof.
  intros H1 H2. assert ((r =? c_dollar) && bool_decide (re = []) = false) as Hd.
  { apply andb_false_iff. destruct (Z.eqb_spec r c_dollar); [right|by left]. apply bool_decide_eq_false. tauto. }
  change (items (r :: re)) with (
    let one := if (r =? c_dollar) && bool_decide (re = []) then ([], true)
               else let (its, d) := items re in (One r :: its, d) in
    match re with
    | r1 :: re2 => if r1 =? c_star then let (its, d) := items re2 in (Star r :: its, d) else one
    | [] => one
    end). cbv zeta. rewrite Hd. destruct (items re) as [its d]. destruct re as [|r1 re]; [done|].
  by rewrite (proj2 (Z.eqb_neq r1 c_star)).
Qed.
Lemma matches_here_one r re text :
  ch re ≠ c_star → ¬ (r = c_dollar ∧ re = []) →
  matches_here (r :: re) text ↔ ∃ t v, text = t :: v ∧ char_ok r t ∧ matches_here re v.
Proof.
  intros H1 H2. unfold matches_here. rewrite items_one by done. simpl. split.
  - intros (u & v & -> & (t & w & -> & Hc & Hd) & Hv). exists t, (w ++ v). eauto 10.
  - intros (t & v & -> & Hc & u & w & -> & Hd & Hv). exists (t :: u), w. eauto 10.
Qed.
Lemma matches_here_dollar text : matches_here [c_dollar] text ↔ text = [].
Proof.
  unfold matches_here. simpl. split.
  - intros (u & v & -> & -> & Hv). by rewrite (Hv eq_refl).
  - intros ->. by exists [], [].
Qed.

Lemma ch_plain l : plain l → ch l = 0 ↔ l = [].
Proof. destruct l as [|c l]; [done|]. intros [Hc _]%Forall_cons. by split. Qed.
Lemma matchhere_spec n : ∀ re text, (length re ≤ n)%nat → plain re → plain text →
  matchhere re text = true ↔ matches_here re text.
Proof.
  induction n as [|n IH]; intros re text Hn Hre Htx.
  { destruct re; [|simpl in Hn; lia]. by split; [intros _; apply matches_here_nil|]. }
  destruct re as [|r0 re1]; [by split; [intros _; apply matches_here_nil|]|].
  apply Forall_cons in Hre as [Hr0 Hre]. simpl in Hn.
  cbn [matchhere]. rewrite (proj2 (Z.eqb_neq r0 0)) by done.
  destruct (decide (ch re1 = c_star)) as [Hst|Hst].
  { destruct re1 as [|r1 re2]; [done|]. change (r1 = c_star) in Hst. subst r1. rewrite Z.eqb_refl.
    apply Forall_cons in Hre as [_ Hre]. simpl in Hn. rewrite matchstar_spec, matches_here_star by done.
    split; intros (a & v & -> & Ha & Hv); exists a, v; (split_and!; [done|done|]);
      (apply IH; [lia|done|by apply Forall_app in Htx as []|done]). }
  destruct (decide (r0 = c_dollar ∧ re1 = [])) as [[-> ->]|Hd].
  { simpl. rewrite matches_here_dollar, Z.eqb_eq. by apply ch_plain. }
  replace ((r0 =? c_dollar) && (ch re1 =? 0)) with false.
  2:{ symmetry. apply andb_false_iff. destruct (Z.eqb_spec r0 c_dollar); [right|by left].
      apply Z.eqb_neq. rewrite ch_plain by done. tauto. }
  assert (negb (ch text =? 0) && ((r0 =? c_dot) || (r0 =? ch text)) = true ↔ ∃ t v, text = t :: v ∧ char_ok r0 t) as Hc.
  { destruct text as [|t v]; [split; [done|by intros (? & ? & ? & _)]|]. apply Forall_cons in Htx as [Ht _].
    change (ch (t :: v)) with t. rewrite (proj2 (Z.eqb_neq t 0)) by done. simpl. rewrite orb_true_iff, !Z.eqb_eq. unfold char_ok. split; [eauto|].
    intros (? & ? & [= <- <-] & ?). done. }
  transitivity ((if negb (ch text =? 0) && ((r0 =? c_dot) || (r0 =? ch text)) then matchhere re1 (tail text) else false) = true).
  { destruct re1 as [|r1 re2]; [done|]. by rewrite (proj2 (Z.eqb_neq r1 c_star)). }
  rewrite matches_here_one by done. destruct (negb _ && _).
  - destruct (proj1 Hc eq_refl) as (t & v & -> & Hok). apply Forall_cons in Htx as [_ Htx]. simpl.
    rewrite (IH re1 v) by (done || lia). split; [eauto|]. intros (? & ? & [= <- <-] & _ & ?). done.
  - split; [done|]. intros (t & v & -> & Hok & _). apply Hc. eauto.
Qed.

(** The matcher of grep is correct: for a pattern and a line
    without NUL characters, [match_] answers 1 exactly when the pattern, read
    as a regular expression with anchors at both ends, matches a substring of
    the line. *)
Lemma match_correct re text :
  plain re → plain text → match_ re text = true ↔ matches re text.
Proof.
  intros Hre Htx. assert (∀ re text, plain re → plain text → matchhere re text = true ↔ matches_here re text) as Hmh
    by (intros; by eapply matchhere_spec).
  assert (∀ text, plain text → match_any re text = true ↔ ∃ x y, text = x ++ y ∧ matches_here re y) as Hany.
  { clear text Htx. induction text as [|t text IH]; intros Hp; simpl; destruct (matchhere re _) eqn:E.
    - apply Hmh in E; [|done|done]. split; [|done]. intros _. by exists [], [].
    - split; [done|]. intros (x & y & Hxy & Hm). symmetry in Hxy. apply app_nil in Hxy as [-> ->].
      apply Hmh in Hm; [congruence|done|done].
    - apply Hmh in E; [|done|done]. split; [|done]. intros _. by exists [], (t :: text).
    - pose proof Hp as [Ht Hp']%Forall_cons. rewrite (proj2 (Z.eqb_neq t 0)), IH by done. split.
      + intros (x & y & -> & Hm). by exists (t :: x), y.
      + intros (x & y & Hxy & Hm). destruct x as [|x0 x]; simplify_eq/=; [|eauto].
        apply Hmh in Hm; [congruence|done|done]. }
  unfold match_, matches. destruct re as [|c re].
  - split; [done|]. intros _. apply Hany; [done|]. exists [], text. split; [done|apply matches_here_nil].
  - change (ch (c :: re)) with c. destruct (c =? c_caret); [|by apply Hany].
    apply Forall_cons in Hre as [_ Hre]. by apply Hmh.
Qed.
(** ** The lines of a file *)
Definition text_of (lines : list (list Z)) : list Z := concat (map (λ l, l ++ [c_nl]) lines).
Definition line_chars (l : list Z) : Prop := Forall (λ c, c ≠ 0 ∧ c ≠ c_nl) l.
(** A line that fits the buffer with its newline. *)
Definition line_ok (l : list Z) : Prop := line_chars l ∧ (length l + 1 < BUF)%nat.
Definition matching (pattern : list Z) (lines : list (list Z)) : list (list Z) :=
  List.filter (match_ pattern) lines.

Lemma cut_line_spec l rest : line_chars l → cut_line (l ++ c_nl :: rest) = Some (l, rest).
Proof.
  induction l as [|c l IH]; intros Hl; simpl; [done|]. apply Forall_cons in Hl as [[H0 Hn] Hl].
  by rewrite (proj2 (Z.eqb_neq c 0)), (proj2 (Z.eqb_neq c c_nl)), IH.
Qed.
Lemma cut_line_none p : line_chars p → cut_line p = None.
Proof.
  induction p as [|c p IH]; intros Hp; simpl; [done|]. apply Forall_cons in Hp as [[H0 Hn] Hp].
  by rewrite (proj2 (Z.eqb_neq c 0)), (proj2 (Z.eqb_neq c c_nl)), IH.
Qed.
Lemma text_of_cons l ls : text_of (l :: ls) = l ++ c_nl :: text_of ls.
Proof. unfold text_of. simpl. by rewrite <- app_assoc. Qed.
Lemma grep_lines_spec pattern ls p : ∀ fuel, (length ls ≤ fuel)%nat → Forall line_chars ls → line_chars p →
  grep_lines pattern fuel (text_of ls ++ p) = (text_of (matching pattern ls), p).
Proof.
  induction ls as [|l ls IH]; intros fuel Hf Hls Hp.
  - destruct fuel; simpl; [done|]. by rewrite cut_line_none.
  - destruct fuel as [|fuel]; [simpl in Hf; lia|]. apply Forall_cons in Hls as [Hl Hls]. cbn [grep_lines]. rewrite text_of_cons, <- app_assoc. simpl.
    rewrite cut_line_spec, IH by (done || simpl in Hf; lia). unfold matching. simpl.
    destruct (match_ pattern l); [|done]. by rewrite text_of_cons, <- app_assoc.
Qed.

(** A prefix of a text is some of its lines and a part of the next one. *)
Lemma text_split lines : ∀ k, Forall line_chars lines → ∃ ls rest p,
  lines = ls ++ rest ∧ take k (text_of lines) = text_of ls ++ p ∧ line_chars p ∧
  p ++ drop k (text_of lines) = text_of rest.
Proof.
  induction lines as [|l lines IH]; intros k Hl.
  { exists [], [], []. split_and!; destruct k; (done || constructor). }
  apply Forall_cons in Hl as [Hl Hls]. rewrite text_of_cons. destruct (decide (k ≤ length l)%nat) as [Hk|Hk].
  - exists [], (l :: lines), (take k l). rewrite text_of_cons, take_app_le, drop_app_le by done.
    split_and!; [done|done|by apply Forall_take|]. by rewrite app_assoc, take_drop.
  - destruct (IH (k - length l - 1)%nat Hls) as (ls & rest & p & -> & Ht & Hp & Hr).
    exists (l :: ls), rest, p. rewrite text_of_cons, <- !app_assoc. split_and!; [done| |done|].
    + rewrite take_app_ge by lia. f_equal. replace (k - length l)%nat with (S (k - length l - 1)) by lia.
      simpl. by rewrite Ht.
    + rewrite drop_app_ge by lia. replace (k - length l)%nat with (S (k - length l - 1)) by lia. done.
Qed.
Lemma text_has_nl l ls : ¬ line_chars (take (BUF - 1) (text_of (l :: ls))) ∨ ¬ line_ok l.
Proof.
  destruct (decide (length l + 1 < BUF)%nat) as [Hl|Hl]; [left|right; by intros [_ ?]].
  rewrite text_of_cons, take_app_ge by lia. replace (BUF - 1 - length l)%nat with (S (BUF - 2 - length l)) by lia.
  simpl. intros [_ H]%Forall_app. by apply Forall_cons in H as [[_ []] _].
Qed.
Lemma text_of_app l k : text_of (l ++ k) = text_of l ++ text_of k.
Proof. unfold text_of. by rewrite map_app, concat_app. Qed.
Lemma text_of_length ls : (length ls ≤ length (text_of ls))%nat.
Proof. induction ls as [|l ls IH]; [done|]. rewrite text_of_cons, length_app. simpl. lia. Qed.

Lemma grep_loop_file pattern fuel : ∀ m s lines,
  m ++ s = text_of lines → line_chars m → (length m + 1 < BUF)%nat → Forall line_ok lines →
  (length s < fuel)%nat →
  grep_loop file_read pattern fuel m s = Ret (text_of (matching pattern lines)).
Proof.
  induction fuel as [|fuel IH]; intros m s lines Hms Hm Hlm Hok Hf; [lia|].
  assert (Forall line_chars lines) as Hch by (eapply Forall_impl; [done|]; by intros l [? _]).
  cbn [grep_loop]. unfold file_read at 1.
  destruct s as [|c s'] eqn:Es.
  { rewrite take_nil. rewrite app_nil_r in Hms. destruct lines as [|l lines]; [done|]. exfalso.
    rewrite text_of_cons in Hms. rewrite Hms in Hm. apply Forall_app in Hm as [_ Hm].
    by apply Forall_cons in Hm as [[_ []] _]. }
  rewrite <- Es in *. assert (s ≠ []) as Hs by (by rewrite Es). clear Es c s'.
  set (k := (BUF - length m - 1)%nat). assert (0 < k)%nat as Hk by lia.
  destruct (take k s) as [|d0 d] eqn:Ed.
  { exfalso. destruct s; [done|]. by destruct k; [lia|]. }
  rewrite <- Ed. clear d0 d Ed.
  assert (m ++ take k s = take (BUF - 1) (text_of lines)) as Eb.
  { rewrite <- Hms, take_app_ge by lia. do 2 f_equal. lia. }
  assert (drop k s = drop (BUF - 1) (text_of lines)) as Ed.
  { rewrite <- Hms, drop_app_ge by lia. f_equal. lia. }
  destruct (text_split lines (BUF - 1) Hch) as (ls & rest & p & El & Et & Hp & Er).
  assert (ls ≠ []) as Hne.
  { intros ->. simpl in El. subst rest. destruct lines as [|l lines].
    - apply app_nil in Hms as [_ ?]. done.
    - destruct (text_has_nl l lines) as [H|H]; [rewrite Et in H; by apply H|].
      apply H. by apply Forall_cons in Hok as []. }
  rewrite Eb, Et. rewrite El in Hok, Hch. apply Forall_app in Hok as [Hok1 Hok2]. apply Forall_app in Hch as [Hch1 Hch2].
  assert (length p < length (text_of ls ++ p))%nat as Hlp.
  { rewrite length_app. pose proof (text_of_length ls). destruct ls; [done|simpl in *; lia]. }
  rewrite grep_lines_spec; [|rewrite length_app; pose proof (text_of_length ls); lia|done|done].
  rewrite (proj2 (Nat.eqb_neq _ _)) by lia. assert (length (text_of ls ++ p) ≤ BUF - 1)%nat as Hbl.
  { rewrite <- Et, length_take. lia. }
  rewrite (IH p (drop k s) rest); [|by rewrite Ed|done|lia|done|].
  2:{ rewrite length_drop. assert (0 < length s)%nat by (destruct s; [done|simpl; lia]). lia. }
  rewrite El. unfold matching. by rewrite List.filter_app, text_of_app.
Qed.

(** Claim C37: grep prints the matching lines.  On a file whose lines end in
    newlines, have no NUL characters and are at most 1022 characters long, the
    loop of grep terminates, and its output is exactly the lines its matcher
    accepts, in their order, however the lines fall on the 1023-byte reads;
    and the matcher accepts a line exactly when the pattern, read as a regular
    expression with anchors at both ends, matches a substring of it. *)
Theorem grep_prints_matching_lines pattern lines :
  plain pattern → Forall line_ok lines →
  grep file_read pattern (S (length (text_of lines))) (text_of lines) =
    Ret (text_of (List.filter (match_ pattern) lines)) ∧
  ∀ l, l ∈ lines → match_ pattern l = true ↔ matches pattern l.
Proof.
  intros Hp Hok. split.
  - unfold grep. apply grep_loop_file; [done|constructor|unfold BUF; simpl; lia|done|lia].
  - intros l Hl. apply match_correct; [done|]. rewrite Forall_forall in Hok.
    eapply Forall_impl; [apply (Hok l Hl)|]. by intros c [Hc _].
Qed.
Lemma grep_prints_matching_lines_witness :
  grep file_read [98] (S (length (text_of [[97; 98]; [99]; []; [98]]))) (text_of [[97; 98]; [99]; []; [98]]) =
    Ret (text_of [[97; 98]; [98]]) ∧ matches [98] [97; 98].
Proof.
  destruct (grep_prints_matching_lines [98] [[97; 98]; [99]; []; [98]]) as [H1 H2].
  - repeat constructor; lia.
  - repeat constructor; unfold c_nl, BUF; simpl; lia.
  - split; [exact H1|]. apply H2; [set_solver|by vm_compute].
Defined.
(** A line that arrives in two pieces is lost: a buffer without a newline is
    thrown away even when it is not full. *)
Example grep_loses_split_line :
  grep pipe_read [97] 5 [[97]; [98; 10]] = Ret [] ∧ grep file_read [97] 5 [97; 98; 10] = Ret [97; 98; 10].
Proof. by vm_compute. Qed.
