(* ===== verification/Printf.v ===== *)
(** * Formatted output (printint and cprintf of console.c, printf.c)

    The kernel prints with [cprintf], user programs with [printf]; both have
    their own [printint].  Output is the list of characters that are put out.
    The variable arguments are the words that follow the format on the stack,
    and [str] is the string a pointer argument points to. *)
From S2P Require Import Prelude.

Open Scope Z_scope.

Definition c_pct : Z := 37.
Definition c_minus : Z := 45.
Definition c_c : Z := 99.
Definition c_d : Z := 100.
Definition c_p : Z := 112.
Definition c_s : Z := 115.
Definition c_x : Z := 120.

(** [digits[]] of console.c and of printf.c *)
Definition lower_digits : list Z := [48; 49; 50; 51; 52; 53; 54; 55; 56; 57; 97; 98; 99; 100; 101; 102].
Definition upper_digits : list Z := [48; 49; 50; 51; 52; 53; 54; 55; 56; 57; 65; 66; 67; 68; 69; 70].

Section Printint.
Context (digits : list Z).

(** [do buf[i++] = digits[x % base]; while((x /= base) != 0);]: the digits in
    the order they are stored.  [room] is what is left of [buf]. *)
Fixpoint put_digits (room : nat) (x base : Z) : outcome (list Z) :=
  match room with
  | O => Undef "buf overflow"
  | S room =>
      match digits !! Z.to_nat (x mod base) with
      | None => Undef "digits index"
      | Some d =>
          if x / base =? 0 then Ret [d]
          else let* ds := put_digits room (x / base) base in Ret (d :: ds)
      end
  end.
(** [char buf[16]] *)
Definition printint (xx base : Z) (sgn : bool) : outcome (list Z) :=
  let neg := sgn && (xx <? 0) in
  let x := if neg then u32 (- xx) else u32 xx in
  let* ds := put_digits 16 x base in
  if neg then
    if (length ds <? 16)%nat then Ret (c_minus :: rev ds) else Undef "buf overflow"
  else Ret (rev ds).
End Printint.

(** The string printed for a pointer. *)
Definition null_string : list Z := [40; 110; 117; 108; 108; 41].
Section Format.
Context (str : Z → list Z).
Definition string_arg (p : Z) : list Z := if p =? 0 then null_string else str p.

(** [cprintf] from format [fmt] on, with [args] the words from [argp] on. *)
Fixpoint cprintf_loop (digits : list Z) (fmt : list Z) (args : nat → Z) (n : nat) : outcome (list Z) :=
  match fmt with
  | [] => Ret []
  | c :: fmt =>
      if negb (c =? c_pct) then let* r := cprintf_loop digits fmt args n in Ret (c :: r)
      else
        match fmt with
        | [] => Ret []
        | c :: fmt =>
            if c =? c_d then
              let* o := printint digits (i32 (args n)) 10 true in
              let* r := cprintf_loop digits fmt args (S n) in Ret (o ++ r)
            else if (c =? c_x) || (c =? c_p) then
              let* o := printint digits (i32 (args n)) 16 false in
              let* r := cprintf_loop digits fmt args (S n) in Ret (o ++ r)
            else if c =? c_s then
              let* r := cprintf_loop digits fmt args (S n) in Ret (string_arg (args n) ++ r)
            else if c =? c_pct then
              let* r := cprintf_loop digits fmt args n in Ret (c_pct :: r)
            else
              let* r := cprintf_loop digits fmt args n in Ret (c_pct :: c :: r)
        end
  end.
Definition cprintf (fmt : list Z) (args : nat → Z) : outcome (list Z) :=
  cprintf_loop lower_digits fmt args 0.

(** [printf] of printf.c: [state] is true after a percent sign. *)
Fixpoint printf_loop (digits : list Z) (state : bool) (fmt : list Z) (args : nat → Z) (n : nat) : outcome (list Z) :=
  match fmt with
  | [] => Ret []
  | c :: fmt =>
      if negb state then
        if c =? c_pct then printf_loop digits true fmt args n
        else let* r := printf_loop digits false fmt args n in Ret (c :: r)
      else if c =? c_d then
        let* o := printint digits (i32 (args n)) 10 true in
        let* r := printf_loop digits false fmt args (S n) in Ret (o ++ r)
      else if (c =? c_x) || (c =? c_p) then
        let* o := printint digits (i32 (args n)) 16 false in
        let* r := printf_loop digits false fmt args (S n) in Ret (o ++ r)
      else if c =? c_s then
        let* r := printf_loop digits false fmt args (S n) in Ret (string_arg (args n) ++ r)
      else if c =? c_c then
        let* r := printf_loop digits false fmt args (S n) in Ret (u8 (args n) :: r)
      else if c =? c_pct then
        let* r := printf_loop digits false fmt args n in Ret (c :: r)
      else
        let* r := printf_loop digits false fmt args n in Ret (c_pct :: c :: r)
  end.
Definition printf (fmt : list Z) (args : nat → Z) : outcome (list Z) :=
  printf_loop upper_digits false fmt args 0.
End Format.

(** ** Reading numbers back *)
Definition digit_value (c : Z) : Z :=
  if c <? 58 then c - 48 else if c <? 97 then c - 65 + 10 else c - 97 + 10.
(** The value of digits, least significant first. *)
Fixpoint value_lsf (base : Z) (ds : list Z) : Z :=
  match ds with [] => 0 | d :: ds => digit_value d + base * value_lsf base ds end.
(** The number a printed string stands for. *)
Definition read_number (base : Z) (s : list Z) : Z :=
  match s with
  | c :: s' => if c =? c_minus then - value_lsf base (rev s') else value_lsf base (rev s)
  | [] => 0
  end.
Definition good_digits (digits : list Z) : Prop :=
  ∀ i, 0 ≤ i < 16 → ∃ d, digits !! Z.to_nat i = Some d ∧ digit_value d = i ∧ d ≠ c_minus.

Lemma good_lower : good_digits lower_digits.
Proof.
  intros i Hi. assert (∃ k, (k < 16)%nat ∧ i = Z.of_nat k) as (k & Hk & ->) by (exists (Z.to_nat i); lia).
  rewrite Nat2Z.id. do 16 (destruct k as [|k]; [by eexists|]). lia.
Qed.
Lemma good_upper : good_digits upper_digits.
Proof.
  intros i Hi. assert (∃ k, (k < 16)%nat ∧ i = Z.of_nat k) as (k & Hk & ->) by (exists (Z.to_nat i); lia).
  rewrite Nat2Z.id. do 16 (destruct k as [|k]; [by eexists|]). lia.
Qed.

Lemma put_digits_spec digits base : good_digits digits → 2 ≤ base ≤ 16 → ∀ room x,
  0 ≤ x < base ^ Z.of_nat room → (0 < room)%nat →
  ∃ ds, put_digits digits room x base = Ret ds ∧ (0 < length ds ≤ room)%nat ∧ value_lsf base ds = x ∧
    Forall (λ d, d ≠ c_minus) ds.
Proof.
  intros Hg Hb. induction room as [|room IH]; intros x Hx Hr; [lia|]. cbn [put_digits].
  assert (0 ≤ x mod base < base) as Hm by (apply Z.mod_pos_bound; lia).
  destruct (Hg (x mod base)) as (d & -> & Hd & Hn); [lia|].
  pose proof (Z.div_mod x base ltac:(lia)) as Hdm. destruct (Z.eqb_spec (x / base) 0) as [E|E].
  - exists [d]. split_and!; simpl; [done|lia|lia|lia|by repeat constructor].
  - assert (0 < x / base) by (pose proof (Z.div_pos x base); lia).
    assert (x / base < base ^ Z.of_nat room) as Hlt.
    { apply Z.div_lt_upper_bound; [lia|]. rewrite Nat2Z.inj_succ, Z.pow_succ_r in Hx by lia. lia. }
    destruct (IH (x / base)) as (ds & -> & Hl & Hv & Hf); [lia| |].
    { destruct room; [simpl in Hlt; lia|lia]. }
    exists (d :: ds). split_and!; simpl; [done|lia|lia|lia|by constructor].
Qed.

Lemma put_digits_room digits base room : ∀ room' x ds, (room ≤ room')%nat →
  put_digits digits room x base = Ret ds → put_digits digits room' x base = Ret ds.
Proof.
  induction room as [|room IH]; intros room' x ds Hr E; [done|]. destruct room' as [|room']; [lia|].
  cbn [put_digits] in *. destruct (digits !! _) as [d|]; [|done]. destruct (_ =? 0); [done|].
  destruct (put_digits digits room (x / base) base) as [l| | |] eqn:El; try done.
  by rewrite (IH room' _ l) by (done || lia).
Qed.
Lemma read_number_rev base ds : (0 < length ds)%nat → Forall (λ d, d ≠ c_minus) ds →
  read_number base (rev ds) = value_lsf base ds.
Proof.
  intros Hl Hf. unfold read_number. destruct (rev ds) as [|c s] eqn:E.
  - apply (f_equal (@length Z)) in E. rewrite length_rev in E. simpl in E. lia.
  - rewrite (proj2 (Z.eqb_neq c c_minus)).
    + by rewrite <- E, rev_involutive.
    + rewrite Forall_forall in Hf. apply Hf, list_elem_of_In, in_rev. rewrite E. by left.
Qed.

(** Numbers are printed right.  [printint] of the kernel and of the
    C library, for every 32-bit value in base 10 and 16, signed or not, stays
    within its 16-byte buffer and its digit table, and prints a string of at
    most 11 characters that reads back as the value: the signed value for [sgn],
    otherwise the unsigned one.  This includes the smallest integer, whose
    negation is not an [int]. *)
Theorem printint_reads_back digits xx base sgn :
  digits = lower_digits ∨ digits = upper_digits → base = 10 ∨ base = 16 → - 2 ^ 31 ≤ xx < 2 ^ 31 →
  ∃ s, printint digits xx base sgn = Ret s ∧ (0 < length s ≤ 11)%nat ∧
    read_number base s = if (sgn : bool) then xx else u32 xx.
Proof.
  intros Hdig Hbase Hxx. assert (good_digits digits) as Hg by (destruct Hdig as [->| ->]; [apply good_lower|apply good_upper]).
  assert (∀ x, 0 ≤ x < 2 ^ 32 → ∃ ds, put_digits digits 16 x base = Ret ds ∧ (0 < length ds ≤ 10)%nat ∧
    value_lsf base ds = x ∧ Forall (λ d, d ≠ c_minus) ds) as Hpd.
  { intros x Hx.
    destruct (put_digits_spec digits base Hg ltac:(lia) 10 x) as (ds & E & Hl & Hv & Hf); [|lia|].
    { destruct Hbase as [-> | ->]; simpl; lia. }
    exists ds. split_and!; [|lia|lia|done|done]. eapply (put_digits_room digits base 10); [lia|done]. }
  assert (∀ v, 0 ≤ u32 v < 2 ^ 32) as Hu by (intros; apply Z.mod_pos_bound; lia).
  unfold printint. destruct (sgn && (xx <? 0)) eqn:E.
  - apply andb_true_iff in E as [-> E%Z.ltb_lt]. destruct (Hpd (u32 (- xx)) (Hu _)) as (ds & -> & Hl & Hv & Hf).
    rewrite (proj2 (Nat.ltb_lt _ _)) by lia. eexists. split; [done|]. split.
    + simpl. rewrite length_rev. lia.
    + simpl. rewrite rev_involutive, Hv, u32_small; [lia|]. unfold word_ok. lia.
  - destruct (Hpd (u32 xx) (Hu _)) as (ds & -> & Hl & Hv & Hf). eexists. split; [done|]. split.
    + rewrite length_rev. lia.
    + rewrite read_number_rev, Hv by (done || lia). destruct sgn; [|done]. simpl in E. apply Z.ltb_ge in E.
      apply u32_small. unfold word_ok. lia.
Qed.
Lemma printint_reads_back_witness :
  ∃ s, printint lower_digits (- 2 ^ 31) 10 true = Ret s ∧ (0 < length s ≤ 11)%nat ∧
    read_number 10 s = - 2 ^ 31.
Proof. apply (printint_reads_back lower_digits (- 2 ^ 31) 10 true); [by left|by left|lia]. Defined.

(** ** The two formatters *)
(** A format without [%c]. *)
Fixpoint no_pct_c (state : bool) (fmt : list Z) : bool :=
  match fmt with
  | [] => true
  | c :: fmt =>
      if state then negb (c =? c_c) && no_pct_c false fmt else no_pct_c (c =? c_pct) fmt
  end.
(** The two formatters agree.  The lookahead loop of [cprintf] and the
    state machine of [printf] produce the same output, or fail the same way,
    for every format without [%c], all arguments and all strings, with the
    same digit table: unknown directives, [%%] and a percent sign at the end
    of the format included. *)
Theorem formatters_agree str digits fmt args n :
  no_pct_c false fmt = true →
  printf_loop str digits false fmt args n = cprintf_loop str digits fmt args n.
Proof.
  revert n. induction (Nat.lt_wf_0_projected (@length Z) fmt) as [fmt _ IH]. intros n Hf.
  destruct fmt as [|c fmt]; [done|]. cbn [printf_loop cprintf_loop no_pct_c negb] in *.
  destruct (Z.eqb_spec c c_pct) as [->|Hc]; cbn [negb].
  2:{ rewrite IH; [done|simpl; lia|done]. }
  destruct fmt as [|d fmt]; [done|]. cbn [printf_loop no_pct_c negb] in *.
  apply andb_true_iff in Hf as [Hd Hf]. apply negb_true_iff in Hd.
  rewrite !IH by (done || simpl; lia). rewrite Hd.
  destruct (d =? c_d); [reflexivity|]. destruct ((d =? c_x) || (d =? c_p)); [reflexivity|].
  destruct (d =? c_s); [reflexivity|]. destruct (Z.eqb_spec d c_pct) as [->|]; reflexivity.
Qed.
Lemma formatters_agree_witness :
  printf_loop (λ _, []) lower_digits false [97; 37; 100; 37] (λ _, 7) 0 =
  cprintf_loop (λ _, []) lower_digits [97; 37; 100; 37] (λ _, 7) 0.
Proof. apply (formatters_agree (λ _, []) lower_digits [97; 37; 100; 37] (λ _, 7) 0). reflexivity. Defined.
(** [printf("pid %d: %x%%\n", -5, 255)] *)
Example printf_run :
  printf (λ _, []) [112; 37; 100; 58; 37; 120; 37; 37] (λ n, if (n =? 0)%nat then u32 (-5) else 255) =
  Ret [112; 45; 53; 58; 70; 70; 37].
Proof. by vm_compute. Qed.
