(* ===== verification/Console.v ===== *)
(** * The console (console.c)

    Input is edited and queued in a ring of [INPUT_BUF] characters with three
    counters: [r], [w] and [e], the read, write and edit index, which only grow
    and wrap around at 32 bits.  [consoleintr] and [consoleread] are given as
    their critical sections of [cons.lock].  The refinement theorem says that
    they implement a queue of finished input and a line being edited.  Output
    goes to the serial port and to the screen, whose memory and cursor are
    modelled. *)
From S2P Require Import Prelude Machine.

Open Scope Z_scope.

Definition INPUT_BUF : Z := 128.
Definition BACKSPACE : Z := 0x100.
(** [C(x)]: a control character *)
Definition C (x : Z) : Z := x - 64.
Definition c_nl : Z := 10.
Definition c_cr : Z := 13.
Definition c_del : Z := 127.

Record input := mkIn { in_buf : list Z; in_r : Z; in_w : Z; in_e : Z }.
Definition set_e (v : Z) (i : input) : input := mkIn (in_buf i) (in_r i) (in_w i) v.
Definition set_w (v : Z) (i : input) : input := mkIn (in_buf i) (in_r i) v (in_e i).
Definition set_r (v : Z) (i : input) : input := mkIn (in_buf i) v (in_w i) (in_e i).
Definition ring (k : Z) : nat := Z.to_nat (u32 k mod INPUT_BUF).
Definition buf_at (k : Z) (i : input) : Z := default 0 (in_buf i !! ring k).

(** ** consoleintr *)
(** The loop of Control-U: the number of characters erased is the number of
    backspaces put out. *)
Fixpoint kill_line (fuel : nat) (i : input) : outcome (input * list Z) :=
  if negb (in_e i =? in_w i) && negb (buf_at (in_e i - 1) i =? c_nl) then
    match fuel with
    | O => Diverge
    | S fuel =>
        let* (i, out) := kill_line fuel (set_e (u32 (in_e i - 1)) i) in
        Ret (i, BACKSPACE :: out)
    end
  else Ret (i, []).
(** One character of the loop: the new state, the characters put out, and
    whether readers are woken up. *)
Definition console_key (c : Z) (i : input) : outcome (input * list Z * bool) :=
  if c =? C 80 then Ret (i, [], false)
  else if c =? C 85 then
    let* (i, out) := kill_line (Z.to_nat INPUT_BUF) i in Ret (i, out, false)
  else if (c =? C 72) || (c =? c_del) then
    if negb (in_e i =? in_w i) then Ret (set_e (u32 (in_e i - 1)) i, [BACKSPACE], false)
    else Ret (i, [], false)
  else if negb (c =? 0) && (u32 (in_e i - in_r i) <? INPUT_BUF) then
    let c := if c =? c_cr then c_nl else c in
    let i := mkIn (<[ring (in_e i) := u8 c]> (in_buf i)) (in_r i) (in_w i) (u32 (in_e i + 1)) in
    if (c =? c_nl) || (c =? C 68) || (in_e i =? u32 (in_r i + INPUT_BUF)) then
      Ret (set_w (in_e i) i, [c], true)
    else Ret (i, [c], false)
  else Ret (i, [], false).
(** [while((c = getc()) >= 0)] on the characters that [getc] returns; the last
    result is [doprocdump]. *)
Fixpoint consoleintr (cs : list Z) (i : input) : outcome (input * list Z * bool * bool) :=
  match cs with
  | [] => Ret (i, [], false, false)
  | c :: cs =>
      if c <? 0 then Ret (i, [], false, false)
      else
        let* (i, out, woken) := console_key c i in
        let* (i, out', woken', dump) := consoleintr cs i in
        Ret (i, out ++ out', woken || woken', (c =? C 80) || dump)
  end.

(** ** consoleread *)
(** How a read leaves the lock: with its bytes, killed, or asleep with [n]
    bytes still wanted. *)
Inductive rres := RDone (data : list Z) | RKilled | RSleep (n : nat) (data : list Z).
(** [consoleread] of [n] more bytes, of [target], after the bytes [data]. *)
Fixpoint consoleread (killed : bool) (n target : nat) (data : list Z) (i : input) : rres * input :=
  match n with
  | O => (RDone data, i)
  | S n' =>
      if in_r i =? in_w i then
        if killed then (RKilled, i) else (RSleep n data, i)
      else
        let c := buf_at (in_r i) i in
        let i' := set_r (u32 (in_r i + 1)) i in
        if c =? C 68 then (RDone data, if (n <? target)%nat then i else i')
        else if c =? c_nl then (RDone (data ++ [c]), i')
        else consoleread killed n' target (data ++ [c]) i'
  end.

(** ** What the console promises *)
(** Input that can be read, and the line that is being edited. *)
Record tty := mkTty { t_ready : list Z; t_line : list Z }.
Definition tty_key (c : Z) (t : tty) : tty * list Z * bool :=
  if c =? C 80 then (t, [], false)
  else if c =? C 85 then
    (mkTty (t_ready t) [], replicate (length (t_line t)) BACKSPACE, false)
  else if (c =? C 72) || (c =? c_del) then
    match t_line t with
    | [] => (t, [], false)
    | _ => (mkTty (t_ready t) (removelast (t_line t)), [BACKSPACE], false)
    end
  else if negb (c =? 0) && (Z.of_nat (length (t_ready t) + length (t_line t)) <? INPUT_BUF) then
    let c := if c =? c_cr then c_nl else c in
    let l := t_line t ++ [u8 c] in
    if (c =? c_nl) || (c =? C 68) || (Z.of_nat (length (t_ready t) + length l) =? INPUT_BUF) then
      (mkTty (t_ready t ++ l) [], [c], true)
    else (mkTty (t_ready t) l, [c], false)
  else (t, [], false).
Fixpoint tty_read (killed : bool) (n target : nat) (data : list Z) (t : tty) : rres * tty :=
  match n with
  | O => (RDone data, t)
  | S n' =>
      match t_ready t with
      | [] => if killed then (RKilled, t) else (RSleep n data, t)
      | c :: q =>
          let t' := mkTty q (t_line t) in
          if c =? C 68 then (RDone data, if (n <? target)%nat then t else t')
          else if c =? c_nl then (RDone (data ++ [c]), t')
          else tty_read killed n' target (data ++ [c]) t'
      end
  end.
(** Keys and reads, in any order. *)
Inductive cop := CKey (c : Z) | CRead (killed : bool) (n target : nat) (data : list Z).
Inductive cresp := PKey (out : list Z) (woken : bool) | PRead (r : rres).
Definition console_op (o : cop) (i : input) : outcome (cresp * input) :=
  match o with
  | CKey c => let* (i, out, woken) := console_key c i in Ret (PKey out woken, i)
  | CRead killed n target data => let (r, i) := consoleread killed n target data i in Ret (PRead r, i)
  end.
Definition tty_op (o : cop) (t : tty) : cresp * tty :=
  match o with
  | CKey c => let '(t, out, woken) := tty_key c t in (PKey out woken, t)
  | CRead killed n target data => let (r, t) := tty_read killed n target data t in (PRead r, t)
  end.
Fixpoint console_run (os : list cop) (i : input) : outcome (list cresp * input) :=
  match os with
  | [] => Ret ([], i)
  | o :: os =>
      let* (r, i) := console_op o i in
      let* (rs, i) := console_run os i in
      Ret (r :: rs, i)
  end.
Fixpoint tty_run (os : list cop) (t : tty) : list cresp * tty :=
  match os with
  | [] => ([], t)
  | o :: os => let (r, t) := tty_op o t in let (rs, t) := tty_run os t in (r :: rs, t)
  end.

(** ** The screen *)
(** CGA memory as 16-bit cells, and the cursor of the controller. *)
Record cga := mkCga { cg_crt : list Z; cg_pos : Z }.
Definition CELLS : nat := Z.to_nat (25 * 80).
Definition set_cell (k v : Z) (crt : list Z) : outcome (list Z) :=
  if (0 <=? k) && (k <? Z.of_nat (length crt)) then Ret (<[Z.to_nat k := v]> crt)
  else Undef "write outside the screen".
Definition cgaputc (c : Z) (s : cga) : outcome cga :=
  let pos := cg_pos s in
  let* (crt, pos) :=
    (if c =? c_nl then Ret (cg_crt s, pos + (80 - pos mod 80))
     else if c =? BACKSPACE then Ret (cg_crt s, if 0 <? pos then pos - 1 else pos)
     else let* crt := set_cell pos (Z.lor (Z.land c 0xff) 0x0700) (cg_crt s) in Ret (crt, pos + 1)) in
  if (pos <? 0) || (25 * 80 <? pos) then Panic "pos under/overflow"
  else
    let '(crt, pos) :=
      (if 24 <=? pos / 80 then
         (* memmove of 23 rows up, then memset from the cursor to row 24 *)
         let crt := take (23 * 80) (drop 80 crt) ++ drop (23 * 80) crt in
         let pos := pos - 80 in
         (take (Z.to_nat pos) crt ++ replicate (Z.to_nat (24 * 80 - pos)) 0 ++ drop (24 * 80) crt, pos)
       else (crt, pos)) in
    let* crt := set_cell pos (Z.lor 32 0x0700) crt in
    Ret (mkCga crt pos).

(** ** Refinement *)
Lemma u32_off_inj r a b : 0 ≤ a < 2 ^ 32 → 0 ≤ b < 2 ^ 32 → u32 (r + a) = u32 (r + b) ↔ a = b.
Proof.
  intros Ha Hb. split; [|by intros ->]. unfold u32. intros E.
  assert ((a - b) mod 2 ^ 32 = 0) as Hz.
  { replace (a - b) with ((r + a) - (r + b)) by lia. rewrite Zminus_mod, E, Z.sub_diag. done. }
  apply Z.mod_divide in Hz as [q Hq]; lia.
Qed.
Lemma ring_mod k : ring k = Z.to_nat (k mod 128).
Proof.
  unfold ring, u32, INPUT_BUF. f_equal. symmetry. rewrite <- (Z.mod_mod (k mod 2 ^ 32) 128) by lia.
  rewrite Z.mod_mod by lia. rewrite (Z.div_mod k (2 ^ 32)) at 1 by lia.
  replace (2 ^ 32 * (k / 2 ^ 32) + k mod 2 ^ 32) with (k mod 2 ^ 32 + (2 ^ 25 * (k / 2 ^ 32)) * 128) by lia.
  by rewrite Z.mod_add by lia.
Qed.
Lemma ring_lt k : (ring k < 128)%nat.
Proof. rewrite ring_mod. pose proof (Z.mod_pos_bound k 128). lia. Qed.
Lemma ring_u32 k : ring (u32 k) = ring k.
Proof. unfold ring. f_equal. f_equal. unfold u32. apply Z.mod_mod. lia. Qed.
Lemma ring_ne r a b : 0 ≤ a < 128 → 0 ≤ b < 128 → a ≠ b → ring (r + a) ≠ ring (r + b).
Proof.
  intros Ha Hb Hne E. rewrite !ring_mod in E. apply Hne.
  assert (((r + a) - (r + b)) mod 128 = 0) as Hz.
  { pose proof (Z.mod_pos_bound (r + a) 128). pose proof (Z.mod_pos_bound (r + b) 128).
    rewrite Zminus_mod. replace ((r + a) mod 128) with ((r + b) mod 128) by lia. by rewrite Z.sub_diag. }
  apply Z.mod_divide in Hz as [q Hq]; lia.
Qed.

(** The characters of the ring, from the read index on. *)
Record in_rep (i : input) (t : tty) : Prop := {
  ir_len : length (in_buf i) = 128%nat;
  ir_r : word_ok (in_r i);
  ir_w : in_w i = u32 (in_r i + Z.of_nat (length (t_ready t)));
  ir_e : in_e i = u32 (in_r i + Z.of_nat (length (t_ready t ++ t_line t)));
  ir_max : (length (t_ready t ++ t_line t) ≤ 128)%nat;
  ir_data : ∀ (k : nat) c, (t_ready t ++ t_line t) !! k = Some c → in_buf i !! ring (in_r i + Z.of_nat k) = Some c;
  ir_line : Forall (λ c, c ≠ c_nl) (t_line t) }.

Section Rep.
Context (i : input) (t : tty).
Hypothesis R : in_rep i t.
Abbreviation len := (length (t_ready t ++ t_line t)).

Lemma rep_e_w : (in_e i =? in_w i) = bool_decide (t_line t = []).
Proof.
  pose proof (ir_max _ _ R) as Hm. rewrite (ir_e _ _ R), (ir_w _ _ R), length_app in *. apply eq_true_iff_eq.
  rewrite Z.eqb_eq, u32_off_inj, bool_decide_eq_true by lia. rewrite <- length_zero_iff_nil. lia.
Qed.
Lemma rep_r_w : (in_r i =? in_w i) = bool_decide (t_ready t = []).
Proof.
  pose proof (ir_max _ _ R) as Hm. rewrite length_app in Hm. pose proof (u32_small _ (ir_r _ _ R)) as Er.
  rewrite (ir_w _ _ R). apply eq_true_iff_eq. rewrite Z.eqb_eq, bool_decide_eq_true. rewrite <- Er at 1.
  rewrite <- (Z.add_0_r (in_r i)) at 1. rewrite u32_off_inj by lia. rewrite <- length_zero_iff_nil. lia.
Qed.
Lemma rep_used : u32 (in_e i - in_r i) = Z.of_nat len.
Proof.
  rewrite (ir_e _ _ R). pose proof (ir_max _ _ R). unfold u32. rewrite Zminus_mod_idemp_l.
  replace (in_r i + Z.of_nat len - in_r i) with (Z.of_nat len) by lia. apply Z.mod_small. lia.
Qed.
Lemma rep_full : (in_e i =? u32 (in_r i + INPUT_BUF)) = (Z.of_nat len =? INPUT_BUF).
Proof.
  rewrite (ir_e _ _ R). pose proof (ir_max _ _ R). apply eq_true_iff_eq.
  rewrite !Z.eqb_eq, u32_off_inj by (unfold INPUT_BUF; lia). done.
Qed.
(** The last character of the line. *)
Lemma rep_last c l : t_line t = l ++ [c] → buf_at (in_e i - 1) i = c ∧ c ≠ c_nl ∧
  in_rep (set_e (u32 (in_e i - 1)) i) (mkTty (t_ready t) l).
Proof.
  destruct R as [R1 R2 R3 R4 R5 R6 R7]. intros El. rewrite El in *. rewrite app_assoc, length_app in *. simpl in R4, R5.
  set (q := t_ready t ++ l) in *. assert (in_e i - 1 = u32 (in_r i + Z.of_nat (length q + 1)) - 1) as Ee by (by rewrite R4).
  assert (u32 (in_e i - 1) = u32 (in_r i + Z.of_nat (length q))) as Eu.
  { rewrite Ee. unfold u32. rewrite Zminus_mod_idemp_l. f_equal. lia. }
  split_and!.
  - unfold buf_at. replace (ring (in_e i - 1)) with (ring (in_r i + Z.of_nat (length q))).
    + rewrite (R6 (length q) c); [done|]. by rewrite lookup_app_r, Nat.sub_diag by lia.
    + rewrite <- (ring_u32 (in_e i - 1)), Eu, ring_u32. done.
  - by apply Forall_app in R7 as [_ [? _]%Forall_cons].
  - split; simpl; fold q; try done; [lia| |by apply Forall_app in R7 as []].
    intros k d Hk. apply R6. apply lookup_app_l_Some. done.
Qed.
End Rep.

Lemma kill_line_rep fuel : ∀ i t, in_rep i t → (length (t_line t) ≤ fuel)%nat →
  ∃ i', kill_line fuel i = Ret (i', replicate (length (t_line t)) BACKSPACE) ∧ in_rep i' (mkTty (t_ready t) []).
Proof.
  induction fuel as [|fuel IH]; intros i t R Hl.
  - assert (t_line t = []) as E by (apply length_zero_iff_nil; lia). exists i. simpl.
    rewrite (rep_e_w i t R), E. split; [done|]. destruct t as [q l]. simpl in *. by subst.
  - cbn [kill_line]. rewrite (rep_e_w i t R). destruct (t_line t) as [|c0 l0] eqn:E using rev_ind.
    + exists i. split; [done|]. destruct t as [q l]. simpl in *. by subst.
    + clear IHl0. destruct (rep_last i t R c0 l0 E) as (-> & Hc & R').
      rewrite bool_decide_eq_false_2 by (by destruct l0). rewrite (proj2 (Z.eqb_neq _ _)) by done. simpl.
      rewrite length_app in Hl. simpl in Hl.
      destruct (IH _ _ R') as (i' & Ei & Ri); [simpl; lia|]. simpl in Ei. rewrite Ei.
      exists i'. rewrite length_app, Nat.add_comm. done.
Qed.

Lemma u32_u32_add a b : u32 (u32 a + b) = u32 (a + b).
Proof. unfold u32. apply Zplus_mod_idemp_l. Qed.
Lemma ring_u32_add a b : ring (u32 a + b) = ring (a + b).
Proof. rewrite <- (ring_u32 (u32 a + b)), u32_u32_add. apply ring_u32. Qed.

Section Push.
Context (i : input) (t : tty) (c : Z).
Hypothesis R : in_rep i t.
Hypothesis Hc : byte_ok c.
Hypothesis Hroom : (length (t_ready t ++ t_line t) < 128)%nat.
Let q := t_ready t ++ t_line t ++ [c].
Let i' := mkIn (<[ring (in_e i) := c]> (in_buf i)) (in_r i) (in_w i) (u32 (in_e i + 1)).

Lemma push_e : in_e i' = u32 (in_r i + Z.of_nat (length q)).
Proof.
  simpl. rewrite (ir_e _ _ R), u32_u32_add. unfold q. rewrite !length_app. simpl. f_equal. lia.
Qed.
Lemma push_data (k : nat) d : q !! k = Some d → in_buf i' !! ring (in_r i + Z.of_nat k) = Some d.
Proof.
  unfold q. rewrite app_assoc. destruct R as [R1 R2 R3 R4 R5 R6 R7]. simpl.
  rewrite R4, ring_u32. intros Hk. destruct (decide (k = length (t_ready t ++ t_line t))) as [->|Hne].
  - rewrite lookup_app_r, Nat.sub_diag in Hk by lia. simplify_eq/=.
    rewrite list_lookup_insert_eq; [done|]. rewrite R1. apply ring_lt.
  - assert (k < length (t_ready t ++ t_line t))%nat.
    { apply lookup_lt_Some in Hk. rewrite length_app in Hk. simpl in Hk. lia. }
    rewrite lookup_app_l in Hk by done. rewrite list_lookup_insert_ne by (apply ring_ne; lia). by apply R6.
Qed.
Lemma push_line : c ≠ c_nl → in_rep i' (mkTty (t_ready t) (t_line t ++ [c])).
Proof.
  pose proof push_e as He. pose proof push_data as Hd. destruct R as [R1 R2 R3 R4 R5 R6 R7]. intros Hn. split; simpl; fold q; try done.
  - by rewrite length_insert.
  - unfold q. rewrite !length_app in *. simpl. lia.
  - apply Forall_app. split; [done|]. by repeat constructor.
Qed.
Lemma push_commit : in_rep (set_w (in_e i') i') (mkTty (t_ready t ++ t_line t ++ [c]) []).
Proof.
  pose proof push_e as He. pose proof push_data as Hd. destruct R as [R1 R2 R3 R4 R5 R6 R7].
  split; simpl; rewrite ?app_nil_r; fold q; try done.
  - by rewrite length_insert.
  - unfold q. rewrite !length_app in *. simpl. lia.
Qed.
End Push.

Lemma console_key_rep c i t : in_rep i t → byte_ok c →
  ∃ i', console_key c i = Ret (i', (tty_key c t).1.2, (tty_key c t).2) ∧ in_rep i' (tty_key c t).1.1.
Proof.
  intros R Hc. unfold console_key, tty_key. destruct (c =? C 80); [by exists i|]. destruct (c =? C 85).
  { destruct (kill_line_rep (Z.to_nat INPUT_BUF) i t R) as (i' & E & R').
    - pose proof (ir_max _ _ R) as Hm. rewrite length_app in Hm. unfold INPUT_BUF. lia.
    - rewrite E. by exists i'. }
  destruct ((c =? C 72) || (c =? c_del)).
  { rewrite (rep_e_w i t R). destruct (t_line t) as [|d l] eqn:E using rev_ind; [by exists i|]. clear IHl.
    destruct (rep_last i t R d l E) as (_ & _ & R'). rewrite bool_decide_eq_false_2 by (by destruct l). cbn [negb].
    destruct (l ++ [d]) as [|z l0] eqn:E2; [by destruct l|]. eexists. split; [done|]. cbn [fst snd].
    rewrite <- E2, removelast_last. exact R'. }
  rewrite (rep_used i t R), length_app. destruct (negb (c =? 0) && _) eqn:Eg; [|by exists i].
  apply andb_true_iff in Eg as [_ Hlt%Z.ltb_lt]. unfold INPUT_BUF in Hlt. rewrite <- length_app in Hlt.
  set (d := if c =? c_cr then c_nl else c). assert (byte_ok d) as Hd by (unfold d; case_match; [done|done]).
  assert (u8 d = d) as Eu by (unfold u8, byte_ok in *; apply Z.mod_small; lia). rewrite !Eu. simpl.
  pose proof (push_e i t d R ltac:(lia)) as He. simpl in He. rewrite He.
  assert ((u32 (in_r i + Z.of_nat (length (t_ready t ++ t_line t ++ [d]))) =? u32 (in_r i + INPUT_BUF)) =
    (Z.of_nat (length (t_ready t) + length (t_line t ++ [d])) =? INPUT_BUF)) as ->.
  { apply eq_true_iff_eq. rewrite !length_app in *. simpl in *. rewrite !Z.eqb_eq, u32_off_inj by (unfold INPUT_BUF; lia). lia. }
  destruct ((d =? c_nl) || (d =? C 68) || _) eqn:Ec; eexists; (split; [done|]).
  - rewrite <- He. simpl. apply push_commit; (done || lia).
  - rewrite <- He. apply push_line; (done || lia || (intros Ed; by rewrite Ed in Ec)).
Qed.

Lemma pop_rep i t c q : in_rep i t → t_ready t = c :: q →
  buf_at (in_r i) i = c ∧ in_rep (set_r (u32 (in_r i + 1)) i) (mkTty q (t_line t)).
Proof.
  intros [R1 R2 R3 R4 R5 R6 R7] E. rewrite E in *. simpl in *. split.
  - unfold buf_at. specialize (R6 0%nat c eq_refl). rewrite Z.add_0_r in R6. by rewrite R6.
  - split; simpl; try done.
    + apply Z.mod_pos_bound. lia.
    + rewrite R3, u32_u32_add. f_equal. lia.
    + rewrite R4, u32_u32_add. f_equal. lia.
    + lia.
    + intros k d Hk. rewrite ring_u32_add. specialize (R6 (S k) d Hk). rewrite <- R6. do 2 f_equal. lia.
Qed.
Lemma consoleread_rep killed n : ∀ target data i t, in_rep i t →
  (consoleread killed n target data i).1 = (tty_read killed n target data t).1 ∧
  in_rep (consoleread killed n target data i).2 (tty_read killed n target data t).2.
Proof.
  induction n as [|n IH]; intros target data i t R; cbn [consoleread tty_read]; [done|].
  rewrite (rep_r_w i t R). destruct (t_ready t) as [|c q] eqn:E.
  - rewrite bool_decide_eq_true_2 by done. by destruct killed.
  - rewrite bool_decide_eq_false_2 by done. destruct (pop_rep i t c q R E) as [-> R'].
    destruct (c =? C 68); [by destruct (_ <? _)%nat|]. destruct (c =? c_nl); [done|]. by apply IH.
Qed.

Definition in0 : input := mkIn (replicate 128 0) 0 0 0.
Definition tty0 : tty := mkTty [] [].
Definition key_ok (o : cop) : Prop := match o with CKey c => byte_ok c | CRead _ _ _ _ => True end.
Lemma in0_rep : in_rep in0 tty0.
Proof. split; simpl; try done. lia. Qed.

(** Claim C35: the console is a line-edited queue.  Any sequence of keys
    and reads, starting from the empty console, runs without undefined
    behaviour and gives the same replies as the queue: the same echo, the same
    wakeups, and for each read the same bytes, end of file or wait, with
    lines handed over at a newline, at Control-D or when the buffer is full,
    whatever has been erased before, and across wrap-around of the indices. *)
Theorem console_refines_tty os :
  Forall key_ok os →
  ∃ i, console_run os in0 = Ret ((tty_run os tty0).1, i) ∧ in_rep i (tty_run os tty0).2.
Proof.
  pose proof in0_rep as R. revert R. generalize in0, tty0. induction os as [|o os IH]; intros i t R Hk; simpl; [by exists i|].
  apply Forall_cons in Hk as [Hk Hks]. destruct o as [c|killed n target data]; simpl.
  - destruct (console_key_rep c i t R Hk) as (i' & -> & R'). destruct (tty_key c t) as [[t' out] woken]. simpl in *.
    destruct (IH i' t' R' Hks) as (i2 & -> & R2). destruct (tty_run os t') as [rs t2]. simpl in *. by exists i2.
  - destruct (consoleread_rep killed n target data i t R) as [E R'].
    destruct (consoleread killed n target data i) as [r i'], (tty_read killed n target data t) as [r' t']. simpl in *. subst r'.
    destruct (IH i' t' R' Hks) as (i2 & -> & R2). destruct (tty_run os t') as [rs t2]. simpl in *. by exists i2.
Qed.
(** "ab", a backspace, "c" and return, then a read: "ac" and a newline. *)
Definition wkeys : list cop := [CKey 97; CKey 98; CKey 8; CKey 99; CKey 13; CRead false 10 10 []].
Lemma console_refines_tty_witness :
  ∃ i, console_run wkeys in0 = Ret ((tty_run wkeys tty0).1, i) ∧ in_rep i (tty_run wkeys tty0).2.
Proof. apply (console_refines_tty wkeys). repeat constructor; unfold byte_ok; simpl; lia. Defined.
Example console_run_keys :
  (tty_run wkeys tty0).1 = [PKey [97] false; PKey [98] false; PKey [BACKSPACE] false; PKey [99] false;
    PKey [10] true; PRead (RDone [97; 99; 10])].
Proof. by vm_compute. Qed.

(** ** The screen *)
(** [consputc] on the serial output and the screen, before a panic: serial
    terminals erase by going back, writing a space and going back again. *)
Definition consputc (c : Z) (s : list Z * cga) : outcome (list Z * cga) :=
  let* g := cgaputc c s.2 in
  Ret (s.1 ++ (if c =? BACKSPACE then [8; 32; 8] else [u8 c]), g).
Fixpoint consputs (cs : list Z) (s : list Z * cga) : outcome (list Z * cga) :=
  match cs with
  | [] => Ret s
  | c :: cs => let* s := consputc c s in consputs cs s
  end.

Definition on_screen (g : cga) : Prop := length (cg_crt g) = CELLS ∧ 0 ≤ cg_pos g < 24 * 80.
Lemma set_cell_ok k v crt : length crt = CELLS → 0 ≤ k < 25 * 80 → set_cell k v crt = Ret (<[Z.to_nat k := v]> crt).
Proof.
  intros Hl Hk. unfold set_cell. rewrite Hl. change (Z.of_nat CELLS) with (25 * 80).
  by rewrite (proj2 (Z.leb_le 0 k)), (proj2 (Z.ltb_lt k _)) by lia.
Qed.
(** Scrolling keeps the size and moves the rows up. *)
Definition scrolled (pos : Z) (crt : list Z) : list Z :=
  let crt := take (23 * 80) (drop 80 crt) ++ drop (23 * 80) crt in
  take (Z.to_nat pos) crt ++ replicate (Z.to_nat (24 * 80 - pos)) 0 ++ drop (24 * 80) crt.
Lemma scrolled_length pos crt : length crt = CELLS → 0 ≤ pos ≤ 24 * 80 → length (scrolled pos crt) = CELLS.
Proof.
  intros Hl Hp. assert (length crt = 2000)%nat as Hl' by exact Hl. change CELLS with 2000%nat. unfold scrolled.
  cbv zeta. repeat rewrite ?length_app, ?length_take, ?length_drop, ?length_replicate. lia.
Qed.
Lemma scrolled_lookup pos crt k : length crt = CELLS → 0 ≤ pos ≤ 23 * 80 → (k < Z.to_nat pos)%nat →
  scrolled pos crt !! k = crt !! (k + 80)%nat.
Proof.
  intros Hl Hp Hk. assert (length crt = 2000)%nat as Hl' by exact Hl. unfold scrolled. cbv zeta.
  rewrite lookup_app_l by (repeat rewrite ?length_take, ?length_app, ?length_drop; lia).
  rewrite lookup_take_lt by lia. rewrite lookup_app_l by (repeat rewrite ?length_take, ?length_drop; lia).
  rewrite lookup_take_lt, lookup_drop by lia. f_equal. lia.
Qed.

(** The screen after a character: the character, row by row. *)
Definition shows (g : cga) (k : Z) (v : Z) : Prop := cg_crt g !! Z.to_nat k = Some v.
Lemma cgaputc_on_screen c g : on_screen g →
  ∃ g', cgaputc c g = Ret g' ∧ on_screen g' ∧
    (c ≠ c_nl → c ≠ BACKSPACE →
     shows g' (if cg_pos g + 1 =? 24 * 80 then cg_pos g - 80 else cg_pos g) (Z.lor (Z.land c 0xff) 0x0700)).
Proof.
  destruct g as [crt pos]. intros [Hl Hp]. simpl in Hl, Hp. assert (length crt = 2000)%nat as Hl' by exact Hl.
  unfold cgaputc. cbn [cg_crt cg_pos].
  set (v := Z.lor (Z.land c 0xff) 0x0700).
  assert (∃ crt1 pos1, (if c =? c_nl then Ret (crt, pos + (80 - pos mod 80))
     else if c =? BACKSPACE then Ret (crt, if 0 <? pos then pos - 1 else pos)
     else let* crt := set_cell pos v crt in Ret (crt, pos + 1)) = Ret (crt1, pos1) ∧
     length crt1 = CELLS ∧ 0 ≤ pos1 ≤ 24 * 80 ∧
     (c ≠ c_nl → c ≠ BACKSPACE → pos1 = pos + 1 ∧ crt1 !! Z.to_nat pos = Some v)) as (crt1 & pos1 & -> & Hl1 & Hp1 & Hv).
  { destruct (Z.eqb_spec c c_nl).
    - eexists _, _. split; [done|]. split_and!; [done| | |done]; Z.div_mod_to_equations; lia.
    - destruct (Z.eqb_spec c BACKSPACE).
      + eexists _, _. split; [done|]. destruct (Z.ltb_spec 0 pos); (split_and!; [done|lia|lia|done]).
      + rewrite set_cell_ok by (done || lia). eexists _, _. split; [done|].
        split_and!; [by rewrite length_insert|lia|lia|]. intros _ _. split; [done|].
        apply list_lookup_insert_eq. lia. }
  rewrite (proj2 (Z.ltb_ge pos1 0)), (proj2 (Z.ltb_ge (25 * 80) pos1)) by lia. simpl orb. cbv iota.
  destruct (Z.leb_spec 24 (pos1 / 80)) as [Hs|Hs].
  - assert (pos1 = 24 * 80) as -> by (Z.div_mod_to_equations; lia). change (24 * 80 - 80) with (23 * 80).
    fold (scrolled (23 * 80) crt1). pose proof (scrolled_length (23 * 80) crt1 Hl1 ltac:(lia)) as Hls.
    rewrite set_cell_ok by (done || lia). eexists. split; [done|]. split; [split; simpl; [by rewrite length_insert|lia]|].
    intros Hn Hb. destruct (Hv Hn Hb) as [Hpos Hc]. rewrite (proj2 (Z.eqb_eq _ _)) by lia. unfold shows. simpl.
    rewrite list_lookup_insert_ne by lia. rewrite scrolled_lookup by (done || lia). rewrite <- Hc. f_equal. lia.
  - assert (pos1 < 24 * 80) by (Z.div_mod_to_equations; lia).
    rewrite set_cell_ok by (done || lia). eexists. split; [done|]. split; [split; simpl; [by rewrite length_insert|lia]|].
    intros Hn Hb. destruct (Hv Hn Hb) as [Hpos Hc]. rewrite (proj2 (Z.eqb_neq _ _)) by lia. unfold shows. simpl.
    rewrite list_lookup_insert_ne by lia. done.
Qed.

(** Console output stays on the screen.  From a cursor on the first
    24 rows, any sequence of characters, newlines and backspaces is put out
    without panic and without a write outside the 25x80 cells of CGA memory,
    and leaves the cursor on the first 24 rows; an ordinary character is then
    shown at the place of the cursor, one row up when the screen scrolled. *)
Theorem console_output_on_screen cs c out g :
  on_screen g →
  ∃ out' g', consputs cs (out, g) = Ret (out', g') ∧ on_screen g' ∧
    ∃ g2, cgaputc c g' = Ret g2 ∧ on_screen g2 ∧
      (c ≠ c_nl → c ≠ BACKSPACE →
       shows g2 (if cg_pos g' + 1 =? 24 * 80 then cg_pos g' - 80 else cg_pos g') (Z.lor (Z.land c 0xff) 0x0700)).
Proof.
  revert out g. induction cs as [|d cs IH]; intros out g Hg; simpl.
  - exists out, g. split; [done|]. split; [done|]. by apply cgaputc_on_screen.
  - destruct (cgaputc_on_screen d g Hg) as (g1 & E & Hg1 & _). unfold consputc. cbn [fst snd]. rewrite E.
    by apply IH.
Qed.
Definition blank : cga := mkCga (replicate CELLS 0) 1919.
Lemma console_output_on_screen_witness :
  ∃ out' g', consputs [72; 10; BACKSPACE] ([], blank) = Ret (out', g') ∧ on_screen g' ∧
    ∃ g2, cgaputc 105 g' = Ret g2 ∧ on_screen g2 ∧
      (105 ≠ c_nl → 105 ≠ BACKSPACE →
       shows g2 (if cg_pos g' + 1 =? 24 * 80 then cg_pos g' - 80 else cg_pos g') (Z.lor (Z.land 105 0xff) 0x0700)).
Proof. apply (console_output_on_screen [72; 10; BACKSPACE] 105 [] blank). split; [done|simpl; lia]. Defined.
