(* ===== verification/Kbd.v ===== *)
(** * The keyboard (kbd.c, kbd.h)

    [kbdgetc] turns scan codes into characters; its state is the word [shift]
    of the modifier keys and the pending escape. *)
From S2P Require Import Prelude.

Open Scope Z_scope.

(** ** Constants and tables of kbd.h *)
Definition KBS_DIB : Z := 0x01.
Definition SHIFT : Z := Z.shiftl 1 0.
Definition CTL : Z := Z.shiftl 1 1.
Definition ALT : Z := Z.shiftl 1 2.
Definition CAPSLOCK : Z := Z.shiftl 1 3.
Definition NUMLOCK : Z := Z.shiftl 1 4.
Definition SCROLLLOCK : Z := Z.shiftl 1 5.
Definition E0ESC : Z := Z.shiftl 1 6.
Definition KEY_HOME : Z := 0xE0.
Definition KEY_END : Z := 0xE1.
Definition KEY_UP : Z := 0xE2.
Definition KEY_DN : Z := 0xE3.
Definition KEY_LF : Z := 0xE4.
Definition KEY_RT : Z := 0xE5.
Definition KEY_PGUP : Z := 0xE6.
Definition KEY_PGDN : Z := 0xE7.
Definition KEY_INS : Z := 0xE8.
Definition KEY_DEL : Z := 0xE9.

(** An array of 256 unsigned characters: the listed ones, then the designated
    ones. *)
Definition table (first : list Z) (rest : list (Z * Z)) : list Z :=
  u8 <$> fold_left (λ t e, <[Z.to_nat e.1 := e.2]> t) rest (first ++ replicate (256 - length first) 0).
Definition shiftcode : list Z :=
  table [] [(0x1D, CTL); (0x2A, SHIFT); (0x36, SHIFT); (0x38, ALT); (0x9D, CTL); (0xB8, ALT)].
Definition togglecode : list Z :=
  table [] [(0x3A, CAPSLOCK); (0x45, NUMLOCK); (0x46, SCROLLLOCK)].
(** The keys after the keypad's Enter and slash, the same in all maps. *)
Definition cursor_keys : list (Z * Z) :=
    [(0xC8, KEY_UP); (0xD0, KEY_DN); (0xC9, KEY_PGUP); (0xD1, KEY_PGDN); (0xCB, KEY_LF); (0xCD, KEY_RT);
     (0x97, KEY_HOME); (0xCF, KEY_END); (0xD2, KEY_INS); (0xD3, KEY_DEL)].
Definition normalmap : list Z :=
  table
    [0; 27; 49; 50; 51; 52; 53; 54; 55; 56; 57; 48; 45; 61; 8; 9;
     113; 119; 101; 114; 116; 121; 117; 105; 111; 112; 91; 93; 10; 0; 97; 115;
     100; 102; 103; 104; 106; 107; 108; 59; 39; 96; 0; 92; 122; 120; 99; 118;
     98; 110; 109; 44; 46; 47; 0; 42; 0; 32; 0; 0; 0; 0; 0; 0;
     0; 0; 0; 0; 0; 0; 0; 55; 56; 57; 45; 52; 53; 54; 43; 49;
     50; 51; 48; 46; 0; 0; 0; 0]
    ((0x9C, 10) :: (0xB5, 47) :: cursor_keys).
Definition shiftmap : list Z :=
  table
    [0; 27; 33; 64; 35; 36; 37; 94; 38; 42; 40; 41; 95; 43; 8; 9;
     81; 87; 69; 82; 84; 89; 85; 73; 79; 80; 123; 125; 10; 0; 65; 83;
     68; 70; 71; 72; 74; 75; 76; 58; 34; 126; 0; 124; 90; 88; 67; 86;
     66; 78; 77; 60; 62; 63; 0; 42; 0; 32; 0; 0; 0; 0; 0; 0;
     0; 0; 0; 0; 0; 0; 0; 55; 56; 57; 45; 52; 53; 54; 43; 49;
     50; 51; 48; 46; 0; 0; 0; 0]
    ((0x9C, 10) :: (0xB5, 47) :: cursor_keys).
Definition ctlmap : list Z :=
  table
    [0; 0; 0; 0; 0; 0; 0; 0; 0; 0; 0; 0; 0; 0; 0; 0;
     17; 23; 5; 18; 20; 25; 21; 9; 15; 16; 0; 0; 13; 0; 1; 19;
     4; 6; 7; 8; 10; 11; 12; 0; 0; 0; 0; 28; 26; 24; 3; 22;
     2; 14; 13; 0; 0; -17; 0; 0]
    ((0x9C, 13) :: (0xB5, -17) :: cursor_keys).

Definition at_ (t : list Z) (k : Z) : outcome Z :=
  match t !! Z.to_nat k with Some v => Ret v | None => Undef "table index" end.
(** [charcode[]] *)
Definition charcode : list (list Z) := [normalmap; shiftmap; ctlmap; ctlmap].

(** [kbdgetc] with the status and data that are read from the controller: the
    result and the new [shift]. *)
Definition kbdgetc (st data shift : Z) : outcome (Z * Z) :=
  if Z.land st KBS_DIB =? 0 then Ret (-1, shift)
  else if data =? 0xE0 then Ret (0, Z.lor shift E0ESC)
  else if truth (Z.land data 0x80) then
    let data := if truth (Z.land shift E0ESC) then data else Z.land data 0x7F in
    let* code := at_ shiftcode data in
    Ret (0, Z.land shift (Z.lnot (Z.lor code E0ESC)))
  else
    let '(data, shift) :=
      if truth (Z.land shift E0ESC) then (Z.lor data 0x80, Z.land shift (Z.lnot E0ESC)) else (data, shift) in
    let* code := at_ shiftcode data in
    let* toggle := at_ togglecode data in
    let shift := Z.lxor (Z.lor shift code) toggle in
    match charcode !! Z.to_nat (Z.land shift (Z.lor CTL SHIFT)) with
    | None => Undef "charcode index"
    | Some map =>
        let* c := at_ map data in
        let c :=
          if truth (Z.land shift CAPSLOCK) then
            if (97 <=? c) && (c <=? 122) then c + (65 - 97)
            else if (65 <=? c) && (c <=? 90) then c + (97 - 65)
            else c
          else c in
        Ret (c, shift)
    end.
(** The characters of a sequence of scan codes. *)
Fixpoint kbd_run (codes : list Z) (shift : Z) : outcome (list Z * Z) :=
  match codes with
  | [] => Ret ([], shift)
  | d :: codes =>
      let* (c, shift) := kbdgetc 1 d shift in
      let* (cs, shift) := kbd_run codes shift in
      Ret (c :: cs, shift)
  end.

(** ** Theorems *)
Definition kbd_ok (r : outcome (Z * Z)) : bool :=
  match r with
  | Ret (c, shift) => (0 <=? c) && (c <? 256) && (0 <=? shift) && (shift <? 128)
  | _ => false
  end.
(** All states and scan codes. *)
Lemma kbdgetc_all :
  forallb (λ shift, forallb (λ data, kbd_ok (kbdgetc 1 (Z.of_nat data) (Z.of_nat shift))) (seq 0 256)) (seq 0 128) = true.
Proof. by vm_compute. Qed.
Lemma kbdgetc_ok data shift : byte_ok data → 0 ≤ shift < 128 → kbd_ok (kbdgetc 1 data shift) = true.
Proof.
  intros Hd Hs. pose proof kbdgetc_all as H. rewrite forallb_forall in H. specialize (H (Z.to_nat shift)).
  rewrite forallb_forall in H. specialize (H ltac:(apply in_seq; lia) (Z.to_nat data)). unfold byte_ok in Hd.
  rewrite !Z2Nat.id in H by lia. apply H, in_seq. lia.
Qed.
(** Pressing and releasing a key: the modifiers it leaves, for a key that is
    neither a modifier nor a lock. *)
Definition plain_key (k : Z) : bool :=
  match at_ shiftcode k, at_ togglecode k with Ret 0, Ret 0 => true | _, _ => false end.
Definition press_release (k shift : Z) : bool :=
  match kbd_run [k; Z.lor k 0x80] shift with
  | Ret ([_; r], shift') => (r =? 0) && (shift' =? shift)
  | _ => false
  end.
Lemma press_release_all :
  forallb (λ shift, forallb (λ k, negb (plain_key (Z.of_nat k)) || press_release (Z.of_nat k) (Z.of_nat shift))
    (seq 0 96)) (seq 0 64) = true.
Proof. by vm_compute. Qed.

(** Scan codes are decoded safely.  For every sequence of bytes from
    the keyboard, every state of the modifiers, [kbdgetc] reads its five tables
    only inside their 256 entries, returns characters between 0 and 255, and
    keeps its modifier word within its seven bits; and pressing and releasing
    a key that is neither a modifier nor a lock leaves the modifiers as they
    were. *)
Theorem keyboard_decodes codes shift k :
  Forall byte_ok codes → 0 ≤ shift < 128 →
  (∃ cs shift', kbd_run codes shift = Ret (cs, shift') ∧ Forall byte_ok cs ∧ 0 ≤ shift' < 128) ∧
  (0 ≤ k < 96 → shift < 64 → plain_key k = true →
   ∃ c, kbd_run [k; Z.lor k 0x80] shift = Ret ([c; 0], shift)).
Proof.
  intros Hc Hs. split.
  - revert shift Hs. induction codes as [|d codes IH]; intros shift Hs; cbn [kbd_run]; [by exists [], shift|].
    apply Forall_cons in Hc as [Hd Hc]. pose proof (kbdgetc_ok d shift Hd Hs) as Hk.
    destruct (kbdgetc 1 d shift) as [[c shift1]| | |]; try done. unfold kbd_ok in Hk. bool_to_prop.
    destruct (IH Hc shift1) as (cs & shift2 & -> & Hcs & Hs2); [lia|].
    eexists _, _. split; [done|]. split; [|done]. constructor; [unfold byte_ok; lia|done].
  - intros Hk Hs64 Hp. pose proof press_release_all as H. rewrite forallb_forall in H.
    specialize (H (Z.to_nat shift) ltac:(apply in_seq; lia)). rewrite forallb_forall in H.
    specialize (H (Z.to_nat k) ltac:(apply in_seq; lia)). rewrite !Z2Nat.id, Hp in H by lia. simpl in H.
    unfold press_release in H. destruct (kbd_run [k; Z.lor k 128] shift) as [[[|c [|r [|]]] shift']| | |]; try done.
    bool_to_prop. subst. by exists c.
Qed.
Lemma keyboard_decodes_witness :
  (∃ cs shift', kbd_run [0x2A; 0x1E; 0xAA; 0xE0; 0x48] 0 = Ret (cs, shift') ∧ Forall byte_ok cs ∧ 0 ≤ shift' < 128) ∧
  (0 ≤ 30 < 96 → 0 < 64 → plain_key 30 = true → ∃ c, kbd_run [30; Z.lor 30 0x80] 0 = Ret ([c; 0], 0)).
Proof.
  apply (keyboard_decodes [0x2A; 0x1E; 0xAA; 0xE0; 0x48] 0 30); [|lia].
  repeat constructor; unfold byte_ok; lia.
Defined.
(** Shift and A; then the cursor key. *)
Example keyboard_run : kbd_run [0x2A; 0x1E; 0xAA; 0x1E; 0xE0; 0x48] 0 = Ret ([0; 65; 0; 97; 0; KEY_UP], 0).
Proof. by vm_compute. Qed.
