(* ===== verification/Sh.v ===== *)
(** * The shell's parser (sh.c)

    [parsecmd] turns a line into a command tree by recursive descent.  A
    pointer into the line is modelled by the characters from it to the end of
    the line, so that moving a pointer is dropping characters and the line's
    end is the empty list; reading there reads the terminating 0.  The tree
    holds such pointers for the start and the end of each word;
    [nulterminate] then cuts the words out by writing NULs into the line.
    [panic] of the shell prints a message and exits. *)
From S2P Require Import Prelude Machine Sysfile.

Open Scope Z_scope.

Definition MAXARGS : nat := 10.
(** A word of the line: where it starts and where it ends. *)
Abbreviation span := (list Z * list Z)%type.
Definition word (w : span) : list Z := take (length w.1 - length w.2) w.1.

(** The five command structures. *)
Inductive cmd :=
| EXEC (argv : list span)
| REDIR (c : cmd) (file : span) (mode fd : Z)
| PIPE (left right : cmd)
| LIST (left right : cmd)
| BACK (c : cmd).

Definition whitespace : list Z := [32; 9; 13; 10; 11].
Definition symbols : list Z := [60; 124; 62; 38; 59; 40; 41].
Definition c_lt : Z := 60.
Definition c_bar : Z := 124.
Definition c_gt : Z := 62.
Definition c_amp : Z := 38.
Definition c_semi : Z := 59.
Definition c_lpar : Z := 40.
Definition c_rpar : Z := 41.
Definition c_plus : Z := 43.
Definition c_a : Z := 97.

(** [strchr(set, c)] *)
Definition strchr (set : list Z) (c : Z) : bool := existsb (Z.eqb c) set.
Definition ch (s : list Z) : Z := default 0 (head s).

(** [while(s < es && strchr(whitespace, *s)) s++;] *)
Fixpoint skip_ws (s : list Z) : list Z :=
  match s with
  | c :: s' => if strchr whitespace c then skip_ws s' else s
  | [] => []
  end.
(** [while(s < es && !strchr(whitespace, *s) && !strchr(symbols, *s)) s++;] *)
Fixpoint skip_word (s : list Z) : list Z :=
  match s with
  | c :: s' => if negb (strchr whitespace c) && negb (strchr symbols c) then skip_word s' else s
  | [] => []
  end.
(** The token, its span, and the pointer after it and the white space. *)
Definition gettoken (s : list Z) : Z * span * list Z :=
  let q := skip_ws s in
  let c := ch q in
  let '(ret, e) :=
    if c =? 0 then (c, q)
    else if (c =? c_bar) || (c =? c_lpar) || (c =? c_rpar) || (c =? c_semi) || (c =? c_amp) || (c =? c_lt)
    then (c, tail q)
    else if c =? c_gt then
      if ch (tail q) =? c_gt then (c_plus, tail (tail q)) else (c, tail q)
    else (c_a, skip_word q) in
  (ret, (q, e), skip_ws e).
Definition peek (toks : list Z) (s : list Z) : bool * list Z :=
  let s := skip_ws s in
  (negb (ch s =? 0) && strchr toks (ch s), s).

(** The loop of [parseredirs]; each round takes a token. *)
Fixpoint parseredirs_loop (fuel : nat) (c : cmd) (s : list Z) : outcome (cmd * list Z) :=
  let (b, s) := peek [c_lt; c_gt] s in
  if (b : bool) then
    match fuel with
    | O => Diverge
    | S fuel =>
        let '(tok, _, s) := gettoken s in
        let '(t, w, s) := gettoken s in
        if negb (t =? c_a) then Panic "missing file for redirection"
        else
          let c :=
            if tok =? c_lt then REDIR c w O_RDONLY 0
            else if tok =? c_gt then REDIR c w (Z.lor O_WRONLY O_CREATE) 1
            else if tok =? c_plus then REDIR c w (Z.lor O_WRONLY O_CREATE) 1
            else c in
          parseredirs_loop fuel c s
    end
  else Ret (c, s).
Definition parseredirs (c : cmd) (s : list Z) : outcome (cmd * list Z) :=
  parseredirs_loop (length s) c s.

(** [while(peek(ps, es, "&"))] of [parseline]. *)
Fixpoint parseback (fuel : nat) (c : cmd) (s : list Z) : outcome (cmd * list Z) :=
  let (b, s) := peek [c_amp] s in
  if (b : bool) then
    match fuel with
    | O => Diverge
    | S fuel => let '(_, _, s) := gettoken s in parseback fuel (BACK c) s
    end
  else Ret (c, s).

(** The [execcmd] inside [ret] gets its arguments while [ret] grows around it:
    [set_argv] is the assignment through the pointer [cmd]. *)
Fixpoint set_argv (argv : list span) (ret : cmd) : cmd :=
  match ret with
  | EXEC _ => EXEC argv
  | REDIR c f m fd => REDIR (set_argv argv c) f m fd
  | _ => ret
  end.
(** The loop of [parseexec], with [argc] arguments so far. *)
Fixpoint parseargs (fuel : nat) (argv : list span) (ret : cmd) (s : list Z) : outcome (cmd * list Z) :=
  let (b, s) := peek [c_bar; c_rpar; c_amp; c_semi] s in
  if (b : bool) then Ret (ret, s)
  else
    match fuel with
    | O => Diverge
    | S fuel =>
        let '(tok, w, s) := gettoken s in
        if tok =? 0 then Ret (ret, s)
        else if negb (tok =? c_a) then Panic "syntax"
        else
          let argv := argv ++ [w] in
          if (MAXARGS <=? length argv)%nat then Panic "too many args"
          else
            let* (ret, s) := parseredirs (set_argv argv ret) s in
            parseargs fuel argv ret s
    end.

Fixpoint parseline (fuel : nat) (s : list Z) : outcome (cmd * list Z) :=
  match fuel with
  | O => Diverge
  | S fuel =>
      let* (c, s) := parsepipe fuel s in
      let* (c, s) := parseback (length s) c s in
      let (b, s) := peek [c_semi] s in
      if (b : bool) then
        let '(_, _, s) := gettoken s in
        let* (r, s) := parseline fuel s in Ret (LIST c r, s)
      else Ret (c, s)
  end
with parsepipe (fuel : nat) (s : list Z) : outcome (cmd * list Z) :=
  match fuel with
  | O => Diverge
  | S fuel =>
      let* (c, s) := parseexec fuel s in
      let (b, s) := peek [c_bar] s in
      if (b : bool) then
        let '(_, _, s) := gettoken s in
        let* (r, s) := parsepipe fuel s in Ret (PIPE c r, s)
      else Ret (c, s)
  end
with parseexec (fuel : nat) (s : list Z) : outcome (cmd * list Z) :=
  match fuel with
  | O => Diverge
  | S fuel =>
      let (b, s) := peek [c_lpar] s in
      if (b : bool) then parseblock fuel s
      else
        let* (ret, s) := parseredirs (EXEC []) s in
        parseargs (S (length s)) [] ret s
  end
with parseblock (fuel : nat) (s : list Z) : outcome (cmd * list Z) :=
  match fuel with
  | O => Diverge
  | S fuel =>
      let (b, s) := peek [c_lpar] s in
      if negb b then Panic "parseblock"
      else
        let '(_, _, s) := gettoken s in
        let* (c, s) := parseline fuel s in
        let (b, s) := peek [c_rpar] s in
        if negb b then Panic "syntax - missing )"
        else
          let '(_, _, s) := gettoken s in
          parseredirs c s
  end.

(** [nulterminate] on the line: a NUL at the end of each word. *)
Definition cut (w : span) (line : list Z) : list Z := <[(length line - 1 - length w.2)%nat := 0]> line.
Fixpoint nulterminate (c : cmd) (line : list Z) : list Z :=
  match c with
  | EXEC argv => fold_left (λ l w, cut w l) argv line
  | REDIR c f _ _ => cut f (nulterminate c line)
  | PIPE l r => nulterminate r (nulterminate l line)
  | LIST l r => nulterminate r (nulterminate l line)
  | BACK c => nulterminate c line
  end.
(** The line with its terminating NUL, and the command. *)
Definition parse_fuel (s : list Z) : nat := (4 * length s + 4)%nat.
Definition parsecmd (s : list Z) : outcome (cmd * list Z) :=
  let* (c, rest) := parseline (parse_fuel s) s in
  let (_, rest) := peek [] rest in
  match rest with
  | [] => Ret (c, nulterminate c (s ++ [0]))
  | _ => Panic "syntax"
  end.

(** ** Termination *)
#[local] Arguments strchr : simpl never.
Lemma skip_ws_length s : (length (skip_ws s) ≤ length s)%nat.
Proof. induction s as [|c s IH]; simpl; [done|]. destruct (strchr whitespace c); simpl; lia. Qed.
Lemma skip_word_length s : (length (skip_word s) ≤ length s)%nat.
Proof. induction s as [|c s IH]; simpl; [done|]. destruct (_ && _); simpl; lia. Qed.
Lemma skip_ws_head s c s' : skip_ws s = c :: s' → strchr whitespace c = false.
Proof.
  induction s as [|d s IH]; simpl; [done|]. destruct (strchr whitespace d) eqn:E; [done|].
  intros [= -> ->]. done.
Qed.
Lemma symbols_cases c : strchr symbols c = true →
  (c =? c_bar) || (c =? c_lpar) || (c =? c_rpar) || (c =? c_semi) || (c =? c_amp) || (c =? c_lt) = true ∨ c = c_gt.
Proof.
  unfold strchr, symbols. simpl. rewrite !orb_true_iff, !Z.eqb_eq. unfold c_bar, c_lpar, c_rpar, c_semi, c_amp, c_lt, c_gt.
  intuition congruence.
Qed.
Lemma tail_length (s : list Z) : (length (tail s) ≤ length s)%nat.
Proof. destruct s; simpl; lia. Qed.
(** A token takes at least one character, unless the line is at its end. *)
Lemma gettoken_length s tok w s' : gettoken s = (tok, w, s') →
  (length s' ≤ length s)%nat ∧ (tok ≠ 0 → (length s' < length s)%nat).
Proof.
  unfold gettoken. pose proof (skip_ws_length s) as Hq. destruct (skip_ws s) as [|c q] eqn:Eq.
  { simpl. intros [= <- <- <-]. simpl. split; [lia|done]. }
  pose proof (skip_ws_head _ _ _ Eq) as Hws. change (ch (c :: q)) with c. cbn [tail]. simpl in Hq.
  pose proof (skip_ws_length q). pose proof (skip_ws_length (tail q)). pose proof (tail_length q).
  destruct (Z.eqb_spec c 0) as [->|Hc].
  { intros [= <- <- <-]. split; [|done]. pose proof (skip_ws_length (0 :: q)). simpl in *. lia. }
  destruct (_ || _ || _ || _ || _ || _) eqn:Es; [intros [= <- <- <-]; split; [lia|intros _; lia]|].
  destruct (Z.eqb_spec c c_gt) as [->|Hgt].
  { destruct (ch q =? c_gt); intros [= <- <- <-]; (split; [lia|intros _; lia]). }
  assert (strchr symbols c = false) as Hsy.
  { destruct (strchr symbols c) eqn:E; [|done]. apply symbols_cases in E as [E|E]; congruence. }
  cbn [skip_word]. rewrite Hws, Hsy. simpl. intros [= <- <- <-].
  pose proof (skip_ws_length (skip_word q)). pose proof (skip_word_length q). split; [lia|intros _; lia].
Qed.
Lemma peek_length toks s b s' : peek toks s = (b, s') → (length s' ≤ length s)%nat.
Proof. intros [= _ <-]. apply skip_ws_length. Qed.
Lemma skip_ws_idem s : skip_ws (skip_ws s) = skip_ws s.
Proof.
  induction s as [|c s IH]; simpl; [done|]. destruct (strchr whitespace c) eqn:E; [done|]. simpl. by rewrite E.
Qed.
Lemma gettoken_tok s : gettoken s = gettoken (skip_ws s).
Proof. unfold gettoken. by rewrite skip_ws_idem. Qed.
Lemma peek_nonempty toks s s' : peek toks s = (true, s') → (0 < length s')%nat.
Proof. intros [= Hb <-]. by destruct (skip_ws s); simpl in *; [|lia]. Qed.
(** After a successful [peek], [gettoken] moves on. *)
Lemma peek_gettoken toks s s1 tok w s' : peek toks s = (true, s1) → gettoken s1 = (tok, w, s') →
  (length s' < length s1)%nat.
Proof.
  intros Hp Hg. destruct (gettoken_length _ _ _ _ Hg) as [_ Hlt]. apply Hlt. clear Hlt.
  unfold peek in Hp. injection Hp as Hb Hs. apply andb_true_iff in Hb as [Hb _].
  unfold gettoken in Hg. rewrite <- Hs, skip_ws_idem, Hs in Hg.
  destruct (Z.eqb_spec (ch s1) 0) as [E|Hn]; [by rewrite Hs, E in Hb|].
  destruct (_ || _ || _ || _ || _ || _); [congruence|].
  destruct (ch s1 =? c_gt); [destruct (ch (tail s1) =? c_gt)|]; injection Hg as <- _ _; done.
Qed.

(** A result of a parsing function on [s]. *)
Definition fine (s : list Z) (r : outcome (cmd * list Z)) : Prop :=
  match r with Ret (_, s') => (length s' ≤ length s)%nat | Panic _ => True | _ => False end.
Lemma fine_mono s s' r : (length s' ≤ length s)%nat → fine s' r → fine s r.
Proof. intros Hl. destruct r as [[c s2]| | |]; simpl; [lia|done..]. Qed.
Lemma fine_bind s s' r (k : cmd * list Z → outcome (cmd * list Z)) :
  fine s' r → (∀ c s1, (length s1 ≤ length s')%nat → fine s (k (c, s1))) → fine s (obind r k).
Proof. intros H1 H2. destruct r as [[c s1]| | |]; simpl in *; [by apply H2|done..]. Qed.

Lemma parseredirs_fine fuel : ∀ c s, (length s ≤ fuel)%nat → fine s (parseredirs_loop fuel c s).
Proof.
  induction fuel as [|fuel IH]; intros c s Hl; cbn [parseredirs_loop];
    destruct (peek [c_lt; c_gt] s) as [b s1] eqn:Ep; pose proof (peek_length _ _ _ _ Ep); (destruct b; [|simpl; lia]).
  { pose proof (peek_nonempty _ _ _ Ep). lia. }
  destruct (gettoken s1) as [[tok w1] s2] eqn:E1. destruct (gettoken s2) as [[t w] s3] eqn:E2.
  pose proof (peek_gettoken _ _ _ _ _ _ Ep E1). destruct (gettoken_length _ _ _ _ E2) as [? _].
  destruct (negb (t =? c_a)); [done|]. eapply fine_mono; [|apply IH]; lia.
Qed.
Lemma parseback_fine fuel : ∀ c s, (length s ≤ fuel)%nat → fine s (parseback fuel c s).
Proof.
  induction fuel as [|fuel IH]; intros c s Hl; cbn [parseback];
    destruct (peek [c_amp] s) as [b s1] eqn:Ep; pose proof (peek_length _ _ _ _ Ep); (destruct b; [|simpl; lia]).
  { pose proof (peek_nonempty _ _ _ Ep). lia. }
  destruct (gettoken s1) as [[tok w1] s2] eqn:E1. pose proof (peek_gettoken _ _ _ _ _ _ Ep E1).
  eapply fine_mono; [|apply IH]; lia.
Qed.
Lemma parseargs_fine fuel : ∀ argv ret s, (length s < fuel)%nat → fine s (parseargs fuel argv ret s).
Proof.
  induction fuel as [|fuel IH]; intros argv ret s Hl; [lia|]. cbn [parseargs].
  destruct (peek _ s) as [b s1] eqn:Ep. pose proof (peek_length _ _ _ _ Ep). destruct b; [simpl; lia|].
  destruct (gettoken s1) as [[tok w] s2] eqn:E1. destruct (gettoken_length _ _ _ _ E1) as [? Hlt].
  destruct (Z.eqb_spec tok 0) as [->|Hn]; [simpl; lia|]. specialize (Hlt Hn).
  destruct (negb (tok =? c_a)); [done|]. destruct (_ <=? _)%nat; [done|].
  eapply (fine_bind s s2); [by apply parseredirs_fine|]. intros c s3 Hs3. eapply fine_mono; [|apply IH]; lia.
Qed.
Lemma parse_fine fuel : ∀ s,
  ((4 * length s + 4 ≤ fuel)%nat → fine s (parseline fuel s)) ∧
  ((4 * length s + 3 ≤ fuel)%nat → fine s (parsepipe fuel s)) ∧
  ((4 * length s + 2 ≤ fuel)%nat → fine s (parseexec fuel s)) ∧
  ((4 * length s + 1 ≤ fuel)%nat → fine s (parseblock fuel s)).
Proof.
  induction fuel as [|fuel IH]; intros s; [split_and!; lia|]. split_and!; intros Hf.
  - cbn [parseline]. eapply (fine_bind s s); [apply IH; lia|]. intros c s1 H1.
    eapply (fine_bind s s1); [by apply parseback_fine|]. intros c2 s2 H2.
    destruct (peek [c_semi] s2) as [b s3] eqn:Ep. pose proof (peek_length _ _ _ _ Ep). destruct b; [|simpl; lia].
    destruct (gettoken s3) as [[tok w] s4] eqn:E1. pose proof (peek_gettoken _ _ _ _ _ _ Ep E1).
    eapply (fine_bind s s4); [apply IH; lia|]. intros r s5 H5. simpl. lia.
  - cbn [parsepipe]. eapply (fine_bind s s); [apply IH; lia|]. intros c s1 H1.
    destruct (peek [c_bar] s1) as [b s3] eqn:Ep. pose proof (peek_length _ _ _ _ Ep). destruct b; [|simpl; lia].
    destruct (gettoken s3) as [[tok w] s4] eqn:E1. pose proof (peek_gettoken _ _ _ _ _ _ Ep E1).
    eapply (fine_bind s s4); [apply IH; lia|]. intros r s5 H5. simpl. lia.
  - cbn [parseexec]. destruct (peek [c_lpar] s) as [b s1] eqn:Ep. pose proof (peek_length _ _ _ _ Ep). destruct b.
    { eapply fine_mono; [done|]. apply IH. lia. }
    eapply (fine_bind s s1); [by apply parseredirs_fine|]. intros c s2 H2.
    eapply fine_mono; [|apply parseargs_fine]; lia.
  - cbn [parseblock]. destruct (peek [c_lpar] s) as [b s1] eqn:Ep. pose proof (peek_length _ _ _ _ Ep).
    destruct b; [|done]. cbn [negb]. destruct (gettoken s1) as [[tok w] s2] eqn:E1.
    pose proof (peek_gettoken _ _ _ _ _ _ Ep E1). eapply (fine_bind s s2); [apply IH; lia|]. intros c s3 H3.
    destruct (peek [c_rpar] s3) as [b s4] eqn:Ep2. pose proof (peek_length _ _ _ _ Ep2). destruct b; [|done]. cbn [negb].
    destruct (gettoken s4) as [[tok2 w2] s5] eqn:E2. pose proof (peek_gettoken _ _ _ _ _ _ Ep2 E2).
    eapply fine_mono; [|by apply parseredirs_fine]. lia.
Qed.

(** The shell's parser terminates on every line.  [parsecmd] returns
    a command or panics with a message; no nesting of parentheses, pipes,
    lists and redirections makes it run on. *)
Theorem parser_terminates s :
  (∃ r, parsecmd s = Ret r) ∨ (∃ msg, parsecmd s = Panic msg).
Proof.
  unfold parsecmd. destruct (parse_fine (parse_fuel s) s) as [H _]. specialize (H (Nat.le_refl _)).
  destruct (parseline (parse_fuel s) s) as [[c rest]|msg| |]; simpl in H; [|right; eauto|done|done].
  simpl. destruct (skip_ws rest); [left|right]; eauto.
Qed.

(** ** Commands and their text

    A [tree] is a command with its words; [print] writes it in the shell's
    syntax, with parentheses where a command stands below its level. *)
Inductive tree :=
| TExec (argv : list (list Z))
| TRedir (t : tree) (file : list Z) (mode fd : Z)
| TPipe (l r : tree)
| TList (l r : tree)
| TBack (t : tree).
Fixpoint erase (c : cmd) : tree :=
  match c with
  | EXEC argv => TExec (map word argv)
  | REDIR c f m fd => TRedir (erase c) (word f) m fd
  | PIPE l r => TPipe (erase l) (erase r)
  | LIST l r => TList (erase l) (erase r)
  | BACK c => TBack (erase c)
  end.

Definition word_char (c : Z) : bool := negb (c =? 0) && negb (strchr whitespace c) && negb (strchr symbols c).
Definition is_word (w : list Z) : bool := (0 <? length w)%nat && forallb word_char w.
Record redir := { r_file : list Z; r_mode : Z; r_fd : Z }.
Definition redir_wf (r : redir) : Prop :=
  is_word (r_file r) = true ∧
  ((r_mode r = O_RDONLY ∧ r_fd r = 0) ∨ (r_mode r = Z.lor O_WRONLY O_CREATE ∧ r_fd r = 1)).
Fixpoint tree_wf (t : tree) : Prop :=
  match t with
  | TExec argv => (length argv < MAXARGS)%nat ∧ Forall (λ w, is_word w = true) argv
  | TRedir t f m fd => tree_wf t ∧ redir_wf {| r_file := f; r_mode := m; r_fd := fd |}
  | TPipe l r | TList l r => tree_wf l ∧ tree_wf r
  | TBack t => tree_wf t
  end.

Definition pwords (argv : list (list Z)) : list Z := concat (map (λ w, w ++ [32]) argv).
Definition predir (r : redir) : list Z := (if r_fd r =? 0 then c_lt else c_gt) :: r_file r ++ [32].
Definition predirs (rs : list redir) : list Z := concat (map predir rs).
Definition parens (b : bool) (s : list Z) : list Z := if b then [c_lpar] ++ s ++ [c_rpar] else s.
Fixpoint print (level : nat) (t : tree) : list Z :=
  match t with
  | TExec argv => pwords argv
  | TRedir t f m fd => print 0 t ++ predir {| r_file := f; r_mode := m; r_fd := fd |}
  | TPipe l r => parens (level <? 1)%nat (print 0 l ++ [c_bar] ++ print 1 r)
  | TBack t => parens (level <? 2)%nat (print 2 t ++ [c_amp])
  | TList l r => parens (level <? 3)%nat (print 2 l ++ [c_semi] ++ print 3 r)
  end.

Fixpoint wrap (rs : list redir) (t : tree) : tree :=
  match rs with [] => t | r :: rs => wrap rs (TRedir t (r_file r) (r_mode r) (r_fd r)) end.
Definition follow (set rest : list Z) : Prop := match rest with [] => True | c :: _ => c ∈ set end.

(** *** Tokens of a printed command *)
Lemma word_char_spec c : word_char c = true →
  c ≠ 0 ∧ strchr whitespace c = false ∧ strchr symbols c = false.
Proof. unfold word_char. rewrite !andb_true_iff, !negb_true_iff, Z.eqb_neq. tauto. Qed.
Lemma is_word_cons w : is_word w = true → ∃ c w', w = c :: w' ∧ word_char c = true ∧ forallb word_char w' = true.
Proof.
  destruct w as [|c w]; [done|]. unfold is_word. simpl. rewrite andb_true_iff. eauto.
Qed.
Lemma skip_word_app w c t : forallb word_char w = true → word_char c = false → c ≠ 0 →
  skip_word (w ++ c :: t) = c :: t.
Proof.
  intros Hw Hc Hn. induction w as [|d w IH]; simpl in *.
  - unfold word_char in Hc. apply Z.eqb_neq in Hn. rewrite Hn in Hc. simpl in Hc.
    destruct (strchr whitespace c), (strchr symbols c); done.
  - apply andb_true_iff in Hw as [Hd Hw]. destruct (word_char_spec _ Hd) as (_ & -> & ->). simpl. auto.
Qed.
Lemma symbol_of_word c d : word_char c = true → strchr symbols d = true → (c =? d) = false.
Proof. intros Hc Hd. destruct (word_char_spec _ Hc) as (_ & _ & H). apply Z.eqb_neq. intros ->. congruence. Qed.
(** A word and the white space after it. *)
Lemma gettoken_word w t : is_word w = true →
  gettoken (w ++ 32 :: t) = (c_a, (w ++ 32 :: t, 32 :: t), skip_ws t).
Proof.
  intros Hw. pose proof Hw as Hw'. apply is_word_cons in Hw as (c & w' & -> & Hc & Hw).
  destruct (word_char_spec _ Hc) as (Hn & Hs & Hy). apply Z.eqb_neq in Hn.
  assert (skip_ws ((c :: w') ++ 32 :: t) = (c :: w') ++ 32 :: t) as E by (simpl; by rewrite Hs).
  unfold gettoken. rewrite E. change (ch ((c :: w') ++ 32 :: t)) with c. rewrite Hn.
  rewrite !(symbol_of_word c) by done. cbn [orb].
  rewrite (skip_word_app (c :: w') 32 t); [done| |done|done]. unfold is_word in Hw'. by apply andb_true_iff in Hw' as [_ ?].
Qed.
Lemma word_of_token w t : word (w ++ t, t) = w.
Proof. unfold word. cbn [fst snd]. rewrite length_app. rewrite take_app_length'; [done|lia]. Qed.
Lemma skip_ws_follow set rest : forallb (λ c, negb (strchr whitespace c)) set = true → follow set rest →
  skip_ws rest = rest.
Proof.
  intros Hs. destruct rest as [|c r]; [done|]. simpl. intros Hc. rewrite forallb_forall in Hs.
  specialize (Hs c). rewrite negb_true_iff in Hs. rewrite Hs; [done|]. by apply list_elem_of_In.
Qed.
Lemma skip_ws_word w t : is_word w = true → skip_ws (w ++ t) = w ++ t.
Proof. intros (c & w' & -> & (_ & Hs & _)%word_char_spec & _)%is_word_cons. simpl. by rewrite Hs. Qed.
Lemma peek_word toks w t : is_word w = true → forallb (strchr symbols) toks = true →
  peek toks (w ++ t) = (false, w ++ t).
Proof.
  intros Hw Ht. unfold peek. rewrite skip_ws_word by done. f_equal. apply is_word_cons in Hw as (c & w' & -> & Hc & _).
  change (ch ((c :: w') ++ t)) with c. apply andb_false_iff. right. unfold strchr. apply not_true_is_false.
  rewrite existsb_exists. intros (d & Hd & ->%Z.eqb_eq). rewrite forallb_forall in Ht. apply Ht in Hd.
  destruct (word_char_spec _ Hc). intuition congruence.
Qed.

(** *** What may follow a command of each level *)
Definition F0 : list Z := [c_bar; c_rpar; c_amp; c_semi].
Definition F1 : list Z := [c_rpar; c_amp; c_semi].
Definition F2 : list Z := [c_rpar; c_semi].
Definition F3 : list Z := [c_rpar].

Lemma follow_mono set set' rest : set ⊆ set' → follow set rest → follow set' rest.
Proof. intros H. destruct rest; simpl; auto. Qed.
Lemma peek_follow toks set rest :
  forallb (λ c, negb (strchr whitespace c) && negb (strchr toks c)) set = true → follow set rest →
  peek toks rest = (false, rest).
Proof.
  intros Hs Hf. unfold peek. rewrite forallb_forall in Hs.
  rewrite (skip_ws_follow set) by (done || (rewrite forallb_forall; intros c Hc; apply Hs in Hc;
    by apply andb_true_iff in Hc as [? _])).
  destruct rest as [|c r]; [done|]. change (ch (c :: r)) with c. simpl in Hf. apply list_elem_of_In, Hs in Hf.
  apply andb_true_iff in Hf as [_ Hf]. apply negb_true_iff in Hf. by rewrite Hf, andb_false_r.
Qed.
Lemma follow_redirs rs set rest : Forall redir_wf rs → follow set rest →
  follow (c_lt :: c_gt :: set) (predirs rs ++ rest).
Proof.
  intros Hrs Hf. destruct Hrs as [|r rs Hr _].
  { eapply follow_mono; [|exact Hf]. intros c. rewrite !elem_of_cons. tauto. }
  simpl. rewrite !elem_of_cons. destruct (r_fd r =? 0); tauto.
Qed.
Lemma gettoken_redir r t : redir_wf r →
  gettoken (predir r ++ t) = (if r_fd r =? 0 then c_lt else c_gt, (predir r ++ t, r_file r ++ 32 :: t), r_file r ++ 32 :: t).
Proof.
  intros [Hw _]. unfold predir. cbn [app]. rewrite <- app_assoc. cbn [app]. unfold gettoken.
  destruct (r_fd r =? 0); cbn [skip_ws]; change (strchr whitespace c_lt) with false;
    change (strchr whitespace c_gt) with false; cbv iota; change (ch (?a :: _)) with a; simpl (_ =? _);
    cbn [orb tail]; cbv iota; [by rewrite skip_ws_word|].
  assert ((ch (r_file r ++ 32 :: t) =? c_gt) = false) as ->; [|by rewrite skip_ws_word].
  apply is_word_cons in Hw as (c & w' & -> & Hc & _). by apply symbol_of_word.
Qed.
Lemma redirs_none fuel c s s' : peek [c_lt; c_gt] s = (false, s') → parseredirs_loop fuel c s = Ret (c, s').
Proof. intros E. destruct fuel; cbn [parseredirs_loop]; by rewrite E. Qed.
Lemma redirs_parse rs : ∀ c rest fuel, Forall redir_wf rs → follow F0 rest → (length (predirs rs ++ rest) ≤ fuel)%nat →
  ∃ c', parseredirs_loop fuel c (predirs rs ++ rest) = Ret (c', rest) ∧ erase c' = wrap rs (erase c).
Proof.
  induction rs as [|r rs IH]; intros c rest fuel Hrs Hf Hl.
  { exists c. split; [|done]. by apply redirs_none, (peek_follow _ F0). }
  inversion_clear Hrs as [|? ? Hr Hrs']. cbn [predirs map concat] in *. rewrite <- app_assoc in *. fold (predirs rs) in *.
  assert (peek [c_lt; c_gt] (predir r ++ predirs rs ++ rest) = (true, predir r ++ predirs rs ++ rest)) as Hp.
  { unfold predir, peek. by destruct (r_fd r =? 0). }
  rewrite length_app in Hl. unfold predir at 1 in Hl. simpl in Hl.
  destruct fuel as [|fuel]; [lia|]. cbn [parseredirs_loop]. rewrite Hp, gettoken_redir by done.
  pose proof Hr as [Hw Hm]. rewrite gettoken_word by done. simpl (negb _). cbv iota.
  rewrite (skip_ws_follow (c_lt :: c_gt :: F0)) by (done || by apply follow_redirs).
  edestruct (IH (REDIR c (r_file r ++ 32 :: predirs rs ++ rest, 32 :: predirs rs ++ rest) (r_mode r) (r_fd r)) rest fuel)
    as (c' & E1 & E2); [done|done|lia|].
  exists c'. split; [|by rewrite E2; cbn [erase]; rewrite word_of_token].
  rewrite <- E1. destruct Hm as [[-> ->]|[-> ->]]; done.
Qed.

Lemma args_parse argv : ∀ argv0 rs rest fuel, argv ≠ [] → Forall (λ w, is_word w = true) argv →
  (length argv0 + length argv < MAXARGS)%nat → Forall redir_wf rs → follow F0 rest →
  (length (pwords argv ++ predirs rs ++ rest) < fuel)%nat →
  ∃ c, parseargs fuel argv0 (EXEC argv0) (pwords argv ++ predirs rs ++ rest) = Ret (c, rest) ∧
       erase c = wrap rs (TExec (map word argv0 ++ argv)).
Proof.
  induction argv as [|w argv IH]; intros argv0 rs rest fuel Hne Hws Hn Hrs Hf Hl; [done|].
  inversion_clear Hws as [|? ? Hw Hws']. destruct fuel as [|fuel]; [lia|]. cbn [length] in Hn.
  assert (pwords (w :: argv) ++ predirs rs ++ rest = w ++ 32 :: pwords argv ++ predirs rs ++ rest) as E.
  { unfold pwords. cbn [map concat]. by rewrite <- !app_assoc. }
  rewrite E in *. clear E. rewrite length_app in Hl. cbn [length] in Hl.
  cbn [parseargs]. rewrite peek_word, gettoken_word by done. simpl (_ =? _). cbn [negb]. cbv iota.
  rewrite length_app. cbn [length]. destruct (Nat.leb_spec MAXARGS (length argv0 + 1)); [lia|].
  set (sp := (_, _)). cbn [set_argv]. unfold parseredirs.
  assert (word sp = w) as Hsp by apply word_of_token.
  destruct argv as [|w2 argv].
  - cbn [pwords map concat app] in *.
    rewrite (skip_ws_follow (c_lt :: c_gt :: F0)) by (done || by apply follow_redirs).
    destruct (redirs_parse rs (EXEC (argv0 ++ [sp])) rest (length (predirs rs ++ rest)) Hrs Hf) as (c' & E1 & E2); [done|].
    rewrite E1. exists c'. split.
    + cbn [obind]. destruct fuel as [|fuel]; [lia|]. cbn [parseargs].
      destruct rest as [|d rest]; [done|]. unfold peek. rewrite (skip_ws_follow F0) by done.
      simpl in Hf. unfold F0 in Hf. rewrite !elem_of_cons, elem_of_nil in Hf.
      by destruct Hf as [->|[->|[->|[->|[]]]]].
    + rewrite E2. cbn [erase]. rewrite map_app. cbn [map]. by rewrite Hsp.
  - pose proof (Forall_inv Hws') as Hw2. cbv beta in Hw2.
    assert (∀ t, pwords (w2 :: argv) ++ t = w2 ++ 32 :: pwords argv ++ t) as E.
    { intros t. unfold pwords. cbn [map concat]. by rewrite <- !app_assoc. }
    rewrite E, skip_ws_word by done. rewrite <- E.
    edestruct (IH (argv0 ++ [sp]) rs rest fuel) as (c & E1 & E2); [done|done| |done|done| |].
    { rewrite length_app. cbn [length] in *. lia. }
    { rewrite E in *. cbn [length] in *. lia. }
    exists c. split; [|rewrite E2, map_app; cbn [map]; by rewrite Hsp, <- app_assoc].
    rewrite (redirs_none _ _ _ (pwords (w2 :: argv) ++ predirs rs ++ rest)) by (rewrite E; by apply peek_word). exact E1.
Qed.

(** *** A text stands for a command at a level *)
Definition at_exec (x : list Z) (t : tree) : Prop := ∀ rs rest fuel,
  Forall redir_wf rs → follow F0 rest → (4 * length (x ++ predirs rs ++ rest) + 2 ≤ fuel)%nat →
  ∃ c, parseexec fuel (x ++ predirs rs ++ rest) = Ret (c, rest) ∧ erase c = wrap rs t.
Definition at_pipe (x : list Z) (t : tree) : Prop := ∀ rest fuel,
  follow F1 rest → (4 * length (x ++ rest) + 3 ≤ fuel)%nat →
  ∃ c, parsepipe fuel (x ++ rest) = Ret (c, rest) ∧ erase c = t.
Definition at_back (x : list Z) (t : tree) : Prop := ∀ n rest fuel,
  follow F2 rest → (4 * length (x ++ repeat c_amp n ++ rest) + 3 ≤ fuel)%nat →
  ∃ c, (let* (c, s) := parsepipe fuel (x ++ repeat c_amp n ++ rest) in parseback (length s) c s) = Ret (c, rest) ∧
       erase c = Nat.iter n TBack t.
Definition at_line (x : list Z) (t : tree) : Prop := ∀ rest fuel,
  follow F3 rest → (4 * length (x ++ rest) + 4 ≤ fuel)%nat →
  ∃ c, parseline fuel (x ++ rest) = Ret (c, rest) ∧ erase c = t.

(** [peek] and [gettoken] at a symbol. *)
Lemma peek_symbol toks c s : strchr toks c = true → strchr symbols c = true → peek toks (c :: s) = (true, c :: s).
Proof.
  intros Ht Hs. assert (strchr whitespace c = false ∧ c ≠ 0) as [Hw Hc].
  { apply symbols_cases in Hs. rewrite !orb_true_iff, !Z.eqb_eq in Hs. intuition (subst; done). }
  unfold peek. simpl. rewrite Hw. change (ch (c :: s)) with c. apply Z.eqb_neq in Hc. by rewrite Hc, Ht.
Qed.
Lemma gettoken_symbol c s : c ∈ c_lpar :: F0 → gettoken (c :: s) = (c, (c :: s, s), skip_ws s).
Proof. unfold F0. rewrite !elem_of_cons, elem_of_nil. by intros [->|[->|[->|[->|[->|[]]]]]]. Qed.

Lemma exec_words argv : (length argv < MAXARGS)%nat → Forall (λ w, is_word w = true) argv →
  at_exec (pwords argv) (TExec argv).
Proof.
  intros Hn Hw rs rest fuel Hrs Hf Hl. destruct fuel as [|fuel]; [lia|]. cbn [parseexec].
  destruct argv as [|w argv].
  - cbn [pwords map concat app]. rewrite (peek_follow _ (c_lt :: c_gt :: F0)) by (done || by apply follow_redirs).
    destruct (redirs_parse rs (EXEC []) rest (length (predirs rs ++ rest)) Hrs Hf) as (c' & E1 & E2); [done|].
    unfold parseredirs. rewrite E1. exists c'. split; [|done]. cbn [obind parseargs].
    destruct rest as [|d rest]; [done|]. rewrite peek_symbol; [done| |];
      simpl in Hf; unfold F0 in Hf; rewrite !elem_of_cons, elem_of_nil in Hf; by destruct Hf as [->|[->|[->|[->|[]]]]].
  - assert (∀ toks, forallb (strchr symbols) toks = true → peek toks (pwords (w :: argv) ++ predirs rs ++ rest) =
      (false, pwords (w :: argv) ++ predirs rs ++ rest)) as Hp.
    { intros toks Ht. unfold pwords. cbn [map concat]. rewrite <- !app_assoc. apply peek_word; [|done]. by apply Forall_inv in Hw. }
    rewrite Hp by done. unfold parseredirs. erewrite redirs_none by by apply Hp. cbn [obind].
    apply (args_parse (w :: argv) [] rs rest); [done..|cbn [length] in *; lia|done|done|lia].
Qed.
Lemma exec_redir x t r : at_exec x t → redir_wf r → at_exec (x ++ predir r) (TRedir t (r_file r) (r_mode r) (r_fd r)).
Proof.
  intros Hx Hr rs rest fuel Hrs Hf Hl. rewrite <- app_assoc in *.
  destruct (Hx (r :: rs) rest fuel) as (c & E1 & E2); [by constructor|done| |].
  { unfold predirs in *. cbn [map concat]. by rewrite <- app_assoc. }
  exists c. split; [|done]. rewrite <- E1. unfold predirs. cbn [map concat]. by rewrite <- !app_assoc.
Qed.
(** The text of a line starts with no white space. *)
Definition tight (x : list Z) : Prop := ∀ rest, skip_ws rest = rest → skip_ws (x ++ rest) = x ++ rest.
Lemma exec_block x t : tight x → at_line x t → at_exec (parens true x) t.
Proof.
  intros Ht Hx rs rest fuel Hrs Hf Hl. unfold parens in *. rewrite <- !app_assoc in *. cbn [app] in *.
  assert (follow F3 (c_rpar :: predirs rs ++ rest)) as Hf3 by (simpl; set_solver).
  cbn [length] in Hl. destruct fuel as [|[|fuel]]; [lia..|]. cbn [parseexec]. rewrite peek_symbol by done.
  cbn [parseblock]. rewrite peek_symbol by done. cbn [negb]. rewrite gettoken_symbol by set_solver.
  rewrite Ht by done. destruct (Hx (c_rpar :: predirs rs ++ rest) fuel Hf3) as (c & -> & Ec); [lia|].
  cbn [obind]. rewrite peek_symbol by done. cbn [negb]. rewrite gettoken_symbol by set_solver.
  rewrite (skip_ws_follow (c_lt :: c_gt :: F0)) by (done || by apply follow_redirs). rewrite <- Ec.
  by apply redirs_parse.
Qed.
Lemma pipe_exec x t : at_exec x t → at_pipe x t.
Proof.
  intros Hx rest fuel Hf Hl. destruct fuel as [|fuel]; [lia|]. cbn [parsepipe].
  destruct (Hx [] rest fuel) as (c & E1 & E2); [done| |cbn [predirs map concat app]; lia|].
  { eapply follow_mono; [|done]. set_solver. }
  cbn [predirs map concat app] in E1. rewrite E1. cbn [obind]. rewrite (peek_follow _ F1) by done. eauto.
Qed.
Lemma pipe_pipe x y l r : at_exec x l → tight y → at_pipe y r → at_pipe (x ++ [c_bar] ++ y) (TPipe l r).
Proof.
  intros Hx Ht Hy rest fuel Hf Hl. rewrite <- !app_assoc in *. cbn [app] in *. rewrite length_app in Hl. cbn [length] in Hl.
  destruct fuel as [|fuel]; [lia|]. cbn [parsepipe].
  destruct (Hx [] (c_bar :: y ++ rest) fuel) as (c & E1 & E2); [done|simpl; set_solver| |].
  { cbn [predirs map concat app]. rewrite length_app. cbn [length]. lia. }
  cbn [predirs map concat app] in E1. rewrite E1. cbn [obind]. rewrite peek_symbol by done.
  rewrite gettoken_symbol by set_solver. rewrite Ht by by apply (skip_ws_follow F1).
  destruct (Hy rest fuel Hf) as (c2 & -> & Ec2); [lia|]. cbn [obind]. eexists. split; [done|].
  cbn [erase]. by rewrite E2, Ec2.
Qed.

Lemma back_parse n : ∀ c rest fuel, follow F2 rest → (length (repeat c_amp n ++ rest) ≤ fuel)%nat →
  ∃ c', parseback fuel c (repeat c_amp n ++ rest) = Ret (c', rest) ∧ erase c' = Nat.iter n TBack (erase c).
Proof.
  induction n as [|n IH]; intros c rest fuel Hf Hl; cbn [repeat app length] in *.
  { exists c. split; [|done]. destruct fuel; cbn [parseback]; by rewrite (peek_follow _ F2). }
  destruct fuel as [|fuel]; [lia|]. cbn [parseback]. rewrite peek_symbol by done. rewrite gettoken_symbol by set_solver.
  assert (skip_ws (repeat c_amp n ++ rest) = repeat c_amp n ++ rest) as ->.
  { destruct n; [by apply (skip_ws_follow F2)|done]. }
  destruct (IH (BACK c) rest fuel Hf) as (c' & E1 & E2); [lia|]. exists c'. split; [done|].
  rewrite E2. cbn [erase]. by rewrite Nat.iter_succ_r.
Qed.
Lemma back_pipe x t : at_pipe x t → at_back x t.
Proof.
  intros Hx n rest fuel Hf Hl. destruct (Hx (repeat c_amp n ++ rest) fuel) as (c & -> & <-); [|lia|].
  - destruct n; simpl; [eapply follow_mono; [|done]|]; set_solver.
  - cbn [obind]. by apply back_parse.
Qed.
Lemma back_back x t : at_back x t → at_back (x ++ [c_amp]) (TBack t).
Proof.
  intros Hx n rest fuel Hf Hl. rewrite <- app_assoc in *. destruct (Hx (S n) rest fuel Hf Hl) as (c & E1 & E2).
  exists c. split; [done|]. by rewrite E2, Nat.iter_succ_r.
Qed.
Lemma line_back x t : at_back x t → at_line x t.
Proof.
  intros Hx rest fuel Hf Hl. destruct fuel as [|fuel]; [lia|]. cbn [parseline].
  destruct (Hx 0%nat rest fuel) as (c & E1 & E2); [eapply follow_mono; [|done]; set_solver|cbn [repeat app]; lia|].
  cbn [repeat app] in E1. destruct (parsepipe fuel (x ++ rest)) as [[c1 s1]| | |]; [|done..]. cbn [obind] in *.
  rewrite E1. cbn [obind]. rewrite (peek_follow _ F3) by done. eauto.
Qed.
Lemma line_list x y l r : at_back x l → tight y → at_line y r → at_line (x ++ [c_semi] ++ y) (TList l r).
Proof.
  intros Hx Ht Hy rest fuel Hf Hl. rewrite <- !app_assoc in *. cbn [app] in *. rewrite length_app in Hl. cbn [length] in Hl.
  destruct fuel as [|fuel]; [lia|]. cbn [parseline].
  destruct (Hx 0%nat (c_semi :: y ++ rest) fuel) as (c & E1 & E2); [simpl; set_solver| |].
  { cbn [repeat app]. rewrite length_app. cbn [length]. lia. }
  cbn [repeat app] in E1. destruct (parsepipe fuel (x ++ c_semi :: y ++ rest)) as [[c1 s1]| | |]; [|done..].
  cbn [obind] in *. rewrite E1. cbn [obind]. rewrite peek_symbol by done.
  rewrite gettoken_symbol by set_solver. rewrite Ht by by apply (skip_ws_follow F3).
  destruct (Hy rest fuel Hf) as (c2 & -> & <-); [lia|]. cbn [obind]. eexists. split; [done|].
  cbn [erase]. by rewrite E2.
Qed.

Lemma tight_app x y : tight x → tight y → tight (x ++ y).
Proof. intros Hx Hy rest Hr. rewrite <- app_assoc. auto. Qed.
Lemma tight_parens b x : tight x → tight (parens b x).
Proof. destruct b; [|done]. intros Hx rest Hr. done. Qed.
Lemma tight_print t : ∀ p, tree_wf t → tight (print p t).
Proof.
  induction t as [argv|t IH f m fd|l IHl r IHr|l IHl r IHr|t IH]; intros p Hwf; cbn [print tree_wf] in *.
  - destruct Hwf as [_ Hw]. induction Hw as [|w argv Hw _ IH]; [by intros rest|].
    intros rest Hr. unfold pwords. cbn [map concat]. rewrite <- !app_assoc. by apply skip_ws_word.
  - apply tight_app; [by apply IH, Hwf|]. intros rest Hr. unfold predir. by destruct (_ =? _).
  - apply tight_parens, tight_app; [by apply IHl, Hwf|]. by intros rest Hr.
  - apply tight_parens, tight_app; [by apply IHl, Hwf|]. by intros rest Hr.
  - apply tight_parens, tight_app; [by apply IH|]. by intros rest Hr.
Qed.
(** A text that stands for [t] at a level, in parentheses below it. *)
Lemma levels_exec x t : at_exec x t → at_pipe x t ∧ at_back x t ∧ at_line x t.
Proof. intros H%pipe_exec. pose proof (back_pipe _ _ H) as H2. pose proof (line_back _ _ H2). done. Qed.
Lemma print_levels t : tree_wf t →
  at_exec (print 0 t) t ∧ at_pipe (print 1 t) t ∧ at_back (print 2 t) t ∧ at_line (print 3 t) t.
Proof.
  induction t as [argv|t IH f m fd|l IHl r IHr|l IHl r IHr|t IH]; intros Hwf; cbn [print].
  - destruct Hwf as [Hn Hw]. assert (at_exec (pwords argv) (TExec argv)) as Hx by by apply exec_words.
    split; [done|by apply levels_exec].
  - destruct Hwf as [Ht Hr]. destruct (IH Ht) as (Hx & _).
    pose proof (exec_redir _ _ _ Hx Hr) as Hx'. split; [done|by apply levels_exec].
  - destruct Hwf as [Hl Hr]. destruct (IHl Hl) as (Hlx & _), (IHr Hr) as (_ & Hrx & _).
    pose proof (pipe_pipe _ _ _ _ Hlx (tight_print r 1 Hr) Hrx) as Hp.
    split; [|auto using back_pipe, line_back]. apply exec_block; [|auto using back_pipe, line_back].
    apply tight_app; [by apply tight_print|by intros rest].
  - destruct Hwf as [Hl Hr]. destruct (IHl Hl) as (_ & _ & Hlx & _), (IHr Hr) as (_ & _ & _ & Hrx).
    pose proof (line_list _ _ _ _ Hlx (tight_print r 3 Hr) Hrx) as Hp.
    assert (at_exec (parens true (print 2 l ++ [c_semi] ++ print 3 r)) (TList l r)) as Hx.
    { apply exec_block; [|done]. apply tight_app; [by apply tight_print|by intros rest]. }
    destruct (levels_exec _ _ Hx) as (? & ? & _). done.
  - destruct (IH Hwf) as (_ & _ & Hx & _). pose proof (back_back _ _ Hx) as Hb.
    assert (at_exec (parens true (print 2 t ++ [c_amp])) (TBack t)) as He.
    { apply exec_block; [|by apply line_back]. apply tight_app; [by apply tight_print|by intros rest]. }
    destruct (levels_exec _ _ He) as (? & _). auto using line_back.
Qed.

(** Claim C34: the parser reads back every command.  A command tree of any
    shape (words of plain characters, at most nine arguments, redirections of
    input and output), written out in the shell's syntax with parentheses
    where the grammar needs them, is accepted by [parsecmd], which builds that
    tree again: pipes, lists, background commands, blocks and redirections
    nest as written and every word is the one printed. *)
Theorem shell_parse_print t : tree_wf t →
  ∃ c line, parsecmd (print 3 t) = Ret (c, line) ∧ erase c = t.
Proof.
  intros Hwf. destruct (print_levels t Hwf) as (_ & _ & _ & Hl).
  destruct (Hl [] (parse_fuel (print 3 t)) I) as (c & E & Ec); [rewrite app_nil_r; done|].
  rewrite app_nil_r in E. unfold parsecmd. rewrite E. cbn [obind]. eexists _, _. done.
Qed.
(** [(ls; cat <in) | wc >out &] *)
Lemma shell_parse_print_witness :
  ∃ c line, parsecmd (print 3 (TBack (TPipe (TList (TExec [[108; 115]])
      (TRedir (TExec [[99; 97; 116]]) [105; 110] O_RDONLY 0))
      (TRedir (TExec [[119; 99]]) [111; 117; 116] (Z.lor O_WRONLY O_CREATE) 1)))) = Ret (c, line) ∧
    erase c = TBack (TPipe (TList (TExec [[108; 115]])
      (TRedir (TExec [[99; 97; 116]]) [105; 110] O_RDONLY 0))
      (TRedir (TExec [[119; 99]]) [111; 117; 116] (Z.lor O_WRONLY O_CREATE) 1)).
Proof.
  apply shell_parse_print. cbn [tree_wf length]. unfold redir_wf, MAXARGS. cbn [r_file r_mode r_fd].
  split_and!; repeat constructor; tauto.
Defined.

(** ** The words of a parsed line *)
Fixpoint words (c : cmd) : list span :=
  match c with
  | EXEC argv => argv
  | REDIR c f _ _ => words c ++ [f]
  | PIPE l r | LIST l r => words l ++ words r
  | BACK c => words c
  end.
(** The C string at the start of [l]. *)
Fixpoint cstring (l : list Z) : list Z :=
  match l with
  | c :: l' => if c =? 0 then [] else c :: cstring l'
  | [] => []
  end.

(** A word of the line [s0]: word characters up to a character that is not one. *)
Definition good (s0 : list Z) (w : span) : Prop :=
  w.1 `suffix_of` s0 ∧ ∃ l, w.1 = l ++ w.2 ∧ forallb word_char l = true ∧ (l ≠ []) ∧
  match w.2 with [] => True | c :: _ => word_char c = false end.
Definition yields (s0 : list Z) (r : outcome (cmd * list Z)) : Prop :=
  match r with Ret (c, s) => s `suffix_of` s0 ∧ Forall (good s0) (words c) | _ => True end.
Lemma yields_bind s0 r k : yields s0 r →
  (∀ c s, s `suffix_of` s0 → Forall (good s0) (words c) → yields s0 (k (c, s))) → yields s0 (obind r k).
Proof. intros Hr Hk. destruct r as [[c s]| | |]; simpl in *; [|done..]. apply Hk; tauto. Qed.

Lemma skip_ws_suffix s s0 : s `suffix_of` s0 → skip_ws s `suffix_of` s0.
Proof.
  induction s as [|c s IH]; [done|]. intros H. simpl. destruct (strchr whitespace c); [|done].
  apply IH. by eapply suffix_cons_l.
Qed.
Lemma tail_suffix (s s0 : list Z) : s `suffix_of` s0 → tail s `suffix_of` s0.
Proof. destruct s; [done|]. apply suffix_cons_l. Qed.
Lemma skip_word_split s : Forall (λ c, c ≠ 0) s → ∃ l, s = l ++ skip_word s ∧ forallb word_char l = true ∧
  match skip_word s with [] => True | c :: _ => word_char c = false end.
Proof.
  induction 1 as [|c s Hc _ (l & E & Hl & Hm)]; [by exists []|]. simpl.
  destruct (negb (strchr whitespace c) && negb (strchr symbols c)) eqn:Ec.
  - exists (c :: l). split; [simpl; by rewrite <- E|]. split; [|done]. simpl. rewrite Hl, andb_true_r.
    unfold word_char. apply Z.eqb_neq in Hc. by rewrite Hc.
  - exists []. split; [done|]. split; [done|]. unfold word_char. apply Z.eqb_neq in Hc. by rewrite Hc.
Qed.
Lemma Forall_suffix {A} (P : A → Prop) s s0 : s `suffix_of` s0 → Forall P s0 → Forall P s.
Proof. intros [k ->]. rewrite Forall_app. tauto. Qed.

Section words.
  Context (s0 : list Z) (Hs0 : Forall (λ c, c ≠ 0) s0).

Lemma gettoken_good s tok w s' : s `suffix_of` s0 → gettoken s = (tok, w, s') →
  s' `suffix_of` s0 ∧ (tok = c_a → good s0 w).
Proof using Hs0.
  intros Hs. pose proof (skip_ws_suffix _ _ Hs) as Hq. unfold gettoken.
  destruct (skip_ws s) as [|c q] eqn:Eq; [intros [= <- <- <-]; split; [done|done]|].
  pose proof (skip_ws_head _ _ _ Eq) as Hws. change (ch (c :: q)) with c. cbn [tail].
  pose proof (Forall_suffix _ _ _ Hq Hs0) as Hnz. pose proof (Forall_inv Hnz) as Hc. cbv beta in Hc.
  destruct (Z.eqb_spec c 0); [done|].
  assert (q `suffix_of` s0) as Hq' by by eapply suffix_cons_l.
  destruct (_ || _ || _ || _ || _ || _) eqn:Es.
  { intros [= <- <- <-]. split; [by apply skip_ws_suffix|]. intros ->. done. }
  destruct (Z.eqb_spec c c_gt) as [->|Hgt].
  { destruct (ch q =? c_gt); intros [= <- <- <-]; (split; [auto using skip_ws_suffix, tail_suffix|done]). }
  intros [= <- <- <-]. destruct (skip_word_split (c :: q) Hnz) as (l & E & Hl & Hm). split.
  { apply skip_ws_suffix. etrans; [|exact Hq]. by exists l. }
  intros _. split; [done|]. exists l. split; [done|]. split; [done|]. split; [|done]. intros ->.
  apply (f_equal length) in E. cbn [skip_word app] in E. rewrite Hws in E.
  destruct (strchr symbols c) eqn:Ey; [apply symbols_cases in Ey as [?|?]; congruence|]. cbn [negb andb] in E.
  pose proof (skip_word_length q). cbn [length] in E. lia.
Qed.
Lemma peek_suffix toks s b s' : s `suffix_of` s0 → peek toks s = (b, s') → s' `suffix_of` s0.
Proof. intros Hs [= _ <-]. by apply skip_ws_suffix. Qed.

Lemma redirs_yields fuel : ∀ c s, s `suffix_of` s0 → Forall (good s0) (words c) → yields s0 (parseredirs_loop fuel c s).
Proof using Hs0.
  induction fuel as [|fuel IH]; intros c s Hs Hc; cbn [parseredirs_loop];
    destruct (peek _ s) as [b s1] eqn:Ep; pose proof (peek_suffix _ _ _ _ Hs Ep); (destruct b; [|done]); [done|].
  destruct (gettoken s1) as [[tok w1] s2] eqn:E1. destruct (gettoken s2) as [[t w] s3] eqn:E2.
  destruct (gettoken_good _ _ _ _ ltac:(done) E1) as [Hs2 _]. destruct (gettoken_good _ _ _ _ Hs2 E2) as [Hs3 Hw].
  destruct (Z.eqb_spec t c_a) as [->|]; [|done]. cbn [negb]. apply IH; [done|].
  assert (Forall (good s0) (words c ++ [w])) by (rewrite Forall_app; auto).
  repeat case_match; done.
Qed.
Lemma back_yields fuel : ∀ c s, s `suffix_of` s0 → Forall (good s0) (words c) → yields s0 (parseback fuel c s).
Proof using Hs0.
  induction fuel as [|fuel IH]; intros c s Hs Hc; cbn [parseback];
    destruct (peek _ s) as [b s1] eqn:Ep; pose proof (peek_suffix _ _ _ _ Hs Ep); (destruct b; [|done]); [done|].
  destruct (gettoken s1) as [[tok w1] s2] eqn:E1.
  destruct (gettoken_good _ _ _ _ ltac:(done) E1) as [Hs2 _]. by apply IH.
Qed.
Lemma set_argv_words argv c : Forall (good s0) argv → Forall (good s0) (words c) → Forall (good s0) (words (set_argv argv c)).
Proof. intros Ha. induction c; simpl; auto. rewrite !Forall_app. tauto. Qed.
Lemma args_yields fuel : ∀ argv c s, s `suffix_of` s0 → Forall (good s0) argv → Forall (good s0) (words c) →
  yields s0 (parseargs fuel argv c s).
Proof using Hs0.
  induction fuel as [|fuel IH]; intros argv c s Hs Ha Hc; cbn [parseargs];
    destruct (peek _ s) as [b s1] eqn:Ep; pose proof (peek_suffix _ _ _ _ Hs Ep); (destruct b; [done|]); [done|].
  destruct (gettoken s1) as [[tok w] s2] eqn:E1. destruct (gettoken_good _ _ _ _ ltac:(done) E1) as [Hs2 Hw].
  destruct (tok =? 0); [done|]. destruct (Z.eqb_spec tok c_a) as [->|]; [|done]. cbn [negb].
  destruct (_ <=? _)%nat; [done|]. assert (Forall (good s0) (argv ++ [w])) by (rewrite Forall_app; auto).
  apply yields_bind; [apply redirs_yields; auto using set_argv_words|]. auto.
Qed.
End words.

Lemma parse_yields s0 fuel : Forall (λ c, c ≠ 0) s0 → ∀ s, s `suffix_of` s0 →
  yields s0 (parseline fuel s) ∧ yields s0 (parsepipe fuel s) ∧ yields s0 (parseexec fuel s) ∧ yields s0 (parseblock fuel s).
Proof.
  intros Hs0. induction fuel as [|fuel IH]; intros s Hs; [done|]. split_and!.
  - cbn [parseline]. apply yields_bind; [by apply IH|]. intros c s1 H1 Hc1.
    apply yields_bind; [by apply back_yields|]. intros c2 s2 H2 Hc2.
    destruct (peek _ s2) as [b s3] eqn:Ep. pose proof (peek_suffix _ _ _ _ _ H2 Ep) as H3. destruct b; [|done].
    destruct (gettoken s3) as [[tok w] s4] eqn:E1. destruct (gettoken_good _ Hs0 _ _ _ _ H3 E1) as [H4 _].
    apply yields_bind; [by apply IH|]. intros r s5 H5 Hr. split; [done|]. simpl. by apply Forall_app_2.
  - cbn [parsepipe]. apply yields_bind; [by apply IH|]. intros c s1 H1 Hc1.
    destruct (peek _ s1) as [b s3] eqn:Ep. pose proof (peek_suffix _ _ _ _ _ H1 Ep) as H3. destruct b; [|done].
    destruct (gettoken s3) as [[tok w] s4] eqn:E1. destruct (gettoken_good _ Hs0 _ _ _ _ H3 E1) as [H4 _].
    apply yields_bind; [by apply IH|]. intros r s5 H5 Hr. split; [done|]. simpl. by apply Forall_app_2.
  - cbn [parseexec]. destruct (peek _ s) as [b s1] eqn:Ep. pose proof (peek_suffix _ _ _ _ _ Hs Ep) as H1.
    destruct b; [by apply IH|]. apply yields_bind; [by apply redirs_yields|]. intros c s2 H2 Hc.
    by apply args_yields.
  - cbn [parseblock]. destruct (peek _ s) as [b s1] eqn:Ep. pose proof (peek_suffix _ _ _ _ _ Hs Ep) as H1.
    destruct b; [|done]. cbn [negb]. destruct (gettoken s1) as [[tok w] s2] eqn:E1.
    destruct (gettoken_good _ Hs0 _ _ _ _ H1 E1) as [H2 _]. apply yields_bind; [by apply IH|]. intros c s3 H3 Hc.
    destruct (peek _ s3) as [b s4] eqn:Ep2. pose proof (peek_suffix _ _ _ _ _ H3 Ep2) as H4.
    destruct b; [|done]. cbn [negb]. destruct (gettoken s4) as [[tok2 w2] s5] eqn:E2.
    destruct (gettoken_good _ Hs0 _ _ _ _ H4 E2) as [H5 _]. by apply redirs_yields.
Qed.

Definition pos (n : nat) (w : list Z) : nat := (n - length w)%nat.
Lemma nulterminate_words c : ∀ line, nulterminate c line = fold_left (λ l w, cut w l) (words c) line.
Proof.
  induction c; intros line; simpl; [done| | |by rewrite fold_left_app, IHc1, IHc2|done].
  - by rewrite fold_left_app, IHc.
  - by rewrite fold_left_app, IHc1, IHc2.
Qed.
Lemma cuts_lookup n ws : ∀ line i, length line = S n → (i ≤ n)%nat →
  fold_left (λ l w, cut w l) ws line !! i =
    if existsb (λ w, i =? pos n w.2)%nat ws then Some 0 else line !! i.
Proof.
  induction ws as [|w ws IH]; intros line i Hl Hi; [done|]. cbn [fold_left existsb].
  rewrite IH by (unfold cut; rewrite ?length_insert; done).
  unfold cut. rewrite Hl. replace (S n - 1 - length w.2)%nat with (pos n w.2) by (unfold pos; lia).
  destruct (existsb _ ws); [by rewrite orb_true_r|]. rewrite orb_false_r.
  destruct (Nat.eqb_spec i (pos n w.2)) as [->|Hne]; [|by rewrite list_lookup_insert_ne].
  apply list_lookup_insert_eq. unfold pos. lia.
Qed.
Lemma cstring_lookup w : ∀ l, (∀ i c, w !! i = Some c → l !! i = Some c ∧ c ≠ 0) → l !! length w = Some 0 → cstring l = w.
Proof.
  induction w as [|c w IH]; intros l Hw H0.
  { destruct l; simplify_eq/=. done. }
  destruct (Hw 0%nat c eq_refl) as [Hl Hc]. destruct l as [|d l]; simplify_eq/=.
  apply Z.eqb_neq in Hc. rewrite Hc. f_equal. apply IH; [|done]. intros i e Hi. exact (Hw (S i) e Hi).
Qed.
(** The character under the end of a word is no word character, a character
    inside one is. *)
Lemma good_end s w c : good s w → s !! pos (length s) w.2 = Some c → word_char c = false.
Proof.
  intros [[p Hp] (l & Hw & _ & _ & He)]. rewrite Hw in Hp. unfold pos. rewrite Hp at 1.
  rewrite Hp, !length_app, app_assoc. rewrite lookup_app_r by (rewrite length_app; lia). rewrite length_app.
  replace (_ - _)%nat with 0%nat by lia. destruct w.2; simpl; [done|congruence].
Qed.
Lemma good_inside s w i c : good s w → word w !! i = Some c →
  s !! (pos (length s) w.1 + i)%nat = Some c ∧ word_char c = true.
Proof.
  intros [[p Hp] (l & Hw & Hl & _)]. assert (word w = l) as ->.
  { destruct w as [w1 w2]. simpl in *. subst w1. apply word_of_token. }
  intros Hi. split; [|rewrite forallb_forall in Hl; apply Hl, list_elem_of_In; by eapply list_elem_of_lookup_2].
  unfold pos. rewrite Hp at 1. rewrite Hp, length_app. rewrite lookup_app_r by lia.
  replace (_ - length p)%nat with i by lia. rewrite Hw. by apply lookup_app_l_Some.
Qed.

(** The words of a parsed line are C strings.  When [parsecmd]
    accepts a line, every word of the command (argument or file name) is a
    non-empty run of word characters, and after [nulterminate] the C string at
    its address in the line is exactly that word: the NULs written for other
    words never fall inside it. *)
Theorem words_terminated s c line : Forall (λ c, c ≠ 0) s → parsecmd s = Ret (c, line) →
  Forall (λ w, is_word (word w) = true ∧ cstring (drop (pos (length s) w.1) line) = word w) (words c).
Proof.
  intros Hs H. unfold parsecmd in H.
  destruct (parse_yields s (parse_fuel s) Hs s) as [Hy _]; [done|].
  destruct (parseline (parse_fuel s) s) as [[c0 rest]| | |]; [|done..]. cbn [obind yields] in *.
  destruct Hy as [_ Hg]. destruct (peek [] rest) as [b [|]]; [|done]. injection H as <- <-.
  rewrite nulterminate_words. apply Forall_forall. intros w Hw.
  rewrite Forall_forall in Hg. pose proof (Hg w Hw) as Hgw. pose proof Hgw as [[p Hp] (l & El & Hl & Hne & He)].
  assert (word w = l) as Hword. { destruct w as [w1 w2]. simpl in *. subst w1. apply word_of_token. }
  assert (length (s ++ [0]) = S (length s)) as Hlen by (rewrite length_app; simpl; lia).
  split; [rewrite Hword; unfold is_word; destruct l; [done|]; exact Hl|].
  assert (length s = length p + length l + length w.2)%nat as Hls by (rewrite Hp, El, !length_app; lia).
  assert (length w.1 = length l + length w.2)%nat as Hl1 by (rewrite El, length_app; lia).
  apply cstring_lookup.
  - intros i d Hi. destruct (good_inside _ _ _ _ Hgw Hi) as [Hd Hwc]. destruct (word_char_spec _ Hwc) as [Hnz _].
    split; [|done]. rewrite lookup_drop. pose proof (lookup_lt_Some _ _ _ Hd).
    rewrite (cuts_lookup (length s)) by (done || lia). destruct (existsb _ _) eqn:Ex; [|by apply lookup_app_l_Some].
    apply existsb_exists in Ex as (w' & Hw' & E%Nat.eqb_eq). rewrite E in Hd.
    apply list_elem_of_In, Hg in Hw'. rewrite (good_end _ _ _ Hw' Hd) in Hwc. done.
  - rewrite Hword, lookup_drop. rewrite (cuts_lookup (length s)) by (done || unfold pos; lia).
    assert (existsb (λ w0 : span, (pos (length s) w.1 + length l =? pos (length s) w0.2)%nat) (words c0) = true) as ->; [|done].
    apply existsb_exists. exists w. split; [by apply list_elem_of_In|]. apply Nat.eqb_eq. unfold pos. lia.
Qed.
(** [a|b] *)
Lemma words_terminated_witness :
  Forall (λ w, is_word (word w) = true ∧
    cstring (drop (pos 3 w.1) [97; 0; 98; 0]) = word w) [([97; 124; 98], [124; 98]); ([98], [])].
Proof.
  apply (words_terminated [97; 124; 98] (PIPE (EXEC [([97; 124; 98], [124; 98])]) (EXEC [([98], [])])));
    [repeat constructor; done|reflexivity].
Defined.
