(* ===== verification/User.v ===== *)
(** * User programs as trees of system calls

    A user program is an interaction tree whose events are the system calls of
    user.h, each with the type of what it gives back: its result and what the
    kernel writes through the pointer arguments.  [exit] has no answer, and
    [exec] answers only when it fails.

    What a program does is read off its tree by an environment, a function
    that answers the calls from a state of its own.  A fork is answered twice,
    so that what is seen of a program and of its children is again a tree.
    The functions of ulib.c and printf.c that make system calls are here. *)
From ITree Require ITree.
From S2P Require Import Prelude Machine ProcOps Fs Lapic Sysfile Printf.

Open Scope Z_scope.

(** ** System calls *)
Inductive sys : Type → Type :=
| Fork : sys Z
| Exit : sys Empty_set
| Wait : sys Z
| Pipe : sys (Z * (Z * Z))
| Read (fd n : Z) : sys (Z * list Z)
| Write (fd : Z) (bs : list Z) : sys Z
| Close (fd : Z) : sys Z
| Kill (pid : Z) : sys Z
| Exec (path : list Z) (argv : list (list Z)) : sys Z
| Open (path : list Z) (mode : Z) : sys Z
| Mknod (path : list Z) (major minor : Z) : sys Z
| Unlink (path : list Z) : sys Z
| Fstat (fd : Z) : sys (Z * stat)
| Link (old new : list Z) : sys Z
| Mkdir (path : list Z) : sys Z
| Chdir (path : list Z) : sys Z
| Dup (fd : Z) : sys Z
| Getpid : sys Z
| Getuid : sys Z
| Getppid : sys Z
| Getgid : sys Z
| Setuid (uid : Z) : sys Z
| Setgid (gid : Z) : sys Z
| Getprocs (max : Z) : sys (Z * list uproc)
| Sleep (n : Z) : sys Z
| Date : sys (Z * rtcdate)
| Setpriority (pid priority : Z) : sys Z.

Abbreviation itree := ITreeDefinition.itree.
Abbreviation observe := ITreeDefinition.observe.
Abbreviation prog := (itree sys).
Definition done {A} (a : A) : prog A := ITreeDefinition.go (ITreeDefinition.RetF a).
Definition andThen {A B} (t : prog A) (k : A → prog B) : prog B := ITreeDefinition.ITree.bind t k.
Definition call {A} (e : sys A) : prog A := ITreeDefinition.ITree.trigger e.
(** A loop whose body answers [inl] to go on and [inr] to stop. *)
Definition loop {I R} (body : I → prog (I + R)) (i : I) : prog R := ITreeDefinition.ITree.iter body i.
(** What C leaves undefined is a program that never gets anywhere. *)
Definition undefined {A} : prog A := ITreeDefinition.ITree.spin.

Notation "'let?' p ':=' e1 'in' e2" := (andThen e1 (λ x, match x with p => e2 end))
  (at level 10, p pattern, e1 at level 200, e2 at level 200,
   format "'[v' 'let?'  p  ':='  e1  'in' '/' e2 ']'") : xv6_scope.
Notation "e1 ;? e2" := (andThen e1 (λ _, e2)) (at level 100, e2 at level 200, right associativity,
   format "'[v' e1  ;? '/' e2 ']'") : xv6_scope.

Definition exit {A} : prog A := let? x := call Exit in match (x : Empty_set) with end.
(** [for(x in l) body] *)
Fixpoint each {A} (l : list A) (body : A → prog unit) : prog unit :=
  match l with
  | [] => done tt
  | x :: l => body x ;? each l body
  end.

(** ** Formatted output (printf.c)

    The arguments after the format are numbers and strings; the pointer to the
    [n]-th one, when it is a string, is the number [n + 1]. *)
Inductive vararg := VInt (z : Z) | VStr (s : list Z).
Definition va_word (args : list vararg) (n : nat) : Z :=
  match args !! n with Some (VInt z) => z | _ => Z.of_nat n + 1 end.
Definition va_str (args : list vararg) (p : Z) : list Z :=
  match args !! Z.to_nat (p - 1) with Some (VStr s) => s | _ => [] end.
Definition text (fmt : list Z) (args : list vararg) : outcome (list Z) :=
  printf (va_str args) fmt (va_word args).
(** [putc] writes one character. *)
Definition putc (fd c : Z) : prog unit := call (Write fd [c]) ;? done tt.
Definition uprintf (fd : Z) (fmt : list Z) (args : list vararg) : prog unit :=
  match text fmt args with
  | Ret cs => each cs (putc fd)
  | _ => undefined
  end.

(** ** ulib.c *)
Definition c_lf : Z := 10.
Definition c_cr : Z := 13.
(** The characters read so far, [max - 1] at most. *)
Definition gets (max : Z) : prog (list Z) :=
  loop (λ buf,
    if Z.of_nat (length buf) + 1 <? max then
      let? (cc, bs) := call (Read 0 1) in
      if cc <? 1 then done (inr buf)
      else
        let c := default 0 (head bs) in
        if (c =? c_lf) || (c =? c_cr) then done (inr (buf ++ [c]))
        else done (inl (buf ++ [c]))
    else done (inr buf)) [].
(** [stat]; what is in [st] when the file cannot be opened is [st]. *)
Definition ustat (n : list Z) (st : stat) : prog (Z * stat) :=
  let? fd := call (Open n O_RDONLY) in
  if fd <? 0 then done (-1, st)
  else
    let? (r, st) := call (Fstat fd) in
    call (Close fd) ;?
    done (r, st).

(** Formatting always ends. *)
Definition decimal (z : Z) : list Z :=
  match printint upper_digits (i32 z) 10 true with Ret ds => ds | _ => [] end.
Definition shown (fmt : list Z) (args : list vararg) : list Z :=
  match text fmt args with Ret cs => cs | _ => [] end.
Lemma i32_range z : - 2 ^ 31 ≤ i32 z < 2 ^ 31.
Proof. unfold i32, sext. Z.div_mod_to_equations. lia. Qed.
Lemma printint_total z base sgn : base = 10 ∨ base = 16 → ∃ ds, printint upper_digits (i32 z) base sgn = Ret ds.
Proof.
  intros Hb. destruct (printint_reads_back upper_digits (i32 z) base sgn) as (ds & E & _); [by right|done|apply i32_range|eauto].
Qed.
Lemma printint_decimal z : printint upper_digits (i32 z) 10 true = Ret (decimal z).
Proof. unfold decimal. destruct (printint_total z 10 true) as [ds E]; [by left|]. by rewrite E. Qed.
Lemma printf_total str fmt : ∀ state args n, ∃ cs, printf_loop str upper_digits state fmt args n = Ret cs.
Proof.
  induction fmt as [|c fmt IH]; intros state args n; cbn [printf_loop]; [eauto|].
  destruct (IH true args n) as [c1 E1], (IH false args n) as [c2 E2], (IH false args (S n)) as [c3 E3].
  destruct (printint_total (args n) 10 true) as [d1 F1]; [by left|]. destruct (printint_total (args n) 16 false) as [d2 F2]; [by right|].
  rewrite E1, E2, E3, F1, F2. by repeat case_match; eexists.
Qed.
Lemma text_shown fmt args : text fmt args = Ret (shown fmt args).
Proof. unfold shown, text, printf. destruct (printf_total (va_str args) fmt false (va_word args) 0) as [cs E]. by rewrite E. Qed.
(** Formats, a piece at a time; [n] arguments have been used. *)
Definition shown_from (args : list vararg) (n : nat) (fmt : list Z) : list Z :=
  match printf_loop (va_str args) upper_digits false fmt (va_word args) n with Ret cs => cs | _ => [] end.
Lemma shown_start fmt args : shown fmt args = shown_from args 0 fmt.
Proof. reflexivity. Qed.
Lemma shown_char args n c fmt : c ≠ c_pct → shown_from args n (c :: fmt) = c :: shown_from args n fmt.
Proof.
  intros Hc. unfold shown_from. cbn [printf_loop negb]. rewrite (proj2 (Z.eqb_neq _ _) Hc).
  by destruct (printf_total (va_str args) fmt false (va_word args) n) as [cs ->].
Qed.
Lemma shown_d args n z fmt : args !! n = Some (VInt z) →
  shown_from args n (37 :: 100 :: fmt) = decimal z ++ shown_from args (S n) fmt.
Proof.
  intros Ha. unfold shown_from. cbn [printf_loop negb]. change (37 =? c_pct) with true. change (100 =? c_d) with true. cbv iota.
  assert (va_word args n = z) as -> by (unfold va_word; by rewrite Ha). rewrite printint_decimal.
  by destruct (printf_total (va_str args) fmt false (va_word args) (S n)) as [cs ->].
Qed.
Lemma shown_s args n a fmt : args !! n = Some (VStr a) →
  shown_from args n (37 :: 115 :: fmt) = a ++ shown_from args (S n) fmt.
Proof.
  intros Ha. unfold shown_from. cbn [printf_loop negb]. change (37 =? c_pct) with true. change (115 =? c_d) with false.
  change ((115 =? c_x) || (115 =? c_p)) with false. change (115 =? c_s) with true. cbv iota.
  destruct (printf_total (va_str args) fmt false (va_word args) (S n)) as [cs ->]. f_equal. unfold va_word, string_arg. rewrite Ha.
  rewrite (proj2 (Z.eqb_neq _ _)) by lia. unfold va_str. by replace (Z.to_nat (Z.of_nat n + 1 - 1)) with n by lia; rewrite Ha.
Qed.
Ltac show_format :=
  rewrite shown_start;
  match goal with |- context [shown_from _ 0 ?fmt] => let f := eval vm_compute in fmt in change fmt with f end;
  repeat match goal with
  | |- context [shown_from _ _ (37 :: 100 :: _)] => erewrite shown_d; [|reflexivity]
  | |- context [shown_from _ _ (37 :: 115 :: _)] => erewrite shown_s; [|reflexivity]
  | |- context [shown_from _ _ (_ :: _)] => rewrite shown_char by done
  end.
Lemma decimal_reads_back z : - 2 ^ 31 ≤ z < 2 ^ 31 → read_number 10 (decimal z) = z.
Proof.
  intros Hz. unfold decimal. rewrite i32_small by done.
  by destruct (printint_reads_back upper_digits z 10 true) as (ds & -> & _ & E); [by right|by left|done|].
Qed.

(** ** What an environment sees of a program *)
Section Seen.
(** The state of the environment, what it sees of a call, and of the end. *)
Context {W N E : Type}.
Inductive seen :=
| Note (n : N) (t : seen)
| Both (child parent : seen)
| End (e : E).
(** An answer to a call: the call returns, it returns twice, or not at all. *)
Inductive reply (X : Type) :=
| Go (ns : list N) (x : X) (s : W)
| Split (xc : X) (sc : W) (xp : X) (sp : W)
| Stop (ns : list N) (e : E).
#[global] Arguments Go {X} ns x s.
#[global] Arguments Split {X} xc sc xp sp.
#[global] Arguments Stop {X} ns e.
Context (env : ∀ X, sys X → W → reply X).
Definition notes (ns : list N) (t : seen) : seen := foldr Note t ns.

Fixpoint watch {R} (fuel : nat) (t : prog R) (s : W) : option seen :=
  match fuel with
  | O => None
  | S fuel =>
      match observe t with
      | ITreeDefinition.RetF _ => None
      | ITreeDefinition.TauF t => watch fuel t s
      | ITreeDefinition.VisF e k =>
          match env _ e s with
          | Go ns x s => notes ns <$> watch fuel (k x) s
          | Split xc sc xp sp =>
              match watch fuel (k xc) sc, watch fuel (k xp) sp with
              | Some c, Some p => Some (Both c p)
              | _, _ => None
              end
          | Stop ns e => Some (notes ns (End e))
          end
      end
  end.

(** The program ends, and [v] is seen of it. *)
Inductive shows {R} : prog R → W → seen → Prop :=
| sh_tau t t' s v : observe t = ITreeDefinition.TauF t' → shows t' s v → shows t s v
| sh_go t X (e : sys X) k s ns x s' v : observe t = ITreeDefinition.VisF e k →
    env X e s = Go ns x s' → shows (k x) s' v → shows t s (notes ns v)
| sh_split t X (e : sys X) k s xc sc xp sp vc vp : observe t = ITreeDefinition.VisF e k →
    env X e s = Split xc sc xp sp → shows (k xc) sc vc → shows (k xp) sp vp → shows t s (Both vc vp)
| sh_stop t X (e : sys X) k s ns x : observe t = ITreeDefinition.VisF e k →
    env X e s = Stop ns x → shows t s (notes ns (End x)).
(** The program returns [r], having been seen to do [ns]. *)
Inductive gives {R} : prog R → W → list N → R → W → Prop :=
| gv_ret t s r : observe t = ITreeDefinition.RetF r → gives t s [] r s
| gv_tau t t' s ns r s' : observe t = ITreeDefinition.TauF t' → gives t' s ns r s' → gives t s ns r s'
| gv_go t X (e : sys X) k s ns x s1 ns' r s' : observe t = ITreeDefinition.VisF e k →
    env X e s = Go ns x s1 → gives (k x) s1 ns' r s' → gives t s (ns ++ ns') r s'.
End Seen.
Arguments seen : clear implicits.
Arguments reply : clear implicits.

(** ** Rules *)
Section Rules.
Context {W N E : Type} (env : ∀ X, sys X → W → reply W N E X).
#[local] Abbreviation shows := (shows env).
#[local] Abbreviation gives := (gives env).

Lemma notes_app (ns ns' : list N) (v : seen N E) : notes (ns ++ ns') v = notes ns (notes ns' v).
Proof. apply foldr_app. Qed.

Lemma observe_andThen {A B} (t : prog A) (k : A → prog B) : observe (andThen t k) =
  match observe t with
  | ITreeDefinition.RetF r => observe (k r)
  | ITreeDefinition.TauF t => ITreeDefinition.TauF (andThen t k)
  | ITreeDefinition.VisF e h => ITreeDefinition.VisF e (λ x, andThen (h x) k)
  end.
Proof.
  transitivity (observe (match observe t with
    | ITreeDefinition.RetF r => k r
    | ITreeDefinition.TauF t => ITreeDefinition.go (ITreeDefinition.TauF (andThen t k))
    | ITreeDefinition.VisF e h => ITreeDefinition.go (ITreeDefinition.VisF e (λ x, andThen (h x) k))
    end)); [reflexivity|]. by destruct (observe t).
Qed.
Lemma observe_loop {I R} (body : I → prog (I + R)) i : observe (loop body i) =
  observe (andThen (body i) (λ r, match r with
    | inl i => ITreeDefinition.go (ITreeDefinition.TauF (loop body i))
    | inr r => done r
    end)).
Proof. done. Qed.
(** The rules look at a tree through [observe] only. *)
Lemma shows_obs {R} (t t' : prog R) s v : observe t = observe t' → shows t s v → shows t' s v.
Proof. intros E1 H. destruct H; rewrite E1 in *; by econstructor. Qed.
Lemma gives_obs {R} (t t' : prog R) s ns r s' : observe t = observe t' → gives t s ns r s' → gives t' s ns r s'.
Proof. intros E1 H. destruct H; rewrite E1 in *; by econstructor. Qed.

Lemma shows_bind {A B} (t : prog A) (k : A → prog B) s ns a s' v :
  gives t s ns a s' → shows (k a) s' v → shows (andThen t k) s (notes ns v).
Proof.
  intros H Hk. induction H as [t s r Ho|t t' s ns r s' Ho _ IH|t X e h s ns x s1 ns' r s' Ho He _ IH].
  - eapply shows_obs; [|exact Hk]. by rewrite observe_andThen, Ho.
  - eapply sh_tau; [|by apply IH]. by rewrite observe_andThen, Ho.
  - rewrite notes_app. eapply (sh_go env _ X e (λ x, andThen (h x) k)); [|exact He|by apply IH]. by rewrite observe_andThen, Ho.
Qed.
Lemma gives_bind {A B} (t : prog A) (k : A → prog B) s ns a s' ns' b s'' :
  gives t s ns a s' → gives (k a) s' ns' b s'' → gives (andThen t k) s (ns ++ ns') b s''.
Proof.
  intros H Hk. induction H as [t s r Ho|t t' s ns r s' Ho _ IH|t X e h s ns x s1 ns1 r s' Ho He _ IH].
  - eapply gives_obs; [|exact Hk]. by rewrite observe_andThen, Ho.
  - eapply gv_tau; [|by apply IH]. by rewrite observe_andThen, Ho.
  - rewrite <- app_assoc. eapply (gv_go env _ X e (λ x, andThen (h x) k)); [|exact He|by apply IH]. by rewrite observe_andThen, Ho.
Qed.
Lemma gives_done {A} (a : A) s : gives (done a) s [] a s.
Proof. by apply gv_ret. Qed.
Lemma gives_call {A} (e : sys A) s ns x s' : env A e s = Go ns x s' → gives (call e) s ns x s'.
Proof. intros H. rewrite <- (app_nil_r ns). eapply (gv_go env); [done|exact H|]. by apply gv_ret. Qed.
Lemma shows_call {A B} (e : sys A) (k : A → prog B) s ns x s' v : env A e s = Go ns x s' → shows (k x) s' v →
  shows (andThen (call e) k) s (notes ns v).
Proof. intros He Hk. eapply shows_bind; [by apply gives_call|done]. Qed.
Lemma shows_fork {A B} (e : sys A) (k : A → prog B) s xc sc xp sp vc vp : env A e s = Split xc sc xp sp →
  shows (k xc) sc vc → shows (k xp) sp vp → shows (andThen (call e) k) s (Both vc vp).
Proof.
  intros He Hc Hp. eapply (sh_split env _ _ e (λ x, andThen (done x) k)); [by rewrite observe_andThen|exact He|..].
  - eapply shows_obs; [|exact Hc]. by rewrite observe_andThen.
  - eapply shows_obs; [|exact Hp]. by rewrite observe_andThen.
Qed.
Lemma shows_stop {A B} (e : sys A) (k : A → prog B) s ns x : env A e s = Stop ns x →
  shows (andThen (call e) k) s (notes ns (End x)).
Proof. intros He. eapply (sh_stop env _ _ e (λ x, andThen (done x) k)); [by rewrite observe_andThen|exact He]. Qed.
(** What ends does not come back. *)
Lemma shows_ends {A B} (t : prog A) (k : A → prog B) s v : shows t s v → shows (andThen t k) s v.
Proof.
  induction 1 as [t t' s v Ho _ IH|t X e h s ns x s' v Ho He _ IH|t X e h s xc sc xp sp vc vp Ho He _ IHc _ IHp|t X e h s ns x Ho He].
  - eapply sh_tau; [|exact IH]. by rewrite observe_andThen, Ho.
  - eapply (sh_go env _ X e (λ x, andThen (h x) k)); [|exact He|exact IH]. by rewrite observe_andThen, Ho.
  - eapply (sh_split env _ X e (λ x, andThen (h x) k)); [|exact He|exact IHc|exact IHp]. by rewrite observe_andThen, Ho.
  - eapply (sh_stop env _ X e (λ x, andThen (h x) k)); [|exact He]. by rewrite observe_andThen, Ho.
Qed.
Lemma gives_then {A B} (e : sys A) (k : A → prog B) s ns x s' r s'' : env A e s = Go ns x s' →
  gives (k x) s' [] r s'' → gives (andThen (call e) k) s ns r s''.
Proof. intros He Hk. rewrite <- (app_nil_r ns). eapply gives_bind; [by apply gives_call|done]. Qed.
(** A call of which nothing is seen *)
Lemma shows_quiet {A B} (e : sys A) (k : A → prog B) s x s' v : env A e s = Go [] x s' → shows (k x) s' v →
  shows (andThen (call e) k) s v.
Proof. apply (shows_call e k s []). Qed.
Lemma shows_done {A B} (a : A) (k : A → prog B) s v : shows (k a) s v → shows (andThen (done a) k) s v.
Proof. intros H. eapply shows_obs; [|exact H]. by rewrite observe_andThen. Qed.
Lemma gives_quiet {A B} (e : sys A) (k : A → prog B) s x s' ns r s'' : env A e s = Go [] x s' →
  gives (k x) s' ns r s'' → gives (andThen (call e) k) s ns r s''.
Proof. intros He Hk. change ns with ([] ++ ns). eapply gives_bind; [by apply gives_call|done]. Qed.
(** Loops *)
Lemma gives_again {I R} (body : I → prog (I + R)) i s ns i' s' ns' r s'' :
  gives (body i) s ns (inl i') s' → gives (loop body i') s' ns' r s'' → gives (loop body i) s (ns ++ ns') r s''.
Proof.
  intros H1 H2. eapply gives_obs; [symmetry; apply observe_loop|]. eapply gives_bind; [exact H1|]. by eapply gv_tau.
Qed.
Lemma gives_end {I R} (body : I → prog (I + R)) i s ns r s' :
  gives (body i) s ns (inr r) s' → gives (loop body i) s ns r s'.
Proof.
  intros H1. eapply gives_obs; [symmetry; apply observe_loop|]. rewrite <- (app_nil_r ns).
  eapply gives_bind; [exact H1|]. apply gives_done.
Qed.
(** Output *)
Lemma gives_each {A} (l : list A) (body : A → prog unit) (f : A → list N) s :
  (∀ x, x ∈ l → gives (body x) s (f x) tt s) → gives (each l body) s (concat (f <$> l)) tt s.
Proof.
  induction l as [|x l IH]; intros H; [apply gives_done|]. cbn [each fmap list_fmap concat].
  eapply gives_bind; [apply H, list_elem_of_here|]. apply IH. intros y Hy. apply H. by apply list_elem_of_further.
Qed.

(** What is seen is what [watch] computes. *)
Lemma watch_more {R} n : ∀ m (t : prog R) s v, (n ≤ m)%nat → watch env n t s = Some v → watch env m t s = Some v.
Proof.
  induction n as [|n IH]; intros m t s v Hm H; [done|]. destruct m as [|m]; [lia|]. cbn [watch] in *.
  destruct (observe t) as [r|t'|X e k]; [done|by apply (IH m); [lia|]|].
  destruct (env X e s) as [ns x s'|xc sc xp sp|ns x]; [..|done].
  - destruct (watch env n (k x) s') as [v'|] eqn:E1; [|done]. by rewrite (IH m _ _ _ ltac:(lia) E1).
  - destruct (watch env n (k xc) sc) as [vc|] eqn:E1; [|done]. destruct (watch env n (k xp) sp) as [vp|] eqn:E2; [|done].
    by rewrite (IH m _ _ _ ltac:(lia) E1), (IH m _ _ _ ltac:(lia) E2).
Qed.
Lemma shows_watch {R} (t : prog R) s v : shows t s v → ∃ n, watch env n t s = Some v.
Proof.
  induction 1 as [t t' s v Ho _ [n IH]|t X e k s ns x s' v Ho He _ [n IH]
    |t X e k s xc sc xp sp vc vp Ho He _ [n IHc] _ [m IHp]|t X e k s ns x Ho He].
  - exists (S n). cbn [watch]. by rewrite Ho.
  - exists (S n). cbn [watch]. by rewrite Ho, He, IH.
  - exists (S (n + m)). cbn [watch]. rewrite Ho, He.
    by rewrite (watch_more _ _ _ _ _ (Nat.le_add_r n m) IHc), (watch_more m (n + m) _ _ _ ltac:(lia) IHp).
  - exists 1%nat. cbn [watch]. by rewrite Ho, He.
Qed.
Lemma watch_shows {R} n : ∀ (t : prog R) s v, watch env n t s = Some v → shows t s v.
Proof.
  induction n as [|n IH]; intros t s v H; [done|]. cbn [watch] in H.
  destruct (observe t) as [r|t'|X e k] eqn:Ho; [done|by eapply sh_tau; [|apply IH]|].
  destruct (env X e s) as [ns x s'|xc sc xp sp|ns x] eqn:He.
  - apply fmap_Some in H as (v' & Hv & ->). eapply (sh_go env); [done..|by apply IH].
  - destruct (watch env n (k xc) sc) as [vc|] eqn:E1; [|done]. destruct (watch env n (k xp) sp) as [vp|] eqn:E2; [|done].
    injection H as <-. eapply (sh_split env); [done..|by apply IH|by apply IH].
  - injection H as <-. by eapply (sh_stop env).
Qed.
Lemma watch_obs {R} n (t t' : prog R) s : observe t = observe t' → watch env n t s = watch env n t' s.
Proof. intros E1. destruct n; [done|]. cbn [watch]. by rewrite E1. Qed.
Lemma watch_assoc {A B C} (k : A → prog B) (h : B → prog C) n : ∀ (t : prog A) s,
  watch env n (andThen t (λ x, andThen (k x) h)) s = watch env n (andThen (andThen t k) h) s.
Proof.
  induction n as [|n IH]; intros t s; [done|].
  destruct (observe t) as [r|t'|X e g] eqn:Ho.
  - apply watch_obs. by rewrite (observe_andThen t), (observe_andThen (andThen t k)), (observe_andThen t k), Ho, observe_andThen.
  - cbn [watch]. rewrite (observe_andThen t), (observe_andThen (andThen t k)), (observe_andThen t k), Ho. apply IH.
  - cbn [watch]. rewrite (observe_andThen t), (observe_andThen (andThen t k)), (observe_andThen t k), Ho.
    destruct (env X e s); [by rewrite IH|by rewrite !IH|done].
Qed.
Lemma shows_assoc {A B C} (t : prog A) (k : A → prog B) (h : B → prog C) s v :
  shows (andThen t (λ x, andThen (k x) h)) s v → shows (andThen (andThen t k) h) s v.
Proof. intros [n H]%shows_watch. apply (watch_shows n). by rewrite <- watch_assoc. Qed.
(** A round of a loop, with what follows the loop. *)
Lemma shows_loop {I R B} (body : I → prog (I + R)) i (k : R → prog B) s v :
  shows (andThen (body i) (λ r, match r with inl i => andThen (loop body i) k | inr r => k r end)) s v →
  shows (andThen (loop body i) k) s v.
Proof.
  intros [n H]%shows_watch. apply (watch_shows (n + n)).
  set (f := λ r, match r with inl i => ITreeDefinition.go (ITreeDefinition.TauF (loop body i)) | inr r => done r end).
  transitivity (watch env (n + n) (andThen (andThen (body i) f) k) s).
  { apply watch_obs. by rewrite (observe_andThen (loop body i)), (observe_andThen (andThen _ f)), observe_loop. }
  rewrite <- watch_assoc. revert H. generalize (body i) s v. clear s v. induction n as [|n IH]; intros t s v H; [done|]. cbn [Nat.add].
  destruct (observe t) as [r|t'|X e g] eqn:Ho.
  - rewrite (watch_obs _ _ (andThen (f r) k)) by (by rewrite (observe_andThen t), Ho).
    rewrite (watch_obs _ _ (match r with inl i => andThen (loop body i) k | inr r => k r end)) in H by (by rewrite observe_andThen, Ho).
    destruct r as [i'|r]; unfold f; cbn [watch]; rewrite observe_andThen; [by eapply watch_more; [|exact H]; lia|].
    exact (watch_more (S n) (S (n + S n)) _ _ _ ltac:(lia) H).
  - cbn [watch] in *. rewrite observe_andThen, Ho in H. rewrite observe_andThen, Ho. eapply (watch_more (n + n)); [lia|]. by apply IH.
  - cbn [watch] in *. rewrite observe_andThen, Ho in H. rewrite observe_andThen, Ho. destruct (env X e s) as [ns x s'|xc sc xp sp|ns x]; [..|done].
    + apply fmap_Some in H as (v' & Hv & ->). by rewrite (watch_more (n + n) (n + S n) _ _ _ ltac:(lia) (IH _ _ _ Hv)).
    + destruct (watch env n (andThen (g xc) _) sc) as [vc|] eqn:E1; [|done]. destruct (watch env n (andThen (g xp) _) sp) as [vp|] eqn:E2; [|done].
      injection H as <-. by rewrite (watch_more (n + n) (n + S n) _ _ _ ltac:(lia) (IH _ _ _ E1)), (watch_more (n + n) (n + S n) _ _ _ ltac:(lia) (IH _ _ _ E2)).
Qed.
Lemma watch_call {A B} (e : sys A) (k : A → prog B) n s : watch env (S n) (andThen (call e) k) s =
  match env A e s with
  | Go ns x s => notes ns <$> watch env n (k x) s
  | Split xc sc xp sp =>
      match watch env n (k xc) sc, watch env n (k xp) sp with
      | Some c, Some p => Some (Both c p)
      | _, _ => None
      end
  | Stop ns x => Some (notes ns (End x))
  end.
Proof.
  assert (∀ x s, watch env n (andThen (done x) k) s = watch env n (k x) s) as H.
  { intros x s1. apply watch_obs. by rewrite observe_andThen. }
  cbn [watch]. rewrite observe_andThen. change (observe (call e)) with (@ITreeDefinition.VisF sys A (prog A) A e done). cbv iota.
  destruct (env A e s); by rewrite ?H.
Qed.
Lemma watch_undefined {A B} (k : A → prog B) n : ∀ s, watch env n (andThen undefined k) s = None.
Proof. induction n as [|n IH]; intros s; [done|]. cbn [watch]. rewrite observe_andThen. apply IH. Qed.
Lemma watch_done {A} n : ∀ (t : prog A) s, watch env n (andThen t done) s = watch env n t s.
Proof.
  induction n as [|n IH]; intros t s; [done|]. cbn [watch]. rewrite observe_andThen. destruct (observe t) as [r|t'|X e k]; [done|apply IH|].
  destruct (env X e s); by rewrite ?IH.
Qed.
Lemma shows_last {A} (t : prog A) s v : shows (andThen t done) s v → shows t s v.
Proof. intros [n H]%shows_watch. apply (watch_shows n). by rewrite <- watch_done. Qed.
End Rules.
