(* ===== verification/ShRun.v ===== *)
(** * The shell (sh.c): running commands, built-in commands, the main loop

    [runcmd] and [main] as trees of system calls, on the commands of Sh.v.
    The environment for them keeps the descriptor table of a process the way
    sysfile.c does (a call that needs a descriptor takes the lowest free one)
    and names pipes after the process that made them; whether files can be
    opened, programs executed and processes forked is up to the environment.
    The theorems compare what the shell does with [plan], the meaning of a
    command as a tree of processes with the descriptors they run with. *)
From S2P Require Import Prelude Machine ProcOps Fs Lapic Sysfile Printf User Sh.

Open Scope Z_scope.

(** ** The program *)

(** A word after [nulterminate]: the C string at its place in the line. *)
Definition arg (line : list Z) (w : span) : list Z := cstring (drop (length line - 1 - length w.1) line).
Abbreviation bytes := cbytes.
Definition nl : list Z := [10].

Definition sh_panic {A} (s : list Z) : prog A := uprintf 2 (bytes "%s" ++ nl) [VStr s] ;? exit.
Definition fork1 : prog Z :=
  let? pid := call Fork in
  (if pid =? -1 then sh_panic (bytes "fork") else done tt) ;?
  done pid.

(** The [break] of each case leads to the [exit] at the end. *)
Fixpoint runcmd (line : list Z) (c : cmd) : prog unit :=
  match c with
  | EXEC argv =>
      match argv with
      | [] => exit
      | a :: _ =>
          call (Exec (arg line a) (arg line <$> argv)) ;?
          uprintf 2 (bytes "exec %s failed" ++ nl) [VStr (arg line a)] ;?
          exit
      end
  | REDIR c file mode fd =>
      call (Close fd) ;?
      let? r := call (Open (arg line file) mode) in
      (if r <? 0 then
         uprintf 2 (bytes "open %s failed" ++ nl) [VStr (arg line file)] ;?
         exit
       else done tt) ;?
      runcmd line c ;?
      exit
  | LIST l r =>
      let? pid := fork1 in
      (if pid =? 0 then runcmd line l else done tt) ;?
      call Wait ;?
      runcmd line r ;?
      exit
  | PIPE l r =>
      let? (ok, (p0, p1)) := call Pipe in
      (if ok <? 0 then sh_panic (bytes "pipe") else done tt) ;?
      let? pid := fork1 in
      (if pid =? 0 then
         call (Close 1) ;? call (Dup p1) ;? call (Close p0) ;? call (Close p1) ;?
         runcmd line l
       else done tt) ;?
      let? pid := fork1 in
      (if pid =? 0 then
         call (Close 0) ;? call (Dup p0) ;? call (Close p0) ;? call (Close p1) ;?
         runcmd line r
       else done tt) ;?
      call (Close p0) ;?
      call (Close p1) ;?
      call Wait ;?
      call Wait ;?
      exit
  | BACK c =>
      let? pid := fork1 in
      (if pid =? 0 then runcmd line c else done tt) ;?
      exit
  end.

(** [buf] up to the first NUL that [memset] left; [None] at the end of input. *)
Definition NBUF : Z := 100.
Definition getcmd : prog (option (list Z)) :=
  uprintf 2 (bytes "$ ") [] ;?
  let? buf := gets NBUF in
  done (if ch buf =? 0 then None else Some buf).

(** Built-in commands; a pointer is the characters from it on. *)
Fixpoint sh_strncmp (n : nat) (p q : list Z) : Z :=
  match n with
  | O => 0
  | S n' =>
      if negb (ch p =? 0) && (ch p =? ch q) then sh_strncmp n' (tail p) (tail q)
      else ch p - ch q
  end.
Fixpoint makeint_loop (val : Z) (p : list Z) : Z :=
  match p with
  | c :: p => if (48 <=? c) && (c <=? 57) then makeint_loop (i32 (10 * val + (c - 48))) p else val
  | [] => val
  end.
Definition makeint (p : list Z) : Z := makeint_loop 0 p.
(** [while (strncmp(p, " ", 1) == 0) p++;] *)
Fixpoint chomp (p : list Z) : list Z :=
  match p with
  | c :: p' => if sh_strncmp 1 p [32] =? 0 then chomp p' else p
  | [] => []
  end.
Definition setbuiltin (p : list Z) : prog Z :=
  let p := chomp (drop 4 p) in
  if sh_strncmp 3 (bytes "uid") p =? 0 then call (Setuid (makeint (chomp (drop 3 p))))
  else if sh_strncmp 3 (bytes "gid") p =? 0 then call (Setgid (makeint (chomp (drop 3 p))))
  else
    uprintf 2 (bytes "Invalid _set parameter" ++ nl) [] ;?
    done (-1).
Definition getbuiltin (p : list Z) : prog Z :=
  let p := chomp (drop 4 p) in
  if sh_strncmp 3 (bytes "uid") p =? 0 then
    let? u := call Getuid in
    uprintf 2 (bytes "%d" ++ nl) [VInt u] ;?
    done 0
  else if sh_strncmp 3 (bytes "gid") p =? 0 then
    let? g := call Getgid in
    uprintf 2 (bytes "%d" ++ nl) [VInt g] ;?
    done 0
  else
    uprintf 2 (bytes "Invalid _get parameter" ++ nl) [] ;?
    done (-1).
Definition fdt : list (list Z * (list Z → prog Z)) :=
  [(bytes "_set", setbuiltin); (bytes "_get", getbuiltin)].
Definition dobuiltin (cmd : list Z) : prog unit :=
  each fdt (λ e,
    if sh_strncmp (length e.1) cmd e.1 =? 0 then e.2 cmd ;? done tt else done tt).

(** What [parsecmd] prints before it panics because of leftovers. *)
Definition leftovers (s : list Z) : list Z :=
  match parseline (parse_fuel s) s with
  | Ret (_, rest) => skip_ws rest
  | _ => []
  end.
Definition run_line (buf : list Z) : prog unit :=
  let s := cstring buf in
  match parsecmd s with
  | Ret (c, line) => runcmd line c
  | Panic msg =>
      (match leftovers s with
       | [] => done tt
       | l => uprintf 2 (bytes "leftovers: %s" ++ nl) [VStr l]
       end) ;?
      sh_panic (bytes msg)
  | _ => undefined
  end.
Definition is_cd (buf : list Z) : bool :=
  (ch buf =? 99) && (ch (tail buf) =? 100) && (ch (tail (tail buf)) =? 32).
Definition main_round : prog (unit + unit) :=
  let? r := getcmd in
  match r with
  | None => done (inr tt)
  | Some buf =>
      if is_cd buf then
        let s := cstring buf in
        let dir := drop 3 (take (length s - 1) s) in
        let? r := call (Chdir dir) in
        (if r <? 0 then uprintf 2 (bytes "cannot cd %s" ++ nl) [VStr dir] else done tt) ;?
        done (inl tt)
      else if ch buf =? 95 then
        dobuiltin (cstring buf) ;?
        done (inl tt)
      else
        let? pid := fork1 in
        (if pid =? 0 then run_line buf else done tt) ;?
        call Wait ;?
        done (inl tt)
  end.
(** [while((fd = open("console", O_RDWR)) >= 0)] *)
Definition open_console : prog unit :=
  loop (λ _,
    let? fd := call (Open (bytes "console") O_RDWR) in
    if 0 <=? fd then
      if 3 <=? fd then call (Close fd) ;? done (inr tt) else done (inl tt)
    else done (inr tt)) tt.
Definition sh_main : prog unit :=
  open_console ;?
  loop (λ _, main_round) tt ;?
  exit.

(** ** The environment *)

(** What a descriptor stands for. *)
Inductive ofile :=
| Named (path : list Z) (mode : Z)
| PipeEnd (name : list nat) (write : bool).
#[export] Instance ofile_eq_dec : EqDecision ofile.
Proof. solve_decision. Defined.
Abbreviation fds := (gmap Z ofile).
(** A process: its descriptors, its place in the tree of processes, how many
    processes and pipes it has made, and the input that is left. *)
Record pst := mkPst { ps_fds : fds; ps_me : list nat; ps_n : nat; ps_in : list Z }.
Definition set_fds (v : fds) (s : pst) : pst := mkPst v (ps_me s) (ps_n s) (ps_in s).
Definition bump (s : pst) : pst := mkPst (ps_fds s) (ps_me s) (S (ps_n s)) (ps_in s).
Definition set_in (v : list Z) (s : pst) : pst := mkPst (ps_fds s) (ps_me s) (ps_n s) v.
Definition name_of (s : pst) : list nat := ps_me s ++ [ps_n s].
Definition child_of (s : pst) : pst := mkPst (ps_fds s) (name_of s) 0 (ps_in s).

(** What is seen: characters written to a file, a wait with the descriptors
    held meanwhile, a change of directory, of user or of group. *)
Inductive note :=
| Wrote (f : option ofile) (bs : list Z)
| Waits (held : fds)
| Cd (path : list Z)
| SetU (uid : Z)
| SetG (gid : Z).
Inductive ending :=
| Exits
| Runs (path : list Z) (argv : list (list Z)) (held : fds).

(** [fdalloc] *)
Fixpoint lowest_from (n : nat) (fd : Z) (t : fds) : option Z :=
  match n with
  | O => None
  | S n => match t !! fd with None => Some fd | Some _ => lowest_from n (fd + 1) t end
  end.
Definition lowest (t : fds) : option Z := lowest_from NOFILE 0 t.

Record world := {
  can_open : list Z → Z → bool;
  can_exec : list Z → list (list Z) → bool;
  can_fork : list nat → bool;
  can_cd : list Z → bool;
  pid_of : list nat → Z;
  wait_result : list nat → Z;
  uid_of : list nat → Z;
  gid_of : list nat → Z;
  set_result : Z → Z }.

Section World.
Context (w : world).
Abbreviation answer X := (reply pst note ending X).
Definition give_fd (f : ofile) (s : pst) : answer Z :=
  match lowest (ps_fds s) with
  | Some fd => Go [] fd (set_fds (<[fd := f]> (ps_fds s)) s)
  | None => Go [] (-1) s
  end.
Definition sys_env (X : Type) (e : sys X) (s : pst) : answer X :=
  match e in sys X return answer X with
  | Fork =>
      if can_fork w (name_of s) then Split 0 (child_of s) (pid_of w (name_of s)) (bump s)
      else Go [] (-1) s
  | Exit => Stop [] Exits
  | Wait => Go [Waits (ps_fds s)] (wait_result w (name_of s)) s
  | Pipe =>
      match lowest (ps_fds s) with
      | Some a =>
          let t := <[a := PipeEnd (name_of s) false]> (ps_fds s) in
          match lowest t with
          | Some b => Go [] (0, (a, b)) (bump (set_fds (<[b := PipeEnd (name_of s) true]> t) s))
          | None => Go [] (-1, (0, 0)) s
          end
      | None => Go [] (-1, (0, 0)) s
      end
  | Read fd n =>
      match ps_in s with
      | c :: l => Go [] (1, [c]) (set_in l s)
      | [] => Go [] (0, []) s
      end
  | Write fd bs =>
      Go [Wrote (ps_fds s !! fd) bs] (match ps_fds s !! fd with Some _ => Z.of_nat (length bs) | None => -1 end) s
  | Close fd =>
      match ps_fds s !! fd with
      | Some _ => Go [] 0 (set_fds (delete fd (ps_fds s)) s)
      | None => Go [] (-1) s
      end
  | Exec path argv => if can_exec w path argv then Stop [] (Runs path argv (ps_fds s)) else Go [] (-1) s
  | Open path mode => if can_open w path mode then give_fd (Named path mode) s else Go [] (-1) s
  | Dup fd => match ps_fds s !! fd with Some f => give_fd f s | None => Go [] (-1) s end
  | Chdir path => Go [Cd path] (if can_cd w path then 0 else -1) s
  | Getuid => Go [] (uid_of w (ps_me s)) s
  | Getgid => Go [] (gid_of w (ps_me s)) s
  | Setuid u => Go [SetU u] (set_result w u) s
  | Setgid g => Go [SetG g] (set_result w g) s
  | Fstat _ => Go [] (-1, mkStat 0 0 0 0 0) s
  | Getprocs _ => Go [] (-1, []) s
  | Date => Go [] (-1, mkDate 0 0 0 0 0 0) s
  | Kill _ | Mknod _ _ _ | Unlink _ | Link _ _ | Mkdir _ | Getpid | Getppid | Sleep _ | Setpriority _ _ => Go [] (-1) s
  end.

(** ** The meaning of a command *)
Abbreviation view := (seen note ending).
Definition said (fd : Z) (cs : list Z) (s : pst) : list note := (λ c, Wrote (ps_fds s !! fd) [c]) <$> cs.
Definition says (cs : list Z) (s : pst) (v : view) : view := notes (said 2 cs s) v.
Definition redirect (fd : Z) (f : ofile) (s : pst) : pst := set_fds (<[fd := f]> (ps_fds s)) s.
(** A new process, or the message that there is none. *)
Definition forked (child parent : pst → view) (s : pst) : view :=
  if can_fork w (name_of s) then Both (child (child_of s)) (parent (bump s))
  else says (bytes "fork" ++ nl) s (End Exits).
Definition waits (n : nat) (s : pst) (v : view) : view := notes (replicate n (Waits (ps_fds s))) v.

(** The processes of a command and the descriptors they run with.  The two
    sides of a pipe have its ends for descriptors 1 and 0, and no process of
    the command holds any other end of it. *)
Fixpoint plan (t : tree) (s : pst) : view :=
  match t with
  | TExec [] => End Exits
  | TExec (a :: l) =>
      if can_exec w a (a :: l) then End (Runs a (a :: l) (ps_fds s))
      else says (bytes "exec " ++ a ++ bytes " failed" ++ nl) s (End Exits)
  | TRedir t file mode fd =>
      if can_open w file mode then plan t (redirect fd (Named file mode) s)
      else says (bytes "open " ++ file ++ bytes " failed" ++ nl) s (End Exits)
  | TPipe l r =>
      forked (λ c, plan l (redirect 1 (PipeEnd (name_of s) true) c))
        (forked (λ c, plan r (redirect 0 (PipeEnd (name_of s) false) c))
          (λ s, waits 2 s (End Exits))) (bump s)
  | TList l r => forked (plan l) (λ s, waits 1 s (plan r s)) s
  | TBack t => forked (plan t) (λ _, End Exits) s
  end.

(** ** The meaning of a session *)

(** The processes of a line, or the complaint about it. *)
Definition line_plan (l : list Z) (s : pst) : view :=
  match parsecmd l with
  | Ret (c, _) => plan (erase c) s
  | Panic msg =>
      let v := says (bytes msg ++ nl) s (End Exits) in
      match leftovers l with [] => v | r => says (bytes "leftovers: " ++ r ++ nl) s v end
  | _ => End Exits
  end.
(** A line of the input and the rest: at most [n] characters, up to a newline
    or a carriage return. *)
Fixpoint take_line (n : nat) (input : list Z) : list Z * list Z :=
  match n, input with
  | S n, c :: input =>
      if (c =? c_lf) || (c =? c_cr) then ([c], input)
      else let (l, rest) := take_line n input in (c :: l, rest)
  | _, _ => ([], input)
  end.
(** What the built-in commands do. *)
Definition set_notes (p : list Z) (s : pst) : list note :=
  let p := chomp (drop 4 p) in
  if sh_strncmp 3 (bytes "uid") p =? 0 then [SetU (makeint (chomp (drop 3 p)))]
  else if sh_strncmp 3 (bytes "gid") p =? 0 then [SetG (makeint (chomp (drop 3 p)))]
  else said 2 (bytes "Invalid _set parameter" ++ nl) s.
Definition get_notes (p : list Z) (s : pst) : list note :=
  let p := chomp (drop 4 p) in
  if sh_strncmp 3 (bytes "uid") p =? 0 then said 2 (decimal (uid_of w (ps_me s)) ++ nl) s
  else if sh_strncmp 3 (bytes "gid") p =? 0 then said 2 (decimal (gid_of w (ps_me s)) ++ nl) s
  else said 2 (bytes "Invalid _get parameter" ++ nl) s.
Definition builtin_notes (p : list Z) (s : pst) : list note :=
  (if sh_strncmp 4 p (bytes "_set") =? 0 then set_notes p s else []) ++
  (if sh_strncmp 4 p (bytes "_get") =? 0 then get_notes p s else []).
(** Line by line: [cd] and the built-in commands happen in the shell itself,
    every other line in a child that the shell waits for. *)
Fixpoint session (n : nat) (s : pst) : view :=
  match n with
  | O => End Exits
  | S n =>
      let (buf, rest) := take_line (Z.to_nat (NBUF - 1)) (ps_in s) in
      says (bytes "$ ") s (
        let s := set_in rest s in
        if ch buf =? 0 then End Exits
        else if is_cd buf then
          let l := cstring buf in
          let dir := drop 3 (take (length l - 1) l) in
          Note (Cd dir) (if can_cd w dir then session n s
                         else says (bytes "cannot cd " ++ dir ++ nl) s (session n s))
        else if ch buf =? 95 then notes (builtin_notes (cstring buf) s) (session n s)
        else forked (line_plan (cstring buf)) (λ s, waits 1 s (session n s)) s)
  end.

(** ** Descriptor tables *)
Definition std (t : fds) : Prop := is_Some (t !! 0) ∧ is_Some (t !! 1) ∧ is_Some (t !! 2).
(** Two descriptors are free. *)
Definition room (t : fds) : Prop := ∃ a b, lowest t = Some a ∧ ∀ f, lowest (<[a := f]> t) = Some b.
Definition ready (s : pst) : Prop := std (ps_fds s) ∧ room (ps_fds s).

Lemma lowest_from_dom n : ∀ fd (t t' : fds), dom t = dom t' → lowest_from n fd t = lowest_from n fd t'.
Proof.
  induction n as [|n IH]; intros fd t t' H; [done|]. cbn [lowest_from]. rewrite (IH (fd + 1) t t' H).
  destruct (t !! fd) as [x|] eqn:E1, (t' !! fd) as [y|] eqn:E2; try done.
  - apply elem_of_dom_2 in E1. rewrite H in E1. by apply not_elem_of_dom in E2.
  - apply elem_of_dom_2 in E2. rewrite <- H in E2. by apply not_elem_of_dom in E1.
Qed.
Lemma lowest_dom (t t' : fds) : dom t = dom t' → lowest t = lowest t'.
Proof. apply lowest_from_dom. Qed.
Lemma lowest_free (t : fds) a : lowest t = Some a → t !! a = None.
Proof.
  unfold lowest. generalize NOFILE 0. induction n as [|n IH]; intros fd H; [done|]. cbn [lowest_from] in H.
  destruct (t !! fd) eqn:E; [by apply (IH (fd + 1))|by injection H as <-].
Qed.
(** This is what [fdalloc] of Sysfile.v answers for the same table. *)
Lemma lowest_fdalloc (t : fds) (l : list (option nat)) : length l = NOFILE →
  (∀ i, (i < NOFILE)%nat → t !! Z.of_nat i = None ↔ l !! i = Some None) → lowest t = Z.of_nat <$> free_fd l 0.
Proof.
  unfold lowest. change 0 with (Z.of_nat 0) at 1. intros Hl Ht.
  assert (∀ i, (i < length l)%nat → t !! Z.of_nat (0 + i) = None ↔ l !! i = Some None) as H by (rewrite Hl; exact Ht).
  rewrite <- Hl. clear Hl Ht. revert H. generalize 0%nat. induction l as [|o l IH]; intros k H; [done|]. cbn [length lowest_from free_fd].
  pose proof (H 0%nat ltac:(cbn; lia)) as H0. rewrite Nat.add_0_r in H0. cbn in H0.
  assert (∀ i, (i < length l)%nat → t !! Z.of_nat (S k + i) = None ↔ l !! i = Some None) as H'.
  { intros i Hi. rewrite <- (H (S i) ltac:(cbn; lia)). by rewrite Nat.add_succ_r. }
  destruct o as [f|].
  - destruct (t !! Z.of_nat k) eqn:E; [|by destruct H0 as [H0 _]; specialize (H0 eq_refl)]. rewrite <- (IH (S k) H'). f_equal. lia.
  - by rewrite (proj2 H0 eq_refl).
Qed.
(** A closed standard descriptor is the next one handed out. *)
Lemma lowest_std (t : fds) fd : std t → fd = 0 ∨ fd = 1 → lowest (delete fd t) = Some fd.
Proof.
  intros ([x H0] & _) [-> | ->]; unfold lowest, NOFILE; cbn [lowest_from].
  - by rewrite lookup_delete_eq.
  - rewrite lookup_delete_ne, H0 by done. change (0 + 1) with 1. by rewrite lookup_delete_eq.
Qed.
Lemma std_free (t : fds) a : std t → t !! a = None → a ≠ 0 ∧ a ≠ 1 ∧ a ≠ 2.
Proof. intros ([x H0] & [y H1] & [z H2]) Ha. split_and!; intros ->; congruence. Qed.
Lemma dom_reinsert (t : fds) fd f : is_Some (t !! fd) → dom (<[fd := f]> t) = dom t.
Proof. intros H. rewrite dom_insert_L. apply elem_of_dom in H. set_solver. Qed.
Lemma ready_dom s s' : dom (ps_fds s) = dom (ps_fds s') → ready s → ready s'.
Proof.
  intros H [(H0 & H1 & H2) (a & b & Ha & Hb)]. split.
  - repeat split; apply elem_of_dom; rewrite <- H; by apply elem_of_dom.
  - exists a, b. split; [by rewrite <- (lowest_dom _ _ H)|]. intros f. rewrite <- (Hb f). apply lowest_dom. by rewrite !dom_insert_L, H.
Qed.
Lemma ready_redirect fd f s : fd = 0 ∨ fd = 1 → ready s → ready (redirect fd f s).
Proof.
  intros Hfd Hr. eapply ready_dom; [|exact Hr]. symmetry. apply dom_reinsert. destruct Hr as [(H0 & H1 & _) _]. by destruct Hfd as [-> | ->].
Qed.
Lemma ready_child s : ready s → ready (child_of s).
Proof. by apply ready_dom. Qed.
Lemma ready_bump s : ready s → ready (bump s).
Proof. by apply ready_dom. Qed.

(** ** Rules for the shell *)
Hypothesis pids : ∀ n, 0 < pid_of w n.
#[local] Abbreviation shows := (shows sys_env).
#[local] Abbreviation gives := (gives sys_env).

Lemma gives_print fd fmt args cs s : text fmt args = Ret cs → gives (uprintf fd fmt args) s (said fd cs s) tt s.
Proof.
  intros E. unfold uprintf. rewrite E.
  assert (said fd cs s = concat ((λ c, [Wrote (ps_fds s !! fd) [c]]) <$> cs)) as ->.
  { clear. unfold said. induction cs as [|c cs IH]; [done|]. cbn [fmap list_fmap concat app]. by f_equal. }
  apply gives_each. intros c _. unfold putc. eapply gives_then; [done|apply gives_done].
Qed.
Lemma shows_print {A} fd fmt args cs (k : unit → prog A) s v : text fmt args = Ret cs → shows (k tt) s v →
  shows (andThen (uprintf fd fmt args) k) s (notes (said fd cs s) v).
Proof. intros E Hk. eapply shows_bind; [by apply gives_print|done]. Qed.
Lemma shows_exit {A} s : shows (exit : prog A) s (End Exits).
Proof. by apply (shows_stop sys_env Exit _ s []). Qed.
Lemma shows_panic {A} m s : shows (sh_panic m : prog A) s (says (m ++ nl) s (End Exits)).
Proof. eapply shows_print; [done|apply shows_exit]. Qed.

Lemma shows_fork1 {A} (k : Z → prog A) s s0 vc vp : name_of s = name_of s0 → ps_fds s !! 2 = ps_fds s0 !! 2 →
  (shows (k 0) (child_of s) vc) → (∀ pid, 0 < pid → shows (k pid) (bump s) vp) →
  shows (andThen fork1 k) s (if can_fork w (name_of s0) then Both vc vp else says (bytes "fork" ++ nl) s0 (End Exits)).
Proof.
  intros En E2 Hc Hp. set (f := λ pid, (if pid =? -1 then sh_panic (bytes "fork") else done tt) ;? done pid).
  assert (observe (andThen fork1 k) = ITreeDefinition.VisF Fork (λ x, andThen (andThen (done x) f) k)) as Ho.
  { unfold fork1. by rewrite !observe_andThen. }
  assert (∀ x, x ≠ -1 → observe (k x) = observe (andThen (andThen (done x) f) k)) as Hk.
  { intros x Hx. rewrite (observe_andThen (andThen (done x) f)), (observe_andThen (done x)).
    change (observe (done x)) with (@ITreeDefinition.RetF sys _ (prog Z) x). cbv iota. unfold f.
    by rewrite (proj2 (Z.eqb_neq _ _) Hx), observe_andThen. }
  destruct (can_fork w (name_of s0)) eqn:Ef.
  - eapply (sh_split sys_env _ _ Fork _ s); [exact Ho|cbn; by rewrite En, Ef|..].
    + eapply shows_obs; [by apply Hk|exact Hc].
    + pose proof (pids (name_of s0)). rewrite <- En in *. eapply shows_obs; [apply Hk; lia|]. by apply Hp.
  - assert (says (bytes "fork" ++ nl) s0 (End Exits) = says (bytes "fork" ++ nl) s (End Exits)) as ->.
    { unfold says, said. by rewrite E2. }
    apply (sh_go sys_env _ _ Fork _ s [] (-1) s _ Ho); [cbn; by rewrite En, Ef|].
    apply shows_ends, shows_done, shows_ends, shows_panic.
Qed.

(** What the parser makes: redirections of the standard input and output. *)
Fixpoint redirs_ok (c : cmd) : Prop :=
  match c with
  | EXEC _ => True
  | REDIR c _ _ fd => redirs_ok c ∧ (fd = 0 ∨ fd = 1)
  | PIPE l r | LIST l r => redirs_ok l ∧ redirs_ok r
  | BACK c => redirs_ok c
  end.
Section Run.
Context (line : list Z).
Abbreviation fine ws := (Forall (λ a, arg line a = word a) ws).
Abbreviation does c := (∀ s, ready s → shows (runcmd line c) s (plan (erase c) s)).

Lemma run_exec argv : fine argv → does (EXEC argv).
Proof using Type.
  intros Hw s _. destruct argv as [|a l]; [apply shows_exit|].
  assert (arg line <$> a :: l = map word (a :: l)) as Em.
  { clear -Hw. induction Hw as [|b m Hb _ IH]; [done|]. cbn. by rewrite Hb, <- IH. }
  apply Forall_cons in Hw as [Ha _]. cbn [runcmd erase plan map]. rewrite Ha. change (word a :: map word l) with (map word (a :: l)).
  rewrite <- Em. clear Em. generalize (arg line <$> a :: l). intros av. destruct (can_exec w (word a) av) eqn:Ee.
  - apply (shows_stop sys_env _ _ s []). cbn. by rewrite Ee.
  - eapply shows_quiet; [cbn; by rewrite Ee|]. eapply shows_print; [done|apply shows_exit].
Qed.
Lemma run_redir c f m fd : fd = 0 ∨ fd = 1 → arg line f = word f → does c → does (REDIR c f m fd).
Proof using Type.
  intros Hfd Hf IH s Hr. pose proof Hr as [Hs _]. cbn [runcmd erase plan]. rewrite Hf.
  assert (is_Some (ps_fds s !! fd)) as [x Hx] by (destruct Hs as (? & ? & _); by destruct Hfd as [-> | ->]).
  eapply shows_quiet; [cbn; by rewrite Hx|]. destruct (can_open w (word f) m) eqn:Eo.
  - eapply (shows_quiet _ _ _ _ fd); [cbn; rewrite Eo; unfold give_fd; cbn [ps_fds set_fds]; by rewrite lowest_std|].
    rewrite (proj2 (Z.ltb_ge _ _)) by lia. apply shows_done, shows_ends.
    assert (set_fds (<[fd := Named (word f) m]> (delete fd (ps_fds s))) (set_fds (delete fd (ps_fds s)) s) = redirect fd (Named (word f) m) s) as ->.
    { unfold redirect, set_fds. cbn. by rewrite insert_delete_eq. }
    by apply IH, ready_redirect.
  - eapply (shows_quiet _ _ _ _ (-1)); [cbn; by rewrite Eo|]. apply shows_ends.
    assert (∀ cs v, says cs s v = says cs (set_fds (delete fd (ps_fds s)) s) v) as Hsay.
    { intros cs v. unfold says, said. cbn. by rewrite lookup_delete_ne by lia. }
    rewrite Hsay. eapply shows_print; [done|apply shows_exit].
Qed.
Lemma run_list l r : does l → does r → does (LIST l r).
Proof using pids.
  intros IHl IHr s Hr. cbn [runcmd erase plan]. apply shows_fork1; [done..| |].
  - apply shows_ends. by apply IHl, ready_child.
  - intros pid Hp. rewrite (proj2 (Z.eqb_neq _ _)) by lia. apply shows_done.
    eapply (shows_call _ _ _ _ [_]); [done|]. by apply shows_ends, IHr, ready_bump.
Qed.
(** The table after [pipe], and what the two sides and the shell make of it. *)
Definition piped (a b : Z) (n : list nat) (t : fds) : fds := <[b := PipeEnd n true]> (<[a := PipeEnd n false]> t).
Lemma pipe_side t a b n x f : t !! a = None → t !! b = None → a ≠ x → b ≠ x →
  delete b (delete a (<[x := f]> (delete x (piped a b n t)))) = <[x := f]> t.
Proof using Type.
  intros Ha Hb Hax Hbx. apply map_eq. intros i. unfold piped. rewrite !lookup_delete, !lookup_insert, !lookup_delete, !lookup_insert.
  repeat case_decide; subst; congruence.
Qed.
Lemma pipe_shut t a b n : t !! a = None → t !! b = None → delete b (delete a (piped a b n t)) = t.
Proof using Type.
  intros Ha Hb. apply map_eq. intros i. unfold piped. rewrite !lookup_delete, !lookup_insert.
  repeat case_decide; subst; congruence.
Qed.
(** One side: the descriptor [x] becomes the end [p], both ends are closed. *)
Lemma run_side c s0 a b n x p f s : ready s0 → does c → x = 0 ∨ x = 1 →
  ps_fds s0 !! a = None → ps_fds s0 !! b = None → a ≠ b → p = a ∨ p = b → piped a b n (ps_fds s0) !! p = Some f →
  s = set_fds (piped a b n (ps_fds s0)) s0 →
  shows (call (Close x) ;? call (Dup p) ;? call (Close a) ;? call (Close b) ;? runcmd line c) s
    (plan (erase c) (redirect x f s0)).
Proof using pids.
  intros Hr IH Hx Ha Hb Hab Hp Hf ->. set (t := ps_fds s0) in *. set (t2 := piped a b n t) in *.
  pose proof Hr as [Hs _]. fold t in Hs. destruct (std_free _ _ Hs Ha) as (Ha0 & Ha1 & Ha2), (std_free _ _ Hs Hb) as (Hb0 & Hb1 & Hb2).
  assert (std t2) as Hs2.
  { destruct Hs as (H0 & H1 & H2). unfold t2, piped. repeat split; by rewrite !lookup_insert_ne by congruence. }
  assert (a ≠ x ∧ b ≠ x) as [Hax Hbx] by (destruct Hx as [-> | ->]; auto).
  assert (is_Some (t2 !! x)) as [y Hy] by (destruct Hs2 as (? & ? & _); by destruct Hx as [-> | ->]).
  assert (p ≠ x) as Hpx by (destruct Hp as [-> | ->]; auto).
  eapply shows_quiet; [cbn; fold t2; by rewrite Hy|].
  eapply shows_quiet; [cbn [sys_env ps_fds set_fds]; rewrite lookup_delete_ne, Hf by done; unfold give_fd; cbn [ps_fds set_fds]; by rewrite (lowest_std t2 x)|].
  assert (∃ u, (<[x := f]> (delete x t2)) !! a = Some u) as [u Hu].
  { rewrite lookup_insert_ne, lookup_delete_ne by done. unfold t2, piped. rewrite lookup_insert_ne, lookup_insert_eq by done. eauto. }
  assert (∃ u, (delete a (<[x := f]> (delete x t2))) !! b = Some u) as [u' Hu'].
  { rewrite lookup_delete_ne, lookup_insert_ne, lookup_delete_ne by done. unfold t2, piped. rewrite lookup_insert_eq. eauto. }
  eapply shows_quiet; [cbn; by rewrite Hu|]. eapply shows_quiet; [cbn; by rewrite Hu'|]. cbn.
  assert (set_fds (delete b (delete a (<[x := f]> (delete x t2)))) s0 = redirect x f s0) as E.
  { unfold redirect. f_equal. by apply pipe_side. }
  unfold set_fds in *. cbn in *. rewrite E. by apply IH, ready_redirect.
Qed.
Lemma run_pipe l r : does l → does r → does (PIPE l r).
Proof using pids.
  intros IHl IHr s Hr. pose proof Hr as [Hs (a & b & Ha & Hb)]. cbn [runcmd erase plan].
  set (t := ps_fds s) in *. set (n := name_of s). set (R := PipeEnd n false). set (W := PipeEnd n true).
  pose proof (lowest_free _ _ Ha) as Fa. pose proof (lowest_free _ _ (Hb R)) as Fb'.
  assert (a ≠ b) as Hab by (intros ->; by rewrite lookup_insert_eq in Fb').
  assert (t !! b = None) as Fb by (by rewrite lookup_insert_ne in Fb').
  destruct (std_free _ _ Hs Fa) as (Ha0 & Ha1 & Ha2), (std_free _ _ Hs Fb) as (Hb0 & Hb1 & Hb2).
  assert (piped a b n t !! 2 = t !! 2) as E2 by (unfold piped; by rewrite !lookup_insert_ne).
  eapply (shows_quiet _ _ _ _ (0, (a, b)) (bump (set_fds (piped a b n t) s))); [cbn [sys_env]; fold t; rewrite Ha; fold n; fold R; cbv zeta; by rewrite Hb|].
  apply shows_done. apply shows_fork1; [done|exact E2| |].
  - apply shows_ends. eapply (run_side l (child_of (bump s)) a b n 1 b W); try done; [by right..|].
    apply lookup_insert_eq.
  - intros pid Hp. rewrite (proj2 (Z.eqb_neq _ _)) by lia. apply shows_done. apply shows_fork1; [done|exact E2| |].
    + apply shows_ends. eapply (run_side r (child_of (bump (bump s))) a b n 0 a R); try done; [by left..|].
      cbn. fold t. unfold piped. by rewrite lookup_insert_ne, lookup_insert_eq.
    + intros pid' Hp'. rewrite (proj2 (Z.eqb_neq _ _)) by lia. apply shows_done.
      assert (piped a b n t !! a = Some R) as La by (unfold piped; by rewrite lookup_insert_ne, lookup_insert_eq).
      assert (delete a (piped a b n t) !! b = Some W) as Lb by (rewrite lookup_delete_ne by done; apply lookup_insert_eq).
      eapply shows_quiet; [cbn; by rewrite La|]. eapply shows_quiet; [cbn; by rewrite Lb|]. cbn.
      unfold set_fds, bump. cbn. rewrite pipe_shut by done. eapply (shows_call _ _ _ _ [_]); [done|]. eapply (shows_call _ _ _ _ [_]); [done|]. apply shows_exit.
Qed.
Lemma run_back c : does c → does (BACK c).
Proof using pids.
  intros IH s Hr. cbn [runcmd erase plan]. apply shows_fork1; [done..| |].
  - apply shows_ends. by apply IH, ready_child.
  - intros pid Hp. rewrite (proj2 (Z.eqb_neq _ _)) by lia. apply shows_done, shows_exit.
Qed.
Lemma run_cmd c : fine (words c) → redirs_ok c → does c.
Proof using pids.
  induction c as [argv|c IH f m fd|l IHl r IHr|l IHl r IHr|c IH]; cbn [words redirs_ok]; intros Hw Hr.
  - by apply run_exec.
  - apply Forall_app in Hw as [Hw Hf]. apply Forall_cons in Hf as [Hf _]. destruct Hr as [Hr Hfd]. exact (run_redir _ _ _ _ Hfd Hf (IH Hw Hr)).
  - apply Forall_app in Hw as [Hl Hr']. exact (run_pipe _ _ (IHl Hl (proj1 Hr)) (IHr Hr' (proj2 Hr))).
  - apply Forall_app in Hw as [Hl Hr']. exact (run_list _ _ (IHl Hl (proj1 Hr)) (IHr Hr' (proj2 Hr))).
  - exact (run_back _ (IH Hw Hr)).
Qed.
End Run.
End World.

(** ** What the parser makes *)
Definition std_redirs (r : outcome (cmd * list Z)) : Prop :=
  match r with Ret (c, _) => redirs_ok c | _ => True end.
Lemma std_bind r k : std_redirs r → (∀ c s, redirs_ok c → std_redirs (k (c, s))) → std_redirs (obind r k).
Proof. intros Hr Hk. destruct r as [[c s]| | |]; simpl in *; [by apply Hk|done..]. Qed.
Lemma std_set_argv argv c : redirs_ok c → redirs_ok (set_argv argv c).
Proof. induction c; simpl; tauto. Qed.
Lemma std_parseredirs fuel : ∀ c s, redirs_ok c → std_redirs (parseredirs_loop fuel c s).
Proof.
  induction fuel as [|fuel IH]; intros c s Hc; cbn [parseredirs_loop]; destruct (peek [c_lt; c_gt] s) as [[] s1]; try done.
  destruct (gettoken s1) as [[tok w1] s2]. destruct (gettoken s2) as [[t w] s3]. destruct (negb (t =? c_a)); [done|].
  apply IH. repeat case_match; simpl; auto.
Qed.
Lemma std_parseback fuel : ∀ c s, redirs_ok c → std_redirs (parseback fuel c s).
Proof.
  induction fuel as [|fuel IH]; intros c s Hc; cbn [parseback]; destruct (peek [c_amp] s) as [[] s1]; try done.
  destruct (gettoken s1) as [[tok w1] s2]. by apply IH.
Qed.
Lemma std_parseargs fuel : ∀ argv c s, redirs_ok c → std_redirs (parseargs fuel argv c s).
Proof.
  induction fuel as [|fuel IH]; intros argv c s Hc; cbn [parseargs]; destruct (peek _ s) as [[] s1]; try done.
  destruct (gettoken s1) as [[tok w1] s2]. destruct (tok =? 0); [done|]. destruct (negb _); [done|]. destruct (_ <=? _)%nat; [done|].
  apply (std_bind (parseredirs _ _)); [by apply std_parseredirs, std_set_argv|]. intros c' s' Hc'. by apply IH.
Qed.
Lemma std_parse fuel : ∀ s,
  std_redirs (parseline fuel s) ∧ std_redirs (parsepipe fuel s) ∧ std_redirs (parseexec fuel s) ∧ std_redirs (parseblock fuel s).
Proof.
  induction fuel as [|fuel IH]; intros s; [done|]. split_and!.
  - cbn [parseline]. apply (std_bind (parsepipe fuel s)); [apply IH|]. intros c s1 Hc.
    apply (std_bind (parseback _ _ _)); [by apply std_parseback|]. intros c2 s2 H2. destruct (peek [c_semi] s2) as [[] s3]; [|done].
    destruct (gettoken s3) as [[tok w1] s4]. apply (std_bind (parseline fuel s4)); [apply IH|]. intros r s5 Hr. done.
  - cbn [parsepipe]. apply (std_bind (parseexec fuel s)); [apply IH|]. intros c s1 Hc. destruct (peek [c_bar] s1) as [[] s3]; [|done].
    destruct (gettoken s3) as [[tok w1] s4]. apply (std_bind (parsepipe fuel s4)); [apply IH|]. intros r s5 Hr. done.
  - cbn [parseexec]. destruct (peek [c_lpar] s) as [[] s1]; [apply IH|].
    apply (std_bind (parseredirs _ _)); [by apply std_parseredirs|]. intros c s2 Hc. by apply std_parseargs.
  - cbn [parseblock]. destruct (peek [c_lpar] s) as [[] s1]; [|done]. cbn [negb]. destruct (gettoken s1) as [[tok w1] s2].
    apply (std_bind (parseline fuel s2)); [apply IH|]. intros c s3 Hc. destruct (peek [c_rpar] s3) as [[] s4]; [|done]. cbn [negb].
    destruct (gettoken s4) as [[tok2 w2] s5]. by apply std_parseredirs.
Qed.
(** What is needed to run a parsed line. *)
Lemma parsed l c line : Forall (λ c, c ≠ 0) l → parsecmd l = Ret (c, line) →
  redirs_ok c ∧ Forall (λ a, arg line a = word a) (words c).
Proof.
  intros Hl E. pose proof (words_terminated l c line Hl E) as Hw. unfold parsecmd in E.
  destruct (std_parse (parse_fuel l) l) as [Hs _]. destruct (parseline (parse_fuel l) l) as [[c0 rest]| | |]; [|done..].
  cbn in E, Hs. destruct (skip_ws rest); [|done]. injection E as -> E. split; [done|].
  assert (length line = S (length l)) as Hlen.
  { rewrite <- E, nulterminate_words. clear. assert (length (l ++ [0]) = S (length l)) as H by (rewrite length_app; simpl; lia).
    revert H. generalize (l ++ [0]). induction (words c) as [|w ws IH]; intros line H; [done|]. cbn [fold_left]. apply IH. unfold cut. by rewrite length_insert. }
  eapply Forall_impl; [exact Hw|]. intros w [_ H]. unfold arg. rewrite Hlen. unfold pos in H. by replace (S (length l) - 1 - length w.1)%nat with (length l - length w.1)%nat by lia.
Qed.

(** ** The main loop *)
Section Session.
Context (w : world) (pids : ∀ n, 0 < pid_of w n).
#[local] Abbreviation shows := (shows (sys_env w)).
#[local] Abbreviation gives := (gives (sys_env w)).

Lemma set_in_id s : set_in (ps_in s) s = s.
Proof. by destruct s. Qed.
Lemma gets_line n : ∀ buf s, Z.of_nat (length buf) + Z.of_nat n + 1 = NBUF →
  gives (loop (λ buf, if Z.of_nat (length buf) + 1 <? NBUF then
      let? (cc, bs) := call (Read 0 1) in
      if cc <? 1 then done (inr buf)
      else
        let c := default 0 (head bs) in
        if (c =? c_lf) || (c =? c_cr) then done (inr (buf ++ [c])) else done (inl (buf ++ [c]))
    else done (inr buf)) buf) s [] (buf ++ (take_line n (ps_in s)).1) (set_in (take_line n (ps_in s)).2 s).
Proof.
  induction n as [|n IH]; intros buf s Hn.
  - cbn [take_line fst snd]. rewrite app_nil_r, set_in_id. apply gives_end. rewrite (proj2 (Z.ltb_ge _ _)) by lia. apply gives_done.
  - destruct (ps_in s) as [|c l] eqn:Ein; cbn [take_line].
    + cbn [fst snd]. rewrite app_nil_r, <- Ein, set_in_id. apply gives_end. rewrite (proj2 (Z.ltb_lt _ _)) by lia.
      eapply gives_then; [cbn; by rewrite Ein|]. apply gives_done.
    + destruct ((c =? c_lf) || (c =? c_cr)) eqn:Ec.
      * cbn [fst snd]. apply gives_end. rewrite (proj2 (Z.ltb_lt _ _)) by lia. eapply gives_then; [cbn; by rewrite Ein|].
        cbv beta iota. change (1 <? 1) with false. change (default 0 (head [c])) with c. cbv beta iota zeta. rewrite Ec. apply gives_done.
      * specialize (IH (buf ++ [c]) (set_in l s)). cbn [ps_in set_in] in IH. destruct (take_line n l) as [l1 r1]. cbn [fst snd] in *.
        rewrite <- app_assoc in IH. eapply (gives_again _ _ _ _ [] _ (set_in l s) []).
        -- rewrite (proj2 (Z.ltb_lt _ _)) by lia. eapply gives_then; [cbn; by rewrite Ein|].
           cbv beta iota. change (1 <? 1) with false. change (default 0 (head [c])) with c. cbv beta iota zeta. rewrite Ec. apply gives_done.
        -- apply IH. rewrite length_app. cbn [length]. lia.
Qed.
Lemma getcmd_line s : let l := take_line (Z.to_nat (NBUF - 1)) (ps_in s) in
  gives getcmd s (said 2 (bytes "$ ") s) (if ch l.1 =? 0 then None else Some l.1) (set_in l.2 s).
Proof.
  cbv zeta. unfold getcmd. rewrite <- (app_nil_r (said _ _ _)). eapply gives_bind; [by apply gives_print|].
  rewrite <- (app_nil_r []). eapply gives_bind; [|apply gives_done]. apply (gets_line (Z.to_nat (NBUF - 1)) [] s). done.
Qed.

Lemma each_two {A} (x y : A) body s ns ns' : gives (body x) s ns tt s → gives (body y) s ns' tt s →
  gives (each [x; y] body) s (ns ++ ns') tt s.
Proof.
  intros H1 H2. cbn [each]. eapply gives_bind; [exact H1|]. rewrite <- (app_nil_r ns'). eapply gives_bind; [exact H2|apply gives_done].
Qed.
Lemma set_does p s : ∃ r, gives (setbuiltin p) s (set_notes p s) r s.
Proof.
  unfold setbuiltin, set_notes. cbv zeta. destruct (_ =? 0); [eexists; by apply gives_call|]. destruct (_ =? 0); [eexists; by apply gives_call|].
  exists (-1). rewrite <- (app_nil_r (said _ _ _)). eapply gives_bind; [by apply gives_print|apply gives_done].
Qed.
Lemma text_decimal z : text (bytes "%d" ++ nl) [VInt z] = Ret (decimal z ++ nl).
Proof.
  unfold text, printf. change (printint upper_digits (i32 z) 10 true) with (printint upper_digits (i32 (va_word [VInt z] 0)) 10 true).
  cbn -[printint decimal]. by rewrite printint_decimal.
Qed.
Lemma get_does p s : ∃ r, gives (getbuiltin p) s (get_notes w p s) r s.
Proof.
  unfold getbuiltin, get_notes. cbv zeta.
  assert (∀ fmt args cs (r : Z), text fmt args = Ret cs → gives (uprintf 2 fmt args ;? done r) s (said 2 cs s) r s) as Hp.
  { intros fmt args cs r E. rewrite <- (app_nil_r (said _ _ _)). eapply gives_bind; [by apply gives_print|apply gives_done]. }
  destruct (_ =? 0); [exists 0; eapply (gives_bind _ _ _ _ []); [by apply gives_call|apply Hp, text_decimal]|].
  destruct (_ =? 0); [exists 0; eapply (gives_bind _ _ _ _ []); [by apply gives_call|apply Hp, text_decimal]|].
  exists (-1). by apply Hp.
Qed.
Lemma builtin_does p s : gives (dobuiltin p) s (builtin_notes w p s) tt s.
Proof.
  unfold dobuiltin, fdt, builtin_notes. apply each_two; cbn [fst snd length].
  - change (length (bytes "_set")) with 4%nat. destruct (_ =? 0); [|apply gives_done]. destruct (set_does p s) as [r H].
    rewrite <- (app_nil_r (set_notes _ _)). eapply gives_bind; [exact H|apply gives_done].
  - change (length (bytes "_get")) with 4%nat. destruct (_ =? 0); [|apply gives_done]. destruct (get_does p s) as [r H].
    rewrite <- (app_nil_r (get_notes _ _ _)). eapply gives_bind; [exact H|apply gives_done].
Qed.

Lemma parse_result l : (∀ why, parsecmd l ≠ Undef why) ∧ parsecmd l ≠ Diverge.
Proof.
  unfold parsecmd. destruct (parse_fine (parse_fuel l) l) as [H _]. specialize (H (Nat.le_refl _)).
  destruct (parseline (parse_fuel l) l) as [[c rest]|msg| |]; simpl in *; [|done..]. by destruct (skip_ws rest).
Qed.
Lemma cstring_nonzero l : Forall (λ c, c ≠ 0) (cstring l).
Proof. induction l as [|c l IH]; cbn; [constructor|]. destruct (Z.eqb_spec c 0); by constructor. Qed.
Lemma run_line_does buf s : ready s → shows (run_line buf) s (line_plan w (cstring buf) s).
Proof using pids.
  intros Hr. unfold run_line, line_plan. cbv zeta. pose proof (cstring_nonzero buf) as Hz. set (l := cstring buf) in *.
  destruct (parsecmd l) as [[c line]|msg|why|] eqn:E.
  - destruct (parsed l c line Hz E) as [Hc Hw]. by apply run_cmd.
  - destruct (leftovers l) as [|x r]; [apply shows_done, shows_panic|]. eapply shows_print; [|apply shows_panic]. done.
  - by destruct (proj1 (parse_result l) why).
  - by destruct (proj2 (parse_result l)).
Qed.
Lemma take_line_length n : ∀ inp, (length (take_line n inp).1 + length (take_line n inp).2 = length inp)%nat.
Proof.
  induction n as [|n IH]; intros inp; [done|]. destruct inp as [|c inp]; [done|]. cbn [take_line].
  destruct (_ || _); [done|]. specialize (IH inp). destruct (take_line n inp) as [l r]. cbn in *. lia.
Qed.
Abbreviation rounds := (andThen (loop (λ _ : unit, main_round) tt) (λ _, exit : prog unit)).
Lemma rounds_session n : ∀ s, ready s → (length (ps_in s) < n)%nat → shows rounds s (session w n s).
Proof using pids.
  induction n as [|n IH]; intros s Hr Hn; [lia|]. apply shows_loop. unfold main_round. apply shows_assoc. cbn [session].
  pose proof (getcmd_line s) as Hg. cbv zeta in Hg. pose proof (take_line_length (Z.to_nat (NBUF - 1)) (ps_in s)) as Hl.
  destruct (take_line (Z.to_nat (NBUF - 1)) (ps_in s)) as [buf rest]. cbn [fst snd] in *. eapply shows_bind; [exact Hg|]. cbv zeta.
  destruct (ch buf =? 0) eqn:Ez; [apply shows_done, shows_exit|]. set (s1 := set_in rest s).
  assert (∀ s2, ready s2 → ps_in s2 = rest → shows rounds s2 (session w n s2)) as IH'.
  { intros s2 H2 E2. apply IH; [done|]. rewrite E2. destruct buf; [done|]. cbn in Hl. lia. }
  destruct (is_cd buf).
  { apply shows_assoc. eapply (shows_call _ _ _ _ [_]); [done|]. apply shows_assoc. destruct (can_cd w _).
    - apply shows_done, shows_done. by apply IH'.
    - change (-1 <? 0) with true. cbv iota. eapply shows_print; [done|]. apply shows_done. by apply IH'. }
  destruct (ch buf =? 95).
  { apply shows_assoc. eapply shows_bind; [apply builtin_does|]. apply shows_done. by apply IH'. }
  apply shows_assoc. apply shows_fork1; [done..| |].
  - apply shows_assoc, shows_ends. by apply run_line_does.
  - intros pid Hp. rewrite (proj2 (Z.eqb_neq _ _)) by lia. apply shows_assoc, shows_done, shows_assoc.
    eapply (shows_call _ _ _ _ [_]); [done|]. apply shows_done. by apply IH'.
Qed.

Lemma lowest_from_ge n : ∀ fd t a, lowest_from n fd t = Some a → fd ≤ a.
Proof.
  induction n as [|n IH]; intros fd t a H; [done|]. cbn [lowest_from] in H. destruct (t !! fd); [apply IH in H; lia|].
  injection H as ->. lia.
Qed.
Lemma console_opened s : ready s → gives open_console s [] tt s.
Proof.
  intros [Hs (a & b & Ha & _)]. apply gives_end. destruct (can_open w (bytes "console") O_RDWR) eqn:Eo.
  - pose proof (lowest_free _ _ Ha) as Fa. destruct (std_free _ _ Hs Fa) as (H0 & H1 & H2). pose proof (lowest_from_ge _ _ _ _ Ha) as Hge.
    eapply gives_then; [cbn [sys_env]; rewrite Eo; unfold give_fd; by rewrite Ha|]. rewrite !(proj2 (Z.leb_le _ _)) by lia.
    eapply gives_then; [cbn; by rewrite lookup_insert_eq|]. cbn. unfold set_fds. cbn.
    rewrite delete_insert_id by done. destruct s. apply gives_done.
  - eapply gives_then; [cbn [sys_env]; by rewrite Eo|]. apply gives_done.
Qed.
End Session.

(** Claim C23: the shell does what its commands mean.  For every input and every
    environment (which files can be opened, which programs executed, when a
    fork fails), the shell, started with descriptors 0, 1 and 2 open and two
    free, comes to the end of its input, and the processes it makes, what they
    print and what they run are those of [session]: a prompt per line; [cd]
    and the built-in commands in the shell itself; for every other line a
    child the shell waits for, which runs the parsed command.  A pipeline's
    programs run with exactly the pipe's two ends as standard output and input
    and hold no other end of it, and the shell holds neither while it waits;
    redirections replace a standard descriptor; a list waits for its first
    command; errors in the line are reported. *)
Theorem shell_runs_commands w s : (∀ n, 0 < pid_of w n) → ready s →
  ∃ fuel, watch (sys_env w) fuel sh_main s = Some (session w (S (length (ps_in s))) s).
Proof.
  intros Hp Hr. apply shows_watch. unfold sh_main. change (session ?w ?n ?s) with (notes [] (session w n s)).
  eapply shows_bind; [by apply console_opened|]. apply rounds_session; [done|done|lia].
Qed.

(** A console with [cat < a | wc] and [cd d], where everything works. *)
Definition lucky : world :=
  Build_world (λ _ _, true) (λ _ _, true) (λ _, true) (λ _, true) (λ _, 7) (λ _, 7) (λ _, 0) (λ _, 0) (λ _, 0).
Definition tty : ofile := Named (bytes "console") O_RDWR.
Definition login : pst :=
  mkPst (<[0 := tty]> (<[1 := tty]> (<[2 := tty]> ∅))) [] 0 (bytes "cat < a | wc" ++ nl ++ bytes "cd d" ++ nl).
Lemma login_ready : ready login.
Proof. split; [repeat split; by eexists|]. exists 3, 4. split; [done|]. intros f. by vm_compute. Qed.
Lemma shell_runs_commands_witness :
  ∃ fuel, watch (sys_env lucky) fuel sh_main login = Some (session lucky (S (length (ps_in login))) login).
Proof. apply (shell_runs_commands lucky login); [done|exact login_ready]. Defined.
(** The two programs of the pipeline and their descriptors. *)
Fixpoint programs (v : seen note ending) : list (list (list Z) * list (Z * ofile)) :=
  match v with
  | Note _ v => programs v
  | Both c p => programs c ++ programs p
  | End (Runs _ argv held) => [(argv, map_to_list held)]
  | End Exits => []
  end.
Example pipeline_descriptors :
  programs <$> watch (sys_env lucky) 300 sh_main login =
  Some [([bytes "cat"], [(2, tty); (1, PipeEnd [0; 0]%nat true); (0, Named (bytes "a") O_RDONLY)]);
        ([bytes "wc"], [(2, tty); (1, tty); (0, PipeEnd [0; 0]%nat false)])].
Proof. by vm_compute. Qed.
