(* ===== verification/Programs.v ===== *)
(** * The small user programs

    cat.c, wc.c, ls.c, echo.c, init.c, kill.c, ln.c, mkdir.c, rm.c, ps.c,
    date.c, timem.c, zombie.c, the programs that only exit, and [main] of
    grep.c, as trees of system calls.  [argv] holds the arguments, the name of
    the program first. *)
From S2P Require Import Prelude Machine ProcOps Block Fs Lapic Sysfile Printf User Grep CString Sh ShRun.

Open Scope Z_scope.

Definition argn (argv : list (list Z)) (i : nat) : list Z := default [] (argv !! i).

(** ** cat.c *)
Definition cat (fd : Z) : prog unit :=
  let? n := loop (λ _ : unit,
    let? (n, buf) := call (Read fd 512) in
    if 0 <? n then call (Write 1 (take (Z.to_nat n) buf)) ;? done (inl tt)
    else done (inr n)) tt in
  if n <? 0 then uprintf 1 (bytes "cat: read error" ++ nl) [] ;? exit
  else done tt.
(** [for(i = 1; i < argc; i++)] of cat.c, wc.c and grep.c *)
Definition with_files (who : list Z) (body : Z → list Z → prog unit) (files : list (list Z)) : prog unit :=
  each files (λ f,
    let? fd := call (Open f 0) in
    if fd <? 0 then uprintf 1 (who ++ bytes ": cannot open %s" ++ nl) [VStr f] ;? exit
    else body fd f ;? call (Close fd) ;? done tt).
Definition cat_main (argv : list (list Z)) : prog unit :=
  if (length argv <=? 1)%nat then cat 0 ;? exit
  else with_files (bytes "cat") (λ fd _, cat fd) (tail argv) ;? exit.

(** ** wc.c *)
Definition blank (c : Z) : bool := strchr [32; 13; 9; 10; 11] c.
Record counts := mkCounts { n_l : Z; n_w : Z; n_c : Z; inword : bool }.
Definition count_char (k : counts) (c : Z) : counts :=
  let l := if c =? 10 then i32 (n_l k + 1) else n_l k in
  let n := i32 (n_c k + 1) in
  if blank c then mkCounts l (n_w k) n false
  else if inword k then mkCounts l (n_w k) n true
  else mkCounts l (i32 (n_w k + 1)) n true.
Definition wc (fd : Z) (name : list Z) : prog unit :=
  let? (n, k) := loop (λ k,
    let? (n, buf) := call (Read fd 512) in
    if 0 <? n then done (inl (foldl count_char k (take (Z.to_nat n) buf)))
    else done (inr (n, k))) (mkCounts 0 0 0 false) in
  if n <? 0 then uprintf 1 (bytes "wc: read error" ++ nl) [] ;? exit
  else uprintf 1 (bytes "%d %d %d %s" ++ nl) [VInt (n_l k); VInt (n_w k); VInt (n_c k); VStr name].
Definition wc_main (argv : list (list Z)) : prog unit :=
  if (length argv <=? 1)%nat then wc 0 [] ;? exit
  else with_files (bytes "wc") wc (tail argv) ;? exit.

(** ** grep.c, with the matcher of Grep.v *)

(** The matching lines of the buffer from [p] on, and what is left of it. *)
Fixpoint grep_matches (fuel : nat) (pattern p : list Z) : list (list Z) * list Z :=
  match fuel with
  | O => ([], p)
  | S fuel =>
      match cut_line p with
      | None => ([], p)
      | Some (line, rest) =>
          let (out, last) := grep_matches fuel pattern rest in
          ((if match_ pattern line then [line ++ nl] else []) ++ out, last)
      end
  end.
Definition grep (pattern : list Z) (fd : Z) : prog unit :=
  loop (λ m,
    let? (n, data) := call (Read fd (Z.of_nat (BUF - length m - 1))) in
    if 0 <? n then
      let buf := m ++ take (Z.to_nat n) data in
      let (ls, p) := grep_matches (length buf) pattern buf in
      each ls (λ l, call (Write 1 l) ;? done tt) ;?
      done (inl (if (length p =? length buf)%nat then [] else p))
    else done (inr tt)) [].
Definition grep_main (argv : list (list Z)) : prog unit :=
  if (length argv <=? 1)%nat then uprintf 2 (bytes "usage: grep pattern [file ...]" ++ nl) [] ;? exit
  else
    let pattern := argn argv 1 in
    if (length argv <=? 2)%nat then grep pattern 0 ;? exit
    else with_files (bytes "grep") (λ fd _, grep pattern fd) (drop 2 argv) ;? exit.

(** ** ls.c *)

(** The characters after the last slash. *)
Fixpoint after_slash (path : list Z) : list Z :=
  match path with
  | [] => []
  | c :: path => if existsb (Z.eqb slash) path then after_slash path
                 else if c =? slash then path else c :: path
  end.
Definition fmtname (path : list Z) : list Z :=
  let p := after_slash path in
  if (Z.to_nat DIRSIZ <=? length p)%nat then p
  else p ++ replicate (Z.to_nat DIRSIZ - length p) 32.
Definition ls_line (path : list Z) (st : stat) : prog unit :=
  uprintf 1 (bytes "%s %d %d %d" ++ nl) [VStr (fmtname path); VInt (st_type st); VInt (st_ino st); VInt (st_size st)].
(** One directory entry; the structure [st] is left from the last call. *)
Definition ls_entry (path de : list Z) (st : stat) : prog stat :=
  if nth 0 de 0 + 256 * nth 1 de 0 =? 0 then done st
  else
    let buf := path ++ [slash] ++ cstring (take (Z.to_nat DIRSIZ) (drop 2 de)) in
    let? (r, st) := ustat buf st in
    if r <? 0 then uprintf 1 (bytes "ls: cannot stat %s" ++ nl) [VStr buf] ;? done st
    else ls_line buf st ;? done st.
Definition ls (path : list Z) : prog unit :=
  let? fd := call (Open path 0) in
  if fd <? 0 then uprintf 2 (bytes "ls: cannot open %s" ++ nl) [VStr path]
  else
    let? (r, st) := call (Fstat fd) in
    if r <? 0 then
      uprintf 2 (bytes "ls: cannot stat %s" ++ nl) [VStr path] ;?
      call (Close fd) ;?
      done tt
    else
      (if st_type st =? T_FILE then ls_line path st
       else if st_type st =? T_DIR then
         if 512 <? Z.of_nat (length path) + 1 + DIRSIZ + 1 then uprintf 1 (bytes "ls: path too long" ++ nl) []
         else
           loop (λ st,
             let? (n, de) := call (Read fd 16) in
             if n =? 16 then let? st := ls_entry path de st in done (inl st)
             else done (inr tt)) st
       else done tt) ;?
      call (Close fd) ;?
      done tt.
Definition ls_main (argv : list (list Z)) : prog unit :=
  if (length argv <? 2)%nat then ls (bytes ".") ;? exit
  else each (tail argv) ls ;? exit.

(** ** echo.c, kill.c, ln.c, mkdir.c, rm.c *)
Fixpoint echo_args (args : list (list Z)) : prog unit :=
  match args with
  | [] => done tt
  | a :: args =>
      uprintf 1 (bytes "%s%s") [VStr a; VStr (match args with [] => nl | _ => bytes " " end)] ;?
      echo_args args
  end.
Definition echo_main (argv : list (list Z)) : prog unit := echo_args (tail argv) ;? exit.
(** [atoi] of ulib.c, on the characters of the string *)
Fixpoint atoi_chars (n : Z) (s : list Z) : Z :=
  match s with
  | c :: s => if (48 <=? c) && (c <=? 57) then atoi_chars (i32 (n * 10 + c - 48)) s else n
  | [] => n
  end.
(** It is the number [CString.atoi] finds in memory. *)
Lemma atoi_chars_atoi m l : ∀ a n fuel, cstr m a l → (length l < fuel)%nat →
  CString.atoi_loop fuel m a n = Ret (atoi_chars n l).
Proof.
  induction l as [| c l IH]; intros a n [| fuel] Hc Hf; cbn [length] in Hf; try lia; simpl in *.
  - by rewrite Hc.
  - destruct Hc as (-> & Hn & Hc). destruct ((48 <=? c) && (c <=? 57)); [| done].
    apply IH; [done | lia].
Qed.
Definition kill_main (argv : list (list Z)) : prog unit :=
  if (length argv <? 2)%nat then uprintf 2 (bytes "usage: kill pid..." ++ nl) [] ;? exit
  else each (tail argv) (λ a, call (Kill (atoi_chars 0 a)) ;? done tt) ;? exit.
Definition ln_main (argv : list (list Z)) : prog unit :=
  if negb (length argv =? 3)%nat then uprintf 2 (bytes "Usage: ln old new" ++ nl) [] ;? exit
  else
    let? r := call (Link (argn argv 1) (argn argv 2)) in
    (if r <? 0 then uprintf 2 (bytes "link %s %s: failed" ++ nl) [VStr (argn argv 1); VStr (argn argv 2)] else done tt) ;?
    exit.
(** [for(...) if(op(argv[i]) < 0){ printf; break; }] of mkdir.c and rm.c *)
Fixpoint until_failure (op : list Z → sys Z) (fmt : list Z) (files : list (list Z)) : prog unit :=
  match files with
  | [] => done tt
  | f :: files =>
      let? r := call (op f) in
      if r <? 0 then uprintf 2 fmt [VStr f] else until_failure op fmt files
  end.
Definition mkdir_main (argv : list (list Z)) : prog unit :=
  if (length argv <? 2)%nat then uprintf 2 (bytes "Usage: mkdir files..." ++ nl) [] ;? exit
  else until_failure Mkdir (bytes "mkdir: %s failed to create" ++ nl) (tail argv) ;? exit.
Definition rm_main (argv : list (list Z)) : prog unit :=
  if (length argv <? 2)%nat then uprintf 2 (bytes "Usage: rm files..." ++ nl) [] ;? exit
  else until_failure Unlink (bytes "rm: %s failed to delete" ++ nl) (tail argv) ;? exit.

(** ** ps.c, date.c *)
Definition printTableEntry (t : uproc) : prog unit :=
  uprintf 2 (bytes "pid: %d, priority: %d, name: %s" ++ nl ++
             bytes "      uid: %d  gid: %d   ppid: %d  state: %s  size: %d" ++ nl)
    [VInt (u_pid t); VInt (u_priority t); VStr (cstring (u_name t)); VInt (u_uid t); VInt (u_gid t); VInt (u_ppid t);
     VStr (cstring (u_state t)); VInt (u_size t)].
Definition PS_MAX : Z := 10.
Definition ps_main : prog unit :=
  let? (rc, table) := call (Getprocs PS_MAX) in
  if rc <? 0 then
    uprintf 2 (bytes "Error: getprocs call failed. %s at line %d" ++ nl) [VStr (bytes "ps.c"); VInt 24] ;?
    exit
  else
    each (seq 0 (Z.to_nat rc)) (λ i, match table !! i with Some t => printTableEntry t | None => undefined end) ;?
    exit.
Definition date_main : prog unit :=
  let? pid := call Getpid in
  let? gid := call Getgid in
  let? uid := call Getuid in
  let? ppid := call Getppid in
  uprintf 2 (bytes "PID:%d  GID:%d  UID:%d PPID:%d ") [VInt pid; VInt gid; VInt uid; VInt ppid] ;?
  let? (r, _) := call Date in
  if truth r then uprintf 2 (bytes "date failed" ++ nl) [] ;? exit
  else
    let? (_, d) := call Date in
    uprintf 1 (bytes "UTC Time (h:m:s): %d:%d:%d : UTC Date (m/d/y): %d/%d/%d")
      [VInt (hour d); VInt (minute d); VInt (second d); VInt (month d); VInt (day d); VInt (year d)] ;?
    exit.

(** ** timem.c

    [p] has [MAX_ARGS] elements; [r2] is what the uninitialised variable
    holds. *)
Definition MAX_ARGS : nat := 20.
Definition seconds (r : rtcdate) : Z := i32 (hour r * 3600 + minute r * 60 + second r).
Definition timem_main (r2 : rtcdate) (argv : list (list Z)) : prog unit :=
  let? (_, r1) := call Date in
  if (length argv <? 2)%nat then uprintf 2 (bytes "minimum one command after 'timem'") [] ;? exit
  else if (MAX_ARGS + 1 <? length argv)%nat then uprintf 2 (bytes "Hit maximum commands." ++ nl) [] ;? exit
  else
    let? pid := call Fork in
    let? r2 :=
      (if pid <? 0 then uprintf 2 (bytes "'%s' has failed." ++ nl) [VStr (argn argv 0)] ;? done r2
       else if 0 <? pid then
         call Wait ;?
         let? (_, r2) := call Date in
         done r2
       else if (length argv - 1 <? MAX_ARGS)%nat then
         let p := tail argv in
         let? status := call (Exec (argn p 0) p) in
         (if truth status then uprintf 2 (bytes "exec '%s' failed") [VStr (argn p 0)] else done tt) ;?
         exit
       else undefined) in
    uprintf 2 (nl ++ bytes "Time: %d seconds" ++ nl) [VInt (i32 (seconds r2 - seconds r1))] ;?
    exit.

(** ** zombie.c, and the programs that only exit (getuid.c, getgid.c, getppid.c, setuid.c, setgid.c) *)
Definition zombie_main : prog unit :=
  let? pid := call Fork in
  (if 0 <? pid then call (Sleep 5) ;? done tt else done tt) ;?
  exit.
Definition idle_main : prog unit := exit.

(** ** init.c *)
Definition init_round : prog (unit + unit) :=
  uprintf 1 (bytes "init: starting sh" ++ nl) [] ;?
  let? pid := call Fork in
  if pid <? 0 then uprintf 1 (bytes "init: fork failed" ++ nl) [] ;? exit
  else
    (if pid =? 0 then
       call (Exec (bytes "sh") [bytes "sh"]) ;?
       uprintf 1 (bytes "init: exec sh failed" ++ nl) [] ;?
       exit
     else done tt) ;?
    loop (λ _ : unit,
      let? wpid := call Wait in
      if (0 <=? wpid) && negb (wpid =? pid) then uprintf 1 (bytes "zombie!" ++ nl) [] ;? done (inl tt)
      else done (inr tt)) tt ;?
    done (inl tt).
Definition init_main : prog unit :=
  let? fd := call (Open (bytes "console") O_RDWR) in
  (if fd <? 0 then
     call (Mknod (bytes "console") 1 1) ;?
     call (Open (bytes "console") O_RDWR) ;?
     done tt
   else done tt) ;?
  call (Dup 0) ;?
  call (Dup 0) ;?
  loop (λ _, init_round) tt.

(** ** An environment with files

    A file is the sequence of pieces in which its contents arrive; a read gives
    a piece, or the part of it that was asked for. *)
Record io := mkIo { io_fs : list Z → option (list (list Z)); io_open : gmap Z (list (list Z)); io_next : Z }.
Definition set_open (v : gmap Z (list (list Z))) (s : io) : io := mkIo (io_fs s) v (io_next s).
Inductive out := Out (fd : Z) (bs : list Z).
Abbreviation io_reply X := (reply io out unit X).
Definition io_read (fd n : Z) (s : io) : io_reply (Z * list Z) :=
  match io_open s !! fd with
  | None => Go [] (-1, []) s
  | Some cs =>
      let (c, cs) := pipe_read cs (Z.to_nat n) in
      Go [] (Z.of_nat (length c), c) (set_open (<[fd := cs]> (io_open s)) s)
  end.
Definition io_env (X : Type) (e : sys X) (s : io) : io_reply X :=
  match e in sys X return io_reply X with
  | Exit => Stop [] tt
  | Read fd n => io_read fd n s
  | Write fd bs => Go [Out fd bs] (Z.of_nat (length bs)) s
  | Open path _ =>
      match io_fs s path with
      | Some cs => Go [] (io_next s) (mkIo (io_fs s) (<[io_next s := cs]> (io_open s)) (io_next s + 1))
      | None => Go [] (-1) s
      end
  | Close fd => Go [] 0 (set_open (delete fd (io_open s)) s)
  | Pipe => Go [] (-1, (0, 0)) s
  | Fstat _ => Go [] (-1, mkStat 0 0 0 0 0) s
  | Getprocs _ => Go [] (-1, []) s
  | Date => Go [] (-1, mkDate 0 0 0 0 0 0) s
  | Fork | Wait | Exec _ _ | Dup _ | Chdir _ | Getuid | Getgid | Setuid _ | Setgid _ | Kill _ | Mknod _ _ _ | Unlink _
  | Link _ _ | Mkdir _ | Getpid | Getppid | Sleep _ | Setpriority _ _ => Go [] (-1) s
  end.

(** What was written to a descriptor. *)
Definition written (fd : Z) (ns : list out) : list Z :=
  concat ((λ n, match n with Out fd' bs => if fd' =? fd then bs else [] end) <$> ns).
Definition pieces_ok (cs : list (list Z)) : Prop := Forall (λ c, c ≠ []) cs.
Definition io_ok (s : io) : Prop :=
  0 ≤ io_next s ∧ (∀ f cs, io_fs s f = Some cs → pieces_ok cs) ∧ map_Forall (λ _ cs, pieces_ok cs) (io_open s).

Section Io.
#[local] Abbreviation shows := (shows io_env).
#[local] Abbreviation gives := (gives io_env).

Lemma written_app fd ns ns' : written fd (ns ++ ns') = written fd ns ++ written fd ns'.
Proof. unfold written. by rewrite fmap_app, concat_app. Qed.
Lemma io_print fd fmt args s : ∃ ns, gives (uprintf fd fmt args) s ns tt s ∧ written fd ns = shown fmt args.
Proof.
  unfold uprintf. rewrite text_shown. exists (concat ((λ c, [Out fd [c]]) <$> shown fmt args)). split.
  - apply gives_each. intros c _. eapply gives_then; [done|apply gives_done].
  - induction (shown fmt args) as [|c cs IH]; [done|]. cbn [fmap list_fmap concat]. rewrite written_app, IH. unfold written. cbn. by rewrite Z.eqb_refl.
Qed.
(** A read takes something from the front of what is left, if anything is. *)
Lemma pipe_read_spec cs n : pieces_ok cs → (0 < n)%nat → let (c, cs') := pipe_read cs n in
  concat cs = c ++ concat cs' ∧ pieces_ok cs' ∧ (c = [] → concat cs = []) ∧ (length c ≤ n)%nat.
Proof.
  intros Hok Hn. destruct cs as [|c cs]; cbn; [by split_and!; try constructor; cbn; lia|].
  apply Forall_cons in Hok as [Hc Hok]. destruct (Nat.leb_spec (length c) n) as [Hl|Hl]; cbn.
  - split_and!; [done|done|done|lia].
  - split_and!; [by rewrite app_assoc, take_drop| |intros E|rewrite length_take; lia].
    + constructor; [|done]. intros E. apply (f_equal length) in E. rewrite length_drop in E. cbn in E. lia.
    + destruct c; [done|]. by destruct n; [lia|].
Qed.
Definition emptied (fd : Z) (s : io) : io := set_open (<[fd := []]> (io_open s)) s.
Lemma pieces_nil cs : pieces_ok cs → concat cs = [] → cs = [].
Proof. intros H E. destruct cs as [|c cs]; [done|]. apply Forall_cons in H as [Hc _]. by apply app_eq_nil in E as [-> _]. Qed.
Lemma set_open_twice v v' s : set_open v (set_open v' s) = set_open v s.
Proof. done. Qed.
Lemma emptied_again fd v s : emptied fd (set_open (<[fd := v]> (io_open s)) s) = emptied fd s.
Proof. unfold emptied. cbn. by rewrite insert_insert_eq. Qed.
Lemma emptied_id fd s : io_open s !! fd = Some [] → set_open (<[fd := []]> (io_open s)) s = s.
Proof. intros H. unfold set_open. rewrite insert_id by done. by destruct s. Qed.
(** A loop that reads until there is nothing left: [step] is what it makes of
    the bytes, however they are cut into pieces. *)
Lemma read_all {I R} fd (size : I → Z) (body : I → prog (I + R)) (f : I → list Z → I) (g : I → R) (o : I → list Z → list Z) :
  (∀ i, 0 < size i) → (∀ i, f i [] = i ∧ o i [] = []) →
  (∀ i a b, f i (a ++ b) = f (f i a) b ∧ o i (a ++ b) = o i a ++ o (f i a) b) →
  (∀ i s c s', c ≠ [] → io_read fd (size i) s = Go [] (Z.of_nat (length c), c) s' →
     ∃ ns, gives (body i) s ns (inl (f i c)) s' ∧ written 1 ns = o i c) →
  (∀ i s s', io_read fd (size i) s = Go [] (0, []) s' → gives (body i) s [] (inr (g i)) s') →
  ∀ n i cs s, (length (concat cs) < n)%nat → io_open s !! fd = Some cs → pieces_ok cs →
  ∃ ns, gives (loop body i) s ns (g (f i (concat cs))) (emptied fd s) ∧ written 1 ns = o i (concat cs).
Proof.
  intros Hsize H0 Happ Hgo Hend. induction n as [|n IH]; intros i cs s Hn Hs Hok; [lia|].
  pose proof (pipe_read_spec cs (Z.to_nat (size i)) Hok ltac:(specialize (Hsize i); lia)) as Hr.
  assert (io_read fd (size i) s = let (c, cs') := pipe_read cs (Z.to_nat (size i)) in
    Go [] (Z.of_nat (length c), c) (set_open (<[fd := cs']> (io_open s)) s)) as Er by (unfold io_read; by rewrite Hs).
  destruct (pipe_read cs (Z.to_nat (size i))) as [c cs'] eqn:Ep. destruct Hr as (Ec & Hok' & Hc & _).
  destruct (decide (c = [])) as [->|Hne].
  - rewrite (pieces_nil cs Hok (Hc eq_refl)) in *. cbn in Ep. injection Ep as <-. cbn [concat]. rewrite (proj1 (H0 i)), (proj2 (H0 i)).
    exists []. split; [|done]. apply gives_end. apply Hend. exact Er.
  - destruct (Hgo i s c _ Hne Er) as (ns & Hg & Hw). rewrite Ec in *. rewrite length_app in Hn.
    assert (0 < length c)%nat by (destruct c; [done|cbn; lia]).
    destruct (IH (f i c) cs' (set_open (<[fd := cs']> (io_open s)) s)) as (ns' & Hg' & Hw'); [lia|cbn; by rewrite lookup_insert_eq|done|].
    exists (ns ++ ns'). destruct (Happ i c (concat cs')) as [-> ->]. split.
    + eapply gives_again; [exact Hg|]. by rewrite emptied_again in Hg'.
    + by rewrite written_app, Hw, Hw'.
Qed.

Lemma cat_all fd cs s : io_open s !! fd = Some cs → pieces_ok cs →
  ∃ ns, gives (cat fd) s ns tt (emptied fd s) ∧ written 1 ns = concat cs.
Proof.
  intros Hs Hok. edestruct (read_all fd (λ _ : unit, 512) (λ _ : unit,
    let? (n, buf) := call (Read fd 512) in
    if 0 <? n then call (Write 1 (take (Z.to_nat n) buf)) ;? done (inl tt) else done (inr n))
    (λ _ _, tt) (λ _, 0) (λ _ c, c)) as (ns & Hg & Hw); [..|exact Hs|done|].
  - done.
  - by intros [].
  - done.
  - intros [] s0 c s' Hc Hr. exists [Out 1 c]. split; [|unfold written; cbn; by rewrite app_nil_r].
    eapply gives_quiet; [exact Hr|]. assert (0 < length c)%nat by (destruct c; [done|cbn; lia]).
    cbv beta iota. rewrite (proj2 (Z.ltb_lt _ _)) by lia. rewrite Nat2Z.id, firstn_all. eapply gives_then; [done|apply gives_done].
  - intros [] s0 s' Hr. eapply gives_quiet; [exact Hr|]. apply gives_done.
  - apply Nat.lt_succ_diag_r.
  - exists ns. split; [|done]. unfold cat. rewrite <- (app_nil_r ns). eapply gives_bind; [exact Hg|]. apply gives_done.
Qed.

(** *** Words *)
Fixpoint split_blank (bs : list Z) : list (list Z) :=
  match bs with
  | [] => [[]]
  | c :: bs =>
      if blank c then [] :: split_blank bs
      else match split_blank bs with w :: ws => (c :: w) :: ws | [] => [[c]] end
  end.
Definition words_of (bs : list Z) : list (list Z) := filter (λ w, w ≠ []) (split_blank bs).
Definition lines_of (bs : list Z) : list Z := filter (λ c, c = 10) bs.
(** The text starts inside a word. *)
Definition starts_word (bs : list Z) : Z := match bs with c :: _ => if blank c then 0 else 1 | [] => 0 end.
Lemma words_cons c bs : Z.of_nat (length (words_of (c :: bs))) =
  Z.of_nat (length (words_of bs)) + if blank c then 0 else 1 - starts_word bs.
Proof.
  unfold words_of. cbn [split_blank]. destruct (blank c) eqn:Ec.
  { rewrite filter_cons_False by (by intros H). lia. }
  destruct bs as [|d bs]; [done|]. cbn [split_blank starts_word]. destruct (blank d).
  - rewrite filter_cons_True, filter_cons_False by (by try intros H). cbn [length]. lia.
  - destruct (split_blank bs) as [|w ws]; [done|]. rewrite !filter_cons_True by done. cbn [length]. lia.
Qed.
Lemma count_all bs : ∀ k, 0 ≤ n_l k ≤ n_c k → 0 ≤ n_w k ≤ n_c k → n_c k + Z.of_nat (length bs) < 2 ^ 31 →
  let k' := foldl count_char k bs in
  n_c k' = n_c k + Z.of_nat (length bs) ∧ n_l k' = n_l k + Z.of_nat (length (lines_of bs)) ∧
  n_w k' = n_w k + Z.of_nat (length (words_of bs)) - if inword k then starts_word bs else 0.
Proof.
  induction bs as [|c bs IH]; intros k Hl Hw Hn; cbv zeta.
  { change (length (words_of [])) with 0%nat. change (length (lines_of [])) with 0%nat. cbn. destruct (inword k); lia. }
  rewrite words_cons. cbn [foldl length] in *. unfold lines_of. rewrite filter_cons.
  assert (n_c (count_char k c) = n_c k + 1 ∧ n_l (count_char k c) = n_l k + (if decide (c = 10) then 1 else 0) ∧
    n_w (count_char k c) = n_w k + (if blank c then 0 else if inword k then 0 else 1) ∧ inword (count_char k c) = negb (blank c)) as (E1 & E2 & E3 & E4).
  { unfold count_char. destruct (Z.eqb_spec c 10), (decide (c = 10)), (blank c), (inword k); try done; cbn; rewrite ?i32_small by lia; split_and!; lia || done. }
  destruct (IH (count_char k c)) as (F1 & F2 & F3).
  { rewrite E1, E2. case_decide; lia. }
  { rewrite E1, E3. destruct (blank c), (inword k); lia. }
  { rewrite E1. lia. }
  rewrite F1, F2, F3, E1, E2, E3, E4. fold (lines_of bs). split_and!; [lia|destruct (decide (c = 10)); cbn [length]; lia|].
  cbn [starts_word]. destruct (blank c), (inword k); cbn [negb]; lia.
Qed.
Definition wc_line (name bs : list Z) : list Z :=
  decimal (Z.of_nat (length (lines_of bs))) ++ bytes " " ++ decimal (Z.of_nat (length (words_of bs))) ++ bytes " " ++
  decimal (Z.of_nat (length bs)) ++ bytes " " ++ name ++ nl.
Lemma shown_wc l w c name : shown (bytes "%d %d %d %s" ++ nl) [VInt l; VInt w; VInt c; VStr name] =
  decimal l ++ bytes " " ++ decimal w ++ bytes " " ++ decimal c ++ bytes " " ++ name ++ nl.
Proof.
  show_format. done.
Qed.
Lemma wc_all fd name cs s : io_open s !! fd = Some cs → pieces_ok cs → Z.of_nat (length (concat cs)) < 2 ^ 31 →
  ∃ ns, gives (wc fd name) s ns tt (emptied fd s) ∧ written 1 ns = wc_line name (concat cs).
Proof.
  intros Hs Hok Hlen. edestruct (read_all fd (λ _ : counts, 512) (λ k,
    let? (n, buf) := call (Read fd 512) in
    if 0 <? n then done (inl (foldl count_char k (take (Z.to_nat n) buf))) else done (inr (n, k)))
    (foldl count_char) (λ k, (0, k)) (λ _ _, [])) as (ns & Hg & Hw); [..|exact Hs|done|].
  - done.
  - done.
  - intros k a b. by rewrite foldl_app.
  - intros k s0 c s' Hc Hr. exists []. split; [|done].
    eapply gives_quiet; [exact Hr|]. assert (0 < length c)%nat by (destruct c; [done|cbn; lia]).
    cbv beta iota. rewrite (proj2 (Z.ltb_lt _ _)) by lia. rewrite Nat2Z.id, firstn_all. apply gives_done.
  - intros k s0 s' Hr. eapply gives_quiet; [exact Hr|]. apply gives_done.
  - apply Nat.lt_succ_diag_r.
  - destruct (count_all (concat cs) (mkCounts 0 0 0 false)) as (E1 & E2 & E3); [cbn; lia..|]. cbn [n_l n_w n_c inword] in E1, E2, E3.
    set (k := foldl count_char (mkCounts 0 0 0 false) (concat cs)). destruct (io_print 1 (bytes "%d %d %d %s" ++ nl) [VInt (n_l k); VInt (n_w k); VInt (n_c k); VStr name] (emptied fd s)) as (ns' & Hp & Hw').
    exists (ns ++ ns'). split.
    + unfold wc. eapply gives_bind; [exact Hg|]. exact Hp.
    + rewrite written_app, Hw, Hw', shown_wc. unfold wc_line. subst k. rewrite E1, E2, E3. by rewrite Z.sub_0_r.
Qed.

(** *** grep *)
Lemma grep_matches_lines fuel pattern : ∀ p, grep_lines pattern fuel p =
  (concat (grep_matches fuel pattern p).1, (grep_matches fuel pattern p).2).
Proof.
  induction fuel as [|fuel IH]; intros p; cbn [grep_lines grep_matches]; [done|]. destruct (cut_line p) as [[line rest]|]; [|done].
  rewrite IH. destruct (grep_matches fuel pattern rest) as [ls l]. cbn [fst snd]. rewrite concat_app. f_equal. f_equal.
  by destruct (match_ pattern line); cbn; rewrite ?app_nil_r.
Qed.
Lemma write_lines ls s : gives (each ls (λ l, call (Write 1 l) ;? done tt)) s (Out 1 <$> ls) tt s.
Proof.
  replace (Out 1 <$> ls) with (concat ((λ l, [Out 1 l]) <$> ls)) by (induction ls as [|l ls IH]; [done|]; cbn; by f_equal).
  apply gives_each. intros l _. eapply gives_then; [done|apply gives_done].
Qed.
Lemma written_lines ls : written 1 (Out 1 <$> ls) = concat ls.
Proof. induction ls as [|l ls IH]; [done|]. unfold written in *. cbn in *. by rewrite IH. Qed.
(** The program does what [grep] of Grep.v computes. *)
Lemma grep_all pattern fd n : ∀ m cs s out, io_open s !! fd = Some cs →
  grep_loop pipe_read pattern n m cs = Ret out →
  ∃ ns s', gives (loop (λ m,
    let? (n, data) := call (Read fd (Z.of_nat (BUF - length m - 1))) in
    if 0 <? n then
      let buf := m ++ take (Z.to_nat n) data in
      let (ls, p) := grep_matches (length buf) pattern buf in
      each ls (λ l, call (Write 1 l) ;? done tt) ;?
      done (inl (if (length p =? length buf)%nat then [] else p))
    else done (inr tt)) m) s ns tt s' ∧ written 1 ns = out.
Proof.
  induction n as [|n IH]; intros m cs s out Hs E; [done|]. cbn [grep_loop] in E.
  assert (io_read fd (Z.of_nat (BUF - length m - 1)) s = let (c, cs') := pipe_read cs (BUF - length m - 1) in
    Go [] (Z.of_nat (length c), c) (set_open (<[fd := cs']> (io_open s)) s)) as Er by (unfold io_read; by rewrite Hs, Nat2Z.id).
  destruct (pipe_read cs (BUF - length m - 1)) as [data cs']. destruct data as [|b data].
  { injection E as <-. exists [], (set_open (<[fd := cs']> (io_open s)) s). split; [|done]. apply gives_end.
    eapply gives_quiet; [exact Er|]. apply gives_done. }
  set (buf := m ++ b :: data) in *. rewrite grep_matches_lines in E. destruct (grep_matches (length buf) pattern buf) as [ls p] eqn:Em. cbn [fst snd] in E.
  destruct (grep_loop pipe_read pattern n _ cs') as [rest| | |] eqn:El; [|done..]. injection E as <-.
  destruct (IH (if (length p =? length buf)%nat then [] else p) cs' (set_open (<[fd := cs']> (io_open s)) s) rest) as (ns & s' & Hg & Hw); [cbn; by rewrite lookup_insert_eq|exact El|].
  exists ((Out 1 <$> ls) ++ ns), s'. split; [|by rewrite written_app, written_lines, Hw].
  eapply gives_again; [|exact Hg]. eapply gives_quiet; [exact Er|]. cbv beta iota.
  rewrite (proj2 (Z.ltb_lt _ _)) by (cbn [length]; lia). cbv zeta. rewrite Nat2Z.id, firstn_all. fold buf. rewrite Em.
  rewrite <- (app_nil_r (Out 1 <$> ls)). eapply gives_bind; [apply write_lines|apply gives_done].
Qed.
Lemma grep_does pattern fd n cs s out : io_open s !! fd = Some cs → Grep.grep pipe_read pattern n cs = Ret out →
  ∃ ns s', gives (grep pattern fd) s ns tt s' ∧ written 1 ns = out.
Proof. apply grep_all. Qed.

(** *** Files of the command line *)
Definition files_out (who : list Z) (out : list Z → list Z → list Z) (fs : list Z → option (list (list Z))) :=
  fix go (files : list (list Z)) : list Z :=
    match files with
    | [] => []
    | f :: files =>
        match fs f with
        | Some cs => out f (concat cs) ++ go files
        | None => who ++ bytes ": cannot open " ++ f ++ nl
        end
    end.
Lemma files_all who body out (P : list (list Z) → Prop) :
  (∀ f, shown (who ++ bytes ": cannot open %s" ++ nl) [VStr f] = who ++ bytes ": cannot open " ++ f ++ nl) →
  (∀ fd f cs s, io_open s !! fd = Some cs → pieces_ok cs → P cs →
     ∃ ns, gives (body fd f) s ns tt (emptied fd s) ∧ written 1 ns = out f (concat cs)) →
  ∀ files s, io_ok s → (∀ f cs, io_fs s f = Some cs → P cs) →
  ∃ ns, shows (with_files who body files ;? (exit : prog unit)) s (notes ns (End tt)) ∧ written 1 ns = files_out who out (io_fs s) files.
Proof.
  intros Hwho Hbody. induction files as [|f files IH]; intros s Hok HP; unfold with_files; cbn [each files_out].
  { exists []. split; [|done]. apply shows_done. by apply (shows_stop _ Exit _ s []). }
  destruct Hok as (Hn & Hfs & Ho). destruct (io_fs s f) as [cs|] eqn:Ef.
  - set (s1 := mkIo (io_fs s) (<[io_next s := cs]> (io_open s)) (io_next s + 1)).
    destruct (Hbody (io_next s) f cs s1) as (ns & Hg & Hw); [cbn; by rewrite lookup_insert_eq|by eapply Hfs|by eapply HP|].
    set (s2 := set_open (delete (io_next s) (io_open (emptied (io_next s) s1))) (emptied (io_next s) s1)).
    destruct (IH s2) as (ns' & Hs' & Hw').
    { split_and!; [cbn; lia|done|]. cbn. rewrite insert_insert_eq. intros i x Hx. apply lookup_delete_Some in Hx as [Hi Hx].
      rewrite lookup_insert_ne in Hx by done. by eapply Ho. }
    { done. }
    exists (ns ++ ns'). split; [|by rewrite written_app, Hw, Hw']. rewrite notes_app. apply shows_assoc, shows_assoc.
    eapply shows_quiet; [cbn; by rewrite Ef|]. rewrite (proj2 (Z.ltb_ge _ _)) by done. apply shows_assoc.
    eapply shows_bind; [exact Hg|]. apply shows_assoc. eapply shows_quiet; [done|]. apply shows_done. exact Hs'.
  - destruct (io_print 1 (who ++ bytes ": cannot open %s" ++ nl) [VStr f] s) as (ns & Hg & Hw). exists ns. rewrite Hwho in Hw. split; [|done].
    apply shows_assoc, shows_assoc. eapply shows_quiet; [cbn; by rewrite Ef|]. change (-1 <? 0) with true. cbv iota. apply shows_assoc.
    eapply shows_bind; [exact Hg|]. apply shows_ends. by apply (shows_stop _ Exit _ s []).
Qed.

(** What a filter puts out, on its standard input or on the files named. *)
Definition tool_out (who : list Z) (out : list Z → list Z → list Z) (argv : list (list Z)) (s : io) : list Z :=
  if (length argv <=? 1)%nat then out [] (concat (default [] (io_open s !! 0)))
  else files_out who out (io_fs s) (tail argv).
Lemma tool_all who body out (P : list (list Z) → Prop) argv s :
  (∀ f, shown (who ++ bytes ": cannot open %s" ++ nl) [VStr f] = who ++ bytes ": cannot open " ++ f ++ nl) →
  (∀ fd f cs s, io_open s !! fd = Some cs → pieces_ok cs → P cs →
     ∃ ns, gives (body fd f) s ns tt (emptied fd s) ∧ written 1 ns = out f (concat cs)) →
  io_ok s → (∀ f cs, io_fs s f = Some cs → P cs) → (∃ cs, io_open s !! 0 = Some cs ∧ P cs) →
  ∃ fuel ns, watch io_env fuel (if (length argv <=? 1)%nat then body 0 [] ;? exit else with_files who body (tail argv) ;? (exit : prog unit)) s
    = Some (notes ns (End tt)) ∧ written 1 ns = tool_out who out argv s.
Proof.
  intros Hwho Hbody Hok HP (cs & Hcs & Hin). unfold tool_out. destruct (_ <=? _)%nat.
  - destruct (Hbody 0 [] cs s) as (ns & Hg & Hw); [done| |done|]. { destruct Hok as (_ & _ & Ho). by eapply Ho. }
    rewrite Hcs. destruct (shows_watch io_env (body 0 [] ;? (exit : prog unit)) s (notes ns (End tt))) as [fuel Hf]; [|eauto].
    eapply shows_bind; [exact Hg|]. by apply (shows_stop _ Exit _ (emptied 0 s) []).
  - destruct (files_all who body out P Hwho Hbody (tail argv) s Hok HP) as (ns & Hs & Hw).
    apply shows_watch in Hs as [fuel Hf]. eauto.
Qed.
End Io.

(** Claim C36: the filters see contents, not reads.  For every environment,
    however the contents of the files arrive in pieces and whatever the
    arguments are, [cat] and [wc] end, and what they put out is determined by
    the contents: [cat] puts out the contents of the files in order, [wc] one
    line per file with the numbers of newlines, of maximal runs of non-blank
    characters and of characters; at a file that cannot be opened they stop
    with a message. *)
Theorem filters_see_contents argv s : io_ok s →
  (∀ f cs, io_fs s f = Some cs → Z.of_nat (length (concat cs)) < 2 ^ 31) →
  (∃ cs, io_open s !! 0 = Some cs ∧ Z.of_nat (length (concat cs)) < 2 ^ 31) →
  (∃ fuel ns, watch io_env fuel (cat_main argv) s = Some (notes ns (End tt)) ∧
     written 1 ns = tool_out (bytes "cat") (λ _ bs, bs) argv s) ∧
  (∃ fuel ns, watch io_env fuel (wc_main argv) s = Some (notes ns (End tt)) ∧
     written 1 ns = tool_out (bytes "wc") wc_line argv s).
Proof.
  intros Hok Hfs Hin. split.
  - apply (tool_all (bytes "cat") (λ fd _, cat fd) (λ _ bs, bs) (λ cs, Z.of_nat (length (concat cs)) < 2 ^ 31)); [| |exact Hok|exact Hfs|exact Hin].
    + intros f. by show_format.
    + intros fd f cs s' H1 H2 _. by apply cat_all.
  - apply (tool_all (bytes "wc") wc wc_line (λ cs, Z.of_nat (length (concat cs)) < 2 ^ 31)); [| |exact Hok|exact Hfs|exact Hin].
    + intros f. by show_format.
    + intros fd f cs s' H1 H2 H3. by apply wc_all.
Qed.
(** A file in three pieces, the standard input empty. *)
Definition one_file : io :=
  mkIo (λ f, if bool_decide (f = bytes "a") then Some [bytes "the qu"; bytes "ick" ++ nl; bytes "fox"] else None) {[0 := []]} 3.
Lemma filters_see_contents_witness :
  (∃ fuel ns, watch io_env fuel (cat_main [bytes "cat"; bytes "a"]) one_file = Some (notes ns (End tt)) ∧
     written 1 ns = tool_out (bytes "cat") (λ _ bs, bs) [bytes "cat"; bytes "a"] one_file) ∧
  (∃ fuel ns, watch io_env fuel (wc_main [bytes "cat"; bytes "a"]) one_file = Some (notes ns (End tt)) ∧
     written 1 ns = tool_out (bytes "wc") wc_line [bytes "cat"; bytes "a"] one_file).
Proof.
  assert (∀ f cs, io_fs one_file f = Some cs → pieces_ok cs ∧ Z.of_nat (length (concat cs)) < 2 ^ 31) as H.
  { intros f cs. cbn [one_file io_fs]. destruct (bool_decide _); [|done]. intros [= <-]. split; [by repeat constructor|done]. }
  apply (filters_see_contents [bytes "cat"; bytes "a"] one_file).
  - split_and!; [done|intros f cs Hf; by apply (H f)|]. intros i cs Hi. cbn [one_file io_open] in Hi. apply lookup_singleton_Some in Hi as [_ <-]. constructor.
  - intros f cs Hf. by apply (H f).
  - exists []. split; [|done]. reflexivity.
Defined.
(** One newline, three words and thirteen characters *)
Example wc_runs :
  (written 1 <$> match watch io_env 200 (wc_main [bytes "wc"; bytes "a"]) one_file with
    | Some v => (fix go v := match v with Note n v => cons n <$> go v | End _ => Some [] | _ => None end) v
    | None => None end) = Some (bytes "1 3 13 a" ++ nl).
Proof. by vm_compute. Qed.

(** ** echo, ls, timem *)
Fixpoint joined (args : list (list Z)) : list Z :=
  match args with
  | [] => []
  | [a] => a ++ nl
  | a :: args => a ++ bytes " " ++ joined args
  end.
(** [echo] prints its arguments with blanks between them and a newline. *)
Lemma echo_prints argv s : ∃ fuel ns, watch io_env fuel (echo_main argv) s = Some (notes ns (End tt)) ∧
  written 1 ns = joined (tail argv).
Proof.
  assert (∀ args, ∃ ns, gives io_env (echo_args args) s ns tt s ∧ written 1 ns = joined args) as H.
  { induction args as [|a args IH]; [exists []; split; [apply gives_done|done]|]. destruct IH as (ns & Hg & Hw). cbn [echo_args].
    set (e := match args with [] => nl | _ => bytes " " end). destruct (io_print 1 (bytes "%s%s") [VStr a; VStr e] s) as (ns' & Hg' & Hw').
    exists (ns' ++ ns). split; [by eapply gives_bind|]. rewrite written_app, Hw, Hw'. clear. show_format.
    subst e. destruct args; cbn [joined]; rewrite <- !app_assoc; done. }
  destruct (H (tail argv)) as (ns & Hg & Hw). destruct (shows_watch io_env (echo_main argv) s (notes ns (End tt))) as [fuel Hf]; [|eauto].
  eapply shows_bind; [exact Hg|]. by apply (shows_stop _ Exit _ s []).
Qed.
(** [fmtname] gives the last name of a path, filled with blanks. *)
Lemma after_slash_name d name : slash ∉ name → after_slash (d ++ slash :: name) = name.
Proof.
  intros Hn. assert (existsb (Z.eqb slash) name = false) as En.
  { apply not_true_iff_false. intros (x & Hx & E)%existsb_exists. apply Z.eqb_eq in E as <-. by apply Hn, list_elem_of_In. }
  induction d as [|c d IH]; cbn [app after_slash]; [by rewrite En|].
  assert (existsb (Z.eqb slash) (d ++ slash :: name) = true) as ->; [|exact IH].
  apply existsb_exists. exists slash. split; [apply in_or_app; right; by left|apply Z.eqb_refl].
Qed.
Lemma fmtname_name d name : slash ∉ name → (length name ≤ Z.to_nat DIRSIZ)%nat →
  fmtname (d ++ slash :: name) = name ++ replicate (Z.to_nat DIRSIZ - length name) 32 ∧
  length (fmtname (d ++ slash :: name)) = Z.to_nat DIRSIZ.
Proof.
  intros Hn Hl. unfold fmtname. rewrite after_slash_name by done. cbv zeta. destruct (Nat.leb_spec (Z.to_nat DIRSIZ) (length name)).
  - replace (Z.to_nat DIRSIZ - length name)%nat with 0%nat by lia. cbn [replicate]. rewrite app_nil_r. split; [done|lia].
  - split; [done|]. rewrite length_app, length_replicate. lia.
Qed.

(** With twenty arguments the array of timem.c has no room for the null
    pointer at the end: the child's behaviour is undefined. *)
Lemma timem_overflow r2 argv s fuel : length argv = 21%nat → watch (sys_env lucky) fuel (timem_main r2 argv) s = None.
Proof.
  intros Hl. destruct fuel as [|fuel]; [done|]. unfold timem_main. rewrite watch_call. cbn [sys_env]. rewrite Hl. cbn [Nat.ltb Nat.leb Nat.add MAX_ARGS].
  destruct fuel as [|fuel]; [done|]. rewrite watch_call. cbn [sys_env can_fork lucky]. cbn -[watch undefined]. by rewrite watch_undefined.
Qed.

(** ** init

    What init does while [n] forks succeed and the next one fails. *)
Section Init.
Context (w : world) (pids : ∀ n, 0 < pid_of w n).
Hypothesis console : can_open w (bytes "console") O_RDWR = true.
Hypothesis shell : can_exec w (bytes "sh") [bytes "sh"] = true.
(** The child that exits is the shell. *)
Hypothesis waits_for : ∀ s, wait_result w (name_of (bump s)) = pid_of w (name_of s).

Fixpoint init_view (n : nat) (s : pst) : seen note ending :=
  notes (said 1 (bytes "init: starting sh" ++ nl) s)
    match n with
    | O => notes (said 1 (bytes "init: fork failed" ++ nl) s) (End Exits)
    | S n => Both (End (Runs (bytes "sh") [bytes "sh"] (ps_fds s))) (Note (Waits (ps_fds s)) (init_view n (bump s)))
    end.
Fixpoint bumps (n : nat) (s : pst) : pst := match n with O => s | S n => bumps n (bump s) end.
Lemma init_rounds n : ∀ s, (∀ k, (k < n)%nat → can_fork w (name_of (bumps k s)) = true) → can_fork w (name_of (bumps n s)) = false →
  shows (sys_env w) (andThen (loop (λ _ : unit, init_round) tt) (λ r : unit, done r)) s (init_view n s).
Proof using pids shell waits_for.
  induction n as [|n IH]; intros s Hyes Hno; apply shows_loop; unfold init_round; apply shows_assoc; cbn [init_view]; (eapply shows_print; [done|]); apply shows_assoc.
  - eapply shows_quiet; [cbn [sys_env]; cbn [bumps] in Hno; by rewrite Hno|]. change (-1 <? 0) with true. cbv iota. apply shows_assoc.
    eapply shows_print; [done|]. apply shows_ends, shows_exit.
  - pose proof (Hyes 0%nat ltac:(lia)) as H0. cbn [bumps] in H0. pose proof (pids (name_of s)) as Hp.
    eapply shows_fork; [cbn [sys_env]; by rewrite H0|..].
    + change (0 <? 0) with false. change (0 =? 0) with true. cbv iota. apply shows_assoc, shows_ends. by apply (shows_stop _ _ _ _ []); cbn [sys_env]; rewrite shell.
    + rewrite (proj2 (Z.ltb_ge _ _)), (proj2 (Z.eqb_neq _ _)) by lia. apply shows_assoc, shows_done, shows_assoc.
      change (Note (Waits (ps_fds s)) (init_view n (bump s))) with (notes [Waits (ps_fds s)] (init_view n (bump s))).
      eapply shows_bind.
      * apply gives_end. eapply gives_then; [done|]. cbn [sys_env]. rewrite waits_for, Z.eqb_refl, andb_false_r. apply gives_done.
      * apply shows_done. apply IH; [|done]. intros k Hk. by apply (Hyes (S k)); lia.
Qed.
(** Three descriptors for the console *)
Definition console_fds : fds := <[2 := tty]> (<[1 := tty]> (<[0 := tty]> ∅)).
(** init starts with no descriptor open, gives the console the descriptors 0, 1
    and 2, and starts a shell with them again and again, until a fork fails;
    the shell is [ready] in the sense of ShRun.v. *)
Lemma init_keeps_shell n me inp : let s := mkPst console_fds me 0 inp in
  (∀ k, (k < n)%nat → can_fork w (name_of (bumps k s)) = true) → can_fork w (name_of (bumps n s)) = false →
  (∃ fuel, watch (sys_env w) fuel init_main (mkPst ∅ me 0 inp) = Some (init_view n s)) ∧ ready s.
Proof using pids console shell waits_for.
  intros s Hyes Hno. split.
  - apply shows_watch. unfold init_main. eapply (shows_quiet _ _ _ _ 0); [cbn [sys_env]; by rewrite console|].
    apply shows_done. eapply (shows_quiet _ _ _ _ 1); [done|]. eapply (shows_quiet _ _ _ _ 2); [done|].
    apply shows_last. by apply init_rounds.
  - split; [repeat split; by eexists|]. exists 3, 4. split; [done|]. intros f. by vm_compute.
Qed.
End Init.
