(* ===== verification/Umalloc.v ===== *)
(** * The memory allocator of user programs (umalloc.c)

    [malloc] and [free] keep the free blocks in a circular list in order of
    address, threaded through the headers of the blocks, with the static
    header [base] as its smallest element.  Memory is that of the process;
    a header is two words, the pointer and the size in units of a header.
    [base] is the address of the static variable, and [sbrk brk n] is the
    system call on a process whose memory ends at [brk]: the new end, or
    [None] for the result -1. *)
From stdpp Require Import sorting.
From S2P Require Import Prelude Machine.

Open Scope Z_scope.

(** [sizeof(Header)] *)
Definition HDR : Z := 8.
Record ualloc := mkUm { um_mem : mem; um_freep : Z; um_brk : Z }.
Definition set_um_freep (p : Z) (s : ualloc) : ualloc := mkUm (um_mem s) p (um_brk s).
Definition set_um_mem (m : mem) (s : ualloc) : ualloc := mkUm m (um_freep s) (um_brk s).

(** [p->s.ptr] and [p->s.size] *)
Definition h_ptr (m : mem) (p : Z) : Z := load32 m p.
Definition h_size (m : mem) (p : Z) : Z := load32 m (p + 4).
Definition put_ptr (p v : Z) (m : mem) : mem := store32 m p v.
Definition put_size (p v : Z) (m : mem) : mem := store32 m (p + 4) v.
(** [p + n] on a [Header *] *)
Definition hdr_add (p n : Z) : Z := u32 (p + HDR * n).

(** The search loop of [free]; the result is the block before [bp]. *)
Fixpoint free_find (fuel : nat) (m : mem) (bp p : Z) : outcome Z :=
  if (p <? bp) && (bp <? h_ptr m p) then Ret p
  else if (h_ptr m p <=? p) && ((p <? bp) || (bp <? h_ptr m p)) then Ret p
  else match fuel with O => Diverge | S fuel => free_find fuel m bp (h_ptr m p) end.
(** The two [if]s of [free]. *)
Definition join_right (bp p : Z) (m : mem) : mem :=
  if hdr_add bp (h_size m bp) =? h_ptr m p then
    let m := put_size bp (h_size m bp + h_size m (h_ptr m p)) m in
    put_ptr bp (h_ptr m (h_ptr m p)) m
  else put_ptr bp (h_ptr m p) m.
Definition join_left (bp p : Z) (m : mem) : mem :=
  if hdr_add p (h_size m p) =? bp then
    let m := put_size p (h_size m p + h_size m bp) m in
    put_ptr p (h_ptr m bp) m
  else put_ptr p bp m.
Definition free (fuel : nat) (ap : Z) (s : ualloc) : outcome ualloc :=
  let bp := u32 (ap - HDR) in
  let* p := free_find fuel (um_mem s) bp (um_freep s) in
  Ret (mkUm (join_left bp p (join_right bp p (um_mem s))) p (um_brk s)).

Section umalloc.
Context (base : Z) (sbrk : Z → Z → option Z).

Definition morecore (fuel : nat) (nu : Z) (s : ualloc) : outcome (Z * ualloc) :=
  let nu := if nu <? 4096 then 4096 else nu in
  match sbrk (um_brk s) (i32 (nu * HDR)) with
  | None => Ret (0, s)
  | Some brk' =>
      let hp := um_brk s in
      let s := mkUm (put_size hp nu (um_mem s)) (um_freep s) brk' in
      let* s := free fuel (u32 (hp + HDR)) s in
      Ret (um_freep s, s)
  end.

(** Taking [nunits] from the block [p], whose predecessor is [prevp]. *)
Definition take_block (nunits prevp p : Z) (m : mem) : Z * mem :=
  if h_size m p =? nunits then (p, put_ptr prevp (h_ptr m p) m)
  else
    let m := put_size p (u32 (h_size m p - nunits)) m in
    let q := hdr_add p (h_size m p) in
    (q, put_size q nunits m).
Fixpoint malloc_loop (fuel : nat) (nunits prevp p : Z) (s : ualloc) : outcome (Z * ualloc) :=
  match fuel with
  | O => Diverge
  | S f =>
      if nunits <=? h_size (um_mem s) p then
        let '(q, m) := take_block nunits prevp p (um_mem s) in
        Ret (u32 (q + HDR), mkUm m prevp (um_brk s))
      else if p =? um_freep s then
        let* (q, s) := morecore f nunits s in
        if q =? 0 then Ret (0, s) else malloc_loop f nunits q (h_ptr (um_mem s) q) s
      else malloc_loop f nunits p (h_ptr (um_mem s) p) s
  end.
Definition units (nbytes : Z) : Z := u32 (nbytes + HDR - 1) / HDR + 1.
Definition malloc (fuel : nat) (nbytes : Z) (s : ualloc) : outcome (Z * ualloc) :=
  let nunits := units nbytes in
  let s := if um_freep s =? 0
           then mkUm (put_size base 0 (put_ptr base base (um_mem s))) base (um_brk s) else s in
  malloc_loop fuel nunits (um_freep s) (h_ptr (um_mem s) (um_freep s)) s.
End umalloc.

(** ** What the list represents

    A block is its address and its size in units. *)
Abbreviation ublock := (Z * Z)%type.
Definition blk_end (x : ublock) : Z := x.1 + HDR * x.2.
Definition covers (b : Z) (x : ublock) : bool := (x.1 <=? b) && (b <? blk_end x).
(** How many blocks of [B] contain the address [b]. *)
Definition cover (b : Z) (B : list ublock) : nat := list_sum (map (λ x, if covers b x then 1%nat else 0%nat) B).
(** Every address between [lo] and [hi] is in exactly one block, and no other is. *)
Definition tiles (lo hi : Z) (B : list ublock) : Prop :=
  ∀ b, cover b B = if (lo <=? b) && (b <? hi) then 1%nat else 0%nat.

(** The program that uses the allocator, with the blocks [A] that it holds:
    it calls [malloc] and [free], and writes to what [malloc] gave it.
    A call returns when there is a number of iterations that is enough. *)
Definition returns {A} (e : nat → outcome A) (v : A) : Prop := ∃ n, ∀ fuel, (n ≤ fuel)%nat → e fuel = Ret v.
(** The number of bytes for which [malloc] computes without overflow. *)
Definition nbytes_ok (nbytes : Z) : Prop := 0 ≤ nbytes ≤ 2 ^ 31 - 32.
Inductive ua_step (base : Z) (sbrk : Z → Z → option Z) : ualloc * list ublock → ualloc * list ublock → Prop :=
  | ua_malloc s A nbytes r s' : nbytes_ok nbytes →
      returns (λ fuel, malloc base sbrk fuel nbytes s) (r, s') →
      ua_step base sbrk (s, A) (s', if r =? 0 then A else (r - HDR, units nbytes) :: A)
  | ua_free s A bp bn A' s' : A ≡ₚ (bp, bn) :: A' → returns (λ fuel, free fuel (bp + HDR) s) s' →
      ua_step base sbrk (s, A) (s', A')
  | ua_write s A x a v : x ∈ A → x.1 + HDR ≤ a < blk_end x →
      ua_step base sbrk (s, A) (set_um_mem (λ b, if b =? a then v else um_mem s b) s, A).
Definition um_init (m : mem) (brk : Z) : ualloc := mkUm m 0 brk.

Definition first (L : list ublock) (nxt : Z) : Z := match L with [] => nxt | (a, _) :: _ => a end.
(** The blocks [L] are linked in memory, the last one to [nxt]. *)
Fixpoint seg (m : mem) (L : list ublock) (nxt : Z) : Prop :=
  match L with
  | [] => True
  | (a, n) :: L' => h_ptr m a = first L' nxt ∧ h_size m a = n ∧ seg m L' nxt
  end.
(** In order of address, with allocated memory between any two. *)
Definition before (x y : ublock) : Prop := blk_end x < y.1.
Definition in_order (H : list ublock) : Prop := StronglySorted before H.

(** ** Headers *)
Definition apart (a b : Z) : Prop := a + HDR ≤ b ∨ b + HDR ≤ a.
Lemma ptr_put_ptr m p v : h_ptr (put_ptr p v m) p = u32 v.
Proof. apply load32_store32_eq. Qed.
Lemma size_put_size m p v : h_size (put_size p v m) p = u32 v.
Proof. apply load32_store32_eq. Qed.
Lemma size_put_ptr m p v : h_size (put_ptr p v m) p = h_size m p.
Proof. apply load32_store32_other. lia. Qed.
Lemma ptr_put_size m p v : h_ptr (put_size p v m) p = h_ptr m p.
Proof. apply load32_store32_other. lia. Qed.
Lemma ptr_put_ptr_apart m p v q : apart p q → h_ptr (put_ptr p v m) q = h_ptr m q.
Proof. unfold apart, HDR. intros. apply load32_store32_other. lia. Qed.
Lemma ptr_put_size_apart m p v q : apart p q → h_ptr (put_size p v m) q = h_ptr m q.
Proof. unfold apart, HDR. intros. apply load32_store32_other. lia. Qed.
Lemma size_put_ptr_apart m p v q : apart p q → h_size (put_ptr p v m) q = h_size m q.
Proof. unfold apart, HDR. intros. apply load32_store32_other. lia. Qed.
Lemma size_put_size_apart m p v q : apart p q → h_size (put_size p v m) q = h_size m q.
Proof. unfold apart, HDR. intros. apply load32_store32_other. lia. Qed.
Lemma apart_sym a b : apart a b → apart b a.
Proof. unfold apart. tauto. Qed.
(** Reads of headers after writes of headers. *)
Ltac headers :=
  repeat first
    [ rewrite ptr_put_ptr | rewrite size_put_size | rewrite size_put_ptr | rewrite ptr_put_size
    | rewrite ptr_put_ptr_apart by auto using apart_sym | rewrite ptr_put_size_apart by auto using apart_sym
    | rewrite size_put_ptr_apart by auto using apart_sym | rewrite size_put_size_apart by auto using apart_sym ].

(** [m] and [m'] have the same header at each block of [L]. *)
Definition same_hdrs (m m' : mem) (L : list ublock) : Prop :=
  Forall (λ x, h_ptr m' x.1 = h_ptr m x.1 ∧ h_size m' x.1 = h_size m x.1) L.
Lemma seg_same m m' L nxt : same_hdrs m m' L → seg m L nxt → seg m' L nxt.
Proof.
  intros Hs. induction Hs as [|[a n] L [Hp Hn] _ IH]; simpl in *; [done|]. rewrite Hp, Hn. tauto.
Qed.
Lemma seg_app m L1 L2 nxt : seg m (L1 ++ L2) nxt ↔ seg m L1 (first L2 nxt) ∧ seg m L2 nxt.
Proof.
  induction L1 as [|[a n] L1 IH]; simpl; [tauto|]. rewrite IH. destruct L1 as [|[b k] L1]; simpl; tauto.
Qed.
Lemma seg_elem m L1 a n L2 nxt : seg m (L1 ++ (a, n) :: L2) nxt → h_ptr m a = first L2 nxt ∧ h_size m a = n.
Proof. rewrite seg_app. simpl. tauto. Qed.

(** ** A call that returns does so with more iterations *)
Lemma free_find_mono f f' m bp p q : free_find f m bp p = Ret q → (f ≤ f')%nat → free_find f' m bp p = Ret q.
Proof.
  revert f' p. induction f as [|f IH]; intros [|f'] p E Hf; try lia; [done|..]; cbn [free_find] in *; repeat case_match; try done.
  apply IH; [done|lia].
Qed.
Lemma free_mono f f' ap s s' : free f ap s = Ret s' → (f ≤ f')%nat → free f' ap s = Ret s'.
Proof.
  unfold free. intros E Hf. destruct (free_find f _ _ _) as [p| | |] eqn:Ef; try done. by rewrite (free_find_mono _ _ _ _ _ _ Ef Hf).
Qed.
Lemma morecore_mono sbrk f f' nu s v : morecore sbrk f nu s = Ret v → (f ≤ f')%nat → morecore sbrk f' nu s = Ret v.
Proof.
  unfold morecore. intros E Hf. destruct (sbrk _ _) as [brk'|]; [|done]. cbv zeta in *.
  destruct (free f _ _) as [s'| | |] eqn:Ef; try done. by rewrite (free_mono _ _ _ _ _ Ef Hf).
Qed.
Lemma malloc_loop_mono sbrk f f' nunits prevp p s v :
  malloc_loop sbrk f nunits prevp p s = Ret v → (f ≤ f')%nat → malloc_loop sbrk f' nunits prevp p s = Ret v.
Proof.
  revert f' prevp p s. induction f as [|f IH]; intros [|f'] prevp p s E Hf; try lia; [done..|]. cbn [malloc_loop] in *.
  destruct (nunits <=? _); [done|]. destruct (p =? um_freep s).
  - destruct (morecore sbrk f nunits s) as [[q s']| | |] eqn:Em; try done.
    rewrite (morecore_mono _ _ f' _ _ _ Em) by lia. destruct (q =? 0); [done|]. apply IH; [done|lia].
  - apply IH; [done|lia].
Qed.

(** ** Tilings *)
Lemma cover_app b B1 B2 : cover b (B1 ++ B2) = (cover b B1 + cover b B2)%nat.
Proof. unfold cover. by rewrite map_app, list_sum_app. Qed.
Lemma cover_cons b x B : cover b (x :: B) = ((if covers b x then 1 else 0) + cover b B)%nat.
Proof. done. Qed.
#[export] Instance cover_perm b : Proper ((≡ₚ) ==> eq) (cover b).
Proof. intros B B' H. induction H; rewrite ?cover_cons in *; lia. Qed.
#[export] Instance tiles_perm lo hi : Proper ((≡ₚ) ==> iff) (tiles lo hi).
Proof. intros B B' H. unfold tiles. by setoid_rewrite H. Qed.
Lemma covers_split b a n k : 0 ≤ n → 0 ≤ k →
  ((if covers b (a, (n + k)%Z) then 1 else 0) = (if covers b (a, n) then 1 else 0) + (if covers b ((a + HDR * n)%Z, k) then 1 else 0))%nat.
Proof.
  intros Hn Hk. unfold covers, blk_end, HDR. cbn [fst snd].
  destruct (Z.leb_spec a b), (Z.ltb_spec b (a + 8 * (n + k))), (Z.ltb_spec b (a + 8 * n)), (Z.leb_spec (a + 8 * n) b),
    (Z.ltb_spec b (a + 8 * n + 8 * k)); simpl; lia.
Qed.
(** A block in two parts. *)
Lemma tiles_split lo hi a n k B : 0 ≤ n → 0 ≤ k →
  tiles lo hi ((a, n + k) :: B) ↔ tiles lo hi ((a, n) :: (a + HDR * n, k) :: B).
Proof. intros Hn Hk. unfold tiles. setoid_rewrite cover_cons. setoid_rewrite cover_cons. setoid_rewrite covers_split; [|done..].
  split; intros H b; specialize (H b); lia. Qed.
Lemma tiles_in lo hi x B : tiles lo hi (x :: B) → 1 ≤ x.2 → lo ≤ x.1 ∧ blk_end x ≤ hi.
Proof.
  intros Ht Hn. unfold blk_end. split.
  - specialize (Ht x.1). rewrite cover_cons in Ht. unfold covers, blk_end, HDR in Ht.
    rewrite Z.leb_refl, (proj2 (Z.ltb_lt _ _)) in Ht by lia. simpl in Ht.
    destruct (Z.leb_spec lo x.1); [done|]. simpl in Ht. lia.
  - specialize (Ht (blk_end x - 1)). rewrite cover_cons in Ht. unfold covers, blk_end, HDR in *.
    rewrite (proj2 (Z.leb_le _ _)), (proj2 (Z.ltb_lt _ _)) in Ht by lia. simpl in Ht.
    destruct (Z.ltb_spec (x.1 + 8 * x.2 - 1) hi); [lia|]. rewrite andb_false_r in Ht. lia.
Qed.
Lemma tiles_disjoint lo hi x y B : tiles lo hi (x :: y :: B) → 1 ≤ x.2 → 1 ≤ y.2 → blk_end x ≤ y.1 ∨ blk_end y ≤ x.1.
Proof.
  intros Ht Hx Hy. destruct (decide (blk_end x ≤ y.1 ∨ blk_end y ≤ x.1)) as [|Hn]; [done|]. exfalso.
  specialize (Ht (Z.max x.1 y.1)). rewrite !cover_cons in Ht. unfold covers, blk_end, HDR in *.
  rewrite !(proj2 (Z.leb_le _ _)), !(proj2 (Z.ltb_lt _ _)) in Ht by lia. simpl in Ht. destruct (_ && _); lia.
Qed.
Lemma tiles_grow lo hi k B : tiles lo hi B → lo ≤ hi → 0 ≤ k → tiles lo (hi + HDR * k) ((hi, k) :: B).
Proof.
  intros Ht Hl Hk b. rewrite cover_cons, Ht. unfold covers, blk_end, HDR. cbn [fst snd].
  destruct (Z.leb_spec lo b), (Z.ltb_spec b hi), (Z.leb_spec hi b), (Z.ltb_spec b (hi + 8 * k)); simpl; lia.
Qed.

(** ** The invariant *)
Section inv.
Context (base lo : Z) (Hlo : 0 < base ∧ base + HDR ≤ lo).

Definition ring (H : list ublock) : list ublock := (base, 0) :: H.
(** The blocks between [lo] and [brk]: [H] free, [A] allocated. *)
Record blocks_ok (m : mem) (brk : Z) (H A : list ublock) : Prop := {
  bo_tiles : tiles lo brk (H ++ A);
  bo_sizes : Forall (λ x, 1 ≤ x.2) (H ++ A);
  bo_order : in_order H;
  bo_alloc : Forall (λ x, h_size m x.1 = x.2) A;
  bo_brk : lo ≤ brk ≤ KERNBASE }.
(** The allocator after its first use. *)
Definition live (s : ualloc) (H A : list ublock) : Prop :=
  blocks_ok (um_mem s) (um_brk s) H A ∧ seg (um_mem s) (ring H) base ∧ um_freep s ∈ (ring H).*1.
Definition ua_inv (s : ualloc) (H A : list ublock) : Prop :=
  live s H A ∨ um_freep s = 0 ∧ H = [] ∧ A = [] ∧ um_brk s = lo ∧ lo ≤ KERNBASE.

(** Two different blocks do not overlap. *)
Lemma blocks_apart m brk H A x y B : blocks_ok m brk H A → H ++ A ≡ₚ x :: y :: B →
  1 ≤ x.2 ∧ 1 ≤ y.2 ∧ (blk_end x ≤ y.1 ∨ blk_end y ≤ x.1) ∧ apart x.1 y.1.
Proof.
  intros [Ht Hs _ _ _] Hp. rewrite Hp in Ht, Hs. apply Forall_cons in Hs as [Hx Hs]. apply Forall_cons in Hs as [Hy _].
  pose proof (tiles_disjoint _ _ _ _ _ Ht Hx Hy) as Hd. split_and!; [done..|]. unfold apart, blk_end, HDR in *. lia.
Qed.
Lemma block_bounds m brk H A x B : blocks_ok m brk H A → H ++ A ≡ₚ x :: B →
  1 ≤ x.2 ∧ lo ≤ x.1 ∧ blk_end x ≤ brk ∧ brk ≤ KERNBASE ∧ apart base x.1.
Proof using Hlo.
  intros [Ht Hs _ _ Hb] Hp. rewrite Hp in Ht, Hs. apply Forall_cons in Hs as [Hx _].
  destruct (tiles_in _ _ _ _ Ht Hx). split_and!; [done..|lia|]. unfold apart. lia.
Qed.

(** ** The search of [free]

    [P ++ (p, n) :: Q] is the ring; [p] comes before [bp], or after it. *)
Definition splits (bp : Z) (L P : list ublock) (p n : Z) (Q : list ublock) : Prop :=
  L = P ++ (p, n) :: Q ∧ p < bp ∧ Forall (λ x, bp < x.1) Q.
Definition ascending (L : list ublock) : Prop := StronglySorted (λ x y : ublock, x.1 < y.1) L.

Lemma find_before m bp L P Q : ∀ p n, L = P ++ (p, n) :: Q → seg m L base → ascending L → Forall (λ x, x.1 ≠ bp) L →
  base ≤ p → base < bp → p < bp → ∀ fuel, (length Q ≤ fuel)%nat →
  ∃ P' p' n' Q', free_find fuel m bp p = Ret p' ∧ splits bp L P' p' n' Q'.
Proof.
  revert P. induction Q as [|[q k] Q IH]; intros P p n EL Hseg Ho Hne Hbp Hbb Hlt fuel Hf.
  - exists P, p, n, []. split; [|done]. rewrite EL in Hseg. destruct (seg_elem _ _ _ _ _ _ Hseg) as [Hp _]. simpl in Hp.
    destruct fuel; cbn [free_find]; rewrite Hp, (proj2 (Z.ltb_lt p bp)), (proj2 (Z.ltb_ge bp base)), (proj2 (Z.leb_le base p)) by lia; done.
  - pose proof Hseg as Hseg'. rewrite EL in Hseg'. destruct (seg_elem _ _ _ _ _ _ Hseg') as [Hp _]. simpl in Hp.
    assert (p < q) as Hpq.
    { rewrite EL in Ho. apply StronglySorted_app_1_r, StronglySorted_cons in Ho as [Ho _]. by apply Forall_inv in Ho. }
    assert (q ≠ bp) as Hqb.
    { rewrite Forall_forall in Hne. apply (Hne (q, k)). rewrite EL. apply elem_of_app. right. apply list_elem_of_further, list_elem_of_here. }
    destruct (decide (bp < q)) as [Hbq|Hbq].
    + exists P, p, n, ((q, k) :: Q). split.
      * destruct fuel; cbn [free_find]; rewrite Hp, (proj2 (Z.ltb_lt p bp)), (proj2 (Z.ltb_lt bp q)) by lia; done.
      * split_and!; [done..|]. constructor; [done|]. rewrite EL in Ho. apply StronglySorted_app_1_r, StronglySorted_cons in Ho as [_ Ho].
        apply StronglySorted_cons in Ho as [Ho _]. eapply Forall_impl; [exact Ho|]. simpl. lia.
    + simpl in Hf. destruct fuel as [|fuel]; [lia|]. cbn [free_find]. rewrite Hp.
      rewrite (proj2 (Z.ltb_ge bp q)), (proj2 (Z.leb_gt q p)), andb_false_r by lia. simpl.
      eapply (IH (P ++ [(p, n)]) q k); [by rewrite EL, <- app_assoc|done..|lia|done|lia|lia].
Qed.
Lemma find_after m bp L P Q : ∀ p n, L = P ++ (p, n) :: Q → seg m L base → ascending L → Forall (λ x, x.1 ≠ bp) L →
  (∃ k Q', L = (base, k) :: Q') → base < bp → bp < p → ∀ fuel, (S (length Q + length L) ≤ fuel)%nat →
  ∃ P' p' n' Q', free_find fuel m bp p = Ret p' ∧ splits bp L P' p' n' Q'.
Proof.
  revert P. induction Q as [|[q k] Q IH]; intros P p n EL Hseg Ho Hne Hb Hbb Hlt fuel Hf;
    pose proof Hseg as Hseg'; rewrite EL in Hseg'; destruct (seg_elem _ _ _ _ _ _ Hseg') as [Hp _]; simpl in Hp;
    (destruct fuel as [|fuel]; [lia|]); cbn [free_find]; rewrite Hp, (proj2 (Z.ltb_ge p bp)) by lia; cbn [andb orb].
  - rewrite (proj2 (Z.ltb_ge bp base)), andb_false_r by lia. destruct Hb as (k & Q' & EL').
    eapply (find_before m bp L [] Q' base k); [done|done|done|done|lia|done|done|]. rewrite EL' in Hf. simpl in Hf. lia.
  - assert (p < q) as Hpq.
    { rewrite EL in Ho. apply StronglySorted_app_1_r, StronglySorted_cons in Ho as [Ho _]. by apply Forall_inv in Ho. }
    rewrite (proj2 (Z.leb_gt q p)) by lia. cbn [andb].
    apply (IH (P ++ [(p, n)]) q k); [by rewrite EL, <- app_assoc|done..|lia|simpl in Hf; lia].
Qed.

(** ** Joining blocks *)
(** [bp] with [bn] units joined to the first block of [Q] when they touch. *)
Definition right (bp bn : Z) (Q : list ublock) : Z * list ublock :=
  match Q with
  | (q, k) :: Q' => if bp + HDR * bn =? q then (bn + k, Q') else (bn, Q)
  | [] => (bn, [])
  end.
Lemma right_spec bp bn Q bn' R : right bp bn Q = (bn', R) → 1 ≤ bn → Forall (λ x, 1 ≤ x.2) Q → in_order Q →
  Forall (λ x, bp + HDR * bn ≤ x.1) Q →
  in_order ((bp, bn') :: R) ∧ bn ≤ bn' ∧ (∃ Q1, Q = Q1 ++ R) ∧
  (∀ hi B, tiles lo hi ((bp, bn) :: Q ++ B) → tiles lo hi ((bp, bn') :: R ++ B)).
Proof.
  unfold right. intros E Hbn HQ Ho Hd. destruct Q as [|[q k] Q].
  { injection E as <- <-. split_and!; [|done|by exists []|done]. repeat constructor. }
  apply Forall_cons in HQ as [Hk HQ]. apply Forall_cons in Hd as [Hq Hd]. cbn [fst snd] in *.
  pose proof Ho as Ho'. apply StronglySorted_cons in Ho' as [Hqo Ho'].
  destruct (Z.eqb_spec (bp + HDR * bn) q) as [Eq|Hne]; injection E as <- <-.
  - split_and!; [|lia|by exists [(q, k)]|].
    + apply StronglySorted_cons. split; [|done]. eapply Forall_impl; [exact Hqo|]. intros y. unfold before, blk_end, HDR in *. simpl. lia.
    + intros hi B Ht. apply tiles_split; [lia..|]. by rewrite Eq.
  - split_and!; [|lia|by exists []|done]. apply StronglySorted_cons. split; [|done].
    constructor; [unfold before, blk_end; simpl; lia|]. eapply Forall_impl; [exact Hqo|]. intros y. unfold before, blk_end, HDR in *. simpl. lia.
Qed.
(** What [join_right] writes. *)
Lemma join_right_spec m bp bn p Q bn' R : right bp bn Q = (bn', R) → h_size m bp = bn → h_ptr m p = first Q base →
  seg m Q base → Forall (λ x, apart bp x.1) Q → apart bp p → 0 ≤ bp → 1 ≤ bn → base < bp → bp + HDR * bn ≤ KERNBASE →
  0 ≤ bn' < 2 ^ 32 → 0 ≤ first R base < 2 ^ 32 →
  h_ptr (join_right bp p m) bp = first R base ∧ h_size (join_right bp p m) bp = bn' ∧
  ∀ a, apart bp a → h_ptr (join_right bp p m) a = h_ptr m a ∧ h_size (join_right bp p m) a = h_size m a.
Proof.
  intros E Hs Hp HQ Ha Hap H0 Hbn Hbb Hk Hbn' HR. unfold join_right. rewrite Hs, Hp.
  assert (hdr_add bp bn = bp + HDR * bn) as -> by (apply u32_small; unfold HDR, KERNBASE in *; lia).
  unfold right in E. destruct Q as [|[q k] Q]; cbn [first] in *.
  { injection E as <- <-. cbn [first] in *. rewrite (proj2 (Z.eqb_neq _ _)) by (unfold HDR in *; lia).
    headers. rewrite u32_small by done. split_and!; [done..|]. intros a Haa. headers. done. }
  destruct HQ as (Hqp & Hqs & _). apply Forall_inv in Ha. cbn [fst] in Ha.
  destruct (Z.eqb_spec (bp + HDR * bn) q) as [Eq|Hne]; injection E as <- <-.
  - cbv zeta. rewrite (ptr_put_size_apart m bp _ p) by done. rewrite Hp. cbn [first]. headers. rewrite Hqp, Hqs, !u32_small by done.
    split_and!; [done..|]. intros a Haa. headers. done.
  - headers. cbn [first] in *. rewrite u32_small by done. split_and!; [done..|]. intros a Haa. headers. done.
Qed.

(** The blocks of the ring are in order, and their headers do not overlap. *)
Lemma elem_perm {A} (x : A) l : x ∈ l → ∃ l', l ≡ₚ x :: l'.
Proof. intros (l1 & l2 & ->)%list_elem_of_split. exists (l1 ++ l2). by rewrite Permutation_middle. Qed.
Lemma ring_sorted m brk H A : blocks_ok m brk H A → StronglySorted (λ x y : ublock, x.1 + HDR ≤ y.1) (ring H).
Proof using Hlo.
  intros Hok. apply StronglySorted_cons. split.
  - apply Forall_forall. intros x Hx. destruct (elem_perm x (H ++ A)) as [B HB]; [apply elem_of_app; by left|].
    destruct (block_bounds _ _ _ _ _ _ Hok HB) as (_ & ? & _). simpl. lia.
  - destruct Hok as [_ Hs Ho _ _]. apply Forall_app in Hs as [Hs _]. clear A. induction Ho as [|x H Ho IH Hx]; constructor.
    + apply IH. by apply Forall_cons in Hs as [_ ?].
    + apply Forall_cons in Hs as [Hs _]. eapply Forall_impl; [exact Hx|]. intros y. unfold before, blk_end, HDR. lia.
Qed.
Lemma ring_ascending m brk H A : blocks_ok m brk H A → ascending (ring H).
Proof using Hlo.
  intros Hok. pose proof (ring_sorted _ _ _ _ Hok) as Hs. induction Hs as [|x L _ IH Hx]; constructor; [done|].
  eapply Forall_impl; [exact Hx|]. unfold HDR. simpl. lia.
Qed.
Lemma ring_apart m brk H A P p n Q : blocks_ok m brk H A → ring H = P ++ (p, n) :: Q → Forall (λ x, apart p x.1) (P ++ Q).
Proof using Hlo.
  intros Hok E. pose proof (ring_sorted _ _ _ _ Hok) as Hs. rewrite E in Hs. apply Forall_app. split.
  - apply Forall_forall. intros x Hx. right. pose proof (StronglySorted_app_1_elem_of _ _ _ x (p, n) Hs Hx ltac:(apply list_elem_of_here)). done.
  - apply StronglySorted_app_1_r, StronglySorted_cons in Hs as [Hs _]. eapply Forall_impl; [exact Hs|]. intros x Hx. by left.
Qed.
(** An allocated block and the ring. *)
Lemma alloc_ring m brk H A bp bn A' : blocks_ok m brk H A → A ≡ₚ (bp, bn) :: A' →
  1 ≤ bn ∧ lo ≤ bp ∧ bp + HDR * bn ≤ KERNBASE ∧ apart bp base ∧
  Forall (λ x, apart bp x.1 ∧ (bp + HDR * bn ≤ x.1 ∨ blk_end x ≤ bp)) (H ++ A').
Proof using Hlo.
  intros Hok HA. assert (H ++ A ≡ₚ (bp, bn) :: H ++ A') as HB by (rewrite HA; solve_Permutation).
  destruct (block_bounds _ _ _ _ _ _ Hok HB) as (H1 & H2 & H3 & H4 & H5). unfold blk_end in H3. cbn [fst snd] in *.
  split_and!; [done|done|lia|by apply apart_sym|]. apply Forall_forall. intros x Hx.
  destruct (elem_perm x _ Hx) as [B HB']. rewrite HB' in HB.
  destruct (blocks_apart _ _ _ _ _ _ _ Hok HB) as (_ & _ & Hd & Ha). done.
Qed.

(** What [join_left] writes. *)
Lemma join_left_spec m bp p n bn' r : h_size m p = n → h_ptr m bp = r → h_size m bp = bn' → apart bp p →
  p + HDR * n < 2 ^ 32 → 0 ≤ p → 0 ≤ n → 0 ≤ bp < 2 ^ 32 → 0 ≤ n + bn' < 2 ^ 32 → 0 ≤ r < 2 ^ 32 →
  (p + HDR * n = bp → h_ptr (join_left bp p m) p = r ∧ h_size (join_left bp p m) p = n + bn') ∧
  (p + HDR * n ≠ bp → h_ptr (join_left bp p m) p = bp ∧ h_size (join_left bp p m) p = n) ∧
  ∀ a, apart p a → h_ptr (join_left bp p m) a = h_ptr m a ∧ h_size (join_left bp p m) a = h_size m a.
Proof.
  intros Hs Hp Hb Hap H1 H2 H3 H4 H5 H6. unfold join_left. rewrite Hs, Hb.
  assert (hdr_add p n = p + HDR * n) as -> by (apply u32_small; unfold HDR in *; lia).
  destruct (Z.eqb_spec (p + HDR * n) bp) as [E|Hne]; cbv zeta; (split; [|split]); intros Hc; try done.
  - headers. rewrite Hp, !u32_small by done. done.
  - intros Ha. headers. done.
  - headers. rewrite u32_small by done. done.
  - intros Ha. headers. done.
Qed.

(** The ring is [base] and the free blocks: where [p] lies. *)
Lemma ring_cases H P p n Q : ring H = P ++ (p, n) :: Q →
  ∃ D, H = D ++ Q ∧ (P = [] ∧ D = [] ∧ p = base ∧ n = 0 ∨ ∃ P', P = (base, 0) :: P' ∧ D = P' ++ [(p, n)]).
Proof.
  unfold ring. destruct P as [|x P']; simpl; intros [= E1 E2].
  - exists []. split; [done|]. left. done.
  - exists (P' ++ [(p, n)]). subst. rewrite <- app_assoc. split; [done|]. right. eauto.
Qed.
Lemma first_range m brk H A R Q1 D : blocks_ok m brk H A → H = D ++ Q1 ++ R → 0 ≤ first R base < 2 ^ 32.
Proof using Hlo.
  intros Hok E. pose proof Hok as [_ _ _ _ Hb]. unfold KERNBASE, HDR in *. destruct R as [|[r k] R]; simpl; [lia|].
  destruct (elem_perm (r, k) (H ++ A)) as [B HB]; [subst H; set_solver|].
  destruct (block_bounds _ _ _ _ _ _ Hok HB) as (? & ? & ? & ? & _). unfold blk_end, KERNBASE, HDR in *. simpl in *. lia.
Qed.
(** The free list with the block [bp] of [bn] units put back. *)
Definition joined (P : list ublock) (p n bp bn' : Z) (R : list ublock) : list ublock :=
  P ++ (if p + HDR * n =? bp then (p, n + bn') :: R else (p, n) :: (bp, bn') :: R).

(** The order and the tiling of the new list. *)
Lemma joined_ok D p n P' bp bn bn' Q R A' brk : D = P' ++ [(p, n)] →
  right bp bn Q = (bn', R) → 1 ≤ bn → 1 ≤ n → p < bp → blk_end (p, n) ≤ bp →
  Forall (λ x, 1 ≤ x.2) ((D ++ Q) ++ A') → in_order (D ++ Q) → Forall (λ x, bp + HDR * bn ≤ x.1) Q →
  tiles lo brk ((bp, bn) :: (D ++ Q) ++ A') →
  let H' := joined P' p n bp bn' R in
  tiles lo brk (H' ++ A') ∧ Forall (λ x, 1 ≤ x.2) (H' ++ A') ∧ in_order H' ∧ (∃ x, x ∈ H' ∧ bn ≤ x.2).
Proof.
  intros -> Er Hbn Hn Hpb Hd Hs Ho HQ Ht H'. apply Forall_app in Hs as [Hs HsA]. apply Forall_app in Hs as [HsD HsQ].
  apply Forall_app in HsD as [HsP _].
  pose proof (StronglySorted_app_1_r _ _ _ Ho) as HoQ. pose proof (StronglySorted_app_1_l _ _ _ Ho) as HoD.
  destruct (right_spec bp bn Q bn' R Er Hbn HsQ HoQ HQ) as (HoR & Hle & (Q1 & EQ) & Htr).
  assert (tiles lo brk ((bp, bn') :: (p, n) :: R ++ P' ++ A')) as Ht'.
  { assert ((bp, bn') :: (p, n) :: R ++ P' ++ A' ≡ₚ (bp, bn') :: R ++ ((p, n) :: P' ++ A')) as -> by solve_Permutation.
    apply Htr. assert ((bp, bn) :: ((P' ++ [(p, n)]) ++ Q) ++ A' ≡ₚ (bp, bn) :: Q ++ (p, n) :: P' ++ A') as <- by solve_Permutation. done. }
  assert (Forall (λ x, 1 ≤ x.2) R) as HsR by (rewrite EQ in HsQ; by apply Forall_app in HsQ as [_ ?]).
  apply StronglySorted_app in HoD as (HoPp & HoP & _). pose proof HoR as HoR'. apply StronglySorted_cons in HoR as [HbR HoR].
  assert (∀ x, x ∈ P' → blk_end x < p) as HP by (intros x Hx; apply (HoPp x (p, n) Hx); apply list_elem_of_here).
  unfold H', joined, before, in_order, blk_end, HDR in *. cbn [fst snd] in *.
  destruct (Z.eqb_spec (p + 8 * n) bp) as [E|Hne].
  - split_and!.
    + assert ((P' ++ (p, n + bn') :: R) ++ A' ≡ₚ (p, n + bn') :: R ++ P' ++ A') as -> by solve_Permutation.
      apply tiles_split; [lia..|]. unfold HDR. rewrite E. by rewrite Permutation_swap.
    + rewrite !Forall_app. split_and!; [done| |done]. constructor; [simpl; lia|done].
    + apply StronglySorted_app. split_and!; [|done|].
      * intros x y Hx Hy. unfold before, blk_end, HDR. specialize (HP x Hx). apply elem_of_cons in Hy as [->|Hy]; [simpl; lia|].
        rewrite Forall_forall in HbR. specialize (HbR y Hy). simpl in HbR. lia.
      * apply StronglySorted_cons. split; [|done]. eapply Forall_impl; [exact HbR|]. unfold before, blk_end, HDR. simpl. lia.
    + exists (p, n + bn'). split; [apply elem_of_app; right; apply list_elem_of_here|simpl; lia].
  - split_and!.
    + assert ((P' ++ (p, n) :: (bp, bn') :: R) ++ A' ≡ₚ (bp, bn') :: (p, n) :: R ++ P' ++ A') as -> by solve_Permutation. done.
    + rewrite !Forall_app. split_and!; [done| |done]. repeat (constructor; [simpl; lia|]). done.
    + apply StronglySorted_app. split_and!; [|done|].
      * intros x y Hx Hy. unfold before, blk_end, HDR. specialize (HP x Hx). rewrite !elem_of_cons in Hy. destruct Hy as [->|[->|Hy]]; [simpl; lia..|].
        rewrite Forall_forall in HbR. specialize (HbR y Hy). simpl in HbR. lia.
      * apply StronglySorted_cons. split; [|done]. unfold before, blk_end, HDR.
        constructor; [simpl; lia|]. eapply Forall_impl; [exact HbR|]. simpl. lia.
    + exists (bp, bn'). split; [apply elem_of_app; right; apply list_elem_of_further, list_elem_of_here|done].
Qed.
(** A block of the ring and an allocated block have headers of their own. *)
Lemma ring_alloc_apart m brk H A P p n Q : blocks_ok m brk H A → ring H = P ++ (p, n) :: Q → Forall (λ x, apart p x.1) A.
Proof using Hlo.
  intros Hok E. apply Forall_forall. intros x Hx. destruct (ring_cases _ _ _ _ _ E) as (D & EH & [(_ & _ & -> & _)|(P' & _ & ED)]).
  - destruct (elem_perm x (H ++ A)) as [B HB]; [apply elem_of_app; by right|].
    by destruct (block_bounds _ _ _ _ _ _ Hok HB) as (_ & _ & _ & _ & ?).
  - destruct (elem_perm x A Hx) as [A1 HA1]. destruct (elem_perm (p, n) H) as [H1 HH1]; [subst; set_solver|].
    assert (H ++ A ≡ₚ (p, n) :: x :: H1 ++ A1) as HB by (rewrite HA1, HH1; solve_Permutation).
    by destruct (blocks_apart _ _ _ _ _ _ _ Hok HB) as (_ & _ & _ & ?).
Qed.
(** Linking after the two joins. *)
Lemma joined_seg m m1 m2 P p n Q bp bn' Q1 R :
  Q = Q1 ++ R → seg m (P ++ (p, n) :: Q) base → h_ptr m1 bp = first R base → h_size m1 bp = bn' →
  Forall (λ x, apart bp x.1 ∧ apart p x.1) (P ++ Q) → apart bp p →
  (∀ a, apart bp a → h_ptr m1 a = h_ptr m a ∧ h_size m1 a = h_size m a) →
  (p + HDR * n = bp → h_ptr m2 p = first R base ∧ h_size m2 p = n + bn') →
  (p + HDR * n ≠ bp → h_ptr m2 p = bp ∧ h_size m2 p = n) →
  (∀ a, apart p a → h_ptr m2 a = h_ptr m1 a ∧ h_size m2 a = h_size m1 a) →
  seg m2 (joined P p n bp bn' R) base.
Proof.
  intros -> Hseg Hb1 Hb2 Hap Hbp H1 Hj Hnj H2. apply seg_app in Hseg as [HP HQ]. simpl in HQ. destruct HQ as (_ & _ & HQ).
  apply seg_app in HQ as [_ HR]. rewrite app_assoc in Hap. apply Forall_app in Hap as [HaP HaR]. apply Forall_app in HaP as [HaP _].
  assert (∀ L, Forall (λ x, apart bp x.1 ∧ apart p x.1) L → same_hdrs m m2 L) as Hsame.
  { intros L HL. eapply Forall_impl; [exact HL|]. intros x [Hx1 Hx2]. destruct (H2 _ Hx2) as [-> ->]. by apply H1. }
  unfold joined. apply seg_app. destruct (Z.eqb_spec (p + HDR * n) bp) as [E|Hne]; cbn [first]; (split; [by eapply seg_same; [apply Hsame|]|]).
  - cbn [seg]. destruct (Hj E) as [-> ->]. split_and!; [done..|]. eapply seg_same; [by apply Hsame|done].
  - cbn [seg first]. destruct (Hnj Hne) as [-> ->], (H2 bp (apart_sym _ _ Hbp)) as [-> ->].
    split_and!; [done..|]. eapply seg_same; [by apply Hsame|done].
Qed.

(** The bytes of the allocated blocks, their headers apart, are the same. *)
Definition contents_kept (A : list ublock) (m m' : mem) : Prop :=
  ∀ x a, x ∈ A → x.1 + HDR ≤ a < blk_end x → m' a = m a.
Definition outside (p a : Z) : Prop := a < p ∨ p + HDR ≤ a.
Lemma put_ptr_outside p v m a : outside p a → put_ptr p v m a = m a.
Proof. unfold outside, HDR. intros. apply store32_other. lia. Qed.
Lemma put_size_outside p v m a : outside p a → put_size p v m a = m a.
Proof. unfold outside, HDR. intros. apply store32_other. lia. Qed.
Lemma join_outside bp p m a : outside bp a → outside p a → join_left bp p (join_right bp p m) a = m a.
Proof.
  intros Hb Hp. unfold join_left, join_right.
  repeat case_match; rewrite ?put_ptr_outside, ?put_size_outside, ?put_ptr_outside, ?put_size_outside by done; done.
Qed.
Lemma contents_trans A m1 m2 m3 : contents_kept A m1 m2 → contents_kept A m2 m3 → contents_kept A m1 m3.
Proof. intros H1 H2 x a Hx Ha. rewrite (H2 x a), (H1 x a); done. Qed.
(** They are outside the free blocks, the other allocated blocks and [base]. *)
Lemma ring_outside m brk H A x a y : blocks_ok m brk H A → x ∈ A → x.1 + HDR ≤ a < blk_end x → y ∈ ring H →
  (a < y.1 ∨ blk_end y ≤ a) ∧ outside y.1 a.
Proof using Hlo.
  intros Hok Hx Ha Hy. destruct (elem_perm x A Hx) as [A1 HA1]. apply elem_of_cons in Hy as [->|Hy].
  - assert (H ++ A ≡ₚ x :: H ++ A1) as HB by (rewrite HA1; solve_Permutation).
    destruct (block_bounds _ _ _ _ _ _ Hok HB) as (_ & ? & _). unfold outside, blk_end, HDR in *. simpl. lia.
  - destruct (elem_perm y H Hy) as [H1 HH1]. assert (H ++ A ≡ₚ x :: y :: H1 ++ A1) as HB by (rewrite HA1, HH1; solve_Permutation).
    destruct (blocks_apart _ _ _ _ _ _ _ Hok HB) as (? & ? & Hd & ?). unfold outside, blk_end, HDR in *. lia.
Qed.
Lemma alloc_outside m brk H A bp bn A' x a : blocks_ok m brk H A → A ≡ₚ (bp, bn) :: A' → x ∈ A' → x.1 + HDR ≤ a < blk_end x →
  outside bp a.
Proof.
  intros Hok HA Hx Ha. destruct (elem_perm x A' Hx) as [A1 HA1].
  assert (H ++ A ≡ₚ x :: (bp, bn) :: H ++ A1) as HB by (rewrite HA, HA1; solve_Permutation).
  destruct (blocks_apart _ _ _ _ _ _ _ Hok HB) as (? & ? & Hd & ?). unfold outside, blk_end, HDR in *. simpl in *. lia.
Qed.

Lemma free_at m brk H A bp bn A' P p n Q : blocks_ok m brk H A → A ≡ₚ (bp, bn) :: A' → seg m (ring H) base →
  splits bp (ring H) P p n Q →
  ∃ H', blocks_ok (join_left bp p (join_right bp p m)) brk H' A' ∧
    seg (join_left bp p (join_right bp p m)) (ring H') base ∧ p ∈ (ring H').*1 ∧ (∃ x, x ∈ H' ∧ bn ≤ x.2) ∧
    (length H' ≤ S (length H))%nat.
Proof using Hlo.
  intros Hok HA Hseg (EL & Hpb & HQb). destruct (alloc_ring _ _ _ _ _ _ _ Hok HA) as (Hbn & Hlob & Hbk & Hbb & Hdis).
  pose proof Hok as [Ht Hs Ho Hal Hbrk]. pose proof (ring_apart _ _ _ _ _ _ _ _ Hok EL) as Hpa.
  pose proof (ring_alloc_apart _ _ _ _ _ _ _ _ Hok EL) as HpA. rewrite HA in HpA. apply Forall_cons in HpA as [Hpbp HpA].
  destruct (ring_cases _ _ _ _ _ EL) as (D & EH & HD). rewrite EL in Hseg. destruct (seg_elem _ _ _ _ _ _ Hseg) as [Hpp Hpn].
  assert (Forall (λ x, 1 ≤ x.2) Q) as HsQ by (rewrite EH in Hs; by apply Forall_app in Hs as [[_ ?]%Forall_app _]).
  rewrite EH in Hdis. apply Forall_app in Hdis as [[HdD HdQ]%Forall_app HdA].
  assert (Forall (λ x, bp + HDR * bn ≤ x.1) Q) as HQd.
  { apply Forall_forall. intros x Hx. rewrite Forall_forall in HdQ, HQb, HsQ. destruct (HdQ x Hx) as [_ [?|He]]; [done|].
    specialize (HQb x Hx). specialize (HsQ x Hx). unfold blk_end, HDR in He. simpl in *. lia. }
  destruct (right bp bn Q) as [bn' R] eqn:Er.
  assert (in_order Q) as HoQ by (rewrite EH in Ho; by apply StronglySorted_app_1_r in Ho).
  destruct (right_spec bp bn Q bn' R Er Hbn HsQ HoQ HQd) as (_ & Hle & (Q1 & EQ) & Htr).
  assert (tiles lo brk ((bp, bn) :: (D ++ Q) ++ A')) as Htl.
  { rewrite HA, EH in Ht. assert ((bp, bn) :: (D ++ Q) ++ A' ≡ₚ (D ++ Q) ++ (bp, bn) :: A') as -> by solve_Permutation. done. }
  assert (bp + HDR * bn' ≤ brk) as Hbn'.
  { assert (tiles lo brk ((bp, bn') :: R ++ D ++ A')) as Hti.
    { apply Htr. assert ((bp, bn) :: Q ++ D ++ A' ≡ₚ (bp, bn) :: (D ++ Q) ++ A') as -> by solve_Permutation. done. }
    destruct (tiles_in _ _ _ _ Hti) as [_ He]; [simpl; lia|]. exact He. }
  pose proof (first_range m brk H A R Q1 D Hok ltac:(by rewrite EH, EQ)) as HfR.
  assert (apart bp p) as Hbpp by (by apply apart_sym).
  assert (Forall (λ x, apart bp x.1) Q) as HdQ' by (eapply Forall_impl; [exact HdQ|]; tauto).
  destruct (join_right_spec m bp bn p Q bn' R Er) as (J1 & J2 & J3);
    [|done|by apply seg_app in Hseg as [_ (_ & _ & ?)]|done|done|unfold HDR in *; lia|done|unfold HDR in *; lia|lia|unfold KERNBASE, HDR in *; lia|done|].
  { rewrite HA in Hal. apply Forall_cons in Hal as [Hal _]. done. }
  assert (0 ≤ p ∧ 0 ≤ n ∧ p + HDR * n ≤ bp) as (Hp0 & Hn0 & Hpe).
  { destruct HD as [(_ & _ & -> & ->)|(P' & _ & ED)]; [unfold HDR in *; lia|].
    assert ((p, n) ∈ D) as HpD by (rewrite ED; apply elem_of_app; right; apply list_elem_of_here).
    destruct (elem_perm (p, n) (H ++ A)) as [B HB]; [rewrite EH; set_solver|].
    destruct (block_bounds _ _ _ _ _ _ Hok HB) as (Hn1 & Hpl & _). rewrite Forall_forall in HdD.
    destruct (HdD _ HpD) as [_ [He|He]]; unfold blk_end, HDR in *; cbn [fst snd] in *; lia. }
  destruct (J3 p) as [_ Js]; [by apply apart_sym|].
  destruct (join_left_spec (join_right bp p m) bp p n bn' (first R base)) as (K1 & K2 & K3);
    [by rewrite Js|done|done|by apply apart_sym|unfold KERNBASE, HDR in *; lia..|].
  set (m2 := join_left bp p (join_right bp p m)) in *.
  assert (seg m2 (joined P p n bp bn' R) base) as Hseg2.
  { eapply (joined_seg m (join_right bp p m) m2 P p n Q bp bn' Q1 R); try done.
    apply Forall_forall. intros x Hx. rewrite Forall_forall in Hpa. split; [|by apply Hpa].
    assert (x ∈ ring H) as Hxr by (rewrite EL; set_solver). unfold ring in Hxr. apply elem_of_cons in Hxr as [->|Hxr]; [done|].
    rewrite EH in Hxr. apply elem_of_app in Hxr as [Hxr|Hxr]; [rewrite Forall_forall in HdD; by apply HdD|].
    rewrite Forall_forall in HdQ. by apply HdQ. }
  assert (Forall (λ x, h_size m2 x.1 = x.2) A') as Hal2.
  { rewrite HA in Hal. apply Forall_cons in Hal as [_ Hal]. apply Forall_forall. intros x Hx.
    rewrite Forall_forall in Hal, HpA, HdA. destruct (K3 x.1) as [_ ->]; [by apply HpA|]. destruct (J3 x.1) as [_ ->]; [by apply HdA|].
    by apply Hal. }
  assert (Forall (λ x, 1 ≤ x.2) ((D ++ Q) ++ A')) as Hs2.
  { rewrite HA, EH in Hs. rewrite !Forall_app, Forall_cons in Hs. rewrite !Forall_app. tauto. }
  rewrite EH in Ho. destruct HD as [(-> & -> & -> & ->)|(P' & -> & ED)].
  - exists ((bp, bn') :: R). unfold joined in Hseg2. cbn [app] in Hseg2.
    rewrite (proj2 (Z.eqb_neq _ _)) in Hseg2 by (unfold HDR in *; lia).
    cbn [app] in *. apply Forall_app in Hs2 as [_ HsA].
    destruct (right_spec bp bn Q bn' R Er Hbn HsQ HoQ HQd) as (HoR & _).
    split_and!; [|done|apply list_elem_of_here|exists (bp, bn'); split; [apply list_elem_of_here|done]|
      rewrite EH, EQ; simpl; rewrite length_app; lia].
    split; [by apply Htr| |done|done|lia]. apply Forall_app. split; [|done]. constructor; [simpl; lia|].
    rewrite EQ in HsQ. by apply Forall_app in HsQ as [_ ?].
  - assert ((p, n) ∈ D) as HpD by (rewrite ED; apply elem_of_app; right; apply list_elem_of_here).
    assert (1 ≤ n) as Hn1. { rewrite !Forall_app in Hs2. destruct Hs2 as [[Hs2 _] _]. rewrite Forall_forall in Hs2. by apply Hs2 in HpD. }
    destruct (joined_ok D p n P' bp bn bn' Q R A' brk ED Er Hbn Hn1 Hpb Hpe Hs2 Ho HQd Htl) as (T1 & T2 & T3 & T4).
    exists (joined P' p n bp bn' R). split_and!; [by split; [..|lia]|done| |done|].
    + unfold ring. cbn [fmap list_fmap fst]. right. unfold joined. rewrite fmap_app. apply elem_of_app. right.
      destruct (_ =? _); apply list_elem_of_here.
    + rewrite EH, ED, EQ. unfold joined. destruct (_ =? _); rewrite !length_app; simpl; lia.
Qed.

(** ** [free] *)
Lemma free_spec s H A bp bn A' fuel : live s H A → A ≡ₚ (bp, bn) :: A' → (2 * S (length H) ≤ fuel)%nat →
  ∃ s' H', free fuel (bp + HDR) s = Ret s' ∧ live s' H' A' ∧ contents_kept A' (um_mem s) (um_mem s') ∧
    (∃ x, x ∈ H' ∧ bn ≤ x.2) ∧ (length H' ≤ S (length H))%nat.
Proof using Hlo.
  intros (Hok & Hseg & Hfp) HA Hf. destruct (alloc_ring _ _ _ _ _ _ _ Hok HA) as (Hbn & Hlob & Hbk & Hbb & Hdis).
  unfold free. replace (u32 (bp + HDR - HDR)) with bp by (rewrite Z.add_simpl_r, u32_small; unfold KERNBASE, HDR in *; lia).
  apply list_elem_of_fmap in Hfp as ([f k] & Ef & Hfp). simpl in Ef. pose proof Hfp as Hin.
  apply list_elem_of_split in Hfp as (P & Q & EL).
  pose proof (ring_ascending _ _ _ _ Hok) as Has.
  assert (Forall (λ x, x.1 ≠ bp) (ring H)) as Hne.
  { unfold ring. constructor; [unfold apart, HDR in Hbb; simpl; lia|]. apply Forall_app in Hdis as [Hdis _].
    eapply Forall_impl; [exact Hdis|]. intros x [Hx _]. unfold apart, HDR in Hx. lia. }
  assert (length (ring H) = S (length P + length Q)) as Hlen by (rewrite EL, length_app; simpl; lia).
  assert (length (ring H) = S (length H)) as Hlen' by done. rewrite Ef.
  assert (∃ P' p' n' Q', free_find fuel (um_mem s) bp f = Ret p' ∧ splits bp (ring H) P' p' n' Q') as (P' & p & n & Q' & -> & Hsp).
  { destruct (decide (f < bp)) as [Hlt|Hge].
    - eapply (find_before (um_mem s) bp (ring H) P Q f k); try done; [|unfold HDR in *; lia|lia].
      pose proof (ring_sorted _ _ _ _ Hok) as Hso. unfold ring in Hin. apply elem_of_cons in Hin as [[= -> ->]|Hin]; [done|].
      apply StronglySorted_cons in Hso as [Hso _]. rewrite Forall_forall in Hso. apply Hso in Hin. unfold HDR in *. simpl in Hin. lia.
    - eapply (find_after (um_mem s) bp (ring H) P Q f k); try done; [by exists 0, H|unfold HDR in *; lia| |lia].
      rewrite Forall_forall in Hne. specialize (Hne (f, k) Hin). simpl in Hne. lia. }
  destruct (free_at _ _ _ _ _ _ _ _ _ _ _ Hok HA Hseg Hsp) as (H' & Hok' & Hseg' & Hp' & Hx & Hl).
  eexists _, H'. split; [reflexivity|]. split_and!; [done..| |done|done]. cbn [um_mem].
  intros x a Hx' Ha. apply join_outside; [exact (alloc_outside _ _ _ _ _ _ _ _ _ Hok HA Hx' Ha)|].
  destruct (ring_outside (um_mem s) (um_brk s) H A x a (p, n)) as [_ ?]; [done| |done| |done].
  - rewrite HA. by apply list_elem_of_further.
  - destruct Hsp as (-> & _). apply elem_of_app. right. apply list_elem_of_here.
Qed.

(** ** Taking a block *)
(** A free block and the other blocks. *)
Lemma free_block m brk H A D p n Q : blocks_ok m brk H A → H = D ++ (p, n) :: Q →
  1 ≤ n ∧ lo ≤ p ∧ p + HDR * n ≤ KERNBASE ∧ 
  Forall (λ x, ∀ i, 0 ≤ i < n → apart (p + HDR * i) x.1) (ring D ++ Q ++ A).
Proof using Hlo.
  intros Hok EH. assert (H ++ A ≡ₚ (p, n) :: D ++ Q ++ A) as HB by (rewrite EH; solve_Permutation).
  destruct (block_bounds _ _ _ _ _ _ Hok HB) as (H1 & H2 & H3 & H4 & H5). unfold blk_end in H3. cbn [fst snd] in *.
  split_and!; [done|done|lia|]. apply Forall_cons. split; [right; cbn [fst]; unfold HDR in *; lia|].
  apply Forall_forall. intros x Hx i Hi. destruct (elem_perm x _ Hx) as [B HB']. rewrite HB' in HB.
  destruct (blocks_apart _ _ _ _ _ _ _ Hok HB) as (_ & Hx1 & Hd & _). unfold apart, blk_end, HDR in *. cbn [fst snd] in *. lia.
Qed.
(** The order and the tiling without the last [k] units of [p]. *)
Lemma taken_ok m brk H A D p n Q k : blocks_ok m brk H A → H = D ++ (p, n + k) :: Q → 1 ≤ k → 1 ≤ n →
  let H' := D ++ (p, n) :: Q in
  tiles lo brk (H' ++ (p + HDR * n, k) :: A) ∧ Forall (λ x, 1 ≤ x.2) (H' ++ (p + HDR * n, k) :: A) ∧ in_order H'.
Proof.
  intros [Ht Hs Ho _ _] -> Hk Hn H'. unfold H'. split_and!.
  - assert ((D ++ (p, n) :: Q) ++ (p + HDR * n, k) :: A ≡ₚ (p, n) :: (p + HDR * n, k) :: (D ++ Q) ++ A) as -> by solve_Permutation.
    apply tiles_split; [lia..|]. assert ((p, n + k) :: (D ++ Q) ++ A ≡ₚ (D ++ (p, n + k) :: Q) ++ A) as -> by solve_Permutation. done.
  - rewrite !Forall_app, !Forall_cons in *. cbn [snd] in *. split_and!; try tauto; lia.
  - apply StronglySorted_app in Ho as (Hx & HD & HQ). apply StronglySorted_cons in HQ as [HpQ HQ].
    apply StronglySorted_app. split_and!; [|done|].
    + intros x y HxD Hy. apply elem_of_cons in Hy as [->|Hy].
      * exact (Hx x (p, n + k) HxD ltac:(apply list_elem_of_here)).
      * apply (Hx x y HxD). by apply list_elem_of_further.
    + apply StronglySorted_cons. split; [|done]. eapply Forall_impl; [exact HpQ|]. intros y.
      unfold before, blk_end, HDR. cbn [fst snd]. lia.
Qed.
Lemma dropped_ok m brk H A D p n Q : blocks_ok m brk H A → H = D ++ (p, n) :: Q →
  tiles lo brk ((D ++ Q) ++ (p, n) :: A) ∧ Forall (λ x, 1 ≤ x.2) ((D ++ Q) ++ (p, n) :: A) ∧ in_order (D ++ Q).
Proof.
  intros [Ht Hs Ho _ _] ->. assert ((D ++ Q) ++ (p, n) :: A ≡ₚ (D ++ (p, n) :: Q) ++ A) as E by solve_Permutation.
  rewrite E. split_and!; [done..|]. apply StronglySorted_app in Ho as (Hx & HD & HQ). apply StronglySorted_cons in HQ as [_ HQ].
  apply StronglySorted_app. split_and!; [|done..]. intros x y HxD Hy. apply (Hx x y HxD). by apply list_elem_of_further.
Qed.

Lemma take_spec s H A nunits D P prevp k p n Q : live s H A → 1 ≤ nunits ≤ n →
  H = D ++ (p, n) :: Q → ring D = P ++ [(prevp, k)] →
  ∃ q m' H', take_block nunits prevp p (um_mem s) = (q, m') ∧ live (mkUm m' prevp (um_brk s)) H' ((q, nunits) :: A) ∧
    (length H' ≤ length H)%nat ∧ contents_kept A (um_mem s) m'.
Proof using Hlo.
  intros (Hok & Hseg & _) Hn EH ED. destruct (free_block _ _ _ _ _ _ _ _ Hok EH) as (Hn1 & Hp & Hpk & Hap).
  set (m := um_mem s) in *. pose proof Hok as [_ _ _ Hal Hbrk].
  assert (ring H = ring D ++ (p, n) :: Q) as EL by (unfold ring; by rewrite EH).
  assert (ring H = P ++ (prevp, k) :: (p, n) :: Q) as EL2 by (rewrite EL, ED, <- app_assoc; done).
  rewrite EL in Hseg. apply seg_app in Hseg as [HsD HsQ]. cbn [seg first] in HsD, HsQ. destruct HsQ as (Hpp & Hps & HsQ).
  apply Forall_app in Hap as [HaD [HaQ HaA]%Forall_app]. unfold take_block. rewrite Hps.
  pose proof (λ x a Hx Ha y, ring_outside _ _ _ _ x a y Hok Hx Ha) as Hout.
  destruct (Z.eqb_spec n nunits) as [->|Hne].
  - pose proof (ring_apart _ _ _ _ _ _ _ _ Hok EL2) as Hpv. pose proof (ring_alloc_apart _ _ _ _ _ _ _ _ Hok EL2) as HpvA.
    apply Forall_app in Hpv as [HpvP [Hpvp HpvQ]%Forall_cons]. cbn [fst] in Hpvp.
    pose proof (first_range _ _ H A Q [(p, nunits)] D Hok EH) as Hf.
    exists p, (put_ptr prevp (h_ptr m p) m), (D ++ Q). split; [done|].
    split; [|split; [rewrite EH, !length_app; simpl; lia|]]; cycle 1.
    { intros x a Hx Ha. apply put_ptr_outside. apply (Hout x a Hx Ha (prevp, k)). rewrite EL2. apply elem_of_app. right. apply list_elem_of_here. }
    destruct (dropped_ok _ _ _ _ _ _ _ _ Hok EH) as (T1 & T2 & T3).
    split_and!; [split; [done..| |done]| |].
    + cbn [um_mem]. constructor; [cbn [fst snd]; headers; done|]. apply Forall_forall. intros x Hx. rewrite Forall_forall in HpvA, Hal.
      pose proof (HpvA x Hx). headers. by apply Hal.
    + cbn [um_mem]. change (ring (D ++ Q)) with (ring D ++ Q). rewrite ED, <- app_assoc in *. cbn [app]. apply seg_app in HsD as [HsP HsD].
      apply seg_app. cbn [seg first] in *. split_and!.
      * eapply seg_same; [|exact HsP]. eapply Forall_impl; [exact HpvP|]. intros x Hx. headers. done.
      * headers. rewrite Hpp. by apply u32_small.
      * headers. tauto.
      * eapply seg_same; [|exact HsQ]. eapply Forall_impl; [exact HpvQ|]. intros x Hx. headers. done.
    + change (ring (D ++ Q)) with (ring D ++ Q). rewrite ED, !fmap_app. cbn. set_solver.
  - cbv zeta. set (r := n - nunits). assert (h_size (put_size p (u32 r) m) p = r) as Er.
    { assert (u32 r = r) as Eu by (apply u32_small; unfold r, KERNBASE, HDR in *; lia). headers. by rewrite !Eu. }
    rewrite Er. assert (hdr_add p r = p + HDR * r) as -> by (apply u32_small; unfold r, KERNBASE, HDR in *; lia).
    set (q := p + HDR * r). assert (apart p q) as Hpq by (left; unfold q, r, HDR in *; lia).
    assert (EH2 : H = D ++ (p, r + nunits) :: Q) by (rewrite EH; unfold r; by replace (n - nunits + nunits) with n by lia).
    destruct (taken_ok _ _ _ _ _ _ _ _ _ Hok EH2) as (T1 & T2 & T3); [lia|unfold r; lia|].
    assert (∀ L, Forall (λ x : ublock, ∀ i, 0 ≤ i < n → apart (p + HDR * i) x.1) L → Forall (λ x, apart p x.1 ∧ apart q x.1) L) as Haps.
    { intros L HL. eapply Forall_impl; [exact HL|]. intros x Hx. split; [|apply Hx; unfold r; lia].
      specialize (Hx 0). replace (p + HDR * 0) with p in Hx by lia. apply Hx. lia. }
    exists q, (put_size q nunits (put_size p (u32 r) m)), (D ++ (p, r) :: Q). split; [done|].
    split; [|split; [rewrite EH, !length_app; simpl; lia|]]; cycle 1.
    { intros x a Hx Ha. destruct (Hout x a Hx Ha (p, n)) as [Hb Ho]; [rewrite EL; apply elem_of_app; right; apply list_elem_of_here|].
      rewrite !put_size_outside; [done|exact Ho|]. unfold blk_end, outside, q, r, HDR in *. cbn [fst snd] in *. lia. }
    split_and!; [split; [done..| |done]| |].
    + cbn [um_mem]. constructor; [cbn [fst snd]; fold q; headers; apply u32_small; unfold KERNBASE, HDR in *; lia|].
      apply Haps in HaA. apply Forall_forall. intros x Hx. rewrite Forall_forall in HaA, Hal.
      destruct (HaA x Hx). headers. by apply Hal.
    + cbn [um_mem]. change (ring (D ++ ?L)) with (ring D ++ L). apply seg_app. cbn [seg first]. apply Haps in HaD, HaQ. split_and!.
      * eapply seg_same; [|exact HsD]. eapply Forall_impl; [exact HaD|]. intros x []. headers. done.
      * headers. done.
      * rewrite size_put_size_apart by auto using apart_sym. done.
      * eapply seg_same; [|exact HsQ]. eapply Forall_impl; [exact HaQ|]. intros x []. headers. done.
    + change (ring (D ++ ?L)) with (ring D ++ L). rewrite ED, !fmap_app. cbn. set_solver.
Qed.

(** The list seen from [freep]. *)
Lemma rotate s H A : live s H A → ∃ k R, (um_freep s, k) :: R ≡ₚ ring H ∧ seg (um_mem s) ((um_freep s, k) :: R) (um_freep s) ∧
  um_freep s ∉ R.*1.
Proof using Hlo.
  intros (Hok & Hseg & Hfp). pose proof (ring_ascending _ _ _ _ Hok) as Ho.
  apply list_elem_of_fmap in Hfp as ([f k] & Ef & Hin). cbn [fst] in Ef. rewrite Ef. clear Ef.
  apply list_elem_of_split in Hin as (P & Q & EL). exists k, (Q ++ P).
  assert (∀ x, x ∈ Q ++ P → x.1 ≠ f) as Hne.
  { rewrite EL in Ho. apply StronglySorted_app in Ho as (H1 & _ & H2). apply StronglySorted_cons in H2 as [H2 _].
    intros x [Hx|Hx]%elem_of_app; [rewrite Forall_forall in H2; specialize (H2 x Hx); simpl in H2; lia|].
    specialize (H1 x (f, k) Hx ltac:(apply list_elem_of_here)). simpl in H1. lia. }
  split_and!.
  - rewrite EL. solve_Permutation.
  - rewrite EL in Hseg. apply seg_app in Hseg as [HP HQ]. cbn [first] in HP.
    change (seg (um_mem s) (((f, k) :: Q) ++ P) f). apply seg_app. split; [|done].
    unfold ring in EL. destruct P as [|x P]; cbn [app] in EL; injection EL as <- EL; [|done].
    rewrite EL in *. done.
  - intros (x & Ex & Hx)%list_elem_of_fmap. by apply (Hne x Hx).
Qed.
(** Taking the block after [prevp]. *)
Lemma take_next s H A nunits prevp : live s H A → 1 ≤ nunits → prevp ∈ (ring H).*1 →
  nunits ≤ h_size (um_mem s) (h_ptr (um_mem s) prevp) →
  ∃ q m' H', take_block nunits prevp (h_ptr (um_mem s) prevp) (um_mem s) = (q, m') ∧
    live (mkUm m' prevp (um_brk s)) H' ((q, nunits) :: A) ∧ (length H' ≤ length H)%nat ∧
    contents_kept A (um_mem s) m'.
Proof using Hlo.
  intros Hl Hn Hpv Hsz. pose proof Hl as (_ & Hseg & _). apply list_elem_of_fmap in Hpv as ([pv k] & -> & Hin).
  apply list_elem_of_split in Hin as (P & Q & EL). cbn [fst] in *. pose proof Hseg as Hseg'. rewrite EL in Hseg.
  destruct (seg_elem _ _ _ _ _ _ Hseg) as [Hp _]. destruct Q as [|[p n] Q]; cbn [first] in Hp.
  { unfold ring in Hseg'. cbn [seg] in Hseg'. destruct Hseg' as (_ & Hb & _). rewrite Hp, Hb in Hsz. lia. }
  apply seg_app in Hseg as [_ Hseg]. cbn [seg] in Hseg. rewrite Hp in *.
  destruct (ring_cases _ _ _ _ _ EL) as (D & EH & HD).
  apply (take_spec s H A nunits D P pv k p n Q); [done|lia|done|].
  destruct HD as [(-> & -> & -> & ->)|(P' & -> & ->)]; done.
Qed.

(** ** The first call *)
Lemma units_spec nbytes : nbytes_ok nbytes → 1 ≤ units nbytes ∧ HDR * units nbytes < 2 ^ 31 ∧ nbytes ≤ HDR * units nbytes - HDR.
Proof.
  unfold nbytes_ok, units, HDR. intros Hn. rewrite u32_small by lia.
  pose proof (Z.div_mod (nbytes + 8 - 1) 8 ltac:(lia)). pose proof (Z.mod_pos_bound (nbytes + 8 - 1) 8 ltac:(lia)). lia.
Qed.
Lemma first_use s : um_freep s = 0 → um_brk s = lo → lo ≤ KERNBASE →
  live (mkUm (put_size base 0 (put_ptr base base (um_mem s))) base (um_brk s)) [] [].
Proof using Hlo.
  intros Hf Hb Hk. split_and!.
  - split; cbn [um_mem um_brk app]; [|done|constructor|done|lia].
    intros b. unfold cover. simpl. rewrite Hb. destruct (Z.leb_spec lo b), (Z.ltb_spec b lo); simpl; lia.
  - unfold ring. cbn [seg first um_mem]. headers. rewrite !u32_small by (unfold KERNBASE, HDR in *; lia). done.
  - apply list_elem_of_here.
Qed.
Lemma freep_nonzero s H A : live s H A → um_freep s ≠ 0.
Proof using Hlo.
  intros (Hok & _ & Hfp). apply list_elem_of_fmap in Hfp as (y & -> & Hy).
  apply elem_of_cons in Hy as [->|Hy]; [simpl; lia|]. destruct (elem_perm y (H ++ A)) as [B HB]; [apply elem_of_app; by left|].
  destruct (block_bounds _ _ _ _ _ _ Hok HB) as (_ & ? & _). unfold HDR in *. lia.
Qed.

(** ** [morecore] *)
Context (sbrk : Z → Z → option Z).
(** [sbrk] of a positive number gives that much memory at the end of the
    process, which stays below the kernel, or fails. *)
Context (sbrk_grows : ∀ brk n b, 0 < n → sbrk brk n = Some b → b = brk + n ∧ b ≤ KERNBASE).

Lemma morecore_spec s H A nu fuel : live s H A → 1 ≤ nu → HDR * nu < 2 ^ 31 → (2 * S (length H) ≤ fuel)%nat →
  (morecore sbrk fuel nu s = Ret (0, s) ∨
   ∃ s' H', morecore sbrk fuel nu s = Ret (um_freep s', s') ∧ live s' H' A ∧
     (∃ x, x ∈ H' ∧ nu ≤ x.2) ∧ (length H' ≤ S (length H))%nat ∧ contents_kept A (um_mem s) (um_mem s')).
Proof using Hlo sbrk_grows.
  intros (Hok & Hseg & Hfp) Hnu Hmax Hf. unfold morecore. set (nu' := if nu <? 4096 then 4096 else nu).
  assert (nu ≤ nu' ∧ 1 ≤ nu' ∧ HDR * nu' < 2 ^ 31) as (Hnu1 & Hnu2 & Hnu3).
  { unfold nu', HDR in *. destruct (Z.ltb_spec nu 4096); lia. }
  rewrite i32_small by (unfold HDR in *; lia). destruct (sbrk (um_brk s) (nu' * HDR)) as [brk'|] eqn:Es; [|by left].
  right. apply sbrk_grows in Es as [-> Hk]; [|unfold HDR in *; lia]. pose proof Hok as [Ht Hs Ho Hal Hb].
  set (hp := um_brk s) in *. set (m1 := put_size hp nu' (um_mem s)).
  assert (∀ x, x ∈ H ++ A → apart hp x.1) as Hap.
  { intros x Hx. destruct (elem_perm x _ Hx) as [B HB].
    destruct (block_bounds _ _ _ _ _ _ Hok HB) as (? & ? & ? & _). right. unfold blk_end, HDR in *. lia. }
  assert (apart hp base) as Hapb by (right; unfold HDR in *; lia).
  assert (live (mkUm m1 (um_freep s) (hp + nu' * HDR)) H ((hp, nu') :: A)) as Hl1.
  { split_and!; [| |done].
    - split.
      + assert (H ++ (hp, nu') :: A ≡ₚ (hp, nu') :: H ++ A) as -> by solve_Permutation. simpl.
        replace (hp + nu' * HDR) with (hp + HDR * nu') by lia. apply tiles_grow; [done|lia|lia].
      + rewrite Forall_app, Forall_cons in *. tauto.
      + done.
      + constructor; [cbn [um_mem fst snd]; unfold m1; headers; apply u32_small; unfold HDR in *; lia|].
        apply Forall_forall. intros x Hx. rewrite Forall_forall in Hal. cbn [um_mem]. unfold m1.
        rewrite size_put_size_apart by (apply Hap, elem_of_app; by right). by apply Hal.
      + simpl. unfold HDR in *. lia.
    - eapply seg_same; [|exact Hseg]. cbn [um_mem]. unfold ring, m1. constructor; [simpl; headers; done|].
      apply Forall_forall. intros x Hx. assert (apart hp x.1) by (apply Hap, elem_of_app; by left). headers. done. }
  destruct (free_spec _ H _ hp nu' A fuel Hl1) as (s' & H' & E & Hl' & Hc & (x & Hx & Hxn) & Hlen); [done|done|].
  exists s', H'. rewrite u32_small by (unfold KERNBASE, HDR in *; lia). cbv zeta. fold m1. rewrite E. split_and!; [done|done| |done|].
  - exists x. split; [done|lia].
  - eapply contents_trans; [|exact Hc]. intros y a Hy Ha. apply put_size_outside. left.
    destruct (elem_perm y (H ++ A)) as [B HB]; [apply elem_of_app; by right|].
    destruct (block_bounds _ _ _ _ _ _ Hok HB) as (_ & _ & ? & _). lia.
Qed.

(** ** [malloc] *)
(** What a call that succeeds leaves. *)
Definition granted (e : outcome (Z * ualloc)) (s : ualloc) (H A : list ublock) (nunits : Z) : Prop :=
  ∃ q s' H', e = Ret (q + HDR, s') ∧ live s' H' ((q, nunits) :: A) ∧ (length H' ≤ length H)%nat ∧
    contents_kept A (um_mem s) (um_mem s').
Lemma walk s H A nunits k R2 : live s H A → 1 ≤ nunits → h_size (um_mem s) (um_freep s) = k → um_freep s ∈ (ring H).*1 →
  ∀ prevp f, prevp ∈ (ring H).*1 → h_ptr (um_mem s) prevp = first R2 (um_freep s) → seg (um_mem s) R2 (um_freep s) →
  Forall (λ x, x.1 ∈ (ring H).*1) R2 → um_freep s ∉ R2.*1 →
  let e := malloc_loop sbrk (length R2 + S f) nunits prevp (h_ptr (um_mem s) prevp) s in
  granted e s H A nunits ∨
  Forall (λ x, x.2 < nunits) ((um_freep s, k) :: R2) ∧
  e = (let* (q, s) := morecore sbrk f nunits s in
       if q =? 0 then Ret (0, s) else malloc_loop sbrk f nunits q (h_ptr (um_mem s) q) s).
Proof using Hlo sbrk_grows.
  intros Hl Hn Hk Hfp. assert (∀ prevp p f, h_ptr (um_mem s) prevp = p → prevp ∈ (ring H).*1 → nunits ≤ h_size (um_mem s) p →
    granted (malloc_loop sbrk (S f) nunits prevp p s) s H A nunits) as Htake.
  { intros prevp p f <- Hpv Hsz. destruct (take_next s H A nunits prevp Hl Hn Hpv Hsz) as (q & m' & H' & E & Hl' & Hlen & Hc).
    exists q, (mkUm m' prevp (um_brk s)), H'. split_and!; [|done..]. cbn [malloc_loop]. rewrite (proj2 (Z.leb_le _ _)), E by done.
    destruct Hl' as [Hok' _]. destruct (alloc_ring _ _ _ _ _ _ _ Hok' (Permutation_refl _)) as (_ & ? & ? & _).
    rewrite u32_small; [done|]. unfold HDR, KERNBASE in *. lia. }
  induction R2 as [|[p n] R2 IH]; intros prevp f Hpv Hp Hseg Hin Hnin; cbv zeta; rewrite Hp; cbn [first length].
  - destruct (decide (nunits ≤ k)) as [Hle|Hgt]; [left; apply Htake; [done..|by rewrite Hk]|]. right.
    split; [constructor; [simpl; lia|done]|]. cbn [Nat.add malloc_loop].
    rewrite Hk, (proj2 (Z.leb_gt _ _)), Z.eqb_refl by lia. done.
  - destruct Hseg as (Hpp & Hps & Hseg). apply Forall_cons in Hin as [Hpin Hin]. cbn [fst fmap list_fmap] in *.
    apply not_elem_of_cons in Hnin as [Hpf Hnin].
    destruct (decide (nunits ≤ n)) as [Hle|Hgt]; [left; apply Htake; [done..|by rewrite Hps]|].
    destruct (IH p f Hpin Hpp Hseg Hin Hnin) as [Hg|[Hsm He]]; cbn [Nat.add malloc_loop];
      rewrite Hps, (proj2 (Z.leb_gt _ _)), (proj2 (Z.eqb_neq _ _)) by (try lia; congruence); [by left|right].
    split; [|done]. apply Forall_cons in Hsm as [H1 H2]. repeat (constructor; [simpl in *; lia|]). done.
Qed.
Lemma walk_all s H A nunits f : live s H A → 1 ≤ nunits →
  let e := malloc_loop sbrk (S (length H) + f) nunits (um_freep s) (h_ptr (um_mem s) (um_freep s)) s in
  granted e s H A nunits ∨
  Forall (λ x, x.2 < nunits) H ∧
  e = (let* (q, s) := morecore sbrk f nunits s in
       if q =? 0 then Ret (0, s) else malloc_loop sbrk f nunits q (h_ptr (um_mem s) q) s).
Proof using Hlo sbrk_grows.
  intros Hl Hn. pose proof Hl as (_ & _ & Hfp). destruct (rotate s H A Hl) as (k & R & HR & (Hp & Hk & Hseg) & Hnin).
  assert (length H = length R) as EL by (apply Permutation_length in HR; simpl in HR; lia). rewrite EL.
  replace (S (length R) + f)%nat with (length R + S f)%nat by lia.
  destruct (walk s H A nunits k R Hl Hn Hk Hfp (um_freep s) f Hfp Hp Hseg) as [Hg|[Hsm He]].
  - apply Forall_forall. intros x Hx. apply list_elem_of_fmap. exists x. split; [done|]. rewrite <- HR. by apply list_elem_of_further.
  - done.
  - by left.
  - right. split; [|done]. rewrite HR in Hsm. by apply Forall_cons in Hsm as [_ ?].
Qed.

(** Every call returns: 0, or a new block. *)
Lemma malloc_spec s H A nbytes fuel : ua_inv s H A → nbytes_ok nbytes → (4 * length H + 8 ≤ fuel)%nat →
  ∃ r s' H', malloc base sbrk fuel nbytes s = Ret (r, s') ∧ (length H' ≤ S (length H))%nat ∧
    contents_kept A (um_mem s) (um_mem s') ∧
    (r = 0 ∧ live s' H' A ∨ r ≠ 0 ∧ live s' H' ((r - HDR, units nbytes) :: A)).
Proof using Hlo sbrk_grows.
  intros Hinv Hnb Hfuel. destruct (units_spec nbytes Hnb) as (Hu1 & Hu2 & _). unfold malloc.
  set (s1 := if um_freep s =? 0 then _ else s).
  assert (live s1 H A ∧ contents_kept A (um_mem s) (um_mem s1)) as [Hl Hc1].
  { unfold s1. destruct Hinv as [Hl|(Hf & -> & -> & Hb & Hk)].
    - rewrite (proj2 (Z.eqb_neq _ _)); [done|]. by eapply freep_nonzero.
    - rewrite Hf. split; [by apply first_use|]. intros x a Hx. by apply not_elem_of_nil in Hx. }
  clearbody s1. replace fuel with (S (length H) + (fuel - S (length H)))%nat by lia. set (f := (fuel - S (length H))%nat).
  assert (∀ H' q s', live s' H' ((q, units nbytes) :: A) → q + HDR ≠ 0) as Hnz.
  { intros H' q s' [Hok' _]. destruct (alloc_ring _ _ _ _ _ _ _ Hok' (Permutation_refl _)) as (_ & ? & _). unfold HDR in *. lia. }
  destruct (walk_all s1 H A (units nbytes) f Hl Hu1) as [(q & s' & H' & -> & Hl' & Hlen & Hc)|[_ ->]].
  { exists (q + HDR), s', H'. split_and!; [done|lia|by eapply contents_trans|]. right. split; [by eapply Hnz|]. by rewrite Z.add_simpl_r. }
  destruct (morecore_spec s1 H A (units nbytes) f Hl Hu1 Hu2) as [->|(s2 & H2 & -> & Hl2 & (x & Hx & Hxn) & Hlen2 & Hc2)]; [unfold f; lia|..].
  { exists 0, s1, H. split_and!; [done|lia|done|]. by left. }
  rewrite (proj2 (Z.eqb_neq _ _)) by (by eapply freep_nonzero).
  replace f with (S (length H2) + (f - S (length H2)))%nat by (unfold f; lia).
  destruct (walk_all s2 H2 A (units nbytes) (f - S (length H2)) Hl2 Hu1) as [(q & s' & H' & -> & Hl' & Hlen & Hc)|[Hsm _]].
  { exists (q + HDR), s', H'. split_and!; [done|lia|eapply contents_trans, contents_trans; done|]. right. split; [by eapply Hnz|]. by rewrite Z.add_simpl_r. }
  rewrite Forall_forall in Hsm. apply Hsm in Hx. lia.
Qed.

(** ** The program and the allocator *)
Lemma write_keeps s H A x a v : live s H A → x ∈ A → x.1 + HDR ≤ a < blk_end x →
  live (set_um_mem (λ b, if b =? a then v else um_mem s b) s) H A.
Proof using Hlo.
  intros (Hok & Hseg & Hfp) Hx Ha. set (m' := λ b, if b =? a then v else um_mem s b).
  assert (∀ p, outside p a → h_ptr m' p = h_ptr (um_mem s) p ∧ h_size m' p = h_size (um_mem s) p) as Hsame.
  { intros p Hp. unfold h_ptr, h_size, m', outside, HDR in *.
    split; apply load32_ext; intros b Hb; rewrite (proj2 (Z.eqb_neq b a)) by lia; done. }
  split_and!; [|eapply seg_same; [|exact Hseg]|done].
  - pose proof Hok as [T1 T2 T3 T4 T5]. split; [done..| |done]. apply Forall_forall. intros y Hy. cbn [um_mem set_um_mem].
    destruct (Hsame y.1) as [_ ->]; [|rewrite Forall_forall in T4; by apply T4].
    destruct (decide (x = y)) as [<-|Hne]; [right; lia|]. destruct (elem_perm y A Hy) as [A1 HA1].
    destruct y as [p n]. apply (alloc_outside _ _ _ _ _ _ _ x a Hok HA1); [|done].
    rewrite HA1 in Hx. apply elem_of_cons in Hx as [?|?]; done.
  - apply Forall_forall. intros y Hy. apply Hsame. by destruct (ring_outside _ _ _ _ x a y Hok Hx Ha Hy).
Qed.
Lemma returns_eq {B} (e : nat → outcome B) n v w : returns e v → (∀ fuel, (n ≤ fuel)%nat → e fuel = Ret w) → v = w.
Proof. intros [k Hk] Hn. specialize (Hk (k + n)%nat ltac:(lia)). rewrite Hn in Hk by lia. congruence. Qed.
Lemma malloc_returns s H A nbytes : ua_inv s H A → nbytes_ok nbytes →
  ∃ r s' H', (∀ fuel, (4 * length H + 8 ≤ fuel)%nat → malloc base sbrk fuel nbytes s = Ret (r, s')) ∧
    contents_kept A (um_mem s) (um_mem s') ∧ (r = 0 ∧ live s' H' A ∨ r ≠ 0 ∧ live s' H' ((r - HDR, units nbytes) :: A)).
Proof using Hlo sbrk_grows.
  intros Hinv Hnb. destruct (malloc_spec s H A nbytes _ Hinv Hnb (le_n _)) as (r & s' & H' & E & _ & Hc & Hl).
  exists r, s', H'. split_and!; [|done|done]. intros fuel Hf. unfold malloc in *. by eapply malloc_loop_mono.
Qed.
Lemma free_returns s H A bp bn A' : ua_inv s H A → A ≡ₚ (bp, bn) :: A' →
  ∃ s' H', (∀ fuel, (2 * S (length H) ≤ fuel)%nat → free fuel (bp + HDR) s = Ret s') ∧ live s' H' A' ∧
    contents_kept A' (um_mem s) (um_mem s').
Proof using Hlo.
  intros Hinv HA. destruct Hinv as [Hl|(_ & _ & -> & _)]; [|by apply Permutation_nil_cons in HA].
  destruct (free_spec s H A bp bn A' _ Hl HA (le_n _)) as (s' & H' & E & Hl' & Hc & _).
  exists s', H'. split_and!; [|done|done]. intros fuel Hf. by eapply free_mono.
Qed.
Lemma step_inv s A s' A' H : ua_step base sbrk (s, A) (s', A') → ua_inv s H A → ∃ H', ua_inv s' H' A'.
Proof using Hlo sbrk_grows.
  intros Hst Hinv. inversion Hst as [? ? nbytes r ? Hnb Hr|? ? bp bn ? ? HA Hr|? ? x a v Hx Ha]; subst.
  - destruct (malloc_returns s H A nbytes Hinv Hnb) as (r' & s2 & H' & Hm & _ & Hl).
    pose proof (returns_eq _ _ _ _ Hr Hm) as [= -> ->]. exists H'. left.
    destruct Hl as [[-> Hl]|[Hne Hl]]; [done|]. by rewrite (proj2 (Z.eqb_neq _ _)).
  - destruct (free_returns s H A bp bn A' Hinv HA) as (s2 & H' & Hm & Hl & _).
    pose proof (returns_eq _ _ _ _ Hr Hm) as ->. exists H'. by left.
  - exists H. destruct Hinv as [Hl|(_ & _ & -> & _)]; [left; by apply (write_keeps s H A' x)|]. by apply not_elem_of_nil in Hx.
Qed.
Lemma reachable_inv m s A : lo ≤ KERNBASE → rtc (ua_step base sbrk) (um_init m lo, []) (s, A) → ∃ H, ua_inv s H A.
Proof using Hlo sbrk_grows.
  intros Hk Hr. remember (um_init m lo, []) as x eqn:Ex. remember (s, A) as y eqn:Ey.
  assert (∃ H, ua_inv x.1 H x.2) as Hx by (subst x; exists []; right; done). clear Ex. revert Ey.
  induction Hr as [x|[s1 A1] [s2 A2] y Hst _ IH]; intros ->; [done|].
  destruct Hx as [H Hx]. apply IH; [|done]. exact (step_inv _ _ _ _ _ Hst Hx).
Qed.
Lemma cover_above b L : Forall (λ x, b < x.1) L → cover b L = 0%nat.
Proof. induction 1 as [|z L Hz _ IH]; [done|]. rewrite cover_cons, IH. unfold covers. by rewrite (proj2 (Z.leb_gt _ _)) by lia. Qed.
(** With nothing allocated the free list is one block. *)
Lemma one_block m brk H : blocks_ok m brk H [] → H = [] ∧ brk = lo ∨ ∃ n, H = [(lo, n)] ∧ brk = lo + HDR * n.
Proof.
  intros [Ht Hs Ho _ Hb]. rewrite app_nil_r in *. destruct H as [|[p n] H].
  { left. split; [done|]. specialize (Ht lo). unfold cover in Ht. simpl in Ht. destruct (Z.ltb_spec lo brk); [|lia].
    rewrite Z.leb_refl in Ht. done. }
  right. apply StronglySorted_cons in Ho as [Hx Ho]. apply Forall_cons in Hs as [Hsx Hs]. cbn [snd] in Hsx.
  destruct (tiles_in _ _ _ _ Ht Hsx) as [Hlp Hpb]. cbn [fst] in Hlp. exists n.
  assert (blk_end (p, n) = brk) as Ee.
  { pose proof (Ht (blk_end (p, n))) as E0. rewrite cover_cons, (cover_above _ H Hx) in E0. unfold covers in E0 at 1.
    rewrite Z.ltb_irrefl, andb_false_r in E0. unfold blk_end, HDR in *. cbn [fst snd] in *.
    rewrite (proj2 (Z.leb_le _ _)) in E0 by lia. destruct (Z.ltb_spec (p + 8 * n) brk); [done|lia]. }
  assert (p = lo) as ->.
  { pose proof (Ht lo) as E0. destruct (Z.eq_dec p lo) as [|Hne]; [done|]. exfalso.
    rewrite cover_above in E0; [|constructor; [simpl; lia|]; eapply Forall_impl; [exact Hx|]; unfold before, blk_end, HDR; simpl; lia].
    rewrite Z.leb_refl, (proj2 (Z.ltb_lt _ _)) in E0 by (unfold blk_end, HDR in *; simpl in *; lia). done. }
  split; [|unfold blk_end in Ee; simpl in Ee; lia]. f_equal. destruct H as [|y H]; [done|]. exfalso.
  apply Forall_cons in Hx as [Hy _]. apply Forall_cons in Hs as [Hsy _].
  assert ((lo, n) :: y :: H ≡ₚ y :: (lo, n) :: H) as HP by solve_Permutation. rewrite HP in Ht. destruct (tiles_in _ _ _ _ Ht Hsy) as [_ Hby].
  unfold before, blk_end, HDR in *. lia.
Qed.
End inv.

(** ** Correctness *)
Definition disjoint_blocks (x y : ublock) : Prop := blk_end x ≤ y.1 ∨ blk_end y ≤ x.1.
(** Claim C29: let a program call [malloc] for up to 2^31 - 32 bytes at a time,
    [free] blocks it holds, and write inside the blocks it holds, in any order,
    with an [sbrk] that extends the memory in order and below [KERNBASE] or
    fails.  Then [malloc] and [free] return; the blocks that the program
    holds never overlap and lie inside its memory; [malloc] gives 0 or a
    block that has room for the bytes asked for and overlaps no block held;
    neither call changes a byte of the blocks that stay held.  (A larger size
    wraps around in the count of units or is negative for [sbrk]; see
    [malloc_overflow].) *)
Theorem malloc_exclusive base lo sbrk m s A :
  0 < base ∧ base + HDR ≤ lo → lo ≤ KERNBASE →
  (∀ brk n b, 0 < n → sbrk brk n = Some b → b = brk + n ∧ b ≤ KERNBASE) →
  rtc (ua_step base sbrk) (um_init m lo, []) (s, A) →
  (∀ x A', A ≡ₚ x :: A' → lo ≤ x.1 ∧ blk_end x ≤ um_brk s ∧ Forall (disjoint_blocks x) A') ∧
  (∀ nbytes, nbytes_ok nbytes → ∃ r s', returns (λ fuel, malloc base sbrk fuel nbytes s) (r, s') ∧
     contents_kept A (um_mem s) (um_mem s') ∧
     (r ≠ 0 → ∃ x, x = (r - HDR, units nbytes) ∧ nbytes ≤ blk_end x - r ∧ lo ≤ x.1 ∧ blk_end x ≤ um_brk s' ∧
        Forall (disjoint_blocks x) A)) ∧
  (∀ x A', A ≡ₚ x :: A' → ∃ s', returns (λ fuel, free fuel (x.1 + HDR) s) s' ∧ contents_kept A' (um_mem s) (um_mem s')).
Proof.
  intros Hlo Hk Hsb Hr. destruct (reachable_inv base lo Hlo sbrk Hsb m s A Hk Hr) as [H Hinv].
  assert (∀ s H A x A', live base lo s H A → A ≡ₚ x :: A' → lo ≤ x.1 ∧ blk_end x ≤ um_brk s ∧ Forall (disjoint_blocks x) A') as Hheld.
  { clear. intros s H A x A' [Hok _] HA. assert (H ++ A ≡ₚ x :: H ++ A') as HB by (rewrite HA; solve_Permutation).
    pose proof Hok as [Ht Hs _ _ _]. rewrite HB in Ht, Hs. apply Forall_cons in Hs as [Hx _].
    destruct (tiles_in _ _ _ _ Ht Hx). split_and!; [done..|]. apply Forall_forall. intros y Hy.
    destruct (elem_perm y A' Hy) as [A1 HA1]. assert (H ++ A ≡ₚ x :: y :: H ++ A1) as HB' by (rewrite HA, HA1; solve_Permutation).
    by destruct (blocks_apart _ _ _ _ _ _ _ _ Hok HB') as (_ & _ & ? & _). }
  split_and!.
  - intros x A' HA. destruct Hinv as [Hl|(_ & _ & -> & _)]; [by eapply Hheld|by apply Permutation_nil_cons in HA].
  - intros nbytes Hnb. destruct (malloc_returns base lo Hlo sbrk Hsb s H A nbytes Hinv Hnb) as (r & s' & H' & Hm & Hc & Hl).
    exists r, s'. split_and!; [by eexists|done|]. intros Hr0. destruct Hl as [[? _]|[_ Hl]]; [done|].
    destruct (units_spec nbytes Hnb) as (_ & _ & Hu). destruct (Hheld _ _ _ _ _ Hl (Permutation_refl _)) as (? & ? & ?).
    eexists. split; [reflexivity|]. split_and!; [|done..]. unfold blk_end. cbn [fst snd]. lia.
  - intros [bp bn] A' HA. destruct (free_returns base lo Hlo s H A bp bn A' Hinv HA) as (s' & H' & Hm & _ & Hc).
    exists s'. split; [by eexists|done].
Qed.
(** When a program has freed all that it allocated, its whole heap
    is again one free block: [base] points to it, it starts where the heap
    starts and its size is that of the heap. *)
Theorem free_coalesces base lo sbrk m s :
  0 < base ∧ base + HDR ≤ lo → lo ≤ KERNBASE →
  (∀ brk n b, 0 < n → sbrk brk n = Some b → b = brk + n ∧ b ≤ KERNBASE) →
  rtc (ua_step base sbrk) (um_init m lo, []) (s, []) → lo < um_brk s →
  h_ptr (um_mem s) base = lo ∧ h_ptr (um_mem s) lo = base ∧ HDR * h_size (um_mem s) lo = um_brk s - lo.
Proof.
  intros Hlo Hk Hsb Hr Hb. destruct (reachable_inv base lo Hlo sbrk Hsb m s [] Hk Hr) as [H Hinv].
  destruct Hinv as [(Hok & Hseg & _)|(_ & _ & _ & ? & _)]; [|lia].
  destruct (one_block _ _ _ _ Hok) as [[_ ?]|(n & -> & E)]; [lia|]. cbn in Hseg. destruct Hseg as (H1 & _ & H2 & -> & _).
  split_and!; [done..|lia].
Qed.

(** A process that may grow to 1MB. *)
Definition sbrk_1mb (brk n : Z) : option Z := if brk + n <=? 0x100000 then Some (brk + n) else None.
Definition got {A} (e : outcome A) (d : A) : A := match e with Ret v => v | _ => d end.
Definition is_ret {A} (e : outcome A) : bool := match e with Ret _ => true | _ => false end.
Definition um0 : ualloc := um_init (λ _, 0) 0x1000.
Definition um1 : Z * ualloc := got (malloc 0x900 sbrk_1mb 50 100 um0) (0, um0).
Definition um2 : ualloc := got (free 50 um1.1 um1.2) um0.
Lemma got_ret {A} (e : outcome A) d : is_ret e = true → e = Ret (got e d).
Proof. by destruct e. Qed.
Lemma sbrk_1mb_grows brk n b : 0 < n → sbrk_1mb brk n = Some b → b = brk + n ∧ b ≤ KERNBASE.
Proof. unfold sbrk_1mb. intros _. destruct (Z.leb_spec (brk + n) 0x100000); [|done]. intros [= <-]. unfold KERNBASE. lia. Qed.
(** The program allocates 100 bytes, then frees them. *)
Lemma um1_step : ua_step 0x900 sbrk_1mb (um0, []) (um1.2, [(36752, 14)]).
Proof.
  change [(36752, 14)] with (if 36760 =? 0 then [] else [(36760 - HDR, units 100)]).
  apply ua_malloc; [unfold nbytes_ok; lia|]. exists 50%nat. intros fuel Hf.
  apply (malloc_loop_mono sbrk_1mb 50 fuel); [|done].
  change (malloc 0x900 sbrk_1mb 50 100 um0 = Ret (36760, um1.2)). rewrite (got_ret (malloc 0x900 sbrk_1mb 50 100 um0) (0, um0)) by (by vm_compute).
  fold um1. apply (f_equal Ret), injective_projections; [by vm_compute|reflexivity].
Qed.
Lemma um2_step : ua_step 0x900 sbrk_1mb (um1.2, [(36752, 14)]) (um2, []).
Proof.
  apply (ua_free _ _ _ _ 36752 14 []); [done|]. exists 50%nat. intros fuel Hf.
  apply (free_mono 50 fuel); [|done]. replace (36752 + HDR) with um1.1 by (by vm_compute).
  apply (got_ret _ um0). by vm_compute.
Qed.
Lemma malloc_exclusive_witness :
  ∃ r s', returns (λ fuel, malloc 0x900 sbrk_1mb fuel 200 um1.2) (r, s') ∧ contents_kept [(36752, 14)] (um_mem um1.2) (um_mem s').
Proof.
  destruct (malloc_exclusive 0x900 0x1000 sbrk_1mb (λ _, 0) um1.2 [(36752, 14)]) as (_ & Hm & _).
  - unfold HDR. lia.
  - unfold KERNBASE. lia.
  - exact sbrk_1mb_grows.
  - apply rtc_once, um1_step.
  - destruct (Hm 200) as (r & s' & Hr & Hc & _); [unfold nbytes_ok; lia|]. exists r, s'. split; [exact Hr|exact Hc].
Defined.
Lemma free_coalesces_witness : h_ptr (um_mem um2) 0x900 = 0x1000 ∧ HDR * h_size (um_mem um2) 0x1000 = um_brk um2 - 0x1000.
Proof.
  destruct (free_coalesces 0x900 0x1000 sbrk_1mb (λ _, 0) um2) as (H1 & _ & H2).
  - unfold HDR. lia.
  - unfold KERNBASE. lia.
  - exact sbrk_1mb_grows.
  - eapply rtc_l; [apply um1_step|apply rtc_once, um2_step].
  - by vm_compute.
  - split; [exact H1|exact H2].
Defined.

(** The size in units overflows: a request of 4GB - 1 gets one unit, a header
    and no byte. *)
Example malloc_overflow : let '(r, s) := got (malloc 0x900 sbrk_1mb 50 0xffffffff um0) (0, um0) in
  r ≠ 0 ∧ h_size (um_mem s) (r - HDR) = 1.
Proof. by vm_compute. Qed.
(** A request of 2GB asks [sbrk] for a negative number of bytes. *)
Example malloc_negative_sbrk : i32 (units (2 ^ 31) * HDR) = - (2 ^ 31) + 8.
Proof. by vm_compute. Qed.
