(* ===== verification/Exec.v ===== *)
(** * Program loading (exec.c, elf.h, and loaduvm of vm.c)

    [exec] builds a new address space from an ELF file and the arguments, and
    puts it in the place of the one of the current process.  It runs on the
    state of ProcOps.v; what it uses of fs.c and log.c is the class
    [ExecOps], with [fs_exec_ops] for Fs.v.  A path and an argument are the
    lists of their characters, without the terminating zero. *)
From S2P Require Import Prelude Machine Spinlock CString Kalloc Vm Proc ProcOps Block Bio Log Fs.

Open Scope Z_scope.

(** ** elf.h *)
Definition ELF_MAGIC : Z := 0x464C457F.
Definition ELF_PROG_LOAD : Z := 1.
Record elfhdr := mkElf {
  e_magic : Z; e_elf : list Z; e_type : Z; e_machine : Z; e_version : Z; e_entry : Z; e_phoff : Z; e_shoff : Z;
  e_flags : Z; e_ehsize : Z; e_phentsize : Z; e_phnum : Z; e_shentsize : Z; e_shnum : Z; e_shstrndx : Z }.
Record proghdr := mkPh {
  ph_type : Z; ph_off : Z; ph_vaddr : Z; ph_paddr : Z; ph_filesz : Z; ph_memsz : Z; ph_flags : Z; ph_align : Z }.
Definition sizeof_elfhdr : Z := 52.
Definition sizeof_proghdr : Z := 32.
(** The structures in the bytes [b]. *)
Definition get_elfhdr (b : list Z) : elfhdr :=
  mkElf (get32 b 0) (take 12 (drop 4 b)) (get16 b 16) (get16 b 18) (get32 b 20) (get32 b 24) (get32 b 28) (get32 b 32)
    (get32 b 36) (get16 b 40) (get16 b 42) (get16 b 44) (get16 b 46) (get16 b 48) (get16 b 50).
Definition get_proghdr (b : list Z) : proghdr :=
  mkPh (get32 b 0) (get32 b 4) (get32 b 8) (get32 b 12) (get32 b 16) (get32 b 20) (get32 b 24) (get32 b 28).

(** ** What exec.c uses of fs.c and log.c

    An inode is a pointer, 0 being none.  [eo_readi] returns the result of
    [readi] and the bytes it has stored. *)
Class ExecOps (W : Type) := {
  eo_begin_op : M W unit;
  eo_end_op : M W unit;
  (** [namei(path)] of a process whose [cwd] is given *)
  eo_namei : Z → list Z → M W Z;
  eo_ilock : Z → M W unit;
  eo_readi : Z → Z → Z → M W (Z * list Z);
  eo_iunlockput : Z → M W unit }.

(** The entry [i] of [icache.inode]. *)
Definition inode_ptr (i : nat) : Z := Z.of_nat (S i).
Definition inode_of (p : Z) : nat := Z.to_nat (p - 1).
(** [name0] is the uninitialised array of [namei]. *)
Definition fs_exec_ops (devsw : Z → devsw_entry) (name0 : list Z) : ExecOps fstate := {|
  eo_begin_op := on_log begin_op;
  eo_end_op := on_log end_op;
  eo_namei cwd path := (let! r := namei devsw (inode_of cwd) path name0 in
                        ret (match r with Some i => inode_ptr i | None => 0 end))%xv6;
  eo_ilock ip := ilock (inode_of ip);
  eo_readi ip := readi devsw (inode_of ip);
  eo_iunlockput ip := iunlockput (inode_of ip) |}.

Section Exec.
Context {W : Type} `{ExecOps W}.
(** [end] and [data] of kernel.ld, and the CPU that runs the code. *)
Context (kend data : Z) (me : nat).
(** The uninitialised structures [elf] and [ph] of [exec]. *)
Context (elf0 ph0 : list Z).
Abbreviation K := (M (kstate W)).

(** A structure on the stack after [data] has been read into it. *)
Definition filled (old data : list Z) : list Z := data ++ drop (length data) old.
(** The bytes [bs] stored at [dst]. *)
Definition put_at (dst : Z) (bs : list Z) (m : mem) : mem :=
  λ a, if (dst <=? a) && (a <? dst + Z.of_nat (length bs)) then default 0 (bs !! Z.to_nat (a - dst)) else m a.

(** The bytes that [readi] stores at the kernel address [va], from a page on.
    The kernel runs with [CR0_WP] (entry.S) and maps its text, from [KERNLINK] to
    [data], without [PTE_W] (vm.c, [kmap]): a store there is a page fault in the
    kernel, for which [trap] panics. *)
Definition kernel_store (va : Z) (bs : list Z) : K unit :=
  if (KERNLINK <=? va) && (va <? data) && (0 <? Z.of_nat (length bs)) then panic "trap" else upd_mem (put_at va bs).

Fixpoint loaduvm_loop (fuel : nat) (pgdir addr ip offset sz i : Z) : K Z :=
  if i <? sz then
    match fuel with
    | O => diverge
    | S fuel =>
        let! pte := on_km (λ k, Ret (walkpgdir pgdir (u32 (addr + i)) false k)) in
        if pte =? 0 then panic "loaduvm: address should exist"
        else
          let! k := gets k_km in
          let pa := PTE_ADDR (load32 (km_mem k) pte) in
          let n := if u32 (sz - i) <? PGSIZE then u32 (sz - i) else PGSIZE in
          let! (r, bs) := on_w (eo_readi ip (u32 (offset + i)) n) in
          kernel_store (p2v pa) bs ;!
          if negb (u32 r =? n) then ret (-1)
          else loaduvm_loop fuel pgdir addr ip offset sz (u32 (i + PGSIZE))
    end
  else ret 0.
Definition loaduvm (pgdir addr ip offset sz : Z) : K Z :=
  if negb (addr mod PGSIZE =? 0) then panic "loaduvm: addr must be page aligned"
  else loaduvm_loop (S (Z.to_nat (sz / PGSIZE))) pgdir addr ip offset sz 0.

(** The label [bad]. *)
Definition exec_bad (pgdir ip : Z) : K Z :=
  (if truth pgdir then on_km (λ k, let* k := freevm kend pgdir k in Ret (tt, k)) else skip) ;!
  (if truth ip then on_w (eo_iunlockput ip) ;! on_w eo_end_op else skip) ;!
  ret (-1).

(** The loop over the [n] program headers that are left; [None] is [goto bad]. *)
Fixpoint exec_load (n : nat) (pgdir ip off sz : Z) : K (option Z) :=
  match n with
  | O => ret (Some sz)
  | S n =>
      let! (r, bs) := on_w (eo_readi ip off sizeof_proghdr) in
      if negb (u32 r =? sizeof_proghdr) then ret None
      else
        let ph := get_proghdr (filled ph0 bs) in
        if negb (ph_type ph =? ELF_PROG_LOAD) then exec_load n pgdir ip (u32 (off + sizeof_proghdr)) sz
        else if ph_memsz ph <? ph_filesz ph then ret None
        else
          let! sz := on_km (allocuvm kend pgdir sz (u32 (ph_vaddr ph + ph_memsz ph))) in
          if sz =? 0 then ret None
          else
            let! r := loaduvm pgdir (ph_vaddr ph) ip (ph_off ph) (ph_filesz ph) in
            if r <? 0 then ret None
            else exec_load n pgdir ip (u32 (off + sizeof_proghdr)) sz
  end.

(** The loop that pushes the arguments; [ptrs] are the elements of [ustack]
    from index 3 on. *)
Fixpoint exec_push (pgdir : Z) (argv : list (list Z)) (ptrs : list Z) (sp : Z) : K (option (list Z * Z)) :=
  match argv with
  | [] => ret (Some (ptrs, sp))
  | s :: argv =>
      if MAXARG <=? Z.of_nat (length ptrs) then ret None
      else
        let sp := Z.land (u32 (sp - (Z.of_nat (length s) + 1))) (u32 (Z.lnot 3)) in
        let! r := on_km (copyout pgdir sp (s ++ [0])) in
        if r <? 0 then ret None else exec_push pgdir argv (ptrs ++ [sp]) sp
  end.
(** The user stack: the new size and stack pointer. *)
Definition exec_stack (pgdir sz : Z) (argv : list (list Z)) : K (option (Z * Z)) :=
  let sz := PGROUNDUP sz in
  let! sz := on_km (allocuvm kend pgdir sz (u32 (sz + 2 * PGSIZE))) in
  if sz =? 0 then ret None
  else
    on_km (λ k, let* k := clearpteu pgdir (u32 (sz - 2 * PGSIZE)) k in Ret (tt, k)) ;!
    let! r := exec_push pgdir argv [] sz in
    match r with
    | None => ret None
    | Some (ptrs, sp) =>
        let argc := Z.of_nat (length ptrs) in
        let ustack := [0xffffffff; argc; u32 (sp - (argc + 1) * 4)] ++ ptrs ++ [0] in
        let sp := u32 (sp - (3 + argc + 1) * 4) in
        let! r := on_km (copyout pgdir sp (concat (word_bytes <$> ustack))) in
        if r <? 0 then ret None else ret (Some (sz, sp))
    end.

(** [last] after the loop over the path. *)
Fixpoint last_elem (last s : list Z) : list Z :=
  match s with
  | [] => last
  | c :: s => last_elem (if c =? 47 then s else last) s
  end.
(** Commit to the user image. *)
Definition exec_commit (path : list Z) (pgdir sz sp entry : Z) : K Z :=
  let! cur := myproc me in
  write_proc cur (λ p, set_name (array_safestrcpy (p_name p) (last_elem path path ++ [0])) p) ;!
  let! p := read_proc cur in
  let oldpgdir := p_pgdir p in
  write_proc cur (set_pgdir pgdir) ;!
  write_proc cur (set_sz sz) ;!
  upd_mem (λ m, store32 m (p_tf p + tf_eip) entry) ;!
  upd_mem (λ m, store32 m (p_tf p + tf_esp) sp) ;!
  switchuvm me cur ;!
  on_km (λ k, let* k := freevm kend oldpgdir k in Ret (tt, k)) ;!
  ret 0.

Definition exec (path : list Z) (argv : list (list Z)) : K Z :=
  on_w eo_begin_op ;!
  let! cur := myproc me in
  let! p := read_proc cur in
  let! ip := on_w (eo_namei (p_cwd p) path) in
  if ip =? 0 then on_w eo_end_op ;! ret (-1)
  else
    on_w (eo_ilock ip) ;!
    let! (r, bs) := on_w (eo_readi ip 0 sizeof_elfhdr) in
    (* the comparison with sizeof is unsigned *)
    if u32 r <? sizeof_elfhdr then exec_bad 0 ip
    else
      let elf := get_elfhdr (filled elf0 bs) in
      if negb (e_magic elf =? ELF_MAGIC) then exec_bad 0 ip
      else
        let! pgdir := on_km (setupkvm data) in
        if pgdir =? 0 then exec_bad 0 ip
        else
          let! sz := exec_load (Z.to_nat (e_phnum elf)) pgdir ip (e_phoff elf) 0 in
          match sz with
          | None => exec_bad pgdir ip
          | Some sz =>
              on_w (eo_iunlockput ip) ;!
              on_w eo_end_op ;!
              let! r := exec_stack pgdir sz argv in
              match r with
              | None => exec_bad pgdir 0
              | Some (sz, sp) => exec_commit path pgdir sz sp (e_entry elf)
              end
          end.
End Exec.
