(* ===== verification/TrapFs.v ===== *)
(** * The handlers and system calls behind [trap] (ide.c, kbd.c, uart.c, console.c, sysfile.c, exec.c)

    Trap.v uses the device handlers and the file system calls through the
    class [TrapOps].  Here is the instance made of the definitions of Ide.v,
    Kbd.v, Intr.v, Console.v, Sysfile.v and Exec.v, and the proof that it keeps
    what Trap.v expects of it: to the scheduler these handlers and calls are
    critical sections of other locks, wakeups, changes of the caller's own slot,
    and changes of memory, devices and files.

    A file system call runs to its end here; one that would sleep inside fs.c,
    log.c, pipe.c or console.c diverges, as in Sysfile.v.  The file system is
    that of Fs.v on the driver of Bio.v, and the handler of the disk works on the
    queue of Ide.v, which is another part of the state; the pages of pipes come
    from the allocator in [filest]. *)
From S2P Require Import Prelude Machine Spinlock Kalloc Vm Proc ProcOps Sched SchedThm.
From S2P Require Import Block Bio Ide Log Fs File Mmu Syscall Mp Intr Lapic Sysproc Trap TrapThm Sysfile Console Kbd Exec.

Open Scope Z_scope.

(** ** The state of the devices and files *)
(** [kd_codes] are the scan codes that wait in the keyboard controller, and
    [kd_shift] is the variable [shift] of [kbdgetc]; [kd_out] is what was put
    out on the console. *)
Record kdev := mkKdev {
  kd_files : filest; kd_ide : ide; kd_input : Console.input; kd_out : list Z;
  kd_codes : list Z; kd_shift : Z; kd_devs : devs }.
Definition set_kd_files (v : filest) (w : kdev) : kdev :=
  mkKdev v (kd_ide w) (kd_input w) (kd_out w) (kd_codes w) (kd_shift w) (kd_devs w).
Definition set_kd_ide (v : ide) (w : kdev) : kdev :=
  mkKdev (kd_files w) v (kd_input w) (kd_out w) (kd_codes w) (kd_shift w) (kd_devs w).
Definition set_kd_console (i : Console.input) (out : list Z) (w : kdev) : kdev :=
  mkKdev (kd_files w) (kd_ide w) i out (kd_codes w) (kd_shift w) (kd_devs w).
Definition set_kd_kbd (codes : list Z) (shift : Z) (w : kdev) : kdev :=
  mkKdev (kd_files w) (kd_ide w) (kd_input w) (kd_out w) codes shift (kd_devs w).
Definition set_kd_devs (v : devs) (w : kdev) : kdev :=
  mkKdev (kd_files w) (kd_ide w) (kd_input w) (kd_out w) (kd_codes w) (kd_shift w) v.
Definition in_files {A} (e : M filest A) : M kdev A := zoom kd_files set_kd_files e.

(** The locks [idelock] and [cons.lock]. *)
Definition IDE_LOCK : nat := 3.
Definition CONS_LOCK : nat := 4.

Section Kernel.
Context (kend data : Z) (dsw : Z → devsw_entry).
(** Uninitialised arrays and structures of the calls. *)
Context (name0 elf0 ph0 : list Z).
(** [&input.r] and the addresses of the buffers of the cache. *)
Context (input_r : Z) (buf_addr : nat → Z).
(** How long a device is polled. *)
Context (poll : nat).

Definition kdev_files : FileOps kdev :=
  let o := file_ops kend dsw in {|
  fo_filedup p := in_files (@fo_filedup _ o p);
  fo_fileclose p := in_files (@fo_fileclose _ o p);
  fo_idup p := in_files (@fo_idup _ o p);
  fo_iput p := in_files (@fo_iput _ o p);
  fo_begin_op := in_files (@fo_begin_op _ o);
  fo_end_op := in_files (@fo_end_op _ o);
  fo_namei_root := in_files (@fo_namei_root _ o);
  fo_init := in_files (@fo_init _ o) |}.
Definition in_fs {A} (e : M fstate A) : M kdev A := in_files (on_fs e).
Definition kdev_exec : ExecOps kdev :=
  let o := fs_exec_ops dsw name0 in {|
  eo_begin_op := in_fs (@eo_begin_op _ o);
  eo_end_op := in_fs (@eo_end_op _ o);
  eo_namei cwd path := in_fs (@eo_namei _ o cwd path);
  eo_ilock ip := in_fs (@eo_ilock _ o ip);
  eo_readi ip off n := in_fs (@eo_readi _ o ip off n);
  eo_iunlockput ip := in_fs (@eo_iunlockput _ o ip) |}.
#[local] Existing Instance kdev_files.
#[local] Existing Instance kdev_exec.

Abbreviation T := (M (tstate kdev)).
Context (me : nat).

(** ** The interrupt handlers *)
(** [ideintr]: under [idelock] the driver takes the finished buffer off its
    queue and wakes the process that waits for it. *)
Definition ideintr : T unit :=
  on_k (acquire_lock me IDE_LOCK) ;!
  let! w := on_k (gets k_w) in
  on_k (on_w (zoom kd_ide set_kd_ide (Ide.ideintr poll))) ;!
  let! w' := on_k (gets k_w) in
  for_each (drop (length (d_woken (kd_ide w))) (d_woken (kd_ide w')))
    (λ i, on_k (wakeup me (ChanAddr (buf_addr i)))) ;!
  on_k (release_lock me IDE_LOCK).

(** One character in [consoleintr]. *)
Definition key (c : Z) : M kdev bool := λ w,
  let* (i, out, woken) := console_key c (kd_input w) in Ret (woken, set_kd_console i (kd_out w ++ out) w).
(** [while((c = getc()) >= 0)] over the characters that [getc] returns; the
    process listing of control-P is left out. *)
Fixpoint console_loop (cs : list Z) : T unit :=
  match cs with
  | [] => skip
  | c :: cs =>
      if c <? 0 then skip
      else
        let! woken := on_k (on_w (key c)) in
        (if (woken : bool) then on_k (wakeup me (ChanAddr input_r)) else skip) ;!
        console_loop cs
  end.
Definition consoleintr (getc : M kdev (list Z)) : T unit :=
  on_k (acquire_lock me CONS_LOCK) ;!
  let! cs := on_k (on_w getc) in
  console_loop cs ;!
  on_k (release_lock me CONS_LOCK).
(** The results of [kbdgetc], until there is no scan code left. *)
Definition kbdgetcs : M kdev (list Z) := λ w,
  let* (cs, shift) := kbd_run (kd_codes w) (kd_shift w) in Ret (cs, set_kd_kbd [] shift w).
Definition kbdintr : T unit := consoleintr kbdgetcs.
Fixpoint uartgetcs (fuel : nat) : D (list Z) :=
  match fuel with
  | O => diverge
  | S fuel =>
      let! c := uartgetc in
      if c <? 0 then ret [] else let! cs := uartgetcs fuel in ret (c :: cs)
  end.
Definition uartintr : T unit := consoleintr (zoom kd_devs set_kd_devs (uartgetcs poll)).

(** ** The system calls of sysfile.c *)
Definition ptr_fd (p : Z) : option nat := if p =? 0 then None else Some (of_ptr p).
Definition fd_ptr (f : option nat) : Z := match f with Some i => ptr_of i | None => 0 end.
Definition file_call (sz esp : Z) (killed : bool) (h : sysno) : M sysst Z :=
  match h with
  | SYS_dup => sys_dup sz esp
  | SYS_read => sys_read dsw killed sz esp
  | SYS_write => sys_write dsw killed sz esp
  | SYS_close => sys_close kend sz esp
  | SYS_fstat => sys_fstat sz esp
  | SYS_link => sys_link dsw sz esp name0
  | SYS_unlink => sys_unlink dsw sz esp name0
  | SYS_open => sys_open kend dsw sz esp name0
  | SYS_mkdir => sys_mkdir dsw sz esp name0
  | SYS_mknod => sys_mknod dsw sz esp name0
  | SYS_chdir => sys_chdir dsw sz esp name0
  | SYS_pipe => sys_pipe kend sz esp
  | _ => ret (-1)
  end.
(** The state that Sysfile.v works on: the files, and of the current process its
    descriptors, its directory and its memory as the page table shows it. *)
Definition view (p : proc) (s : kstate kdev) : sysst :=
  mkSys (kd_files (k_w s)) (ptr_fd <$> p_ofile p) (of_ptr (p_cwd p)) (umem (k_km s) (p_pgdir p)).
Definition esp_of (p : proc) (s : kstate kdev) : Z := load32 (km_mem (k_km s)) (p_tf p + tf_esp).
(** What the call leaves in the slot, in memory and in the files. *)
Definition unview (p : proc) (s' : sysst) : M (kstate kdev) unit :=
  let! cur := myproc me in
  write_proc cur (λ q, set_cwd (ptr_of (ss_cwd s')) (set_ofile (fd_ptr <$> ss_ofile s') q)) ;!
  on_km (modify (put_user (p_pgdir p) 0 (bytes_at (ss_um s') 0 (Z.to_nat (p_sz p))))) ;!
  on_w (modify (set_kd_files (ss_files s'))).
Definition sys_file (h : sysno) : M (kstate kdev) Z :=
  let! cur := myproc me in
  let! p := read_proc cur in
  let! s := gets (λ s, s) in
  let! (r, s') := lift (file_call (p_sz p) (esp_of p s) (truth (p_killed p)) h (view p s)) in
  unview p s' ;!
  ret r.
(** [sys_exec] *)
Definition sys_exec : M (kstate kdev) Z :=
  let! cur := myproc me in
  let! p := read_proc cur in
  let! s := gets (λ s, s) in
  let um := umem (k_km s) (p_pgdir p) in
  match argstr (p_sz p) (esp_of p s) um 0, argint (p_sz p) (esp_of p s) um 1 with
  | Some (path, len), Some uargv =>
      match fetch_argv (p_sz p) (Z.to_nat MAXARG) 0 (u32 uargv) um with
      | None => ret (-1)
      | Some argv => Exec.exec kend data me elf0 ph0 (bytes_at um path (Z.to_nat len)) argv
      end
  | _, _ => ret (-1)
  end.
Definition to_sysfile (h : sysno) : T Z :=
  match h with SYS_exec => on_k sys_exec | _ => on_k (sys_file h) end.
End Kernel.
Definition kdev_traps (kend data : Z) dsw name0 elf0 ph0 input_r buf_addr poll : TrapOps kdev := {|
  to_ideintr := ideintr buf_addr poll;
  to_kbdintr := kbdintr input_r;
  to_uartintr := uartintr input_r poll;
  to_file := to_sysfile kend data dsw name0 elf0 ph0 |}.

(** ** They are made of steps of the scheduler's machine *)
Create HintDb keeps.
Section Laws.
Context {W : Type} `{FileOps W} `{ExecOps W}.
Context (kend data fr tr : Z) (may : kstate W → Z → Z → Prop) (me : nat).
Context (g0 : config W) (phs : list phase) (Hme : (me < length phs)%nat).
Abbreviation at_run := (at_phase kend data fr tr may me g0 phs (false, Run)).

(** The process of the CPU keeps running. *)
Definition keeps {A} (e : M (kstate W) A) : Prop := ∀ s, at_run s → wp True e (λ _, at_run) s.
Lemma keeps_bind {A B} (e : M (kstate W) A) (k : A → M (kstate W) B) : keeps e → (∀ a, keeps (k a)) → keeps (bind e k).
Proof. intros He Hk s Hs. apply wp_bind. eapply wp_mono; [by apply He|]. intros a s' Hs'. by apply Hk. Qed.
Lemma keeps_ret {A} (a : A) : keeps (ret a).
Proof. intros s Hs. by apply wp_ret. Qed.
Lemma keeps_panic {A} m : keeps (panic (A := A) m).
Proof. done. Qed.
Lemma keeps_diverge {A} : keeps (diverge (A := A)).
Proof. done. Qed.
Lemma keeps_gets {A} (f : kstate W → A) : keeps (gets f).
Proof. intros s Hs. by apply wp_gets. Qed.
Lemma keeps_myproc : keeps (myproc me).
Proof.
  intros s Hs. unfold wp, myproc, mycpu, bind, gets, lift. destruct (k_cpus s !! me) as [c|]; [|done]. cbn.
  by destruct (c_proc c).
Qed.
Lemma keeps_read i : keeps (read_proc i).
Proof. intros s Hs. unfold wp, read_proc, bind, gets, lift. cbn. by destruct (get_proc i (k_pt s)). Qed.
Lemma at_device s km w : at_run s → at_run (with_w w (with_km km s)).
Proof using Hme. intros Hs. eapply at_mstep; [exact Hme|exact Hs|apply m_device; by right|done]. Qed.
Lemma keeps_on_w {A} (e : M W A) : keeps (on_w e).
Proof using Hme.
  intros s Hs. apply wp_on_w. intros a w. replace (with_w w s) with (with_w w (with_km (k_km s) s)) by (by destruct s).
  by apply at_device.
Qed.
Lemma keeps_on_km {A} (e : M kmem A) : keeps (on_km e).
Proof using Hme.
  intros s Hs. apply wp_on_km. intros a k. replace (with_km k s) with (with_w (k_w s) (with_km k s)) by (by destruct s).
  by apply at_device.
Qed.
Lemma keeps_upd_mem f : keeps (upd_mem f).
Proof using Hme. apply keeps_on_km. Qed.
Lemma keeps_skip : keeps skip.
Proof. intros s Hs. by apply wp_skip. Qed.
#[local] Hint Resolve keeps_skip keeps_ret keeps_panic keeps_diverge keeps_gets keeps_myproc keeps_read keeps_on_w keeps_on_km keeps_upd_mem : keeps.
Ltac keeps := repeat first
  [ solve [auto with keeps]
  | match goal with
    | |- keeps (bind _ _) => apply keeps_bind; [|intros ?]
    | |- keeps (match ?x with _ => _ end) => destruct x eqn:?
    | |- keeps (if ?x then _ else _) => destruct x eqn:?
    end ].

(** ** exec *)
Lemma keeps_loaduvm pgdir addr ip offset sz : keeps (loaduvm data pgdir addr ip offset sz).
Proof using Hme.
  unfold loaduvm. destruct (negb _); [done|]. generalize (S (Z.to_nat (sz / PGSIZE))) as fuel. intros fuel. generalize 0 as i.
  induction fuel as [|fuel IH]; intros i; cbn [loaduvm_loop]; unfold kernel_store; keeps.
Qed.
Lemma keeps_load ph0 n : ∀ pgdir ip off sz, keeps (exec_load kend data ph0 n pgdir ip off sz).
Proof using Hme.
  induction n as [|n IH]; intros pgdir ip off sz; cbn [exec_load]; keeps; try apply keeps_loaduvm; keeps.
Qed.
Lemma keeps_push pgdir argv : ∀ ptrs sp, keeps (exec_push pgdir argv ptrs sp).
Proof using Hme. induction argv as [|a argv IH]; intros ptrs sp; cbn [exec_push]; keeps. Qed.
Lemma keeps_stack pgdir sz argv : keeps (exec_stack kend pgdir sz argv).
Proof using Hme. unfold exec_stack. keeps; try apply keeps_push; keeps. Qed.
Lemma keeps_bad pgdir ip : keeps (exec_bad kend pgdir ip).
Proof using Hme. unfold exec_bad. keeps. Qed.
(** A change of the caller's own slot, and [switchuvm(proc)]. *)
Definition own (f : proc → proc) : Prop :=
  ∀ p, p_state (f p) = p_state p ∧ p_priority (f p) = p_priority p ∧
       p_next (f p) = p_next p ∧ (p_pgdir p ≠ 0 → p_pgdir (f p) ≠ 0).
Definition runs (cur : nat) (s : kstate W) : Prop := at_run s ∧ ∃ c, k_cpus s !! me = Some c ∧ c_proc c = Some cur.
Lemma runs_intro s : at_run s → wp True (myproc me) (λ cur s', runs cur s') s.
Proof.
  intros Hs. unfold wp, myproc, mycpu, bind, gets, lift. destruct (k_cpus s !! me) as [c|] eqn:Hc; [|done]. cbn.
  destruct (c_proc c) as [cur|] eqn:Hp; [|done]. split; [done|]. by exists c.
Qed.
Lemma runs_write cur f s : own f → runs cur s → wp True (write_proc cur f) (λ _, runs cur) s.
Proof using Hme.
  intros Hf [Hs (c & Hc & Hp)]. apply wp_intro. intros [] s'. unfold write_proc, on_pt, zoom.
  destruct (upd_proc cur f (k_pt s)) as [t| | |] eqn:Et; try done. intros [= <-]. split; [|by exists c].
  replace (with_pt t s) with (with_w (k_w s) (with_km (k_km s) (with_pt t s))) by (by destruct s).
  eapply at_mstep; [exact Hme|exact Hs|by eapply m_own|done].
Qed.
Lemma runs_switch cur s : runs cur s → wp True (switchuvm me cur) (λ _, at_run) s.
Proof using Hme.
  intros [Hs (c & Hc & Hp)]. apply wp_intro. intros [] s' E.
  eapply at_mstep; [exact Hme|exact Hs|by eapply m_switchuvm|done].
Qed.
Lemma runs_on_km {A} (e : M kmem A) cur s : runs cur s → wp True (on_km e) (λ _, runs cur) s.
Proof using Hme.
  intros [Hs Hc]. apply wp_on_km. intros a k. split; [|exact Hc].
  replace (with_km k s) with (with_w (k_w s) (with_km k s)) by (by destruct s). by apply at_device.
Qed.
Lemma runs_on_w {A} (e : M W A) cur s : runs cur s → wp True (on_w e) (λ _, runs cur) s.
Proof using Hme.
  intros [Hs Hc]. apply wp_on_w. intros a w. split; [|exact Hc].
  replace (with_w w s) with (with_w w (with_km (k_km s) s)) by (by destruct s). by apply at_device.
Qed.
Lemma runs_read i cur s : runs cur s → wp True (read_proc i) (λ _, runs cur) s.
Proof. intros Hs. unfold wp, read_proc, bind, gets, lift. cbn. by destruct (get_proc i (k_pt s)). Qed.
Lemma keeps_commit path pgdir sz sp entry : pgdir ≠ 0 → keeps (exec_commit kend me path pgdir sz sp entry).
Proof using Hme.
  intros Hpg s Hs. unfold exec_commit.
  apply wp_bind. eapply wp_mono; [by apply runs_intro|]. intros cur s1 H1.
  apply wp_bind. eapply wp_mono; [by apply runs_write|]. intros [] s2 H2.
  apply wp_bind. eapply wp_mono; [by apply runs_read|]. intros p s3 H3. cbv zeta.
  apply wp_bind. eapply wp_mono; [by apply runs_write|]. intros [] s4 H4.
  apply wp_bind. eapply wp_mono; [by apply runs_write|]. intros [] s5 H5.
  apply wp_bind. eapply wp_mono; [by apply runs_on_km|]. intros [] s6 H6.
  apply wp_bind. eapply wp_mono; [by apply runs_on_km|]. intros [] s7 H7.
  apply wp_bind. eapply wp_mono; [by apply runs_switch|]. intros [] s8 H8.
  apply wp_bind. eapply wp_mono; [by apply keeps_on_km|]. intros [] s9 H9. by apply wp_ret.
Qed.
Lemma keeps_exec elf0 ph0 path argv : keeps (Exec.exec kend data me elf0 ph0 path argv).
Proof using Hme.
  unfold Exec.exec. keeps; try apply keeps_bad.
  all: first [apply keeps_load | apply keeps_stack | apply keeps_commit; by apply Z.eqb_neq | idtac].
  all: keeps; try apply keeps_bad.
Qed.
End Laws.

(** On the state of [trap] *)
Section TLaws.
Context {W : Type} `{FileOps W} `{TrapOps W}.
Context (kend data fr tr : Z) (may : kstate W → Z → Z → Prop) (me : nat).
Abbreviation running g0 phs := (in_phase kend data fr tr may me g0 phs (false, Run)).
Definition steps_on {A} (e : M (tstate W) A) : Prop :=
  ∀ g0 phs ts, (me < length phs)%nat → running g0 phs ts → wp True e (λ _, running g0 phs) ts.
Lemma steps_on_by_steps {A} (e : M (tstate W) A) : steps_on e → by_steps kend data fr tr may me e.
Proof.
  intros He s a s' phs Hph E. pose proof (lookup_lt_Some _ _ _ Hph) as Hlt.
  assert (running (mkG (t_k s) phs) phs s) as Hs by (unfold in_phase, at_phase; rewrite list_insert_id by done; apply rtc_refl).
  pose proof (wp_ret_inv _ _ _ _ _ (He _ _ _ Hlt Hs) E) as Hr. unfold in_phase, at_phase in Hr. by rewrite list_insert_id in Hr.
Qed.
Lemma steps_bind {A B} (e : M (tstate W) A) (k : A → M (tstate W) B) : steps_on e → (∀ a, steps_on (k a)) → steps_on (bind e k).
Proof. intros He Hk g0 phs ts Hl Hs. apply wp_bind. eapply wp_mono; [by apply He|]. intros a ts' Hs'. by apply Hk. Qed.
Lemma steps_skip : steps_on skip.
Proof. intros g0 phs ts Hl Hs. by apply wp_skip. Qed.
Lemma steps_keeps {A} (e : M (kstate W) A) :
  (∀ g0 phs, (me < length phs)%nat → keeps kend data fr tr may me g0 phs e) → steps_on (on_k e).
Proof. intros He g0 phs ts Hl Hs. apply wp_on_k. by apply He. Qed.
Lemma steps_op {A} (e : M (kstate W) A) :
  (∀ s a s', e s = Ret (a, s') → mstep kend data fr tr me None (false, Run) s (false, Run) s') → steps_on (on_k e).
Proof. intros He g0 phs ts Hl Hs. by apply (wp_op _ _ _ _ _ _ _ _ Hl e (false, Run) (λ _, (false, Run))). Qed.
Lemma steps_acquire l : l ≠ PTABLE_LOCK → steps_on (on_k (acquire_lock me l)).
Proof. intros Hl. apply steps_op. intros s [] s' E. by eapply m_acquire; [right|..]. Qed.
Lemma steps_release l : l ≠ PTABLE_LOCK → steps_on (on_k (release_lock me l)).
Proof. intros Hl. apply steps_op. intros s [] s' E. by eapply m_release; [right|..]. Qed.
Lemma steps_wakeup ch : steps_on (on_k (wakeup me ch)).
Proof. apply steps_op. intros s [] s' E. eapply m_wakeup; [by right|done]. Qed.
Lemma steps_on_w {A} (e : M W A) : steps_on (on_k (on_w e)).
Proof. apply steps_keeps. intros g0 phs Hl. by apply keeps_on_w. Qed.
Lemma steps_gets {A} (f : kstate W → A) : steps_on (on_k (gets f)).
Proof. apply steps_keeps. intros g0 phs Hl. apply keeps_gets. Qed.
Lemma steps_each {A} (f : A → M (tstate W) unit) l : (∀ x, steps_on (f x)) → steps_on (for_each l f).
Proof. intros Hf. induction l as [|x l IH]; cbn [for_each]; [apply steps_skip|]. by apply steps_bind. Qed.
End TLaws.

Section KernelLaws.
Context (kend data : Z) (dsw : Z → devsw_entry) (name0 elf0 ph0 : list Z) (input_r : Z) (buf_addr : nat → Z) (poll : nat).
#[local] Existing Instance kdev_files.
#[local] Existing Instance kdev_exec.
Context (fr tr : Z) (may : kstate kdev → Z → Z → Prop) (me : nat).
#[local] Instance the_files : FileOps kdev := kdev_files kend dsw.
#[local] Instance the_traps : TrapOps kdev := kdev_traps kend data dsw name0 elf0 ph0 input_r buf_addr poll.
Abbreviation steps_on := (steps_on kend data fr tr may me).

Lemma ideintr_steps : steps_on (ideintr buf_addr poll me).
Proof.
  unfold ideintr. apply steps_bind; [by apply steps_acquire|intros _].
  apply steps_bind; [apply steps_gets|intros w]. apply steps_bind; [apply steps_on_w|intros _].
  apply steps_bind; [apply steps_gets|intros w']. apply steps_bind; [|intros _; by apply steps_release].
  apply steps_each. intros i. apply steps_wakeup.
Qed.
Lemma consoleintr_steps getc : steps_on (consoleintr input_r me getc).
Proof.
  unfold consoleintr. apply steps_bind; [by apply steps_acquire|intros _]. apply steps_bind; [apply steps_on_w|intros cs].
  apply steps_bind; [|intros _; by apply steps_release].
  induction cs as [|c cs IH]; cbn [console_loop]; [apply steps_skip|]. destruct (c <? 0); [apply steps_skip|].
  apply steps_bind; [apply steps_on_w|intros woken]. apply steps_bind; [|by intros _].
  destruct woken; [apply steps_wakeup|apply steps_skip].
Qed.
Lemma keeps_sys_file g0 phs h : (me < length phs)%nat →
  keeps kend data fr tr may me g0 phs (sys_file kend dsw name0 me h).
Proof.
  intros Hl. unfold sys_file. apply keeps_bind; [apply keeps_myproc|intros cur]. apply keeps_bind; [apply keeps_read|intros p].
  apply keeps_bind; [apply keeps_gets|intros s0]. apply keeps_bind.
  { intros s Hs. unfold wp, lift. by destruct (file_call _ _ _ _ _ _ _). }
  intros [r s']. apply keeps_bind; [|intros _; apply keeps_ret]. intros s Hs. unfold unview.
  apply wp_bind. eapply wp_mono; [by apply runs_intro|]. intros cur' s1 H1.
  apply wp_bind. eapply wp_mono; [apply runs_write; [done| |exact H1]; done|]. intros [] s2 H2.
  apply wp_bind. eapply wp_mono; [by apply runs_on_km|]. intros [] s3 [H3 _]. by apply keeps_on_w.
Qed.
Lemma keeps_sys_exec g0 phs : (me < length phs)%nat →
  keeps kend data fr tr may me g0 phs (sys_exec kend data dsw name0 elf0 ph0 me).
Proof.
  intros Hl. unfold sys_exec. apply keeps_bind; [apply keeps_myproc|intros cur]. apply keeps_bind; [apply keeps_read|intros p].
  apply keeps_bind; [apply keeps_gets|intros s0].
  destruct (argstr _ _ _ _) as [[path len]|]; [|apply keeps_ret]. destruct (argint _ _ _ _); [|apply keeps_ret].
  destruct (fetch_argv _ _ _ _ _); [|apply keeps_ret]. by apply keeps_exec.
Qed.
Lemma kdev_laws : TrapLaws kdev kend data fr tr may me.
Proof.
  split; [|..|intros h]; apply steps_on_by_steps.
  - apply ideintr_steps.
  - apply consoleintr_steps.
  - apply consoleintr_steps.
  - destruct (decide (h = SYS_exec)) as [->|Hne]; [apply steps_keeps; intros; by apply keeps_sys_exec|].
    assert (to_file me h = on_k (sys_file kend dsw name0 me h)) as -> by (by destruct h).
    apply steps_keeps. intros. by apply keeps_sys_file.
Qed.
End KernelLaws.

(** ** Traps refine the scheduler *)
(** [trap] with the handlers and system calls of this kernel. *)
Definition kernel_step (kend data : Z) dsw name0 elf0 ph0 input_r buf_addr poll :=
  @trap_step kdev (kdev_files kend dsw) (kdev_traps kend data dsw name0 elf0 ph0 input_r buf_addr poll) kend data.
Definition kernel_resume (kend : Z) dsw := @trap_resume kdev (kdev_files kend dsw) kend.

(** Claim C3: traps are steps of the scheduler's machine.  Let a process be in
    [trap], with the handlers of ide.c, kbd.c and uart.c and the calls of
    sysfile.c and sysproc.c behind it; a call of sysfile.c runs to its end, one
    that would sleep is left out, and so are interrupts of a CPU without a
    process.  Whatever [trap] does
    from one point to the next, or after the scheduler has come back to it
    (system calls, faults, clock and device interrupts, leaving the CPU in
    sleep, wait, yield and exit), is a sequence of steps of the machine of
    Sched.v by its CPU, ending in the phase that belongs to the point reached.
    So it keeps the invariant of the ready lists, the process states, the CPUs
    and the locks.  The one condition is on the system call [setpriority]: its
    priority is 0, 1 or 2 and the process is not on a ready list. *)
Theorem trap_refines_scheduler kend data dsw name0 elf0 ph0 input_r buf_addr poll fr tr me ticks_addr cmos fuel tf c s c' s' phs :
  let _ := kdev_files kend dsw in
  (c = AtSyscall → prio_allowed may_set_ok me s) →
  (phs !! me = Some (phase_of c) ∧
   kernel_step kend data dsw name0 elf0 ph0 input_r buf_addr poll fr tr me ticks_addr cmos fuel tf c s = Ret (c', s')) ∨
  (phs !! me = Some (true, Resuming) ∧ kernel_resume kend dsw me c s = Ret (c', s')) →
  rtc (step kend data fr tr may_set_ok) (mkG (t_k s) phs) (mkG (t_k s') (<[me := phase_of c']> phs)) ∧
  (Inv (mkG (t_k s) phs) → Inv (mkG (t_k s') (<[me := phase_of c']> phs))).
Proof.
  intros Hfiles Hok Hstep.
  exact (@trap_steps kdev (kdev_files kend dsw) (kdev_traps kend data dsw name0 elf0 ph0 input_r buf_addr poll) kend data fr tr me
    ticks_addr cmos fuel tf (kdev_laws kend data dsw name0 elf0 ph0 input_r buf_addr poll fr tr may_set_ok me) c s c' s' phs Hok Hstep).
Qed.
(** Two processes; the keys A and Enter have been pressed, and the interrupt of
    the keyboard comes in user mode.  The trap frame is at 4096. *)
Definition wkdev : kdev :=
  mkKdev (mkFst (mkFs (mkLs wit_bcache (mkLog 2 30 0 0 1 0 [])) (mkSb 1000 941 200 30 2 32 58) []) [] ∅ (mkKmem 0 0 (λ _, 0)))
    wide (Console.mkIn (replicate 128 0) 0 0 0) [] [0x1e; 0x1c] 0 wdevs.
Definition wkbd : tstate kdev :=
  mkT (with_km (mkKmem 0 0 (λ a, if a =? 4096 + tf_trapno then 33 else if a =? 4096 + tf_cs then 0x23 else 0))
    (g_k (two_config_with wkdev))) 7 0.
Abbreviation wkstep := (kernel_step 0 0 (λ _, mkDevsw None None) [] [] [] 0x8010 (λ _, 0) 5 0 0 0 4 (λ _ _, 0) 1 4096).
Lemma trap_refines_scheduler_witness : match wkstep AtIntr wkbd with
  | Ret (c, s) => c = AtKilled ∧ Inv (mkG (t_k s) [(false, Run); (false, Idle)]) ∧
      Console.in_w (kd_input (k_w (t_k s))) = 2 ∧ kd_out (k_w (t_k s)) = [97; 10]
  | _ => False end.
Proof.
  destruct (wkstep AtIntr wkbd) as [[c s]| | |] eqn:E; [|vm_compute in E; discriminate E..].
  assert (c = AtKilled ∧ Console.in_w (kd_input (k_w (t_k s))) = 2 ∧ kd_out (k_w (t_k s)) = [97; 10]) as (-> & H1 & H2).
  { assert (match wkstep AtIntr wkbd with Ret (c, s) =>
      c = AtKilled ∧ Console.in_w (kd_input (k_w (t_k s))) = 2 ∧ kd_out (k_w (t_k s)) = [97; 10] | _ => False end) as H
      by (vm_compute; split_and!; reflexivity). by rewrite E in H. }
  split; [done|]. split; [|done].
  refine (proj2 (trap_refines_scheduler 0 0 _ [] [] [] 0x8010 (λ _, 0) 5 0 0 0 4 (λ _ _, 0) 1 4096 AtIntr wkbd AtKilled s
    [(false, Run); (false, Idle)] _ _) _); [discriminate|by left|exact (two_config_with_inv wkdev)].
Defined.
