(* ===== verification/ExecThm.v ===== *)
(** * The image that exec builds

    [spec_exec] says what a program finds in its memory when it starts: the
    segments of the ELF file, zeros around them, and the stack with its
    arguments.  The theorems show that [exec] makes exactly this image, out of
    free pages, and that a failing [exec] leaves the process as it was. *)
From S2P Require Import Prelude Machine Spinlock CString Kalloc Vm VmThm Proc ProcOps SchedThm Block Lapic Mmu Syscall Sysproc Exec.

Open Scope Z_scope.

(** ** What exec means *)

(** The result and the bytes of [readi] on a file with contents [C]. *)
Definition file_read (C : list Z) (off n : Z) : Z * list Z :=
  let size := Z.of_nat (length C) in
  if (size <? off) || (u32 (off + n) <? off) then (-1, [])
  else
    let n := if size <? u32 (off + n) then size - off else n in
    (n, take (Z.to_nat n) (drop (Z.to_nat off) C)).
Definition slice (C : list Z) (off n : Z) : list Z := take (Z.to_nat n) (drop (Z.to_nat off) C).

(** The segments in the memory [f] of a process of size [sz]. *)
Fixpoint spec_load (n : nat) (C : list Z) (off sz : Z) (f : mem) : option (Z * mem) :=
  match n with
  | O => Some (sz, f)
  | S n =>
      let '(r, bs) := file_read C off sizeof_proghdr in
      let ph := get_proghdr bs in
      if negb (r =? sizeof_proghdr) then None
      else if negb (ph_type ph =? ELF_PROG_LOAD) then spec_load n C (u32 (off + sizeof_proghdr)) sz f
      else if (ph_memsz ph <? ph_filesz ph) || (KERNBASE <=? ph_vaddr ph + ph_memsz ph) then None
      else
        let sz := Z.max sz (ph_vaddr ph + ph_memsz ph) in
        if (sz =? 0) || (0 <? ph_filesz ph) && (Z.of_nat (length C) <? ph_off ph + ph_filesz ph) then None
        else spec_load n C (u32 (off + sizeof_proghdr)) sz (put_at (ph_vaddr ph) (slice C (ph_off ph) (ph_filesz ph)) f)
  end.
(** The arguments on the stack page, which starts at [low]. *)
Fixpoint spec_push (low : Z) (argv : list (list Z)) (ptrs : list Z) (sp : Z) (f : mem) : option (list Z * Z * mem) :=
  match argv with
  | [] => Some (ptrs, sp, f)
  | s :: argv =>
      let sp := (sp - (Z.of_nat (length s) + 1)) / 4 * 4 in
      if (MAXARG <=? Z.of_nat (length ptrs)) || (sp <? low) then None
      else spec_push low argv (ptrs ++ [sp]) sp (put_at sp (s ++ [0]) f)
  end.
(** The words that [main] finds. *)
Definition main_frame (ptrs : list Z) (sp : Z) : list Z :=
  let argc := Z.of_nat (length ptrs) in [0xffffffff; argc; sp - (argc + 1) * 4] ++ ptrs ++ [0].
Definition spec_stack (sz : Z) (argv : list (list Z)) (f : mem) : option (Z * Z * mem) :=
  let sz := PGROUNDUP sz + 2 * PGSIZE in
  if KERNBASE <=? sz then None
  else
    match spec_push (sz - PGSIZE) argv [] sz f with
    | None => None
    | Some (ptrs, sp, f) =>
        let sp' := sp - 4 * (Z.of_nat (length ptrs) + 4) in
        if sp' <? sz - PGSIZE then None
        else Some (sz, sp', put_at sp' (concat (word_bytes <$> main_frame ptrs sp)) f)
    end.
(** The entry point, the size, the stack pointer and the memory. *)
Definition spec_exec (C : list Z) (argv : list (list Z)) : option (Z * Z * Z * mem) :=
  let elf := get_elfhdr C in
  if (Z.of_nat (length C) <? sizeof_elfhdr) || negb (e_magic elf =? ELF_MAGIC) then None
  else
    match spec_load (Z.to_nat (e_phnum elf)) C (e_phoff elf) 0 (λ _, 0) with
    | None => None
    | Some (sz, f) =>
        match spec_stack sz argv f with
        | None => None
        | Some (sz, sp, f) => Some (e_entry elf, sz, sp, f)
        end
    end.

Lemma put_at_in dst bs m a : dst ≤ a < dst + Z.of_nat (length bs) → put_at dst bs m a = default 0 (bs !! Z.to_nat (a - dst)).
Proof. intros Ha. unfold put_at. by rewrite (proj2 (Z.leb_le _ _)), (proj2 (Z.ltb_lt _ _)) by lia. Qed.
Lemma put_at_out dst bs m a : a < dst ∨ dst + Z.of_nat (length bs) ≤ a → put_at dst bs m a = m a.
Proof.
  intros Ha. unfold put_at. destruct (Z.leb_spec dst a), (Z.ltb_spec a (dst + Z.of_nat (length bs))); simpl; try done; lia.
Qed.

(** ** The image while it is built *)
Section image.
Context (kend data : Z) (Hkend : KERNBASE < kend) (Hdata : aligned data ∧ KERNLINK < data < KERNBASE + PHYSTOP).
(** The memory and the free list before. *)
Context (k0 : kmem) (l0 : list Z).

(** The directory [d] has the tables [T] and the user pages [U], made of pages
    that were free; [f] is the memory that user code sees below [sz], and the
    page [guard] is closed to it. *)
Record image (k : kmem) (l : list Z) (d : Z) (T U : gmap Z Z) (sz guard : Z) (f : mem) : Prop := {
  im_inv : uinv kend k l d T U;
  im_acc : tpages d T ++ vals U ++ l ≡ₚ l0;
  im_keeps : keeps kend l0 (km_mem k0) (km_mem k);
  im_size : 0 ≤ sz < KERNBASE;
  im_dom : ∀ n, is_Some (U !! n) ↔ 0 ≤ n ∧ n * PGSIZE < sz;
  im_pte : ∀ n q, U !! n = Some q → pte (km_mem k) T (n * PGSIZE) = v2p q + (if n =? guard then 3 else 7);
  im_mem : ∀ n q o, U !! n = Some q → 0 ≤ o < PGSIZE → km_mem k (q + o) = f (n * PGSIZE + o);
  im_zero : ∀ a, sz ≤ a / PGSIZE * PGSIZE → f a = 0;
  im_kern : ∀ va, word_ok va → KERNBASE ≤ va → pte (km_mem k) T va = kpte data va }.

Lemma image_page k l d T U sz guard f n : image k l d T U sz guard f → 0 ≤ n → n * PGSIZE < sz →
  ∃ q, U !! n = Some q ∧ page_ok kend q ∧ (q ∉ tpages d T) ∧ (q ∉ l) ∧ q ∈ l0 ∧ (∀ n', U !! n' = Some q → n' = n).
Proof.
  intros Him Hn0 Hn. destruct (im_dom _ _ _ _ _ _ _ _ Him n) as [_ Hd]. destruct (Hd (conj Hn0 Hn)) as [q Hq].
  exists q. destruct (im_inv _ _ _ _ _ _ _ _ Him) as (Hk & _ & Hnd & HU & _). destruct (HU _ _ Hq) as [Hp _].
  assert (q ∈ vals U) as Hv by by eapply elem_of_vals.
  apply list.NoDup_app in Hnd as (_ & Hd1 & Hnd). apply list.NoDup_app in Hnd as (HndU & Hd2 & _). split_and!; [done|done|..].
  - intros Ht. apply (Hd1 q Ht), elem_of_app. by left.
  - by apply Hd2.
  - rewrite <- (im_acc _ _ _ _ _ _ _ _ Him), !elem_of_app. auto.
  - intros n' Hn'. destruct (decide (n' = n)) as [|Hne]; [done|]. exfalso.
    rewrite (vals_delete U n q Hq) in HndU. apply NoDup_cons in HndU as [Hnin _]. apply Hnin.
    apply (elem_of_vals _ n'). by rewrite lookup_delete_ne.
Qed.
Lemma image_free k l d T U sz guard f : image k l d T U sz guard f →
  (length l0 ≤ 1025 + Z.to_nat (sz / PGSIZE + 1) + length l)%nat.
Proof.
  intros Him. rewrite <- (im_acc _ _ _ _ _ _ _ _ Him), !length_app. unfold tpages. cbn [length].
  destruct (im_inv _ _ _ _ _ _ _ _ Him) as (_ & Hs & _). pose proof (tables_bound _ _ _ _ Hs).
  assert (length (vals U) ≤ Z.to_nat (sz / PGSIZE + 1))%nat; [|lia].
  unfold vals. rewrite length_fmap, <- (length_fmap fst). pose proof (im_size _ _ _ _ _ _ _ _ Him) as Hsz.
  assert (0 ≤ sz / PGSIZE) by (apply Z.div_pos; [lia|done]).
  replace (Z.to_nat (sz / PGSIZE + 1)) with (length (seqZ 0 (sz / PGSIZE + 1))) by (rewrite length_seqZ; lia).
  apply submseteq_length, NoDup_submseteq; [apply NoDup_fst_map_to_list|].
  intros n ([n' q] & -> & Hn)%list_elem_of_fmap. apply elem_of_map_to_list in Hn. cbn [fst].
  destruct (im_dom _ _ _ _ _ _ _ _ Him n') as [Hd _]. destruct (Hd (ex_intro _ _ Hn)). apply elem_of_seqZ.
  unfold PGSIZE in *. Z.div_mod_to_equations; lia.
Qed.

(** The bytes [bs] are stored in the user page [n]. *)
Lemma image_write k l d T U sz guard f n q o bs m' : image k l d T U sz guard f → U !! n = Some q →
  0 ≤ o → o + Z.of_nat (length bs) ≤ PGSIZE → Forall byte_ok bs → (∀ a, m' a = put_at (q + o) bs (km_mem k) a) →
  image (set_km_mem m' k) l d T U sz guard (put_at (n * PGSIZE + o) bs f).
Proof.
  intros Him Hq Ho Hlen Hbs Hm'. pose proof Him as [Hi Hacc Hkeep Hsz Hdom Hpte Hmem Hz Hker].
  pose proof Hi as (Hk & Hs & Hnd & HU & Hus). destruct (HU _ _ Hq) as [Hp _].
  destruct (proj1 (Hdom n) (ex_intro _ q Hq)) as [Hn0 Hn].
  destruct (image_page _ _ _ _ _ _ _ _ n Him Hn0 Hn) as (q' & Hq' & _ & HqT & Hql & Hq0 & Huniq). simplify_eq.
  assert (keeps kend [q] (km_mem k) m') as Hkq.
  { intros p x Hpp Hnin Hx. rewrite Hm'. apply put_at_out. destruct (decide (in_page q x)) as [Hxq|Hxq].
    - exfalso. apply Hnin. rewrite (page_ok_disjoint kend p q x); [apply list_elem_of_here|done..].
    - unfold in_page, PGSIZE in *. lia. }
  assert (∀ va, pte m' T va = pte (km_mem k) T va) as Hpt.
  { intros va. apply (pte_keeps kend [q] _ _ d); [done|done|]. intros pt Hpt ->%list_elem_of_singleton. apply HqT. by right. }
  split; cbn [set_km_mem km_mem].
  - split_and!.
    + apply (rep_keeps kend k l [q]); [done| |done|].
      * intros a. rewrite Hm'. unfold put_at. destruct (_ && _); [|apply Hk].
        destruct (bs !! _) as [b|] eqn:E; [|done]. exact (Forall_lookup_1 _ _ _ _ Hbs E).
      * intros p Hpl ->%list_elem_of_singleton. done.
    + apply (space_keeps kend [q] (km_mem k)); [done| |done]. intros ->%list_elem_of_singleton. apply HqT. apply list_elem_of_here.
    + done.
    + split; [done|]. intros va Ha Hr. rewrite Hpt. by apply Hus.
  - done.
  - eapply pages_trans; [exact Hkeep|]. eapply pages_mono; [|exact Hkq]. intros x ->%list_elem_of_singleton. done.
  - done.
  - done.
  - intros n' q' Hq2. rewrite Hpt. by apply Hpte.
  - intros n' q' o' Hq2 Ho'. rewrite Hm'. destruct (HU _ _ Hq2) as [Hp2 _].
    destruct (decide (n' = n)) as [->|Hne].
    + simplify_eq. unfold put_at. rewrite (Hmem n q o') by done.
      assert (q + o' - (q + o) = n * PGSIZE + o' - (n * PGSIZE + o)) as -> by lia.
      destruct (Z.leb_spec (q + o) (q + o')), (Z.leb_spec (n * PGSIZE + o) (n * PGSIZE + o')); try lia; [|done].
      destruct (Z.ltb_spec (q + o') (q + o + Z.of_nat (length bs))), (Z.ltb_spec (n * PGSIZE + o') (n * PGSIZE + o + Z.of_nat (length bs))); try lia; done.
    + rewrite !put_at_out; [by apply Hmem| |].
      * destruct (decide (n' < n)); [left|right]; unfold PGSIZE in *; nia.
      * destruct (decide (in_page q (q' + o'))) as [Hx|Hx]; [|unfold in_page, PGSIZE in *; lia].
        exfalso. apply Hne, Huniq. rewrite (page_ok_disjoint kend q q' (q' + o')); [done..|unfold in_page; lia].
  - intros a Ha. rewrite put_at_out; [by apply Hz|]. right. unfold PGSIZE in *. Z.div_mod_to_equations; lia.
  - intros va Hva Hb. rewrite Hpt. by apply Hker.
Qed.

Lemma image_setup : kmem_rep kend k0 l0 → (1025 < length l0)%nat →
  ∃ d k T l, setupkvm data k0 = Ret (d, k) ∧ d ≠ 0 ∧ image k l d T ∅ 0 (-1) (λ _, 0).
Proof using Hkend Hdata.
  intros Hk Hlen. destruct (setupkvm_spec kend Hkend data Hdata k0 l0 Hk) as (d & k & E & Hkp & [(_ & _ & ?)|(Hnz & l & T & Hi & Hacc & Hpte)]); [lia|].
  exists d, k, T, l. split_and!; [done..|]. pose proof Hi as (Hk' & Hs & Hnd).
  assert (vals ∅ = []) as Hv by (unfold vals; by rewrite map_to_list_empty).
  split; [|by rewrite Hv|done|done| |done|done|done|by intros; apply Hpte].
  - split_and!; [done|done|by rewrite Hv|]. split; [apply map_Forall_empty|]. intros va Ha Hr. rewrite lookup_empty, Hpte by by apply vpn_word.
    rewrite kpte_user; [done|done|by apply vpn_word|lia].
  - intros n. rewrite lookup_empty. split; [intros [? ?]; done|unfold PGSIZE; lia].
Qed.
(** [allocuvm] with enough free pages. *)
Definition enough (sz : Z) : Prop := (1025 + 3 * Z.to_nat (sz / PGSIZE + 2) ≤ length l0)%nat.
Lemma enough_mono sz' sz : sz ≤ sz' → enough sz' → enough sz.
Proof.
  unfold enough. intros Hle He. assert (sz / PGSIZE ≤ sz' / PGSIZE) by (apply Z.div_le_mono; [done|lia]). lia.
Qed.
Lemma image_alloc k l d T U sz newsz f : image k l d T U sz (-1) f → 0 ≤ newsz → (newsz < KERNBASE → enough newsz) →
  (KERNBASE ≤ newsz ∧ allocuvm kend d sz newsz k = Ret (0, k)) ∨
  newsz < KERNBASE ∧ ∃ k' l' T' U', allocuvm kend d sz newsz k = Ret (Z.max sz newsz, k') ∧ image k' l' d T' U' (Z.max sz newsz) (-1) f.
Proof using Hkend Hdata.
  intros Him Hnew Hen. unfold allocuvm. destruct (Z.leb_spec KERNBASE newsz) as [Hge|Hlt]; [by left|right]. split; [done|].
  destruct (Z.ltb_spec newsz sz) as [Hs|Hs]; [exists k, l, T, U; rewrite Z.max_l by lia; done|]. rewrite Z.max_r by lia.
  pose proof (im_size _ _ _ _ _ _ _ _ Him) as Hsz. pose proof (image_free _ _ _ _ _ _ _ _ Him) as Hfree. specialize (Hen Hlt).
  destruct (PGROUNDUP_spec sz) as [Ha Hr]; [unfold KERNBASE, PGSIZE in *; lia|]. set (a := PGROUNDUP sz) in *.
  set (x := (newsz - a) / PGSIZE). assert (newsz - a < (x + 1) * PGSIZE ∧ -1 ≤ x ∧ x + sz / PGSIZE ≤ newsz / PGSIZE ∧ 0 ≤ sz / PGSIZE) as (Hx1 & Hx2 & Hx3 & Hx4).
  { unfold x, PGSIZE in *. Z.div_mod_to_equations; lia. }
  destruct (allocuvm_loop_spec kend Hkend d sz newsz (S (Z.to_nat x)) (Z.lt_le_incl _ _ Hlt) a k l T U)
    as (k' & l' & T' & U' & E & Hi' & Hacc & Hkp & Hg1 & Hg2 & Hg3).
  - apply (im_inv _ _ _ _ _ _ _ _ Him).
  - exact Ha.
  - lia.
  - unfold PGSIZE in *. lia.
  - unfold enough in Hen. lia.
  - intros n Hn. destruct (U !! n) eqn:E; [|done]. exfalso. destruct (im_dom _ _ _ _ _ _ _ _ Him n) as [Hd _].
    destruct (Hd (ex_intro _ _ E)). unfold in_range in Hn. apply andb_true_iff in Hn as [Hn1%Z.leb_le _].
    unfold aligned, PGSIZE in *. Z.div_mod_to_equations; lia.
  - fold x. exists k', l', T', U'. split; [exact E|].
    pose proof Him as [Hi0 Hacc0 Hkeep0 _ Hdom0 Hpte0 Hmem0 Hz0 Hker0].
    assert (∀ n, 0 ≤ n → in_range a newsz n = true ↔ sz ≤ n * PGSIZE ∧ n * PGSIZE < newsz) as Hir.
    { intros n Hn0. unfold in_range. rewrite andb_true_iff, Z.leb_le, Z.ltb_lt. clear -Ha Hr. unfold PGSIZE in *. Z.div_mod_to_equations; lia. }
    assert (∀ n q, in_range a newsz n = false → U' !! n = Some q → U !! n = Some q ∧ (q ∉ tpages d T ++ l) ∧ page_ok kend q ∧ 0 ≤ n < KERNBASE / PGSIZE) as Hold.
    { intros n q Hn Hq. rewrite Hg2 in Hq by done. split; [done|]. destruct Hi0 as (_ & _ & Hnd & HU & _).
      destruct (HU _ _ Hq) as [Hp Hb]. split_and!; [|done|lia|lia]. assert (q ∈ vals U) by by eapply elem_of_vals.
      apply list.NoDup_app in Hnd as (_ & Hd1 & Hnd). apply list.NoDup_app in Hnd as (_ & Hd2 & _).
      rewrite elem_of_app. intros [Ht|Hl]; [apply (Hd1 q Ht), elem_of_app; by left|by apply (Hd2 q)]. }
    split; [done|by rewrite Hacc| |lia|..].
    + eapply pages_trans; [exact Hkeep0|]. eapply pages_mono; [|exact Hkp]. intros y. rewrite <- Hacc0, !elem_of_app. tauto.
    + intros n. destruct (in_range a newsz n) eqn:En.
      * destruct (Hg1 n En) as (q & Hq & _). rewrite Hq. split; [intros _|eauto]. destruct Hi' as (_ & _ & _ & HU' & _).
        destruct (HU' _ _ Hq) as [_ Hb]. apply Hir in En; lia.
      * rewrite Hg2 by done. rewrite Hdom0. split; [lia|]. intros [Hn0 Hn]. split; [done|].
        destruct (Z.lt_ge_cases (n * PGSIZE) sz); [done|]. exfalso. apply not_true_iff_false in En. apply En, Hir; lia.
    + intros n q Hq. destruct (in_range a newsz n) eqn:En.
      * destruct (Hg1 n En) as (q' & Hq' & _ & _ & Hp). simplify_eq. rewrite Hp.
        destruct Hi' as (_ & _ & _ & HU' & _). destruct (HU' _ _ Hq) as [_ Hb]. rewrite (proj2 (Z.eqb_neq n (-1))) by lia. done.
      * destruct (Hold n q En Hq) as (HqU & _ & _ & Hb). rewrite Hg3; [by apply Hpte0| |].
        -- apply vpn_word. unfold KERNBASE, PGSIZE in *. Z.div_mod_to_equations; lia.
        -- rewrite Z.div_mul by done. done.
    + intros n q o Hq Ho. destruct (in_range a newsz n) eqn:En.
      * destruct (Hg1 n En) as (q' & Hq' & _ & H0 & _). simplify_eq. rewrite H0 by (unfold in_page; lia).
        destruct Hi' as (_ & _ & _ & HU' & _). destruct (HU' _ _ Hq) as [_ Hb]. symmetry. apply Hz0.
        apply Hir in En; [|lia]. rewrite Z.div_add_l, Z.div_small, Z.add_0_r by (done || lia). lia.
      * destruct (Hold n q En Hq) as (HqU & Hnin & Hp & _). rewrite (Hkp q (q + o)); [by apply Hmem0|done|done|unfold in_page; lia].
    + intros y Hy. apply Hz0. lia.
    + intros va Hva Hb. rewrite Hg3; [by apply Hker0|done|]. unfold in_range. apply andb_false_intro2, Z.ltb_ge.
      unfold KERNBASE, PGSIZE in *. Z.div_mod_to_equations; lia.
Qed.

(** [uva2ka] of a user page. *)
Lemma image_pte k l d T U sz guard f n : image k l d T U sz guard f → 0 ≤ n → n * PGSIZE < sz →
  ∃ q pt, U !! n = Some q ∧ page_ok kend q ∧ T !! PDX (n * PGSIZE) = Some pt ∧
    walkpgdir d (n * PGSIZE) false k = (pt + 4 * PTX (n * PGSIZE), k) ∧ pt + 4 * PTX (n * PGSIZE) ≠ 0 ∧
    load32 (km_mem k) (pt + 4 * PTX (n * PGSIZE)) = v2p q + (if n =? guard then 3 else 7) ∧
    0 ≤ n * PGSIZE < KERNBASE.
Proof using Hkend.
  intros Him Hn0 Hn. destruct (image_page _ _ _ _ _ _ _ _ n Him Hn0 Hn) as (q & Hq & Hp & _).
  pose proof (im_size _ _ _ _ _ _ _ _ Him) as Hsz. assert (0 ≤ n * PGSIZE < KERNBASE) as Hr by (unfold PGSIZE in *; lia).
  pose proof (im_inv _ _ _ _ _ _ _ _ Him) as (_ & Hs & _ & Hus).
  assert (n * PGSIZE / PGSIZE = n) as En by by apply Z.div_mul.
  destruct (mapped_table kend Hkend (km_mem k) T U (n * PGSIZE) q) as [pt Hpt];
    [done|unfold aligned; by apply Z.mod_mul|done|by rewrite En|].
  exists q, pt. split_and!; [done|done|done| | | |lia|lia].
  - by apply (walk_hit kend Hkend k d T).
  - destruct Hs as [_ Ht _]. destruct (Ht _ _ Hpt) as [_ (_ & Hk & _)]. pose proof (PTX_range (n * PGSIZE)). unfold KERNBASE in *. lia.
  - pose proof (im_pte _ _ _ _ _ _ _ _ Him n q Hq) as E. unfold pte in E. by rewrite Hpt in E.
Qed.
(** The bits of a page address and of its flags. *)
Lemma page_bits x : x mod 4096 = 0 → 0 ≤ x < 2 ^ 32 →
  (∀ c, 0 ≤ c < 4096 → Z.land x c = 0) ∧ Z.land x (u32 (Z.lnot PTE_U)) = x.
Proof.
  intros Hm Hr. assert (x = Z.shiftl (x / 4096) 12) as Ex.
  { rewrite Z.shiftl_mul_pow2 by lia. change (2 ^ 12) with 4096. Z.div_mod_to_equations; lia. }
  assert (∀ i, i < 12 → Z.testbit x i = false) as Hlow by (intros i Hi; rewrite Ex; by apply Z.shiftl_spec_low).
  assert (∀ (n : nat) c i, 0 ≤ c < 2 ^ Z.of_nat n → Z.of_nat n ≤ i → Z.testbit c i = false) as Hhigh.
  { intros n c i Hc Hi. destruct (Z.eq_dec c 0) as [->|]; [apply Z.testbit_0_l|]. apply Z.bits_above_log2; [lia|].
    assert (Z.log2 c < Z.of_nat n) by (apply Z.log2_lt_pow2; lia). lia. }
  split.
  - intros c Hc. apply Z.bits_inj'. intros i Hi. rewrite Z.land_spec, Z.testbit_0_l. destruct (Z.lt_ge_cases i 12) as [Hl|Hl].
    + by rewrite Hlow.
    + rewrite (Hhigh 12%nat c i) by (simpl; lia). apply andb_false_r.
  - change (u32 (Z.lnot PTE_U)) with (Z.ldiff (Z.ones 32) 4). apply Z.bits_inj'. intros i Hi. rewrite Z.land_spec, Z.ldiff_spec.
    destruct (Z.lt_ge_cases i 12) as [Hl|Hl]; [by rewrite Hlow|]. rewrite (Hhigh 12%nat 4 i) by (simpl; lia).
    destruct (Z.lt_ge_cases i 32) as [Hl2|Hl2]; [rewrite Z.ones_spec_low by lia; apply andb_true_r|].
    by rewrite (Hhigh 32%nat x i) by (simpl; lia).
Qed.
Lemma page_flags q (fl : Z) : page_ok kend q → fl = 3 ∨ fl = 7 →
  PTE_ADDR (v2p q + fl) = v2p q ∧ Z.land (v2p q + fl) PTE_P = 1 ∧ Z.land (v2p q + fl) PTE_U = (if fl =? 3 then 0 else 4) ∧
  Z.land (v2p q + fl) (u32 (Z.lnot PTE_U)) = v2p q + 3 ∧ p2v (v2p q) = q ∧ 0 ≤ v2p q < 2 ^ 31.
Proof using Hkend.
  intros Hp Hf. destruct (v2p_page kend Hkend q Hp) as (E & Hr & Hm). assert (0 ≤ fl < PGSIZE) by (unfold PGSIZE; lia).
  assert (0 ≤ v2p q < 2 ^ 32) as Hr' by (unfold PHYSTOP in *; lia). destruct (page_bits (v2p q) Hm Hr') as [Hb1 Hb2].
  assert (∀ c, Z.land (v2p q + fl) c = Z.lor (Z.land (v2p q) c) (Z.land fl c)) as Hd.
  { intros c. rewrite <- (lor_low (v2p q) fl) by done. apply Z.land_lor_distr_l. }
  split_and!; [by apply (PTE_ADDR_entry kend)|..|by apply (p2v_v2p kend)|lia|unfold PHYSTOP in *; lia].
  - rewrite Hd, Hb1 by done. by destruct Hf as [-> | ->].
  - rewrite Hd, Hb1 by done. by destruct Hf as [-> | ->].
  - rewrite Hd, Hb2. destruct Hf as [-> | ->]; (rewrite <- (lor_low (v2p q) 3); [done..]).
Qed.
(** What user code reads. *)
Lemma image_umem k l d T U sz guard f a : image k l d T U sz guard f → 0 ≤ a < sz → umem k d a = f a.
Proof using Hkend.
  intros Him Ha. set (n := a / PGSIZE). assert (a = n * PGSIZE + a mod PGSIZE) as Ea by (unfold n, PGSIZE; Z.div_mod_to_equations; lia).
  assert (0 ≤ a mod PGSIZE < PGSIZE) as Ho by by apply Z.mod_pos_bound.
  destruct (image_pte _ _ _ _ _ _ _ _ n Him) as (q & pt & Hq & Hp & Hpt & _ & _ & El & Hr); [unfold PGSIZE in *; lia..|].
  pose proof (im_size _ _ _ _ _ _ _ _ Him) as Hsz.
  assert (PDX a = PDX (n * PGSIZE) ∧ PTX a = PTX (n * PGSIZE)) as [Ed Et].
  { rewrite !PDX_div, !PTX_div, !u32_small by (unfold KERNBASE in *; lia). unfold n, PGSIZE. split; Z.div_mod_to_equations; lia. }
  unfold umem, kaddr. destruct (im_inv _ _ _ _ _ _ _ _ Him) as (_ & Hs & _).
  rewrite (walk_hit kend Hkend k d T a pt false Hs) by (by rewrite Ed). cbn [fst]. rewrite Et, El.
  destruct (page_flags q (if n =? guard then 3 else 7) Hp ltac:(destruct (n =? guard); auto)) as (-> & _ & _ & _ & -> & _).
  change 0xFFF with (Z.ones 12). rewrite Z.land_ones by lia. change (2 ^ 12) with PGSIZE.
  rewrite (im_mem _ _ _ _ _ _ _ _ Him n q (a mod PGSIZE) Hq Ho). by rewrite <- Ea.
Qed.
Lemma image_clear k l d T U sz f n : image k l d T U sz (-1) f → 0 ≤ n → n * PGSIZE < sz →
  ∃ k', clearpteu d (n * PGSIZE) k = Ret k' ∧ image k' l d T U sz n f.
Proof using Hkend.
  intros Him Hn0 Hn. destruct (image_pte _ _ _ _ _ _ _ _ n Him Hn0 Hn) as (q & pt & Hq & Hp & Hpt & Ew & Hnz & El & Hr).
  unfold clearpteu. rewrite Ew, (proj2 (Z.eqb_neq _ _)) by done. rewrite El, (proj2 (Z.eqb_neq n (-1))) by lia.
  destruct (page_flags q 7 Hp ltac:(by right)) as (_ & _ & _ & -> & _ & Hv).
  eexists. split; [reflexivity|]. pose proof Him as [Hi Hacc Hkeep Hsz Hdom Hpte Hmem Hz Hker].
  assert (word_ok (n * PGSIZE)) as Hw by by apply vpn_word.
  destruct (store_pte kend Hkend k l d T (n * PGSIZE) pt (v2p q + 3)) as (Hi' & Hkp & Hpt'); [by eapply uinv_inv|done|done|].
  pose proof Hi as (Hk & Hs & Hnd & HU & Hus). pose proof Hi' as (Hk' & Hs' & _).
  rewrite (u32_small (v2p q + 3)) in Hpt' by lia. rewrite Z.div_mul in Hpt' by done.
  assert (∀ n' q', U !! n' = Some q' → word_ok (n' * PGSIZE)) as Hwn.
  { intros n' q' Hq'. apply HU in Hq' as [_ Hb]. apply vpn_word. unfold KERNBASE, PGSIZE in *. Z.div_mod_to_equations; lia. }
  split; [|done| |done|done| | |done|].
  - split_and!; [done|done|done|]. split; [done|]. intros va Ha Hb. rewrite Hpt' by by apply vpn_word.
    destruct (Z.eqb_spec (va / PGSIZE) n) as [E|Hne]; [|by apply Hus]. rewrite E, Hq. exists 3. done.
  - eapply pages_trans; [exact Hkeep|]. eapply pages_mono; [|exact Hkp]. intros x Hx. rewrite <- Hacc, elem_of_app. by left.
  - intros n' q' Hq'. rewrite Hpt' by by eapply Hwn. rewrite Z.div_mul by done. destruct (Z.eqb_spec n' n) as [->|Hne]; [congruence|].
    rewrite (Hpte n' q' Hq'). apply HU in Hq' as [_ Hb]. by rewrite (proj2 (Z.eqb_neq n' (-1))) by lia.
  - intros n' q' o Hq' Ho. rewrite <- (Hmem n' q' o) by done. apply (Hkp q'); [by apply HU in Hq' as [? _]| |unfold in_page; lia].
    intros Ht. apply list.NoDup_app in Hnd as (_ & Hd1 & _). apply (Hd1 q' Ht), elem_of_app. left. by eapply elem_of_vals.
  - intros va Hva Hb. rewrite Hpt' by done. destruct (Z.eqb_spec (va / PGSIZE) n) as [E|Hne]; [|by apply Hker].
    exfalso. unfold KERNBASE, PGSIZE in *. Z.div_mod_to_equations; lia.
Qed.

(** [copyout] to one page of the stack. *)
Lemma image_uva2ka k l d T U sz guard f n : image k l d T U sz guard f → 0 ≤ n → n * PGSIZE < sz →
  ∃ q, U !! n = Some q ∧ page_ok kend q ∧ uva2ka d (n * PGSIZE) k = Ret (if n =? guard then 0 else q).
Proof using Hkend.
  intros Him Hn0 Hn. destruct (image_pte _ _ _ _ _ _ _ _ n Him Hn0 Hn) as (q & pt & Hq & Hp & Hpt & Ew & Hnz & El & Hr).
  exists q. split_and!; [done|done|]. unfold uva2ka. rewrite Ew, (proj2 (Z.eqb_neq _ _)) by done. rewrite El.
  destruct (Z.eqb_spec n guard) as [->|Hne].
  - destruct (page_flags q 3 Hp ltac:(by left)) as (-> & -> & -> & _ & -> & _). done.
  - destruct (page_flags q 7 Hp ltac:(by right)) as (-> & -> & -> & _ & -> & _). done.
Qed.
Lemma image_copyout k l d T U sz guard f n o bs : image k l d T U sz guard f → 0 ≤ n → n * PGSIZE < sz →
  0 ≤ o < PGSIZE → bs ≠ [] → (n ≠ guard → o + Z.of_nat (length bs) ≤ PGSIZE) → Forall byte_ok bs →
  if n =? guard then copyout d (n * PGSIZE + o) bs k = Ret (-1, k)
  else ∃ k', copyout d (n * PGSIZE + o) bs k = Ret (0, k') ∧ image k' l d T U sz guard (put_at (n * PGSIZE + o) bs f).
Proof using Hkend.
  intros Him Hn0 Hn Ho Hne Hlen Hbs. destruct (image_uva2ka _ _ _ _ _ _ _ _ n Him Hn0 Hn) as (q & Hq & Hp & Eu).
  pose proof (im_size _ _ _ _ _ _ _ _ Him) as Hsz. assert (0 < Z.of_nat (length bs)) as Hb by (destruct bs; simpl; [done|lia]).
  assert (PGROUNDDOWN (n * PGSIZE + o) = n * PGSIZE) as Er.
  { rewrite PGROUNDDOWN_div, u32_small by (unfold KERNBASE, PGSIZE in *; lia). unfold PGSIZE in *. Z.div_mod_to_equations; lia. }
  unfold copyout. cbn [copyout_loop]. rewrite (proj2 (Z.ltb_lt _ _)) by done. rewrite Er, Eu.
  destruct (Z.eqb_spec n guard) as [->|Hng]; [by rewrite Z.eqb_refl|]. specialize (Hlen Hng).
  rewrite (proj2 (Z.eqb_neq _ _)) by (by apply (page_nonzero kend)).
  replace (n * PGSIZE + o - n * PGSIZE) with o by lia. rewrite (u32_small (PGSIZE - o)) by (unfold PGSIZE in *; lia).
  rewrite Z.min_r, Nat2Z.id, drop_all by lia. cbn [length]. change (0 <? Z.of_nat 0) with false.
  eexists. split; [reflexivity|]. apply (image_write k l d T U sz guard f n q o bs); [done|done|lia|done|done|].
  intros a. unfold put_at, within. done.
Qed.
Lemma image_round k l d T U sz f : image k l d T U sz (-1) f → PGROUNDUP sz < KERNBASE → image k l d T U (PGROUNDUP sz) (-1) f.
Proof.
  intros [H1 H2 H3 H4 H5 H6 H7 H8 H9] Hlt. destruct (PGROUNDUP_spec sz) as [Ha Hr]; [unfold KERNBASE, PGSIZE in *; lia|].
  split; [done..|lia| |done|done| |done].
  - intros n. rewrite H5. unfold PGSIZE in *. Z.div_mod_to_equations; lia.
  - intros a Hz. apply H8. lia.
Qed.
Lemma image_ext k l d T U sz guard f f' : (∀ a, f a = f' a) → image k l d T U sz guard f → image k l d T U sz guard f'.
Proof.
  intros Hf [H1 H2 H3 H4 H5 H6 H7 H8 H9]. split; [done..| | |done].
  - intros n q o Hq Ho. rewrite <- Hf. by apply H7.
  - intros a Ha. rewrite <- Hf. by apply H8.
Qed.
End image.
Lemma put_at_app dst bs bs' f a : put_at (dst + Z.of_nat (length bs)) bs' (put_at dst bs f) a = put_at dst (bs ++ bs') f a.
Proof.
  unfold put_at at 1. destruct (Z.leb_spec (dst + Z.of_nat (length bs)) a), (Z.ltb_spec a (dst + Z.of_nat (length bs) + Z.of_nat (length bs'))); simpl.
  - rewrite put_at_in by (rewrite length_app; lia). rewrite lookup_app_r by lia. do 2 f_equal. lia.
  - rewrite !put_at_out; [done|rewrite length_app; lia|lia].
  - destruct (Z.lt_ge_cases a dst); [rewrite !put_at_out by lia; done|]. rewrite !put_at_in by (rewrite ?length_app; lia). by rewrite lookup_app_l by lia.
  - destruct (Z.lt_ge_cases a dst); [rewrite !put_at_out by lia; done|]. rewrite !put_at_in by (rewrite ?length_app; lia). by rewrite lookup_app_l by lia.
Qed.

(** ** Reading the file *)
Lemma length_slice C off n : 0 ≤ off → 0 ≤ n → off + n ≤ Z.of_nat (length C) → Z.of_nat (length (slice C off n)) = n.
Proof. intros. unfold slice. rewrite length_take, length_drop. lia. Qed.
Lemma slice_ok C off n : Forall byte_ok C → Forall byte_ok (slice C off n).
Proof. intros H. by apply Forall_take, Forall_drop. Qed.
Lemma slice_split C off n m : 0 ≤ off → 0 ≤ n → 0 ≤ m → slice C off (n + m) = slice C off n ++ slice C (off + n) m.
Proof.
  intros. unfold slice. rewrite !Z2Nat.inj_add by lia. rewrite <- drop_drop. by rewrite take_take_drop.
Qed.
Lemma file_read_in C off n : 0 ≤ off → 0 ≤ n → off + n ≤ Z.of_nat (length C) → Z.of_nat (length C) < 2 ^ 31 →
  file_read C off n = (n, slice C off n).
Proof.
  intros. unfold file_read. rewrite u32_small by lia. rewrite (proj2 (Z.ltb_ge _ off)), (proj2 (Z.ltb_ge _ off)) by lia.
  cbn [orb]. by rewrite (proj2 (Z.ltb_ge _ _)) by lia.
Qed.
(** A read beyond the end returns less. *)
Lemma file_read_short C off n r bs : file_read C off n = (r, bs) → 0 ≤ off → 0 ≤ n < 2 ^ 31 → Z.of_nat (length C) < off + n →
  Z.of_nat (length C) < 2 ^ 31 → word_ok off → u32 r ≠ n ∧ (r < n) ∧ Z.of_nat (length bs) ≤ n ∧ (Forall byte_ok C → Forall byte_ok bs).
Proof.
  intros E H0 Hn Hs HC Hw. unfold file_read in E. unfold word_ok in Hw.
  destruct (Z.ltb_spec (Z.of_nat (length C)) off); cbn [orb] in E.
  { injection E as <- <-. split_and!; [|lia|simpl; lia|done]. change (u32 (-1)) with (2 ^ 32 - 1). lia. }
  rewrite (u32_small (off + n)) in E by lia. rewrite (proj2 (Z.ltb_ge _ off)) in E by lia.
  rewrite (proj2 (Z.ltb_lt _ _)) in E by lia. injection E as <- <-. rewrite u32_small by lia.
  split_and!; [lia|lia| |intros; by apply slice_ok]. rewrite length_take, length_drop. lia.
Qed.

(** Headers in bytes. *)
Lemma get32_word b o : Forall byte_ok b → word_ok (get32 b o).
Proof.
  intros Hb. assert (∀ o, byte_ok (get8 b o)) as H8.
  { intros o'. unfold get8. destruct (b !! o') eqn:E; [exact (Forall_lookup_1 _ _ _ _ Hb E)|done]. }
  unfold get32, word_ok. pose proof (H8 o). pose proof (H8 (o + 1)%nat). pose proof (H8 (o + 2)%nat). pose proof (H8 (o + 3)%nat).
  unfold byte_ok in *. lia.
Qed.
Lemma get8_filled old b o : (o < length b)%nat → get8 (filled old b) o = get8 b o.
Proof. intros Ho. unfold get8, filled. by rewrite lookup_app_l. Qed.
Lemma get_proghdr_filled old b : length b = 32%nat → get_proghdr (filled old b) = get_proghdr b.
Proof. intros Hb. unfold get_proghdr, get32. rewrite !get8_filled by lia. done. Qed.
Lemma get_elfhdr_filled old b : length b = 52%nat → get_elfhdr (filled old b) = get_elfhdr b.
Proof.
  intros Hb. unfold get_elfhdr, get32, get16. rewrite !get8_filled by lia. f_equal. unfold filled.
  rewrite drop_app_le, take_app_le by (rewrite ?length_drop; lia). done.
Qed.
Lemma proghdr_ranges b : Forall byte_ok b → let ph := get_proghdr b in
  0 ≤ ph_vaddr ph ∧ 0 ≤ ph_memsz ph ∧ 0 ≤ ph_filesz ph ∧ word_ok (ph_off ph).
Proof.
  intros Hb. pose proof (get32_word b 8 Hb). pose proof (get32_word b 20 Hb). pose proof (get32_word b 16 Hb).
  pose proof (get32_word b 4 Hb). unfold word_ok in *. cbn. unfold word_ok. lia.
Qed.

Lemma word_bytes_ok ws : Forall byte_ok (concat (word_bytes <$> ws)).
Proof. induction ws as [|w ws IH]; [constructor|]. repeat (constructor; [apply u8_range|]). exact IH. Qed.
Lemma length_word_bytes ws : length (concat (word_bytes <$> ws)) = (4 * length ws)%nat.
Proof. induction ws as [|w ws IH]; [done|]. cbn [fmap list_fmap concat length app word_bytes]. simpl. rewrite IH. lia. Qed.
Lemma length_main_frame ptrs sp : length (main_frame ptrs sp) = (length ptrs + 4)%nat.
Proof. unfold main_frame. cbn [app length]. rewrite length_app. simpl. lia. Qed.

(** ** The stack *)
(** The state [s] with the memory [k] and the file system [w]. *)
Definition at_ {W} (s : kstate W) (k : kmem) (w : W) : kstate W := with_w w (with_km k s).
Definition arg_ok (a : list Z) : Prop := Z.of_nat (length a) < PGSIZE ∧ Forall byte_ok a.
Section stack.
Context {W : Type} (kend data : Z) (Hkend : KERNBASE < kend) (Hdata : aligned data ∧ KERNLINK < data < KERNBASE + PHYSTOP).
Context (k0 : kmem) (l0 : list Z).
Abbreviation image := (image kend data k0 l0).
Context (s : kstate W) (w : W) (l : list Z) (d : Z) (T U : gmap Z Z) (n : Z).
(** The size is [n + 2] pages; page [n] is the guard, the next one the stack. *)
Abbreviation low := ((n + 1) * PGSIZE).
Abbreviation top := ((n + 2) * PGSIZE).
Context (Hn : 0 ≤ n).
Lemma stack_copyout k f sp bs : image k l d T U top n f → low - PGSIZE ≤ sp → sp + Z.of_nat (length bs) ≤ top → bs ≠ [] → Forall byte_ok bs →
  if sp <? low then copyout d sp bs k = Ret (-1, k)
  else ∃ k', copyout d sp bs k = Ret (0, k') ∧ image k' l d T U top n (put_at sp bs f).
Proof using Hkend Hdata Hn.
  intros Him Hsp Htop Hne Hbs. assert (0 < Z.of_nat (length bs)) as Hb by (destruct bs; simpl; [done|lia]).
  assert (0 ≤ sp / PGSIZE ∧ sp / PGSIZE * PGSIZE < top ∧ sp = sp / PGSIZE * PGSIZE + sp mod PGSIZE ∧ 0 ≤ sp mod PGSIZE < PGSIZE ∧
    (sp / PGSIZE = n ∨ sp / PGSIZE = n + 1) ∧ (sp < low ↔ sp / PGSIZE = n)) as (H1 & H2 & H3 & H4 & H5 & H6).
  { unfold PGSIZE in *. Z.div_mod_to_equations; lia. }
  pose proof (image_copyout kend data Hkend k0 l0 k l d T U top n f (sp / PGSIZE) (sp mod PGSIZE) bs Him H1 H2 H4 Hne) as Hco.
  rewrite <- H3 in Hco. destruct (Z.ltb_spec sp low) as [Hl|Hl].
  - rewrite (proj2 (Z.eqb_eq _ _) (proj1 H6 Hl)) in Hco. apply Hco; [|done]. intros Hc. tauto.
  - rewrite (proj2 (Z.eqb_neq (sp / PGSIZE) n)) in Hco by lia. apply Hco; [|done]. intros _. unfold PGSIZE in *. Z.div_mod_to_equations; lia.
Qed.
Lemma exec_push_spec argv : Forall arg_ok argv → ∀ ptrs sp k f, image k l d T U top n f → low ≤ sp ≤ top → (length ptrs ≤ 32)%nat →
  ∃ o k' f', exec_push d argv ptrs sp (at_ s k w) = Ret (o, at_ s k' w) ∧ image k' l d T U top n f' ∧
    match spec_push low argv ptrs sp f with
    | None => o = None
    | Some (ptrs', sp', f1) => o = Some (ptrs', sp') ∧ f' = f1 ∧ low ≤ sp' ≤ top ∧ (length ptrs' ≤ 32)%nat
    end.
Proof using Hkend Hdata Hn.
  induction 1 as [|a argv [Ha Hab] _ IH]; intros ptrs sp k f Him Hsp Hlen; cbn [exec_push spec_push].
  { exists (Some (ptrs, sp)), k, f. done. }
  pose proof (im_size _ _ _ _ _ _ _ _ _ _ _ _ Him) as Hsz. unfold MAXARG.
  destruct (Z.leb_spec 32 (Z.of_nat (length ptrs))) as [Hm|Hm]; cbn [orb]; [exists None, k, f; done|].
  set (x := sp - (Z.of_nat (length a) + 1)). assert (low - PGSIZE ≤ x ∧ 0 ≤ x < KERNBASE) as [Hx1 Hx2] by (unfold x, KERNBASE, PGSIZE in *; lia).
  assert (Z.land (u32 x) (u32 (Z.lnot 3)) = x / 4 * 4) as ->.
  { rewrite u32_small by (unfold KERNBASE in *; lia). change 3 with (Z.ones 2). apply (land_mask x 2); [lia|unfold KERNBASE in *; lia]. }
  set (sp' := x / 4 * 4). assert (low - PGSIZE ≤ sp' ≤ x) as Hsp' by (unfold sp', PGSIZE in *; Z.div_mod_to_equations; lia).
  pose proof (stack_copyout k f sp' (a ++ [0]) Him ltac:(lia)) as Hco.
  unfold bind at 1. unfold on_km, zoom. cbn [k_km at_ with_w with_km].
  destruct (Z.ltb_spec sp' low) as [Hl|Hl].
  - rewrite Hco; [exists None, k, f; done|rewrite length_app; simpl; unfold x in *; lia|by destruct a|].
    apply Forall_app. split; [done|]. by repeat constructor.
  - destruct Hco as (k' & -> & Him'); [rewrite length_app; simpl; unfold x in *; lia|by destruct a| |].
    { apply Forall_app. split; [done|]. by repeat constructor. }
    rewrite (proj2 (Z.ltb_ge 0 0)) by lia.
    apply (IH (ptrs ++ [sp']) sp' k' _ Him'); [unfold x in *; lia|rewrite length_app; simpl; lia].
Qed.
End stack.
Lemma exec_stack_spec {W} kend data k0 l0 (s : kstate W) w k l d T U sz f argv : KERNBASE < kend →
  aligned data ∧ KERNLINK < data < KERNBASE + PHYSTOP → image kend data k0 l0 k l d T U sz (-1) f → Forall arg_ok argv →
  enough l0 (sz + 3 * PGSIZE) →
  ∃ o k' l' T' U' sz' g f', exec_stack kend d sz argv (at_ s k w) = Ret (o, at_ s k' w) ∧ image kend data k0 l0 k' l' d T' U' sz' g f' ∧
    match spec_stack sz argv f with
    | None => o = None
    | Some (sz1, sp, f1) => o = Some (sz1, sp) ∧ sz' = sz1 ∧ g = sz1 / PGSIZE - 2 ∧ f' = f1
    end.
Proof.
  intros Hkend Hdata Him Hargs Hen. pose proof (im_size _ _ _ _ _ _ _ _ _ _ _ _ Him) as Hsz.
  destruct (PGROUNDUP_spec sz) as [Ha Hr]; [unfold KERNBASE, PGSIZE in *; lia|].
  unfold exec_stack, spec_stack. cbv zeta. set (top := PGROUNDUP sz + 2 * PGSIZE).
  rewrite (u32_small top) by (unfold top, KERNBASE, PGSIZE in *; lia). unfold bind at 1. unfold on_km at 1, zoom at 1. cbn [k_km at_ with_w with_km].
  destruct (Z.leb_spec KERNBASE top) as [Hge|Hlt].
  { unfold allocuvm at 1. rewrite (proj2 (Z.leb_le _ _)) by done. exists None, k, l, T, U, sz, (-1), f. done. }
  assert (image kend data k0 l0 k l d T U (PGROUNDUP sz) (-1) f) as Hrd by (apply image_round; [done|unfold top, PGSIZE in *; lia]).
  destruct (image_alloc kend data Hkend Hdata k0 l0 k l d T U (PGROUNDUP sz) top f Hrd) as [[? _]|(_ & k1 & l1 & T1 & U1 & -> & Him1)];
    [unfold top, PGSIZE in *; lia| |lia|].
  { intros _. eapply enough_mono; [|exact Hen]. unfold top, PGSIZE in *. lia. }
  rewrite Z.max_r in Him1 |- * by (unfold top, PGSIZE; lia). rewrite (proj2 (Z.eqb_neq top 0)) by (unfold top, PGSIZE in *; lia).
  set (n := top / PGSIZE - 2). assert (0 ≤ n ∧ top = (n + 2) * PGSIZE) as [Hn Etop].
  { unfold n, top, PGSIZE in *. Z.div_mod_to_equations; lia. }
  replace (u32 (top - 2 * PGSIZE)) with (n * PGSIZE) by (rewrite u32_small; unfold KERNBASE, PGSIZE in *; lia).
  destruct (image_clear kend data Hkend k0 l0 k1 l1 d T1 U1 top f n Him1 Hn) as (k2 & E2 & Him2); [unfold PGSIZE in *; lia|].
  unfold bind at 1. unfold on_km at 1, zoom at 1. cbn [k_km at_ with_w with_km]. rewrite E2.
  replace (top - PGSIZE) with ((n + 1) * PGSIZE) by lia. clearbody n. rewrite Etop in *.
  destruct (exec_push_spec kend data Hkend Hdata k0 l0 s w l1 d T1 U1 n Hn argv Hargs [] ((n + 2) * PGSIZE) k2 f Him2)
    as (o & k3 & f3 & E3 & Him3 & Hres); [unfold PGSIZE; lia|simpl; lia|].
  unfold bind at 1. match goal with |- context [exec_push _ _ _ _ ?st] => change st with (at_ s k2 w) end. rewrite E3.
  destruct (spec_push _ argv _ _ f) as [[[ptrs sp] f1]|]; [|subst o; exists None, k3, l1, T1, U1, ((n + 2) * PGSIZE), n, f3; done].
  destruct Hres as (-> & -> & Hsp & Hlen). set (argc := Z.of_nat (length ptrs)). assert (0 ≤ argc ≤ 32) as Hargc by (unfold argc; lia).
  rewrite (u32_small (sp - (argc + 1) * 4)), (u32_small (sp - (3 + argc + 1) * 4)) by (unfold KERNBASE, PGSIZE in *; lia).
  replace (sp - (3 + argc + 1) * 4) with (sp - 4 * (argc + 4)) by lia.
  change ([4294967295; argc; sp - (argc + 1) * 4] ++ ptrs ++ [0]) with (main_frame ptrs sp).
  set (sp' := sp - 4 * (argc + 4)). set (bs := concat (word_bytes <$> main_frame ptrs sp)).
  assert (Z.of_nat (length bs) = 4 * (argc + 4)) as Hlb by (unfold bs, argc; rewrite length_word_bytes, length_main_frame; lia).
  pose proof (stack_copyout kend data Hkend Hdata k0 l0 l1 d T1 U1 n Hn k3 f1 sp' bs Him3) as Hco.
  unfold bind at 1. unfold on_km, zoom. cbn [k_km at_ with_w with_km].
  destruct (Z.ltb_spec sp' ((n + 1) * PGSIZE)) as [Hl|Hl].
  - rewrite Hco; [exists None, k3, l1, T1, U1, ((n + 2) * PGSIZE), n, f1; done|unfold sp', PGSIZE in *; lia|lia| |apply word_bytes_ok].
    intros E. rewrite E in Hlb. simpl in Hlb. lia.
  - destruct Hco as (k4 & -> & Him4); [unfold sp', PGSIZE in *; lia|lia| |apply word_bytes_ok|].
    { intros E. rewrite E in Hlb. simpl in Hlb. lia. }
    rewrite (proj2 (Z.ltb_ge 0 0)) by lia. eexists _, k4, l1, T1, U1, ((n + 2) * PGSIZE), n, _. split; [reflexivity|].
    split; [exact Him4|]. split_and!; [done|done| |done]. rewrite Z.div_mul by done. lia.
Qed.

(** ** Loading *)
Section load.
Context {W : Type} `{!ExecOps W}.
Context (kend data : Z) (Hkend : KERNBASE < kend) (Hdata : aligned data ∧ KERNLINK < data < KERNBASE + PHYSTOP).
Context (Hend : data ≤ kend).
Context (k0 : kmem) (l0 : list Z) (ph0 : list Z).
(** The file: the inode [ip] has the contents [C] as long as [I] holds. *)
Context (I : W → Prop) (ip : Z) (C : list Z).
Definition reads : Prop := ∀ w off n, I w → word_ok off → 0 ≤ n < 2 ^ 31 →
  ∃ w', eo_readi ip off n w = Ret (file_read C off n, w') ∧ I w'.
Context (Hread : reads) (HC : Forall byte_ok C) (HC31 : Z.of_nat (length C) < 2 ^ 31).
(** The size that the segments below the kernel stay under. *)
Context (lim : Z) (Hlim : 0 ≤ lim ∧ enough l0 (lim + 3 * PGSIZE)).
Abbreviation image := (image kend data k0 l0).

(** A page of the allocator is not text. *)
Lemma free_store q bs : page_ok kend q → kernel_store (W := W) data q bs = upd_mem (put_at q bs).
Proof using Hend. intros (_ & Hq & _). unfold kernel_store. by rewrite (proj2 (Z.ltb_ge q data) (Z.le_trans _ _ _ Hend Hq)), andb_false_r. Qed.
Lemma loaduvm_loop_spec s d T U l sz vaddr off filesz : aligned vaddr → 0 ≤ vaddr → vaddr + filesz ≤ sz → word_ok off →
  ∀ fuel i k w f, image k l d T U sz (-1) f → I w → aligned i → 0 ≤ i →
  (i < filesz → 0 < i → off + i ≤ Z.of_nat (length C)) → filesz - i ≤ Z.of_nat fuel * PGSIZE →
  ∃ r k' w' f', loaduvm_loop data fuel d vaddr ip off filesz i (at_ s k w) = Ret (r, at_ s k' w') ∧ I w' ∧ image k' l d T U sz (-1) f' ∧
    if (i <? filesz) && (Z.of_nat (length C) <? off + filesz) then r = -1
    else r = 0 ∧ ∀ a, f' a = put_at (vaddr + i) (slice C (off + i) (filesz - i)) f a.
Proof using Hkend Hend Hread HC HC31.
  intros Hva Hv0 Hvs Hoff. induction fuel as [|fuel IH]; intros i k w f Him Hw Hi Hi0 Hprev Hf; cbn [loaduvm_loop];
    pose proof (im_size _ _ _ _ _ _ _ _ _ _ _ _ Him) as Hsz;
    (destruct (Z.ltb_spec i filesz) as [Hlt|Hge]; cbn [andb];
     [|exists 0, k, w, f; split_and!; [done..|]; intros a; rewrite put_at_out; [done|]; unfold slice;
       rewrite length_take; lia]); [unfold PGSIZE in *; lia|].
  set (n := (vaddr + i) / PGSIZE). assert (vaddr + i = n * PGSIZE) as En.
  { unfold n, aligned, PGSIZE in *. Z.div_mod_to_equations; lia. }
  destruct (image_pte kend data Hkend k0 l0 _ _ _ _ _ _ _ _ n Him) as (q & pt & Hq & Hp & _ & Ew & Hnz & El & Hr); [unfold PGSIZE in *; lia..|].
  unfold bind at 1. unfold on_km, zoom. cbn [k_km at_ with_w with_km]. rewrite En, (u32_small (n * PGSIZE)) by (unfold KERNBASE in *; lia).
  rewrite Ew, (proj2 (Z.eqb_neq _ _)) by done. unfold bind at 1, gets. cbn [k_km at_ with_w with_km]. rewrite El.
  assert (n ≠ -1) as Hn1 by (unfold PGSIZE in *; lia). rewrite (proj2 (Z.eqb_neq n (-1)) Hn1).
  destruct (page_flags kend Hkend q 7 Hp ltac:(by right)) as (-> & _ & _ & _ & -> & _).
  set (c := if u32 (filesz - i) <? PGSIZE then u32 (filesz - i) else PGSIZE).
  assert (c = Z.min (filesz - i) PGSIZE) as Ec.
  { unfold c. rewrite u32_small by (unfold KERNBASE in *; lia). destruct (Z.ltb_spec (filesz - i) PGSIZE); lia. }
  assert (0 < c ≤ PGSIZE) as Hc by (unfold PGSIZE in *; lia).
  assert (word_ok (off + i)) as Hwi.
  { unfold word_ok in *. destruct (Z.eq_dec i 0) as [->|]; [by rewrite Z.add_0_r|]. specialize (Hprev Hlt). lia. }
  rewrite (u32_small (off + i)) by exact Hwi.
  destruct (Hread w (off + i) c Hw Hwi) as (w' & Er & Hw'); [unfold PGSIZE in *; lia|].
  unfold bind at 1. unfold on_w, zoom. cbn [k_w at_ with_w with_km]. rewrite Er. clear Er.
  assert (∀ bs, Z.of_nat (length bs) ≤ c → Forall byte_ok bs →
    image (set_km_mem (put_at q bs (km_mem k)) k) l d T U sz (-1) (put_at (vaddr + i) bs f)) as Hwr.
  { intros bs Hlen Hbs. rewrite En, <- (Z.add_0_r (n * PGSIZE)). eapply image_write; [done|done|done|lia|done|]. intros a. by rewrite Z.add_0_r. }
  destruct (Z.le_gt_cases (off + i + c) (Z.of_nat (length C))) as [Hin|Hout].
  - rewrite file_read_in by (unfold word_ok in *; lia). set (bs := slice C (off + i) c).
    assert (Z.of_nat (length bs) = c) as Hlb by (apply length_slice; unfold word_ok in *; lia).
    rewrite (free_store q bs Hp). unfold bind at 1. unfold upd_mem, on_km, zoom, modify. cbn [k_km at_ with_w with_km].
    rewrite (u32_small c), Z.eqb_refl by (unfold PGSIZE in *; lia). cbn [negb].
    rewrite (u32_small (i + PGSIZE)) by (unfold KERNBASE, PGSIZE in *; lia).
    destruct (IH (i + PGSIZE) _ w' _ (Hwr bs ltac:(lia) ltac:(by apply slice_ok)) Hw') as (r & k' & w2 & f' & E & Hw2 & Him' & Hres).
    + unfold aligned, PGSIZE in *. Z.div_mod_to_equations; lia.
    + unfold PGSIZE. lia.
    + intros H1 _. lia.
    + unfold PGSIZE in *. lia.
    + exists r, k', w2, f'. split; [exact E|]. split_and!; [done|done|].
      rewrite <- En. destruct (Z.ltb_spec (i + PGSIZE) filesz) as [Hm|Hm]; cbn [andb] in Hres.
      * destruct (Z.of_nat (length C) <? off + filesz); [done|]. destruct Hres as [-> Hf']. split; [done|]. intros a. rewrite Hf'.
        replace (filesz - i) with (c + (filesz - (i + PGSIZE))) by lia. rewrite slice_split by (unfold word_ok in *; lia). fold bs.
        rewrite <- put_at_app, Hlb. assert (c = PGSIZE) as Hcp by lia. rewrite Hcp.
        replace (vaddr + (i + PGSIZE)) with (vaddr + i + PGSIZE) by lia. by replace (off + (i + PGSIZE)) with (off + i + PGSIZE) by lia.
      * rewrite (proj2 (Z.ltb_ge _ _)) by lia. destruct Hres as [-> Hf']. split; [done|]. intros a. rewrite Hf', put_at_out.
        -- unfold bs. do 2 f_equal. lia.
        -- unfold slice. rewrite length_take. lia.
  - destruct (file_read C (off + i) c) as [r bs] eqn:Er.
    destruct (file_read_short _ _ _ _ _ Er) as (Hr1 & _ & Hr2 & Hr3); [unfold word_ok in *; lia|unfold PGSIZE in *; lia|lia|done|done|].
    rewrite (free_store q bs Hp). unfold bind at 1. unfold upd_mem, on_km, zoom, modify. cbn [k_km at_ with_w with_km].
    rewrite (proj2 (Z.eqb_neq _ _) Hr1). cbn [negb]. rewrite (proj2 (Z.ltb_lt _ _)) by lia.
    exists (-1), (set_km_mem (put_at q bs (km_mem k)) k), w', (put_at (vaddr + i) bs f). split; [reflexivity|].
    split_and!; [done|by apply Hwr; [|apply Hr3]|done].
Qed.

(** A header of the file in range: its segment starts at a page, does not wrap
    around, and ends below [lim] or in the kernel's part of the space. *)
Definition seg_ok (ph : proghdr) : Prop :=
  ph_type ph = ELF_PROG_LOAD → ph_filesz ph ≤ ph_memsz ph →
  aligned (ph_vaddr ph) ∧ ph_vaddr ph + ph_memsz ph < 2 ^ 32 ∧
  (ph_vaddr ph + ph_memsz ph < KERNBASE → ph_vaddr ph + ph_memsz ph ≤ lim).
Fixpoint segs_ok (n : nat) (off : Z) : Prop :=
  match n with
  | O => True
  | S n => ((file_read C off sizeof_proghdr).1 = sizeof_proghdr → seg_ok (get_proghdr (file_read C off sizeof_proghdr).2)) ∧
           segs_ok n (u32 (off + sizeof_proghdr))
  end.
(** What the header read gives, and that the rest does not matter. *)
Lemma header_read off r bs : word_ok off → file_read C off sizeof_proghdr = (r, bs) →
  (u32 r =? sizeof_proghdr) = (r =? sizeof_proghdr) ∧ (r = sizeof_proghdr → length bs = 32%nat ∧ Forall byte_ok bs).
Proof using HC HC31.
  intros Hw E. unfold sizeof_proghdr in *. destruct (Z.le_gt_cases (off + 32) (Z.of_nat (length C))) as [Hin|Hout].
  - rewrite file_read_in in E by (unfold word_ok in *; lia). injection E as <- <-. split; [done|]. intros _.
    split; [apply Nat2Z.inj; rewrite length_slice by (unfold word_ok in *; lia); done|by apply slice_ok].
  - destruct (file_read_short _ _ _ _ _ E) as (H1 & H2 & _); [unfold word_ok in *; lia..|done|].
    rewrite (proj2 (Z.eqb_neq _ _) H1), (proj2 (Z.eqb_neq r 32)) by lia. split; [done|lia].
Qed.
Lemma spec_load_bound : ∀ n off sz f sz' f', segs_ok n off → word_ok off → sz ≤ lim → spec_load n C off sz f = Some (sz', f') → sz' ≤ lim.
Proof using Hlim.
  induction n as [|n IH]; intros off sz f sz' f' Hok Hoff Hsz E; cbn [spec_load segs_ok] in *; [by simplify_eq|].
  destruct Hok as [Hs Hok]. destruct (file_read C off sizeof_proghdr) as [r bs]. cbn [fst snd] in Hs.
  assert (word_ok (u32 (off + sizeof_proghdr))) as Hoff' by apply u32_range.
  destruct (Z.eqb_spec r sizeof_proghdr) as [Er|]; [|done]. cbn [negb] in E. specialize (Hs Er).
  destruct (Z.eqb_spec (ph_type (get_proghdr bs)) ELF_PROG_LOAD) as [Et|]; cbn [negb] in E; [|by eapply IH].
  destruct (Z.ltb_spec (ph_memsz (get_proghdr bs)) (ph_filesz (get_proghdr bs))); [done|]. cbn [orb] in E.
  destruct (Z.leb_spec KERNBASE (ph_vaddr (get_proghdr bs) + ph_memsz (get_proghdr bs))); [done|].
  destruct (_ || _); [done|]. eapply IH; [done..| |exact E]. destruct (Hs Et) as (_ & _ & Hb); [lia|]. specialize (Hb ltac:(lia)). lia.
Qed.
Lemma exec_load_spec s d : ∀ n off k l T U w f sz, image k l d T U sz (-1) f → I w → word_ok off → segs_ok n off →
  ∃ o k' l' T' U' w' sz' f', exec_load kend data ph0 n d ip off sz (at_ s k w) = Ret (o, at_ s k' w') ∧ I w' ∧ image k' l' d T' U' sz' (-1) f' ∧
    match spec_load n C off sz f with
    | None => o = None
    | Some (sz1, f1) => o = Some sz1 ∧ sz' = sz1 ∧ f' = f1
    end.
Proof using Hkend Hdata Hend Hread HC HC31 Hlim.
  induction n as [|n IH]; intros off k l T U w f sz Him Hw Hoff Hok; cbn [exec_load spec_load].
  { exists (Some sz), k, l, T, U, w, sz, f. done. }
  destruct Hok as [Hseg Hok]. destruct (Hread w off sizeof_proghdr Hw Hoff) as (w1 & Er & Hw1); [done|].
  unfold bind at 1. unfold on_w, zoom. cbn [k_w at_ with_w with_km]. rewrite Er. clear Er.
  destruct (file_read C off sizeof_proghdr) as [r bs] eqn:Er. cbn [fst snd] in Hseg.
  destruct (header_read off r bs Hoff Er) as [-> Hbs]. destruct (Z.eqb_spec r sizeof_proghdr) as [->|Hne]; cbn [negb].
  2:{ exists None, k, l, T, U, w1, sz, f. done. }
  destruct (Hbs eq_refl) as [Hlb Hbb]. rewrite (get_proghdr_filled ph0 bs Hlb). specialize (Hseg eq_refl).
  destruct (proghdr_ranges bs Hbb) as (Hv & Hm & Hfs & Ho). set (ph := get_proghdr bs) in *.
  assert (word_ok (u32 (off + sizeof_proghdr))) as Hoff' by apply u32_range.
  destruct (Z.eqb_spec (ph_type ph) ELF_PROG_LOAD) as [Ht|Ht]; cbn [negb]; [|exact (IH _ k l T U w1 f sz Him Hw1 Hoff' Hok)].
  destruct (Z.ltb_spec (ph_memsz ph) (ph_filesz ph)) as [Hmf|Hmf]; cbn [orb]; [exists None, k, l, T, U, w1, sz, f; done|].
  destruct (Hseg Ht Hmf) as (Hal & Hwrap & Hen). set (new := ph_vaddr ph + ph_memsz ph) in *. rewrite (u32_small new) by lia.
  unfold bind at 1. unfold on_km, zoom. cbn [k_km at_ with_w with_km].
  destruct (image_alloc kend data Hkend Hdata k0 l0 k l d T U sz new f Him) as [[Hge ->]|(Hlt & k1 & l1 & T1 & U1 & -> & Him1)]; [lia| |..].
  { intros Hk. apply (enough_mono l0 (lim + 3 * PGSIZE)); [specialize (Hen Hk); unfold PGSIZE; lia|apply Hlim]. }
  { rewrite (proj2 (Z.leb_le _ _)) by done. exists None, k, l, T, U, w1, sz, f. done. }
  rewrite (proj2 (Z.leb_gt _ _)) by done. destruct (Z.eqb_spec (sz `max` new) 0) as [Hz|Hz]; cbn [orb].
  { exists None, k1, l1, T1, U1, w1, (sz `max` new), f. done. }
  unfold bind at 1. unfold loaduvm. rewrite (proj2 (Z.eqb_eq _ _) Hal). cbn [negb].
  destruct (loaduvm_loop_spec s d T1 U1 l1 (sz `max` new) (ph_vaddr ph) (ph_off ph) (ph_filesz ph) Hal Hv ltac:(lia) Ho
    (S (Z.to_nat (ph_filesz ph / PGSIZE))) 0 k1 w1 f Him1 Hw1) as (r & k2 & w2 & f2 & E & Hw2 & Him2 & Hres); [done|done|lia| |].
  { rewrite Nat2Z.inj_succ, Z2Nat.id by (apply Z.div_pos; [done|done]). unfold PGSIZE. Z.div_mod_to_equations; lia. }
  match goal with |- context [loaduvm_loop _ _ _ _ _ _ _ _ ?st] => change st with (at_ s k1 w1) end. rewrite E.
  destruct ((0 <? ph_filesz ph) && _) eqn:Ec.
  { subst r. cbv iota. exists None, k2, l1, T1, U1, w2, (sz `max` new), f2. done. }
  destruct Hres as [-> Hf2]. rewrite (proj2 (Z.ltb_ge 0 0)) by lia.
  apply (IH _ k2 l1 T1 U1 w2); [|done|done|done]. eapply image_ext; [|exact Him2]. intros a. rewrite Hf2, !Z.add_0_r, Z.sub_0_r. done.
Qed.
End load.

(** ** The commit *)
(** A space in another memory that has the same tables. *)
Lemma uinv_frame kend k l d T U k' l' S : uinv kend k l d T U → kmem_rep kend k' l' → keeps kend S (km_mem k) (km_mem k') →
  (∀ x, x ∈ tpages d T → x ∉ S) → NoDup (tpages d T ++ vals U ++ l') →
  uinv kend k' l' d T U ∧ ∀ va, pte (km_mem k') T va = pte (km_mem k) T va.
Proof.
  intros (Hk & Hs & _ & HU & Hus) Hk' Hkp Hns Hnd.
  assert (∀ va, pte (km_mem k') T va = pte (km_mem k) T va) as Hpt.
  { intros va. apply (pte_keeps kend S _ _ d); [done|done|]. intros pt Hpt. apply Hns. by right. }
  split; [|done]. split_and!; [done| |done|split; [done|]; intros va Ha Hr; rewrite Hpt; by apply Hus].
  apply (space_keeps kend S (km_mem k)); [done| |done]. apply Hns, list_elem_of_here.
Qed.
(** The image in another memory that has the same pages. *)
Lemma image_frame kend data k0 l0 k l d T U sz g f k0' l0' k' l' S :
  image kend data k0 l0 k l d T U sz g f → kmem_rep kend k' l' → keeps kend S (km_mem k) (km_mem k') →
  (∀ x, x ∈ tpages d T ++ vals U → x ∉ S) → NoDup l0' → tpages d T ++ vals U ++ l' ≡ₚ l0' →
  keeps kend l0' (km_mem k0') (km_mem k') → image kend data k0' l0' k' l' d T U sz g f.
Proof.
  intros [Hi Hacc Hkeep Hsz Hdom Hpte Hmem Hz Hker] Hk' Hkp Hns Hnd Hacc' Hkeep'.
  destruct (uinv_frame kend k l d T U k' l' S Hi Hk' Hkp) as [Hi' Hpt]; [intros x Hx; apply Hns, elem_of_app; by left|by rewrite Hacc'|].
  destruct Hi as (_ & _ & _ & HU & _). split; [done|done|done|done|done| | |done|].
  - intros n q Hq. rewrite Hpt. by apply Hpte.
  - intros n q o Hq Ho. rewrite <- (Hmem n q o) by done. apply (Hkp q); [by apply HU in Hq as [? _]| |unfold in_page; lia].
    apply Hns, elem_of_app. right. by eapply elem_of_vals.
  - intros va Hva Hb. rewrite Hpt. by apply Hker.
Qed.
Lemma store32_same m m' a v x : m x = m' x → store32 m a v x = store32 m' a v x.
Proof. intros H. unfold store32. by destruct (_ && _). Qed.
(** The old space is freed; [kst] is the page of the kernel stack, with the
    two words of the trap frame that are written. *)
Lemma image_commit kend data k0 l0 k l d T U sz g f pg T0 U0 kst a1 v1 a2 v2 :
  KERNBASE < kend → uinv kend k0 l0 pg T0 U0 → page_ok kend kst → kst ∉ tpages pg T0 ++ vals U0 ++ l0 →
  kst ≤ a1 ∧ a1 + 4 ≤ kst + PGSIZE → kst ≤ a2 ∧ a2 + 4 ≤ kst + PGSIZE →
  image kend data k0 l0 k l d T U sz g f →
  let set_tf m := store32 (store32 m a1 v1) a2 v2 in
  ∃ k' l', freevm kend pg (set_km_mem (set_tf (km_mem k)) k) = Ret k' ∧
    image kend data (set_km_mem (set_tf (km_mem k0)) k0) (tpages pg T0 ++ vals U0 ++ l0) k' l' d T U sz g f.
Proof.
  intros Hkend Hold Hkst Hkn Ha1 Ha2 Him set_tf. pose proof Him as [Hi Hacc Hkeep _ _ _ _ _ _]. pose proof Hi as (Hk & _ & Hnd & _).
  set (m1 := set_tf (km_mem k)). pose proof Hold as (_ & _ & Hnd0 & _).
  assert (∀ x, x ∈ l → x ∈ l0) as Hll by (intros x Hx; rewrite <- Hacc, !elem_of_app; auto).
  assert (keeps kend [kst] (km_mem k) m1) as Hk1.
  { intros q x Hq Hnq Hx. assert (¬ in_page kst x) as Hnx.
    { intros Hx'. apply Hnq. rewrite (page_ok_disjoint kend q kst x); [apply list_elem_of_here|done..]. }
    unfold m1, set_tf. unfold in_page, PGSIZE in *. rewrite !store32_other by lia. done. }
  assert (kmem_rep kend (set_km_mem m1 k) l) as Hkr.
  { apply (rep_keeps kend k l [kst]); [done|apply store32_ok, store32_ok, Hk|done|].
    intros p Hp ->%list_elem_of_singleton. apply Hkn, elem_of_app. right. apply elem_of_app. right. by apply Hll. }
  assert (uinv kend (set_km_mem m1 k) l pg T0 U0) as Hold1.
  { pose proof (uinv_parent kend k0 l0 pg T0 U0 k l Hold Hk Hkeep Hll) as Hold2. pose proof Hold2 as (_ & _ & Hnd2 & _).
    apply (uinv_frame kend k l pg T0 U0 (set_km_mem m1 k) l [kst]); [done..| |done].
    intros x Hx ->%list_elem_of_singleton. apply Hkn, elem_of_app. by left. }
  destruct (freevm_spec kend Hkend _ _ _ _ _ Hold1) as (k' & l' & E & Hk' & Hl' & Hkf). exists k', l'. split; [exact E|].
  assert (tpages d T ++ vals U ++ l' ≡ₚ tpages pg T0 ++ vals U0 ++ l0) as Hacc'.
  { rewrite Hl', <- Hacc. solve_Permutation. }
  apply (image_frame kend data k0 l0 k l d T U sz g f _ _ k' l' (kst :: tpages pg T0 ++ vals U0 ++ l)); [done|done| | |done|done|].
  - eapply pages_trans; (eapply pages_mono; [|eassumption]); intros x; rewrite ?elem_of_cons, ?elem_of_nil; tauto.
  - intros x Hx. assert (x ∈ l0) as Hx0 by (rewrite <- Hacc, app_assoc, elem_of_app; by left).
    apply list.NoDup_app in Hnd0 as (_ & Hd1 & Hnd0). apply list.NoDup_app in Hnd0 as (_ & Hd2 & _).
    rewrite app_assoc in Hnd. apply list.NoDup_app in Hnd as (_ & Hd3 & _). rewrite elem_of_cons, !elem_of_app. intros [->|[Ht|[Hu|Hl]]].
    + apply Hkn, elem_of_app. right. apply elem_of_app. by right.
    + apply (Hd1 x Ht), elem_of_app. by right.
    + by apply (Hd2 x).
    + by apply (Hd3 x).
  - intros q x Hq Hnq Hx. rewrite (Hkf q x); [|done| |done].
    + cbn [km_mem set_km_mem]. unfold m1, set_tf. apply store32_same, store32_same. apply (Hkeep q); [done| |done].
      intros Hin. apply Hnq. rewrite !elem_of_app. tauto.
    + rewrite !elem_of_app in Hnq |- *. intros [?|[?|Hl]]; [tauto..|]. apply Hll in Hl. tauto.
Qed.

(** ** exec *)
Section correct.
Context {W : Type} `{!ExecOps W}.
Context (kend data : Z) (me : nat) (elf0 ph0 : list Z).

(** The file system finds the program: [path] leads to the inode [ip] with the
    contents [C], which can be read while it is locked, and given back. *)
Record finds (I : W → Prop) (cwd : Z) (path : list Z) (w : W) (ip : Z) (C : list Z) : Prop := {
  fi_open : ∃ w1 w2 w3, eo_begin_op w = Ret (tt, w1) ∧ eo_namei cwd path w1 = Ret (ip, w2) ∧ eo_ilock ip w2 = Ret (tt, w3) ∧ I w3;
  fi_ip : ip ≠ 0;
  fi_read : reads I ip C;
  fi_close : ∀ w, I w → ∃ w1 w2, eo_iunlockput ip w = Ret (tt, w1) ∧ eo_end_op w1 = Ret (tt, w2);
  fi_bytes : Forall byte_ok C;
  fi_size : Z.of_nat (length C) < 2 ^ 31 }.
(** The process [p] is current on the CPU: its space has the tables [T0] and
    the user pages [U0], and its trap frame lies in the page [kst]. *)
Record current (s : kstate W) (c : cpu) (cur : nat) (p : proc) (l0 : list Z) (T0 U0 : gmap Z Z) (kst : Z) : Prop := {
  cu_cpu : k_cpus s !! me = Some c;
  cu_proc : c_proc c = Some cur;
  cu_cli : 0 ≤ c_ncli c < 2 ^ 30;
  cu_slot : procs (k_pt s) !! cur = Some p;
  cu_space : uinv kend (k_km s) l0 (p_pgdir p) T0 U0;
  cu_stack : page_ok kend kst ∧ kst ∉ tpages (p_pgdir p) T0 ++ vals U0 ++ l0;
  cu_tf : kst ≤ p_tf p ∧ p_tf p + sizeof_trapframe ≤ kst + PGSIZE }.

(** Nothing but free pages and the file system has changed. *)
Definition unchanged (l0 : list Z) (s s' : kstate W) : Prop :=
  ∃ k' w' l', s' = at_ s k' w' ∧ kmem_rep kend k' l' ∧ l' ≡ₚ l0 ∧ keeps kend l0 (km_mem (k_km s)) (km_mem k').
(** The process runs the image [f]. *)
Definition replaced (l0 : list Z) (T0 U0 : gmap Z Z) (cur : nat) (p : proc) (path : list Z) (entry sz sp : Z) (f : mem) (s s' : kstate W) : Prop :=
  ∃ c' w' d T U l',
    k_cpus s' = <[me := c']> (k_cpus s) ∧ c_proc c' = Some cur ∧ c_cr3 c' = v2p d ∧
    k_pt s' = set_procs (<[cur := set_sz sz (set_pgdir d
      (set_name (array_safestrcpy (p_name p) (last_elem path path ++ [0])) p))]> (procs (k_pt s))) (k_pt s) ∧
    s' = with_w w' (with_km (k_km s') (with_pt (k_pt s') (with_cpus (k_cpus s') s))) ∧
    image kend data
      (set_km_mem (store32 (store32 (km_mem (k_km s)) (p_tf p + tf_eip) entry) (p_tf p + tf_esp) sp) (k_km s))
      (tpages (p_pgdir p) T0 ++ vals U0 ++ l0) (k_km s') l' d T U sz (sz / PGSIZE - 2) f.

(** What [exec] is called with: a kernel linked in order, a process, a program
    that the file system finds, arguments of less than a page each, segments
    that start at a page, do not wrap around and end below [lim] or in the
    kernel's part of the space, and free pages for [lim] bytes. *)
Record exec_ready (I : W → Prop) (s : kstate W) (c : cpu) (cur : nat) (p : proc) (l0 : list Z) (T0 U0 : gmap Z Z)
    (kst : Z) (path : list Z) (argv : list (list Z)) (ip : Z) (C : list Z) (lim : Z) : Prop := {
  er_kend : KERNBASE < kend;
  er_data : aligned data ∧ KERNLINK < data < KERNBASE + PHYSTOP;
  er_end : data ≤ kend;
  er_current : current s c cur p l0 T0 U0 kst;
  er_finds : finds I (p_cwd p) path (k_w s) ip C;
  er_args : Forall arg_ok argv;
  er_free : 0 ≤ lim ∧ enough l0 (lim + 3 * PGSIZE);
  er_segs : segs_ok C lim (Z.to_nat (e_phnum (get_elfhdr C))) (e_phoff (get_elfhdr C)) }.

Lemma exec_bad_spec s k l0 l d T U sz g f w (ip : Z) : KERNBASE < kend → image kend data (k_km s) l0 k l d T U sz g f → d ≠ 0 →
  (ip = 0 ∨ ∃ w1 w2, eo_iunlockput ip w = Ret (tt, w1) ∧ eo_end_op w1 = Ret (tt, w2)) →
  ∃ s', exec_bad kend d ip (at_ s k w) = Ret (-1, s') ∧ unchanged l0 s s'.
Proof.
  intros Hkend Him Hd Hip. destruct (freevm_spec kend Hkend _ _ _ _ _ (im_inv _ _ _ _ _ _ _ _ _ _ _ _ Him)) as (k' & l' & E & Hk' & Hl' & Hkp).
  assert (l' ≡ₚ l0) as Hl0 by (rewrite Hl'; apply (im_acc _ _ _ _ _ _ _ _ _ _ _ _ Him)).
  assert (keeps kend l0 (km_mem (k_km s)) (km_mem k')) as Hkeep.
  { eapply pages_trans; [apply (im_keeps _ _ _ _ _ _ _ _ _ _ _ _ Him)|]. by rewrite (im_acc _ _ _ _ _ _ _ _ _ _ _ _ Him) in Hkp. }
  unfold exec_bad. rewrite (proj2 (truth_true d)) by done. unfold bind at 1. unfold on_km, zoom. cbn [k_km at_ with_w with_km]. rewrite E.
  destruct (decide (ip = 0)) as [->|Hne].
  - change (truth 0) with false. eexists. split; [reflexivity|]. exists k', w, l'. done.
  - rewrite (proj2 (truth_true ip)) by done. destruct Hip as [|(w1 & w2 & E1 & E2)]; [done|].
    unfold bind at 1. unfold bind at 1. unfold on_w at 1, zoom at 1. cbn [k_w at_ with_w with_km]. rewrite E1.
    unfold on_w, zoom. cbn [k_w at_ with_w with_km]. rewrite E2. eexists. split; [reflexivity|]. exists k', w2, l'. done.
Qed.
Lemma exec_commit_spec s c cur p l0 T0 U0 kst k w l d T U sz g f path sp entry : KERNBASE < kend →
  current s c cur p l0 T0 U0 kst → image kend data (k_km s) l0 k l d T U sz g f → g = sz / PGSIZE - 2 →
  ∃ s', exec_commit kend me path d sz sp entry (at_ s k w) = Ret (0, s') ∧ replaced l0 T0 U0 cur p path entry sz sp f s s'.
Proof.
  intros Hkend [Hc Hcp Hcli Hp Hsp [Hk1 Hk2] Htf] Him ->. unfold sizeof_trapframe in Htf.
  destruct (image_commit kend data (k_km s) l0 k l d T U sz (sz / PGSIZE - 2) f (p_pgdir p) T0 U0 kst
    (p_tf p + tf_eip) entry (p_tf p + tf_esp) sp Hkend Hsp Hk1 Hk2) as (k' & l' & E & Him'); [unfold tf_eip; lia|unfold tf_esp; lia|done|].
  pose proof (lookup_lt_Some _ _ _ Hp) as Hlt.
  assert (d ≠ 0) as Hd.
  { destruct (im_inv _ _ _ _ _ _ _ _ _ _ _ _ Him) as (_ & [Hd _ _] & _). by apply (page_nonzero kend). }
  destruct (Z_of_nat_complete (c_ncli c)) as [nc Hnc]; [lia|].
  enough (wp False (exec_commit kend me path d sz sp entry) (λ r s', r = 0 ∧ replaced l0 T0 U0 cur p path entry sz sp f s s') (at_ s k w)) as Hwp.
  { destruct (wp_ok _ _ _ Hwp) as (r & s' & E' & -> & Hr). eauto. }
  unfold exec_commit. apply wp_bind. eapply wp_myproc; [exact Hc|exact Hcp|].
  apply wp_bind. eapply wp_write_proc; [unfold upd_proc, get_proc; cbn [k_pt at_ with_w with_km]; rewrite Hp; reflexivity|].
  apply wp_bind. eapply wp_read_proc; [cbn; by apply list_lookup_insert_eq|].
  apply wp_bind. eapply wp_write_proc; [unfold upd_proc, get_proc; cbn; rewrite list_lookup_insert_eq by done; reflexivity|].
  cbn [procs set_procs k_pt with_pt at_ with_w with_km]. rewrite list_insert_insert_eq.
  apply wp_bind. eapply wp_write_proc; [unfold upd_proc, get_proc; cbn; rewrite list_lookup_insert_eq by done; reflexivity|].
  cbn [procs set_procs k_pt with_pt at_ with_w with_km]. rewrite list_insert_insert_eq.
  set (p1 := set_name _ p). set (p2 := set_sz sz (set_pgdir d p1)). change (p_tf p1) with (p_tf p). change (p_pgdir p1) with (p_pgdir p).
  apply wp_bind, wp_zoom, wp_modify. apply wp_bind, wp_zoom, wp_modify.
  apply wp_bind. eapply (wp_switchuvm _ me _ c cur p2 cur p2 nc); [exact Hc|exact Hcp|..|exact Hnc|lia|].
  { by apply list_lookup_insert_eq. }
  { by apply list_lookup_insert_eq. }
  { exact Hd. }
  intros c' _ Hcp' _ Hcr. apply wp_bind, wp_zoom. unfold wp. cbn [k_km with_km with_cpus with_pt at_ with_w].
  change (set_km_mem (store32 (km_mem (set_km_mem ?m ?x)) ?a ?v) (set_km_mem ?m ?x)) with (set_km_mem (store32 m a v) x).
  rewrite E. split; [reflexivity|]. exists c', w, d, T, U, l'. cbn. split_and!; [reflexivity|by rewrite Hcp'|exact Hcr|reflexivity|reflexivity|exact Him'].
Qed.
(** The header of the file. *)
Lemma elf_read C r bs : Forall byte_ok C → Z.of_nat (length C) < 2 ^ 31 → file_read C 0 sizeof_elfhdr = (r, bs) →
  (u32 r <? sizeof_elfhdr) = (Z.of_nat (length C) <? sizeof_elfhdr) ∧
  (sizeof_elfhdr ≤ Z.of_nat (length C) → get_elfhdr (filled elf0 bs) = get_elfhdr C).
Proof.
  intros Hb Hlen E. unfold sizeof_elfhdr in *. destruct (Z.ltb_spec (Z.of_nat (length C)) 52) as [Hs|Hs].
  - split; [|lia]. unfold file_read in E. change (u32 (0 + 52)) with 52 in E. rewrite (proj2 (Z.ltb_ge _ _)) in E by lia. cbn [orb] in E.
    change (52 <? 0) with false in E. cbv iota in E. rewrite (proj2 (Z.ltb_lt _ _)) in E by done. injection E as <- _.
    rewrite u32_small by lia. apply Z.ltb_lt. lia.
  - rewrite file_read_in in E by lia. injection E as <- <-. split; [done|]. intros _.
    assert (length (slice C 0 52) = 52%nat) as Hl by (apply Nat2Z.inj; rewrite length_slice by lia; done).
    rewrite get_elfhdr_filled by done. unfold slice. change (Z.to_nat 0) with 0%nat. rewrite drop_0.
    assert (C = filled C (take (Z.to_nat 52) C)) as EC.
    { unfold filled. unfold slice in Hl. change (Z.to_nat 0) with 0%nat in Hl. rewrite drop_0 in Hl. rewrite Hl. symmetry. apply take_drop. }
    rewrite EC at 2. symmetry. apply get_elfhdr_filled. unfold slice in Hl. change (Z.to_nat 0) with 0%nat in Hl. by rewrite drop_0 in Hl.
Qed.
Lemma bind_ret {S A B} (e : M S A) (k : A → M S B) s a s' : e s = Ret (a, s') → bind e k s = k a s'.
Proof. intros E. unfold bind. by rewrite E. Qed.
Lemma on_w_ret {A} (e : M W A) s a w : e (k_w s) = Ret (a, w) → on_w e s = Ret (a, with_w w s).
Proof. intros E. unfold on_w, zoom. by rewrite E. Qed.
Lemma on_km_ret {A} (e : M kmem A) (s : kstate W) a k : e (k_km s) = Ret (a, k) → on_km e s = Ret (a, with_km k s).
Proof. intros E. unfold on_km, zoom. by rewrite E. Qed.
Lemma exec_bad_early I s l0 w (ip : Z) : kmem_rep kend (k_km s) l0 → ip ≠ 0 → I w →
  (∀ w, I w → ∃ w1 w2, eo_iunlockput ip w = Ret (tt, w1) ∧ eo_end_op w1 = Ret (tt, w2)) →
  ∃ s', exec_bad kend 0 ip (with_w w s) = Ret (-1, s') ∧ unchanged l0 s s'.
Proof.
  intros Hk Hip Hw Hcl. destruct (Hcl w Hw) as (w1 & w2 & E1 & E2). unfold exec_bad. change (truth 0) with false.
  rewrite (proj2 (truth_true ip)) by done. rewrite (bind_ret _ _ _ tt (with_w w s)) by done.
  rewrite (bind_ret _ _ _ tt (with_w w2 s)); [eexists; split; [reflexivity|]; exists (k_km s), w2, l0; split_and!; [by destruct s|done..|apply pages_refl]|].
  rewrite (bind_ret _ _ _ tt (with_w w1 s)) by exact (on_w_ret _ (with_w w s) _ _ E1). exact (on_w_ret _ (with_w w1 s) _ _ E2).
Qed.
(** After the header has been checked. *)
Lemma exec_body_spec I s c cur p l0 T0 U0 kst path argv ip C lim w :
  exec_ready I s c cur p l0 T0 U0 kst path argv ip C lim → I w →
  ∃ d k r s', setupkvm data (k_km s) = Ret (d, k) ∧ d ≠ 0 ∧
    (let! sz := exec_load kend data ph0 (Z.to_nat (e_phnum (get_elfhdr C))) d ip (e_phoff (get_elfhdr C)) 0 in
     match sz with
     | None => exec_bad kend d ip
     | Some sz =>
         on_w (eo_iunlockput ip) ;! on_w eo_end_op ;!
         let! r := exec_stack kend d sz argv in
         match r with None => exec_bad kend d 0 | Some (sz, sp) => exec_commit kend me path d sz sp (e_entry (get_elfhdr C)) end
     end) (at_ s k w) = Ret (r, s') ∧
    match spec_load (Z.to_nat (e_phnum (get_elfhdr C))) C (e_phoff (get_elfhdr C)) 0 (λ _, 0) with
    | None => r = -1 ∧ unchanged l0 s s'
    | Some (sz, f) =>
        match spec_stack sz argv f with
        | None => r = -1 ∧ unchanged l0 s s'
        | Some (sz, sp, f) => r = 0 ∧ replaced l0 T0 U0 cur p path (e_entry (get_elfhdr C)) sz sp f s s'
        end
    end.
Proof.
  intros [Hkend Hdata Hend Hcur [_ Hip Hread Hclose HC HC31] Hargs Hlim Hsegs] Hw.
  pose proof Hcur as [Hc Hcp Hcli Hp Hsp _ _]. pose proof Hsp as (Hk & _). destruct Hlim as [Hl0 Hen].
  destruct (image_setup kend data Hkend Hdata (k_km s) l0 Hk) as (d & k & T & l & Es & Hd & Him).
  { unfold enough in Hen. assert (0 ≤ (lim + 3 * PGSIZE) / PGSIZE) by (apply Z.div_pos; [unfold PGSIZE; lia|done]). lia. }
  exists d, k. set (elf := get_elfhdr C) in *. assert (word_ok (e_phoff elf)) as Hpo by by apply get32_word.
  destruct (exec_load_spec kend data Hkend Hdata Hend (k_km s) l0 ph0 I ip C Hread HC HC31 lim (conj Hl0 Hen) s d (Z.to_nat (e_phnum elf)) (e_phoff elf)
    k l T ∅ w (λ _, 0) 0 Him Hw Hpo Hsegs) as (o & k1 & l1 & T1 & U1 & w1 & sz1 & f1 & E1 & Hw1 & Him1 & Hres1).
  rewrite (bind_ret _ _ _ _ _ E1).
  destruct (spec_load _ C _ 0 _) as [[sz f]|] eqn:Esl.
  2:{ subst o. destruct (exec_bad_spec s k1 l0 l1 d T1 U1 sz1 (-1) f1 w1 ip Hkend Him1 Hd (or_intror (Hclose w1 Hw1))) as (s' & E & Hu). eauto 10. }
  destruct Hres1 as (-> & -> & ->). destruct (Hclose w1 Hw1) as (w2 & w3 & E2 & E3).
  rewrite (bind_ret _ _ _ tt (at_ s k1 w2)) by exact (on_w_ret _ (at_ s k1 w1) _ _ E2).
  rewrite (bind_ret _ _ _ tt (at_ s k1 w3)) by exact (on_w_ret _ (at_ s k1 w2) _ _ E3).
  assert (sz ≤ lim) as Hszl by (eapply (spec_load_bound l0 C lim (conj Hl0 Hen)); [exact Hsegs|exact Hpo|exact Hl0|exact Esl]).
  destruct (exec_stack_spec kend data (k_km s) l0 s w3 k1 l1 d T1 U1 sz f argv Hkend Hdata Him1 Hargs) as (o & k2 & l2 & T2 & U2 & sz2 & g & f2 & E4 & Him2 & Hres2).
  { eapply enough_mono; [|exact Hen]. unfold PGSIZE. lia. }
  rewrite (bind_ret _ _ _ _ _ E4). destruct (spec_stack sz argv f) as [[[sz3 sp] f3]|].
  - destruct Hres2 as (-> & -> & Hg & ->).
    destruct (exec_commit_spec s c cur p l0 T0 U0 kst k2 w3 l2 d T2 U2 sz3 g f3 path sp (e_entry elf) Hkend Hcur Him2 Hg) as (s' & E & Hr). eauto 10.
  - subst o. destruct (exec_bad_spec s k2 l0 l2 d T2 U2 sz2 g f2 w3 0 Hkend Him2 Hd) as (s' & E & Hu); [by left|eauto 10].
Qed.
End correct.

(** ** The arguments *)
Lemma put_word p w f a : put_at p (word_bytes w) f a = store32 f p w a.
Proof.
  unfold put_at, store32, word_bytes. cbn [length]. change (Z.of_nat 4) with 4.
  destruct (Z.leb_spec p a), (Z.ltb_spec a (p + 4)); cbn [andb]; try done.
  assert (a - p = 0 ∨ a - p = 1 ∨ a - p = 2 ∨ a - p = 3) as [E|[E|[E|E]]] by lia; rewrite E.
  - change (u8 (u32 w / 2 ^ (8 * 0))) with (u8 (u32 w / 1)). change (u8 w = u8 (u32 w / 1)).
    unfold u8, u32. Z.div_mod_to_equations; lia.
  - change (u8 (Z.shiftr w 8) = u8 (u32 w / 2 ^ 8)). rewrite Z.shiftr_div_pow2 by lia. unfold u8, u32. Z.div_mod_to_equations; lia.
  - change (u8 (Z.shiftr w 16) = u8 (u32 w / 2 ^ 16)). rewrite Z.shiftr_div_pow2 by lia. unfold u8, u32. Z.div_mod_to_equations; lia.
  - change (u8 (Z.shiftr w 24) = u8 (u32 w / 2 ^ 24)). rewrite Z.shiftr_div_pow2 by lia. unfold u8, u32. Z.div_mod_to_equations; lia.
Qed.
Lemma load32_put_words p ws f : ∀ i w, ws !! i = Some w → load32 (put_at p (concat (word_bytes <$> ws)) f) (p + 4 * Z.of_nat i) = u32 w.
Proof.
  revert p f. induction ws as [|w0 ws IH]; intros p f i w Hi; [by rewrite lookup_nil in Hi|].
  change (concat (word_bytes <$> w0 :: ws)) with (word_bytes w0 ++ concat (word_bytes <$> ws)).
  assert (∀ b, put_at p (word_bytes w0 ++ concat (word_bytes <$> ws)) f b = put_at (p + 4) (concat (word_bytes <$> ws)) (store32 f p w0) b) as E.
  { intros b. rewrite <- put_at_app. unfold put_at at 1 3. destruct (_ && _); [done|apply put_word]. }
  rewrite (load32_ext _ _ _ (λ b _, E b)). destruct i as [|i]; cbn in Hi.
  - injection Hi as ->. change (Z.of_nat 0) with 0. rewrite Z.mul_0_r, Z.add_0_r.
    rewrite (load32_ext _ (store32 f p w)); [apply load32_store32_eq|]. intros b Hb. apply put_at_out. lia.
  - rewrite Nat2Z.inj_succ. replace (p + 4 * Z.succ (Z.of_nat i)) with (p + 4 + 4 * Z.of_nat i) by lia. by apply IH.
Qed.
(** The string [a] with its zero is at [q]. *)
Definition str_at (f : mem) (q : Z) (a : list Z) : Prop := ∀ i, (i ≤ length a)%nat → f (q + Z.of_nat i) = default 0 ((a ++ [0]) !! i).
Lemma str_at_put f q a : str_at (put_at q (a ++ [0]) f) q a.
Proof.
  intros i Hi. rewrite put_at_in by (rewrite length_app; simpl; lia). f_equal. f_equal. lia.
Qed.
Lemma str_at_below f q a sp bs : str_at f q a → sp + Z.of_nat (length bs) ≤ q → str_at (put_at sp bs f) q a.
Proof. intros H Hle i Hi. rewrite put_at_out by lia. by apply H. Qed.
(** Each pointer leads to its string, between [sp] and [top]. *)
Definition pushed (f : mem) (sp top : Z) (ptrs : list Z) (args : list (list Z)) : Prop :=
  Forall2 (λ q a, sp ≤ q ∧ q + Z.of_nat (length a) < top ∧ str_at f q a) ptrs args.
Lemma spec_push_ok low top argv : ∀ done_ ptrs sp f ptrs' sp' f', spec_push low argv ptrs sp f = Some (ptrs', sp', f') →
  sp mod 4 = 0 → sp ≤ top → pushed f sp top ptrs done_ →
  pushed f' sp' top ptrs' (done_ ++ argv) ∧ sp' ≤ sp ∧ (low ≤ sp → low ≤ sp') ∧ sp' mod 4 = 0 ∧ (∀ a, a < low → f' a = f a) ∧
  (Z.of_nat (length ptrs) ≤ MAXARG → Z.of_nat (length ptrs') ≤ MAXARG).
Proof.
  induction argv as [|a argv IH]; intros done_ ptrs sp f ptrs' sp' f' E Hm Ht Hp; cbn [spec_push] in E.
  { simplify_eq. rewrite app_nil_r. split_and!; done. }
  set (x := (sp - (Z.of_nat (length a) + 1)) / 4 * 4) in *.
  destruct (Z.leb_spec MAXARG (Z.of_nat (length ptrs))) as [|Hmax]; [done|]. destruct (Z.ltb_spec x low) as [|Hx]; [done|]. cbn [orb] in E.
  assert (x mod 4 = 0 ∧ x + (Z.of_nat (length a) + 1) ≤ sp) as [Hx4 Hxs] by (unfold x; Z.div_mod_to_equations; lia).
  destruct (IH (done_ ++ [a]) _ _ _ _ _ _ E Hx4) as (H1 & H2 & H3 & H4 & H5 & H6); [lia| |].
  - apply Forall2_app; [|constructor; [|constructor]].
    + eapply Forall2_impl; [exact Hp|]. intros q b (Hq1 & Hq2 & Hq3). split_and!; [lia|lia|]. apply str_at_below; [done|].
      rewrite length_app. simpl. lia.
    + split_and!; [lia|lia|apply str_at_put].
  - rewrite <- app_assoc in H1. split_and!; [done|lia|intros _; by apply H3|done| |].
    + intros b Hb. rewrite H5, put_at_out by lia. done.
    + intros _. apply H6. rewrite length_app. simpl. lia.
Qed.
Lemma spec_load_size : ∀ n C off sz f sz' f', spec_load n C off sz f = Some (sz', f') → 0 ≤ sz < KERNBASE → 0 ≤ sz' < KERNBASE.
Proof.
  induction n as [|n IH]; intros C off sz f sz' f' E Hsz; cbn [spec_load] in E; [by simplify_eq|].
  destruct (file_read C off sizeof_proghdr) as [r bs]. destruct (negb _); [done|]. destruct (negb _); [by eapply IH|].
  destruct (_ <? _); [done|]. cbn [orb] in E. destruct (Z.leb_spec KERNBASE (ph_vaddr (get_proghdr bs) + ph_memsz (get_proghdr bs))); [done|].
  destruct (_ || _); [done|]. eapply IH; [exact E|lia].
Qed.

(** ** Correctness *)

Section Correctness.
Context {W : Type} `{!ExecOps W} (kend data : Z) (me : nat) (elf0 ph0 : list Z).
Context (I : W → Prop) (s : kstate W) (c : cpu) (cur : nat) (p : proc) (l0 : list Z) (T0 U0 : gmap Z Z) (kst : Z).
Context (path : list Z) (argv : list (list Z)) (ip : Z) (C : list Z) (lim : Z).
Abbreviation ready := (exec_ready kend data me I s c cur p l0 T0 U0 kst path argv ip C lim).

Lemma exec_spec : ready →
  ∃ r s', exec kend data me elf0 ph0 path argv s = Ret (r, s') ∧
    match spec_exec C argv with
    | None => r = -1 ∧ unchanged kend l0 s s'
    | Some (entry, sz, sp, f) => r = 0 ∧ replaced kend data me l0 T0 U0 cur p path entry sz sp f s s'
    end.
Proof.
  intros Hready. pose proof Hready as [Hkend Hdata Hend Hcur Hfi Hargs Hlim Hsegs]. pose proof Hfi as [(w1 & w2 & w3 & E1 & E2 & E3 & HI) Hip Hread Hclose HC HC31].
  pose proof Hcur as [Hc Hcp Hcli Hp Hsp _ _]. pose proof Hsp as (Hk & _).
  unfold exec. rewrite (bind_ret _ _ _ tt (with_w w1 s)) by exact (on_w_ret _ s _ _ E1).
  rewrite (bind_ret _ _ _ cur (with_w w1 s)) by (unfold myproc, bind, mycpu, bind, gets; cbn [k_cpus with_w]; rewrite Hc; unfold ret, lift; by rewrite Hcp).
  rewrite (bind_ret _ _ _ p (with_w w1 s)) by (unfold read_proc, bind, gets, lift, get_proc; cbn [k_pt with_w]; by rewrite Hp).
  rewrite (bind_ret _ _ _ ip (with_w w2 s)) by exact (on_w_ret _ (with_w w1 s) _ _ E2).
  rewrite (proj2 (Z.eqb_neq _ _)) by done. rewrite (bind_ret _ _ _ tt (with_w w3 s)) by exact (on_w_ret _ (with_w w2 s) _ _ E3).
  destruct (Hread w3 0 sizeof_elfhdr HI) as (w4 & E4 & HI4); [done|done|].
  rewrite (bind_ret _ _ _ (file_read C 0 sizeof_elfhdr) (with_w w4 s)) by exact (on_w_ret _ (with_w w3 s) _ _ E4).
  destruct (file_read C 0 sizeof_elfhdr) as [r bs] eqn:Er. destruct (elf_read elf0 C r bs HC HC31 Er) as [-> Helf].
  destruct (exec_bad_early kend I s l0 w4 ip Hk Hip HI4 Hclose) as (sb & Eb & Hub).
  unfold spec_exec. destruct (Z.ltb_spec (Z.of_nat (length C)) sizeof_elfhdr) as [Hs|Hs]; cbn [orb]; [exists (-1), sb; done|].
  rewrite (Helf Hs). cbv zeta. set (elf := get_elfhdr C) in *. destruct (Z.eqb_spec (e_magic elf) ELF_MAGIC); cbn [negb]; [|exists (-1), sb; done].
  destruct (exec_body_spec kend data me ph0 I s c cur p l0 T0 U0 kst path argv ip C lim w4 Hready HI4) as (d & k & r' & s' & Ed & Hd & E & Hres).
  rewrite (bind_ret _ _ _ d (at_ s k w4)) by exact (on_km_ret _ (with_w w4 s) _ _ Ed).
  rewrite (proj2 (Z.eqb_neq _ _)) by done. exists r', s'. split; [exact E|].
  fold elf in Hres. destruct (spec_load _ C _ 0 _) as [[sz f]|]; [|done]. by destruct (spec_stack sz argv f) as [[[sz' sp] f']|].
Qed.

(** The words of the trap frame after the commit. *)
Lemma replaced_frame entry sz sp f s' : ready → word_ok entry → word_ok sp →
  replaced kend data me l0 T0 U0 cur p path entry sz sp f s s' →
  load32 (km_mem (k_km s')) (p_tf p + tf_eip) = entry ∧ load32 (km_mem (k_km s')) (p_tf p + tf_esp) = sp.
Proof.
  intros [_ _ _ [_ _ _ _ _ [Hk Hkn] Htf] _ _ _ _] He Hsp (c' & w' & d & T & U & l' & _ & _ & _ & _ & _ & Him).
  pose proof (im_keeps _ _ _ _ _ _ _ _ _ _ _ _ Him) as Hkeep. cbn [km_mem set_km_mem] in Hkeep.
  assert (∀ o, 0 ≤ o ≤ sizeof_trapframe - 4 → load32 (km_mem (k_km s')) (p_tf p + o) =
    load32 (store32 (store32 (km_mem (k_km s)) (p_tf p + tf_eip) entry) (p_tf p + tf_esp) sp) (p_tf p + o)) as Hw.
  { intros o Ho. apply load32_ext. intros b Hb. apply (Hkeep kst); [done|done|]. unfold in_page. lia. }
  unfold tf_eip, tf_esp, sizeof_trapframe in *. split; rewrite Hw by lia.
  - rewrite load32_store32_other by lia. rewrite load32_store32_eq. by apply u32_small.
  - rewrite load32_store32_eq. by apply u32_small.
Qed.
End Correctness.

(** The image of [spec_exec] on the stack. *)
Lemma spec_arguments C argv entry sz sp f : spec_exec C argv = Some (entry, sz, sp, f) →
  load32 f sp = 0xffffffff ∧ load32 f (sp + 4) = Z.of_nat (length argv) ∧ load32 f (sp + 8) = sp + 12 ∧
  (∀ i a, argv !! i = Some a → sp < load32 f (sp + 12 + 4 * Z.of_nat i) ∧
     load32 f (sp + 12 + 4 * Z.of_nat i) + Z.of_nat (length a) < sz ∧ str_at f (load32 f (sp + 12 + 4 * Z.of_nat i)) a) ∧
  load32 f (sp + 12 + 4 * Z.of_nat (length argv)) = 0 ∧ sp mod 4 = 0 ∧ entry = e_entry (get_elfhdr C) ∧
  sp + 16 + 4 * Z.of_nat (length argv) ≤ sz < KERNBASE ∧
  ∃ sz0 f0, spec_load (Z.to_nat (e_phnum (get_elfhdr C))) C (e_phoff (get_elfhdr C)) 0 (λ _, 0) = Some (sz0, f0) ∧
    0 ≤ sz0 ∧ sz0 + PGSIZE ≤ sp ∧ ∀ a, a < sz0 → f a = f0 a.
Proof.
  unfold spec_exec. intros E. destruct (_ || _); [done|]. destruct (spec_load _ C _ 0 _) as [[sz0 f0]|] eqn:El; [|done].
  apply spec_load_size in El as Hsz0; [|done]. destruct (PGROUNDUP_spec sz0) as [Hrm Hrr]; [unfold KERNBASE, PGSIZE in *; lia|].
  unfold spec_stack in E. set (top := PGROUNDUP sz0 + 2 * PGSIZE) in *. destruct (Z.leb_spec KERNBASE top) as [|Htop]; [done|].
  destruct (spec_push (top - PGSIZE) argv [] top f0) as [[[ptrs sp1] f1]|] eqn:Ep; [|done].
  destruct (spec_push_ok (top - PGSIZE) top argv [] [] top f0 ptrs sp1 f1 Ep) as (Hpu & Hle & Hlow & Hm4 & Hbelow & Hmax);
    [unfold top, PGSIZE in *; Z.div_mod_to_equations; lia|lia|constructor|].
  specialize (Hmax ltac:(done)). specialize (Hlow ltac:(unfold PGSIZE; lia)). cbn [app] in Hpu.
  assert (length ptrs = length argv) as Hlen by (by eapply Forall2_length). set (argc := Z.of_nat (length ptrs)) in *.
  set (sp' := sp1 - 4 * (argc + 4)) in *. destruct (Z.ltb_spec sp' (top - PGSIZE)) as [|Hsp']; [done|].
  injection E as <- <- <- <-. unfold MAXARG in Hmax.
  assert (∀ i w, main_frame ptrs sp1 !! i = Some w → 0 ≤ w < 2 ^ 32 →
    load32 (put_at sp' (concat (word_bytes <$> main_frame ptrs sp1)) f1) (sp' + 4 * Z.of_nat i) = w) as Hw.
  { intros i w Hi Hr. rewrite (load32_put_words sp' _ f1 i w Hi). by apply u32_small. }
  assert (Z.of_nat (length (concat (word_bytes <$> main_frame ptrs sp1))) = 4 * (argc + 4)) as Hfl.
  { rewrite length_word_bytes, length_main_frame. unfold argc. lia. }
  set (f := put_at sp' _ f1) in *. assert (0 ≤ sp' ∧ sp1 < KERNBASE) as [Hs0 Hs1] by (unfold top, PGSIZE in *; lia).
  split_and!.
  - etransitivity; [|apply (Hw 0%nat 0xffffffff); done]. f_equal. lia.
  - rewrite <- Hlen. fold argc. apply (Hw 1%nat argc); [done|lia].
  - assert (sp1 - (argc + 1) * 4 = sp' + 12) as E12 by (unfold sp'; lia). rewrite <- E12.
    apply (Hw 2%nat (sp1 - (argc + 1) * 4)); [done|unfold KERNBASE in *; lia].
  - intros i a Hi. destruct (Forall2_lookup_r _ _ _ _ _ Hpu Hi) as (q & Hq & Hq1 & Hq2 & Hq3).
    assert (load32 f (sp' + 12 + 4 * Z.of_nat i) = q) as ->.
    { etransitivity; [|apply (Hw (3 + i)%nat q); [|unfold KERNBASE, top in *; lia]]; [f_equal; lia|]. unfold main_frame. cbn [app].
      change ((ptrs ++ [0]) !! i = Some q). by rewrite lookup_app_l by (by eapply lookup_lt_Some). }
    split_and!; [unfold sp', argc; lia|lia|]. apply str_at_below; [done|]. rewrite Hfl. unfold sp'. lia.
  - rewrite <- Hlen. etransitivity; [|apply (Hw (3 + length ptrs)%nat 0); [|done]]; [f_equal; lia|]. unfold main_frame. cbn [app].
    change ((ptrs ++ [0]) !! length ptrs = Some 0). by apply list_lookup_middle.
  - unfold sp'. Z.div_mod_to_equations; lia.
  - done.
  - rewrite <- Hlen. fold argc. unfold sp'. lia.
  - lia.
  - exists sz0, f0. split_and!; [done|lia|unfold top, PGSIZE in *; lia|]. intros a Ha. unfold f. rewrite put_at_out by (unfold top, PGSIZE in *; lia).
    apply Hbelow. unfold top, PGSIZE in *. lia.
Qed.

(** Claim C18: exec of a program returns without panic.  The conditions are
    those of [exec_ready]: the file system finds the program and reads it; each
    argument is shorter than a page; the loadable segments start at a page, do
    not wrap around at 2^32, and end at most at [lim] unless they reach into
    the kernel's part; and there are 1025 + 3 * (lim / 4096 + 5) free pages.
    When the file, the sizes and the arguments are good the process has a new
    space, made of pages that were free, whose memory is exactly the image of
    [spec_exec], with the kernel mapped as in every space and a closed guard
    page under the stack; its trap frame, size, name and the CPU's cr3 are set,
    and all pages of the old space are free again.  Otherwise exec returns -1,
    all pages are free again that were, and the process, its memory and the CPU
    are as before. *)
Theorem exec_correct {W} `{!ExecOps W} kend data me elf0 ph0 I (s : kstate W) c cur p l0 T0 U0 kst path argv ip C lim :
  exec_ready kend data me I s c cur p l0 T0 U0 kst path argv ip C lim →
  ∃ r s', exec kend data me elf0 ph0 path argv s = Ret (r, s') ∧
    match spec_exec C argv with
    | None => r = -1 ∧ unchanged kend l0 s s'
    | Some (entry, sz, sp, f) => r = 0 ∧ replaced kend data me l0 T0 U0 cur p path entry sz sp f s s'
    end.
Proof. apply exec_spec. Qed.

(** Claim C19: what [main] finds.  Under the same conditions, when exec returns
    0 the process continues at the entry point of the program, and this is what
    it reads in its memory: the stack pointer is aligned and points to a return
    address that is not valid, the number of arguments, and a pointer to the
    argument vector behind them; the vector ends with a null pointer, and each
    entry points to its argument as a string, inside the process; the segments
    of the program lie under the stack and are those of the file. *)
Theorem exec_arguments {W} `{!ExecOps W} kend data me elf0 ph0 I (s : kstate W) c cur p l0 T0 U0 kst path argv ip C lim s' :
  exec_ready kend data me I s c cur p l0 T0 U0 kst path argv ip C lim →
  exec kend data me elf0 ph0 path argv s = Ret (0, s') →
  ∃ q, procs (k_pt s') !! cur = Some q ∧ p_tf q = p_tf p ∧
    let m := umem (k_km s') (p_pgdir q) in
    let sp := load32 (km_mem (k_km s')) (p_tf q + tf_esp) in
    load32 (km_mem (k_km s')) (p_tf q + tf_eip) = e_entry (get_elfhdr C) ∧ sp mod 4 = 0 ∧
    load32 m sp = 0xffffffff ∧ load32 m (sp + 4) = Z.of_nat (length argv) ∧ load32 m (sp + 8) = sp + 12 ∧
    (∀ i a, argv !! i = Some a → sp < load32 m (sp + 12 + 4 * Z.of_nat i) ∧
       load32 m (sp + 12 + 4 * Z.of_nat i) + Z.of_nat (length a) < p_sz q ∧ str_at m (load32 m (sp + 12 + 4 * Z.of_nat i)) a) ∧
    load32 m (sp + 12 + 4 * Z.of_nat (length argv)) = 0 ∧
    ∃ sz0 f0, spec_load (Z.to_nat (e_phnum (get_elfhdr C))) C (e_phoff (get_elfhdr C)) 0 (λ _, 0) = Some (sz0, f0) ∧
      sz0 + PGSIZE ≤ sp ∧ ∀ a, 0 ≤ a < sz0 → m a = f0 a.
Proof.
  intros Hready E. destruct (exec_spec kend data me elf0 ph0 I s c cur p l0 T0 U0 kst path argv ip C lim Hready) as (r & s1 & E1 & Hres).
  rewrite E in E1. injection E1 as <- <-. destruct (spec_exec C argv) as [[[[entry sz] sp] f]|] eqn:Es; [|by destruct Hres].
  destruct Hres as [_ Hrep].
  destruct (spec_arguments C argv entry sz sp f Es) as (H1 & H2 & H3 & H4 & H5 & H6 & -> & H7 & sz0 & f0 & El & H0 & H8 & H9).
  assert (word_ok sp) as Hsp by (unfold word_ok, KERNBASE, PGSIZE in *; lia).
  assert (word_ok (e_entry (get_elfhdr C))) as He by (destruct Hready as [_ _ _ _ [] _ _ _]; by apply get32_word).
  destruct (replaced_frame _ _ _ _ _ _ _ _ _ _ _ _ _ _ _ _ _ _ _ _ _ _ Hready He Hsp Hrep) as [Heip Hesp].
  destruct Hrep as (c' & w' & d & T & U & l' & _ & _ & _ & Hpt & _ & Him). pose proof Hready as [Hkend _ _ [_ _ _ Hp _ _ _] _ _ _ _].
  eexists. split; [rewrite Hpt; cbn [procs set_procs]; apply list_lookup_insert_eq; by eapply lookup_lt_Some|]. split; [done|].
  cbn [p_tf p_sz p_pgdir set_sz set_pgdir set_name]. cbv zeta. rewrite Heip, Hesp.
  assert (∀ a, 0 ≤ a < sz → umem (k_km s') d a = f a) as Hm by (intros a Ha; by eapply image_umem).
  assert (∀ a, sp ≤ a → a + 4 ≤ sz → load32 (umem (k_km s') d) a = load32 f a) as Hl
    by (intros a Ha1 Ha2; apply load32_ext; intros b Hb; apply Hm; unfold PGSIZE in *; lia).
  split_and!; [done|done|by rewrite Hl by lia..| |by rewrite Hl by lia|].
  - intros i a Hi. pose proof (lookup_lt_Some _ _ _ Hi) as Hlt. rewrite Hl by lia. destruct (H4 i a Hi) as (G1 & G2 & G3).
    split_and!; [done|done|]. intros j Hj. rewrite Hm by (unfold PGSIZE in *; lia). by apply G3.
  - exists sz0, f0. split_and!; [done|done|]. intros a Ha. rewrite Hm by (unfold PGSIZE in *; lia). apply H9. lia.
Qed.

(** ** What exec does not check *)
Lemma word_kernel va fl : aligned va → KERNLINK ≤ va < KERNBASE + PHYSTOP → 0 ≤ fl < PGSIZE →
  PTE_ADDR (va - KERNBASE + fl) = va - KERNBASE ∧ p2v (va - KERNBASE) = va.
Proof.
  intros Ha Hva Hf. unfold aligned, KERNLINK, KERNBASE, EXTMEM, PHYSTOP, PGSIZE in *. split.
  - rewrite PTE_ADDR_div, u32_small by lia. unfold PGSIZE. Z.div_mod_to_equations; lia.
  - unfold p2v, KERNBASE. rewrite u32_small by lia. lia.
Qed.
(** [loaduvm] at a page of the kernel stores the file there, if it may. *)
Lemma load_kernel {W} `{!ExecOps W} kend data k0 l0 I ip C (s : kstate W) k l d T U f w sz g vaddr off n :
  KERNBASE < kend → aligned data ∧ KERNLINK < data < KERNBASE + PHYSTOP →
  image kend data k0 l0 k l d T U sz g f → I w → reads I ip C → Z.of_nat (length C) < 2 ^ 31 →
  aligned vaddr → KERNLINK ≤ vaddr < KERNBASE + PHYSTOP → word_ok off → 0 < n ≤ PGSIZE → off + n ≤ Z.of_nat (length C) →
  ∃ w', loaduvm data d vaddr ip off n (at_ s k w) =
    if vaddr <? data then Panic "trap"
    else Ret (0, at_ s (set_km_mem (put_at vaddr (slice C off n) (km_mem k)) k) w').
Proof.
  intros Hkend Hdata Him Hw Hread HC31 Hal Hv Hwo Hn Hoff.
  assert (word_ok vaddr) as Hwv by (unfold word_ok, KERNLINK, KERNBASE, EXTMEM, PHYSTOP in *; lia).
  pose proof (im_kern _ _ _ _ _ _ _ _ _ _ _ _ Him vaddr Hwv ltac:(unfold KERNLINK, EXTMEM in *; lia)) as Hpte.
  assert (∃ fl, 0 < fl < PGSIZE ∧ kpte data vaddr = vaddr - KERNBASE + fl) as (fl & Hfl & Ek).
  { destruct (Z.lt_ge_cases vaddr data); [exists 1|exists 3]; (split; [unfold PGSIZE; lia|]);
      [apply kpte_text|apply kpte_data]; (done || lia). }
  rewrite Ek in Hpte. pose proof (im_inv _ _ _ _ _ _ _ _ _ _ _ _ Him) as (_ & Hs1 & _). unfold pte in Hpte.
  destruct (T !! PDX vaddr) as [pt|] eqn:Ept; [|unfold KERNLINK, EXTMEM in *; lia].
  destruct (word_kernel vaddr fl Hal Hv ltac:(lia)) as [Ea Eb].
  assert (pt + 4 * PTX vaddr ≠ 0) as Hnz.
  { destruct Hs1 as [_ Htb _]. destruct (Htb _ _ Ept) as [_ (_ & Hk & _)]. pose proof (PTX_range vaddr). unfold KERNBASE in *. lia. }
  destruct (Hread w off n Hw Hwo) as (w2 & E3 & Hw2); [unfold PGSIZE in *; lia|]. unfold word_ok in *. rewrite file_read_in in E3 by lia. exists w2.
  unfold loaduvm. rewrite (proj2 (Z.eqb_eq _ _) Hal). cbn [negb loaduvm_loop]. rewrite (proj2 (Z.ltb_lt _ _)) by lia.
  rewrite !Z.add_0_r, !(u32_small vaddr), (u32_small off) by lia.
  rewrite (bind_ret _ _ _ (pt + 4 * PTX vaddr) (at_ s k w)) by
    (apply (on_km_ret _ (at_ s k w)); cbn [k_km at_ with_w with_km]; by rewrite (walk_hit kend Hkend k d T _ pt false Hs1 Ept)).
  rewrite (proj2 (Z.eqb_neq _ _)) by done. rewrite (bind_ret _ _ _ k (at_ s k w)) by reflexivity. rewrite Hpte, Ea, Eb.
  rewrite Z.sub_0_r, (u32_small n) by (unfold PGSIZE in *; lia).
  assert ((if n <? PGSIZE then n else PGSIZE) = n) as -> by (destruct (Z.ltb_spec n PGSIZE); lia).
  rewrite (bind_ret _ _ _ (n, slice C off n) (at_ s k w2)) by exact (on_w_ret _ (at_ s k w) _ _ E3).
  unfold kernel_store. rewrite length_slice by lia. rewrite (proj2 (Z.leb_le _ _)), (proj2 (Z.ltb_lt 0 n)) by lia.
  rewrite andb_true_l, andb_true_r. destruct (vaddr <? data); [reflexivity|].
  rewrite (bind_ret _ _ _ tt (at_ s (set_km_mem (put_at vaddr (slice C off n) (km_mem k)) k) w2)) by reflexivity.
  rewrite (u32_small n), Z.eqb_refl by (unfold PGSIZE in *; lia). cbn [negb]. change (u32 (0 + PGSIZE)) with PGSIZE.
  destruct (Z.to_nat (n / PGSIZE)); cbn [loaduvm_loop]; by rewrite (proj2 (Z.ltb_ge PGSIZE n)) by lia.
Qed.
(** Claim C39: exec can overwrite the kernel's data.  The sum of the address
    and the size of a segment is not checked for overflow.  Take a file whose
    last segment starts at a page of the kernel, in its first page has up to
    4096 bytes of the file, and whose size makes the sum wrap around to a small
    number.  If the page is text, which the kernel maps read-only, the store
    faults and the kernel panics; if it is behind the text, the loop of exec
    accepts the segment, and the bytes of the file are in the kernel's data. *)
Theorem exec_overwrites_kernel {W} `{!ExecOps W} kend data ph0 k0 l0 I ip C (s : kstate W) k l d T U f w off sz :
  KERNBASE < kend → aligned data ∧ KERNLINK < data < KERNBASE + PHYSTOP →
  image kend data k0 l0 k l d T U sz (-1) f → I w → reads I ip C → Forall byte_ok C → Z.of_nat (length C) < 2 ^ 31 →
  0 ≤ off → off + 32 ≤ Z.of_nat (length C) →
  let ph := get_proghdr (slice C off 32) in let new := u32 (ph_vaddr ph + ph_memsz ph) in
  ph_type ph = ELF_PROG_LOAD → aligned (ph_vaddr ph) → KERNLINK ≤ ph_vaddr ph < KERNBASE + PHYSTOP →
  0 < ph_filesz ph ≤ PGSIZE → ph_filesz ph ≤ ph_memsz ph → ph_off ph + ph_filesz ph ≤ Z.of_nat (length C) →
  0 < new < KERNBASE → enough l0 new →
  if ph_vaddr ph <? data then exec_load kend data ph0 1 d ip off sz (at_ s k w) = Panic "trap"
  else ∃ sz' k' w', exec_load kend data ph0 1 d ip off sz (at_ s k w) = Ret (Some sz', at_ s k' w') ∧
    ∀ i, 0 ≤ i < ph_filesz ph → km_mem k' (ph_vaddr ph + i) = default 0 (C !! Z.to_nat (ph_off ph + i)).
Proof.
  intros Hkend Hdata Him Hw Hread HC HC31 Ho Hoc ph new Ht Hal Hv Hfs Hms Hoff Hnew Hen.
  assert (length (slice C off 32) = 32%nat) as Hlb by (apply Nat2Z.inj; rewrite length_slice by lia; done).
  destruct (Hread w off 32 Hw) as (w1 & E1 & Hw1); [unfold word_ok; lia|lia|]. rewrite file_read_in in E1 by lia.
  cbn [exec_load]. rewrite (bind_ret _ _ _ (32, slice C off 32) (at_ s k w1)) by exact (on_w_ret _ (at_ s k w) _ _ E1).
  change (negb (u32 32 =? sizeof_proghdr)) with false. cbv iota zeta. rewrite get_proghdr_filled by done. fold ph.
  rewrite (proj2 (Z.eqb_eq _ _) Ht). cbn [negb]. rewrite (proj2 (Z.ltb_ge (ph_memsz ph) _)) by lia. fold new.
  destruct (image_alloc kend data Hkend Hdata k0 l0 k l d T U sz new f Him) as [[? _]|(_ & k1 & l1 & T1 & U1 & E2 & Him1)]; [lia|done|lia|].
  rewrite (bind_ret _ _ _ (sz `max` new) (at_ s k1 w1)) by exact (on_km_ret _ (at_ s k w1) _ _ E2).
  rewrite (proj2 (Z.eqb_neq _ _)) by lia. assert (word_ok (ph_off ph)) as Hwo by by apply get32_word, slice_ok.
  destruct (load_kernel kend data k0 l0 I ip C s k1 l1 d T1 U1 f w1 _ _ (ph_vaddr ph) (ph_off ph) (ph_filesz ph)
    Hkend Hdata Him1 Hw1 Hread HC31 Hal Hv Hwo Hfs Hoff) as (w2 & E3).
  destruct (ph_vaddr ph <? data); [unfold bind; by rewrite E3|].
  rewrite (bind_ret _ _ _ _ _ E3). rewrite (proj2 (Z.ltb_ge 0 0)) by lia. eexists _, _, w2. split; [reflexivity|].
  intros i Hi. cbn [km_mem set_km_mem]. unfold word_ok in Hwo.
  assert (Z.of_nat (length (slice C (ph_off ph) (ph_filesz ph))) = ph_filesz ph) as Hls by (apply length_slice; lia).
  rewrite put_at_in by lia. f_equal. unfold slice. rewrite lookup_take_lt, lookup_drop by lia. f_equal. lia.
Qed.

(** ** A small program *)
(** An ELF file with one segment of 4 bytes at address 0, 8 in memory. *)
Definition welf : list Z :=
  [0x7f; 0x45; 0x4c; 0x46] ++ replicate 20 0 ++ [16; 0; 0; 0] ++ [52; 0; 0; 0] ++ replicate 12 0 ++ [1; 0] ++ replicate 6 0 ++
  [1; 0; 0; 0; 84; 0; 0; 0; 0; 0; 0; 0; 0; 0; 0; 0; 4; 0; 0; 0; 8; 0; 0; 0; 7; 0; 0; 0; 0; 0; 0; 0] ++ [1; 2; 3; 4].
Lemma welf_loads : match spec_exec welf [[104; 105]] with
  | Some (entry, sz, sp, f) => entry = 16 ∧ sz = 0x3000 ∧ sp = 0x2fe8 ∧ bytes_at f 0 6 = [1; 2; 3; 4; 0; 0]
  | None => False
  end.
Proof. by vm_compute. Qed.

(** A file system with this file only. *)
Definition wops : ExecOps unit := {|
  eo_begin_op := skip; eo_end_op := skip; eo_namei _ _ := ret 1; eo_ilock _ := skip;
  eo_readi _ off n := ret (file_read welf off n); eo_iunlockput _ := skip |}.
(** A process with the space [wT], [wU] of VmThm.v, and 1100 free pages. *)
Definition xstart : Z := 0x80600000.
Definition xpage (i : nat) : Z := xstart + 4096 * Z.of_nat i.
Definition xfree : list Z := xpage <$> seq 0 1100.
Definition xnext (i : Z) : Z := if i =? 1099 then 0 else xstart + 4096 * (i + 1).
Definition xmem : mem := λ a,
  let o := a - xstart in
  if (0 <=? o) && (o <? 1100 * 4096) then u8 (xnext (o / 4096) / 2 ^ (8 * (o mod 4096))) else wmem a.
Definition xk : kmem := mkKmem 0 xstart xmem.
Definition xproc : proc := set_tf (0x80503000 + 4096 - 76) (set_pgdir 0x80500000 (set_sz 4096 init_proc)).
Definition xstate : kstate unit :=
  mkK [mkCpu 0 0 0 0 (Some 0%nat) true 0] [] (mkPt [xproc] [None; None; None] None 50) [KForkret] None 2 0 0 xk tt.
Lemma xpage_ok i : (i < 1100)%nat → page_ok 0x80400000 (xpage i).
Proof.
  intros Hi. unfold page_ok, xpage, xstart, v2p, PGSIZE. rewrite u32_small by (unfold KERNBASE; lia). unfold KERNBASE, PHYSTOP.
  split_and!; [Z.div_mod_to_equations; lia|lia..].
Qed.
Lemma xmem_next i : (i < 1100)%nat → load32 xmem (xpage i) = xnext (Z.of_nat i).
Proof.
  intros Hi. assert (0 ≤ xnext (Z.of_nat i) < 2 ^ 32) as Hr by (unfold xnext, xstart; destruct (_ =? _); lia).
  assert (∀ j, 0 ≤ j < 4 → xmem (xpage i + j) = u8 (xnext (Z.of_nat i) / 2 ^ (8 * j))) as Hb.
  { intros j Hj. unfold xmem, xpage. replace (xstart + 4096 * Z.of_nat i + j - xstart) with (4096 * Z.of_nat i + j) by lia.
    rewrite (proj2 (Z.leb_le _ _)), (proj2 (Z.ltb_lt _ _)) by lia. cbn [andb].
    replace ((4096 * Z.of_nat i + j) / 4096) with (Z.of_nat i) by (Z.div_mod_to_equations; lia).
    by replace ((4096 * Z.of_nat i + j) mod 4096) with j by (Z.div_mod_to_equations; lia). }
  unfold load32. rewrite <- (Z.add_0_r (xpage i)) at 1. rewrite !Hb by lia. set (v := xnext (Z.of_nat i)) in *. unfold u8.
  change (2 ^ (8 * 0)) with 1. change (2 ^ (8 * 1)) with 256. change (2 ^ (8 * 2)) with 65536. change (2 ^ (8 * 3)) with 16777216.
  Z.div_mod_to_equations; lia.
Qed.
Lemma xchain n : ∀ i, (i + n = 1100)%nat → free_chain 0x80400000 xmem (if (n =? 0)%nat then 0 else xpage i) (xpage <$> seq i n).
Proof.
  induction n as [|n IH]; intros i Hi; [done|]. cbn [seq fmap list_fmap free_chain Nat.eqb]. split_and!; [done|apply xpage_ok; lia|].
  rewrite xmem_next by lia. assert (xnext (Z.of_nat i) = if (n =? 0)%nat then 0 else xpage (S i)) as ->; [|apply IH; lia].
  unfold xnext. destruct (Nat.eqb_spec n 0), (Z.eqb_spec (Z.of_nat i) 1099); try lia. unfold xpage. lia.
Qed.
Lemma xspace : uinv 0x80400000 xk xfree 0x80500000 wT wU.
Proof.
  apply (uinv_frame 0x80400000 wk wfree 0x80500000 wT wU xk xfree xfree wspace).
  - split_and!.
    + intros a. unfold xk, xmem. cbn [km_mem]. destruct (_ && _); [apply u8_range|]. apply wspace.
    + exact (xchain 1100 0 eq_refl).
    + apply NoDup_fmap; [|apply NoDup_seq]. intros i j. unfold xpage. lia.
  - intros q x Hq Hn Hx. unfold xk, wk, xmem. cbn [km_mem]. destruct (Z.leb_spec 0 (x - xstart)), (Z.ltb_spec (x - xstart) (1100 * 4096)); try done.
    exfalso. apply Hn. apply list_elem_of_fmap. destruct Hq as (Hq & _). unfold in_page, PGSIZE, xstart in *.
    exists (Z.to_nat ((q - 0x80600000) / 4096)). split; [unfold xpage, xstart; rewrite Z2Nat.id; Z.div_mod_to_equations; lia|].
    apply elem_of_seq. Z.div_mod_to_equations; lia.
  - intros x Hx Hf. unfold tpages, vals, wT in Hx. rewrite map_to_list_singleton in Hx. cbn in Hx.
    apply list_elem_of_fmap in Hf as (i & -> & _). unfold xpage, xstart in Hx. rewrite !elem_of_cons, elem_of_nil in Hx. lia.
  - unfold tpages, vals, wT, wU. rewrite !map_to_list_singleton. cbn [app fmap list_fmap snd].
    assert (∀ x, x < xstart → x ∉ xfree) as Hn.
    { intros x Hx (i & -> & _)%list_elem_of_fmap. unfold xpage in Hx. lia. }
    assert (NoDup xfree) as Hnd by (apply NoDup_fmap; [intros i j; unfold xpage; lia|apply NoDup_seq]).
    revert Hn Hnd. generalize xfree. intros l Hn Hnd. pose proof (Hn 0x80500000 ltac:(done)). pose proof (Hn 0x80501000 ltac:(done)).
    pose proof (Hn 0x80502000 ltac:(done)). do 3 (apply NoDup_cons; split; [rewrite ?elem_of_cons; intuition lia|]). done.
Qed.
Lemma xready : @exec_ready unit wops 0x80400000 0x80109000 0 (λ _, True) xstate (mkCpu 0 0 0 0 (Some 0%nat) true 0) 0 xproc xfree wT wU 0x80503000
    [47; 97] [[104; 105]] 1 welf 4096.
Proof.
  split.
  - unfold KERNBASE. lia.
  - split; [done|]. unfold KERNLINK, KERNBASE, EXTMEM, PHYSTOP. lia.
  - lia.
  - split; [reflexivity|reflexivity|cbn; lia|reflexivity|exact xspace| |].
    + split; [apply wpage; set_solver|]. unfold tpages, vals, wT, wU. rewrite !map_to_list_singleton. cbn [app fmap list_fmap snd].
      change (p_pgdir xproc) with 0x80500000. rewrite !elem_of_cons. intros [?|[?|[?|(i & Hi & _)%list_elem_of_fmap]]]; [lia..|].
      unfold xpage, xstart in Hi. lia.
    + change (p_tf xproc) with (0x80503000 + 4096 - 76). unfold sizeof_trapframe, PGSIZE. lia.
  - split; [exists tt, tt, tt; done|done|intros [] off n _ _ _; exists tt; split; [reflexivity|exact I]|intros []; exists tt, tt; done| |by vm_compute].
    apply (bool_decide_unpack _). by vm_compute.
  - repeat constructor; by vm_compute.
  - split; [lia|]. unfold enough. apply Nat.leb_le. by vm_compute.
  - split; [|done]. intros _ _ _. split_and!; [by vm_compute..|]. intros _. by vm_compute.
Qed.
Lemma welf_some : ∃ o, spec_exec welf [[104; 105]] = Some o.
Proof. pose proof welf_loads as Hl. destruct (spec_exec welf _) as [o|]; [by exists o|destruct Hl]. Qed.
Lemma exec_correct_witness : ∃ s', @exec unit wops 0x80400000 0x80109000 0 [] [] [47; 97] [[104; 105]] xstate = Ret (0, s').
Proof.
  destruct (@exec_correct unit wops 0x80400000 0x80109000 0 [] [] _ _ _ _ _ _ _ _ _ _ _ _ _ _ xready) as (r & s' & E & Hr).
  exists s'. destruct welf_some as [[[[entry sz] sp] f] Eo]. rewrite Eo in Hr. destruct Hr as [-> _]. exact E.
Defined.
Lemma xrun : ∃ s', @exec unit wops 0x80400000 0x80109000 0 [] [] [47; 97] [[104; 105]] xstate = Ret (0, s').
Proof.
  destruct (@exec_spec unit wops 0x80400000 0x80109000 0 [] [] _ _ _ _ _ _ _ _ _ _ _ _ _ _ xready) as (r & s' & E & Hr).
  exists s'. destruct welf_some as [[[[entry sz] sp] f] Eo]. rewrite Eo in Hr. destruct Hr as [-> _]. exact E.
Qed.
Lemma exec_arguments_witness : ∃ s' q, @exec unit wops 0x80400000 0x80109000 0 [] [] [47; 97] [[104; 105]] xstate = Ret (0, s') ∧
  procs (k_pt s') !! 0%nat = Some q ∧ load32 (km_mem (k_km s')) (p_tf q + tf_eip) = 16 ∧
  let m := umem (k_km s') (p_pgdir q) in let sp := load32 (km_mem (k_km s')) (p_tf q + tf_esp) in
  load32 m (sp + 4) = 1 ∧ str_at m (load32 m (sp + 12)) [104; 105].
Proof.
  destruct xrun as [s' E].
  destruct (@exec_arguments unit wops 0x80400000 0x80109000 0 [] [] _ _ _ _ _ _ _ _ _ _ _ _ _ _ s' xready E)
    as (q & Hq & _ & H1 & _ & _ & H2 & _ & H3 & _).
  exists s', q. split_and!; [exact E|exact Hq|rewrite H1; by vm_compute|]. cbv zeta in *. split; [exact H2|].
  destruct (H3 0%nat [104; 105] eq_refl) as (_ & _ & H). change (4 * Z.of_nat 0) with 0 in H. rewrite Z.add_0_r in H. exact H.
Defined.

(** The file with its segment at the kernel's data, wrapping around to one page. *)
Definition wbad : list Z :=
  take 52 welf ++ [1; 0; 0; 0; 84; 0; 0; 0; 0; 0xa0; 0x10; 0x80; 0; 0; 0; 0; 4; 0; 0; 0; 0; 0x70; 0xef; 0x7f; 7; 0; 0; 0; 0; 0; 0; 0] ++ [1; 2; 3; 4].
Definition wbad_ops : ExecOps unit := {|
  eo_begin_op := skip; eo_end_op := skip; eo_namei _ _ := ret 1; eo_ilock _ := skip;
  eo_readi _ off n := ret (file_read wbad off n); eo_iunlockput _ := skip |}.
Lemma exec_overwrites_kernel_witness : ∃ d k sz' k', setupkvm 0x80109000 xk = Ret (d, k) ∧
  @exec_load unit wbad_ops 0x80400000 0x80109000 [] 1 d 1 52 0 (at_ xstate k tt) = Ret (Some sz', at_ xstate k' tt) ∧ km_mem k' 0x8010a002 = 3.
Proof.
  assert (aligned 0x80109000 ∧ KERNLINK < 0x80109000 < KERNBASE + PHYSTOP) as Hdata.
  { split; [done|]. unfold KERNLINK, KERNBASE, EXTMEM, PHYSTOP. lia. }
  destruct (image_setup 0x80400000 0x80109000 ltac:(unfold KERNBASE; lia) Hdata xk xfree) as (d & k & T & l & E & Hd & Him).
  { apply xspace. }
  { apply Nat.ltb_lt. by vm_compute. }
  assert ((ph_vaddr (get_proghdr (slice wbad 52 32)) <? 0x80109000) = false) as Hv by by vm_compute.
  pose proof (@exec_overwrites_kernel unit wbad_ops 0x80400000 0x80109000 [] xk xfree (λ _, True) 1 wbad xstate k l d T ∅ (λ _, 0) tt 52 0) as Hx.
  cbv zeta in Hx. rewrite Hv in Hx. destruct Hx as (sz' & k' & [] & E' & Hb).
  - unfold KERNBASE. lia.
  - exact Hdata.
  - exact Him.
  - done.
  - intros [] off n _ _ _. exists tt. split; [reflexivity|exact I].
  - apply (bool_decide_unpack _). by vm_compute.
  - by vm_compute.
  - lia.
  - apply Z.leb_le. by vm_compute.
  - by vm_compute.
  - by vm_compute.
  - split; [apply Z.leb_le|apply Z.ltb_lt]; by vm_compute.
  - split; [apply Z.ltb_lt|apply Z.leb_le]; by vm_compute.
  - apply Z.leb_le. by vm_compute.
  - apply Z.leb_le. by vm_compute.
  - split; apply Z.ltb_lt; by vm_compute.
  - unfold enough. apply Nat.leb_le. by vm_compute.
  - exists d, k, sz', k'. split_and!; [exact E|exact E'|]. apply (Hb 2). split; [lia|apply Z.ltb_lt; by vm_compute].
Defined.

(** A segment that is not page aligned stops the kernel. *)
Example loaduvm_unaligned {W} `{!ExecOps W} data d ip off n (s : kstate W) :
  loaduvm data d 0x1001 ip off n s = Panic "loaduvm: addr must be page aligned".
Proof. reflexivity. Qed.
(** The error -1 of [readi] is not less than the size of the header. *)
Example elf_check_unsigned : (u32 (-1) <? sizeof_elfhdr) = false.
Proof. reflexivity. Qed.
