(* ===== verification/ExecFs.v ===== *)
(** * The file system under exec

    exec.c relies on [readi] through the class [ExecOps]; fs.c keeps the
    promise: within a transaction, a locked regular file is read as its bytes. *)
From S2P Require Import Prelude Machine Block Bio Log Fs FsBits LogThm FsThm Exec ExecThm.

Open Scope Z_scope.

(** The bytes of a file on the disk [c]. *)
Definition file_bytes (dev : Z) (c : disk) (ip : inode) : list Z := fbyte dev c ip <$> seqZ 0 (i_size ip).

Lemma slice_fmap (f : Z → Z) n off m : 0 ≤ off → 0 ≤ m → off + m ≤ n → slice (f <$> seqZ 0 n) off m = f <$> seqZ off m.
Proof.
  intros Ho Hm Hn. apply list_eq. intros i. unfold slice. destruct (decide (i < Z.to_nat m)%nat) as [Hi|Hi].
  - rewrite lookup_take_lt, lookup_drop, !list_lookup_fmap by done. rewrite !lookup_seqZ_lt by lia. cbn. do 2 f_equal. lia.
  - rewrite !lookup_ge_None_2; [done| |]; rewrite ?length_take, ?length_drop, ?length_fmap, ?length_seqZ; lia.
Qed.

Lemma fs_reads start size_ dev sb dv tr devsw name0 ic c bl i ip :
  log_geometry start size_ dev → sb_ok start size_ sb → ic !! i = Some ip → file_ok start size_ dev sb c ip →
  i_type ip ≠ T_DEV → (length bl < 30)%nat →
  @reads fstate (fs_exec_ops devsw name0) (λ s, ftx start size_ dev sb dv tr s ic c bl ∅) (inode_ptr i) (file_bytes dev c ip).
Proof.
  intros Hgeo Hsb Hi Hf Ht Hl s off n Hs Hoff Hn. change (eo_readi (inode_ptr i) off n s) with (readi devsw (inode_of (inode_ptr i)) off n s).
  assert (inode_of (inode_ptr i) = i) as -> by (unfold inode_of, inode_ptr; lia).
  pose proof (fk_size _ _ _ _ _ _ Hf) as Hsz. rewrite MAXFILE_eq in Hsz. unfold BSIZE in Hsz.
  assert (Z.of_nat (length (file_bytes dev c ip)) = i_size ip) as Hlen by (unfold file_bytes; rewrite length_fmap, length_seqZ; lia).
  unfold file_read. rewrite Hlen. unfold word_ok in Hoff. destruct (Z.ltb_spec (i_size ip) off) as [Hgt|Hle]; cbn [orb].
  - assert (wp False (readi devsw i off n) (λ a s', a = (-1, []) ∧ s' = s) s) as Hwp.
    { unfold readi. apply wp_bind. eapply f_get_inode; [done..|]. rewrite (proj2 (Z.eqb_neq _ _)) by done.
      rewrite (proj2 (Z.ltb_lt _ _)) by done. by apply wp_ret. }
    destruct (wp_ok _ _ _ Hwp) as (a & s' & E & -> & ->). exists s. done.
  - rewrite (u32_small (off + n)) by lia. rewrite (proj2 (Z.ltb_ge (off + n) off)) by lia.
    assert (wp False (readi devsw i off n) (λ a s', a = (Z.min n (i_size ip - off), fbyte dev c ip <$> seqZ off (Z.min n (i_size ip - off))) ∧
      ftx start size_ dev sb dv tr s' ic c bl ∅) s) as Hwp.
    { eapply wp_readi; [done..|lia|lia|unfold word_ok; lia|]. intros s' Hs'. done. }
    destruct (wp_ok _ _ _ Hwp) as (a & s' & E & -> & Hs'). exists s'. split; [|done]. rewrite E. f_equal. f_equal.
    assert ((if i_size ip <? off + n then i_size ip - off else n) = Z.min n (i_size ip - off)) as ->.
    { destruct (Z.ltb_spec (i_size ip) (off + n)); lia. }
    f_equal. symmetry. apply slice_fmap; lia.
Qed.
