(* ===== verification/Boot.v ===== *)
(** * The boot loader (bootmain.c) and the boot page table (main.c)

    [bootmain] runs on the disk controller of Ide.v and on the physical memory:
    it reads the kernel, an ELF file that starts in sector 1 of the disk, and
    says where to jump. *)
From S2P Require Import Prelude Machine CString Block Bio Exec Ide.

Open Scope Z_scope.

Definition SECTSIZE : Z := 512.
Record bootst := mkBootst { bt_ata : ata; bt_mem : mem }.
Abbreviation B := (M bootst).
Definition set_bt_ata (a : ata) (s : bootst) : bootst := mkBootst a (bt_mem s).
Definition set_bt_mem (m : mem) (s : bootst) : bootst := mkBootst (bt_ata s) m.
Definition boot_outb (port v : Z) : B unit := modify (λ s, set_bt_ata (outb port v (bt_ata s)) s).
Definition boot_status : B Z := λ s, let '(v, a) := inb_status (bt_ata s) in Ret (v, set_bt_ata a s).

(** Every loop has the fuel it is given; [bootmain_loads_kernel] says how much
    is enough. *)
Fixpoint waitdisk (fuel : nat) : B unit :=
  match fuel with
  | O => diverge
  | S fuel => let! r := boot_status in if negb (Z.land r 0xC0 =? 0x40) then waitdisk fuel else skip
  end.
Definition readsect (fuel : nat) (dst offset : Z) : B unit :=
  waitdisk fuel ;!
  boot_outb 0x1F2 1 ;!
  boot_outb 0x1F3 offset ;!
  boot_outb 0x1F4 (Z.shiftr offset 8) ;!
  boot_outb 0x1F5 (Z.shiftr offset 16) ;!
  boot_outb 0x1F6 (Z.lor (Z.shiftr offset 24) 0xE0) ;!
  boot_outb 0x1F7 0x20 ;!
  waitdisk fuel ;!
  modify (λ s, set_bt_mem (put_at dst (insl (Z.to_nat (SECTSIZE / 4)) (bt_ata s)) (bt_mem s)) s).
Fixpoint readseg_loop (fuel n : nat) (pa epa offset : Z) : B unit :=
  match n with
  | O => diverge
  | S n =>
      if pa <? epa then
        readsect fuel pa offset ;! readseg_loop fuel n (u32 (pa + SECTSIZE)) epa (u32 (offset + 1))
      else skip
  end.
Definition readseg (fuel : nat) (pa count offset : Z) : B unit :=
  let epa := u32 (pa + count) in
  let pa := u32 (pa - offset mod SECTSIZE) in
  let offset := offset / SECTSIZE + 1 in
  readseg_loop fuel fuel pa epa offset.

(** The structures in memory, as [elf] and [ph] point to them. *)
Definition elf_at (p : Z) : B elfhdr := gets (λ s, get_elfhdr (bytes_at (bt_mem s) p (Z.to_nat sizeof_elfhdr))).
Definition ph_at (p : Z) : B proghdr := gets (λ s, get_proghdr (bytes_at (bt_mem s) p (Z.to_nat sizeof_proghdr))).
Fixpoint load_segments (fuel n : nat) (ph eph : Z) : B unit :=
  match n with
  | O => diverge
  | S n =>
      if ph <? eph then
        let! h := ph_at ph in
        let pa := ph_paddr h in
        readseg fuel pa (ph_filesz h) (ph_off h) ;!
        let! h := ph_at ph in
        (if ph_filesz h <? ph_memsz h then
           modify (λ s, set_bt_mem (stosb (bt_mem s) (u32 (pa + ph_filesz h)) 0 (Z.to_nat (ph_memsz h - ph_filesz h))) s)
         else skip) ;!
        load_segments fuel n (u32 (ph + sizeof_proghdr)) eph
      else skip
  end.
(** [Some entry] is the jump to the kernel, [None] a return to bootasm.S. *)
Definition bootmain (fuel : nat) : B (option Z) :=
  let elf := 0x10000 in
  readseg fuel elf 4096 0 ;!
  let! h := elf_at elf in
  if negb (e_magic h =? ELF_MAGIC) then ret None
  else
    let ph := u32 (elf + e_phoff h) in
    let eph := u32 (ph + sizeof_proghdr * e_phnum h) in
    load_segments fuel fuel ph eph ;!
    let! h := elf_at elf in
    ret (Some (e_entry h)).

(** ** What the disk holds

    Byte [i] of the kernel's file. *)
Definition kernel_byte (d : disk) (i : Z) : Z := get8 (d 0 (1 + i / SECTSIZE)) (Z.to_nat (i mod SECTSIZE)).
Definition kernel_elf (d : disk) : elfhdr := get_elfhdr (bytes_at (kernel_byte d) 0 (Z.to_nat sizeof_elfhdr)).
Definition kernel_ph (d : disk) (i : nat) : proghdr :=
  get_proghdr (bytes_at (kernel_byte d) (e_phoff (kernel_elf d) + sizeof_proghdr * Z.of_nat i) (Z.to_nat sizeof_proghdr)).
Definition kernel_phs (d : disk) : list proghdr := kernel_ph d <$> seq 0 (Z.to_nat (e_phnum (kernel_elf d))).

(** What a call of [readseg] writes: whole sectors, from [seg_start] up to
    [seg_stop]. *)
Definition seg_start (pa off : Z) : Z := pa - off mod SECTSIZE.
Definition nsects (count off : Z) : Z := (count + off mod SECTSIZE + (SECTSIZE - 1)) / SECTSIZE.
Definition seg_stop (pa count off : Z) : Z := seg_start pa off + SECTSIZE * nsects count off.
Definition copied (d : disk) (pa count off : Z) (m : mem) : mem :=
  λ a, if (seg_start pa off <=? a) && (a <? seg_stop pa count off) then kernel_byte d (off + (a - pa)) else m a.
Definition loaded (d : disk) (m : mem) (h : proghdr) : mem :=
  λ a, if (ph_paddr h + ph_filesz h <=? a) && (a <? ph_paddr h + ph_memsz h) then 0
       else copied d (ph_paddr h) (ph_filesz h) (ph_off h) m a.
(** The bytes a segment overwrites *)
Definition touched (h : proghdr) (a : Z) : Prop :=
  seg_start (ph_paddr h) (ph_off h) ≤ a < Z.max (seg_stop (ph_paddr h) (ph_filesz h) (ph_off h)) (ph_paddr h + ph_memsz h).

(** ** Reading *)
Definition boot_ata (slow : nat) (a : ata) : Prop := a_err a = false ∧ (a_busy a ≤ slow)%nat ∧ (a_slow a ≤ slow)%nat.
Definition boot_ready (slow : nat) (a : ata) : Prop :=
  boot_ata slow a ∧ (a_drive1 a = true ∨ drive a = 0) ∧ ∀ n, block_ok (a_disk a 0 n).

Lemma waitdisk_ready slow : ∀ fuel s, boot_ready slow (bt_ata s) → (a_busy (bt_ata s) < fuel)%nat →
  waitdisk fuel s = Ret (tt, set_bt_ata (settled (bt_ata s)) s).
Proof.
  induction fuel as [|fuel IH]; intros s ((He & Hb & Hs) & Hd & Hk) Hf; [lia|]. cbn [waitdisk].
  unfold bind, boot_status, inb_status. rewrite status_ready by done.
  destruct s as [[n l0 l1 l2 d b sl e p1 dat wt dk] m]. cbn [bt_ata a_busy a_err] in *. subst e.
  destruct b as [|b]; [done|].
  transitivity (waitdisk fuel (mkBootst (mkAta n l0 l1 l2 d b sl false p1 dat wt dk) m)); [reflexivity|].
  rewrite IH; [done| |cbn; lia]. split_and!; [split_and!; cbn in *; [done|lia|lia]|exact Hd|exact Hk].
Qed.
Lemma boot_select s a : 0 ≤ s < 2 ^ 24 →
  outb 0x1F6 (Z.lor (Z.shiftr s 24) 0xE0) (outb 0x1F5 (Z.shiftr s 16) (outb 0x1F4 (Z.shiftr s 8)
    (outb 0x1F3 s (outb 0x1F2 1 (settled a))))) = selected 0 s a.
Proof.
  intros Hs. destruct a as [n l0 l1 l2 d b sl e p1 dat wt dk]. unfold outb, settled, set_a_busy, selected.
  cbn [r_count r_lba0 r_lba1 r_lba2 r_dev a_busy a_slow a_err a_drive1 a_data a_want a_disk]. cbn [Z.eqb Pos.eqb].
  rewrite !Z.shiftr_div_pow2 by lia. assert (s / 2 ^ 24 = 0) as -> by (apply Z.div_small; lia). done.
Qed.

Lemma readsect_spec fuel slow dst off s : boot_ready slow (bt_ata s) → (slow < fuel)%nat → 0 ≤ off < 2 ^ 24 →
  ∃ a, readsect fuel dst off s = Ret (tt, mkBootst a (put_at dst (a_disk (bt_ata s) 0 off) (bt_mem s))) ∧
    boot_ready slow a ∧ a_disk a = a_disk (bt_ata s).
Proof.
  intros Hr Hf Ho. destruct s as [a m]. cbn [bt_ata bt_mem] in *. pose proof Hr as ((He & Hb & Hsl) & Hd & Hk).
  destruct (selected_address 0 off a) as [Hdr Hlb]; [by left|done|].
  unfold readsect. erewrite bind_Ret by (apply (waitdisk_ready slow); [done|cbn; lia]).
  do 6 (erewrite bind_Ret by reflexivity). cbn [bt_ata bt_mem set_bt_ata]. rewrite boot_select by done.
  change 0x20 with IDE_CMD_READ. rewrite read_sector. set (a1 := selected 0 off a) in *. rewrite Hdr, Hlb.
  set (a2 := mkAta _ _ _ _ _ _ _ _ _ _ _ _).
  assert (boot_ready slow a2) as Hr2.
  { split_and!; [split_and!; cbn; [done|lia|lia]|right; exact Hdr|done]. }
  exists (settled a2). erewrite bind_Ret by (apply (waitdisk_ready slow); [exact Hr2|cbn; lia]).
  split; [|split; [|done]].
  - unfold modify. cbn [bt_ata bt_mem set_bt_ata set_bt_mem]. unfold insl. cbn [settled set_a_busy a_data a2].
    change (4 * Z.to_nat (SECTSIZE / 4))%nat with 512%nat. rewrite take_ge; [done|]. destruct (Hk off) as [Hl _]. rewrite Hl. done.
  - destruct Hr2 as ((? & ? & ?) & Hd2 & ?). split_and!; [split_and!; cbn; [done|lia|lia]|exact Hd2|done].
Qed.
Lemma put_at_block dst d m b : block_ok d →
  put_at dst d m b = if (dst <=? b) && (b <? dst + SECTSIZE) then get8 d (Z.to_nat (b - dst)) else m b.
Proof. intros [Hl _]. unfold put_at. by rewrite Hl. Qed.
Lemma readseg_loop_spec fuel slow : (slow < fuel)%nat → ∀ k n pa epa o s, boot_ready slow (bt_ata s) → (k < n)%nat →
  epa ≤ pa + SECTSIZE * Z.of_nat k → ((0 < k)%nat → pa + SECTSIZE * (Z.of_nat k - 1) < epa) →
  0 ≤ pa → pa + SECTSIZE * Z.of_nat k < 2 ^ 32 → 0 ≤ o → o + Z.of_nat k ≤ 2 ^ 24 →
  ∃ a m, readseg_loop fuel n pa epa o s = Ret (tt, mkBootst a m) ∧ boot_ready slow a ∧ a_disk a = a_disk (bt_ata s) ∧
    ∀ b, m b = if (pa <=? b) && (b <? pa + SECTSIZE * Z.of_nat k)
               then get8 (a_disk (bt_ata s) 0 (o + (b - pa) / SECTSIZE)) (Z.to_nat ((b - pa) mod SECTSIZE)) else bt_mem s b.
Proof.
  intros Hf. unfold SECTSIZE in *. induction k as [|k IH]; intros n pa epa o s Hr Hn Hlo Hhi Hpa Hend Ho Hoe.
  - destruct n as [|n]; [lia|]. cbn [readseg_loop]. destruct (Z.ltb_spec pa epa); [lia|]. destruct s as [a m].
    exists a, m. split_and!; [done|done|done|]. intros b. cbn [bt_mem].
    destruct (Z.leb_spec pa b), (Z.ltb_spec b (pa + 512 * Z.of_nat 0)); cbn [andb]; (done || lia).
  - destruct n as [|n]; [lia|]. cbn [readseg_loop]. destruct (Z.ltb_spec pa epa) as [_|]; [|lia].
    destruct (readsect_spec fuel slow pa o s Hr Hf) as (a & E & Ha & Hd); [lia|]. erewrite bind_Ret by exact E.
    unfold SECTSIZE. rewrite !u32_small by lia.
    destruct (IH n (pa + 512) epa (o + 1) (mkBootst a (put_at pa (a_disk (bt_ata s) 0 o) (bt_mem s)))) as (a' & m & E' & Ha' & Hd' & Hm);
      [exact Ha|lia..|]. exists a', m. rewrite E'. cbn [bt_ata bt_mem] in *. rewrite Hd in Hd', Hm. split_and!; [done|done|done|].
    destruct Hr as (_ & _ & Hk). intros b. rewrite Hm, put_at_block by apply Hk. unfold SECTSIZE.
    destruct (Z.leb_spec (pa + 512) b), (Z.ltb_spec b (pa + 512 + 512 * Z.of_nat k)), (Z.leb_spec pa b),
      (Z.ltb_spec b (pa + 512 * Z.of_nat (S k))), (Z.ltb_spec b (pa + 512)); cbn [andb]; try (done || lia).
    + replace (b - pa) with (b - (pa + 512) + 1 * 512) by lia. rewrite Z.div_add, Z.mod_add by lia. f_equal; f_equal. lia.
    + rewrite Z.div_small, Z.mod_small by lia. by rewrite Z.add_0_r.
Qed.

(** The sectors of a segment fit in memory, and in the count of the loop. *)
Definition seg_fits (fuel : nat) (pa count off : Z) : Prop :=
  0 ≤ count ∧ 0 ≤ off < 2 ^ 32 ∧ 0 ≤ seg_start pa off ∧ seg_stop pa count off < 2 ^ 32 ∧ nsects count off < Z.of_nat fuel.
Lemma readseg_spec fuel slow pa count off s : boot_ready slow (bt_ata s) → (slow < fuel)%nat → seg_fits fuel pa count off →
  ∃ a m, readseg fuel pa count off s = Ret (tt, mkBootst a m) ∧ boot_ready slow a ∧ a_disk a = a_disk (bt_ata s) ∧
    ∀ b, m b = copied (a_disk (bt_ata s)) pa count off (bt_mem s) b.
Proof.
  intros Hr Hf (Hc & Ho & Hst & Hsp & Hn). unfold readseg, copied. unfold seg_stop, seg_start, nsects, SECTSIZE in *.
  assert (0 ≤ off mod 512 < 512) as Hmod by (apply Z.mod_pos_bound; lia).
  set (k := (count + off mod 512 + (512 - 1)) / 512) in *.
  assert (512 * k ≤ count + off mod 512 + 511 < 512 * k + 512) as Hk by (subst k; Z.div_mod_to_equations; lia).
  rewrite !u32_small by lia.
  destruct (readseg_loop_spec fuel slow Hf (Z.to_nat k) fuel (pa - off mod 512) (pa + count) (off / 512 + 1) s) as (a & m & E & Ha & Hd & Hm);
    unfold SECTSIZE; try (done || lia).
  1-2: Z.div_mod_to_equations; lia.
  exists a, m. split_and!; [exact E|done|done|]. intros b. rewrite Hm. unfold SECTSIZE. rewrite Z2Nat.id by lia.
  destruct (_ && _); [|done]. unfold kernel_byte, SECTSIZE.
  replace (off + (b - pa)) with (b - (pa - off mod 512) + off / 512 * 512) by (Z.div_mod_to_equations; lia).
  rewrite Z.div_add, Z.mod_add by lia. f_equal. f_equal. lia.
Qed.

(** ** Loading *)
(** The first page of the file is at [0x10000]. *)
Definition header_page (a : Z) : Prop := 0x10000 ≤ a < 0x11000.
Definition holds_header (d : disk) (m : mem) : Prop := ∀ a, header_page a → m a = kernel_byte d (a - 0x10000).
Definition seg_ok (fuel : nat) (h : proghdr) : Prop :=
  seg_fits fuel (ph_paddr h) (ph_filesz h) (ph_off h) ∧ ph_paddr h + ph_memsz h ≤ 2 ^ 32 ∧
  ∀ a, touched h a → ¬ header_page a.

Lemma bytes_at_ext m m' a a' n : (∀ j, 0 ≤ j < Z.of_nat n → m (a + j) = m' (a' + j)) → bytes_at m a n = bytes_at m' a' n.
Proof.
  intros H. unfold bytes_at. apply list_fmap_ext. intros i x Hx. apply lookup_seq in Hx as [-> Hi]. apply H. lia.
Qed.
Lemma loaded_ext d h m m' : (∀ b, m b = m' b) → ∀ b, loaded d m h b = loaded d m' h b.
Proof. intros H b. unfold loaded, copied. by rewrite H. Qed.
Lemma foldl_loaded_ext d l : ∀ m m', (∀ b, m b = m' b) → ∀ b, foldl (loaded d) m l b = foldl (loaded d) m' l b.
Proof. induction l as [|h l IH]; intros m m' H b; [apply H|]. cbn [foldl]. apply IH. by apply loaded_ext. Qed.
Lemma loaded_untouched d h m a : ¬ touched h a → 0 ≤ ph_filesz h → loaded d m h a = m a.
Proof.
  unfold touched, loaded, copied. intros H Hf. assert (0 ≤ ph_off h mod SECTSIZE) by (by apply Z.mod_pos_bound).
  assert (seg_start (ph_paddr h) (ph_off h) ≤ ph_paddr h) by (unfold seg_start; lia).
  destruct (Z.leb_spec (ph_paddr h + ph_filesz h) a), (Z.ltb_spec a (ph_paddr h + ph_memsz h)); cbn [andb]; try lia.
  all: destruct (Z.leb_spec (seg_start (ph_paddr h) (ph_off h)) a), (Z.ltb_spec a (seg_stop (ph_paddr h) (ph_filesz h) (ph_off h)));
    cbn [andb]; (done || lia).
Qed.
Lemma loaded_header fuel d h m : seg_ok fuel h → holds_header d m → holds_header d (loaded d m h).
Proof.
  intros ((Hc & _) & _ & Hs) Hm a Ha. rewrite loaded_untouched; [by apply Hm| |done]. intros Ht. by eapply Hs.
Qed.

(** One round: the segment is read, and what the file does not give is zero. *)
Lemma segment_spec fuel slow d h s : boot_ready slow (bt_ata s) → a_disk (bt_ata s) = d → (slow < fuel)%nat → seg_ok fuel h →
  ∃ a m, (readseg fuel (ph_paddr h) (ph_filesz h) (ph_off h)) s = Ret (tt, mkBootst a m) ∧ boot_ready slow a ∧ a_disk a = d ∧
    (∀ b, m b = copied d (ph_paddr h) (ph_filesz h) (ph_off h) (bt_mem s) b) ∧
    let m' := if ph_filesz h <? ph_memsz h
              then stosb m (u32 (ph_paddr h + ph_filesz h)) 0 (Z.to_nat (ph_memsz h - ph_filesz h)) else m in
    ∀ b, m' b = loaded d (bt_mem s) h b.
Proof.
  intros Hr <- Hf (Hfit & Hm & _). destruct (readseg_spec fuel slow _ _ _ s Hr Hf Hfit) as (a & m & E & Ha & Hd & Hc).
  exists a, m. split_and!; [done|done|done|done|]. intros m' b. unfold m', loaded. destruct Hfit as (Hfs & Ho & Hst & _).
  assert (0 ≤ ph_off h mod SECTSIZE) by (by apply Z.mod_pos_bound). unfold seg_start in Hst.
  destruct (Z.ltb_spec (ph_filesz h) (ph_memsz h)).
  - rewrite stosb_spec, u32_small by lia. unfold within. rewrite Z2Nat.id by lia.
    replace (ph_paddr h + ph_filesz h + (ph_memsz h - ph_filesz h)) with (ph_paddr h + ph_memsz h) by lia.
    destruct (_ && _); [done|apply Hc].
  - rewrite Hc. destruct (Z.leb_spec (ph_paddr h + ph_filesz h) b), (Z.ltb_spec b (ph_paddr h + ph_memsz h)); cbn [andb]; (done || lia).
Qed.
Lemma copied_header fuel d h m m' : seg_ok fuel h → holds_header d m →
  (∀ b, m' b = copied d (ph_paddr h) (ph_filesz h) (ph_off h) m b) → holds_header d m'.
Proof.
  intros (_ & _ & Hs) Hm H a Ha. rewrite H. unfold copied.
  destruct (Z.leb_spec (seg_start (ph_paddr h) (ph_off h)) a), (Z.ltb_spec a (seg_stop (ph_paddr h) (ph_filesz h) (ph_off h)));
    cbn [andb]; try by apply Hm. destruct (Hs a); [|done]. unfold touched. lia.
Qed.
Definition header_fits (d : disk) : Prop :=
  0 ≤ e_phoff (kernel_elf d) ∧ 0 ≤ e_phnum (kernel_elf d) ∧
  e_phoff (kernel_elf d) + sizeof_proghdr * e_phnum (kernel_elf d) ≤ 4096.
Lemma ph_at_spec d i s : holds_header d (bt_mem s) → header_fits d → Z.of_nat i < e_phnum (kernel_elf d) →
  ph_at (0x10000 + e_phoff (kernel_elf d) + sizeof_proghdr * Z.of_nat i) s = Ret (kernel_ph d i, s).
Proof.
  intros Hm (Hoff & Hnum & Hfit) Hi. unfold ph_at, gets, kernel_ph. do 3 f_equal. apply bytes_at_ext.
  unfold sizeof_proghdr in *. intros j Hj. rewrite Hm; [f_equal; lia|unfold header_page; lia].
Qed.
Lemma elf_at_spec d s : holds_header d (bt_mem s) → elf_at 0x10000 s = Ret (kernel_elf d, s).
Proof.
  intros Hm. unfold elf_at, gets, kernel_elf. do 3 f_equal. apply bytes_at_ext. unfold sizeof_elfhdr.
  intros j Hj. rewrite Hm; [f_equal; lia|unfold header_page; lia].
Qed.

Lemma load_segments_spec fuel slow d : (slow < fuel)%nat → header_fits d → ∀ k i n s, boot_ready slow (bt_ata s) → a_disk (bt_ata s) = d →
  holds_header d (bt_mem s) → (k < n)%nat → Z.of_nat (i + k) = e_phnum (kernel_elf d) →
  (∀ j, (i ≤ j < i + k)%nat → seg_ok fuel (kernel_ph d j)) →
  ∃ a m, load_segments fuel n (0x10000 + e_phoff (kernel_elf d) + sizeof_proghdr * Z.of_nat i)
      (0x10000 + e_phoff (kernel_elf d) + sizeof_proghdr * e_phnum (kernel_elf d)) s = Ret (tt, mkBootst a m) ∧
    a_disk a = d ∧ ∀ b, m b = foldl (loaded d) (bt_mem s) (kernel_ph d <$> seq i k) b.
Proof.
  intros Hf Hfit. induction k as [|k IH]; intros i n s Hr Hd Hm Hn Hik Hs; (destruct n as [|n]; [lia|]); cbn [load_segments].
  - destruct (Z.ltb_spec (0x10000 + e_phoff (kernel_elf d) + sizeof_proghdr * Z.of_nat i)
      (0x10000 + e_phoff (kernel_elf d) + sizeof_proghdr * e_phnum (kernel_elf d))); [unfold sizeof_proghdr in *; lia|].
    destruct s as [a m]. by exists a, m.
  - destruct (Z.ltb_spec (0x10000 + e_phoff (kernel_elf d) + sizeof_proghdr * Z.of_nat i)
      (0x10000 + e_phoff (kernel_elf d) + sizeof_proghdr * e_phnum (kernel_elf d))); [|unfold sizeof_proghdr in *; lia].
    erewrite bind_Ret by (apply ph_at_spec; [done|done|lia]).
    assert (seg_ok fuel (kernel_ph d i)) as Hok by (apply Hs; lia).
    destruct (segment_spec fuel slow d _ s Hr Hd Hf Hok) as (a & m & E & Ha & Hda & Hc & Hl). erewrite bind_Ret by exact E.
    erewrite bind_Ret by (apply ph_at_spec; [by eapply copied_header|done|lia]).
    set (m' := if _ <? _ then _ else _) in Hl. cbv zeta in Hl.
    rewrite (bind_Ret _ _ _ tt (mkBootst a m')) by (unfold m'; by destruct (_ <? _)).
    destruct Hfit as (Hoff & Hnum & Hfit). rewrite u32_small by (unfold sizeof_proghdr in *; lia).
    replace (_ + sizeof_proghdr) with (0x10000 + e_phoff (kernel_elf d) + sizeof_proghdr * Z.of_nat (S i)) by (unfold sizeof_proghdr; lia).
    destruct (IH (S i) n (mkBootst a m')) as (a' & m2 & E' & Hd' & Hm2); [done|done| |lia|lia| |].
    { intros b Hb. cbn [bt_mem]. rewrite Hl. by eapply loaded_header. }
    { intros j Hj. apply Hs. lia. }
    exists a', m2. split_and!; [exact E'|done|]. intros b. rewrite Hm2. cbn [bt_mem]. change (seq i (S k)) with (i :: seq (S i) k).
    cbn [fmap list_fmap foldl]. by apply foldl_loaded_ext.
Qed.

(** The memory a segment is meant for *)
Definition segment (h : proghdr) (a : Z) : Prop := ph_paddr h ≤ a < ph_paddr h + Z.max (ph_filesz h) (ph_memsz h).
(** "Might copy more than asked": no segment may reach into one before it. *)
Definition in_order (l : list proghdr) : Prop :=
  ∀ i j h h' a, (i < j)%nat → l !! i = Some h → l !! j = Some h' → segment h a → ¬ touched h' a.

Lemma fold_untouched d l a : (∀ h, h ∈ l → 0 ≤ ph_filesz h ∧ ¬ touched h a) → ∀ m, foldl (loaded d) m l a = m a.
Proof.
  induction l as [|h l IH]; intros H m; [done|]. cbn [foldl]. destruct (H h) as [Hf Ht]; [apply list_elem_of_here|].
  rewrite IH; [by apply loaded_untouched|]. intros h' Hh'. apply H. by apply list_elem_of_further.
Qed.
Lemma loaded_segment d m h a : 0 ≤ ph_filesz h → segment h a →
  loaded d m h a = if a <? ph_paddr h + ph_filesz h then kernel_byte d (ph_off h + (a - ph_paddr h)) else 0.
Proof.
  unfold segment, loaded, copied, seg_start, seg_stop, nsects, seg_start, SECTSIZE. intros Hf Ha.
  assert (0 ≤ ph_off h mod 512 < 512) by (apply Z.mod_pos_bound; lia).
  set (k := (_ / 512)). assert (ph_filesz h + ph_off h mod 512 ≤ 512 * k) by (subst k; Z.div_mod_to_equations; lia).
  destruct (Z.ltb_spec a (ph_paddr h + ph_filesz h)), (Z.leb_spec (ph_paddr h + ph_filesz h) a), (Z.ltb_spec a (ph_paddr h + ph_memsz h));
    cbn [andb]; try (done || lia).
  all: destruct (Z.leb_spec (ph_paddr h - ph_off h mod 512) a), (Z.ltb_spec a (ph_paddr h - ph_off h mod 512 + 512 * k));
    cbn [andb]; (done || lia).
Qed.
Lemma fold_segment d l h a m : in_order l → (∀ h, h ∈ l → 0 ≤ ph_filesz h) → h ∈ l → segment h a →
  foldl (loaded d) m l a = if a <? ph_paddr h + ph_filesz h then kernel_byte d (ph_off h + (a - ph_paddr h)) else 0.
Proof.
  intros Ho Hf Hh Ha. apply list_elem_of_lookup in Hh as [i Hi].
  rewrite <- (take_drop_middle l i h Hi), foldl_app. cbn [foldl]. rewrite fold_untouched.
  - apply loaded_segment; [|done]. apply Hf. by eapply list_elem_of_lookup_2.
  - intros h' Hh'. apply list_elem_of_lookup in Hh' as [j Hj]. rewrite lookup_drop in Hj.
    split; [apply Hf; by eapply list_elem_of_lookup_2|]. eapply (Ho i (S i + j)%nat); [lia|done..].
Qed.
Lemma fold_header fuel d l : (∀ h, h ∈ l → seg_ok fuel h) → ∀ m, holds_header d m → holds_header d (foldl (loaded d) m l).
Proof.
  induction l as [|h l IH]; intros H m Hm; [done|]. cbn [foldl]. apply IH.
  - intros h' Hh'. apply H. by apply list_elem_of_further.
  - eapply loaded_header; [|done]. apply H, list_elem_of_here.
Qed.
Lemma phs_elem d i : (i < Z.to_nat (e_phnum (kernel_elf d)))%nat → kernel_ph d i ∈ kernel_phs d.
Proof. intros Hi. apply list_elem_of_fmap_2, elem_of_seq. lia. Qed.

(** Claim C31: Whatever the speed of the disk, which reports no error, bootmain
    reads the header of the file from sector 1 on.  If it is no ELF file bootmain returns.  Otherwise, when
    the program headers are in the first page, no segment is loaded over that
    page and none reaches into an earlier one, bootmain jumps to the entry
    point of the header, with the bytes of the file and then zeros in the
    memory of every segment; memory that no segment and no sector of one falls
    on keeps its contents. *)
Theorem bootmain_loads_kernel fuel slow s : boot_ready slow (bt_ata s) → (slow < fuel)%nat → (8 < fuel)%nat →
  let d := a_disk (bt_ata s) in
  (e_magic (kernel_elf d) ≠ ELF_MAGIC → ∃ s', bootmain fuel s = Ret (None, s')) ∧
  (e_magic (kernel_elf d) = ELF_MAGIC → header_fits d → e_phnum (kernel_elf d) < Z.of_nat fuel →
    Forall (seg_ok fuel) (kernel_phs d) → in_order (kernel_phs d) →
    ∃ s', bootmain fuel s = Ret (Some (e_entry (kernel_elf d)), s') ∧
      (∀ h a, h ∈ kernel_phs d → segment h a →
        bt_mem s' a = if a <? ph_paddr h + ph_filesz h then kernel_byte d (ph_off h + (a - ph_paddr h)) else 0) ∧
      (∀ a, ¬ header_page a → (∀ h, h ∈ kernel_phs d → ¬ touched h a) → bt_mem s' a = bt_mem s a)).
Proof.
  intros Hr Hf H8 d. assert (seg_fits fuel 0x10000 4096 0) as Hfit0.
  { unfold seg_fits. change (seg_start 0x10000 0) with 0x10000. change (seg_stop 0x10000 4096 0) with 0x11000.
    change (nsects 4096 0) with 8. lia. }
  destruct (readseg_spec fuel slow 0x10000 4096 0 s Hr Hf Hfit0) as (a & m & E & Ha & Hd & Hm). fold d in Hd, Hm.
  assert (∀ b, m b = if (0x10000 <=? b) && (b <? 0x11000) then kernel_byte d (b - 0x10000) else bt_mem s b) as Hm' by exact Hm.
  assert (holds_header d m) as Hh.
  { intros b Hb. rewrite Hm'. unfold header_page in Hb.
    destruct (Z.leb_spec 0x10000 b), (Z.ltb_spec b 0x11000); cbn [andb]; (done || lia). }
  unfold bootmain. erewrite bind_Ret by exact E. erewrite bind_Ret by (by apply elf_at_spec).
  split; [intros Hmag; destruct (Z.eqb_spec (e_magic (kernel_elf d)) ELF_MAGIC); [done|]; cbn [negb]; by eexists|].
  intros -> Hhf Hnum Hsegs Hord. cbn [negb Z.eqb]. rewrite Z.eqb_refl. cbn [negb]. rewrite Forall_forall in Hsegs.
  pose proof Hhf as (Hoff & Hn & Hend). unfold sizeof_proghdr in Hend. rewrite !u32_small by (unfold sizeof_proghdr; rewrite ?u32_small; lia).
  destruct (load_segments_spec fuel slow d Hf Hhf (Z.to_nat (e_phnum (kernel_elf d))) 0 fuel (mkBootst a m)) as (a' & m' & E' & _ & Hm2);
    [done|done|done|lia|lia|intros j Hj; apply Hsegs, phs_elem; lia|].
  rewrite Z.mul_0_r, Z.add_0_r in E'. erewrite bind_Ret by exact E'. cbn [bt_mem] in Hm2. fold (kernel_phs d) in Hm2.
  erewrite bind_Ret; [|apply elf_at_spec]; [|intros b Hb; cbn [bt_mem]; rewrite Hm2; by eapply fold_header].
  assert (∀ h, h ∈ kernel_phs d → 0 ≤ ph_filesz h) as Hfs by (intros h Hin; by destruct (Hsegs h Hin) as ((? & _) & _)).
  eexists. split; [reflexivity|]. cbn [bt_mem]. split.
  - intros h b Hin Hb. rewrite Hm2. by apply fold_segment.
  - intros b Hb Hun. rewrite Hm2, fold_untouched by (intros h Hin; split; [by apply Hfs|by apply Hun]). rewrite Hm'.
    unfold header_page in Hb. destruct (Z.leb_spec 0x10000 b), (Z.ltb_spec b 0x11000); cbn [andb]; (done || lia).
Qed.

(** A kernel of two segments *)
Definition whead : block :=
  put32 0 ELF_MAGIC (put32 24 0x10000c (put32 28 52 (put16 44 2
    (put32 (52 + 4) 512 (put32 (52 + 12) 0x100000 (put32 (52 + 16) 5 (put32 (52 + 20) 600
    (put32 (84 + 4) 1025 (put32 (84 + 12) 0x101001 (put32 (84 + 16) 3 (put32 (84 + 20) 3 zero_block))))))))))).
Definition wbdisk : disk := λ _ n, if n =? 1 then whead else if n =? 2 then replicate 512 7 else replicate 512 9.
Definition wboot : bootst := mkBootst (mkAta 0 0 0 0 0xe0 2 2 false false [] false wbdisk) (λ _, 1).
Lemma wboot_ready : boot_ready 2 (bt_ata wboot).
Proof.
  assert (block_ok whead) as Hw.
  { assert ((length whead =? 512)%nat && forallb (λ x, (0 <=? x) && (x <? 256)) whead = true) as [Hl Hb]%andb_true_iff
      by (vm_compute; reflexivity).
    split; [by apply Nat.eqb_eq in Hl|]. rewrite Forall_forall. intros x Hx. rewrite forallb_forall in Hb.
    apply list_elem_of_In, Hb in Hx. unfold byte_ok. lia. }
  split_and!; [split_and!; cbn; [done|lia|lia]|by right|]. intros n.
  change (a_disk (bt_ata wboot) 0 n) with (if n =? 1 then whead else if n =? 2 then replicate 512 7 else replicate 512 9).
  destruct (n =? 1); [exact Hw|].
  destruct (n =? 2); (split; [apply length_replicate|apply Forall_replicate; unfold byte_ok; lia]).
Qed.
Definition wph1 : proghdr := mkPh 0 512 0 0x100000 5 600 0 0.
Definition wph2 : proghdr := mkPh 0 1025 0 0x101001 3 3 0 0.
Lemma wboot_headers : kernel_phs wbdisk = [wph1; wph2].
Proof. vm_compute. reflexivity. Qed.
Lemma wboot_elf : e_magic (kernel_elf wbdisk) = ELF_MAGIC ∧ e_entry (kernel_elf wbdisk) = 0x10000c ∧
  e_phoff (kernel_elf wbdisk) = 52 ∧ e_phnum (kernel_elf wbdisk) = 2.
Proof. split_and!; vm_compute; reflexivity. Qed.
Lemma wboot_segments : Forall (seg_ok 20) [wph1; wph2].
Proof.
  repeat apply Forall_cons_2; [..|by apply Forall_nil_2]; unfold seg_ok, seg_fits, touched, header_page;
    cbn [wph1 wph2 ph_paddr ph_off ph_filesz ph_memsz].
  - change (seg_start 0x100000 512) with 0x100000. change (seg_stop 0x100000 5 512) with 0x100200. change (nsects 5 512) with 1.
    split_and!; [lia..|]. intros a. lia.
  - change (seg_start 0x101001 1025) with 0x101000. change (seg_stop 0x101001 3 1025) with 0x101200. change (nsects 3 1025) with 1.
    split_and!; [lia..|]. intros a. lia.
Qed.
Lemma wboot_order : in_order [wph1; wph2].
Proof.
  intros [|[|i]] [|[|j]] h h' a Hij Hi Hj; try lia; try discriminate. injection Hi as <-. injection Hj as <-.
  unfold segment, touched. cbn [wph1 wph2 ph_paddr ph_off ph_filesz ph_memsz].
  change (seg_start 0x101001 1025) with 0x101000. change (seg_stop 0x101001 3 1025) with 0x101200. lia.
Qed.
Lemma bootmain_loads_kernel_witness :
  ∃ s', bootmain 20 wboot = Ret (Some 0x10000c, s') ∧ bt_mem s' 0x100005 = 0 ∧ bt_mem s' 0x200000 = 1.
Proof.
  destruct (bootmain_loads_kernel 20 2 wboot wboot_ready ltac:(lia) ltac:(lia)) as [_ H].
  change (a_disk (bt_ata wboot)) with wbdisk in H. destruct wboot_elf as (H1 & H2 & H3 & H4).
  unfold header_fits, sizeof_proghdr in H. rewrite wboot_headers, H2, H3, H4 in H.
  destruct (H H1 ltac:(lia) ltac:(lia) wboot_segments wboot_order) as (s' & E & Hseg & Hun). exists s'. split_and!; [exact E| |].
  - rewrite (Hseg wph1); [reflexivity|apply list_elem_of_here|]. unfold segment. cbn [wph1 ph_paddr ph_filesz ph_memsz]. lia.
  - rewrite Hun; [reflexivity|unfold header_page; lia|]. intros h Hh. unfold touched.
    apply list_elem_of_In in Hh as [<-|[<-|[]]]; cbn [wph1 wph2 ph_paddr ph_off ph_filesz ph_memsz].
    + change (seg_start 0x100000 512) with 0x100000. change (seg_stop 0x100000 5 512) with 0x100200. lia.
    + change (seg_start 0x101001 1025) with 0x101000. change (seg_stop 0x101001 3 1025) with 0x101200. lia.
Defined.

(** ** The boot page table (main.c)

    entry.S and entryother.S turn paging on with [entrypgdir], whose entries
    map pages of 4MB. *)
Definition PTE_PS : Z := 0x080.
Definition entrypgdir : list Z :=
  <[Z.to_nat (Z.shiftr KERNBASE PDXSHIFT) := Z.lor (Z.lor (Z.lor 0 PTE_P) PTE_W) PTE_PS]>
    (<[0%nat := Z.lor (Z.lor (Z.lor 0 PTE_P) PTE_W) PTE_PS]> (replicate (Z.to_nat NPDENTRIES) 0)).
(** What the processor makes of an address when every present entry of the
    directory is a page of 4MB: the physical address, or a fault. *)
Definition translate (pgdir : list Z) (va : Z) : option Z :=
  let pde := default 0 (pgdir !! Z.to_nat (PDX va)) in
  if truth (Z.land pde PTE_P) && truth (Z.land pde PTE_PS)
  then Some (Z.lor (Z.land pde 0xFFC00000) (Z.land va 0x3FFFFF)) else None.
(** The kernel runs at its high addresses and goes on running at the low ones
    it was loaded to; nothing else is mapped. *)
Lemma entrypgdir_maps va : 0 ≤ va < 2 ^ 32 →
  translate entrypgdir va =
    if va <? 4 * 2 ^ 20 then Some va
    else if (KERNBASE <=? va) && (va <? KERNBASE + 4 * 2 ^ 20) then Some (va - KERNBASE) else None.
Proof.
  intros Hva. unfold translate, entrypgdir. rewrite PDX_div, u32_small by done.
  change (Z.shiftr KERNBASE PDXSHIFT) with 512. change (Z.to_nat 512) with 512%nat. change (Z.to_nat NPDENTRIES) with 1024%nat.
  change (Z.lor (Z.lor (Z.lor 0 PTE_P) PTE_W) PTE_PS) with 0x83. unfold KERNBASE.
  change 0x3FFFFF with (Z.ones 22). rewrite Z.land_ones by lia.
  assert (Z.to_nat (va / 2 ^ 22) < 1024)%nat as Hi by (Z.div_mod_to_equations; lia).
  destruct (Z.ltb_spec va (4 * 2 ^ 20)).
  { assert (va / 2 ^ 22 = 0) as -> by (apply Z.div_small; lia). rewrite Z.mod_small by lia. reflexivity. }
  destruct (Z.leb_spec 0x80000000 va), (Z.ltb_spec va (0x80000000 + 4 * 2 ^ 20)); cbn [andb].
  1: { assert (va / 2 ^ 22 = 512 ∧ va mod 2 ^ 22 = va - 0x80000000) as [-> ->] by (Z.div_mod_to_equations; lia).
       generalize (va - 0x80000000). intros o. reflexivity. }
  all: assert (Z.to_nat (va / 2 ^ 22) ≠ 512 ∧ Z.to_nat (va / 2 ^ 22) ≠ 0)%nat as [? ?] by (Z.div_mod_to_equations; lia).
  all: rewrite !list_lookup_insert_ne by done; rewrite lookup_replicate_2 by done; done.
Qed.
